(* ===== verification/_CoqProject ===== *)
-Q . S2P
Prelude.v
Util.v
Kernel.v
KernelCorrect.v
Avx2.v
Damage.v
Mirror.v
ReadBuffer.v
Wire.v
Protocol.v
ProtocolCorrect.v
Channel.v
Compress.v
Tasks.v
TasksCorrect.v
Formats.v
Geometry.v
GeometryCorrect.v
Time.v
TrackState.v
Arms.v
GpuArms.v
Tracking.v
TrackingCorrect.v
TrackingSafe.v
TrackingTyped.v
TrackingSpace.v
Sockets.v
Sfds.v
SfdsCorrect.v
Loop.v
LoopCorrect.v
LoopEnd.v
Defects.v
WaitThread.v
Applied.v
Replicate.v
Dmabuf.v
DmabufCorrect.v
DmabufTasks.v
DmabufReplicate.v
DmabufDiff.v
Sched.v
Connect.v
Supervise.v
Secctx.v
