(* ===== verification/Prelude.v ===== *)
(** * Waypipe: a verification of the Rust proxy

    Waypipe forwards the Wayland protocol between machines. One instance runs next to the
    application, one next to the compositor (the display side), and a socket, the channel, joins
    them. An instance reads protocol messages from its Wayland socket, tracks the objects they
    create, turns file descriptors into numbered files that it replicates, and writes messages
    and file updates to the channel; the other instance does the reverse.

    ** How the program is put together, and where it is modelled

    - Wayland side: messages are parsed and written ([src/wayland.rs], [Wire]) by generated
      functions and described by generated tables ([src/wayland_gen.rs], [Protocol],
      [ProtocolCorrect]). [process_way_msg] of [src/tracking.rs] handles one message
      ([Tracking]): [TrackState] has its state, with the functions of [src/mainloop.rs] it calls,
      [Arms] the arms of its match for objects and shared memory, [GpuArms] those for DMABUFs,
      timelines and screen capture; [TrackingCorrect], [TrackingSafe], [TrackingTyped] and
      [TrackingSpace] have the theorems. It uses the timestamps of [Time], the pixel formats of
      [Formats] ([src/util.rs]) and the damage geometry of [Geometry] and [GeometryCorrect].
      [Sockets] reads and writes the socket of the program.
    - Files: the damage of a surface becomes byte intervals of its shared memory pool
      ([src/damage.rs], [Damage]); [collect_updates] of [src/mainloop.rs] splits them into tasks
      ([Tasks], [TasksCorrect]), which compare the mapping with a mirror ([src/mirror.rs],
      [Mirror]), build a diff ([src/kernel.rs]: [Kernel], [KernelCorrect], and [Avx2] for the
      routine with vector instructions and the choice between the two) and compress it
      ([src/compress.rs], [Compress]). The receiver decompresses and applies it; [Replicate]
      composes the two sides. Worker threads run the tasks ([work_thread], [pop_task]: [Sched]);
      [Applied] says what an application writes.
    - DMABUFs: [Dmabuf] has the formats, devices, checks and copies of [src/dmabuf.rs] and
      [src/gbm.rs], [DmabufTasks] the tasks of [src/mainloop.rs] that replicate images;
      [DmabufCorrect], [DmabufReplicate] and [DmabufDiff] have the theorems.
    - Channel: messages are queued and written by [write_to_channel] ([Channel]), and cut from
      the byte stream by the [ReadBuffer] of [src/read.rs] ([ReadBuffer]). [Sfds] handles the
      messages about files, pipes, DMABUFs and timelines ([process_sfd_msg], [collect_updates]);
      [SfdsCorrect] composes the two ends of a pipe.
    - Main loop of a connection: [Loop] has [process_channel], [process_wayland_1] and a round
      of [loop_inner]; [LoopCorrect], [LoopEnd] and [Defects] have the theorems. [WaitThread] is the thread
      that tells it of the device's timeline where that cannot be polled.
    - Processes: [Connect] has the option values and the header with which a connection starts,
      [Supervise] the main processes of server and client, both of [src/main.rs]; [Secctx] is the
      exchange with the compositor of [src/secctx.rs].
    - [Util] has the message headers and the arithmetic of [src/util.rs]; this file has what
      everything shares: results, checked integer arithmetic, byte slices, automation.

    Definitions carry the names of the source, and records and constructors its fields and
    variants; an arm of a large [match] is a definition [arm_*].

    ** What the theorems show

    - Replication: a diff of any damaged intervals, encoded, compressed with any codec, decoded
      and applied, gives the receiver the sender's bytes exactly there ([KernelCorrect],
      [Replicate], [Compress]), and the AVX2 routine can stand in for the portable one ([Avx2]);
      the tasks made from a file's damage cover exactly the damage ([TasksCorrect]); the
      intervals made from rectangles cover them, aligned and separated ([Damage]); a commit marks
      every pixel that reported damage of surface or buffer may have changed, and the coordinate changes of damage lose none
      ([GeometryCorrect]).
    - DMABUFs: copies between images and buffers move exactly the pixels asked for
      ([DmabufCorrect]); fills and diffs give the receiver's image the pixels of the sender's
      ([DmabufReplicate], [DmabufDiff]).
    - Concurrency: disjoint applications commute ([Applied]), so that under every interleaving of
      the workers the applications have the effect of running them in the order of the stream, and
      the assertions of the scheduler hold ([Sched]); ranges of
      a mirror are handed out exclusively ([Mirror]); the thread that waits for the device loses no
      wakeup and ends when it is asked to ([WaitThread]).
    - Channel: what the reader frames is what the writer queued, in whatever parts, whatever part of
      each write and read the kernel takes, for connections without acknowledgements; no state
      reachable makes reader or writer panic ([ReadBuffer], [Channel]). Pipes are first in, first out, and close ([SfdsCorrect]); the socket of the
      program gets the bytes and descriptors queued for it, once and in order ([Sockets]).
    - Main loop: protocol messages are handled whole, once and in order; with room for output
      the loop gets ahead and does not spin, and its loops end ([LoopCorrect]); results of tasks
      are counted exactly and end waiting, directions only close, and what is queued at the end
      is delivered ([LoopEnd]).
    - Protocol: every generated message round-trips and agrees with the interface table; the
      table is searched correctly ([ProtocolCorrect]). Processing forwards messages unchanged
      up to tag bits, with descriptors in order ([TrackingCorrect]), can be retried and keeps
      the descriptor queue bounded ([TrackingSafe]), keeps objects well typed
      ([TrackingTyped]) and accounts for the output buffer ([TrackingSpace]); tagging a message
      for the channel is undone on the other side; timestamps are translated exactly ([Time]).
    - Processes: the connection header negotiates the version, option values survive being
      passed on, and the hostname is found among the arguments of ssh ([Connect]); children are
      tracked until they were waited for, and lock files of X displays are kept apart
      ([Supervise]); the security context is registered by the requests meant ([Secctx]).
    - Error behaviour: theorems and lemmas that state what goes wrong: exchanges of messages that
      end in a refusal, a panic or a loss ([Defects]), the end of a connection with tasks running
      ([LoopEnd]), pixels of three bytes ([DmabufDiff]), and particular inputs ([Mirror],
      [KernelCorrect], [Channel], [Time], [GeometryCorrect], [Secctx]).

    ** How the code is read

    - A function returns [Ok], [Err] or [Panic] ([res]); [Panic] is an assertion, an [unwrap], an
      index out of range, [unreachable!], or integer overflow, which panics in the [dev]
      profile. Theorems that give [Ok] show that none is reached. The texts of errors are their
      fixed parts. Logging is left out.
    - Integers are [Z] with their width where it matters: [u32], [u64], [usize] (64 bits) check
      the range, [wrap], [swrap], [checked] and [sat] are the explicit operations. The host is
      little-endian.
    - Slices and vectors are lists with checked access. A [&mut [u8]] that shrinks as it is
      written is a pair of the bytes written and the rest. Pointers are not modelled: a mapping
      is the list of the values read from it, each byte being read once.
    - [Rc<RefCell<ShadowFd>>] is the number ([Rid]) of the shared object; there is one copy, in
      the map of the connection. File descriptors are numbers.
    - Recursion is structural, or has fuel that the theorems show to be enough: the theorems
      about [compute_damaged_segments], [split_damage], [extract_messages], the diff loops
      ([Avx2.segments_ok] for those of AVX2) and the segments of a DMABUF's diff give a result,
      so the fuel (the bytes, rows, words or slabs left) never runs out. More fuel than the
      loops of [process_channel] and [process_wayland_1] get changes nothing
      ([LoopCorrect.loops_terminate]); the loop over the arguments of ssh has one unit per
      argument ([Connect.locate_loop_total]); those of [Secctx] have the bytes left,
      as every event takes eight.
    - Threads: a step is a critical section under the mutex; everything between belongs to the
      step that follows or precedes it.
    - Parameters stand for what is outside the source: [readv], [writev], [recvmsg], [sendmsg],
      [read] and [write] (any answer of the kernel; [IoAnswer] and the answers of a [Round]), LZ4
      and Zstd (class [CompLib] with the laws of their manuals), [mmap], [clock_gettime] and
      [memfd_create] (class [Sys]), other system calls and reference counts (classes [SfdSys],
      [Refs]), what Vulkan and GBM answer (classes [Gpu], [SfdGpu], [GbmLib], and [VkLib] with the
      laws of copies [VkLaws], which the instance [soft] has), the video codec ([Codec]), the
      features of the processor ([Cpu]), the parsing and printing of floats ([F32]), the
      children the kernel reports ([Supervise]), and [slice::sort_unstable] (some sorted
      permutation).

    ** Not modelled

    - [src/mainloop.rs]: the start of the worker threads; formatting for the log.
    - [src/main.rs]: the declaration of the command line, opening and binding of sockets,
      spawning of ssh, the logger, the modes that serve one connection.
    - [src/dmabuf.rs], [src/gbm.rs]: creation and destruction of Vulkan and GBM objects, which
      are sequences of foreign calls; [src/video.rs]: calls of FFmpeg and Vulkan Video.
    - [src/platform.rs], [src/stub.rs]: system calls and disabled features.
    - [src/bench.rs], [src/test_proto.rs], the fuzzing and build programs. *)

From Stdlib Require Import ZArith Lia Bool Sorting.Permutation.
From Stdlib Require Export Ascii.
From coqutil Require Export Word.LittleEndianList Byte.
From stdpp Require Export base tactics strings numbers.
From stdpp Require Export list.

#[export] Set Default Proof Using "Type".
Local Open Scope Z_scope.

(** ** Results of Rust code

    A Rust function returns a value, returns [Err], or panics: an [assert!], an [unwrap] of
    [None], an out-of-range slice, or an integer overflow in the [dev] profile. *)
Inductive res (A : Type) : Type :=
| Ok (a : A)
| Err (msg : string)
| Panic.
Arguments Ok {A} a.
Arguments Err {A} msg.
Arguments Panic {A}.

#[export] Instance res_ret : MRet res := @Ok.
#[export] Instance res_bind : MBind res := fun A B f m =>
  match m with Ok a => f a | Err e => Err e | Panic => Panic end.
#[export] Instance res_fmap : FMap res := fun A B f m =>
  match m with Ok a => Ok (f a) | Err e => Err e | Panic => Panic end.

#[export] Instance res_eq_dec `{EqDecision A} : EqDecision (res A).
Proof. solve_decision. Defined.

(** [assert!(b)] *)
Definition assert_ (b : bool) : res unit := if b then Ok tt else Panic.

(** [o.ok_or(msg)] and [o.unwrap()] *)
Definition ok_or {A} (msg : string) (o : option A) : res A :=
  match o with Some a => Ok a | None => Err msg end.
Definition unwrap {A} (o : option A) : res A :=
  match o with Some a => Ok a | None => Panic end.

Definition is_Ok {A} (r : res A) : Prop := exists a, r = Ok a.
Definition ok_b {A} (r : res A) : bool := match r with Ok _ => true | _ => false end.

Lemma bind_Ok {A B} (r : res A) (f : A -> res B) b :
  r ≫= f = Ok b <-> exists a, r = Ok a /\ f a = Ok b.
Proof. destruct r; cbn; naive_solver. Qed.

Lemma bind_ret {A B} (a : A) (f : A -> res B) : Ok a ≫= f = f a.
Proof. done. Qed.

Lemma bind_assoc {A B C} (m : res A) (f : A -> res B) (g : B -> res C) :
  (m ≫= f) ≫= g = m ≫= (fun a => f a ≫= g).
Proof. by destruct m. Qed.

Lemma assert_Ok b u : assert_ b = Ok u <-> b = true.
Proof. destruct u, b; cbn; naive_solver. Qed.

Lemma assert_true b : b = true -> assert_ b = Ok tt.
Proof. by intros ->. Qed.

(** A loop over the elements of a list that threads a state. *)
Fixpoint foldM {A S} (f : S -> A -> res S) (s : S) (l : list A) : res S :=
  match l with
  | [] => Ok s
  | x :: l => s' ← f s x; foldM f s' l
  end.

Lemma foldM_app {A S} (f : S -> A -> res S) l1 l2 s :
  foldM f s (l1 ++ l2) = s' ← foldM f s l1; foldM f s' l2.
Proof.
  revert s; induction l1 as [|x l1 IH]; intros s; cbn; [done|].
  rewrite bind_assoc. destruct (f s x); cbn; auto.
Qed.

(** ** Machine integers

    A [w]-bit unsigned integer is a [Z] in [[0, 2^w)]. Arithmetic that the source leaves
    unchecked panics on overflow in the [dev] profile; [chk w] is that check. The development
    proves the functions do not reach it, so the [release] profile computes the same values. *)
Definition uN w (z : Z) : Prop := 0 <= z < 2 ^ w.
Definition in_U w (z : Z) : bool := (0 <=? z) && (z <? 2 ^ w).
Definition chk w (z : Z) : res Z := if in_U w z then Ok z else Panic.
Abbreviation usize := (chk 64).
Abbreviation u64 := (chk 64).
Abbreviation u32 := (chk 32).

Definition iN w (z : Z) : Prop := - 2 ^ (w - 1) <= z < 2 ^ (w - 1).
Definition in_I w (z : Z) : bool := (- 2 ^ (w - 1) <=? z) && (z <? 2 ^ (w - 1)).
Definition ichk w (z : Z) : res Z := if in_I w z then Ok z else Panic.

Definition usize_max : Z := 2 ^ 64 - 1.
Definition isize_max : Z := 2 ^ 63 - 1.
Definition u32_max : Z := 2 ^ 32 - 1.
Definition i32_max : Z := 2 ^ 31 - 1.
Definition i32_min : Z := - 2 ^ 31.

(** [x.checked_op(y)] on [w]-bit unsigned integers, given the exact result. *)
Definition checked w (z : Z) : option Z := if in_U w z then Some z else None.
(** [x.saturating_add(y)] and [x.saturating_mul(y)] for unsigned operands. *)
Definition sat w (z : Z) : Z := Z.min z (2 ^ w - 1).
(** [x as uN] *)
Definition wrap w (z : Z) : Z := z mod 2 ^ w.
(** [x as iN] *)
Definition swrap w (z : Z) : Z := (z + 2 ^ (w - 1)) mod 2 ^ w - 2 ^ (w - 1).
(** [x.div_ceil(y)] for unsigned operands. *)
Definition div_ceil (a b : Z) : Z := (a + b - 1) / b.
(** [a / b] and [a % b] for unsigned operands. *)
Definition udiv (a b : Z) : res Z := if b =? 0 then Panic else Ok (a / b).
Definition umod (a b : Z) : res Z := if b =? 0 then Panic else Ok (a mod b).
(** [x.clamp(lo, hi)] (the caller has [lo <= hi]). *)
Definition clamp (x lo hi : Z) : Z := if x <? lo then lo else if hi <? x then hi else x.

Lemma in_U_spec w z : in_U w z = true <-> uN w z.
Proof. unfold in_U, uN. lia. Qed.
Lemma chk_Ok w z v : chk w z = Ok v <-> v = z /\ uN w z.
Proof.
  unfold chk. destruct (in_U w z) eqn:E.
  - apply in_U_spec in E. naive_solver.
  - split; [done|]. intros [-> H%in_U_spec]. congruence.
Qed.
Lemma chk_in w z : uN w z -> chk w z = Ok z.
Proof. intros H. by apply chk_Ok. Qed.
Lemma chk_out w z : ~ uN w z -> chk w z = Panic.
Proof. unfold chk. rewrite <- in_U_spec. by destruct (in_U w z). Qed.
Lemma ichk_in w z : iN w z -> ichk w z = Ok z.
Proof. unfold ichk, in_I, iN. intros H. by replace (_ && _) with true by lia. Qed.
Lemma checked_Some w z v : checked w z = Some v <-> v = z /\ uN w z.
Proof.
  unfold checked. destruct (in_U w z) eqn:E.
  - apply in_U_spec in E. naive_solver.
  - split; [done|]. intros [-> H%in_U_spec]. congruence.
Qed.
Lemma checked_in w z : uN w z -> checked w z = Some z.
Proof. intros. by apply checked_Some. Qed.

Lemma div_ceil_le a b c : 0 < b -> (div_ceil a b <= c <-> a <= c * b).
Proof.
  intros Hb. unfold div_ceil. split; intros H.
  - pose proof (Z.mod_pos_bound (a + b - 1) b Hb).
    pose proof (Z.div_mod (a + b - 1) b ltac:(lia)). nia.
  - assert ((a + b - 1) / b < c + 1); [|lia]. apply Z.div_lt_upper_bound; lia.
Qed.
Lemma div_ceil_mul_ge a b : 0 < b -> a <= div_ceil a b * b.
Proof. intros Hb. by apply div_ceil_le. Qed.
Lemma clamp_spec x lo hi : lo <= hi -> clamp x lo hi = Z.max lo (Z.min x hi).
Proof. unfold clamp. intros. repeat case_match; lia. Qed.

(** ** Slices

    Rust indexes slices with [usize]; the model indexes lists with [Z]. [&l[a..b]] and
    [l[a..b].copy_from_slice(src)] panic out of range or on a length mismatch. *)
Definition zlen {A} (l : list A) : Z := Z.of_nat (length l).
Definition slice {A} (l : list A) (a b : Z) : list A :=
  take (Z.to_nat (b - a)) (drop (Z.to_nat a) l).
Definition splice {A} (l : list A) (a : Z) (src : list A) : list A :=
  take (Z.to_nat a) l ++ src ++ drop (Z.to_nat a + length src) l.

Definition range_ok {A} (l : list A) (a b : Z) : bool :=
  (0 <=? a) && (a <=? b) && (b <=? zlen l).
Definition get_range {A} (l : list A) (a b : Z) : res (list A) :=
  if range_ok l a b then Ok (slice l a b) else Panic.
Definition get_from {A} (l : list A) (a : Z) : res (list A) := get_range l a (zlen l).
Definition set_range {A} (l : list A) (a b : Z) (src : list A) : res (list A) :=
  if range_ok l a b && (zlen src =? b - a) then Ok (splice l a src) else Panic.
(** [l[i]] *)
Definition index {A} (l : list A) (i : Z) : res A :=
  if 0 <=? i then unwrap (l !! Z.to_nat i) else Panic.

Lemma zlen_nil {A} : zlen (@nil A) = 0.
Proof. done. Qed.
Lemma zlen_cons {A} (x : A) l : zlen (x :: l) = 1 + zlen l.
Proof. unfold zlen. cbn [length]. lia. Qed.
Lemma zlen_app {A} (l1 l2 : list A) : zlen (l1 ++ l2) = zlen l1 + zlen l2.
Proof. unfold zlen. rewrite length_app. lia. Qed.
Lemma zlen_nonneg {A} (l : list A) : 0 <= zlen l.
Proof. unfold zlen. lia. Qed.
Lemma zlen_replicate {A} n (x : A) : zlen (replicate n x) = Z.of_nat n.
Proof. unfold zlen. by rewrite length_replicate. Qed.
Lemma zlen_zero_nil {A} (l : list A) : zlen l = 0 -> l = [].
Proof. destruct l; [done|]. rewrite zlen_cons. pose proof (zlen_nonneg l). lia. Qed.
Lemma zlen_slice {A} (l : list A) a b :
  0 <= a -> a <= b -> b <= zlen l -> zlen (slice l a b) = b - a.
Proof. unfold zlen, slice. rewrite length_take, length_drop. lia. Qed.
Lemma zlen_splice {A} (l : list A) a src :
  0 <= a -> a + zlen src <= zlen l -> zlen (splice l a src) = zlen l.
Proof. unfold zlen, splice. rewrite !length_app, length_take, length_drop. lia. Qed.

(** [zlia] normalises lengths, adds that they are nonnegative, and calls [lia]. *)
Ltac zlen_pos :=
  repeat match goal with
  | |- context [zlen ?l] => unless (0 <= zlen l) by assumption; pose proof (zlen_nonneg l)
  | H : context [zlen ?l] |- _ => unless (0 <= zlen l) by assumption; pose proof (zlen_nonneg l)
  end.
Create Rewrite HintDb zlen.
#[export] Hint Rewrite @zlen_nil @zlen_cons @zlen_app @zlen_replicate : zlen.
#[export] Hint Rewrite @zlen_slice @zlen_splice using (autorewrite with zlen; zlen_pos; lia) : zlen.
#[export] Hint Rewrite length_le_split : zlen.

Ltac zlia := unfold range_ok in *; autorewrite with zlen in *; zlen_pos; lia.

Lemma get_range_ok {A} (l : list A) a b :
  0 <= a <= b -> b <= zlen l -> get_range l a b = Ok (slice l a b).
Proof. intros. unfold get_range. by replace (range_ok l a b) with true by zlia. Qed.
Lemma get_range_Ok {A} (l : list A) a b s :
  get_range l a b = Ok s <-> 0 <= a <= b /\ b <= zlen l /\ s = slice l a b.
Proof.
  unfold get_range. destruct (range_ok l a b) eqn:E; unfold range_ok in E.
  - split; [intros [= <-]|intros (?&?&->)]; [repeat split; lia|done].
  - split; [done|]. lia.
Qed.
Lemma get_from_ok {A} (l : list A) a :
  0 <= a <= zlen l -> get_from l a = Ok (drop (Z.to_nat a) l).
Proof.
  intros. unfold get_from. rewrite get_range_ok by lia. unfold slice.
  rewrite take_ge; [done|]. rewrite length_drop. unfold zlen in *. lia.
Qed.
Lemma set_range_ok {A} (l : list A) a b src :
  0 <= a <= b -> b <= zlen l -> zlen src = b - a -> set_range l a b src = Ok (splice l a src).
Proof. intros. unfold set_range. by replace (_ && _) with true by zlia. Qed.
Lemma set_range_Ok {A} (l : list A) a b src s :
  set_range l a b src = Ok s <->
  0 <= a <= b /\ b <= zlen l /\ zlen src = b - a /\ s = splice l a src.
Proof.
  unfold set_range, range_ok. destruct (_ && _) eqn:E.
  - split; [intros [= <-]|intros (?&?&?&->)]; [repeat split; lia|done].
  - split; [done|]. lia.
Qed.

Lemma slice_all {A} (l : list A) : slice l 0 (zlen l) = l.
Proof. unfold slice, zlen. rewrite drop_0, Z.sub_0_r, Nat2Z.id. by apply firstn_all. Qed.
Lemma slice_nil {A} (l : list A) a b : b <= a -> slice l a b = [].
Proof. intros. unfold slice. by replace (Z.to_nat (b - a)) with 0%nat by lia. Qed.
Lemma slice_app_l {A} (l1 l2 : list A) a b :
  0 <= a -> b <= zlen l1 -> slice (l1 ++ l2) a b = slice l1 a b.
Proof.
  unfold slice, zlen. intros. destruct (Z.leb_spec a (Z.of_nat (length l1))).
  - rewrite drop_app_le by lia. rewrite take_app_le; [done|]. rewrite length_drop. lia.
  - by replace (Z.to_nat (b - a)) with 0%nat by lia.
Qed.
Lemma slice_app_r {A} (l1 l2 : list A) a b :
  zlen l1 <= a -> slice (l1 ++ l2) a b = slice l2 (a - zlen l1) (b - zlen l1).
Proof.
  unfold slice, zlen. intros. rewrite drop_app_ge by lia.
  f_equal; [lia|]. f_equal. lia.
Qed.
Lemma slice_app_mid {A} (l1 l2 l3 : list A) a b :
  a = zlen l1 -> b = a + zlen l2 -> slice (l1 ++ l2 ++ l3) a b = l2.
Proof.
  intros -> ->. rewrite slice_app_r by lia. rewrite slice_app_l by lia.
  rewrite <- (slice_all l2) at 3. f_equal; lia.
Qed.
Lemma slice_split {A} (l : list A) a b c :
  0 <= a <= b -> b <= c -> slice l a c = slice l a b ++ slice l b c.
Proof.
  intros. unfold slice. replace (drop (Z.to_nat b) l)
    with (drop (Z.to_nat (b - a)) (drop (Z.to_nat a) l))
    by (rewrite drop_drop; f_equal; lia).
  rewrite take_take_drop. f_equal. lia.
Qed.
Lemma slice_slice {A} (l : list A) a b c d :
  0 <= a -> 0 <= c -> a + d <= b -> slice (slice l a b) c d = slice l (a + c) (a + d).
Proof.
  intros. unfold slice. rewrite skipn_firstn_comm, firstn_firstn, drop_drop.
  f_equal; [lia|]. f_equal. lia.
Qed.
Lemma slice_decomp {A} (l : list A) a b :
  0 <= a <= b -> b <= zlen l -> l = slice l 0 a ++ slice l a b ++ slice l b (zlen l).
Proof.
  intros. rewrite <- slice_split by lia. rewrite <- slice_split by lia. by rewrite slice_all.
Qed.
Lemma splice_mid {A} (l1 l2 l3 src : list A) a :
  a = zlen l1 -> zlen src = zlen l2 -> splice (l1 ++ l2 ++ l3) a src = l1 ++ src ++ l3.
Proof.
  unfold splice, zlen. intros -> H. rewrite Nat2Z.id, take_app_length.
  do 2 f_equal. rewrite app_assoc, drop_app_length'; [done|]. rewrite length_app. lia.
Qed.
Lemma splice_slices {A} (l : list A) a src :
  0 <= a -> a + zlen src <= zlen l ->
  splice l a src = slice l 0 a ++ src ++ slice l (a + zlen src) (zlen l).
Proof.
  intros. rewrite (slice_decomp l a (a + zlen src)) at 1 by zlia.
  apply splice_mid; zlia.
Qed.
Lemma lookup_splice {A} (l : list A) a src (k : nat) :
  0 <= a -> a + zlen src <= zlen l ->
  splice l a src !! k =
  if (a <=? Z.of_nat k) && (Z.of_nat k <? a + zlen src) then src !! Z.to_nat (Z.of_nat k - a)
  else l !! k.
Proof.
  unfold splice, zlen. intros Ha Hl. destruct (_ && _) eqn:E.
  - rewrite lookup_app_r by (rewrite length_take; lia). rewrite length_take.
    rewrite lookup_app_l by lia. f_equal. lia.
  - destruct (Z.leb_spec a (Z.of_nat k)); cbn in E.
    + rewrite lookup_app_r by (rewrite length_take; lia). rewrite length_take.
      rewrite lookup_app_r by lia. rewrite lookup_drop. f_equal. lia.
    + rewrite lookup_app_l by (rewrite length_take; lia). by rewrite lookup_take_lt by lia.
Qed.
Lemma lookup_slice {A} (l : list A) a b (k : nat) :
  0 <= a -> Z.of_nat k < b - a -> slice l a b !! k = l !! Z.to_nat (a + Z.of_nat k).
Proof.
  intros. unfold slice. rewrite lookup_take_lt by lia. rewrite lookup_drop. f_equal. lia.
Qed.
Lemma splice_nil {A} (l : list A) a : splice l a [] = l.
Proof. unfold splice. cbn. by rewrite Nat.add_0_r, take_drop. Qed.
Lemma splice_app_r {A} (l1 l2 src : list A) a :
  0 <= a -> splice (l1 ++ l2) (zlen l1 + a) src = l1 ++ splice l2 a src.
Proof.
  intros. unfold splice, zlen. rewrite take_app_ge by lia. rewrite drop_app_ge by lia.
  rewrite <- app_assoc. repeat (f_equal; try lia).
Qed.
Lemma slice_app_tail {A} (l1 l2 : list A) : slice (l1 ++ l2) (zlen l1) (zlen l1 + zlen l2) = l2.
Proof. rewrite <- (app_nil_r l2) at 1. by apply slice_app_mid. Qed.

(** ** Little-endian bytes: [uN::to_le_bytes], [uN::from_le_bytes] and the signed versions *)
Abbreviation bytes := (list byte).
#[export] Instance byte_eq_dec : EqDecision byte := Byte.byte_eq_dec.
Definition to_le (n : nat) (z : Z) : bytes := le_split n z.
Definition from_le (bs : bytes) : Z := le_combine bs.
Definition from_le_i32 (bs : bytes) : Z := swrap 32 (le_combine bs).

Lemma zlen_to_le n z : zlen (to_le n z) = Z.of_nat n.
Proof. unfold zlen, to_le. by rewrite length_le_split. Qed.
Lemma zlen_to_le4 z : zlen (to_le 4 z) = 4.
Proof. apply zlen_to_le. Qed.
Lemma zlen_to_le8 z : zlen (to_le 8 z) = 8.
Proof. apply zlen_to_le. Qed.
#[export] Hint Rewrite zlen_to_le4 zlen_to_le8 : zlen.

Lemma from_to_le n z : uN (8 * Z.of_nat n) z -> from_le (to_le n z) = z.
Proof.
  intros H. unfold from_le, to_le. rewrite le_combine_split. apply Z.mod_small.
  by rewrite (Z.mul_comm (Z.of_nat n)).
Qed.
Lemma from_to_le4 z : uN 32 z -> from_le (to_le 4 z) = z.
Proof. apply (from_to_le 4). Qed.
Lemma from_to_le8 z : uN 64 z -> from_le (to_le 8 z) = z.
Proof. apply (from_to_le 8). Qed.
Lemma to_from_le n bs : zlen bs = Z.of_nat n -> to_le n (from_le bs) = bs.
Proof. unfold zlen. intros. apply split_le_combine'. lia. Qed.
Lemma from_le_bound n bs : zlen bs = Z.of_nat n -> uN (8 * Z.of_nat n) (from_le bs).
Proof.
  unfold zlen, uN, from_le. intros. replace n with (length bs) by lia. apply le_combine_bound.
Qed.
Lemma from_le_u32 bs : zlen bs = 4 -> uN 32 (from_le bs).
Proof. apply (from_le_bound 4). Qed.
Lemma swrap_id w z : 0 < w -> iN w z -> swrap w z = z.
Proof.
  unfold iN, swrap. intros. assert (2 ^ w = 2 * 2 ^ (w - 1)).
  { rewrite <- Z.pow_succ_r by lia. f_equal. lia. }
  rewrite Z.mod_small; lia.
Qed.
Lemma swrap_mod w z : 0 < w -> swrap w (z mod 2 ^ w) = swrap w z.
Proof. intros. unfold swrap. f_equal. by rewrite Zplus_mod_idemp_l. Qed.
Lemma from_to_le_i32 z : iN 32 z -> from_le_i32 (to_le 4 z) = z.
Proof.
  intros. unfold from_le_i32, to_le. rewrite le_combine_split.
  change (Z.of_nat 4 * 8) with 32. rewrite swrap_mod by lia. by apply swrap_id.
Qed.

(** ** Automation

    [minvs] inverts every successful monadic hypothesis; [mok] runs a monadic goal forward,
    discharging overflow and range checks with [zlia]. *)
Ltac minvs := repeat match goal with
  | H : (_ ≫= _) = Ok _ |- _ => apply bind_Ok in H as (? & ? & H)
  | H : chk _ _ = Ok _ |- _ => apply chk_Ok in H as [-> ?]
  | H : assert_ _ = Ok _ |- _ => apply assert_Ok in H
  | H : get_range _ _ _ = Ok _ |- _ => apply get_range_Ok in H as (? & ? & ->)
  | H : set_range _ _ _ _ = Ok _ |- _ => apply set_range_Ok in H as (? & ? & ? & ->)
  | H : Ok _ = Ok _ |- _ => injection H as H
  | H : Panic = Ok _ |- _ => discriminate H
  | H : Err _ = Ok _ |- _ => discriminate H
  end; subst.

Ltac mok1 := first
  [ rewrite chk_in by (unfold uN; zlia)
  | rewrite assert_true by zlia
  | rewrite get_range_ok by zlia
  | rewrite set_range_ok by zlia
  | rewrite checked_in by (unfold uN; zlia); cbn [unwrap] ];
  cbn [mbind res_bind].
Ltac mok := repeat mok1.

(** ** Decimal numbers: [str::parse::<iN>], [str::parse::<uN>] and [Display] *)
Definition digit_val (c : ascii) : option Z :=
  let n := Z.of_N (Ascii.N_of_ascii c) in
  if (48 <=? n) && (n <=? 57) then Some (n - 48) else None.
Fixpoint parse_digits (acc : Z) (s : string) : option Z :=
  match s with
  | EmptyString => Some acc
  | String c s => d ← digit_val c; parse_digits (10 * acc + d) s
  end.
(** [FromStr] for an integer type with the given range: one optional sign, at least one digit. *)
Definition parse_int (signed : bool) (lo hi : Z) (s : string) : option Z :=
  let finish v := if (lo <=? v) && (v <=? hi) then Some v else None in
  match s with
  | EmptyString => None
  | String "+" r => match r with EmptyString => None | _ => parse_digits 0 r ≫= finish end
  | String "-" r =>
      if signed
      then match r with EmptyString => None | _ => (v ← parse_digits 0 r; finish (- v)) end
      else None
  | _ => parse_digits 0 s ≫= finish
  end%char.

Definition digit_char (d : Z) : ascii := Ascii.ascii_of_N (Z.to_N (48 + d)).
Fixpoint dec_digits (fuel : nat) (n : Z) (acc : string) : string :=
  let acc := String (digit_char (n mod 10)) acc in
  match fuel with
  | O => acc
  | S fuel => if n <? 10 then acc else dec_digits fuel (n / 10) acc
  end.
Definition show_u (n : Z) : string := dec_digits (Z.to_nat (Z.log2 n)) n "".
Definition show_i (n : Z) : string := if n <? 0 then String "-" (show_u (- n)) else show_u n.

Lemma digit_val_char d : 0 <= d < 10 -> digit_val (digit_char d) = Some d.
Proof.
  intros H. unfold digit_val, digit_char. rewrite Ascii.N_ascii_embedding by lia.
  rewrite Z2N.id by lia. replace (_ && _) with true by lia. f_equal. lia.
Qed.
Lemma dec_digits_parse fuel n acc :
  0 <= n < 2 ^ (Z.of_nat fuel + 1) ->
  parse_digits 0 (dec_digits fuel n acc) = parse_digits n acc.
Proof.
  revert n acc; induction fuel as [|fuel IH]; intros n acc Hn; cbn [dec_digits].
  - cbn [parse_digits]. rewrite digit_val_char by (apply Z.mod_pos_bound; lia). cbn.
    rewrite Z.mod_small; [done|]. cbn in Hn. lia.
  - assert (Hd : 0 <= n mod 10 < 10) by (apply Z.mod_pos_bound; lia).
    case_match.
    + cbn [parse_digits]. rewrite digit_val_char by done. cbn. rewrite Z.mod_small; [done|lia].
    + rewrite IH.
      * cbn [parse_digits]. rewrite digit_val_char by done. cbn. f_equal.
        symmetry. apply Z.div_mod. lia.
      * replace (Z.of_nat (S fuel) + 1) with (Z.succ (Z.of_nat fuel + 1)) in Hn by lia.
        rewrite Z.pow_succ_r in Hn by lia. split; [apply Z.div_pos; lia|].
        apply Z.div_lt_upper_bound; lia.
Qed.
Lemma parse_show_u n : 0 <= n -> parse_digits 0 (show_u n) = Some n.
Proof.
  intros. unfold show_u. rewrite dec_digits_parse; [done|].
  pose proof (Z.log2_nonneg n). rewrite Z2Nat.id by lia.
  destruct (Z.eq_dec n 0) as [->|]; [done|]. split; [lia|].
  apply Z.log2_spec; lia.
Qed.
Lemma dec_digits_head fuel n acc :
  exists d s, 0 <= d < 10 /\ dec_digits fuel n acc = String (digit_char d) s.
Proof.
  revert n acc; induction fuel as [|fuel IH]; intros n acc; cbn [dec_digits];
    [|case_match; [|apply IH]]; exists (n mod 10), acc;
    (split; [apply Z.mod_pos_bound; lia|done]).
Qed.
Lemma parse_int_digits sg lo hi d s :
  0 <= d < 10 ->
  parse_int sg lo hi (String (digit_char d) s) =
  parse_digits 0 (String (digit_char d) s) ≫=
    fun v => if (lo <=? v) && (v <=? hi) then Some v else None.
Proof.
  intros Hd. assert (d = 0 \/ d = 1 \/ d = 2 \/ d = 3 \/ d = 4 \/ d = 5 \/ d = 6 \/ d = 7
    \/ d = 8 \/ d = 9) as Hcases by lia.
  repeat (destruct Hcases as [->|Hcases]; [reflexivity|]). subst. reflexivity.
Qed.
Lemma parse_int_show_u sg lo hi n :
  0 <= n -> lo <= n <= hi -> parse_int sg lo hi (show_u n) = Some n.
Proof.
  intros. pose proof (parse_show_u n ltac:(lia)) as Hp.
  unfold show_u in *. destruct (dec_digits_head (Z.to_nat (Z.log2 n)) n "") as (d&s&?&E).
  rewrite E in *. rewrite parse_int_digits by done. rewrite Hp. cbn.
  by replace (_ && _) with true by lia.
Qed.
Lemma parse_int_show_i lo hi n : lo <= n <= hi -> parse_int true lo hi (show_i n) = Some n.
Proof.
  intros. unfold show_i. case_match; [|apply parse_int_show_u; lia].
  pose proof (parse_show_u (- n) ltac:(lia)) as Hp.
  unfold show_u in *. destruct (dec_digits_head (Z.to_nat (Z.log2 (- n))) (- n) "") as (d&s&?&E).
  rewrite E in *. cbn [parse_int]. rewrite Hp. cbn. rewrite Z.opp_involutive.
  by replace (_ && _) with true by lia.
Qed.

(** ** Packed bit fields *)
Lemma land_high_low a b k : 0 <= k -> 0 <= b < 2 ^ k -> Z.land (a * 2 ^ k) b = 0.
Proof.
  intros Hk Hb. apply Z.bits_inj'. intros n Hn. rewrite Z.land_spec, Z.bits_0.
  destruct (Z.ltb_spec n k).
  - by rewrite Z.mul_pow2_bits_low.
  - rewrite <- (Z.mod_small b (2 ^ k)) by done. rewrite Z.mod_pow2_bits_high by lia.
    apply andb_false_r.
Qed.
Lemma lor_high_low a b k : 0 <= k -> 0 <= b < 2 ^ k -> Z.lor (a * 2 ^ k) b = a * 2 ^ k + b.
Proof. intros. symmetry. apply Z.add_nocarry_lor. by apply land_high_low. Qed.
Lemma land_ones_low a b k : 0 <= k -> 0 <= b < 2 ^ k -> Z.land (a * 2 ^ k + b) (Z.ones k) = b.
Proof.
  intros. rewrite Z.land_ones by lia. rewrite Z.add_comm, Z.mod_add by lia.
  by apply Z.mod_small.
Qed.
Lemma shiftr_high a b k : 0 <= k -> 0 <= b < 2 ^ k -> Z.shiftr (a * 2 ^ k + b) k = a.
Proof.
  intros. rewrite Z.shiftr_div_pow2 by lia. rewrite Z.div_add_l by lia.
  rewrite Z.div_small by lia. lia.
Qed.
