(* ===== verification/Util.v ===== *)
(** * [src/util.rs]: wire constants, message headers, interval arithmetic, option strings

    One [Module] per group of items of the source file. *)
From Stdlib Require Import ZArith Lia.
From S2P Require Import Prelude.
Local Open Scope Z_scope.

(** Versions of the protocol between the two Waypipe processes. *)
Definition MIN_PROTOCOL_VERSION : Z := 0x10.
Definition WAYPIPE_PROTOCOL_VERSION : Z := 0x11.

(** ** Messages on the channel between the two Waypipe processes *)
Module Wmsg.

Inductive WmsgType :=
| Protocol | InjectRIDs | OpenFile | ExtendFile | OpenDMABUF | BufferFill | BufferDiff
| OpenIRPipe | OpenIWPipe | OpenRWPipe | PipeTransfer | PipeShutdownR | PipeShutdownW
| OpenDMAVidSrc | OpenDMAVidDst | SendDMAVidPacket | AckNblocks | Restart | Close
| OpenDMAVidSrcV2 | OpenDMAVidDstV2 | OpenTimeline | SignalTimeline | Version.

#[export] Instance WmsgType_eq_dec : EqDecision WmsgType.
Proof. solve_decision. Defined.

(** [typ as u32] *)
Definition wmsg_code (t : WmsgType) : Z :=
  match t with
  | Protocol => 0 | InjectRIDs => 1 | OpenFile => 2 | ExtendFile => 3 | OpenDMABUF => 4
  | BufferFill => 5 | BufferDiff => 6 | OpenIRPipe => 7 | OpenIWPipe => 8 | OpenRWPipe => 9
  | PipeTransfer => 10 | PipeShutdownR => 11 | PipeShutdownW => 12 | OpenDMAVidSrc => 13
  | OpenDMAVidDst => 14 | SendDMAVidPacket => 15 | AckNblocks => 16 | Restart => 17
  | Close => 18 | OpenDMAVidSrcV2 => 19 | OpenDMAVidDstV2 => 20 | OpenTimeline => 21
  | SignalTimeline => 22 | Version => 23
  end.

Definition build_wmsg_header (typ : WmsgType) (len : Z) : res Z :=
  len32 ← unwrap (checked 32 len);
  shifted ← unwrap (checked 32 (len32 * Z.shiftl 1 5));
  Ok (Z.lor shifted (wmsg_code typ)).

Definition wmsg_of_code (code : Z) : option WmsgType :=
  match code with
  | 0 => Some Protocol | 1 => Some InjectRIDs | 2 => Some OpenFile | 3 => Some ExtendFile
  | 4 => Some OpenDMABUF | 5 => Some BufferFill | 6 => Some BufferDiff | 7 => Some OpenIRPipe
  | 8 => Some OpenIWPipe | 9 => Some OpenRWPipe | 10 => Some PipeTransfer
  | 11 => Some PipeShutdownR | 12 => Some PipeShutdownW | 13 => Some OpenDMAVidSrc
  | 14 => Some OpenDMAVidDst | 15 => Some SendDMAVidPacket | 16 => Some AckNblocks
  | 17 => Some Restart | 18 => Some Close | 19 => Some OpenDMAVidSrcV2
  | 20 => Some OpenDMAVidDstV2 | 21 => Some OpenTimeline | 22 => Some SignalTimeline
  | 23 => Some Version
  | _ => None
  end.

Definition parse_wmsg_header (header : Z) : option (Z * WmsgType) :=
  let code := Z.land header (Z.shiftl 1 5 - 1) in
  let len := Z.shiftr header 5 in
  t ← wmsg_of_code code; Some (len, t).

Lemma wmsg_code_range t : 0 <= wmsg_code t < 24.
Proof. destruct t; cbn; lia. Qed.
Lemma wmsg_of_code_code t : wmsg_of_code (wmsg_code t) = Some t.
Proof. by destruct t. Qed.
Lemma wmsg_code_of_code c t : wmsg_of_code c = Some t -> wmsg_code t = c.
Proof.
  unfold wmsg_of_code. intros H.
  repeat (case_match; simplify_eq; try done).
Qed.

Lemma build_wmsg_header_ok t len :
  uN 27 len -> build_wmsg_header t len = Ok (len * 32 + wmsg_code t).
Proof.
  unfold uN. intros. unfold build_wmsg_header.
  rewrite (proj2 (checked_Some 32 len len)) by (unfold uN; lia). cbn [unwrap mbind res_bind].
  change (Z.shiftl 1 5) with 32.
  rewrite (proj2 (checked_Some 32 (len * 32) (len * 32))) by (unfold uN; lia).
  cbn [unwrap mbind res_bind]. f_equal. pose proof (wmsg_code_range t).
  apply (lor_high_low len _ 5); lia.
Qed.

Lemma parse_build t len : uN 27 len -> parse_wmsg_header (len * 32 + wmsg_code t) = Some (len, t).
Proof.
  unfold uN. intros. pose proof (wmsg_code_range t). unfold parse_wmsg_header.
  change (Z.shiftl 1 5 - 1) with (Z.ones 5).
  rewrite (land_ones_low len _ 5), (shiftr_high len _ 5) by lia. by rewrite wmsg_of_code_code.
Qed.

Lemma build_wmsg_header_too_long t len : 2 ^ 27 <= len -> build_wmsg_header t len = Panic.
Proof.
  intros. unfold build_wmsg_header, checked, in_U. change (Z.shiftl 1 5) with 32.
  destruct (_ && (len <? 2 ^ 32)); [|done]. cbn [unwrap mbind res_bind].
  by replace (_ && (len * 32 <? 2 ^ 32)) with false by lia.
Qed.

(** message headers encode and decode exactly: [build_wmsg_header] succeeds with [h] for a
    type and a (nonnegative) length iff [h] is a 32-bit word that [parse_wmsg_header] reads
    back as that length and type. *)
Theorem wmsg_header_bijection t len h :
  0 <= len ->
  build_wmsg_header t len = Ok h <-> uN 32 h /\ parse_wmsg_header h = Some (len, t).
Proof.
  intros Hlen. pose proof (wmsg_code_range t) as Hc. unfold parse_wmsg_header.
  change (Z.shiftl 1 5 - 1) with (Z.ones 5). split.
  - destruct (Z.ltb_spec len (2 ^ 27)); [|by rewrite build_wmsg_header_too_long].
    rewrite build_wmsg_header_ok by done. intros [= <-].
    split; [unfold uN; lia|]. by apply parse_build.
  - intros [Hh H]. destruct (wmsg_of_code _) as [t'|] eqn:E; simplify_eq/=.
    apply wmsg_code_of_code in E. rewrite Z.land_ones in E by lia.
    unfold uN in Hh. rewrite Z.shiftr_div_pow2 in * by lia.
    rewrite build_wmsg_header_ok.
    + rewrite E. f_equal. change (2 ^ 5) with 32. pose proof (Z.div_mod h 32). lia.
    + split; [lia|]. apply Z.div_lt_upper_bound; lia.
Qed.

Lemma wmsg_header_bijection_witness :
  0 <= 16 /\ (build_wmsg_header BufferDiff 16 = Ok 518 <->
             uN 32 518 /\ parse_wmsg_header 518 = Some (16, BufferDiff)).
Proof. split; [lia|]. apply (wmsg_header_bijection BufferDiff 16 518). lia. Defined.

End Wmsg.

(** ** Integer helpers *)
Module Arith.

Definition align (x y : Z) : res Z :=
  ym ← usize (y - 1);
  s ← unwrap (checked 64 (x + ym));
  if y =? 0 then Panic else usize (y * (s / y)).
Definition align4 (x : Z) : res Z := align x 4.

Definition split_interval (lo hi nparts index : Z) : res Z :=
  assert_ (nparts <? Z.shiftl 1 15);;
  d ← u32 (hi - lo);
  assert_ (d <? Z.shiftl 1 31);;
  if nparts =? 0 then Panic else
  a ← u32 (index * (d / nparts));
  b ← u32 (lo + a);
  c ← u32 (index * (d mod nparts));
  u32 (b + c / nparts).

Definition ceildiv (v u : Z) : res Z := if u =? 0 then Panic else Ok (div_ceil v u).

(** [(high, low)] *)
Definition split_u64 (x : Z) : Z * Z := (wrap 32 (Z.shiftr x 32), wrap 32 x).
Definition join_u64 (hi lo : Z) : Z := Z.lor (Z.shiftl hi 32) lo.

Definition fourcc (a b c d : ascii) : Z :=
  Z.of_N (N_of_ascii a) + Z.of_N (N_of_ascii b) * 2 ^ 8 + Z.of_N (N_of_ascii c) * 2 ^ 16
  + Z.of_N (N_of_ascii d) * 2 ^ 24.

Lemma div_ceil_align x y : 0 < y -> y * ((x + (y - 1)) / y) = y * div_ceil x y.
Proof. intros. unfold div_ceil. do 2 f_equal. lia. Qed.

Lemma align_ok x y :
  0 <= x -> 0 < y -> x + y <= 2 ^ 64 -> align x y = Ok (y * div_ceil x y).
Proof.
  intros. unfold align. mok. replace (y =? 0) with false by lia.
  rewrite div_ceil_align by lia. apply chk_in.
  pose proof (div_ceil_mul_ge x y ltac:(lia)).
  assert (div_ceil x y * y <= x + (y - 1)).
  { unfold div_ceil. pose proof (Z.mul_div_le (x + y - 1) y). lia. }
  unfold uN. lia.
Qed.
Lemma align4_ok x : 0 <= x -> x + 4 <= 2 ^ 64 -> align4 x = Ok (4 * div_ceil x 4).
Proof. intros. by apply align_ok. Qed.

(** [align] returns the least multiple of [y] that is at least [x], whenever that
    computation cannot overflow. *)
Theorem align_least_multiple x y :
  0 <= x -> 0 < y -> x + y <= 2 ^ 64 ->
  exists r, align x y = Ok r /\ (y | r) /\ x <= r < x + y
            /\ forall m, (y | m) -> x <= m -> r <= m.
Proof.
  intros. exists (y * div_ceil x y). rewrite align_ok by done.
  pose proof (div_ceil_mul_ge x y ltac:(lia)).
  repeat split; [by apply Z.divide_factor_l|lia| |].
  - unfold div_ceil. pose proof (Z.mul_div_le (x + y - 1) y). lia.
  - intros m [q ->] Hm. enough (div_ceil x y <= q) by nia. by apply div_ceil_le.
Qed.

Lemma align_least_multiple_witness :
  exists r, align 13 4 = Ok r /\ (4 | r) /\ 13 <= r < 13 + 4
            /\ forall m, (4 | m) -> 13 <= m -> r <= m.
Proof. apply (align_least_multiple 13 4); lia. Defined.

Lemma split_interval_eq lo hi n i :
  0 <= lo <= hi -> hi < 2 ^ 32 -> hi - lo < 2 ^ 31 -> 0 < n < 2 ^ 15 -> 0 <= i <= n ->
  split_interval lo hi n i = Ok (lo + i * (hi - lo) / n).
Proof.
  intros. unfold split_interval.
  change (Z.shiftl 1 15) with (2 ^ 15). change (Z.shiftl 1 31) with (2 ^ 31). mok.
  replace (n =? 0) with false by lia. set (d := hi - lo) in *.
  pose proof (Z.div_mod d n ltac:(lia)) as Hd.
  pose proof (Z.mod_pos_bound d n ltac:(lia)) as Hm.
  pose proof (Z.div_pos d n ltac:(lia) ltac:(lia)) as Hq.
  assert (Hiq : 0 <= i * (d / n) <= n * (d / n)) by nia.
  assert (Him : 0 <= i * (d mod n) <= n * (d mod n)) by nia.
  assert (Hmn : n * (d mod n) < 2 ^ 15 * 2 ^ 15) by nia.
  assert (He : i * d / n = i * (d / n) + i * (d mod n) / n).
  { rewrite Hd at 1. replace (i * (n * (d / n) + d mod n))
      with (i * (d / n) * n + i * (d mod n)) by ring. by rewrite Z.div_add_l by lia. }
  assert (0 <= i * (d mod n) / n <= d mod n).
  { split; [apply Z.div_pos; lia|]. apply Z.div_le_upper_bound; nia. }
  mok. rewrite He. f_equal. lia.
Qed.

Lemma split_interval_piece lo hi n i :
  0 <= lo <= hi -> hi < 2 ^ 32 -> hi - lo < 2 ^ 31 -> 0 < n < 2 ^ 15 -> 0 <= i < n ->
  exists a b, split_interval lo hi n i = Ok a /\ split_interval lo hi n (i + 1) = Ok b /\
    lo <= a <= b /\ b <= hi /\ (hi - lo) / n <= b - a <= div_ceil (hi - lo) n.
Proof.
  intros ???? Hi. exists (lo + i * (hi - lo) / n), (lo + (i + 1) * (hi - lo) / n).
  rewrite !split_interval_eq by lia. set (d := hi - lo) in *.
  pose proof (div_ceil_mul_ge d n ltac:(lia)).
  pose proof (Z.mul_div_le d n ltac:(lia)).
  assert (i * d / n + d / n <= (i + 1) * d / n).
  { apply Z.div_le_lower_bound; [lia|]. pose proof (Z.mul_div_le (i * d) n). lia. }
  assert ((i + 1) * d / n <= i * d / n + div_ceil d n).
  { apply Z.lt_succ_r. apply Z.div_lt_upper_bound; [lia|].
    pose proof (Z.mul_succ_div_gt (i * d) n). nia. }
  assert (0 <= i * d / n) by (apply Z.div_pos; nia).
  assert (0 <= d / n) by (apply Z.div_pos; lia).
  assert ((i + 1) * d / n <= d) by (apply Z.div_le_upper_bound; nia).
  repeat split; lia.
Qed.
Lemma split_interval_first lo hi n :
  0 <= lo <= hi -> hi < 2 ^ 32 -> hi - lo < 2 ^ 31 -> 0 < n < 2 ^ 15 ->
  split_interval lo hi n 0 = Ok lo.
Proof. intros. rewrite split_interval_eq by lia. rewrite Z.div_0_l by lia. f_equal. lia. Qed.
Lemma split_interval_last lo hi n :
  0 <= lo <= hi -> hi < 2 ^ 32 -> hi - lo < 2 ^ 31 -> 0 < n < 2 ^ 15 ->
  split_interval lo hi n n = Ok hi.
Proof.
  intros. rewrite split_interval_eq by lia. rewrite Z.mul_comm, Z.div_mul by lia. f_equal. lia.
Qed.

(** [split_interval] cuts [[lo, hi)] into [nparts] consecutive pieces: it never overflows,
    starts at [lo], ends at [hi], and every piece has length the floor or the ceiling of
    [(hi - lo) / nparts]. *)
Theorem split_interval_partition lo hi n :
  0 <= lo <= hi -> hi < 2 ^ 32 -> hi - lo < 2 ^ 31 -> 0 < n < 2 ^ 15 ->
  split_interval lo hi n 0 = Ok lo /\ split_interval lo hi n n = Ok hi /\
  forall i, 0 <= i < n -> exists a b,
    split_interval lo hi n i = Ok a /\ split_interval lo hi n (i + 1) = Ok b /\
    lo <= a <= b /\ b <= hi /\ (hi - lo) / n <= b - a <= div_ceil (hi - lo) n.
Proof.
  intros. split; [by apply split_interval_first|]. split; [by apply split_interval_last|].
  intros. by apply split_interval_piece.
Qed.

Lemma split_interval_partition_witness :
  split_interval 3 103 7 0 = Ok 3 /\ split_interval 3 103 7 7 = Ok 103 /\
  forall i, 0 <= i < 7 -> exists a b,
    split_interval 3 103 7 i = Ok a /\ split_interval 3 103 7 (i + 1) = Ok b /\
    3 <= a <= b /\ b <= 103 /\ (103 - 3) / 7 <= b - a <= div_ceil (103 - 3) 7.
Proof. apply (split_interval_partition 3 103 7); lia. Defined.

Lemma join_split_u64 x : uN 64 x -> join_u64 (split_u64 x).1 (split_u64 x).2 = x.
Proof.
  unfold uN, split_u64, join_u64, wrap; intros H; cbn.
  rewrite Z.shiftl_mul_pow2, Z.shiftr_div_pow2 by lia.
  rewrite (Z.mod_small (x / 2 ^ 32)).
  - rewrite lor_high_low; [|lia|apply Z.mod_pos_bound; lia].
    pose proof (Z.div_mod x (2 ^ 32)). lia.
  - split; [apply Z.div_pos; lia|apply Z.div_lt_upper_bound; lia].
Qed.
Lemma join_u64_range hi lo : uN 32 hi -> uN 32 lo -> uN 64 (join_u64 hi lo).
Proof. unfold uN, join_u64. intros. rewrite Z.shiftl_mul_pow2, lor_high_low by lia. lia. Qed.
Lemma split_join_u64 hi lo : uN 32 hi -> uN 32 lo -> split_u64 (join_u64 hi lo) = (hi, lo).
Proof.
  unfold uN, split_u64, join_u64, wrap; intros.
  rewrite Z.shiftl_mul_pow2 by lia. rewrite lor_high_low by lia.
  rewrite shiftr_high by lia. rewrite (Z.add_comm (hi * _)), Z.mod_add by lia.
  by rewrite !Z.mod_small.
Qed.

(** ** [dmabuf_slice_data]: the layout block of an [OpenDMABUF] message *)
Definition dmabuf_slice_make_ideal (drm_format width height bpp : Z) : res bytes :=
  stride ← unwrap (checked 32 (width * bpp));
  let out := replicate 64 Byte.x00 in
  out ← set_range out 0 4 (to_le 4 width);
  out ← set_range out 4 8 (to_le 4 height);
  out ← set_range out 8 12 (to_le 4 drm_format);
  out ← set_range out 12 16 (to_le 4 1);
  out ← set_range out 16 20 (to_le 4 0);
  out ← set_range out 32 36 (to_le 4 stride);
  out ← set_range out 48 56 (to_le 8 0);
  set_range out 56 57 [Byte.x01].

Definition dmabuf_slice_get_first_stride (data : bytes) : res Z :=
  b ← get_range data 32 36; Ok (from_le b).

Lemma to_le4_explode z : exists a b c d, to_le 4 z = [a; b; c; d].
Proof. unfold to_le. cbv [le_split]. eauto. Qed.

(** the ideal layout block is 64 bytes, starts with the width, height and format that the
    receiver of [OpenDMABUF] reads back, and carries the packed stride [width * bpp]. *)
Theorem dmabuf_slice_roundtrip fmt w h bpp :
  uN 32 fmt -> uN 32 w -> uN 32 h -> uN 32 (w * bpp) ->
  exists out, dmabuf_slice_make_ideal fmt w h bpp = Ok out /\ zlen out = 64 /\
    from_le (slice out 0 4) = w /\ from_le (slice out 4 8) = h /\
    from_le (slice out 8 12) = fmt /\
    dmabuf_slice_get_first_stride out = Ok (w * bpp).
Proof.
  intros Hf Hw Hh Hs. unfold dmabuf_slice_make_ideal.
  rewrite (proj2 (checked_Some 32 _ _)) by done. cbn [unwrap mbind res_bind].
  pose proof (from_to_le4 _ Hf) as Ef. pose proof (from_to_le4 _ Hw) as Ew.
  pose proof (from_to_le4 _ Hh) as Eh. pose proof (from_to_le4 _ Hs) as Es.
  destruct (to_le4_explode fmt) as (?&?&?&?&Rf), (to_le4_explode w) as (?&?&?&?&Rw),
    (to_le4_explode h) as (?&?&?&?&Rh), (to_le4_explode (w * bpp)) as (?&?&?&?&Rs).
  rewrite Rf in *. rewrite Rw in *. rewrite Rh in *. rewrite Rs in *.
  eexists. split; [reflexivity|]. repeat split; try done.
  unfold dmabuf_slice_get_first_stride. cbn [get_range mbind res_bind]. by rewrite <- Es.
Qed.

Lemma dmabuf_slice_roundtrip_witness :
  exists out, dmabuf_slice_make_ideal 875713089 64 48 4 = Ok out /\ zlen out = 64 /\
    from_le (slice out 0 4) = 64 /\ from_le (slice out 4 8) = 48 /\
    from_le (slice out 8 12) = 875713089 /\
    dmabuf_slice_get_first_stride out = Ok (64 * 4).
Proof. apply (dmabuf_slice_roundtrip 875713089 64 48 4); unfold uN; lia. Defined.

End Arith.

(** ** Command line values: [--compress] and [--video] *)
Module Options.

Definition starts_with (p s : string) : bool := String.prefix p s.
Definition strip_prefix (p s : string) : option string :=
  if String.prefix p s
  then Some (String.substring (String.length p) (String.length s - String.length p) s)
  else None.

Inductive Compression := CompNone | Lz4 (lvl : Z) | Zstd (lvl : Z).
#[export] Instance Compression_eq_dec : EqDecision Compression.
Proof. solve_decision. Defined.

(** [suffix.parse::<i8>()] *)
Definition parse_i8 : string -> option Z := parse_int true (-128) 127.

Definition compression_failure : string :=
  "Compression should have format: 'none', 'lz4[=#]', or 'zstd[=#]'".

Definition compression_from_str (s : string) : res Compression :=
  if String.eqb s "none" then Ok CompNone
  else if starts_with "lz4" s then
    lvl ← (if String.eqb s "lz4" then Ok 0
           else match strip_prefix "lz4=" s with
                | Some suffix => ok_or compression_failure (parse_i8 suffix)
                | None => Err compression_failure
                end);
    Ok (Lz4 lvl)
  else if starts_with "zstd" s then
    lvl ← (if String.eqb s "zstd" then Ok 0
           else match strip_prefix "zstd=" s with
                | Some suffix => ok_or compression_failure (parse_i8 suffix)
                | None => Err compression_failure
                end);
    Ok (Zstd lvl)
  else Err compression_failure.

Definition compression_fmt (c : Compression) : string :=
  match c with
  | CompNone => "none"
  | Lz4 i => if i =? 0 then "lz4" else "lz4=" +:+ show_i i
  | Zstd i => if i =? 0 then "zstd" else "zstd=" +:+ show_i i
  end.

(** An [i8] level fits the type. *)
Definition compression_wf (c : Compression) : Prop :=
  match c with CompNone => True | Lz4 i | Zstd i => iN 8 i end.

Lemma sapp_cons c p s : String c p +:+ s = String c (p +:+ s).
Proof. done. Qed.
Lemma prefix_app p s : String.prefix p (p +:+ s) = true.
Proof.
  induction p as [|c p IH]; [by destruct s|]. rewrite sapp_cons. cbn.
  destruct (ascii_dec c c); [exact IH|congruence].
Qed.
Lemma substring_all s : String.substring 0 (String.length s) s = s.
Proof. induction s as [|c s IH]; cbn; [done|]. by rewrite IH. Qed.
Lemma substring_app p s :
  String.substring (String.length p) (String.length s) (p +:+ s) = s.
Proof. induction p as [|c p IH]; [apply substring_all|]. by rewrite sapp_cons. Qed.
Lemma length_sapp p s : String.length (p +:+ s) = (String.length p + String.length s)%nat.
Proof. induction p as [|c p IH]; [done|]. rewrite sapp_cons. cbn. by rewrite IH. Qed.
Lemma strip_prefix_app p s : strip_prefix p (p +:+ s) = Some s.
Proof.
  unfold strip_prefix. rewrite prefix_app, length_sapp. f_equal.
  rewrite Nat.add_comm, Nat.add_sub. apply substring_app.
Qed.

(** every compression setting with an [i8] level is read back from its printed form. *)
Theorem compression_roundtrip c :
  compression_wf c -> compression_from_str (compression_fmt c) = Ok c.
Proof.
  destruct c as [|i|i]; intros Hc; [done| |];
    (cbn in Hc; unfold compression_fmt; destruct (Z.eqb_spec i 0) as [->|Hi]; [done|];
     unfold compression_from_str; cbn [starts_with String.eqb]; rewrite strip_prefix_app;
     unfold parse_i8; rewrite parse_int_show_i by (unfold iN in Hc; cbn in Hc; lia);
     reflexivity).
Qed.

Lemma compression_roundtrip_witness :
  compression_from_str (compression_fmt (Zstd (-128))) = Ok (Zstd (-128)).
Proof. apply compression_roundtrip. unfold compression_wf, iN. lia. Defined.

End Options.
