(* ===== verification/Kernel.v ===== *)
(** * [src/kernel.rs]: construction and application of buffer diffs

    A diff is a sequence of segments, each a header of two little-endian [u32] word positions
    [start], [end] followed by the [4 * (end - start)] bytes to copy there. The module models
    the portable construction ([construct_diff_segment_two_iter], over the [DiffIterator]
    interface), the shared-memory and in-memory iterators, the application of diffs to a mirror
    and to a mapping, and the span computation.

    An [ExternalMapping] is the list of its bytes. Another process may write to it at any time;
    the code loads each word of the damaged region exactly once, so the list stands for the
    values those loads return. The host is little-endian; pointer alignment is not modelled. *)
From Stdlib Require Import ZArith Lia.
From S2P Require Import Prelude.
Local Open Scope Z_scope.

(** ** The interface between the diff loop and a source of cache lines *)
Class DiffIterator (It Wb : Type) := {
  (** [DiffIterator::next]: the next target line and reference line, if any *)
  it_next : It -> res (option (Wb * bytes * bytes));
  (** [DiffWriteback::next]: store the target line into the reference or not, and advance *)
  wb_next : Wb -> bool -> res It;
}.

(** ** [LocalIterator]: target and reference are byte slices *)
Module Local.

Record LocalIterator := MkIt { target : bytes; reference : bytes; pos : Z }.
Record LocalWriteback := MkWb { wtarget : bytes; wreference : bytes; wpos : Z; wvalues : bytes }.

Definition new (target reference : bytes) : res LocalIterator :=
  assert_ (zlen target =? zlen reference);;
  assert_ (zlen target mod 64 =? 0);;
  Ok (MkIt target reference 0).

Definition next (it : LocalIterator) : res (option (LocalWriteback * bytes * bytes)) :=
  if zlen (target it) <=? pos it then Ok None else
  values ← get_range (target it) (pos it) (pos it + 64);
  refvals ← get_range (reference it) (pos it) (pos it + 64);
  Ok (Some (MkWb (target it) (reference it) (pos it) values, values, refvals)).

Definition writeback (wb : LocalWriteback) (store : bool) : res LocalIterator :=
  reference ← (if store
               then set_range (wreference wb) (wpos wb) (wpos wb + 64) (wvalues wb)
               else Ok (wreference wb));
  Ok (MkIt (wtarget wb) reference (wpos wb + 64)).

End Local.

#[export] Instance Local_DiffIterator : DiffIterator Local.LocalIterator Local.LocalWriteback :=
  {| it_next := Local.next; wb_next := Local.writeback |}.

(** ** [ShmIterator]: the target is the [&[AtomicU32]] view of a mapping *)
Module Shm.

Record ShmIterator := MkIt { target : list Z; reference : bytes; pos : Z }.
Record ShmWriteback := MkWb { wtarget : list Z; wreference : bytes; wpos : Z; wvalues : bytes }.

Definition new (target : list Z) (reference : bytes) : res ShmIterator :=
  assert_ (zlen target * 4 =? zlen reference);;
  assert_ (zlen target mod 16 =? 0);;
  Ok (MkIt target reference 0).

Definition next (it : ShmIterator) : res (option (ShmWriteback * bytes * bytes)) :=
  if zlen (target it) <=? pos it then Ok None else
  words ← get_range (target it) (pos it) (pos it + 16);
  let values := concat (map (to_le 4) words) in
  refvals ← get_range (reference it) (4 * pos it) (4 * pos it + 64);
  Ok (Some (MkWb (target it) (reference it) (pos it) values, values, refvals)).

Definition writeback (wb : ShmWriteback) (store : bool) : res ShmIterator :=
  reference ← (if store
               then set_range (wreference wb) (4 * wpos wb) (4 * wpos wb + 64) (wvalues wb)
               else Ok (wreference wb));
  Ok (MkIt (wtarget wb) reference (wpos wb + 16)).

End Shm.

#[export] Instance Shm_DiffIterator : DiffIterator Shm.ShmIterator Shm.ShmWriteback :=
  {| it_next := Shm.next; wb_next := Shm.writeback |}.

(** ** The diff loop *)
Module Seg.
Section Seg.
Context {It Wb : Type} `{DiffIterator It Wb}.

(** [done] is the part of the output buffer the slice [diff] has moved past, [ctrl] the eight
    reserved header bytes of the current segment, [diff] the rest of the buffer. *)
Record dstate := MkSt { done : bytes; ctrl : bytes; diff : bytes; dc : Z; line_no : Z }.

(** The two inner loops: scanning for a changed line, or copying a changed region that began
    at word [start], with [idc] the value of [dc] at its beginning. *)
Inductive mode := Scan | Changed (start idc trailing_unchanged : Z).

(** Head of the outer loop: reserve eight bytes for the segment header. *)
Definition begin_segment (done diff : bytes) (dc line_no : Z) : res dstate :=
  c ← get_range diff 0 8;
  d ← get_from diff 8;
  dc ← usize (dc + 2);
  Ok (MkSt done c d dc line_no).

(** Write the segment header. *)
Definition set_ctrl (ctrl : bytes) (start end_ : Z) : res bytes :=
  c ← set_range ctrl 0 4 (to_le 4 start);
  set_range c 4 8 (to_le 4 end_).

Definition buffer (s : dstate) : bytes := done s ++ ctrl s ++ diff s.

Definition scan_step (refbase_block : Z) (it : It) (s : dstate) :
  res ((Z * bytes * It) + (It * mode * dstate)) :=
  r ← it_next it;
  match r with
  | None =>
      (* nothing to record *)
      dc' ← usize (dc s - 2);
      Ok (inl (dc', buffer s, it))
  | Some (wb, values, refvals) =>
      if decide (values = refvals) then
        it ← wb_next wb false;
        line' ← usize (line_no s + 1);
        Ok (inr (it, Scan, MkSt (done s) (ctrl s) (diff s) (dc s) line'))
      else
        vlow ← get_range values 0 32;
        rlow ← get_range refvals 0 32;
        let leading_unchanged := if decide (vlow = rlow) then 8 else 0 in
        src ← get_range values (4 * leading_unchanged) (zlen values);
        diff' ← set_range (diff s) 0 (4 * (16 - leading_unchanged)) src;
        dc' ← usize (dc s + (16 - leading_unchanged));
        l16 ← u32 (16 * wrap 32 (line_no s));
        sl ← u32 (l16 + leading_unchanged);
        start ← u32 (sl + refbase_block);
        it ← wb_next wb true;
        line' ← usize (line_no s + 1);
        Ok (inr (it, Changed start (dc s) 0, MkSt (done s) (ctrl s) diff' dc' line'))
  end.

Definition changed_step (refbase_block skip_gap_len start idc trailing_unchanged : Z)
    (it : It) (s : dstate) : res ((Z * bytes * It) + (It * mode * dstate)) :=
  r ← it_next it;
  match r with
  | None =>
      (* end of input *)
      dc' ← usize (dc s - trailing_unchanged);
      l16 ← usize (16 * line_no s);
      e ← usize (l16 - trailing_unchanged);
      end_ ← u32 (wrap 32 e + refbase_block);
      ctrl' ← set_ctrl (ctrl s) start end_;
      Ok (inl (dc', done s ++ ctrl' ++ diff s, it))
  | Some (wb, values, refvals) =>
      it ← wb_next wb true;
      let clear := if decide (values = refvals) then 1 else 0 in
      trailing ← usize (trailing_unchanged * clear + clear * 16);
      diff' ← set_range (diff s) (4 * (dc s - idc)) (4 * (dc s - idc) + 64) values;
      dc' ← usize (dc s + 16);
      if skip_gap_len <? trailing then
        (* the gap is long enough: close the segment *)
        dc' ← usize (dc' - trailing);
        l16 ← usize (16 + 16 * line_no s);
        e ← usize (l16 - trailing);
        end_ ← u32 (wrap 32 e + refbase_block);
        ctrl' ← set_ctrl (ctrl s) start end_;
        len ← u32 (end_ - start);
        len4 ← u32 (4 * len);
        used ← get_range diff' 0 len4;
        rest ← get_from diff' len4;
        line' ← usize (line_no s + 1);
        s' ← begin_segment (done s ++ ctrl' ++ used) rest dc' line';
        Ok (inr (it, Scan, s'))
      else
        line' ← usize (line_no s + 1);
        Ok (inr (it, Changed start idc trailing, MkSt (done s) (ctrl s) diff' dc' line'))
  end.

Fixpoint seg_loop (fuel : nat) (refbase_block skip_gap_len : Z) (it : It) (m : mode)
    (s : dstate) : res (option (Z * bytes * It)) :=
  match fuel with
  | O => Ok None
  | S fuel =>
      r ← match m with
          | Scan => scan_step refbase_block it s
          | Changed start idc tu => changed_step refbase_block skip_gap_len start idc tu it s
          end;
      match r with
      | inl out => Ok (Some out)
      | inr (it, m, s) => seg_loop fuel refbase_block skip_gap_len it m s
      end
  end.

(** Returns the diff length in bytes, the output buffer and the exhausted iterator (which holds
    the updated reference); [Ok None] is running out of fuel. *)
Definition construct_diff_segment_two_iter (fuel : nat) (diff : bytes) (it : It)
    (reference_base skip_gap_len : Z) : res (option (Z * bytes * It)) :=
  assert_ (reference_base mod 4 =? 0);;
  let refbase_block := reference_base / 4 in
  assert_ (16 <=? skip_gap_len);;
  s ← begin_segment [] diff 0 0;
  r ← seg_loop fuel refbase_block skip_gap_len it Scan s;
  match r with
  | None => Ok None
  | Some (dc, buf, it) =>
      n ← usize (dc * 4);
      n ← unwrap (checked 32 n);
      Ok (Some (n, buf, it))
  end.

End Seg.
End Seg.

(** ** Mappings *)
Module Mapping.

(** [ExternalMapping]: the bytes of the mapped file; [get_u8] is the whole mapping. *)
Definition get_u8 (fd : bytes) : bytes := fd.

Fixpoint words (n : nat) (b : bytes) : list Z :=
  match n with
  | O => []
  | S n => from_le (take 4 b) :: words n (drop 4 b)
  end.
(** The [u32] view, rounded down to whole words. *)
Definition get_u32 (fd : bytes) : list Z := words (Z.to_nat (zlen fd / 4)) fd.

(** Store one word through the [u32] view: the bytes of the same memory change. *)
Definition store_u32 (fd : bytes) (i v : Z) : res bytes :=
  if (0 <=? i) && (i <? zlen fd / 4) then Ok (splice fd (4 * i) (to_le 4 v)) else Panic.

(** [copy_from_mapping(dest, fd, start)] with [len = dest.len()] *)
Definition copy_from_mapping (fd : bytes) (start len : Z) : res bytes :=
  get_range (get_u8 fd) start (start + len).
(** [copy_onto_mapping(src, fd, start)]: byte stores in order, so an out-of-range index panics *)
Definition copy_onto_mapping (src fd : bytes) (start : Z) : res bytes :=
  if zlen src =? 0 then Ok fd else set_range (get_u8 fd) start (start + zlen src) src.

(** [copy_tail_if_diff]: copy the last [tail_len] bytes of the mapping into [diff_tail] and the
    reference; report whether any byte differs from the reference. *)
Definition copy_tail_if_diff (diff_tail fd : bytes) (tail_len : Z) (reference : bytes) :
  res (bool * bytes * bytes) :=
  assert_ (zlen reference =? tail_len);;
  start ← usize (zlen (get_u8 fd) - tail_len);
  tail ← get_range (get_u8 fd) start (start + tail_len);
  diff_tail' ← set_range diff_tail 0 tail_len tail;
  Ok (negb (bool_decide (tail = reference)), diff_tail', tail).

End Mapping.

(** ** Construction over a list of damaged intervals *)
Module Construct.
Import Mapping.

(** One interval: the iterator borrows the reference slice mutably; its contents are written
    back to the reference afterwards. The loop needs one step per 64-byte line and one more. *)
Definition construct_one (fd : bytes) (reference_base : Z) (st : Z * bytes * bytes)
    (intv : Z * Z) : res (Z * bytes * bytes) :=
  let '(output_len, diff, reference) := st in
  assert_ ((intv.1 mod 64 =? 0) && (intv.2 mod 64 =? 0));;
  assert_ ((reference_base <=? intv.1) && (intv.1 <? intv.2));;
  out_tail ← get_from diff output_len;
  tgt ← get_range (get_u32 fd) (intv.1 / 4) (intv.2 / 4);
  rf ← get_range reference (intv.1 - reference_base) (intv.2 - reference_base);
  it ← Shm.new tgt rf;
  r ← Seg.construct_diff_segment_two_iter (S (length rf)) out_tail it intv.1 16;
  match r with
  | None => Panic
  | Some (n, buf, it) =>
      diff ← set_range diff output_len (zlen diff) buf;
      reference ← set_range reference (intv.1 - reference_base) (intv.2 - reference_base)
                            (Shm.reference it);
      len ← usize (output_len + n);
      Ok (len, diff, reference)
  end.

(** Returns the output length, the output buffer and the updated reference. *)
Definition construct_diff (diff fd : bytes) (intervals : list (Z * Z)) (reference : bytes)
    (reference_base : Z) : res (Z * bytes * bytes) :=
  foldM (construct_one fd reference_base) (0, diff, reference) intervals.

(** The portable path of [construct_diff_segment_two]. *)
Definition construct_diff_segment_two_portable (diff target reference : bytes)
    (reference_base skip_gap_len : Z) : res (Z * bytes * bytes) :=
  assert_ (zlen target + 8 <=? zlen diff);;
  it ← Local.new target reference;
  r ← Seg.construct_diff_segment_two_iter (S (length target)) diff it reference_base skip_gap_len;
  match r with
  | None => Panic
  | Some (n, buf, it) => Ok (n, buf, Local.reference it)
  end.

End Construct.

(** ** Application of diffs *)
Module Apply.
Import Mapping.

(** [u32::from_le_bytes(diff[pos..pos+4])] *)
Definition read_u32 (diff : bytes) (pos : Z) : res Z :=
  b ← get_range diff pos (pos + 4); Ok (from_le b).

(** Each iteration consumes at least twelve bytes of the diff. *)
Fixpoint apply_one_loop (fuel : nat) (diff : bytes) (nblocks mir_start buf_end pos : Z)
    (mirror : bytes) : res bytes :=
  match fuel with
  | O => Panic
  | S fuel =>
      if 4 * nblocks <=? pos then Ok mirror else
      start ← read_u32 diff pos;
      end_ ← read_u32 diff (pos + 4);
      if (end_ <=? start) || (buf_end <? end_) || (4 * nblocks <? pos + 4 * (end_ - start))
      then Err "copy interval invalid" else
      let pos := pos + 8 in
      a ← usize (start * 4 - mir_start);
      b ← usize (end_ * 4 - mir_start);
      src ← get_range diff pos (pos + 4 * (end_ - start));
      mirror ← set_range mirror a b src;
      apply_one_loop fuel diff nblocks mir_start buf_end (pos + (end_ - start) * 4) mirror
  end.

Definition apply_diff_one (diff : bytes) (ntrailing mir_start : Z) (mirror : bytes) :
  res bytes :=
  blen ← usize (zlen diff - ntrailing);
  assert_ (blen mod 4 =? 0);;
  let mlen := zlen mirror in
  let nblocks := blen / 4 in
  buf_end ← usize (mir_start + mlen);
  mirror ← apply_one_loop (S (length diff)) diff nblocks mir_start buf_end 0 mirror;
  if 0 <? ntrailing then
    offset ← usize (mlen - ntrailing);
    src ← get_range diff (nblocks * 4) (nblocks * 4 + ntrailing);
    set_range mirror offset (zlen mirror) src
  else Ok mirror.

(** [for i in 0..n { target[i + start].store(...) }] *)
Fixpoint store_words (n : nat) (fd src : bytes) (i : Z) : res bytes :=
  match n with
  | O => Ok fd
  | S n =>
      w ← get_range src 0 4;
      fd ← store_u32 fd i (from_le w);
      rest ← get_from src 4;
      store_words n fd rest (i + 1)
  end.

Fixpoint apply_loop (fuel : nat) (diff : bytes) (nblocks mir_start buf_end pos : Z)
    (fd mirror : bytes) : res (bytes * bytes) :=
  match fuel with
  | O => Panic
  | S fuel =>
      if 4 * nblocks <=? pos then Ok (fd, mirror) else
      start ← read_u32 diff pos;
      end_ ← read_u32 diff (pos + 4);
      if (end_ <=? start) || (buf_end <? end_)
         || (4 * nblocks <? pos + 8 + 4 * (end_ - start))
      then Err "Copy interval invalid" else
      let pos := pos + 8 in
      a ← usize (start * 4 - mir_start);
      b ← usize (end_ * 4 - mir_start);
      src ← get_range diff pos (pos + 4 * (end_ - start));
      mirror ← set_range mirror a b src;
      fd ← store_words (Z.to_nat (end_ - start)) fd src start;
      apply_loop fuel diff nblocks mir_start buf_end (pos + (end_ - start) * 4) fd mirror
  end.

(** Returns the updated mapping and the updated mirror. *)
Definition apply_diff (diff : bytes) (ntrailing : Z) (fd : bytes) (mir_start : Z)
    (mirror : bytes) : res (bytes * bytes) :=
  blen ← usize (zlen diff - ntrailing);
  assert_ (blen mod 4 =? 0);;
  let nblocks := blen / 4 in
  let buf_end := zlen (get_u32 fd) in
  r ← apply_loop (S (length diff)) diff nblocks mir_start buf_end 0 fd mirror;
  let '(fd, mirror) := r in
  if 0 <? ntrailing then
    offset ← usize (zlen (get_u8 fd) - ntrailing);
    src ← get_range diff (nblocks * 4) (nblocks * 4 + ntrailing);
    fd ← set_range fd offset (zlen fd) src;
    m_off ← usize (offset - mir_start);
    mirror ← set_range mirror m_off (m_off + ntrailing) src;
    Ok (fd, mirror)
  else Ok (fd, mirror).

Fixpoint span_loop (fuel : nat) (diff : bytes) (nblocks pos start end_ : Z) : res (Z * Z) :=
  match fuel with
  | O => Panic
  | S fuel =>
      if 4 * nblocks <=? pos then Ok (start, end_) else
      span_start ← read_u32 diff pos;
      span_end ← read_u32 diff (pos + 4);
      n ← usize (span_end - span_start);
      span_loop fuel diff nblocks (pos + 8 + n * 4) (Z.min start span_start)
                (Z.max end_ span_end)
  end.

(** The byte interval in which the diff changes data. *)
Definition compute_diff_span (diff : bytes) (ntrailing buf_len : Z) : res (Z * Z) :=
  blen ← usize (zlen diff - ntrailing);
  assert_ (blen mod 4 =? 0);;
  let nblocks := blen / 4 in
  if nblocks =? 0 then
    if ntrailing =? 0 then Err "computed diff span on empty diff"
    else s ← usize (buf_len - ntrailing); Ok (s, buf_len)
  else
    r ← span_loop (S (length diff)) diff nblocks 0 buf_len 0;
    let '(start, end_) := r in
    assert_ (start <? end_);;
    if 0 <? ntrailing then Ok (start * 4, buf_len) else Ok (start * 4, end_ * 4).

End Apply.
