(* ===== verification/KernelCorrect.v ===== *)
(** * Diffs replicate buffers

    The diff loop is verified against the [DiffIteratorSpec] interface, which both iterators
    implement: it emits the encoding of a list of segments that turns the old reference into
    the target. Applying that encoding is applying the segments, so the receiving side ends
    with the sender's data. *)
From Stdlib Require Import ZArith Lia.
From S2P Require Import Prelude Kernel.
Local Open Scope Z_scope.

(** ** Segments *)
Definition seg : Type := Z * bytes.

Definition encode_seg (s : seg) : bytes :=
  to_le 4 s.1 ++ to_le 4 (s.1 + zlen s.2 / 4) ++ s.2.
Definition encode_segs (l : list seg) : bytes := concat (map encode_seg l).

(** Copy each segment to its place in a mirror that starts at byte [base]. *)
Definition apply_seg (base : Z) (m : bytes) (s : seg) : bytes := splice m (4 * s.1 - base) s.2.
Definition apply_segs (base : Z) (m : bytes) (l : list seg) : bytes :=
  foldl (apply_seg base) m l.

(** A segment that fits a mirror of [len] bytes starting at [base]. *)
Definition seg_fits (base len : Z) (s : seg) : Prop :=
  0 <= s.1 /\ 0 < zlen s.2 /\ zlen s.2 mod 4 = 0 /\ base <= 4 * s.1 /\
  4 * s.1 + zlen s.2 <= base + len /\ s.1 + zlen s.2 / 4 < 2 ^ 32.

(** [patch p old segs new]: from word position [p] on, the segments turn [old] into [new],
    left to right; bytes between segments are equal in both. *)
Inductive patch : Z -> bytes -> list seg -> bytes -> Prop :=
| patch_nil p : patch p [] [] []
| patch_same p x old segs new :
    zlen x mod 4 = 0 -> patch (p + zlen x / 4) old segs new ->
    patch p (x ++ old) segs (x ++ new)
| patch_seg p r d old segs new :
    zlen d = zlen r -> zlen d mod 4 = 0 -> 0 < zlen d ->
    patch (p + zlen d / 4) old segs new ->
    patch p (r ++ old) ((p, d) :: segs) (d ++ new).

Lemma encode_seg_len s : zlen (encode_seg s) = 8 + zlen s.2.
Proof. unfold encode_seg. zlia. Qed.
Lemma encode_segs_cons s l : encode_segs (s :: l) = encode_seg s ++ encode_segs l.
Proof. done. Qed.

Lemma patch_length p old segs new : patch p old segs new -> zlen old = zlen new.
Proof. induction 1; zlia. Qed.

Lemma patch_fits p old segs new base len :
  patch p old segs new -> 0 <= p -> base <= 4 * p -> 4 * p + zlen old <= base + len ->
  p + zlen old / 4 < 2 ^ 32 -> Forall (seg_fits base len) segs.
Proof.
  induction 1 as [p|p x old segs new Hx Hp IH|p r d old segs new Hr Hd Hpos Hp IH];
    intros; [constructor| |].
  - apply IH; rewrite zlen_app in *; pose proof (zlen_nonneg old); pose proof (zlen_nonneg x);
      Z.div_mod_to_equations; lia.
  - rewrite zlen_app in *. pose proof (zlen_nonneg old). constructor.
    + unfold seg_fits; cbn [fst snd]. Z.div_mod_to_equations; lia.
    + apply IH; Z.div_mod_to_equations; lia.
Qed.

(** Applying the segments of a patch to a mirror performs it in place. *)
Lemma patch_apply p old segs new base pre post :
  patch p old segs new -> zlen pre = 4 * p - base ->
  apply_segs base (pre ++ old ++ post) segs = pre ++ new ++ post.
Proof.
  intros Hp. revert pre. induction Hp as [p|p x old segs new Hx Hp IH
    |p r d old segs new Hr Hd Hpos Hp IH]; intros pre Hpre; [done| |].
  - rewrite <- !app_assoc. rewrite (app_assoc pre x), (app_assoc pre x). apply IH.
    rewrite zlen_app. Z.div_mod_to_equations; lia.
  - cbn [apply_segs foldl]. unfold apply_seg at 2; cbn [fst snd].
    rewrite <- !app_assoc. rewrite splice_mid by lia.
    rewrite (app_assoc pre d), (app_assoc pre d). apply IH.
    rewrite zlen_app. Z.div_mod_to_equations; lia.
Qed.

(** ** Applying an encoded diff applies its segments *)
Lemma apply_seg_len base m s : seg_fits base (zlen m) s -> zlen (apply_seg base m s) = zlen m.
Proof. unfold seg_fits, apply_seg. intros. rewrite zlen_splice; lia. Qed.

Lemma encode_segs_len_ge base len segs :
  Forall (seg_fits base len) segs -> 12 * zlen segs <= zlen (encode_segs segs).
Proof.
  induction 1 as [|s l Hs Hl IH]; [done|].
  rewrite encode_segs_cons, zlen_app, zlen_cons, encode_seg_len.
  destruct Hs as (?&?&?&?). Z.div_mod_to_equations; lia.
Qed.
Lemma encode_segs_len_4 base len segs :
  Forall (seg_fits base len) segs -> zlen (encode_segs segs) mod 4 = 0.
Proof.
  induction 1 as [|s l Hs Hl IH]; [done|].
  rewrite encode_segs_cons, zlen_app, encode_seg_len.
  destruct Hs as (?&?&?&?). Z.div_mod_to_equations; lia.
Qed.

Lemma read_u32_at pre z rest p :
  p = zlen pre -> uN 32 z -> Apply.read_u32 (pre ++ to_le 4 z ++ rest) p = Ok z.
Proof.
  intros -> Hz. unfold Apply.read_u32. rewrite get_range_ok by zlia. cbn.
  rewrite slice_app_mid by zlia. by rewrite from_to_le4.
Qed.

(** What a reader at position [zlen pre] finds of the segment encoded there. *)
Lemma read_seg pre s rest base len :
  seg_fits base len s ->
  Apply.read_u32 (pre ++ encode_seg s ++ rest) (zlen pre) = Ok s.1 /\
  Apply.read_u32 (pre ++ encode_seg s ++ rest) (zlen pre + 4) = Ok (s.1 + zlen s.2 / 4) /\
  get_range (pre ++ encode_seg s ++ rest) (zlen pre + 8)
    (zlen pre + 8 + 4 * (s.1 + zlen s.2 / 4 - s.1)) = Ok s.2.
Proof.
  intros (?&?&Hm&?&?&?). assert (4 * (zlen s.2 / 4) = zlen s.2)
    by (Z.div_mod_to_equations; lia). unfold encode_seg. rewrite <- !app_assoc. split_and!.
  - apply read_u32_at; unfold uN; lia.
  - rewrite (app_assoc pre). apply read_u32_at; [zlia|unfold uN; lia].
  - rewrite get_range_ok by zlia. f_equal. rewrite !(app_assoc pre), (app_assoc (pre ++ _)).
    apply slice_app_mid; zlia.
Qed.

Lemma apply_one_encode base be segs tail nb : forall fuel pre M,
  Forall (seg_fits base (zlen M)) segs ->
  4 * nb = zlen pre + zlen (encode_segs segs) ->
  0 <= base -> be = base + zlen M -> be < 2 ^ 64 -> (length segs < fuel)%nat ->
  Apply.apply_one_loop fuel (pre ++ encode_segs segs ++ tail) nb base be (zlen pre) M
  = Ok (apply_segs base M segs).
Proof.
  induction segs as [|s segs IH]; intros fuel pre M Hf Hn Hb Hbe Hlt Hfuel.
  - destruct fuel; [cbn in Hfuel; lia|]. cbn [Apply.apply_one_loop].
    replace (4 * nb <=? zlen pre) with true; [done|]. change (encode_segs []) with (@nil byte) in Hn. zlia.
  - destruct fuel as [|fuel]; [cbn in Hfuel; lia|]. cbn [Apply.apply_one_loop].
    apply Forall_cons_1 in Hf as [Hs Hf]. rewrite encode_segs_cons in *.
    rewrite zlen_app, encode_seg_len in Hn. zlen_pos. rewrite <- app_assoc.
    destruct (read_seg pre s (encode_segs segs ++ tail) _ _ Hs) as (R1 & R2 & R3).
    pose proof Hs as (?&?&?&?&?&?). assert (4 * (zlen s.2 / 4) = zlen s.2)
      by (Z.div_mod_to_equations; lia).
    replace (4 * nb <=? zlen pre) with false by lia. rewrite R1, R2; cbn [mbind res_bind].
    replace (_ || _) with false by lia. rewrite !chk_in by (unfold uN; lia).
    cbn [mbind res_bind]. rewrite R3. cbn [mbind res_bind].
    rewrite set_range_ok by lia. cbn [mbind res_bind].
    cbn [apply_segs foldl]. fold (apply_segs base (apply_seg base M s) segs).
    rewrite (Z.mul_comm s.1 4).
    rewrite (app_assoc pre). replace (zlen pre + 8 + _) with (zlen (pre ++ encode_seg s))
      by (rewrite zlen_app, encode_seg_len; lia).
    assert (zlen (apply_seg base M s) = zlen M) by by apply apply_seg_len.
    apply IH; rewrite ?H5, ?zlen_app, ?encode_seg_len; try lia; [|cbn in Hfuel; lia].
    replace (zlen (apply_seg base M s)) with (zlen M). done.
Qed.

(** Storing words through the atomic view of a mapping is copying their bytes. *)
Lemma store_words_splice n : forall fd src i,
  zlen src = 4 * Z.of_nat n -> 0 <= i -> 4 * (i + Z.of_nat n) <= zlen fd ->
  Apply.store_words n fd src i = Ok (splice fd (4 * i) src).
Proof.
  induction n as [|n IH]; intros fd src i Hs Hi Hl.
  - replace src with (@nil byte) by (symmetry; apply zlen_zero_nil; lia).
    cbn [Apply.store_words]. f_equal. unfold splice. cbn.
    rewrite Nat.add_0_r. by rewrite take_drop.
  - cbn [Apply.store_words]. rewrite get_range_ok by lia. cbn [mbind res_bind].
    unfold Mapping.store_u32.
    replace (_ && _) with true by (symmetry; apply andb_true_intro; split;
      [lia|apply Z.ltb_lt; Z.div_mod_to_equations; lia]).
    rewrite to_from_le by (rewrite zlen_slice; lia). cbn [mbind res_bind].
    rewrite get_from_ok by lia. cbn [mbind res_bind].
    assert (Hsplit : src = slice src 0 4 ++ drop (Z.to_nat 4) src).
    { unfold slice. rewrite drop_0. by rewrite take_drop. }
    assert (zlen (slice src 0 4) = 4) as H4 by (rewrite zlen_slice; lia).
    assert (zlen (drop (Z.to_nat 4) src) = 4 * Z.of_nat n) as Hd
      by (rewrite Hsplit in Hs; rewrite zlen_app in Hs; lia).
    rewrite IH; [|done|lia|rewrite zlen_splice; lia].
    f_equal. rewrite (splice_slices fd (4 * i) src) by lia.
    set (d := drop (Z.to_nat 4) src) in *.
    rewrite (splice_slices fd (4 * i) (slice src 0 4)) by lia. rewrite H4.
    rewrite (slice_split fd (4 * i + 4) (4 * i + zlen src)) by zlia.
    rewrite (app_assoc (slice fd 0 (4 * i))).
    rewrite splice_mid; [|rewrite zlen_app, !zlen_slice; lia|rewrite !zlen_slice; lia].
    rewrite <- !app_assoc. f_equal. by rewrite (app_assoc (slice src 0 4)), <- Hsplit.
Qed.

Lemma words_length n b : length (Mapping.words n b) = n.
Proof. revert b. induction n; intros; cbn; auto. Qed.
Lemma get_u32_len fd : zlen (Mapping.get_u32 fd) = zlen fd / 4.
Proof.
  unfold Mapping.get_u32, zlen at 1. rewrite words_length.
  pose proof (zlen_nonneg fd). rewrite Z2Nat.id; [done|]. by apply Z.div_pos.
Qed.

Lemma apply_loop_encode base segs tail nb : forall fuel pre fd M,
  Forall (seg_fits base (zlen M)) segs -> Forall (seg_fits 0 (zlen fd)) segs ->
  4 * nb = zlen pre + zlen (encode_segs segs) ->
  0 <= base -> base + zlen M < 2 ^ 64 -> (length segs < fuel)%nat ->
  Apply.apply_loop fuel (pre ++ encode_segs segs ++ tail) nb base (zlen fd / 4) (zlen pre) fd M
  = Ok (apply_segs 0 fd segs, apply_segs base M segs).
Proof.
  induction segs as [|s segs IH]; intros fuel pre fd M Hf Hg Hn Hb Hlt Hfuel;
    (destruct fuel as [|fuel]; [cbn in Hfuel; lia|]); cbn [Apply.apply_loop].
  - replace (4 * nb <=? zlen pre) with true; [done|].
    change (zlen (encode_segs [])) with 0 in Hn. lia.
  - apply Forall_cons_1 in Hf as [Hs Hf], Hg as [Hs0 Hg]. rewrite encode_segs_cons in *.
    rewrite zlen_app, encode_seg_len in Hn. zlen_pos. rewrite <- app_assoc.
    destruct (read_seg pre s (encode_segs segs ++ tail) _ _ Hs) as (R1 & R2 & R3).
    pose proof Hs as (?&?&?&?&?&?). pose proof Hs0 as (_&_&_&_&?&_).
    assert (4 * (zlen s.2 / 4) = zlen s.2) by (Z.div_mod_to_equations; lia).
    assert (s.1 + zlen s.2 / 4 <= zlen fd / 4) by (Z.div_mod_to_equations; lia).
    replace (4 * nb <=? zlen pre) with false by lia. rewrite R1, R2; cbn [mbind res_bind].
    replace (_ || _) with false by lia. rewrite !chk_in by (unfold uN; lia).
    cbn [mbind res_bind]. rewrite R3. cbn [mbind res_bind].
    rewrite set_range_ok by lia. cbn [mbind res_bind].
    rewrite store_words_splice by lia. cbn [mbind res_bind].
    rewrite (Z.mul_comm s.1 4), (app_assoc pre).
    replace (zlen pre + 8 + _) with (zlen (pre ++ encode_seg s))
      by (rewrite zlen_app, encode_seg_len; lia).
    assert (E1 : zlen (apply_seg base M s) = zlen M) by by apply apply_seg_len.
    assert (E2 : zlen (apply_seg 0 fd s) = zlen fd) by by apply apply_seg_len.
    cbn [apply_segs foldl]. rewrite <- E2 at 1.
    replace (splice fd (4 * s.1) s.2) with (apply_seg 0 fd s)
      by (unfold apply_seg; by rewrite Z.sub_0_r).
    change (splice M (4 * s.1 - base) s.2) with (apply_seg base M s).
    apply IH; rewrite ?E1, ?E2, ?zlen_app, ?encode_seg_len; try done; try lia.
    cbn in Hfuel; lia.
Qed.

(** ** What the diff loop needs of an iterator *)
Class DiffIteratorSpec (It Wb : Type) `{DiffIterator It Wb} := {
  it_wf : It -> Prop;
  (** the (target, reference) lines still to come *)
  it_lines : It -> list (bytes * bytes);
  (** the reference bytes of the lines already passed *)
  it_past : It -> bytes;
  it_lines_64 it : it_wf it -> Forall (fun l => zlen l.1 = 64 /\ zlen l.2 = 64) (it_lines it);
  it_next_nil it : it_wf it -> it_lines it = [] -> it_next it = Ok None;
  it_next_cons it v r L : it_wf it -> it_lines it = (v, r) :: L ->
    exists wb, it_next it = Ok (Some (wb, v, r)) /\
      forall store, exists it', wb_next wb store = Ok it' /\ it_wf it' /\ it_lines it' = L /\
        it_past it' = it_past it ++ (if store then v else r);
}.

Fixpoint line_list (n : nat) (t r : bytes) : list (bytes * bytes) :=
  match n with
  | O => []
  | S n => (take 64 t, take 64 r) :: line_list n (drop 64 t) (drop 64 r)
  end.

Lemma line_list_64 n t r :
  64 * Z.of_nat n <= zlen t -> 64 * Z.of_nat n <= zlen r ->
  Forall (fun l => zlen l.1 = 64 /\ zlen l.2 = 64) (line_list n t r).
Proof.
  revert t r; induction n as [|n IH]; intros t r Ht Hr; cbn [line_list]; [constructor|].
  unfold zlen in *. constructor; [cbn; rewrite !length_take; lia|].
  apply IH; rewrite length_drop; lia.
Qed.
Lemma line_list_target n t r : zlen t = 64 * Z.of_nat n -> concat (line_list n t r).*1 = t.
Proof.
  revert t r; induction n as [|n IH]; intros t r Ht; cbn.
  - symmetry. by apply zlen_zero_nil.
  - rewrite IH; [by rewrite take_drop|]. unfold zlen in *. rewrite length_drop. lia.
Qed.
Lemma line_list_reference n t r : zlen r = 64 * Z.of_nat n -> concat (line_list n t r).*2 = r.
Proof.
  revert t r; induction n as [|n IH]; intros t r Hr; cbn.
  - symmetry. by apply zlen_zero_nil.
  - rewrite IH; [by rewrite take_drop|]. unfold zlen in *. rewrite length_drop. lia.
Qed.

Lemma drop_splice {A} (l src : list A) p q :
  0 <= p -> q = p + zlen src -> q <= zlen l ->
  drop (Z.to_nat q) (splice l p src) = drop (Z.to_nat q) l.
Proof.
  unfold splice, zlen. intros. rewrite app_assoc, drop_app_length'; [f_equal; lia|].
  rewrite length_app, length_take. lia.
Qed.
Lemma take_splice {A} (l src : list A) p q :
  0 <= p -> q = p + zlen src -> q <= zlen l ->
  take (Z.to_nat q) (splice l p src) = take (Z.to_nat p) l ++ src.
Proof.
  unfold splice, zlen. intros. rewrite app_assoc, take_app_length'; [done|].
  rewrite length_app, length_take. lia.
Qed.

Section LocalSpec.
Import Local.

Definition local_wf (it : LocalIterator) : Prop :=
  zlen (target it) = zlen (reference it) /\ zlen (target it) mod 64 = 0 /\
  pos it mod 64 = 0 /\ 0 <= pos it <= zlen (target it).
Definition local_lines (it : LocalIterator) : list (bytes * bytes) :=
  line_list (Z.to_nat ((zlen (target it) - pos it) / 64))
    (drop (Z.to_nat (pos it)) (target it)) (drop (Z.to_nat (pos it)) (reference it)).
Definition local_past (it : LocalIterator) : bytes := take (Z.to_nat (pos it)) (reference it).

Lemma zlen_drop {A} (l : list A) p : 0 <= p <= zlen l -> zlen (drop (Z.to_nat p) l) = zlen l - p.
Proof. unfold zlen. rewrite length_drop. lia. Qed.

Lemma local_lines_64 it :
  local_wf it -> Forall (fun l => zlen l.1 = 64 /\ zlen l.2 = 64) (local_lines it).
Proof.
  intros (H1&H2&H3&H4). apply line_list_64; rewrite zlen_drop by lia;
    Z.div_mod_to_equations; lia.
Qed.
Lemma local_next_nil it : local_wf it -> local_lines it = [] -> next it = Ok None.
Proof.
  intros (H1&H2&H3&H4). unfold local_lines, next.
  destruct (Z.to_nat _) eqn:E; [intros _|done].
  by replace (_ <=? _) with true by (Z.div_mod_to_equations; lia).
Qed.
Lemma local_next_cons it v r L : local_wf it -> local_lines it = (v, r) :: L ->
  exists wb, next it = Ok (Some (wb, v, r)) /\
    forall store, exists it', writeback wb store = Ok it' /\ local_wf it' /\
      local_lines it' = L /\ local_past it' = local_past it ++ (if store then v else r).
Proof.
  destruct it as [t rf p]. intros (H1&H2&H3&H4). unfold local_lines; cbn in *.
  destruct (Z.to_nat _) as [|n] eqn:E; [done|]. cbn [line_list].
  assert (p + 64 <= zlen t) by (Z.div_mod_to_equations; lia).
  assert (Hn : n = Z.to_nat ((zlen t - (p + 64)) / 64)) by (Z.div_mod_to_equations; lia).
  intros [= <- <- <-]. unfold next; cbn [target reference pos].
  replace (zlen t <=? p) with false by lia.
  rewrite !get_range_ok by lia. unfold slice. replace (p + 64 - p) with 64 by lia.
  change (Z.to_nat 64) with 64%nat. cbn [mbind res_bind].
  set (v := take 64 (drop (Z.to_nat p) t)). assert (Hv : zlen v = 64)
    by (unfold v, zlen in *; rewrite length_take, length_drop; lia).
  eexists; split; [reflexivity|]. intros store.
  exists (MkIt t (if store then splice rf p v else rf) (p + 64)).
  unfold writeback; cbn [wtarget wreference wpos wvalues target reference pos].
  rewrite !drop_drop, Hn. replace (Z.to_nat p + 64)%nat with (Z.to_nat (p + 64)) by lia.
  destruct store.
  - rewrite set_range_ok by lia. cbn [mbind res_bind]. split; [done|]. split; [|split].
    + unfold local_wf; cbn. rewrite zlen_splice by lia. Z.div_mod_to_equations; lia.
    + unfold local_lines; cbn. by rewrite drop_splice by lia.
    + unfold local_past; cbn. by apply take_splice; lia.
  - cbn [mbind res_bind]. split; [done|]. split; [|split].
    + unfold local_wf; cbn. Z.div_mod_to_equations; lia.
    + done.
    + unfold local_past; cbn. replace (Z.to_nat (p + 64)) with (Z.to_nat p + 64)%nat by lia.
      by rewrite take_take_drop.
Qed.
End LocalSpec.

#[export] Instance Local_DiffIteratorSpec :
  DiffIteratorSpec Local.LocalIterator Local.LocalWriteback :=
  {| it_wf := local_wf; it_lines := local_lines; it_past := local_past;
     it_lines_64 := local_lines_64; it_next_nil := local_next_nil;
     it_next_cons := local_next_cons |}.

(** *** The shared-memory iterator simulates the in-memory one on the bytes of its words *)
Definition le_words (w : list Z) : bytes := concat (map (to_le 4) w).

Lemma le_words_len w : zlen (le_words w) = 4 * zlen w.
Proof.
  induction w as [|x w IH]; [done|]. change (le_words (x :: w)) with (to_le 4 x ++ le_words w).
  rewrite zlen_app, zlen_cons, zlen_to_le, IH. lia.
Qed.
Lemma le_words_take n w : take (4 * n) (le_words w) = le_words (take n w).
Proof.
  revert w; induction n as [|n IH]; intros [|x w]; try done.
  replace (4 * S n)%nat with (4 + 4 * n)%nat by lia.
  change (le_words (x :: w)) with (to_le 4 x ++ le_words w).
  rewrite take_app_add' by done. by rewrite IH.
Qed.
Lemma le_words_drop n w : drop (4 * n) (le_words w) = le_words (drop n w).
Proof.
  revert w; induction n as [|n IH]; intros [|x w]; try done.
  replace (4 * S n)%nat with (4 + 4 * n)%nat by lia.
  change (le_words (x :: w)) with (to_le 4 x ++ le_words w).
  rewrite drop_app_add' by done. by rewrite IH.
Qed.
Lemma le_words_slice w a b :
  0 <= a <= b -> slice (le_words w) (4 * a) (4 * b) = le_words (slice w a b).
Proof.
  intros. unfold slice. replace (Z.to_nat (4 * b - 4 * a)) with (4 * Z.to_nat (b - a))%nat by lia.
  replace (Z.to_nat (4 * a)) with (4 * Z.to_nat a)%nat by lia.
  by rewrite le_words_drop, le_words_take.
Qed.

Section ShmSpec.
Import Shm.

Definition shm_local (it : ShmIterator) : Local.LocalIterator :=
  Local.MkIt (le_words (target it)) (reference it) (4 * pos it).
Definition shm_wf (it : ShmIterator) : Prop := local_wf (shm_local it).

Lemma shm_next_nil it : shm_wf it -> local_lines (shm_local it) = [] -> next it = Ok None.
Proof.
  intros Hwf Hn. pose proof (local_next_nil _ Hwf Hn) as E. unfold Local.next in E.
  destruct (_ <=? _) eqn:C in E; cbn in C, E.
  - rewrite le_words_len in C. unfold next. by replace (_ <=? _) with true by lia.
  - by minvs.
Qed.

Lemma shm_next_cons it v r L : shm_wf it -> local_lines (shm_local it) = (v, r) :: L ->
  exists wb, next it = Ok (Some (wb, v, r)) /\
    forall store, exists it', writeback wb store = Ok it' /\ shm_wf it' /\
      local_lines (shm_local it') = L /\
      local_past (shm_local it') = local_past (shm_local it) ++ (if store then v else r).
Proof.
  intros Hwf Hn. destruct (local_next_cons _ _ _ _ Hwf Hn) as (wb & E & Hwb).
  destruct it as [t rf p]. pose proof Hwf as (H1&H2&H3&H4). cbn [shm_local
    Local.target Local.reference Local.pos target reference pos] in H1, H2, H3, H4.
  rewrite le_words_len in H1, H2, H4. unfold Local.next in E; cbn [shm_local Local.target
    Local.reference Local.pos target reference pos] in E.
  destruct (_ <=? _) eqn:C in E; [done|]. rewrite le_words_len in C.
  replace (4 * p + 64) with (4 * (p + 16)) in E by lia.
  rewrite !get_range_ok in E by (rewrite ?le_words_len; Z.div_mod_to_equations; lia).
  rewrite le_words_slice in E by lia. cbn [mbind res_bind] in E.
  injection E as <- <- <-. exists (MkWb t rf p (le_words (slice t p (p + 16)))).
  split.
  - unfold next; cbn [target reference pos]. replace (_ <=? _) with false by lia.
    replace (4 * p + 64) with (4 * (p + 16)) by lia.
    rewrite !get_range_ok by (Z.div_mod_to_equations; lia). done.
  - intros store. destruct (Hwb store) as (lit & W & ? & ? & ?).
    unfold Local.writeback in W; cbn in W. unfold writeback; cbn [wtarget wreference wpos wvalues].
    exists (MkIt t (Local.reference lit) (p + 16)).
    assert (Hl : lit = shm_local (MkIt t (Local.reference lit) (p + 16))).
    { apply bind_Ok in W as (rf' & _ & [= <-]). unfold shm_local; cbn. f_equal. lia. }
    apply bind_Ok in W as (rf' & W & [= E]). rewrite W. cbn [mbind res_bind].
    unfold shm_wf. rewrite <- Hl, <- E. cbn. rewrite <- E in *. done.
Qed.
End ShmSpec.

#[export] Instance Shm_DiffIteratorSpec : DiffIteratorSpec Shm.ShmIterator Shm.ShmWriteback :=
  {| it_wf := shm_wf; it_lines := local_lines ∘ shm_local; it_past := local_past ∘ shm_local;
     it_lines_64 it := local_lines_64 (shm_local it); it_next_nil := shm_next_nil;
     it_next_cons := shm_next_cons |}.

(** ** The diff loop produces a patch *)
Lemma set_ctrl_ok c a b :
  zlen c = 8 -> Seg.set_ctrl c a b = Ok (to_le 4 a ++ to_le 4 b).
Proof.
  intros Hc. unfold Seg.set_ctrl. mok. f_equal.
  rewrite (slice_decomp c 0 4) by lia. rewrite slice_nil by lia. cbn [app].
  replace (splice (slice c 0 4 ++ slice c 4 (zlen c)) 0 (to_le 4 a))
    with (to_le 4 a ++ slice c 4 (zlen c))
    by (symmetry; apply (splice_mid [] (slice c 0 4)); zlia).
  rewrite <- (app_nil_r (slice c 4 (zlen c))). rewrite splice_mid by zlia. by rewrite app_nil_r.
Qed.

Lemma begin_segment_ok done diff dc line :
  8 <= zlen diff -> uN 64 (dc + 2) ->
  Seg.begin_segment done diff dc line =
  Ok (Seg.MkSt done (take 8 diff) (drop 8 diff) (dc + 2) line).
Proof.
  intros. unfold Seg.begin_segment. rewrite get_range_ok by lia. cbn [mbind res_bind].
  rewrite get_from_ok by lia. cbn [mbind res_bind]. by rewrite chk_in.
Qed.

(** Overwriting [n] bytes after a prefix of a buffer. *)
Lemma set_range_after {A} (D rest v : list A) a b :
  a = zlen D -> b = a + zlen v -> zlen v <= zlen rest ->
  exists rest', set_range (D ++ rest) a b v = Ok (D ++ v ++ rest') /\
    zlen rest' = zlen rest - zlen v.
Proof.
  intros -> -> H. exists (slice rest (zlen v) (zlen rest)).
  rewrite set_range_ok by zlia. split; [|zlia]. f_equal.
  rewrite (slice_decomp rest 0 (zlen v)) at 1 by zlia. rewrite (slice_nil rest 0 0) by lia. cbn [app].
  apply splice_mid; zlia.
Qed.

Section Loop.
Context {It Wb : Type} `{HS : DiffIteratorSpec It Wb}.
Context (rb skip : Z) (Hrb : 0 <= rb) (Hskip : 16 <= skip).
Import Seg.
#[local] Set Default Proof Using "All".

(** The word position at which line [n] of the interval starts. *)
Let at_line (n : Z) : Z := rb + 16 * n.

Definition common_inv (it : It) (s : dstate) (L : list (bytes * bytes)) : Prop :=
  it_wf it /\ it_lines it = L /\ zlen (ctrl s) = 8 /\ 0 <= line_no s /\
  zlen (buffer s) < 2 ^ 32 /\ at_line (line_no s + zlen L) < 2 ^ 32.
Definition scan_inv (it : It) (s : dstate) (L : list (bytes * bytes)) : Prop :=
  common_inv it s L /\ 64 * zlen L <= zlen (diff s) /\ 4 * dc s = zlen (done s) + 8.
(** [D] is the part of the segment's data known to differ, replacing [R]; [X] the unchanged
    lines copied after it. *)
Definition changed_inv (it : It) (s : dstate) (L : list (bytes * bytes))
    (start idc tu : Z) (R D X rest : bytes) : Prop :=
  common_inv it s L /\ diff s = D ++ X ++ rest /\ 64 * zlen L <= zlen rest /\
  0 < zlen D /\ zlen D mod 4 = 0 /\ zlen R = zlen D /\ zlen X = 4 * tu /\ tu mod 16 = 0 /\
  0 <= tu <= skip /\ 4 * idc = zlen (done s) + 8 /\ 4 * (dc s - idc) = zlen D + zlen X /\
  rb <= start /\ 4 * start + zlen D + zlen X = 4 * at_line (line_no s).

Definition loop_post (r : res (option (Z * bytes * It))) (out : bytes) (len : Z) (past : bytes)
    (p : Z) (old new : bytes) : Prop :=
  exists dc' it' segs junk,
    r = Ok (Some (dc', out ++ encode_segs segs ++ junk, it')) /\
    zlen (out ++ encode_segs segs ++ junk) = len /\
    4 * dc' = zlen (out ++ encode_segs segs) /\
    it_past it' = past /\ it_lines it' = [] /\ it_wf it' /\ patch p old segs new /\
    zlen (encode_segs segs) <= zlen old + 8.

Lemma scan_nil it s fuel :
  scan_inv it s [] ->
  loop_post (seg_loop (S fuel) rb skip it Scan s) (done s) (zlen (buffer s)) (it_past it)
    (at_line (line_no s)) [] [].
Proof.
  intros ((Hwf&HL&Hc&Hl&Hb&Hp)&Hd&Hdc). unfold buffer in Hb.
  cbn [seg_loop]. unfold scan_step. rewrite it_next_nil by done. cbn [mbind res_bind].
  rewrite chk_in by (unfold uN; zlia). cbn [mbind res_bind].
  exists (dc s - 2), it, [], (ctrl s ++ diff s). split_and!; try done; [|constructor].
  rewrite app_nil_r. lia.
Qed.

Lemma scan_same it s v L :
  scan_inv it s ((v, v) :: L) ->
  exists it', let s' := MkSt (done s) (ctrl s) (diff s) (dc s) (line_no s + 1) in
    scan_step rb it s = Ok (inr (it', Scan, s')) /\ scan_inv it' s' L /\
    it_past it' = it_past it ++ v.
Proof.
  intros ((Hwf&HL&Hc&Hl&Hb&Hp)&Hd&Hdc). unfold buffer, at_line in *.
  destruct (it_next_cons _ _ _ _ Hwf HL) as (wb & E & Hwb).
  destruct (Hwb false) as (it' & W & Hwf' & HL' & Hpast). exists it'.
  unfold scan_step. rewrite E. cbn [mbind res_bind]. rewrite decide_True by done.
  rewrite W. cbn [mbind res_bind]. rewrite chk_in by (unfold uN; zlia). cbn [mbind res_bind].
  split; [done|]. split; [|done].
  unfold scan_inv, common_inv, buffer, at_line; cbn [done ctrl diff dc line_no].
  rewrite zlen_cons in *. split_and!; try done; zlia.
Qed.

Lemma scan_diff it s v r L :
  scan_inv it s ((v, r) :: L) -> v <> r ->
  exists it' s' lead R D rest tu,
    scan_step rb it s = Ok (inr (it', Changed (at_line (line_no s) + lead) (dc s) tu, s')) /\
    changed_inv it' s' L (at_line (line_no s) + lead) (dc s) tu R D [] rest /\
    (exists x, zlen x = 4 * lead /\ v = x ++ D /\ r = x ++ R) /\
    zlen (buffer s') = zlen (buffer s) /\ done s' = done s /\ it_past it' = it_past it ++ v.
Proof.
  intros ((Hwf&HL&Hc&Hl&Hb&Hp)&Hd&Hdc) Hne. unfold buffer, at_line in *.
  pose proof (it_lines_64 _ Hwf) as H64. rewrite HL in H64.
  apply Forall_cons_1 in H64 as [[Hv Hr] _]. cbn [fst snd] in Hv, Hr.
  destruct (it_next_cons _ _ _ _ Hwf HL) as (wb & E & Hwb).
  destruct (Hwb true) as (it' & W & Hwf' & HL' & Hpast).
  rewrite zlen_cons in *. zlen_pos.
  set (lead := if decide (slice v 0 32 = slice r 0 32) then 8 else 0).
  assert (Hlead : (lead = 0 \/ lead = 8) /\ slice v 0 (4 * lead) = slice r 0 (4 * lead))
    by (unfold lead; case_decide; [split; [by right|done]|split; [by left|]];
        by rewrite !slice_nil by lia).
  destruct Hlead as [Hlead Hx].
  set (D := slice v (4 * lead) 64). assert (HD : zlen D = 64 - 4 * lead)
    by (unfold D; rewrite zlen_slice; lia).
  destruct (set_range_after [] (diff s) D 0 (4 * (16 - lead))) as (rest & Hset & Hrest);
    [done|lia|lia|]. cbn [app] in Hset.
  exists it', (MkSt (done s) (ctrl s) (D ++ rest) (dc s + (16 - lead)) (line_no s + 1)),
    lead, (slice r (4 * lead) 64), D, rest, 0.
  split_and!; cbn [done ctrl diff dc line_no]; try done.
  4: zlia.
  - unfold scan_step. rewrite E. cbn [mbind res_bind]. rewrite decide_False by done.
    rewrite !get_range_ok by lia. cbn [mbind res_bind]. fold lead.
    rewrite Hv. rewrite get_range_ok by lia. cbn [mbind res_bind]. fold D. rewrite Hset.
    cbn [mbind res_bind]. unfold wrap. rewrite Z.mod_small by zlia. 
    rewrite W. mok. do 5 f_equal. lia.
  - unfold changed_inv, common_inv, buffer, at_line; cbn [done ctrl diff dc line_no].
    split_and!; try done; try zlia. Z.div_mod_to_equations; lia.
  - exists (slice v 0 (4 * lead)). split; [rewrite zlen_slice; lia|].
    rewrite Hx at 2. unfold D. rewrite <- !slice_split by lia.
    split; symmetry; [rewrite <- Hv|rewrite <- Hr]; apply slice_all.
Qed.

Lemma patch_tail_same p x : zlen x mod 4 = 0 -> patch p x [] x.
Proof. intros. rewrite <- (app_nil_r x). apply patch_same; [done|constructor]. Qed.

Lemma changed_nil it s start idc tu R D X rest fuel :
  changed_inv it s [] start idc tu R D X rest ->
  loop_post (seg_loop (S fuel) rb skip it (Changed start idc tu) s) (done s)
    (zlen (buffer s)) (it_past it) start (R ++ X) (D ++ X).
Proof.
  intros ((Hwf&HL&Hc&Hl&Hb&Hp)&Hd&Hrest&HD&HD4&HR&HX&Ht&Htu&Hidc&Hdc&Hst&Hend).
  unfold buffer, at_line in *. rewrite zlen_nil in *. rewrite Hd in *. zlen_pos.
  assert (He : 16 * line_no s - tu + rb = start + zlen D / 4) by (Z.div_mod_to_equations; lia).
  cbn [seg_loop]. unfold changed_step. rewrite it_next_nil by done. cbn [mbind res_bind].
  mok. unfold wrap. rewrite Z.mod_small by zlia.
  mok. rewrite set_ctrl_ok by done. cbn [mbind res_bind]. rewrite He.
  exists (dc s - tu), it, [(start, D)], (X ++ rest).
  assert (Henc : encode_segs [(start, D)] = (to_le 4 start ++ to_le 4 (start + zlen D / 4)) ++ D)
    by (unfold encode_segs, encode_seg; cbn [map concat fst snd];
        by rewrite app_nil_r, <- !app_assoc).
  rewrite Henc. split_and!; try done; rewrite <- ?app_assoc; [by rewrite Hd|zlia|zlia| |zlia].
  apply patch_seg; try done. apply patch_tail_same. rewrite HX. Z.div_mod_to_equations; lia.
Qed.

(** A changed line joins the data that differs, with the unchanged lines before it. *)
Lemma changed_differs it s v r L start idc tu R D X rest :
  changed_inv it s ((v, r) :: L) start idc tu R D X rest -> v <> r ->
  exists it' s' rest',
    changed_step rb skip start idc tu it s = Ok (inr (it', Changed start idc 0, s')) /\
    changed_inv it' s' L start idc 0 (R ++ X ++ r) (D ++ X ++ v) [] rest' /\
    zlen (buffer s') = zlen (buffer s) /\ done s' = done s /\ it_past it' = it_past it ++ v.
Proof.
  intros ((Hwf&HL&Hc&Hl&Hb&Hp)&Hd&Hrest&HD&HD4&HR&HX&Ht&Htu&Hidc&Hdc&Hst&Hend) Hne.
  unfold buffer, at_line in *. rewrite Hd in *.
  pose proof (it_lines_64 _ Hwf) as H64. rewrite HL in H64.
  apply Forall_cons_1 in H64 as [[Hv Hr] _]. cbn [fst snd] in Hv, Hr.
  destruct (it_next_cons _ _ _ _ Hwf HL) as (wb & E & Hwb).
  destruct (Hwb true) as (it' & W & Hwf' & HL' & Hpast). rewrite zlen_cons in *. zlen_pos.
  destruct (set_range_after (D ++ X) rest v (4 * (dc s - idc)) (4 * (dc s - idc) + 64))
    as (rest' & Hset & Hrest'); [zlia|zlia|zlia|]. rewrite <- !app_assoc in Hset.
  exists it', (MkSt (done s) (ctrl s) (D ++ X ++ v ++ rest') (dc s + 16) (line_no s + 1)), rest'.
  split_and!; cbn [done ctrl diff dc line_no]; try done.
  - unfold changed_step. rewrite E. cbn [mbind res_bind]. rewrite W, decide_False by done.
    cbn [mbind res_bind]. rewrite Z.mul_0_r, Z.mul_0_l, Z.add_0_r, Hd, Hset.
    mok. replace (skip <? 0) with false by lia. by mok.
  - unfold changed_inv, common_inv, buffer, at_line; cbn [done ctrl diff dc line_no].
    split_and!; try done; rewrite <- ?app_assoc; try zlia; try done.
    autorewrite with zlen. rewrite HX, Hv. Z.div_mod_to_equations; lia.
  - zlia.
Qed.

(** An unchanged line is copied too while the gap is short. *)
Lemma changed_gap it s v L start idc tu R D X rest :
  changed_inv it s ((v, v) :: L) start idc tu R D X rest -> tu + 16 <= skip ->
  exists it' s' rest',
    changed_step rb skip start idc tu it s = Ok (inr (it', Changed start idc (tu + 16), s')) /\
    changed_inv it' s' L start idc (tu + 16) R D (X ++ v) rest' /\
    zlen (buffer s') = zlen (buffer s) /\ done s' = done s /\ it_past it' = it_past it ++ v.
Proof.
  intros ((Hwf&HL&Hc&Hl&Hb&Hp)&Hd&Hrest&HD&HD4&HR&HX&Ht&Htu&Hidc&Hdc&Hst&Hend) Hle.
  unfold buffer, at_line in *. rewrite Hd in *.
  pose proof (it_lines_64 _ Hwf) as H64. rewrite HL in H64.
  apply Forall_cons_1 in H64 as [[Hv _] _]. cbn [fst snd] in Hv.
  destruct (it_next_cons _ _ _ _ Hwf HL) as (wb & E & Hwb).
  destruct (Hwb true) as (it' & W & Hwf' & HL' & Hpast). rewrite zlen_cons in *. zlen_pos.
  destruct (set_range_after (D ++ X) rest v (4 * (dc s - idc)) (4 * (dc s - idc) + 64))
    as (rest' & Hset & Hrest'); [zlia|zlia|zlia|]. rewrite <- !app_assoc in Hset.
  exists it', (MkSt (done s) (ctrl s) (D ++ X ++ v ++ rest') (dc s + 16) (line_no s + 1)), rest'.
  split_and!; cbn [done ctrl diff dc line_no]; try done.
  - unfold changed_step. rewrite E. cbn [mbind res_bind]. rewrite W, decide_True by done.
    cbn [mbind res_bind]. rewrite Z.mul_1_r, Z.mul_1_l, Hd, Hset.
    mok. replace (skip <? tu + 16) with false by lia. by mok.
  - unfold changed_inv, common_inv, buffer, at_line; cbn [done ctrl diff dc line_no].
    split_and!; try done; rewrite <- ?app_assoc; try zlia; try done.
    Z.div_mod_to_equations; lia.
  - zlia.
Qed.

(** When the gap exceeds [skip], the segment is closed and the bytes of the gap are reused. *)
Lemma changed_close it s v L start idc tu R D X rest :
  changed_inv it s ((v, v) :: L) start idc tu R D X rest -> skip < tu + 16 ->
  exists it' s',
    changed_step rb skip start idc tu it s = Ok (inr (it', Scan, s')) /\
    scan_inv it' s' L /\ line_no s' = line_no s + 1 /\
    zlen (buffer s') = zlen (buffer s) /\ done s' = done s ++ encode_seg (start, D) /\
    it_past it' = it_past it ++ v.
Proof.
  intros ((Hwf&HL&Hc&Hl&Hb&Hp)&Hd&Hrest&HD&HD4&HR&HX&Ht&Htu&Hidc&Hdc&Hst&Hend) Hlt.
  unfold buffer, at_line in *. rewrite Hd in *.
  pose proof (it_lines_64 _ Hwf) as H64. rewrite HL in H64.
  apply Forall_cons_1 in H64 as [[Hv _] _]. cbn [fst snd] in Hv.
  destruct (it_next_cons _ _ _ _ Hwf HL) as (wb & E & Hwb).
  destruct (Hwb true) as (it' & W & Hwf' & HL' & Hpast). rewrite zlen_cons in *. zlen_pos.
  destruct (set_range_after (D ++ X) rest v (4 * (dc s - idc)) (4 * (dc s - idc) + 64))
    as (rest' & Hset & Hrest'); [zlia|zlia|zlia|]. rewrite <- !app_assoc in Hset.
  assert (He : 16 + 16 * line_no s - (tu + 16) + rb = start + zlen D / 4)
    by (Z.div_mod_to_equations; lia).
  assert (H4D : 4 * (start + zlen D / 4 - start) = zlen D) by (Z.div_mod_to_equations; lia).
  set (G := X ++ v ++ rest'). assert (HG : zlen G = 4 * tu + zlen rest) by (unfold G; zlia).
  assert (16 <= tu) by (Z.div_mod_to_equations; lia).
  exists it', (MkSt (done s ++ encode_seg (start, D)) (take 8 G) (drop 8 G) (dc s - tu + 2)
                 (line_no s + 1)).
  assert (Ht8 : zlen (take 8 G) = 8) by (unfold zlen in *; rewrite length_take; lia).
  assert (Hd8 : zlen (drop 8 G) = zlen G - 8) by (unfold zlen in *; rewrite length_drop; lia).
  pose proof (encode_seg_len (start, D)) as Hes; cbn [snd] in Hes.
  split_and!; cbn [done ctrl diff dc line_no]; try done.
  - unfold changed_step. rewrite E. cbn [mbind res_bind]. rewrite W, decide_True by done.
    cbn [mbind res_bind]. rewrite Z.mul_1_r, Z.mul_1_l, Hd, Hset.
    mok. replace (skip <? tu + 16) with true by lia. mok.
    unfold wrap. rewrite Z.mod_small by zlia. rewrite He.
    mok. rewrite set_ctrl_ok by done. cbn [mbind res_bind]. mok. rewrite H4D.
    rewrite get_from_ok by zlia.
    cbn [mbind res_bind]. 
    replace (slice (D ++ X ++ v ++ rest') 0 (zlen D)) with D
      by (symmetry; apply (slice_app_mid [] D); zlia).
    replace (drop (Z.to_nat (zlen D)) (D ++ X ++ v ++ rest')) with G
      by (unfold zlen; by rewrite Nat2Z.id, drop_app_length). mok.
    rewrite begin_segment_ok by (unfold uN; zlia). cbn [mbind res_bind].
    unfold encode_seg; cbn [fst snd]. rewrite <- (app_assoc (to_le 4 start)).
    replace (dc s + 16 - (tu + 16)) with (dc s - tu) by lia. done.
  - unfold scan_inv, common_inv, buffer, at_line; cbn [done ctrl diff dc line_no].
    split_and!; try done; zlia.
  - zlia.
Qed.

(** Gluing a step to the rest of the run. *)
Lemma loop_post_same r out len past p x old new :
  zlen x mod 4 = 0 -> loop_post r out len past (p + zlen x / 4) old new ->
  loop_post r out len past p (x ++ old) (x ++ new).
Proof.
  intros Hx (dc'&it'&segs&junk&?&?&?&?&?&?&?&?). exists dc', it', segs, junk.
  split_and!; try done; [by apply patch_same|zlia].
Qed.
Lemma loop_post_seg r out len past p R D x old new :
  zlen D = zlen R -> zlen D mod 4 = 0 -> 0 < zlen D -> zlen x mod 4 = 0 -> 8 <= zlen x ->
  loop_post r (out ++ encode_seg (p, D)) len past (p + zlen D / 4 + zlen x / 4) old new ->
  loop_post r out len past p (R ++ x ++ old) (D ++ x ++ new).
Proof.
  intros ? ? ? ? ? (dc'&it'&segs&junk&E&El&Ed&?&?&?&?&?).
  exists dc', it', ((p, D) :: segs), junk. pose proof (encode_seg_len (p, D)) as Hes.
  rewrite encode_segs_cons. rewrite <- !app_assoc in *. split_and!; try done.
  - apply patch_seg; try done. by apply patch_same.
  - cbn [snd] in Hes. zlia.
Qed.

Definition scan_ok (L : list (bytes * bytes)) : Prop :=
  forall fuel it s, (length L < fuel)%nat -> scan_inv it s L ->
    loop_post (seg_loop fuel rb skip it Scan s) (done s) (zlen (buffer s))
      (it_past it ++ concat L.*1) (at_line (line_no s)) (concat L.*2) (concat L.*1).
Definition changed_ok (L : list (bytes * bytes)) : Prop :=
  forall fuel it s start idc tu R D X rest, (length L < fuel)%nat ->
    changed_inv it s L start idc tu R D X rest ->
    loop_post (seg_loop fuel rb skip it (Changed start idc tu) s) (done s) (zlen (buffer s))
      (it_past it ++ concat L.*1) start (R ++ X ++ concat L.*2) (D ++ X ++ concat L.*1).

Lemma common_line_64 it s v r L :
  common_inv it s ((v, r) :: L) -> zlen v = 64 /\ zlen r = 64.
Proof.
  intros (Hwf&HL&_). pose proof (it_lines_64 _ Hwf) as H64. rewrite HL in H64.
  by apply Forall_cons_1 in H64 as [? _].
Qed.

Lemma scan_ok_cons v r L : scan_ok L -> changed_ok L -> scan_ok ((v, r) :: L).
Proof.
  intros IHs IHc fuel it s Hfuel Hinv. destruct fuel as [|fuel]; [cbn in *; lia|].
  cbn [fmap list_fmap concat fst snd length seg_loop] in *.
  destruct (decide (v = r)) as [<-|Hne].
  - destruct (scan_same _ _ _ _ Hinv) as (it' & -> & Hi & Hpast). cbn [mbind res_bind].
    pose proof (IHs fuel it' _ ltac:(lia) Hi) as P. cbn [line_no] in P.
    destruct (common_line_64 _ _ _ _ _ (proj1 Hinv)) as [Hv _].
    apply loop_post_same; [by rewrite Hv|]. rewrite Hv, app_assoc, <- Hpast.
    by replace (at_line (line_no s) + 64 / 4) with (at_line (line_no s + 1))
      by (unfold at_line; change (64 / 4) with 16; lia).
  - destruct (scan_diff _ _ _ _ _ Hinv Hne) as
      (it'&s'&lead&R&D&rest&tu&->&Hi&(x&Hx&->&->)&Hlen&Hdone&Hpast). cbn [mbind res_bind].
    rewrite <- !app_assoc. apply loop_post_same; [rewrite Hx; Z.div_mod_to_equations; lia|].
    rewrite Hx, (Z.mul_comm 4), Z.div_mul by lia.
    rewrite (app_assoc x), app_assoc, <- Hpast, <- Hlen, <- Hdone.
    by apply (IHc fuel it' s' _ _ _ R D [] rest); [lia|].
Qed.

Lemma changed_ok_cons v r L : scan_ok L -> changed_ok L -> changed_ok ((v, r) :: L).
Proof.
  intros IHs IHc fuel it s start idc tu R D X rest Hfuel Hinv.
  destruct fuel as [|fuel]; [cbn in *; lia|].
  cbn [fmap list_fmap concat fst snd length seg_loop] in *.
  destruct (decide (v = r)) as [<-|Hne];
    [destruct (Z.le_gt_cases (tu + 16) skip) as [Hle|Hgt]|].
  - destruct (changed_gap _ _ _ _ _ _ _ _ _ _ _ Hinv Hle)
      as (it'&s'&rest'&->&Hi&Hlen&Hdone&Hpast).
    cbn [mbind res_bind]. pose proof (IHc fuel _ _ _ _ _ _ _ _ _ ltac:(lia) Hi) as P.
    by rewrite Hlen, Hdone, Hpast, <- !app_assoc in P.
  - destruct (changed_close _ _ _ _ _ _ _ _ _ _ _ Hinv ltac:(lia))
      as (it'&s'&->&Hi&Hline&Hlen&Hdone&Hpast). cbn [mbind res_bind].
    pose proof (IHs fuel _ _ ltac:(lia) Hi) as P.
    rewrite Hlen, Hdone, Hpast, Hline, <- app_assoc in P.
    destruct (common_line_64 _ _ _ _ _ (proj1 Hinv)) as [Hv _].
    destruct Hinv as (_&_&_&?&?&?&HX&?&_&_&_&_&Hend).
    rewrite (app_assoc X v), (app_assoc X v).
    apply loop_post_seg; rewrite ?zlen_app, ?HX, ?Hv; try done;
      [Z.div_mod_to_equations; lia|lia|]. replace (start + _ + _) with (at_line (line_no s + 1)); [done|].
    unfold at_line in *. Z.div_mod_to_equations; lia.
  - destruct (changed_differs _ _ _ _ _ _ _ _ _ _ _ _ Hinv Hne)
      as (it'&s'&rest'&->&Hi&Hlen&Hdone&Hpast).
    cbn [mbind res_bind]. pose proof (IHc fuel _ _ _ _ _ _ _ _ _ ltac:(lia) Hi) as P.
    by rewrite Hlen, Hdone, Hpast, <- !app_assoc in P.
Qed.

Theorem seg_loop_correct L : scan_ok L /\ changed_ok L.
Proof.
  induction L as [|[v r] L [IHs IHc]].
  - split; intros fuel it s; intros; (destruct fuel; [cbn in *; lia|]);
      cbn [fmap list_fmap concat]; rewrite !app_nil_r;
      [by apply scan_nil|by eapply changed_nil].
  - split; [by apply scan_ok_cons|by apply changed_ok_cons].
Qed.
End Loop.

(** ** One interval

    Whatever the iterator, the loop needs one step per line and one more, never runs out of
    buffer, and its output is the encoding of a patch from the old reference to the target,
    which the reference becomes. *)
Section One.
Context {It Wb : Type} `{HS : DiffIteratorSpec It Wb}.

Lemma construct_iter_patch (it : It) diff base skip fuel :
  it_wf it -> it_past it = [] -> base mod 4 = 0 -> 0 <= base -> 16 <= skip ->
  64 * zlen (it_lines it) + 8 <= zlen diff -> zlen diff < 2 ^ 32 ->
  base / 4 + 16 * zlen (it_lines it) < 2 ^ 32 -> (length (it_lines it) < fuel)%nat ->
  exists it' segs junk,
    Seg.construct_diff_segment_two_iter fuel diff it base skip =
      Ok (Some (zlen (encode_segs segs), encode_segs segs ++ junk, it')) /\
    zlen (encode_segs segs ++ junk) = zlen diff /\
    it_past it' = concat (it_lines it).*1 /\ it_lines it' = [] /\ it_wf it' /\
    patch (base / 4) (concat (it_lines it).*2) segs (concat (it_lines it).*1) /\
    zlen (encode_segs segs) <= zlen (concat (it_lines it).*2) + 8.
Proof.
  intros Hwf Hpast Hb4 Hb Hs Hd Hd32 Hp Hf. unfold Seg.construct_diff_segment_two_iter.
  zlen_pos. rewrite !assert_true by lia. cbn [mbind res_bind].
  rewrite begin_segment_ok by (unfold uN; lia). cbn [mbind res_bind].
  assert (Ht8 : zlen (take 8 diff) = 8) by (unfold zlen in *; rewrite length_take; lia).
  assert (Hd8 : zlen (drop 8 diff) = zlen diff - 8) by (unfold zlen in *; rewrite length_drop; lia).
  destruct (seg_loop_correct (base / 4) skip ltac:(Z.div_mod_to_equations; lia) Hs (it_lines it))
    as [Hscan _].
  destruct (Hscan fuel it (Seg.MkSt [] (take 8 diff) (drop 8 diff) (0 + 2) 0) Hf)
    as (dc'&it'&segs&junk&E&El&Ed&?&?&?&Hpatch&Hbound).
  - unfold scan_inv, common_inv, Seg.buffer; cbn [Seg.done Seg.ctrl Seg.diff Seg.dc Seg.line_no].
    split_and!; try done; zlia.
  - unfold Seg.buffer in *; cbn [Seg.done Seg.ctrl Seg.diff Seg.line_no app] in *.
    rewrite E. cbn [mbind res_bind]. rewrite Z.add_0_r in *. rewrite take_drop in El.
    assert (zlen (encode_segs segs) <= zlen diff) by (rewrite <- El; zlia).
    rewrite Z.mul_comm, Ed. rewrite chk_in by (unfold uN; zlia). cbn [mbind res_bind].
    unfold checked. replace (in_U 32 _) with true by (unfold in_U; zlia).
    cbn [unwrap mbind res_bind]. exists it', segs, junk. rewrite Hpast in *. done.
Qed.
End One.

(** ** In-memory buffers *)
Lemma local_exhausted it : local_wf it -> local_lines it = [] -> local_past it = Local.reference it.
Proof.
  intros (H1&H2&H3&H4). unfold local_lines, local_past. destruct (Z.to_nat _) eqn:E; [intros _|done].
  assert (Local.pos it = zlen (Local.target it)) by (Z.div_mod_to_equations; lia).
  apply take_ge. unfold zlen in *. lia.
Qed.
Lemma local_init_lines t r :
  zlen t = zlen r -> zlen t mod 64 = 0 ->
  let it := Local.MkIt t r 0 in
  local_wf it /\ concat (local_lines it).*1 = t /\ concat (local_lines it).*2 = r /\
  64 * zlen (local_lines it) = zlen t.
Proof.
  intros H1 H2 it. zlen_pos. unfold local_wf, local_lines; cbn -[Z.of_nat]. rewrite !drop_0, Z.sub_0_r.
  assert (Hn : 64 * Z.of_nat (Z.to_nat (zlen t / 64)) = zlen t) by (Z.div_mod_to_equations; lia).
  split_and!; try done; [by apply line_list_target|apply line_list_reference; lia|].
  rewrite <- Hn at 2. f_equal. generalize (Z.to_nat (zlen t / 64)) as n. clear.
  intros n; revert t r; induction n as [|n IH]; intros t r; cbn [line_list]; [done|].
  rewrite zlen_cons, IH. lia.
Qed.

Lemma apply_diff_one_encode segs base M :
  Forall (seg_fits base (zlen M)) segs -> 0 <= base -> base + zlen M < 2 ^ 64 ->
  zlen (encode_segs segs) < 2 ^ 64 ->
  Apply.apply_diff_one (encode_segs segs) 0 base M = Ok (apply_segs base M segs).
Proof.
  intros Hf Hb Hm He. unfold Apply.apply_diff_one. zlen_pos.
  pose proof (encode_segs_len_4 _ _ _ Hf) as H4. pose proof (encode_segs_len_ge _ _ _ Hf) as Hge.
  rewrite !chk_in by (unfold uN; lia). cbn [mbind res_bind].
  rewrite !Z.sub_0_r, assert_true by lia. cbn [mbind res_bind].
  pose proof (apply_one_encode base (base + zlen M) segs [] (zlen (encode_segs segs) / 4)
    (S (length (encode_segs segs))) [] M Hf) as P. rewrite app_nil_r in P. cbn [app] in P.
  rewrite zlen_nil in P. rewrite P; [done|Z.div_mod_to_equations; lia|lia|done|lia|].
  unfold zlen in Hge. lia.
Qed.

(** The encoding of a patch, applied to the old buffer, gives the new one. *)
Lemma patch_diff_applies segs junk base (target reference : bytes) :
  patch (base / 4) reference segs target -> base mod 4 = 0 -> 0 <= base -> base + zlen reference < 2 ^ 34 ->
  zlen (encode_segs segs) < 2 ^ 34 ->
  Apply.apply_diff_one (take (Z.to_nat (zlen (encode_segs segs))) (encode_segs segs ++ junk)) 0 base reference = Ok target.
Proof.
  intros Hpatch Hb4 Hb Hp Hl. zlen_pos. pose proof (patch_fits _ _ _ _ base (zlen reference) Hpatch) as Hfits.
  unfold zlen. rewrite Nat2Z.id, take_app_length. rewrite apply_diff_one_encode.
  - pose proof (patch_apply _ _ _ _ base [] [] Hpatch) as Ha. rewrite !app_nil_r in Ha.
    cbn [app] in Ha. rewrite Ha; [done|]. rewrite zlen_nil. Z.div_mod_to_equations; lia.
  - apply Hfits; Z.div_mod_to_equations; lia.
  - done.
  - lia.
  - zlia.
Qed.

(** The diff of two buffers in memory. *)
Lemma local_diff_ok (diff target reference : bytes) (base skip : Z) :
  zlen target = zlen reference -> zlen target mod 64 = 0 -> base mod 4 = 0 -> 0 <= base ->
  16 <= skip -> zlen target + 8 <= zlen diff -> zlen diff < 2 ^ 32 ->
  base + zlen target < 2 ^ 34 ->
  exists segs junk,
    Construct.construct_diff_segment_two_portable diff target reference base skip
      = Ok (zlen (encode_segs segs), encode_segs segs ++ junk, target) /\
    zlen (encode_segs segs ++ junk) = zlen diff /\ zlen (encode_segs segs) <= zlen target + 8 /\
    patch (base / 4) reference segs target.
Proof.
  intros H1 H2 Hb4 Hb Hs Hd Hd32 Hp. zlen_pos.
  destruct (local_init_lines _ _ H1 H2) as (Hwf & HT & HR & Hn).
  set (it := Local.MkIt target reference 0) in *.
  destruct (construct_iter_patch it diff base skip (S (length target))) as
    (it'&segs&junk&E&El&Ep&Hnil&Hwf'&Hpatch&Hbound); cbn [it_wf it_lines it_past Local_DiffIteratorSpec];
    try done; try (Z.div_mod_to_equations; lia); [unfold zlen in *; lia|].
  cbn [it_wf it_lines it_past Local_DiffIteratorSpec] in *. rewrite HT, HR in *.
  exists segs, junk.
  unfold Construct.construct_diff_segment_two_portable, Local.new. rewrite !assert_true by lia.
  cbn [mbind res_bind]. fold it. rewrite E. cbn [mbind res_bind].
  rewrite <- (local_exhausted it'), Ep by done. split_and!; try done. zlia.
Qed.

(** for any two buffers of the same length, a multiple of 64, and an output buffer with
    eight bytes more, the portable [construct_diff_segment_two] neither panics nor runs out of space; it
    leaves the reference equal to the target, and [apply_diff_one] on its output turns the old
    reference into the target. *)
Theorem local_diff_replicates (diff target reference : bytes) (base skip : Z) :
  zlen target = zlen reference -> zlen target mod 64 = 0 -> base mod 4 = 0 -> 0 <= base ->
  16 <= skip -> zlen target + 8 <= zlen diff -> zlen diff < 2 ^ 32 ->
  base + zlen target < 2 ^ 34 ->
  exists n buf,
    Construct.construct_diff_segment_two_portable diff target reference base skip = Ok (n, buf, target) /\
    zlen buf = zlen diff /\ 0 <= n <= zlen target + 8 /\
    Apply.apply_diff_one (take (Z.to_nat n) buf) 0 base reference = Ok target.
Proof.
  intros H1 H2 Hb4 Hb Hs Hd Hd32 Hp. zlen_pos.
  destruct (local_diff_ok diff target reference base skip) as (segs & junk & -> & El & Eb & Hpatch); try done.
  exists (zlen (encode_segs segs)), (encode_segs segs ++ junk).
  split_and!; try done; [zlia|]. apply patch_diff_applies; done || lia.
Qed.

Lemma local_diff_replicates_witness :
  exists n buf,
    Construct.construct_diff_segment_two_portable (replicate 72 Byte.x00) (replicate 64 Byte.x01)
      (replicate 64 Byte.x00) 64 16 = Ok (n, buf, replicate 64 Byte.x01) /\
    zlen buf = 72 /\ 0 <= n <= 72 /\
    Apply.apply_diff_one (take (Z.to_nat n) buf) 0 64 (replicate 64 Byte.x00)
      = Ok (replicate 64 Byte.x01).
Proof.
  apply (local_diff_replicates (replicate 72 Byte.x00) (replicate 64 Byte.x01)
           (replicate 64 Byte.x00) 64 16); vm_compute; congruence.
Defined.

(** ** Shared-memory buffers and lists of intervals *)
Lemma le_words_words n b : (4 * n <= length b)%nat -> le_words (Mapping.words n b) = take (4 * n) b.
Proof.
  revert b; induction n as [|n IH]; intros b Hb; [done|].
  replace (4 * S n)%nat with (4 + 4 * n)%nat by lia. cbn [Mapping.words].
  change (le_words (?x :: ?w)) with (to_le 4 x ++ le_words w).
  rewrite IH by (rewrite length_drop; lia). rewrite to_from_le.
  - by rewrite take_take_drop.
  - unfold zlen. rewrite length_take. lia.
Qed.
Lemma get_u32_bytes fd a b :
  0 <= a <= b -> b <= zlen fd / 4 -> le_words (slice (Mapping.get_u32 fd) a b) = slice fd (4 * a) (4 * b).
Proof.
  intros Ha Hb. rewrite <- le_words_slice by lia. unfold Mapping.get_u32.
  assert (4 * (zlen fd / 4) <= zlen fd) by (Z.div_mod_to_equations; lia).
  zlen_pos. rewrite le_words_words by (unfold zlen in *; lia).
  replace (take _ fd) with (slice fd 0 (4 * (zlen fd / 4))).
  - by rewrite slice_slice by lia.
  - unfold slice. rewrite drop_0. f_equal. lia.
Qed.

(** What the callers of [construct_diff] ensure of each damaged interval. *)
Definition interval_ok (fdlen base rlen : Z) (i : Z * Z) : Prop :=
  i.1 mod 64 = 0 /\ i.2 mod 64 = 0 /\ base <= i.1 /\ i.1 < i.2 /\ i.2 <= base + rlen /\
  i.2 <= fdlen /\ i.2 < 2 ^ 34.
Definition interval_space (ivs : list (Z * Z)) : Z :=
  foldr (fun i n => 8 + (i.2 - i.1) + n) 0 ivs.
(** The reference with the current data of the mapping at every interval. *)
Definition refresh (fd : bytes) (base : Z) (ref : bytes) (i : Z * Z) : bytes :=
  splice ref (i.1 - base) (slice fd i.1 i.2).

Lemma shm_init_lines fd ref base i :
  interval_ok (zlen fd) base (zlen ref) i -> 0 <= base ->
  let it := Shm.MkIt (slice (Mapping.get_u32 fd) (i.1 / 4) (i.2 / 4))
              (slice ref (i.1 - base) (i.2 - base)) 0 in
  zlen (Shm.target it) = (i.2 - i.1) / 4 /\ zlen (Shm.reference it) = i.2 - i.1 /\
  it_wf it /\ it_past it = [] /\ concat (it_lines it).*1 = slice fd i.1 i.2 /\
  concat (it_lines it).*2 = slice ref (i.1 - base) (i.2 - base) /\
  64 * zlen (it_lines it) = i.2 - i.1.
Proof.
  intros (H1&H2&H3&H4&H5&H6&H7) Hb it.
  assert (HT : le_words (Shm.target it) = slice fd i.1 i.2).
  { unfold it; cbn [Shm.target]. rewrite get_u32_bytes by (Z.div_mod_to_equations; lia).
    f_equal; Z.div_mod_to_equations; lia. }
  assert (zlen (Shm.reference it) = i.2 - i.1) by (unfold it; cbn [Shm.reference]; rewrite zlen_slice; lia).
  assert (4 * zlen (Shm.target it) = i.2 - i.1)
    by (rewrite <- le_words_len, HT, zlen_slice; lia).
  cbn [it_wf it_lines it_past Shm_DiffIteratorSpec]. unfold shm_wf, compose.
  pose proof (local_init_lines (le_words (Shm.target it)) (Shm.reference it)
    ltac:(rewrite le_words_len; lia)
    ltac:(rewrite le_words_len; Z.div_mod_to_equations; lia)) as (?&E1&E2&E3).
  change (shm_local it) with (Local.MkIt (le_words (Shm.target it)) (Shm.reference it) 0).
  rewrite E1, E2, E3. split_and!; try done; [Z.div_mod_to_equations; lia|].  rewrite HT.
  by rewrite zlen_slice by lia.
Qed.

Lemma construct_one_ok fd base ref i pre rest :
  interval_ok (zlen fd) base (zlen ref) i -> 0 <= base ->
  8 + (i.2 - i.1) <= zlen rest -> zlen (pre ++ rest) < 2 ^ 32 ->
  exists segs junk,
    Construct.construct_one fd base (zlen pre, pre ++ rest, ref) i =
      Ok (zlen (pre ++ encode_segs segs), (pre ++ encode_segs segs) ++ junk,
          refresh fd base ref i) /\
    zlen (encode_segs segs ++ junk) = zlen rest /\
    zlen (encode_segs segs) <= 8 + (i.2 - i.1) /\
    patch (i.1 / 4) (slice ref (i.1 - base) (i.2 - base)) segs (slice fd i.1 i.2).
Proof.
  intros Hi Hb Hsp Hlen. pose proof (shm_init_lines _ _ _ _ Hi Hb) as
    (Ht & Hr & Hwf & Hpast & HT & HR & Hn).
  pose proof Hi as (H1&H2&H3&H4&H5&H6&H7). cbn [Shm.target Shm.reference] in Ht, Hr.
  set (it := Shm.MkIt _ _ 0) in *. rewrite zlen_app in Hlen.
  pose proof (get_u32_len fd) as Hu.
  destruct (construct_iter_patch it rest i.1 16 (S (length (slice ref (i.1 - base) (i.2 - base))))) as
    (it'&segs&junk&E&El&Ep&Hnil&Hwf'&Hpatch&Hbound);
    try done; try (Z.div_mod_to_equations; zlia); [unfold zlen in *; lia|].
  rewrite HT, HR in *. exists segs, junk.
  unfold Construct.construct_one. rewrite !assert_true by lia. cbn [mbind res_bind].
  rewrite get_from_ok by zlia. cbn [mbind res_bind].
  replace (drop _ (pre ++ rest)) with rest by (unfold zlen; by rewrite Nat2Z.id, drop_app_length).
  rewrite !get_range_ok by (Z.div_mod_to_equations; lia). cbn [mbind res_bind].
  unfold Shm.new. rewrite Ht, Hr, !assert_true by (Z.div_mod_to_equations; lia).
  cbn [mbind res_bind]. fold it. rewrite E. cbn [mbind res_bind].
  destruct (set_range_after pre rest (encode_segs segs ++ junk) (zlen pre) (zlen (pre ++ rest)))
    as (r0 & -> & Hr0); [done|zlia|zlia|]. cbn [mbind res_bind].
  replace r0 with (@nil byte) by (symmetry; apply zlen_zero_nil; lia). rewrite app_nil_r.
  assert (Hpast' : Shm.reference it' = slice fd i.1 i.2).
  { rewrite <- Ep. symmetry. apply (local_exhausted (shm_local it')); done. }
  rewrite Hpast', set_range_ok by (rewrite ?zlen_slice; lia). cbn [mbind res_bind].
  rewrite chk_in by (unfold uN; zlia). cbn [mbind res_bind].
  rewrite !zlen_app, <- app_assoc. rewrite zlen_app in El.
  rewrite zlen_slice in Hbound by lia. split_and!; try done; lia.
Qed.

Lemma encode_segs_app l1 l2 : encode_segs (l1 ++ l2) = encode_segs l1 ++ encode_segs l2.
Proof. unfold encode_segs. by rewrite map_app, concat_app. Qed.
Lemma refresh_len fd base ref i :
  interval_ok (zlen fd) base (zlen ref) i -> 0 <= base -> zlen (refresh fd base ref i) = zlen ref.
Proof.
  intros (?&?&?&?&?&?&?) ?. unfold refresh. rewrite zlen_splice; rewrite ?zlen_slice; lia.
Qed.

(** Segments applied to a mirror inside a larger buffer change only the mirror. *)
Lemma apply_segs_embed base segs pre post : forall m,
  Forall (seg_fits base (zlen m)) segs -> zlen pre = base ->
  apply_segs 0 (pre ++ m ++ post) segs = pre ++ apply_segs base m segs ++ post.
Proof.
  induction segs as [|s segs IH]; intros m Hf Hpre; [done|].
  apply Forall_cons_1 in Hf as [Hs Hf]. pose proof Hs as (?&?&?&?&?&?).
  cbn [apply_segs foldl].
  replace (apply_seg 0 (pre ++ m ++ post) s) with (pre ++ apply_seg base m s ++ post).
  - apply IH; [|done]. by rewrite apply_seg_len.
  - pose proof (slice_decomp m (4 * s.1 - base) (4 * s.1 - base + zlen s.2)
      ltac:(lia) ltac:(lia)) as Em.
    assert (HA : zlen (slice m 0 (4 * s.1 - base)) = 4 * s.1 - base) by (rewrite zlen_slice; lia).
    assert (HB : zlen (slice m (4 * s.1 - base) (4 * s.1 - base + zlen s.2)) = zlen s.2)
      by (rewrite zlen_slice; lia).
    revert Em HA HB. generalize (slice m 0 (4 * s.1 - base)) as A,
      (slice m (4 * s.1 - base) (4 * s.1 - base + zlen s.2)) as B,
      (slice m (4 * s.1 - base + zlen s.2) (zlen m)) as C. intros A B C -> HA HB.
    unfold apply_seg. rewrite splice_mid by lia.
    rewrite <- !app_assoc, (app_assoc pre A (B ++ _)), splice_mid by zlia. by rewrite <- !app_assoc.
Qed.

Lemma construct_diff_ok fd base ivs : forall ref pre rest,
  Forall (interval_ok (zlen fd) base (zlen ref)) ivs -> 0 <= base ->
  interval_space ivs <= zlen rest -> zlen (pre ++ rest) < 2 ^ 32 ->
  exists segs junk,
    foldM (Construct.construct_one fd base) (zlen pre, pre ++ rest, ref) ivs =
      Ok (zlen (pre ++ encode_segs segs), (pre ++ encode_segs segs) ++ junk,
          foldl (refresh fd base) ref ivs) /\
    zlen (encode_segs segs ++ junk) = zlen rest /\
    zlen (encode_segs segs) <= interval_space ivs /\
    Forall (seg_fits base (zlen ref)) segs /\
    apply_segs base ref segs = foldl (refresh fd base) ref ivs.
Proof.
  induction ivs as [|i ivs IH]; intros ref pre rest Hf Hb Hsp Hlen; cbn [foldM foldl interval_space foldr] in *.
  - exists [], rest. cbn. by rewrite !app_nil_r.
  - apply Forall_cons_1 in Hf as [Hi Hf]. pose proof Hi as (H1&H2&H3&H4&H5&H6&H7).
    fold (interval_space ivs) in *.
    assert (0 <= interval_space ivs).
    { clear -Hf. induction Hf as [|j l (?&?&?&?&?) _ IH]; cbn; [done|]. fold (interval_space l). lia. }
    destruct (construct_one_ok fd base ref i pre rest) as (s1 & j1 & -> & L1 & B1 & P1);
      [done|done|lia|done|]. cbn [mbind res_bind].
    destruct (IH (refresh fd base ref i) (pre ++ encode_segs s1) j1) as (s2&j2&->&L2&B2&F2&A2);
      [by rewrite refresh_len|done|zlia|zlia|].
    exists (s1 ++ s2), j2. rewrite encode_segs_app, <- !app_assoc.
    rewrite refresh_len in F2 by done.
    assert (F1 : Forall (seg_fits base (zlen ref)) s1).
    { eapply patch_fits; [done|rewrite ?zlen_slice; Z.div_mod_to_equations; lia..]. }
    split_and!; try done; [zlia|zlia|by apply Forall_app|].
    unfold apply_segs in *. rewrite foldl_app, <- A2. f_equal.
    rewrite (slice_decomp ref (i.1 - base) (i.2 - base)) at 1 by lia.
    etransitivity; [eapply patch_apply; [done|rewrite zlen_slice; Z.div_mod_to_equations; lia]|].
    unfold refresh. rewrite splice_slices by (rewrite ?zlen_slice; lia).
    do 3 f_equal. rewrite zlen_slice; lia.
Qed.

Definition in_intervals (ivs : list (Z * Z)) (p : Z) : bool :=
  existsb (fun i => (i.1 <=? p) && (p <? i.2)) ivs.

Lemma refresh_lookup fd base ivs : forall ref (k : nat),
  Forall (interval_ok (zlen fd) base (zlen ref)) ivs -> 0 <= base ->
  foldl (refresh fd base) ref ivs !! k =
  if in_intervals ivs (base + Z.of_nat k) then fd !! Z.to_nat (base + Z.of_nat k) else ref !! k.
Proof.
  induction ivs as [|i ivs IH]; intros ref k Hf Hb; [done|].
  apply Forall_cons_1 in Hf as [Hi Hf]. pose proof Hi as (?&?&?&?&?&?&?).
  cbn [foldl in_intervals existsb]. rewrite IH; [|by rewrite refresh_len|done].
  fold (in_intervals ivs (base + Z.of_nat k)). destruct (in_intervals ivs _); [by rewrite orb_true_r|].
  rewrite orb_false_r. unfold refresh.
  assert (El : zlen (slice fd i.1 i.2) = i.2 - i.1) by (rewrite zlen_slice; lia).
  rewrite lookup_splice by lia. rewrite El.
  destruct (_ && _) eqn:E1; destruct (_ && _) eqn:E2 in |- *; try lia; [|done].
  rewrite lookup_slice by lia. f_equal. lia.
Qed.

Lemma apply_segs_len base segs : forall m,
  Forall (seg_fits base (zlen m)) segs -> zlen (apply_segs base m segs) = zlen m.
Proof.
  induction segs as [|s segs IH]; intros m Hf; [done|].
  apply Forall_cons_1 in Hf as [Hs Hf]. pose proof (apply_seg_len _ _ _ Hs) as E.
  transitivity (zlen (apply_seg base m s)); [|done]. apply IH. by rewrite E.
Qed.

(** Receiving side: the mapping [pre ++ m ++ post] and its mirror [m], which starts at byte
    [zlen pre], take up the segments and the trailing bytes of a diff. *)
Lemma apply_diff_encode segs tail pre m post :
  Forall (seg_fits (zlen pre) (zlen m)) segs -> zlen (encode_segs segs ++ tail) < 2 ^ 64 ->
  zlen (pre ++ m ++ post) < 2 ^ 64 -> tail = [] \/ post = [] /\ zlen tail <= zlen m ->
  let m' := splice (apply_segs (zlen pre) m segs) (zlen m - zlen tail) tail in
  Apply.apply_diff (encode_segs segs ++ tail) (zlen tail) (pre ++ m ++ post) (zlen pre) m
  = Ok (pre ++ m' ++ post, m').
Proof.
  intros Hf He Hm Ht m'. set (fd := pre ++ m ++ post) in *. unfold Apply.apply_diff.
  assert (Hfd : zlen fd = zlen pre + zlen m + zlen post) by (unfold fd; zlia). zlen_pos.
  pose proof (encode_segs_len_4 _ _ _ Hf) as Hq4. pose proof (encode_segs_len_ge _ _ _ Hf) as Hge.
  rewrite zlen_app in *.
  replace (zlen (encode_segs segs) + zlen tail - zlen tail) with (zlen (encode_segs segs)) by lia.
  rewrite chk_in by (unfold uN; zlia). cbn [mbind res_bind].
  rewrite assert_true by lia. cbn [mbind res_bind]. rewrite get_u32_len.
  assert (Hq' : zlen (encode_segs segs) / 4 * 4 = zlen (encode_segs segs))
    by (Z.div_mod_to_equations; lia).
  assert (Hf0 : Forall (seg_fits 0 (zlen fd)) segs).
  { eapply Forall_impl; [exact Hf|]. intros s (?&?&?&?&?&?). unfold seg_fits. lia. }
  pose proof (apply_loop_encode (zlen pre) segs tail (zlen (encode_segs segs) / 4)
    (S (length (encode_segs segs ++ tail))) [] fd m Hf Hf0) as P. cbn [app] in P.
  rewrite zlen_nil in P. rewrite P by (try (unfold zlen in *; rewrite ?length_app); lia). clear P.
  cbn [mbind res_bind].
  assert (Hms : zlen (apply_segs (zlen pre) m segs) = zlen m) by by apply apply_segs_len.
  assert (apply_segs 0 fd segs = pre ++ apply_segs (zlen pre) m segs ++ post) as ->
    by by apply apply_segs_embed.
  unfold m'. revert Hms. generalize (apply_segs (zlen pre) m segs) as ms. clear m'. intros ms Hms.
  destruct Ht as [->|[-> Ht]]; [by rewrite splice_nil|].
  destruct (Z.ltb_spec 0 (zlen tail)) as [Hpos|Hneg].
  - unfold Mapping.get_u8. rewrite !app_nil_r, Hq'.
    replace (zlen (pre ++ ms) - zlen tail) with (zlen pre + (zlen m - zlen tail)) by zlia.
    mok. rewrite slice_app_tail, splice_app_r by lia. do 3 f_equal. lia.
  - replace tail with (@nil byte) by (symmetry; apply zlen_zero_nil; lia).
    by rewrite splice_nil.
Qed.

(** over any list of damaged intervals (in range, aligned to 64 bytes, possibly
    overlapping) [construct_diff] never panics in an output buffer of eight bytes plus the
    length for each interval; the reference takes the mapping's data exactly on the intervals;
    and [apply_diff] on its output turns a remote mapping whose mirror equals the old reference
    into one that holds, with its mirror, the new reference, and changes no byte outside. *)
Theorem shm_diff_replicates (fd pre ref post diff : bytes) (ivs : list (Z * Z)) :
  Forall (interval_ok (zlen fd) (zlen pre) (zlen ref)) ivs ->
  interval_space ivs <= zlen diff -> zlen diff < 2 ^ 32 -> zlen (pre ++ ref ++ post) < 2 ^ 64 ->
  exists n buf ref',
    Construct.construct_diff diff fd ivs ref (zlen pre) = Ok (n, buf, ref') /\
    zlen buf = zlen diff /\ 0 <= n <= interval_space ivs /\
    (forall k : nat, ref' !! k = if in_intervals ivs (zlen pre + Z.of_nat k)
                                 then fd !! Z.to_nat (zlen pre + Z.of_nat k) else ref !! k) /\
    Apply.apply_diff (take (Z.to_nat n) buf) 0 (pre ++ ref ++ post) (zlen pre) ref
      = Ok (pre ++ ref' ++ post, ref').
Proof.
  intros Hf Hsp Hd Hm. zlen_pos.
  destruct (construct_diff_ok fd (zlen pre) ivs ref [] diff Hf) as (segs&junk&E&El&Eb&Hfit&Ha);
    [lia|done|done|]. cbn [app] in E. rewrite zlen_nil in E.
  exists (zlen (encode_segs segs)), (encode_segs segs ++ junk), (foldl (refresh fd (zlen pre)) ref ivs).
  split_and!; try done; [zlia| |].
  - intros k. by apply refresh_lookup.
  - replace (take _ _) with (encode_segs segs ++ [])
      by (unfold zlen; by rewrite Nat2Z.id, take_app_length, app_nil_r).
    rewrite <- Ha. pose proof (apply_diff_encode segs [] pre ref post Hfit) as P. cbn zeta in P.
    rewrite splice_nil in P. apply P; [rewrite app_nil_r; zlia|done|by left].
Qed.

Lemma shm_diff_replicates_witness :
  exists n buf ref',
    Construct.construct_diff (replicate 144 Byte.x00) (replicate 192 Byte.x01)
      [(64, 128); (64, 128)] (replicate 128 Byte.x00) 64 = Ok (n, buf, ref') /\
    zlen buf = 144 /\ 0 <= n <= 144 /\
    (forall k : nat, ref' !! k = if in_intervals [(64, 128); (64, 128)] (64 + Z.of_nat k)
       then replicate 192 Byte.x01 !! Z.to_nat (64 + Z.of_nat k)
       else replicate 128 Byte.x00 !! k) /\
    Apply.apply_diff (take (Z.to_nat n) buf) 0
      (replicate 64 Byte.xff ++ replicate 128 Byte.x00 ++ [Byte.xee]) 64 (replicate 128 Byte.x00)
      = Ok (replicate 64 Byte.xff ++ ref' ++ [Byte.xee], ref').
Proof.
  apply (shm_diff_replicates (replicate 192 Byte.x01) (replicate 64 Byte.xff)
    (replicate 128 Byte.x00) [Byte.xee] (replicate 144 Byte.x00) [(64, 128); (64, 128)]);
    [repeat constructor|..]; vm_compute; congruence.
Defined.

(** ** The span of a diff *)
Lemma span_loop_encode len segs tail nb : forall fuel pre a b,
  Forall (seg_fits 0 len) segs -> 4 * nb = zlen pre + zlen (encode_segs segs) ->
  (length segs < fuel)%nat ->
  exists a' b', Apply.span_loop fuel (pre ++ encode_segs segs ++ tail) nb (zlen pre) a b
    = Ok (a', b') /\ a' <= a /\ b <= b' /\ (b <= len / 4 -> b' <= len / 4) /\
    (0 <= a -> 0 <= a') /\ (segs <> [] -> a' < b') /\
    Forall (fun s : seg => a' <= s.1 /\ s.1 + zlen s.2 / 4 <= b') segs.
Proof.
  induction segs as [|s segs IH]; intros fuel pre a b Hf Hn Hfuel;
    (destruct fuel as [|fuel]; [cbn in Hfuel; lia|]); cbn [Apply.span_loop].
  - replace (4 * nb <=? zlen pre) with true
      by (change (zlen (encode_segs [])) with 0 in Hn; lia).
    exists a, b. by split_and!; try constructor.
  - apply Forall_cons_1 in Hf as [Hs Hf]. rewrite encode_segs_cons in *.
    rewrite zlen_app, encode_seg_len in Hn. zlen_pos. rewrite <- app_assoc.
    destruct (read_seg pre s (encode_segs segs ++ tail) _ _ Hs) as (R1 & R2 & _).
    pose proof Hs as (?&?&?&?&?&?).
    assert (4 * (zlen s.2 / 4) = zlen s.2) by (Z.div_mod_to_equations; lia).
    replace (4 * nb <=? zlen pre) with false by lia. rewrite R1, R2; cbn [mbind res_bind].
    rewrite chk_in by (unfold uN; lia). cbn [mbind res_bind]. rewrite (app_assoc pre).
    replace (zlen pre + 8 + _) with (zlen (pre ++ encode_seg s))
      by (rewrite zlen_app, encode_seg_len; lia).
    edestruct (IH fuel (pre ++ encode_seg s)) as (a'&b'&->&Ha&Hb&Hb'&Ha0&Hne&HF); [done| |cbn in Hfuel; lia|].
    { rewrite zlen_app, encode_seg_len. lia. }
    exists a', b'. split_and!; try done; try lia.
    + intros Hle. apply Hb'. Z.div_mod_to_equations; lia.
    + constructor; [lia|done].
Qed.

(** [inside a b s]: the segment lies in bytes [[a, b)]. *)
Definition inside (a b : Z) (s : seg) : Prop := a <= 4 * s.1 /\ 4 * s.1 + zlen s.2 <= b.

Lemma apply_segs_outside segs a b : forall m (k : nat),
  Forall (seg_fits 0 (zlen m)) segs -> Forall (inside a b) segs ->
  Z.of_nat k < a \/ b <= Z.of_nat k -> apply_segs 0 m segs !! k = m !! k.
Proof.
  induction segs as [|s segs IH]; intros m k Hf Hr Hk; [done|].
  apply Forall_cons_1 in Hf as [Hs Hf], Hr as [[] Hr]. pose proof Hs as (?&?&?&?&?&?).
  cbn [apply_segs foldl]. fold (apply_segs 0 (apply_seg 0 m s) segs).
  rewrite IH; [|by rewrite apply_seg_len|done|done].
  unfold apply_seg. rewrite lookup_splice by lia. by replace (_ && _) with false by lia.
Qed.

Lemma compute_diff_span_encode segs tail len :
  Forall (seg_fits 0 (len - zlen tail)) segs -> zlen tail <= len < 2 ^ 64 ->
  encode_segs segs ++ tail <> [] -> zlen (encode_segs segs ++ tail) < 2 ^ 64 ->
  exists a b, Apply.compute_diff_span (encode_segs segs ++ tail) (zlen tail) len = Ok (a, b) /\
    0 <= a < b /\ b <= len /\ (tail = [] \/ a <= len - zlen tail /\ b = len) /\
    Forall (inside a b) segs.
Proof.
  intros Hf Ht Hne He. rewrite zlen_app in He. zlen_pos.
  pose proof (encode_segs_len_4 _ _ _ Hf) as Hq4. pose proof (encode_segs_len_ge _ _ _ Hf) as Hge.
  unfold Apply.compute_diff_span. rewrite zlen_app.
  replace (zlen (encode_segs segs) + zlen tail - zlen tail) with (zlen (encode_segs segs)) by lia.
  rewrite !chk_in by (unfold uN; lia). cbn [mbind res_bind].
  rewrite assert_true by lia. cbn [mbind res_bind].
  destruct segs as [|s segs].
  - cbn [app encode_segs map concat] in *. destruct tail as [|x tail]; [done|].
    pose proof (zlen_cons x tail). zlen_pos.
    change (zlen [] / 4 =? 0) with true. cbn iota. replace (_ =? 0) with false by lia.
    eexists _, _. split; [done|]. split_and!; try lia; constructor.
  - set (sg := s :: segs) in *. assert (1 <= zlen sg) by (unfold sg; rewrite zlen_cons; zlia).
    replace (_ / 4 =? 0) with false by (Z.div_mod_to_equations; lia).
    destruct (span_loop_encode (len - zlen tail) sg tail (zlen (encode_segs sg) / 4)
      (S (length (encode_segs sg ++ tail))) [] len 0) as (a&b&E&Ha&Hb&Hb'&Ha0&Hlt&HF);
      [done|rewrite zlen_nil; Z.div_mod_to_equations; lia
      |unfold zlen in Hge; rewrite length_app; lia|].
    cbn [app] in E. rewrite zlen_nil in E. rewrite E. cbn [mbind res_bind].
    specialize (Hlt ltac:(done)). specialize (Ha0 ltac:(lia)).
    assert (4 * b <= len - zlen tail) by (specialize (Hb' ltac:(Z.div_mod_to_equations; lia));
      Z.div_mod_to_equations; lia).
    rewrite assert_true by lia. cbn [mbind res_bind].
    assert (HF' : Forall (inside (a * 4) (b * 4)) sg).
    { apply Forall_forall. intros t Hin. rewrite Forall_forall in HF, Hf.
      specialize (HF t Hin). specialize (Hf t Hin) as (?&?&?&_).
      unfold inside. Z.div_mod_to_equations; lia. }
    destruct (Z.ltb_spec 0 (zlen tail)); eexists _, _; (split; [done|]); split_and!; try lia; try done.
    + eapply Forall_impl; [exact HF'|]. unfold inside. lia.
    + left. apply zlen_zero_nil. lia.
Qed.

(** on a non-empty diff whose segments precede its trailing bytes, [compute_diff_span]
    returns an interval inside the buffer, and applying the diff changes no byte outside it. *)
Theorem diff_span_covers (segs : list seg) (tail m : bytes) :
  Forall (seg_fits 0 (zlen m - zlen tail)) segs -> zlen tail <= zlen m ->
  encode_segs segs ++ tail <> [] ->
  zlen (encode_segs segs ++ tail) < 2 ^ 64 -> zlen m < 2 ^ 64 ->
  exists a b m',
    Apply.compute_diff_span (encode_segs segs ++ tail) (zlen tail) (zlen m) = Ok (a, b) /\
    0 <= a < b /\ b <= zlen m /\
    Apply.apply_diff (encode_segs segs ++ tail) (zlen tail) m 0 m = Ok (m', m') /\
    (forall k : nat, Z.of_nat k < a \/ b <= Z.of_nat k -> m' !! k = m !! k).
Proof.
  intros Hf Ht Hne He Hm. pose proof He as He'. rewrite zlen_app in He'. zlen_pos.
  pose proof (encode_segs_len_4 _ _ _ Hf) as Hq4. pose proof (encode_segs_len_ge _ _ _ Hf) as Hge.
  assert (Hf0 : Forall (seg_fits 0 (zlen m)) segs).
  { eapply Forall_impl; [exact Hf|]. intros s (?&?&?&?&?&?). unfold seg_fits. lia. }
  pose proof (apply_diff_encode segs tail [] m [] Hf0 He) as P. cbn [app] in P.
  rewrite zlen_nil, !app_nil_r in P. cbn zeta in P.
  set (m' := splice (apply_segs 0 m segs) (zlen m - zlen tail) tail) in *.
  assert (Hm' : forall k : nat, Z.of_nat k < zlen m - zlen tail \/ zlen m <= Z.of_nat k \/ tail = [] ->
    m' !! k = apply_segs 0 m segs !! k).
  { intros k Hk. destruct Hk as [Hk|[Hk| ->]]; [| |unfold m'; by rewrite splice_nil];
      unfold m'; (rewrite lookup_splice; [|lia|rewrite apply_segs_len by done; lia]);
      by replace (_ && _) with false by lia. }
  destruct (compute_diff_span_encode segs tail (zlen m) Hf) as (a&b&Ec&?&?&Htl&HF); [lia|done|done|].
  exists a, b, m'. split_and!; try done; [lia|lia|apply P; [done|by right]|].
  intros k Hk. rewrite Hm'; [by eapply apply_segs_outside|].
  destruct Htl as [->|[]]; [by right; right|lia].
Qed.

Lemma diff_span_covers_witness :
  exists a b m',
    Apply.compute_diff_span
      (encode_segs [(1, replicate 4 Byte.x01)] ++ [Byte.x02]) 1 17 = Ok (a, b) /\
    0 <= a < b /\ b <= 17 /\
    Apply.apply_diff (encode_segs [(1, replicate 4 Byte.x01)] ++ [Byte.x02]) 1
      (replicate 17 Byte.x00) 0 (replicate 17 Byte.x00) = Ok (m', m') /\
    (forall k : nat, Z.of_nat k < a \/ b <= Z.of_nat k -> m' !! k = replicate 17 Byte.x00 !! k).
Proof.
  apply (diff_span_covers [(1, replicate 4 Byte.x01)] [Byte.x02] (replicate 17 Byte.x00));
    [repeat constructor|..]; vm_compute; congruence.
Defined.

(** ** Malformed diffs *)

(** [apply_diff] reports a segment that ends beyond the buffer as an error, but
    [apply_diff_one] compares a word position with a byte length and panics on the same diff;
    and both panic when a diff ends inside a segment header. *)
Theorem malformed_diffs :
  let long := to_le 4 0 ++ to_le 4 2 ++ replicate 8 Byte.x01 in
  Apply.apply_diff long 0 (replicate 4 Byte.x00) 0 (replicate 4 Byte.x00)
    = Err "Copy interval invalid" /\
  Apply.apply_diff_one long 0 0 (replicate 4 Byte.x00) = Panic /\
  Apply.apply_diff (to_le 4 0) 0 (replicate 4 Byte.x00) 0 (replicate 4 Byte.x00) = Panic /\
  Apply.apply_diff_one (to_le 4 0) 0 0 (replicate 4 Byte.x00) = Panic.
Proof. by vm_compute. Qed.
