(* ===== verification/Avx2.v ===== *)
(** * The AVX2 routine for diffs (src/kernel.rs)

    [construct_diff_segment_two_avx2] compares 64 bytes at a time with vector instructions, where
    the portable routine of [Kernel] compares lines. It is used on processors that have these
    instructions; [construct_diff_segment_two] chooses.

    A vector of 256 bits is a list of 32 bytes; the intrinsics are defined after the Intel
    manual. The slice [diff] is a position in the output buffer, since one of the masked stores
    starts before it; a store outside the buffer, which would be undefined behaviour, is
    [Panic]. The alignment of pointers is not modelled. *)
From Stdlib Require Import ZArith Lia.
From S2P Require Import Prelude Kernel KernelCorrect.
Local Open Scope Z_scope.

(** ** Intrinsics *)

(** The double words of a vector. *)
Definition dwords (v : bytes) : list bytes := (fun j => take 4 (drop (4 * j) v)) <$> seq 0 8.
Definition _mm256_cmpeq_epi32 (a b : bytes) : bytes :=
  concat (zip_with (fun x y => replicate 4 (if decide (x = y) then Byte.xff else Byte.x00)) (dwords a) (dwords b)).
(** Words of two bytes: bit [k mod 8] of the mask takes word [k] from the second. *)
Definition _mm256_blend_epi16 (imm : Z) (a b : bytes) : bytes :=
  concat ((fun k => take 2 (drop (2 * k) (if Z.testbit imm (Z.of_nat (k mod 8)) then b else a))) <$> seq 0 16).
(** Whether all bits of [b] are set in [a]. *)
Definition _mm256_testc_si256 (a b : bytes) : bool :=
  forallb (fun p => byte.unsigned p.2 =? Z.land (byte.unsigned p.1) (byte.unsigned p.2)) (zip a b).
(** The top bits of the bytes. *)
Definition bits (l : list bool) : Z := foldr (fun (b : bool) n => (if b then 1 else 0) + 2 * n) 0 l.
Definition _mm256_movemask_epi8 (a : bytes) : Z := bits ((fun x => Z.testbit (byte.unsigned x) 7) <$> a).
Fixpoint trailing_zeros (n : nat) (x : Z) : Z :=
  match n with O => 0 | S n => if Z.testbit x 0 then 0 else 1 + trailing_zeros n (Z.shiftr x 1) end.
Definition _tzcnt_u64 (x : Z) : Z := trailing_zeros 64 x.
Fixpoint leading_zeros (n : nat) (x : Z) : Z :=
  match n with O => 0 | S n => if Z.testbit x (Z.of_nat n) then 0 else 1 + leading_zeros n x end.
Definition _lzcnt_u64 (x : Z) : Z := leading_zeros 64 x.
(** [!x] *)
Definition not_ w (x : Z) : Z := Z.lxor x (Z.ones w).
(** The first four bytes of the operand, sign-extended to 64 bits each. *)
Definition _mm256_cvtepi8_epi64 (a : bytes) : bytes :=
  concat ((fun x => x :: replicate 7 (if Z.testbit (byte.unsigned x) 7 then Byte.xff else Byte.x00)) <$> take 4 a).
(** Stores the double words for which the top bit of the mask is set. *)
Definition _mm256_maskstore_epi32 (buf : bytes) (p : Z) (mask a : bytes) : res bytes :=
  foldM (fun buf j =>
    if Z.testbit (byte.unsigned (default Byte.x00 (mask !! (4 * j + 3)%nat))) 7
    then set_range buf (p + 4 * Z.of_nat j) (p + 4 * Z.of_nat j + 4) (take 4 (drop (4 * j) a)) else Ok buf) buf (seq 0 8).
Definition load (b : bytes) (p : Z) : res bytes := get_range b p (p + 32).
Definition store (b : bytes) (p : Z) (v : bytes) : res bytes := set_range b p (p + 32) v.

(** ** The routine *)

(** The output buffer, the place of [diff] in it, the reference, [dc] and [i]. *)
Record Avx := MkAvx { buf : bytes; pos : Z; refr : bytes; dc : Z; slab : Z }.

(** The comparisons of the halves of a slab are combined. The first loop: how many double words are the same at the start and the
    end of a slab, unless all are. *)
Definition first_masks (d1 d2 : bytes) : option (Z * Z) :=
  let merged := _mm256_blend_epi16 0x55 d1 d2 in
  if _mm256_testc_si256 merged (replicate 32 Byte.xff) then None else
  let merged_mask := _mm256_movemask_epi8 merged in
  let part1 := 0x33333333 in
  let part2 := not_ 32 part1 in
  let new_mask := Z.lor (Z.shiftl (Z.land merged_mask part1) 32) (Z.land merged_mask part2) in
  Some (Z.shiftr (_tzcnt_u64 (not_ 64 new_mask)) 2, Z.shiftr (_lzcnt_u64 (not_ 64 new_mask)) 2).
(** That of the second: whether all are, and how many at the end. *)
Definition next_masks (d1 d2 : bytes) : Z * Z :=
  let m1 := _mm256_movemask_epi8 d1 in
  let m2 := _mm256_movemask_epi8 d2 in
  let mask := Z.lor (Z.shiftl m2 32) m1 in
  ((if not_ 64 mask =? 0 then 1 else 0), Z.shiftr (_lzcnt_u64 (not_ 64 mask)) 2).

Section Routine.
Variables (target : bytes) (nslabs refbase_block skip_gap_len : Z).

(** The part of a slab that is sent first: from double word [ncom] on. *)
Definition store_first (s : Avx) (t1 t2 : bytes) (ncom : Z) : res bytes :=
  let block_shift := Z.land ncom 7 in
  let esmask := wrap 64 (Z.shiftl 0xffffffff (block_shift * 4)) in
  let halfsize := to_le 8 esmask ++ replicate 8 Byte.x00 in
  let estoremask := _mm256_cvtepi8_epi64 halfsize in
  b ← _mm256_maskstore_epi32 (buf s) (pos s - block_shift * 4) estoremask (if ncom <? 8 then t1 else t2);
  if ncom <? 8 then store b (pos s + 4 * (8 - block_shift)) t2 else Ok b.

(** Scan for a difference: the start of the segment and the double words that are the same at
    its end; 0 at the end of the data. *)
Fixpoint scan (fuel : nat) (s : Avx) : res (Z * Z * Avx) :=
  match fuel with
  | O => Panic
  | S fuel =>
      if slab s <? nslabs then
        t1 ← load target (64 * slab s); t2 ← load target (64 * slab s + 32);
        r1 ← load (refr s) (64 * slab s); r2 ← load (refr s) (64 * slab s + 32);
        match first_masks (_mm256_cmpeq_epi32 t1 r1) (_mm256_cmpeq_epi32 t2 r2) with
        | None => scan fuel (MkAvx (buf s) (pos s) (refr s) (dc s) (slab s + 1))
        | Some (ncom, trailing_unchanged) =>
            rf ← store (refr s) (64 * slab s) t1; rf ← store rf (64 * slab s + 32) t2;
            b ← store_first s t1 t2 ncom;
            n ← usize (16 - ncom);
            dc' ← usize (dc s + n);
            x ← u32 (16 * wrap 32 (slab s)); x ← u32 (x + wrap 32 ncom); start ← u32 (x + refbase_block);
            Ok (start, trailing_unchanged, MkAvx b (pos s) rf dc' (slab s + 1))
        end
      else Ok (0, 0, s)
  end.
(** Copy slabs until enough are the same. *)
Fixpoint produce (fuel : nat) (idc trailing_unchanged : Z) (s : Avx) : res (Z * Avx) :=
  match fuel with
  | O => Panic
  | S fuel =>
      if slab s <? nslabs then
        t1 ← load target (64 * slab s); t2 ← load target (64 * slab s + 32);
        r1 ← load (refr s) (64 * slab s); r2 ← load (refr s) (64 * slab s + 32);
        let '(clear, trail_count) := next_masks (_mm256_cmpeq_epi32 t1 r1) (_mm256_cmpeq_epi32 t2 r2) in
        trailing_unchanged ← usize (trailing_unchanged * clear + trail_count);
        b ← store (buf s) (pos s + 4 * (dc s - idc)) t1; b ← store b (pos s + 4 * (dc s - idc) + 32) t2;
        dc' ← usize (dc s + 16);
        if skip_gap_len <? trailing_unchanged then Ok (trailing_unchanged, MkAvx b (pos s) (refr s) dc' (slab s + 1)) else
        rf ← store (refr s) (64 * slab s) t1; rf ← store rf (64 * slab s + 32) t2;
        produce fuel idc trailing_unchanged (MkAvx b (pos s) rf dc' (slab s + 1))
      else Ok (trailing_unchanged, s)
  end.
(** The outer loop: a segment per turn. *)
Fixpoint segments (fuel : nat) (s : Avx) : res Avx :=
  match fuel with
  | O => Panic
  | S fuel =>
      if slab s <? nslabs then
        assert_ (pos s + 8 <=? zlen (buf s));;
        idc ← usize (dc s + 2);
        let ctrl := pos s in
        r ← scan (S (Z.to_nat nslabs)) (MkAvx (buf s) (pos s + 8) (refr s) idc (slab s));
        let '(start, trailing_unchanged, s) := r in
        r ← produce (S (Z.to_nat nslabs)) idc trailing_unchanged s;
        let '(trailing_unchanged, s) := r in
        if (nslabs <=? slab s) && (dc s =? idc) then
          dc' ← usize (dc s - 2); Ok (MkAvx (buf s) (pos s) (refr s) dc' (slab s))
        else
          dc' ← usize (dc s - trailing_unchanged);
          x ← u32 (16 * wrap 32 (slab s)); x ← u32 (x - wrap 32 trailing_unchanged); end_ ← u32 (x + refbase_block);
          b ← set_range (buf s) ctrl (ctrl + 4) (to_le 4 start);
          b ← set_range b (ctrl + 4) (ctrl + 8) (to_le 4 end_);
          n ← u32 (end_ - start); n ← u32 (4 * n);
          assert_ (pos s + n <=? zlen b);;
          segments fuel (MkAvx b (pos s + n) (refr s) dc' (slab s))
      else Ok s
  end.
End Routine.

(** The length of the diff, the buffer and the reference. *)
Definition construct_diff_segment_two_avx2 (diff target reference : bytes) (reference_base skip_gap_len : Z) :
  res (Z * bytes * bytes) :=
  let nslabs := zlen target / 64 in
  assert_ (zlen reference =? zlen target);;
  assert_ (zlen target mod 64 =? 0);;
  assert_ (zlen target + 8 <=? zlen diff);;
  assert_ (zlen diff <? u32_max);;
  assert_ (16 <=? skip_gap_len);;
  assert_ (1 <=? skip_gap_len / 16);;
  s ← segments target nslabs (reference_base / 4) skip_gap_len (S (Z.to_nat nslabs)) (MkAvx diff 0 reference 0 0);
  n ← usize (dc s * 4);
  Ok (wrap 32 n, buf s, refr s).

Example avx2_demo :
  construct_diff_segment_two_avx2 (replicate 136 Byte.x00) (replicate 64 Byte.x07 ++ replicate 20 Byte.x01 ++ replicate 44 Byte.x02)
    (replicate 64 Byte.x07 ++ replicate 20 Byte.x01 ++ replicate 24 Byte.x03 ++ replicate 20 Byte.x02) 256 16
  = Ok (72, to_le 4 80 ++ to_le 4 96 ++ replicate 20 Byte.x01 ++ replicate 44 Byte.x02 ++ replicate 64 Byte.x00,
        replicate 64 Byte.x07 ++ replicate 20 Byte.x01 ++ replicate 44 Byte.x02).
Proof. vm_compute. reflexivity. Qed.

(** ** Masks *)
Definition expand (e : list bool) : bytes := concat ((fun b : bool => replicate 4 (if b then Byte.xff else Byte.x00)) <$> e).
Definition same (a b : bytes) : list bool := zip_with (fun x y => bool_decide (x = y)) (dwords a) (dwords b).
Lemma cmpeq_same a b : _mm256_cmpeq_epi32 a b = expand (same a b).
Proof.
  unfold _mm256_cmpeq_epi32, expand, same. f_equal. generalize (dwords a), (dwords b).
  induction l as [|x l IH]; intros [|y k]; cbn; [done..|]. rewrite IH. f_equal.
  case_decide; [by rewrite bool_decide_true|by rewrite bool_decide_false].
Qed.
Lemma same_length a b : length (same a b) = 8%nat.
Proof. unfold same. by rewrite length_zip_with. Qed.

(** How many are set at the end. *)
Fixpoint trail (l : list bool) : nat :=
  match l with [] => O | b :: l' => if forallb id l then length l else trail l' end.

Lemma trail_snoc l b : trail (l ++ [b]) = if b then S (trail l) else 0%nat.
Proof.
  induction l as [|a l IH]; [by destruct b|]. cbn [app trail]. rewrite IH. cbn [forallb]. rewrite forallb_app. cbn [forallb].
  cbn [length]. rewrite length_app. cbn [length]. change (id a) with a. change (id b) with b. destruct a, b, (forallb id l); cbn; done || lia.
Qed.

Lemma bits_testbit l k : Z.testbit (bits l) (Z.of_nat k) = nth k l false.
Proof.
  revert k. induction l as [|b l IH]; intros k; cbn [bits foldr]; [rewrite Z.testbit_0_l; by destruct k|]. fold (bits l).
  replace ((if b then 1 else 0) + 2 * bits l) with (2 * bits l + Z.b2z b) by (destruct b; cbn; lia).
  destruct k as [|k]; [by rewrite Z.testbit_0_r|]. rewrite Nat2Z.inj_succ, Z.testbit_succ_r by lia. apply IH.
Qed.
Lemma not_testbit w x i : 0 <= i < w -> Z.testbit (not_ w x) i = negb (Z.testbit x i).
Proof. intros H. unfold not_. rewrite Z.lxor_spec, Z.ones_spec_low by lia. apply xorb_true_r. Qed.

(** The first loop never notices double words that are the same: the complement of [new_mask] has
    its lowest and its highest bit set, so both counts are 0. *)
Lemma first_masks_spec e1 e2 : length e1 = 8%nat -> length e2 = 8%nat ->
  first_masks (expand e1) (expand e2) = if forallb id (e1 ++ e2) then None else Some (0, 0).
Proof.
  intros H1 H2. unfold first_masks.
  assert (Hm : _mm256_testc_si256 (_mm256_blend_epi16 0x55 (expand e1) (expand e2)) (replicate 32 Byte.xff) = forallb id (e1 ++ e2)).
  { assert (Hb : forall b : bool, (255 =? Z.land (byte.unsigned (if b then Byte.xff else Byte.x00)) 255) = b) by (by intros []).
    do 8 (destruct e1 as [|? e1]; [done|]). destruct e1; [|done]. do 8 (destruct e2 as [|? e2]; [done|]). destruct e2; [|done].
    unfold _mm256_testc_si256, _mm256_blend_epi16, expand.
    cbv -[Z.land byte.unsigned Z.eqb andb]. change (byte.unsigned Byte.xff) with 255. rewrite !Hb.
    apply eq_true_iff_eq. rewrite ?andb_true_iff. unfold id. tauto. }
  rewrite Hm. destruct (forallb id (e1 ++ e2)); [done|].
  set (mm := _mm256_movemask_epi8 _). set (nm := Z.lor _ _).
  assert (Hb : Z.testbit (not_ 64 nm) 0 = true /\ Z.testbit (not_ 64 nm) 63 = true).
  { unfold nm. rewrite !not_testbit, !Z.lor_spec, !Z.land_spec, !Z.shiftl_spec by lia. rewrite Z.testbit_neg_r, !Z.land_spec by lia.
    change (Z.testbit (not_ 32 0x33333333) 0) with false. change (Z.testbit (not_ 32 0x33333333) 63) with false.
    change (Z.testbit 0x33333333 (63 - 32)) with false. by rewrite !andb_false_r. }
  destruct Hb as [H0 H63]. unfold _tzcnt_u64, _lzcnt_u64. cbn [trailing_zeros leading_zeros]. rewrite H0.
  change (Z.of_nat 63) with 63. by rewrite H63.
Qed.

(** The second loop counts exactly. *)
Lemma leading_zeros_trail n (e : list bool) x : (n <= length e)%nat ->
  (forall k, (k < 4 * n)%nat -> Z.testbit x (Z.of_nat k) = negb (nth (k / 4) e false)) ->
  leading_zeros (4 * n) x = 4 * Z.of_nat (trail (take n e)).
Proof.
  induction n as [|n IH]; intros Hn Hx; [done|]. replace (4 * S n)%nat with (S (S (S (S (4 * n))))) by lia. cbn [leading_zeros].
  assert (Hk : forall r, (r < 4)%nat -> Z.testbit x (Z.of_nat (4 * n + r)) = negb (nth n e false)).
  { intros r Hr. rewrite Hx by lia. do 2 f_equal. rewrite Nat.mul_comm, Nat.div_add_l, Nat.div_small by lia. lia. }
  replace (S (S (S (4 * n)))) with (4 * n + 3)%nat by lia. replace (S (S (4 * n))) with (4 * n + 2)%nat by lia.
  replace (S (4 * n)) with (4 * n + 1)%nat by lia. replace (4 * n)%nat with (4 * n + 0)%nat at 4 by lia. rewrite !Hk by lia.
  destruct (lookup_lt_is_Some_2 e n ltac:(lia)) as [b Eb]. rewrite (take_S_r e n b Eb), trail_snoc.
  rewrite (nth_lookup_Some e n false b Eb). destruct b; cbn [negb]; [|done]. rewrite IH; [lia|lia|].
  intros k Hk'. apply Hx. lia.
Qed.
Lemma movemask_expand e k : length e = 8%nat ->
  Z.testbit (_mm256_movemask_epi8 (expand e)) (Z.of_nat k) = nth (k / 4) e false.
Proof.
  intros H. unfold _mm256_movemask_epi8. rewrite bits_testbit.
  assert (Hb : forall b : bool, Z.testbit (byte.unsigned (if b then Byte.xff else Byte.x00)) 7 = b) by (by intros []).
  do 8 (destruct e as [|? e]; [done|]). destruct e; [|done]. unfold expand. cbn -[Z.testbit byte.unsigned Nat.div nth]. rewrite !Hb.
  destruct (decide (k < 32)%nat) as [Hk|Hk].
  - do 32 (destruct k as [|k]; [done|]). lia.
  - assert (8 <= k / 4)%nat by (apply Nat.div_le_lower_bound; lia). rewrite !nth_overflow; cbn [length]; done || lia.
Qed.
Lemma next_masks_spec e1 e2 : length e1 = 8%nat -> length e2 = 8%nat ->
  next_masks (expand e1) (expand e2) = ((if forallb id (e1 ++ e2) then 1 else 0), Z.of_nat (trail (e1 ++ e2))).
Proof.
  intros H1 H2. unfold next_masks. set (mask := Z.lor _ _).
  assert (Hm : forall k, Z.testbit mask (Z.of_nat k) = nth (k / 4) (e1 ++ e2) false).
  { intros k. unfold mask. rewrite Z.lor_spec, Z.shiftl_spec, movemask_expand by (done || lia).
    destruct (decide (k < 32)%nat).
    - rewrite Z.testbit_neg_r by lia. rewrite app_nth1; [done|]. rewrite H1. apply Nat.Div0.div_lt_upper_bound; lia.
    - replace (Z.of_nat k - 32) with (Z.of_nat (k - 32)) by lia. rewrite movemask_expand by done.
      assert (E : (k / 4 = (k - 32) / 4 + 8)%nat).
      { rewrite <- (Nat.div_add (k - 32) 8 4) by lia. f_equal. lia. }
      rewrite app_nth2 by (rewrite H1; lia). rewrite (nth_overflow e1) by (rewrite H1; lia). rewrite orb_false_r, H1.
      f_equal. lia. }
  assert (Hlen : length (e1 ++ e2) = 16%nat) by (rewrite length_app; lia).
  f_equal.
  - destruct (forallb id (e1 ++ e2)) eqn:E.
    + rewrite (proj2 (Z.eqb_eq _ _)); [done|]. apply Z.bits_inj_0. intros i. destruct (decide (i < 0)); [by rewrite Z.testbit_neg_r|].
      replace i with (Z.of_nat (Z.to_nat i)) by lia. set (k := Z.to_nat i). unfold not_. rewrite Z.lxor_spec, Hm.
      rewrite forallb_forall in E. destruct (decide (k < 64)%nat).
      * rewrite Z.ones_spec_low by lia. assert (En : nth (k / 4) (e1 ++ e2) false = true); [|by rewrite En].
        apply (E (nth (k / 4) (e1 ++ e2) false)), nth_In. rewrite Hlen. apply Nat.Div0.div_lt_upper_bound; lia.
      * rewrite Z.ones_spec_high by lia. rewrite nth_overflow; [done|]. rewrite Hlen. apply Nat.div_le_lower_bound; lia.
    + rewrite (proj2 (Z.eqb_neq _ _)); [done|]. intros E0. assert (Ha : forallb id (e1 ++ e2) = true); [|congruence].
      apply forallb_forall. intros b Hb. apply (In_nth _ _ false) in Hb as (j & Hj & <-).
      pose proof (Hm (4 * j)%nat) as Ht. rewrite Nat.mul_comm, Nat.div_mul in Ht by lia.
      assert (Hn : Z.testbit (not_ 64 mask) (Z.of_nat (j * 4)) = false) by (by rewrite E0, Z.testbit_0_l).
      rewrite not_testbit in Hn by lia. rewrite Ht in Hn. by destruct (nth j (e1 ++ e2) false).
  - unfold _lzcnt_u64. change 64%nat with (4 * 16)%nat. rewrite (leading_zeros_trail 16 (e1 ++ e2)); [|lia|].
    + rewrite take_ge by lia. rewrite Z.shiftr_div_pow2 by lia. change (2 ^ 2) with 4. rewrite Z.mul_comm, Z.div_mul; lia.
    + intros k Hk. rewrite not_testbit by lia. by rewrite Hm.
Qed.

(** ** Slabs *)
Lemma concat_dwords (v : bytes) n : concat ((fun j => take 4 (drop (4 * j) v)) <$> seq 0 n) = take (4 * n) v.
Proof.
  induction n as [|n IH]; [done|]. rewrite seq_S, fmap_app, concat_app, IH. cbn [fmap list_fmap concat Nat.add]. rewrite app_nil_r.
  replace (4 * S n)%nat with (4 * n + 4)%nat by lia. apply take_take_drop.
Qed.
Lemma dwords_concat (v : bytes) : zlen v = 32 -> concat (dwords v) = v.
Proof. intros H. unfold dwords. rewrite concat_dwords. apply take_ge. unfold zlen in H. lia. Qed.

Definition agree (W R : list bytes) : list bool := zip_with (fun x y => bool_decide (x = y)) W R.
Lemma agree_all W R : length W = length R -> forallb id (agree W R) = bool_decide (W = R).
Proof.
  revert R. induction W as [|w W IH]; intros [|r R]; try done. intros [= H]. cbn [agree zip_with forallb]. fold (agree W R).
  rewrite (IH R H). unfold id. apply eq_true_iff_eq. rewrite andb_true_iff, !bool_decide_eq_true. naive_solver.
Qed.
Lemma trail_split W R : length W = length R ->
  exists W1 R1 X, W = W1 ++ X /\ R = R1 ++ X /\ length X = trail (agree W R) /\ length W1 = length R1 /\ (W <> R -> W1 <> []).
Proof.
  revert R. induction W as [|w W IH]; intros [|r R]; try done; intros H.
  { exists [], [], []. split_and!; done. }
  injection H as H. cbn [agree zip_with]. fold (agree W R). cbn [trail].
  change (bool_decide (w = r) :: agree W R) with (agree (w :: W) (r :: R)). rewrite agree_all by (cbn; lia). case_bool_decide as E.
  - exists [], [], (w :: W). rewrite <- E. split_and!; try done. cbn [agree zip_with]. fold (agree W W). cbn [length].
    unfold agree. rewrite length_zip_with. lia.
  - destruct (IH R H) as (W1 & R1 & X & -> & -> & HX & Hl & _). exists (w :: W1), (r :: R1), X. cbn [length]. split_and!; try done. lia.
Qed.

(** What the masks tell of a slab. *)
Lemma concat4_length (W : list bytes) : Forall (fun w => length w = 4%nat) W -> length (concat W) = (4 * length W)%nat.
Proof. induction 1 as [|w W Hw _ IH]; cbn [concat length]; [done|]. rewrite length_app. lia. Qed.
Lemma dwords_4 (v : bytes) : zlen v = 32 -> Forall (fun w => length w = 4%nat) (dwords v).
Proof.
  intros H. apply Forall_fmap, Forall_forall. intros j Hj. apply elem_of_seq in Hj. cbn. rewrite length_take, length_drop.
  unfold zlen in H. lia.
Qed.
Lemma slab_masks (t1 t2 r1 r2 : bytes) : zlen t1 = 32 -> zlen t2 = 32 -> zlen r1 = 32 -> zlen r2 = 32 ->
  let e := same t1 r1 ++ same t2 r2 in
  forallb id e = bool_decide (t1 ++ t2 = r1 ++ r2) /\
  exists v1 s1 x, t1 ++ t2 = v1 ++ x /\ r1 ++ r2 = s1 ++ x /\ zlen x = 4 * Z.of_nat (trail e) /\ zlen v1 = zlen s1 /\
    zlen v1 mod 4 = 0 /\ (t1 ++ t2 <> r1 ++ r2 -> 0 < zlen v1).
Proof.
  intros H1 H2 H3 H4 e. set (W := dwords t1 ++ dwords t2). set (R := dwords r1 ++ dwords r2).
  assert (He : e = agree W R) by (unfold e, same, agree, W, R; by rewrite zip_with_app).
  assert (HW : t1 ++ t2 = concat W) by (unfold W; by rewrite concat_app, !dwords_concat).
  assert (HR : r1 ++ r2 = concat R) by (unfold R; by rewrite concat_app, !dwords_concat).
  assert (FW : Forall (fun w => length w = 4%nat) W) by (apply Forall_app; split; by apply dwords_4).
  assert (FR : Forall (fun w => length w = 4%nat) R) by (apply Forall_app; split; by apply dwords_4).
  assert (Hl : length W = length R) by done.
  assert (Hinj : W = R <-> concat W = concat R).
  { split; [by intros ->|]. rewrite <- HW, <- HR. intros E. apply app_inj_1 in E as [-> ->]; [done|]. unfold zlen in *. lia. }
  split.
  - rewrite He, agree_all by done. rewrite HW, HR. by apply bool_decide_ext.
  - destruct (trail_split W R Hl) as (W1 & R1 & X & EW & ER & HX & Hl1 & Hne). rewrite He.
    rewrite EW in FW. rewrite ER in FR. apply Forall_app in FW as [F1 F2]. apply Forall_app in FR as [F3 _].
    exists (concat W1), (concat R1), (concat X). rewrite HW, HR. rewrite EW at 1. rewrite ER at 1. rewrite !concat_app.
    unfold zlen. rewrite !concat4_length by done. split_and!; try done; try lia.
    { rewrite Nat2Z.inj_mul, Z.mul_comm. by apply Z_mod_mult. }
    intros Hd. rewrite <- Hinj in Hd. specialize (Hne Hd). destruct W1; [done|]. cbn [length]. lia.
Qed.

Lemma maskstore_all (P rest a : bytes) : zlen a = 32 -> 32 <= zlen rest ->
  exists rest', _mm256_maskstore_epi32 (P ++ rest) (zlen P) (replicate 32 Byte.xff) a = Ok (P ++ a ++ rest') /\ zlen rest' = zlen rest - 32.
Proof.
  intros Ha Hr. unfold _mm256_maskstore_epi32.
  match goal with |- context [foldM ?f _ _] => enough (H : forall n, (n <= 8)%nat ->
    exists rest', foldM f (P ++ rest) (seq 0 n) = Ok (P ++ take (4 * n) a ++ rest') /\ zlen rest' = zlen rest - 4 * Z.of_nat n) end.
  { destruct (H 8%nat ltac:(lia)) as (rest' & E & Hl). exists rest'. rewrite (take_ge a) in E by (unfold zlen in *; lia). done. }
  induction n as [|n IH]; intros Hn; [exists rest; split; [done|lia]|].
  destruct (IH ltac:(lia)) as (rest' & E & Hl). rewrite seq_S, foldM_app, E. cbn [mbind res_bind foldM Nat.add].
  assert (Hb : replicate 32 Byte.xff !! (4 * n + 3)%nat = Some Byte.xff) by (apply lookup_replicate_2; lia). rewrite Hb.
  cbn [default]. change (Z.testbit (byte.unsigned Byte.xff) 7) with true. cbn beta iota.
  assert (H4 : zlen (take 4 (drop (4 * n) a)) = 4) by (unfold zlen in *; rewrite length_take, length_drop; lia).
  rewrite app_assoc. destruct (set_range_after (P ++ take (4 * n) a) rest' (take 4 (drop (4 * n) a)) (zlen P + 4 * Z.of_nat n)
    (zlen P + 4 * Z.of_nat n + 4)) as (r2 & -> & Hr2); [rewrite zlen_app; unfold zlen in *; rewrite length_take; lia|lia|lia|].
  cbn [mbind res_bind]. exists r2. split; [|lia].
  replace (4 * S n)%nat with (4 * n + 4)%nat by lia. by rewrite <- (take_take_drop a (4 * n) 4), <- !app_assoc.
Qed.

Lemma load_slab (P v Q : bytes) : zlen v = 64 ->
  load (P ++ v ++ Q) (zlen P) = Ok (take 32 v) /\ load (P ++ v ++ Q) (zlen P + 32) = Ok (drop 32 v).
Proof.
  intros Hv. unfold load. split; rewrite get_range_ok by zlia; f_equal; rewrite slice_app_r by lia.
  - rewrite slice_app_l by zlia. unfold slice. replace (Z.to_nat (zlen P + 32 - zlen P - (zlen P - zlen P))) with 32%nat by lia.
    by replace (Z.to_nat (zlen P - zlen P)) with 0%nat by lia.
  - rewrite slice_app_l by zlia. unfold slice. replace (Z.to_nat (zlen P + 32 - zlen P)) with 32%nat by lia.
    apply take_ge. rewrite length_drop. unfold zlen in *. lia.
Qed.
Lemma store_slab (P r Q v : bytes) : zlen r = 64 -> zlen v = 64 ->
  (b ← store (P ++ r ++ Q) (zlen P) (take 32 v); store b (zlen P + 32) (drop 32 v)) = Ok (P ++ v ++ Q).
Proof.
  intros Hr Hv. unfold store.
  assert (H1 : zlen (take 32 v) = 32) by (unfold zlen in *; rewrite length_take; lia).
  assert (H2 : zlen (drop 32 v) = 32) by (unfold zlen in *; rewrite length_drop; lia).
  assert (H3 : zlen (take 32 r) = 32) by (unfold zlen in *; rewrite length_take; lia).
  assert (H4 : zlen (drop 32 r) = 32) by (unfold zlen in *; rewrite length_drop; lia).
  rewrite <- (take_drop 32 r), <- app_assoc. rewrite set_range_ok by zlia. cbn [mbind res_bind]. rewrite splice_mid by lia.
  rewrite set_range_ok by zlia. rewrite (app_assoc P (take 32 v)), splice_mid by zlia. f_equal.
  by rewrite <- (take_drop 32 v) at 3; rewrite <- !app_assoc.
Qed.
(** Writing a slab after a prefix of a buffer. *)
Lemma append_slab (P rest v : bytes) : zlen v = 64 -> 64 <= zlen rest ->
  exists rest', (b ← store (P ++ rest) (zlen P) (take 32 v); store b (zlen P + 32) (drop 32 v)) = Ok (P ++ v ++ rest') /\
    zlen rest' = zlen rest - 64.
Proof.
  intros Hv Hr. exists (drop 64 rest). rewrite <- (take_drop 64 rest) at 1. split.
  - apply store_slab; [unfold zlen in *; rewrite length_take; lia|done].
  - unfold zlen in *. rewrite length_drop. lia.
Qed.
Lemma store_first_0 (P rest v refr : bytes) dc i : zlen v = 64 -> 64 <= zlen rest ->
  exists rest', store_first (MkAvx (P ++ rest) (zlen P) refr dc i) (take 32 v) (drop 32 v) 0 = Ok (P ++ v ++ rest') /\
    zlen rest' = zlen rest - 64.
Proof.
  intros Hv Hr. unfold store_first. cbn [buf pos].
  assert (H1 : zlen (take 32 v) = 32) by (unfold zlen in *; rewrite length_take; lia).
  assert (H2 : zlen (drop 32 v) = 32) by (unfold zlen in *; rewrite length_drop; lia).
  change (_mm256_cvtepi8_epi64 _) with (replicate 32 Byte.xff). change (Z.land 0 7) with 0. change (0 <? 8) with true.
  rewrite Z.mul_0_l, Z.sub_0_r, Z.sub_0_r. cbn beta iota.
  destruct (maskstore_all P rest (take 32 v) H1 ltac:(lia)) as (r1 & -> & E1). cbn [mbind res_bind]. unfold store.
  rewrite app_assoc. destruct (set_range_after (P ++ take 32 v) r1 (drop 32 v) (zlen P + 4 * 8) (zlen P + 4 * 8 + 32)) as (r2 & -> & E2);
    [zlia|lia|lia|]. exists r2. split; [|lia]. by rewrite <- (take_drop 32 v) at 3; rewrite <- !app_assoc.
Qed.

(** Masks of a slab of the target and one of the reference. *)
Lemma halves (v : bytes) : zlen v = 64 -> zlen (take 32 v) = 32 /\ zlen (drop 32 v) = 32.
Proof. unfold zlen. rewrite length_take, length_drop. lia. Qed.
Lemma first_slab (v r : bytes) : zlen v = 64 -> zlen r = 64 ->
  first_masks (_mm256_cmpeq_epi32 (take 32 v) (take 32 r)) (_mm256_cmpeq_epi32 (drop 32 v) (drop 32 r))
  = if decide (v = r) then None else Some (0, 0).
Proof.
  intros Hv Hr. destruct (halves v Hv), (halves r Hr). rewrite !cmpeq_same, first_masks_spec by apply same_length.
  destruct (slab_masks (take 32 v) (drop 32 v) (take 32 r) (drop 32 r)) as [-> _]; [done..|]. rewrite !take_drop.
  case_decide; [by rewrite bool_decide_true|by rewrite bool_decide_false].
Qed.
Lemma next_slab (v r : bytes) : zlen v = 64 -> zlen r = 64 -> exists tc v1 r1 x,
  next_masks (_mm256_cmpeq_epi32 (take 32 v) (take 32 r)) (_mm256_cmpeq_epi32 (drop 32 v) (drop 32 r))
  = ((if decide (v = r) then 1 else 0), tc) /\
  v = v1 ++ x /\ r = r1 ++ x /\ zlen x = 4 * tc /\ zlen v1 = zlen r1 /\ zlen v1 mod 4 = 0 /\ (v = r -> tc = 16) /\ (v <> r -> 0 < zlen v1).
Proof.
  intros Hv Hr. destruct (halves v Hv), (halves r Hr). rewrite !cmpeq_same, next_masks_spec by apply same_length.
  destruct (slab_masks (take 32 v) (drop 32 v) (take 32 r) (drop 32 r)) as (Ha & v1 & r1 & x & E1 & E2 & Hx & Hl & H4 & Hp); [done..|].
  rewrite !take_drop in *. set (e := same _ _ ++ _) in *. rewrite Ha. case_decide as E.
  - exists 16, [], [], v. rewrite bool_decide_true by done. split_and!; try done; try lia.
    f_equal. assert (He : length e = 16%nat) by (unfold e; by rewrite length_app, !same_length).
    rewrite bool_decide_true in Ha by done. clearbody e. destruct e as [|b e]; [done|]. cbn [trail]. rewrite Ha. lia.
  - exists (Z.of_nat (trail e)), v1, r1, x. rewrite bool_decide_false by done. split_and!; done.
Qed.

(** ** The loops *)
Section Loops.
Variables (target : bytes) (nslabs rb skip : Z).
Hypotheses (Hrb : 0 <= rb) (Hskip : 16 <= skip) (Hend : rb + 16 * nslabs < 2 ^ 32).
#[local] Set Default Proof Using "All".

Abbreviation lines := (list (bytes * bytes)).
Definition lines_64 (L : lines) : Prop := Forall (fun l => zlen l.1 = 64 /\ zlen l.2 = 64) L.
(** Slabs before [i] are done; [L] are the others, with what the reference has there. *)
Definition at_slab (i : Z) (tp refr : bytes) (L : lines) : Prop :=
  target = tp ++ concat L.*1 /\ refr = tp ++ concat L.*2 /\ zlen tp = 64 * i /\ nslabs = i + zlen L /\ 0 <= i /\ lines_64 L.

Lemma at_slab_next i tp refr v r L : at_slab i tp refr ((v, r) :: L) ->
  zlen v = 64 /\ zlen r = 64 /\ target = tp ++ v ++ concat L.*1 /\ refr = tp ++ r ++ concat L.*2 /\ zlen tp = 64 * i /\
  (i <? nslabs) = true /\ i < nslabs /\ at_slab (i + 1) (tp ++ v) (tp ++ v ++ concat L.*2) L.
Proof.
  intros (Ht & Hr & Hz & Hn & Hi & HL). apply Forall_cons in HL as [[Hv Hr64] HL]. cbn [fst snd] in *. rewrite zlen_cons in Hn.
  pose proof (zlen_nonneg L). split_and!; try done; try lia. unfold at_slab. rewrite zlen_app, <- !app_assoc. split_and!; try done; lia.
Qed.
Lemma at_slab_end i tp refr : at_slab i tp refr [] -> (i <? nslabs) = false /\ i = nslabs /\ refr = target.
Proof. intros (Ht & Hr & _ & Hn & _). rewrite zlen_nil in Hn. cbn in *. rewrite Ht, Hr. split_and!; try done; lia. Qed.

Lemma scan_ok L : forall fuel i tp rf0 P rest d0, at_slab i tp rf0 L -> (length L < fuel)%nat ->
  64 * zlen L <= zlen rest -> 0 <= d0 -> d0 + 16 < 2 ^ 32 ->
  (Forall (fun l => l.1 = l.2) L /\
   scan target nslabs rb fuel (MkAvx (P ++ rest) (zlen P) rf0 d0 i) = Ok (0, 0, MkAvx (P ++ rest) (zlen P) rf0 d0 nslabs)) \/
  exists L1 v r L2 tp' rest', L = L1 ++ (v, r) :: L2 /\ Forall (fun l => l.1 = l.2) L1 /\ zlen v = 64 /\ zlen r = 64 /\
    at_slab (i + zlen L1 + 1) tp' (tp' ++ concat L2.*2) L2 /\ zlen rest' = zlen rest - 64 /\
    scan target nslabs rb fuel (MkAvx (P ++ rest) (zlen P) rf0 d0 i)
    = Ok (rb + 16 * (i + zlen L1), 0, MkAvx (P ++ v ++ rest') (zlen P) (tp' ++ concat L2.*2) (d0 + 16) (i + zlen L1 + 1)).
Proof.
  induction L as [|[v r] L IH]; intros fuel i tp rf0 P rest d0 HA Hf Hsp Hdc Hdc2; (destruct fuel as [|fuel]; [cbn in Hf; lia|]);
    cbn [scan buf pos refr slab dc].
  { left. split; [constructor|]. destruct (at_slab_end _ _ _ HA) as (-> & -> & _). done. }
  destruct (at_slab_next _ _ _ _ _ _ HA) as (Hv & Hr & Ht & HR & Hz & -> & Hi & HA').
  rewrite zlen_cons in Hsp. pose proof (zlen_nonneg L). destruct HA as (_ & _ & _ & _ & Hi0 & _). rewrite <- Hz.
  destruct (load_slab tp v (concat L.*1) Hv) as [Lt1 Lt2]. destruct (load_slab tp r (concat L.*2) Hr) as [Lr1 Lr2].
  rewrite <- Ht in Lt1, Lt2. rewrite <- HR in Lr1, Lr2. rewrite Lt1, Lt2, Lr1, Lr2. cbn [mbind res_bind]. rewrite first_slab by done.
  case_decide as E.
  - destruct (IH fuel (i + 1) (tp ++ v) rf0 P rest d0) as [[Hs Es]|(L1 & v' & r' & L2 & tp' & rest' & -> & HL1 & ? & ? & HA2 & ? & Es)].
    { rewrite HR, <- E. exact HA'. }
    { cbn in Hf. lia. } { lia. } { done. } { done. }
    + left. split; [by constructor|exact Es].
    + right. exists ((v, r) :: L1), v', r', L2, tp', rest'. rewrite zlen_cons. replace (i + (1 + zlen L1)) with (i + 1 + zlen L1) by lia.
      split_and!; try done. by constructor.
  - right. exists [], v, r, L, (tp ++ v). rewrite zlen_nil, Z.add_0_r.
    destruct (store_first_0 P rest v rf0 d0 i Hv ltac:(lia)) as (rest' & Eb & Hrest). exists rest'.
    pose proof (store_slab tp r (concat L.*2) v Hr Hv) as Es. rewrite <- HR in Es.
    destruct (store rf0 (zlen tp) (take 32 v)) as [rf| |]; cbn [mbind res_bind] in Es |- *; [|done..]. rewrite Es. cbn [mbind res_bind].
    rewrite Eb. cbn [mbind res_bind]. rewrite !chk_in by (unfold uN, wrap; rewrite ?Z.mod_small by lia; lia). cbn [mbind res_bind].
    unfold wrap. rewrite !Z.mod_small by lia. rewrite !chk_in by (unfold uN; lia). cbn [mbind res_bind].
    rewrite !chk_in by (unfold uN; lia). cbn [mbind res_bind]. rewrite <- !app_assoc. split_and!; try done.
    rewrite Z.sub_0_r. replace (16 * i + 0 + rb) with (rb + 16 * i) by lia. done.
Qed.

(** Copying a segment: [D] is its data up to the last double word that differs and replaces [R];
    [X] is the rest, which is the same in both. *)
Lemma produce_ok L : forall fuel i tp rf0 P D R X rest d0 idc tu, at_slab i tp rf0 L -> (length L < fuel)%nat ->
  64 * zlen L <= zlen rest -> zlen X = 4 * tu -> 0 <= tu <= skip -> 4 * (d0 - idc) = zlen D + zlen X ->
  0 <= idc -> idc + zlen D + zlen X + zlen rest < 2 ^ 34 -> zlen R = zlen D -> zlen D mod 4 = 0 -> 0 < zlen D ->
  exists L1 L2 D' R' X' rest' tp' tu', L = L1 ++ L2 /\
    produce target nslabs skip fuel idc tu (MkAvx (P ++ D ++ X ++ rest) (zlen P) rf0 d0 i)
    = Ok (tu', MkAvx (P ++ D' ++ X' ++ rest') (zlen P) (tp' ++ concat L2.*2) (d0 + 16 * zlen L1) (i + zlen L1)) /\
    at_slab (i + zlen L1) tp' (tp' ++ concat L2.*2) L2 /\ D ++ X ++ concat L1.*1 = D' ++ X' /\
    R ++ X ++ concat L1.*2 = R' ++ X' /\ zlen R' = zlen D' /\ zlen D' mod 4 = 0 /\ 0 < zlen D' /\ zlen X' = 4 * tu' /\ 0 <= tu' /\
    zlen rest' = zlen rest - 64 * zlen L1 /\ (L2 = [] \/ 64 < zlen X').
Proof.
  induction L as [|[v r] L IH]; intros fuel i tp rf0 P D R X rest d0 idc tu HA Hf Hsp HX Htu Hd Hidc Hb HR Hm HD;
    (destruct fuel as [|fuel]; [cbn in Hf; lia|]); cbn [produce buf pos refr slab dc].
  { exists [], [], D, R, X, rest, tp, tu. destruct (at_slab_end _ _ _ HA) as (-> & _ & _). pose proof HA as (_ & -> & _).
    cbn [fmap list_fmap concat] in *.
    change (zlen (@nil (bytes * bytes))) with 0 in *. rewrite !Z.add_0_r, !app_nil_r in *. split_and!; try done; try lia; by left. }
  destruct (at_slab_next _ _ _ _ _ _ HA) as (Hv & Hr & Ht & HRf & Hz & -> & Hi & HA').
  rewrite zlen_cons in Hsp. pose proof (zlen_nonneg L). rewrite <- Hz.
  destruct (load_slab tp v (concat L.*1) Hv) as [Lt1 Lt2]. destruct (load_slab tp r (concat L.*2) Hr) as [Lr1 Lr2].
  rewrite <- Ht in Lt1, Lt2. rewrite <- HRf in Lr1, Lr2. rewrite Lt1, Lt2, Lr1, Lr2. cbn [mbind res_bind].
  destruct (next_slab v r Hv Hr) as (tc & v1 & r1 & x & -> & Ev & Er & Hx & Hl & H4 & Hsame & Hdiff). cbn beta iota.
  assert (Htc : 0 <= tc <= 16) by (pose proof (zlen_nonneg v1); pose proof (zlen_nonneg x); rewrite Ev, zlen_app in Hv; lia).
  (* the data written so far and the slab *)
  destruct (append_slab (P ++ D ++ X) rest v Hv ltac:(lia)) as (rest1 & Eb & Hrest1).
  rewrite <- !app_assoc in Eb. assert (HP : zlen (P ++ D ++ X) = zlen P + 4 * (d0 - idc)) by zlia. rewrite HP in Eb.
  set (tu1 := tu * (if decide (v = r) then 1 else 0) + tc).
  assert (Htu1 : (v = r -> tu1 = tu + 16) /\ (v <> r -> tu1 = tc)) 
    by (unfold tu1; split; intros Hq; [rewrite decide_True by done; rewrite (Hsame Hq); lia|rewrite decide_False by done; lia]).
  clearbody tu1.
  assert (Hstep : exists D1 R1 X1, D ++ X ++ v = D1 ++ X1 /\ R ++ X ++ r = R1 ++ X1 /\ zlen R1 = zlen D1 /\ zlen D1 mod 4 = 0 /\
    0 < zlen D1 /\ zlen X1 = 4 * tu1).
  { destruct (decide (v = r)) as [E|E].
    - pose proof (proj1 Htu1 E). exists D, R, (X ++ v). rewrite <- E. split_and!; try done. rewrite zlen_app. lia.
    - pose proof (proj2 Htu1 E). specialize (Hdiff E). exists (D ++ X ++ v1), (R ++ X ++ r1), x. rewrite Ev, Er, <- !app_assoc, !zlen_app, HX.
      split_and!; try done; try lia. Z.div_mod_to_equations; lia. }
  destruct Hstep as (D1 & R1 & X1 & ED & ER & HR1 & Hm1 & HD1 & HX1).
  assert (HzD : zlen D1 + zlen X1 = zlen D + zlen X + 64) by (rewrite <- zlen_app, <- ED, !zlen_app; lia).
  assert (Hbuf : P ++ D ++ X ++ v ++ rest1 = P ++ D1 ++ X1 ++ rest1).
  { rewrite (app_assoc X v), (app_assoc D), ED, <- app_assoc. done. }
  assert (Hu : 0 <= tu1 < 2 ^ 34).
  { destruct (decide (v = r)) as [E|E]; [pose proof (proj1 Htu1 E)|pose proof (proj2 Htu1 E)]; zlen_pos; lia. }
  rewrite (chk_in 64 tu1) by (unfold uN; lia). cbn [mbind res_bind].
  destruct (store (P ++ D ++ X ++ rest) _ _) as [b| |]; cbn [mbind res_bind] in Eb |- *; [|done..].
  rewrite Eb. cbn [mbind res_bind]. rewrite chk_in by (unfold uN; lia). cbn [mbind res_bind].
  destruct (Z.ltb_spec skip tu1) as [Hgt|Hle].
  - (* the gap is long enough *)
    assert (E : v = r) by (destruct (decide (v = r)) as [|E]; [done|pose proof (proj2 Htu1 E); lia]).
    exists [(v, r)], L, D1, R1, X1, rest1, (tp ++ v), tu1. cbn [fmap list_fmap concat fst snd]. rewrite !app_nil_r.
    rewrite zlen_cons, zlen_nil, Z.add_0_r, Z.mul_1_r. rewrite Hbuf. replace (rf0) with (tp ++ v ++ concat L.*2) by (by rewrite HRf, E).
    rewrite <- app_assoc. split_and!; try done; lia.
  - pose proof (store_slab tp r (concat L.*2) v Hr Hv) as Es. rewrite <- HRf in Es.
    destruct (store rf0 (zlen tp) (take 32 v)) as [rf| |]; cbn [mbind res_bind] in Es |- *; [|done..]. rewrite Es. cbn [mbind res_bind].
    rewrite Hbuf.
    destruct (IH fuel (i + 1) (tp ++ v) (tp ++ v ++ concat L.*2) P D1 R1 X1 rest1 (d0 + 16) idc tu1 HA' ltac:(cbn in Hf; lia) ltac:(lia)
      HX1 ltac:(lia) ltac:(lia) Hidc ltac:(lia) HR1 Hm1 HD1)
      as (L1 & L2 & D' & R' & X' & rest' & tp' & tu' & -> & -> & HA2 & E1 & E2 & ? & ? & ? & ? & ? & Hrest' & Hend').
    exists ((v, r) :: L1), L2, D', R', X', rest', tp', tu'. rewrite zlen_cons. cbn [fmap list_fmap concat fst snd].
    replace (i + (1 + zlen L1)) with (i + 1 + zlen L1) by lia.
    replace (d0 + 16 * (1 + zlen L1)) with (d0 + 16 + 16 * zlen L1) by lia.
    rewrite (app_assoc X v), (app_assoc D), ED, <- app_assoc, E1.
    rewrite (app_assoc X r), (app_assoc R), ER, <- app_assoc, E2. split_and!; try done; lia.
Qed.

Lemma same_lines L : Forall (fun l : bytes * bytes => l.1 = l.2) L -> concat L.*1 = concat L.*2.
Proof. induction 1 as [|[v r] L E _ IH]; [done|]. cbn in *. by rewrite E, IH. Qed.
Lemma lines_length L : lines_64 L -> zlen (concat L.*1) = 64 * zlen L /\ zlen (concat L.*2) = 64 * zlen L.
Proof. induction 1 as [|[v r] L [] _ IH]; [done|]. cbn [fmap list_fmap concat fst snd] in *. rewrite zlen_cons, !zlen_app. lia. Qed.
Lemma header_written (out c Q a b : bytes) : zlen c = 8 -> zlen a = 4 -> zlen b = 4 ->
  (x ← set_range (out ++ c ++ Q) (zlen out) (zlen out + 4) a; set_range x (zlen out + 4) (zlen out + 8) b) = Ok (out ++ a ++ b ++ Q).
Proof.
  intros Hc Ha Hb. rewrite <- (take_drop 4 c).
  assert (H1 : zlen (take 4 c) = 4) by (unfold zlen in *; rewrite length_take; lia).
  assert (H2 : zlen (drop 4 c) = 4) by (unfold zlen in *; rewrite length_drop; lia).
  rewrite <- !app_assoc, set_range_ok by zlia. cbn [mbind res_bind]. rewrite splice_mid by lia.
  rewrite set_range_ok by zlia. rewrite (app_assoc out a), splice_mid by zlia. by rewrite <- app_assoc.
Qed.

Definition segments_post (r : res Avx) (L : lines) (i : Z) (out rest : bytes) : Prop :=
  exists s segs junk, r = Ok s /\ buf s = out ++ encode_segs segs ++ junk /\ zlen (encode_segs segs ++ junk) = zlen rest /\
    4 * dc s = zlen out + zlen (encode_segs segs) /\ refr s = target /\ patch (rb + 16 * i) (concat L.*2) segs (concat L.*1) /\
    zlen (encode_segs segs) <= 64 * zlen L + 8 /\ (L = [] -> segs = []).

Lemma segments_nil fuel i tp rf0 out rest d0 : at_slab i tp rf0 [] -> 4 * d0 = zlen out ->
  segments_post (segments target nslabs rb skip (S fuel) (MkAvx (out ++ rest) (zlen out) rf0 d0 i)) [] i out rest.
Proof.
  intros HA Hd. destruct (at_slab_end _ _ _ HA) as (Ei & -> & Er). cbn [segments slab]. rewrite Ei. eexists _, [], rest.
  split; [done|]. cbn [buf dc refr encode_segs map concat app fmap list_fmap]. split_and!; try done; try constructor.
  unfold zlen in *. cbn [length]. lia.
Qed.
(** A turn of the outer loop that finds no difference is the last. *)
Lemma segments_same fuel L i tp rf0 out rest d0 : at_slab i tp rf0 L -> Forall (fun l => l.1 = l.2) L -> 0 < zlen L ->
  64 * zlen L + 8 <= zlen rest -> 4 * d0 = zlen out -> zlen out + zlen rest < 2 ^ 32 ->
  scan target nslabs rb (S (Z.to_nat nslabs)) (MkAvx (out ++ rest) (zlen out + 8) rf0 (d0 + 2) i)
  = Ok (0, 0, MkAvx (out ++ rest) (zlen out + 8) rf0 (d0 + 2) nslabs) ->
  segments_post (segments target nslabs rb skip (S fuel) (MkAvx (out ++ rest) (zlen out) rf0 d0 i)) L i out rest.
Proof.
  intros HA Hs HL Hsp Hd Hb Es. pose proof HA as (HT & HR & _ & Hns & Hi & H64). zlen_pos.
  cbn [segments buf pos refr slab dc]. replace (i <? nslabs) with true by lia. rewrite assert_true by zlia. cbn [mbind res_bind].
  rewrite chk_in by (unfold uN; lia). cbn [mbind res_bind]. rewrite Es. cbn [mbind res_bind].
  cbn [produce slab buf pos refr dc]. rewrite Z.ltb_irrefl. cbn [mbind res_bind slab dc]. rewrite Z.leb_refl, Z.eqb_refl. cbn [andb].
  rewrite chk_in by (unfold uN; lia). cbn [mbind res_bind buf pos refr]. eexists _, [], rest. split; [done|].
  cbn [buf dc refr encode_segs map concat app]. split_and!; try done; try (unfold zlen in *; cbn [length]; lia).
  - by rewrite HR, HT, (same_lines L Hs).
  - rewrite (same_lines L Hs), <- (app_nil_r (concat L.*2)). apply patch_same; [|constructor]. destruct (lines_length L H64) as [_ ->].
    replace 64 with (16 * 4) by lia. rewrite <- Z.mul_assoc, (Z.mul_comm 4), Z.mul_assoc. apply Z_mod_mult.
Qed.
(** A turn that finds one emits a segment and goes on after it. *)
Lemma segments_found fuel L1 v r L2 i tp rf0 tp' out c rest2 d0 :
  at_slab i tp rf0 (L1 ++ (v, r) :: L2) -> at_slab (i + zlen L1 + 1) tp' (tp' ++ concat L2.*2) L2 -> zlen v = 64 -> zlen r = 64 ->
  zlen c = 8 -> 64 * zlen L2 <= zlen rest2 -> 4 * d0 = zlen out -> zlen out + 8 + 64 + zlen rest2 < 2 ^ 32 ->
  forall rest, zlen rest = 8 + 64 + zlen rest2 ->
  scan target nslabs rb (S (Z.to_nat nslabs)) (MkAvx (out ++ rest) (zlen out + 8) rf0 (d0 + 2) i)
  = Ok (rb + 16 * (i + zlen L1), 0, MkAvx (out ++ c ++ v ++ rest2) (zlen out + 8) (tp' ++ concat L2.*2) (d0 + 2 + 16) (i + zlen L1 + 1)) ->
  let start := rb + 16 * (i + zlen L1) in
  exists L3 L4 D R X rest3 tp2, L2 = L3 ++ L4 /\
    segments target nslabs rb skip (S fuel) (MkAvx (out ++ rest) (zlen out) rf0 d0 i) =
    segments target nslabs rb skip fuel (MkAvx ((out ++ encode_seg (start, D)) ++ X ++ rest3) (zlen (out ++ encode_seg (start, D)))
      (tp2 ++ concat L4.*2) (d0 + 2 + zlen D / 4) (i + zlen L1 + 1 + zlen L3)) /\
    at_slab (i + zlen L1 + 1 + zlen L3) tp2 (tp2 ++ concat L4.*2) L4 /\ v ++ concat L3.*1 = D ++ X /\ r ++ concat L3.*2 = R ++ X /\
    zlen R = zlen D /\ zlen D mod 4 = 0 /\ 0 < zlen D /\ zlen rest3 = zlen rest2 - 64 * zlen L3 /\ (L4 = [] \/ 64 < zlen X).
Proof.
  intros HA HA2 Hv Hr Hc Hsp Hd Hb rest Hrest Es start. pose proof HA as (_ & _ & _ & Hns & Hi & H64).
  rewrite zlen_app, zlen_cons in Hns. zlen_pos. pose proof (zlen_nonneg L1). pose proof (zlen_nonneg L2).
  apply Forall_app in H64 as [_ H64]. apply Forall_cons in H64 as [_ H64].
  destruct (produce_ok L2 (S (Z.to_nat nslabs)) (i + zlen L1 + 1) tp' (tp' ++ concat L2.*2) (out ++ c) v r [] rest2 (d0 + 2 + 16) (d0 + 2) 0 HA2)
    as (L3 & L4 & D & R & X & rest3 & tp2 & tu & -> & E & HA4 & ED & ER & HRD & Hm4 & HD & HX & Htu & Hr3 & Hgap);
    [unfold zlen in Hns; lia|lia|done|lia|rewrite zlen_nil; lia|lia|rewrite zlen_nil; lia|lia|by rewrite Hv|lia|].
  exists L3, L4, D, R, X, rest3, tp2. split; [done|]. cbn [app] in E, ED, ER. apply Forall_app in H64 as [H643 _].
  destruct (lines_length L3 H643) as [HL31 _]. rewrite (zlen_app L3 L4) in *. rewrite zlen_app in *. pose proof (zlen_nonneg L3). pose proof (zlen_nonneg L4).
  assert (HDX : zlen D + zlen X = 64 + 64 * zlen L3) by (rewrite <- zlen_app, <- ED, zlen_app; lia).
  split; [|split_and!; done]. cbn [segments buf pos refr slab dc]. replace (i <? nslabs) with true by lia.
  rewrite assert_true by zlia. cbn [mbind res_bind]. rewrite chk_in by (unfold uN; lia). cbn [mbind res_bind]. rewrite Es.
  cbn [mbind res_bind]. replace (zlen out + 8) with (zlen out + zlen c) by lia. rewrite <- !app_assoc in E. rewrite E.
  cbn [mbind res_bind slab dc buf pos refr]. clear E Es.
  replace ((nslabs <=? i + zlen L1 + 1 + zlen L3) && (d0 + 2 + 16 + 16 * zlen L3 =? d0 + 2)) with false by lia.
  unfold wrap. rewrite (Z.mod_small tu), (Z.mod_small (i + zlen L1 + 1 + zlen L3)) by lia.
  do 4 (rewrite chk_in by (unfold uN; lia); cbn [mbind res_bind]). replace (zlen out + zlen c) with (zlen out + 8) by lia. fold start.
  replace (16 * (i + zlen L1 + 1 + zlen L3) - tu + rb) with (start + zlen D / 4) by (unfold start; Z.div_mod_to_equations; lia).
  pose proof (header_written out c (D ++ X ++ rest3) (to_le 4 start) (to_le 4 (start + zlen D / 4)) Hc eq_refl eq_refl) as Eh.
  destruct (set_range (out ++ c ++ D ++ X ++ rest3) _ _ _) as [b| |]; cbn [mbind res_bind] in Eh |- *; [|done..].
  rewrite Eh. cbn [mbind res_bind].
  rewrite (chk_in 64 (d0 + _ + _ + _ - tu)) by (unfold uN; lia). cbn [mbind res_bind].
  replace (4 * (start + zlen D / 4 - start)) with (zlen D) by (Z.div_mod_to_equations; lia).
  rewrite chk_in by (unfold uN; lia). cbn [mbind res_bind]. rewrite assert_true by zlia. cbn [mbind res_bind].
  rewrite encode_seg_len. unfold encode_seg. cbn [fst snd]. rewrite <- !app_assoc. do 2 f_equal; Z.div_mod_to_equations; lia.
Qed.

Lemma segments_ok n : forall L fuel i tp rf0 out rest d0, (length L <= n)%nat -> at_slab i tp rf0 L -> (n < fuel)%nat ->
  L = [] \/ 64 * zlen L + 8 <= zlen rest -> 4 * d0 = zlen out -> zlen out + zlen rest < 2 ^ 32 ->
  segments_post (segments target nslabs rb skip fuel (MkAvx (out ++ rest) (zlen out) rf0 d0 i)) L i out rest.
Proof.
  induction n as [|n IH]; intros L fuel i tp rf0 out rest d0 Hn HA Hf Hsp Hd Hb; (destruct fuel as [|fuel]; [lia|]);
    (destruct (decide (L = [])) as [->|HL]; [by apply (segments_nil _ _ tp)|]);
    [destruct L; [done|cbn in Hn; lia]|].
  destruct Hsp as [|Hsp]; [done|]. pose proof HA as (_ & _ & _ & Hns & Hi & H64).
  assert (HLpos : 0 < zlen L) by (destruct L as [|l L']; [done|rewrite zlen_cons; pose proof (zlen_nonneg L'); lia]).
  set (c := take 8 rest). set (rest1 := drop 8 rest).
  assert (Hc : zlen c = 8) by (unfold c, zlen in *; rewrite length_take; lia).
  assert (Hr1 : zlen rest1 = zlen rest - 8) by (unfold rest1, zlen in *; rewrite length_drop; lia).
  assert (Erest : (out ++ c) ++ rest1 = out ++ rest) by (unfold c, rest1; by rewrite <- app_assoc, take_drop).
  assert (Hp : zlen (out ++ c) = zlen out + 8) by zlia. pose proof (zlen_nonneg out).
  destruct (scan_ok L (S (Z.to_nat nslabs)) i tp rf0 (out ++ c) rest1 (d0 + 2) HA ltac:(unfold zlen in Hns; lia) ltac:(lia) ltac:(lia) ltac:(lia))
    as [[Hs Es]|(L1 & v & r & L2 & tp' & rest2 & -> & HL1 & Hv & Hr & HA2 & Hr2 & Es)]; rewrite Erest, Hp in Es.
  { by apply (segments_same _ _ _ tp). }
  rewrite <- app_assoc in Es. apply Forall_app in H64 as [H641 _]. destruct (lines_length L1 H641) as [Hl1 _].
  rewrite (zlen_app L1), zlen_cons in *. pose proof (zlen_nonneg L1). pose proof (zlen_nonneg L2).
  destruct (segments_found fuel L1 v r L2 i tp rf0 tp' out c rest2 d0 HA HA2 Hv Hr Hc ltac:(lia) Hd ltac:(lia) rest ltac:(lia) Es)
    as (L3 & L4 & D & R & X & rest3 & tp2 & -> & -> & HA4 & ED & ER & HRD & Hm4 & HD & Hr3 & Hgap). clear Es.
  set (start := rb + 16 * (i + zlen L1)). set (out' := out ++ encode_seg (start, D)).
  rewrite (zlen_app L3) in *. pose proof (zlen_nonneg L3). pose proof (zlen_nonneg L4). pose proof (zlen_nonneg X).
  assert (Ho : zlen out' = zlen out + 8 + zlen D) by (unfold out'; rewrite zlen_app, encode_seg_len; cbn [snd]; lia).
  assert (HDX : zlen D + zlen X = 64 + 64 * zlen L3).
  { destruct HA2 as (_ & _ & _ & _ & _ & H64). apply Forall_app in H64 as [H64 _]. destruct (lines_length L3 H64) as [HL3 _].
    rewrite <- zlen_app, <- ED, zlen_app. lia. }
  destruct (IH L4 fuel (i + zlen L1 + 1 + zlen L3) tp2 (tp2 ++ concat L4.*2) out' (X ++ rest3) (d0 + 2 + zlen D / 4))
    as (s & segs & junk & -> & Eb & Hj & Hdc & Hrf & Hpatch & Hbound & Hnil); [|done|lia| | |rewrite zlen_app; lia|].
  { rewrite !length_app in Hn. cbn [length] in Hn. rewrite length_app in Hn. lia. }
  { destruct Hgap as [->|Hgap]; [by left|right]. rewrite zlen_app. lia. }
  { rewrite Ho. Z.div_mod_to_equations; lia. }
  exists s, ((start, D) :: segs), junk. rewrite encode_segs_cons, <- !app_assoc, !zlen_app, encode_seg_len. cbn [snd].
  rewrite !zlen_app in Hj. rewrite ?(zlen_app L1), ?zlen_cons, ?(zlen_app L3). split_and!; try done; try lia.
  - rewrite Eb. unfold out'. by rewrite <- app_assoc.
  - rewrite !fmap_app, !concat_app. cbn [fmap list_fmap concat fst snd]. rewrite (same_lines L1 HL1), !fmap_app, !concat_app.
    rewrite (app_assoc r), ER, (app_assoc v), ED, <- !app_assoc. apply patch_same.
    { rewrite <- (same_lines L1 HL1), Hl1. replace 64 with (16 * 4) by lia. rewrite <- Z.mul_assoc, (Z.mul_comm 4), Z.mul_assoc. apply Z_mod_mult. }
    rewrite <- (same_lines L1 HL1), Hl1. replace (rb + 16 * i + 64 * zlen L1 / 4) with start by (unfold start; Z.div_mod_to_equations; lia).
    apply patch_seg; [done..|]. apply patch_same; [Z.div_mod_to_equations; lia|].
    replace (start + zlen D / 4 + zlen X / 4) with (rb + 16 * (i + zlen L1 + 1 + zlen L3)); [done|]. unfold start. Z.div_mod_to_equations; lia.
  - destruct Hgap as [E4|Hgap]; [|lia]. rewrite (Hnil E4). change (zlen (encode_segs [])) with 0. lia.
Qed.
End Loops.

(** The routine makes a diff with the same meaning as the portable one. *)
Lemma avx2_diff_ok (diff target reference : bytes) (base skip : Z) :
  zlen target = zlen reference -> zlen target mod 64 = 0 -> base mod 4 = 0 -> 0 <= base ->
  16 <= skip -> zlen target + 8 <= zlen diff -> zlen diff < 2 ^ 32 - 1 -> base + zlen target < 2 ^ 34 ->
  exists segs junk,
    construct_diff_segment_two_avx2 diff target reference base skip
      = Ok (zlen (encode_segs segs), encode_segs segs ++ junk, target) /\
    zlen (encode_segs segs ++ junk) = zlen diff /\ zlen (encode_segs segs) <= zlen target + 8 /\
    patch (base / 4) reference segs target.
Proof.
  intros H1 H2 Hb4 Hb Hs Hd Hd32 Hp. zlen_pos.
  destruct (local_init_lines _ _ H1 H2) as (Hwf & HT & HR & Hn). set (L := local_lines _) in *.
  assert (HL64 : lines_64 L) by (by apply local_lines_64).
  assert (E64 : zlen target / 64 = zlen L) by (Z.div_mod_to_equations; lia).
  assert (HA : at_slab target (zlen target / 64) 0 [] reference L).
  { unfold at_slab. rewrite HT, HR, E64, zlen_nil. split_and!; try done; lia. }
  destruct (segments_ok target (zlen target / 64) (base / 4) skip ltac:(Z.div_mod_to_equations; lia) Hs ltac:(Z.div_mod_to_equations; lia)
    (length L) L (S (Z.to_nat (zlen target / 64))) 0 [] reference [] diff 0 ltac:(lia) HA ltac:(rewrite E64; unfold zlen; lia)
    ltac:(right; lia) eq_refl ltac:(rewrite zlen_nil; lia)) as (s & segs & junk & E & Eb & Hj & Hdc & Hrf & Hpatch & Hbound & _).
  rewrite HT, HR, Z.mul_0_r, Z.add_0_r in Hpatch. rewrite zlen_nil in Hdc, E. cbn [app] in E, Eb. exists segs, junk.
  unfold construct_diff_segment_two_avx2, u32_max. rewrite !assert_true by (Z.div_mod_to_equations; lia). cbn [mbind res_bind].
  rewrite E. cbn [mbind res_bind]. rewrite zlen_app in Hj. zlen_pos. rewrite chk_in by (unfold uN; lia). cbn [mbind res_bind].
  unfold wrap. rewrite Z.mod_small by lia. rewrite Z.mul_comm, Hdc, Eb, Hrf. split_and!; try done; [by rewrite zlen_app|lia].
Qed.

(** ** The choice *)

(** What [is_x86_feature_detected!] answers for AVX2, LZCNT and BMI1. *)
Class Cpu := { has_avx2 : bool }.
Definition construct_diff_segment_two `{Cpu} (diff target reference : bytes) (reference_base skip_gap_len : Z) :
  res (Z * bytes * bytes) :=
  if has_avx2 then construct_diff_segment_two_avx2 diff target reference reference_base skip_gap_len
  else Construct.construct_diff_segment_two_portable diff target reference reference_base skip_gap_len.

Lemma diff_two_ok `{Cpu} (diff target reference : bytes) (base skip : Z) :
  zlen target = zlen reference -> zlen target mod 64 = 0 -> base mod 4 = 0 -> 0 <= base ->
  16 <= skip -> zlen target + 8 <= zlen diff -> zlen diff < 2 ^ 32 - 1 -> base + zlen target < 2 ^ 34 ->
  exists segs junk,
    construct_diff_segment_two diff target reference base skip
      = Ok (zlen (encode_segs segs), encode_segs segs ++ junk, target) /\
    zlen (encode_segs segs ++ junk) = zlen diff /\ zlen (encode_segs segs) <= zlen target + 8 /\
    patch (base / 4) reference segs target.
Proof.
  intros. unfold construct_diff_segment_two. destruct has_avx2; [by apply avx2_diff_ok|]. apply local_diff_ok; done || lia.
Qed.

(** C30: the AVX2 routine can stand in for the portable one: on the same buffers neither panics or
    writes outside its buffer, both leave the reference equal to the target, and applying the diff of
    either to the old reference gives the target. *)
Theorem avx2_equivalent (diff target reference : bytes) (base skip : Z) :
  zlen target = zlen reference -> zlen target mod 64 = 0 -> base mod 4 = 0 -> 0 <= base ->
  16 <= skip -> zlen target + 8 <= zlen diff -> zlen diff < 2 ^ 32 - 1 -> base + zlen target < 2 ^ 34 ->
  exists n buf n' buf',
    construct_diff_segment_two_avx2 diff target reference base skip = Ok (n, buf, target) /\
    Construct.construct_diff_segment_two_portable diff target reference base skip = Ok (n', buf', target) /\
    zlen buf = zlen diff /\ zlen buf' = zlen diff /\ 0 <= n <= zlen target + 8 /\ 0 <= n' <= zlen target + 8 /\
    Apply.apply_diff_one (take (Z.to_nat n) buf) 0 base reference = Ok target /\
    Apply.apply_diff_one (take (Z.to_nat n') buf') 0 base reference = Ok target.
Proof.
  intros H1 H2 Hb4 Hb Hs Hd Hd32 Hp.
  destruct (avx2_diff_ok diff target reference base skip) as (segs & junk & E & Hl & Hn & Hpatch); try done.
  destruct (local_diff_ok diff target reference base skip) as (segs' & junk' & E' & Hl' & Hn' & Hpatch'); try done; [lia|].
  pose proof (zlen_nonneg (encode_segs segs)). pose proof (zlen_nonneg (encode_segs segs')).
  exists (zlen (encode_segs segs)), (encode_segs segs ++ junk), (zlen (encode_segs segs')), (encode_segs segs' ++ junk').
  split_and!; try done; apply patch_diff_applies; done || lia.
Qed.

Lemma avx2_equivalent_witness :
  let target := replicate 64 Byte.x01 ++ replicate 64 Byte.x02 in
  exists n buf n' buf',
    construct_diff_segment_two_avx2 (replicate 136 Byte.x00) target (replicate 128 Byte.x01) 64 16 = Ok (n, buf, target) /\
    Construct.construct_diff_segment_two_portable (replicate 136 Byte.x00) target (replicate 128 Byte.x01) 64 16 = Ok (n', buf', target) /\
    zlen buf = 136 /\ zlen buf' = 136 /\ 0 <= n <= 136 /\ 0 <= n' <= 136 /\
    Apply.apply_diff_one (take (Z.to_nat n) buf) 0 64 (replicate 128 Byte.x01) = Ok target /\
    Apply.apply_diff_one (take (Z.to_nat n') buf') 0 64 (replicate 128 Byte.x01) = Ok target.
Proof.
  intros target. apply (avx2_equivalent (replicate 136 Byte.x00) target (replicate 128 Byte.x01) 64 16); vm_compute; congruence.
Defined.
