(* ===== verification/Damage.v ===== *)
(** * [src/damage.rs]: merging damage rectangles into byte intervals

    [compute_damaged_segments] projects the rectangles of a surface buffer to aligned byte
    intervals separated by at least [min_gap]; [union_damage] merges two such lists. The heap
    and the unstable sort of the Rust standard library are modelled by what they promise: the
    heap pops its greatest element, the sort returns some ordered permutation. *)
From Stdlib Require Import ZArith Lia Sorting.Permutation Sorting.Sorted.
From stdpp Require Import sorting sets.
From S2P Require Import Prelude.
Local Open Scope Z_scope.

Record Rect := MkRect { x1 : Z; x2 : Z; y1 : Z; y2 : Z }.
Abbreviation interval := (Z * Z)%type.

(** ** Geometry *)
Definition bounding_interval (r : Rect) (offset stride bpp : Z) : interval :=
  let corner y x := sat 64 (sat 64 (offset + sat 64 (y * stride)) + sat 64 (x * bpp)) in
  (corner (y1 r) (x1 r), corner (y2 r) (x2 r)).

Definition align_down (x align_bits : Z) : res Z :=
  assert_ (align_bits <? 64);;
  Ok (Z.shiftl (Z.shiftr x align_bits) align_bits).

(** [x.checked_next_multiple_of(m)] *)
Definition checked_next_multiple_of (x m : Z) : option Z :=
  if x mod m =? 0 then Some x else checked 64 (x + (m - x mod m)).
Definition align_up (x align_bits : Z) : res Z :=
  assert_ (align_bits <? 64);;
  unwrap (checked_next_multiple_of x (Z.shiftl 1 align_bits)).

Definition aligned_bounding_interval (r : Rect) (offset stride bpp align_bits : Z) :
  res interval :=
  let x := bounding_interval r offset stride bpp in
  a ← align_down x.1 align_bits;
  b ← align_up x.2 align_bits;
  Ok (a, b).

(** [offset + y * stride + x * bpp] in [usize] *)
Definition byte_pos (offset stride bpp y x : Z) : res Z :=
  ys ← usize (y * stride);
  a ← usize (offset + ys);
  xs ← usize (x * bpp);
  usize (a + xs).

(** ** [BinaryHeap<(Reverse<usize>, usize)>]: pop the least position, then the greatest index *)
Abbreviation heap := (list (Z * nat)).
Definition heap_before (a b : Z * nat) : bool :=
  (a.1 <? b.1) || ((a.1 =? b.1) && (b.2 <? a.2)%nat).
Fixpoint heap_pop (h : heap) : option (Z * nat * heap) :=
  match h with
  | [] => None
  | x :: h =>
      match heap_pop h with
      | None => Some (x, [])
      | Some (y, rest) => if heap_before x y then Some (x, y :: rest) else Some (y, x :: rest)
      end
  end.

Section Group.
Context (rects : list Rect) (bound : interval) (align_bits min_gap offset stride bpp : Z).

Definition row_start (r : Rect) (row : Z) : res Z :=
  p ← byte_pos offset stride bpp row (x1 r); align_down p align_bits.
Definition row_end (r : Rect) (row : Z) : res Z :=
  p ← byte_pos offset stride bpp row (x2 r); align_up p align_bits.

(** The loop that fills the heap: the heap and the row counters, in the order of [rects]. *)
Fixpoint init_heap (i : nat) (l : list Rect) : res (heap * list Z) :=
  match l with
  | [] => Ok ([], [])
  | r :: l =>
      w ← u32 (x2 r - x1 r);
      wb ← usize (w * bpp);
      let counter := if Z.max 0 (stride - min_gap) <? wb then usize_max else 0 in
      start_pos ← row_start r (y1 r);
      rest ← init_heap (S i) l;
      Ok ((start_pos, i) :: rest.1, counter :: rest.2)
  end.

Record gstate := MkG {
  rect_heap : heap; row_counters : list Z; cur : option interval; output : list interval;
  work_estimate : Z }.

(** Merge the segment into the current one, or emit the current one. *)
Definition add_segment (cur : option interval) (output : list interval) (start end_ : Z) :
  res (interval * list interval) :=
  match cur with
  | None => Ok ((start, end_), output)
  | Some cv =>
      if start <=? cv.2 then Ok ((cv.1, Z.max cv.2 end_), output)
      else
        gap ← usize (start - cv.2);
        if gap <? min_gap then Ok ((cv.1, Z.max cv.2 end_), output)
        else Ok ((start, end_), output ++ [cv])
  end.

(** The end of the popped segment: of all rows when they merge, of one row otherwise. *)
Definition segment_end (rect : Rect) (c : Z) : res Z :=
  if c =? usize_max
  then last_row ← u32 (y2 rect - 1); row_end rect last_row
  else row ← usize (y1 rect + c); row_end rect row.

(** Update the row counter and return the rectangle to the heap if it is not done. *)
Definition requeue (rect : Rect) (c : Z) (i : nat) (rest : heap) (counters : list Z) :
  res (heap * list Z) :=
  if c =? usize_max then Ok (rest, counters) else
  c' ← usize (c + 1);
  rows ← u32 (y2 rect - y1 rect);
  let counters := <[i := c']> counters in
  if c' <? rows then
    row ← usize (y1 rect + c');
    start_pos ← row_start rect row;
    Ok ((start_pos, i) :: rest, counters)
  else Ok (rest, counters).

(** The body of the [while let] loop, after the pop. *)
Definition group_step (start : Z) (i : nat) (rest : heap) (s : gstate) :
  res (list interval + gstate) :=
  rect ← unwrap (rects !! i);
  c ← unwrap (row_counters s !! i);
  end_ ← segment_end rect c;
  co ← add_segment (cur s) (output s) start end_;
  hr ← requeue rect c i rest (row_counters s);
  work ← usize (work_estimate s + Z.log2 (Z.max 16 (zlen hr.1)));
  blen ← usize (bound.2 - bound.1);
  if blen / 8 <? work then Ok (inl (co.2 ++ [(co.1.1, bound.2)]))
  else Ok (inr (MkG hr.1 hr.2 (Some co.1) co.2 work)).

Fixpoint group_loop (fuel : nat) (s : gstate) : res (list interval) :=
  match fuel with
  | O => Panic
  | S fuel =>
      match heap_pop (rect_heap s) with
      | None => Ok (match cur s with Some cv => output s ++ [cv] | None => output s end)
      | Some (start, i, rest) =>
          r ← group_step start i rest s;
          match r with
          | inl out => Ok out
          | inr s => group_loop fuel s
          end
      end
  end.

(** Each iteration processes one row of one rectangle. *)
Definition total_rows : nat :=
  foldr (fun r n => Nat.add (Z.to_nat (y2 r - y1 r)) n) O rects.
Definition process_group (output : list interval) : res (list interval) :=
  hc ← init_heap 0 rects;
  group_loop (S total_rows) (MkG hc.1 hc.2 None output 0).
End Group.

(** ** [compute_damaged_segments] *)

(** [slice::sort_unstable_by_key]: some ordered permutation. *)
Class SortUnstable := {
  sort_unstable_by_key {A} (key : A -> Z) (l : list A) : list A;
  sort_unstable_perm {A} (key : A -> Z) (l : list A) : Permutation (sort_unstable_by_key key l) l;
  sort_unstable_sorted {A} (key : A -> Z) (l : list A) :
    StronglySorted (fun a b => key a <= key b) (sort_unstable_by_key key l);
}.

Record Group := MkGroup { i_start : Z; i_end : Z; region : interval }.

Section Compute.
Context `{SortUnstable} (align_bits min_gap offset stride bpp : Z).

(** The grouping loop over the rectangles after the first, [i] being the next index. *)
Fixpoint group_rects (i : Z) (l : list Rect) (current : Group) (spans : list Group) :
  res (list Group) :=
  match l with
  | [] => Ok (spans ++ [current])
  | rect :: l =>
      b ← aligned_bounding_interval rect offset stride bpp align_bits;
      let merged := MkGroup (i_start current) (i + 1)
                      ((region current).1, Z.max (region current).2 b.2) in
      if b.1 <=? (region current).2 then group_rects (i + 1) l merged spans
      else
        gap ← usize (b.1 - (region current).2);
        if gap <? min_gap then group_rects (i + 1) l merged spans
        else group_rects (i + 1) l (MkGroup i (i + 1) b) (spans ++ [current])
  end.

Definition process_span (rects : list Rect) (output : list interval) (g : Group) :
  res (list interval) :=
  slice ← get_range rects (i_start g) (i_end g);
  process_group slice (region g) align_bits min_gap offset stride bpp output.

Definition compute_damaged_segments (rects : list Rect) : res (list interval) :=
  match rects with
  | [] => Ok []
  | _ =>
      assert_ (0 <? bpp);;
      assert_ (forallb (fun r => (x1 r <? x2 r) && (y1 r <? y2 r)) rects);;
      let rects := sort_unstable_by_key
                     (fun r => (bounding_interval r offset stride bpp).1) rects in
      first ← index rects 0;
      b ← aligned_bounding_interval first offset stride bpp align_bits;
      spans ← group_rects 1 (drop 1 rects) (MkGroup 0 1 b) [];
      foldM (process_span rects) [] spans
  end.
End Compute.

(** ** [validate_output] *)
Fixpoint validate_each (align_bits : Z) (a : list interval) : res unit :=
  match a with
  | [] => Ok tt
  | (x, y) :: a =>
      if y <=? x then Err "negative or empty interval" else
      assert_ (align_bits <? 64);;
      let mask := Z.shiftl 1 align_bits - 1 in
      if negb (Z.land x mask =? 0) || negb (Z.land y mask =? 0) then Err "misaligned" else
      validate_each align_bits a
  end.
Fixpoint validate_gaps (min_gap : Z) (prev : interval) (a : list interval) : res unit :=
  match a with
  | [] => Ok tt
  | x :: a =>
      if x.1 <? prev.2 then Err "overlapping" else
      limit ← usize (prev.2 + min_gap);
      if x.1 <? limit then Err "min gap too small" else
      validate_gaps min_gap x a
  end.
Definition validate_output (a : list interval) (align_bits min_gap : Z) : res unit :=
  validate_each align_bits a;;
  match a with
  | [] => Ok tt
  | x :: a => validate_gaps min_gap x a
  end.

(** ** [union_damage] *)

(** The loop: [last] is the interval being extended. Each step takes one interval of [a] or [b]. *)
Definition union_next (nxt : interval) (min_gap : Z) (last : option interval)
    (output : list interval) : res (option interval * list interval) :=
  match last with
  | None => Ok (Some nxt, output)
  | Some y =>
      if nxt.1 <=? y.2 then Ok (Some (y.1, Z.max y.2 nxt.2), output)
      else
        gap ← usize (nxt.1 - y.2);
        if gap <? min_gap then Ok (Some (y.1, Z.max y.2 nxt.2), output)
        else Ok (Some nxt, output ++ [y])
  end.
(** The interval with the earliest start of [a] and [b], and what is left. *)
Definition union_take (a b : list interval) :
  option (interval * list interval * list interval) :=
  match a, b with
  | ea :: a', eb :: b' => if ea.1 <=? eb.1 then Some (ea, a', b) else Some (eb, a, b')
  | ea :: a', [] => Some (ea, a', [])
  | [], eb :: b' => Some (eb, [], b')
  | [], [] => None
  end.
Fixpoint union_loop (fuel : nat) (a b : list interval) (min_gap : Z) (last : option interval)
    (output : list interval) : res (list interval) :=
  match fuel with
  | O => Panic
  | S fuel =>
      match union_take a b with
      | None => Ok (match last with Some e => output ++ [e] | None => output end)
      | Some (nxt, a, b) =>
          r ← union_next nxt min_gap last output;
          union_loop fuel a b min_gap r.1 r.2
      end
  end.
Definition union_damage (a b : list interval) (min_gap : Z) : res (list interval) :=
  (* [is_ok()] discards the message; a panic in the validation propagates *)
  assert_ (ok_b (validate_output a 0 min_gap));;
  assert_ (ok_b (validate_output b 0 min_gap));;
  union_loop (S (length a + length b)) a b min_gap None [].

(** ** What a list of intervals should be *)
Definition apart (g : Z) (x y : interval) : Prop := x.2 + g <= y.1.
Definition aligned (k : Z) (x : interval) : Prop := x.1 mod 2 ^ k = 0 /\ x.2 mod 2 ^ k = 0.
(** Non-empty aligned intervals in order, at least [g] apart. *)
Definition well_formed (k g : Z) (l : list interval) : Prop :=
  Forall (fun x => x.1 < x.2 /\ aligned k x) l /\ StronglySorted (apart g) l.
Definition covers (l : list interval) (p q : Z) : Prop :=
  exists x, x ∈ l /\ x.1 <= p /\ q <= x.2.

Lemma StronglySorted_snoc {A} (R : A -> A -> Prop) l x :
  StronglySorted R l -> (forall y, y ∈ l -> R y x) -> StronglySorted R (l ++ [x]).
Proof.
  intros Hs Hx. induction Hs as [|y l Hs IH Hy]; cbn; [repeat constructor|].
  constructor; [apply IH; set_solver|]. apply Forall_app; split; [done|].
  constructor; [apply Hx; set_solver|constructor].
Qed.
Lemma StronglySorted_app_iff {A} (R : A -> A -> Prop) l1 l2 :
  StronglySorted R (l1 ++ l2) <->
  StronglySorted R l1 /\ StronglySorted R l2 /\ (forall x y, x ∈ l1 -> y ∈ l2 -> R x y).
Proof.
  induction l1 as [|z l1 IH]; cbn.
  - split; [|naive_solver]. intros; split_and!; [constructor|done|set_solver].
  - split.
    + intros Hs. apply StronglySorted_inv in Hs as [Hs Hz]. apply IH in Hs as (H1&H2&H3).
      apply Forall_app in Hz as [Hz1 Hz2]. rewrite Forall_forall in Hz2. split_and!; try done.
      * by constructor.
      * intros x y [->|Hx]%elem_of_cons Hy; [by apply Hz2|by apply H3].
    + intros (H1&H2&H3). apply StronglySorted_inv in H1 as [H1 Hz]. constructor.
      * apply IH. split_and!; try done. set_solver.
      * apply Forall_app; split; [done|]. apply Forall_forall. set_solver.
Qed.

Lemma well_formed_app k g l1 l2 :
  well_formed k g l1 -> well_formed k g l2 -> (forall x y, x ∈ l1 -> y ∈ l2 -> apart g x y) ->
  well_formed k g (l1 ++ l2).
Proof.
  intros [] [] ?. split; [by apply Forall_app|]. by apply StronglySorted_app_iff.
Qed.

(** ** [validate_output] decides well-formedness *)
Lemma land_mask x k : 0 <= k -> Z.land x (Z.shiftl 1 k - 1) = x mod 2 ^ k.
Proof.
  intros. rewrite Z.shiftl_1_l. replace (2 ^ k - 1) with (Z.ones k).
  - by apply Z.land_ones.
  - rewrite Z.ones_equiv. lia.
Qed.
Lemma validate_each_ok k l :
  0 <= k < 64 ->
  validate_each k l = Ok tt <-> Forall (fun x => x.1 < x.2 /\ aligned k x) l.
Proof.
  intros Hk. induction l as [|[x y] l IH]; cbn [validate_each]; [naive_solver|].
  rewrite Forall_cons. unfold aligned at 1; cbn [fst snd].
  destruct (Z.leb_spec y x); [split; [done|lia]|].
  replace (k <? 64) with true by lia. cbn [assert_ mbind res_bind].
  rewrite !land_mask by lia.
  destruct (Z.eqb_spec (x mod 2 ^ k) 0), (Z.eqb_spec (y mod 2 ^ k) 0); cbn;
    rewrite ?IH; naive_solver.
Qed.
Lemma validate_gaps_ok g k : forall l prev,
  0 <= g -> Forall (fun x => x.1 < x.2 /\ aligned k x) (prev :: l) ->
  Forall (fun x => uN 64 (x.2 + g)) (prev :: l) ->
  validate_gaps g prev l = Ok tt <-> StronglySorted (apart g) (prev :: l).
Proof.
  intros l. induction l as [|x l IH]; intros prev Hg Hf Hb; cbn [validate_gaps].
  { split; [intros _; repeat constructor|done]. }
  apply Forall_cons in Hf as [Hp Hf], Hb as [Hbp Hb].
  pose proof Hf as [[Hx _] _]%Forall_cons. destruct Hp as [Hp _].
  specialize (IH x Hg Hf Hb).
  rewrite chk_in by done. cbn [mbind res_bind].
  assert (Hss : StronglySorted (apart g) (prev :: x :: l) <->
    apart g prev x /\ StronglySorted (apart g) (x :: l)).
  { split.
    - intros [Hs Hc]%StronglySorted_inv. by apply Forall_cons in Hc as [? _].
    - intros [Ha Hs]. constructor; [done|]. pose proof Hs as [_ Hx']%StronglySorted_inv.
      constructor; [done|]. eapply Forall_impl; [exact Hx'|]. unfold apart in *.
      intros z Hz. lia. }
  rewrite Hss. unfold apart at 1. destruct (Z.ltb_spec x.1 prev.2); [split; [done|lia]|].
  destruct (Z.ltb_spec x.1 (prev.2 + g)); [split; [done|lia]|]. rewrite IH. naive_solver lia.
Qed.

(** [validate_output] accepts exactly the lists of non-empty aligned intervals in order
    with gaps of at least [min_gap]. *)
Lemma validate_output_spec (l : list interval) (k g : Z) :
  0 <= k < 64 -> 0 <= g -> Forall (fun x => uN 64 (x.2 + g)) l ->
  validate_output l k g = Ok tt <-> well_formed k g l.
Proof.
  intros Hk Hg Hb. unfold validate_output, well_formed.
  pose proof (validate_each_ok k l Hk) as He.
  destruct (validate_each k l) as [[]| |] eqn:E; cbn [mbind res_bind];
    [|split; [done|intros [?%He _]; done]..].
  destruct l as [|x l].
  - split; [intros _; split; constructor|done].
  - rewrite (validate_gaps_ok g k) by (done || by apply He). naive_solver.
Qed.
(** ** Merging segments that arrive in order of their start *)

(** Every point of the interval [z] lies in a merged segment, or in a gap shorter than [g]
    between the end of one merged segment and the start of another. *)
Definition tight (g : Z) (S : list interval) (z : interval) : Prop :=
  forall p, z.1 <= p < z.2 ->
    (exists x, x ∈ S /\ x.1 <= p < x.2) \/
    (exists x y, x ∈ S /\ y ∈ S /\ x.2 <= p < y.1 /\ y.1 - x.2 < g).
Definition from_ends (S : list interval) (z : interval) : Prop :=
  (exists x, x ∈ S /\ z.1 = x.1) /\ (exists x, x ∈ S /\ z.2 = x.2).

Definition opt_list {A} (o : option A) : list A := match o with Some a => [a] | None => [] end.

(** The accumulator after merging the segments [S]. *)
Record acc_ok (k g : Z) (S : list interval) (cur : option interval) (out : list interval) :
  Prop := {
  acc_wf : well_formed k g (out ++ opt_list cur);
  acc_covers x : x ∈ S -> covers (out ++ opt_list cur) x.1 x.2;
  acc_tight z : z ∈ out ++ opt_list cur -> tight g S z /\ from_ends S z;
  acc_none : cur = None -> out = [] /\ S = [];
}.

Lemma tight_mono g S S' z : (forall x, x ∈ S -> x ∈ S') -> tight g S z -> tight g S' z.
Proof. intros HS Ht p Hp. destruct (Ht p Hp) as [(x&?&?)|(x&y&?&?&?&?)]; [left|right]; eauto 10. Qed.
Lemma from_ends_mono S S' z : (forall x, x ∈ S -> x ∈ S') -> from_ends S z -> from_ends S' z.
Proof. intros HS [(x&?&?) (y&?&?)]. split; eauto. Qed.
Lemma covers_mono l l' p q : (forall x, x ∈ l -> x ∈ l') -> covers l p q -> covers l' p q.
Proof. intros Hl (x&?&?&?). exists x; eauto. Qed.

Lemma acc_init k g : acc_ok k g [] None [].
Proof. split; cbn; try set_solver; try done. split; constructor. Qed.

(** A list whose last interval is extended to a later aligned end. *)
Lemma well_formed_extend k g out a b b' :
  well_formed k g (out ++ [(a, b)]) -> b <= b' -> b' mod 2 ^ k = 0 ->
  well_formed k g (out ++ [(a, b')]).
Proof.
  intros [Hf Hs] Hb Hk. apply Forall_app in Hf as [Hf Ha]. apply Forall_cons in Ha as [[? []] _].
  apply StronglySorted_app_iff in Hs as (Hs&_&Hx). cbn in *. split.
  - apply Forall_app; split; [done|]. repeat constructor; cbn; lia.
  - apply StronglySorted_snoc; [done|]. intros y Hy. by apply (Hx y (a, b)); [|left].
Qed.
Lemma covers_extend out a b b' p q :
  covers (out ++ [(a, b)]) p q -> b <= b' -> covers (out ++ [(a, b')]) p q.
Proof.
  intros (x&[Hx|Hx%list_elem_of_singleton]%elem_of_app&?&?) ?.
  - exists x. set_solver.
  - subst x. exists (a, b'). cbn in *. split; [set_solver|lia].
Qed.

Section Merge.
Context (k g : Z) (S : list interval) (out : list interval) (s e : Z).
Context (Hse : s < e) (Hal : aligned k (s, e)) (Hg : 0 <= g).
#[local] Set Default Proof Using "All".

Lemma acc_first : acc_ok k g S None out -> acc_ok k g (S ++ [(s, e)]) (Some (s, e)) out.
Proof.
  intros [_ _ _ Hn]. destruct (Hn eq_refl) as [-> ->]. cbn. split; try done; cbn.
  - split; repeat constructor; cbn; try done; apply Hal.
  - intros x ->%list_elem_of_singleton. exists (s, e). cbn. set_solver by lia.
  - intros z ->%list_elem_of_singleton. split; [intros p Hp; left|split]; exists (s, e); set_solver.
Qed.

Lemma acc_extend cv :
  acc_ok k g S (Some cv) out -> cv.1 <= s -> s - cv.2 < g \/ s <= cv.2 ->
  acc_ok k g (S ++ [(s, e)]) (Some (cv.1, Z.max cv.2 e)) out.
Proof.
  destruct cv as [a b]. intros [Hwf Hc Ht _] Ha Hgap. cbn [opt_list fst snd] in *.
  assert (Hb : b mod 2 ^ k = 0).
  { destruct Hwf as [Hf _]. apply Forall_app in Hf as [_ Hf].
    by apply Forall_cons in Hf as [[_ [_ ?]] _]. }
  split; try done; cbn [opt_list].
  - eapply well_formed_extend; [done|lia|]. by destruct (Z.max_spec b e) as [[_ ->]|[_ ->]]; [apply Hal|].
  - intros x [Hx| ->%list_elem_of_singleton]%elem_of_app.
    + eapply covers_extend; [by apply Hc|lia].
    + exists (a, Z.max b e). split; [set_solver|]. cbn. lia.
  - intros z [Hz| ->%list_elem_of_singleton]%elem_of_app.
    + destruct (Ht z) as [H1 H2]; [set_solver|].
      split; [eapply tight_mono; [|done]|eapply from_ends_mono; [|done]]; set_solver.
    + destruct (Ht (a, b)) as [H1 [(x&Hx&Ex) (y&Hy&Ey)]]; [set_solver|]. cbn in Ex, Ey. split.
      * intros p Hp; cbn in Hp. destruct (Z.lt_ge_cases p b) as [Hpb|Hpb].
        { assert (Hin : tight g (S ++ [(s, e)]) (a, b)) by (eapply tight_mono; [|done]; set_solver).
          apply Hin; cbn; lia. }
        destruct (Z.lt_ge_cases p s) as [Hps|Hps].
        { right. exists y, (s, e). cbn. split_and!; [set_solver..|lia|lia|lia]. }
        left. exists (s, e). cbn. split; [set_solver|lia].
      * split; [exists x; set_solver|]. cbn. destruct (Z.max_spec b e) as [[_ ->]|[_ ->]].
        { exists (s, e). set_solver. } { exists y. set_solver. }
Qed.

Lemma acc_emit cv :
  acc_ok k g S (Some cv) out -> cv.1 <= s -> cv.2 + g <= s ->
  acc_ok k g (S ++ [(s, e)]) (Some (s, e)) (out ++ [cv]).
Proof.
  intros [Hwf Hc Ht _] Ha Hgap. cbn [opt_list] in *. split; try done; cbn [opt_list].
  - apply well_formed_app; [done|split; repeat constructor; cbn; try done; apply Hal|].
    intros x y Hx ->%list_elem_of_singleton. unfold apart; cbn.
    apply elem_of_app in Hx as [Hx| ->%list_elem_of_singleton]; [|lia].
    destruct Hwf as [Hf Hs]. apply StronglySorted_app_iff in Hs as (_&_&Hs).
    assert (apart g x cv) as Hxc by (apply Hs; [done|set_solver]). unfold apart in Hxc.
    rewrite Forall_forall in Hf. destruct (Hf cv) as [? _]; [set_solver|]. lia.
  - intros x [Hx| ->%list_elem_of_singleton]%elem_of_app.
    + eapply covers_mono; [|by apply Hc]. set_solver.
    + exists (s, e). set_solver by lia.
  - intros z [Hz| ->%list_elem_of_singleton]%elem_of_app.
    + destruct (Ht z Hz) as [H1 H2].
      split; [eapply tight_mono; [|done]|eapply from_ends_mono; [|done]]; set_solver.
    + split; [intros p Hp; left|split]; exists (s, e); set_solver.
Qed.

Lemma add_segment_ok cur :
  acc_ok k g S cur out -> (forall cv, cur = Some cv -> cv.1 <= s /\ 0 <= cv.2) -> uN 64 s ->
  exists cv out', add_segment g cur out s e = Ok (cv, out') /\
    acc_ok k g (S ++ [(s, e)]) (Some cv) out' /\ cv.1 <= s /\ e <= cv.2.
Proof.
  intros Hacc Hcv Hs. destruct cur as [cv|]; cbn [add_segment].
  - destruct (Hcv cv eq_refl). unfold uN in *. destruct (Z.leb_spec s cv.2).
    { eexists _, _; split; [done|]. split; [by apply acc_extend; auto|]. cbn. lia. }
    rewrite chk_in by (unfold uN; lia). cbn [mbind res_bind].
    destruct (Z.ltb_spec (s - cv.2) g).
    { eexists _, _; split; [done|]. split; [by apply acc_extend; auto|]. cbn. lia. }
    eexists _, _; split; [done|]. split; [apply acc_emit; auto; lia|]. cbn. lia.
  - eexists _, _; split; [done|]. split; [by apply acc_first|]. cbn. lia.
Qed.
End Merge.

(** ** [union_damage] *)
Definition starts_sorted (l : list interval) : Prop := StronglySorted (fun x y => x.1 <= y.1) l.

Lemma union_take_spec a b :
  starts_sorted a -> starts_sorted b ->
  match union_take a b with
  | None => a = [] /\ b = []
  | Some (n, a', b') => Permutation (a ++ b) (n :: a' ++ b') /\
      (forall x, x ∈ a' ++ b' -> n.1 <= x.1) /\ starts_sorted a' /\ starts_sorted b'
  end.
Proof.
  intros Ha Hb. destruct a as [|x a], b as [|y b]; cbn; try done.
  - apply StronglySorted_inv in Hb as [? Hy]. rewrite Forall_forall in Hy.
    split_and!; try done; constructor.
  - apply StronglySorted_inv in Ha as [? Hx]. rewrite Forall_forall in Hx.
    rewrite !app_nil_r. split_and!; try done; constructor.
  - pose proof Ha as [? Hx]%StronglySorted_inv. pose proof Hb as [? Hy]%StronglySorted_inv.
    rewrite Forall_forall in Hx, Hy.
    destruct (Z.leb_spec x.1 y.1); split_and!; try done.
    + intros z [Hz|[->|Hz]%elem_of_cons]%elem_of_app; [auto|done|]. specialize (Hy z Hz). lia.
    + symmetry. apply (Permutation_middle (x :: a) b y).
    + intros z [->|[Hz|Hz]%elem_of_app]%elem_of_cons; [lia| |auto]. specialize (Hx z Hz). lia.
Qed.

Lemma union_next_add nxt g last out :
  union_next nxt g last out = r ← add_segment g last out nxt.1 nxt.2; Ok (Some r.1, r.2).
Proof.
  unfold union_next, add_segment. destruct last as [y|]; [|by destruct nxt].
  case_match; [done|]. destruct (chk _ _); cbn; [|done..]. case_match; [done|by destruct nxt].
Qed.

Lemma union_loop_ok k g : 0 <= g -> forall fuel a b S last out,
  (length a + length b < fuel)%nat -> starts_sorted a -> starts_sorted b ->
  (forall x, x ∈ a ++ b -> x.1 < x.2 /\ aligned k x /\ uN 64 x.1) ->
  (forall x, x ∈ S -> 0 <= x.1) ->
  acc_ok k g S last out -> (forall cv x, last = Some cv -> x ∈ a ++ b -> cv.1 <= x.1) ->
  exists S' last' out', union_loop fuel a b g last out = Ok (out' ++ opt_list last') /\
    acc_ok k g S' last' out' /\ (forall x, x ∈ S' <-> x ∈ S \/ x ∈ a ++ b).
Proof.
  intros Hg. induction fuel as [|fuel IH]; intros a b S last out Hf Ha Hb Hab HS Hacc Hle; [lia|].
  cbn [union_loop]. pose proof (union_take_spec a b Ha Hb) as Ht.
  destruct (union_take a b) as [[[n a'] b']|].
  - destruct Ht as (Hp & Hmin & Ha' & Hb').
    assert (Hin : forall x, x ∈ a ++ b <-> x = n \/ x ∈ a' ++ b')
      by (intros x; rewrite Hp; apply elem_of_cons).
    pose proof (Permutation_length Hp) as Hlen. rewrite !length_app in Hlen; cbn in Hlen.
    rewrite length_app in Hlen.
    destruct (Hab n) as (Hn&Hal&Hu); [apply Hin; by left|]. destruct n as [s e]; cbn [fst snd] in *.
    rewrite union_next_add; cbn [fst snd].
    destruct (add_segment_ok k g S out s e Hn Hal Hg last Hacc) as (cv&out'&->&Hacc'&Hcv&_); [|done|].
    { intros cv ->. split; [apply (Hle cv (s, e)); [done|apply Hin; by left]|].
      destruct (acc_tight _ _ _ _ _ Hacc cv) as [_ [(x&Hx&Ex) _]]; [set_solver|].
      pose proof (acc_wf _ _ _ _ _ Hacc) as [Hwf _]. rewrite Forall_forall in Hwf.
      destruct (Hwf cv) as [? _]; [set_solver|]. specialize (HS x Hx). lia. }
    cbn [mbind res_bind fst snd].
    destruct (IH a' b' (S ++ [(s, e)]) (Some cv) out') as (S'&l'&o'&E&HA&HS'); try done.
    + lia.
    + intros x Hx. apply Hab, Hin. by right.
    + intros x [Hx| ->%list_elem_of_singleton]%elem_of_app; [by apply HS|unfold uN in Hu; cbn; lia].
    + intros cv' x [= <-] Hx. specialize (Hmin x Hx). cbn in Hmin. lia.
    + exists S', l', o'. split; [done|]. split; [done|]. intros x.
      rewrite HS', Hin, elem_of_app, list_elem_of_singleton. tauto.
  - destruct Ht as [-> ->]. exists S, last, out. split; [|split; [done|]].
    + destruct last; cbn; by rewrite ?app_nil_r.
    + intros x. cbn. set_solver.
Qed.

Lemma well_formed_starts k g l : 0 <= g -> well_formed k g l -> starts_sorted l.
Proof.
  intros Hg [Hf Hs]. unfold starts_sorted. induction Hs as [|x l Hs IH Hx]; constructor.
  - apply IH. by apply Forall_cons in Hf as [_ Hf].
  - apply Forall_cons in Hf as [[? _] _]. eapply Forall_impl; [exact Hx|].
    unfold apart. cbn. lia.
Qed.

(** The gap check does not overflow on a valid list: the sum is a later start. *)
Lemma validate_gaps_wf k g : 0 <= g -> forall l prev, well_formed k g (prev :: l) ->
  Forall (fun x => uN 64 x.1) (prev :: l) -> validate_gaps g prev l = Ok tt.
Proof.
  intros Hg l. induction l as [|x l IH]; intros prev [Hf Hs] Hu; cbn [validate_gaps]; [done|].
  apply Forall_cons in Hf as [[Hp _] Hf], Hu as [Hup Hu].
  apply StronglySorted_inv in Hs as [Hs [Hx _]%Forall_cons]. pose proof Hu as [Hux _]%Forall_cons.
  unfold apart, uN in *. rewrite (proj2 (Z.ltb_ge _ _)) by lia. mok.
  rewrite (proj2 (Z.ltb_ge _ _)) by lia. by apply IH.
Qed.
Lemma validate_output_wf k g l : 0 <= g -> well_formed k g l -> Forall (fun x => uN 64 x.1) l ->
  validate_output l 0 g = Ok tt.
Proof.
  intros Hg Hwf Hu. unfold validate_output.
  rewrite (proj2 (validate_each_ok 0 l ltac:(lia))).
  - cbn [mbind res_bind]. destruct l; [done|]. by apply (validate_gaps_wf k).
  - eapply Forall_impl; [apply Hwf|]. intros x [? _]. split; [done|]. split; apply Z.mod_1_r.
Qed.

Lemma union_damage_ok (a b : list interval) (k g : Z) :
  0 <= k -> 0 <= g -> well_formed k g a -> well_formed k g b ->
  Forall (fun x => uN 64 x.1) (a ++ b) ->
  exists out, union_damage a b g = Ok out /\ well_formed k g out /\
    (forall x, x ∈ a ++ b -> covers out x.1 x.2) /\
    (forall z, z ∈ out -> tight g (a ++ b) z /\ from_ends (a ++ b) z).
Proof.
  intros Hk Hg Ha Hb Hu.
  pose proof Hu as [Hua Hub]%Forall_app. unfold union_damage.
  rewrite (validate_output_wf k g a), (validate_output_wf k g b) by done.
  cbn [ok_b assert_ mbind res_bind].
  destruct (union_loop_ok k g Hg (S (length a + length b)) a b [] None []) as (S'&l'&o'&->&[? Hc Ht _]&HS');
    try done; eauto using well_formed_starts, acc_init; [|set_solver|].
  - rewrite Forall_forall in Hu. intros x Hx. specialize (Hu x Hx). destruct Ha as [Ha _], Hb as [Hb _].
    rewrite Forall_forall in Ha, Hb. apply elem_of_app in Hx as [Hx|Hx];
      [destruct (Ha x Hx)|destruct (Hb x Hx)]; by split_and!.
  - exists (o' ++ opt_list l'). split_and!; try done.
    + intros x Hx. apply Hc, HS'. by right.
    + intros z Hz. destruct (Ht z Hz).
      split; [eapply tight_mono; [|done]|eapply from_ends_mono; [|done]]; set_solver.
Qed.

(** [union_damage] of two valid interval lists returns, without panicking, a valid list with
    the same alignment and minimum gap that covers every interval of both and nothing else but
    gaps shorter than [min_gap] between them. *)
Theorem union_damage_correct (a b : list interval) (k g : Z) :
  0 <= k -> 0 <= g -> well_formed k g a -> well_formed k g b ->
  Forall (fun x => uN 64 x.1) (a ++ b) ->
  exists out, union_damage a b g = Ok out /\ well_formed k g out /\
    (forall x, x ∈ a ++ b -> covers out x.1 x.2) /\
    (forall z, z ∈ out -> tight g (a ++ b) z /\ from_ends (a ++ b) z).
Proof. apply union_damage_ok. Qed.

Lemma union_damage_correct_witness :
  exists out, union_damage [(0, 6)] [(8, 10); (14, 20)] 4 = Ok out /\ well_formed 1 4 out /\
    (forall x, x ∈ [(0, 6)] ++ [(8, 10); (14, 20)] -> covers out x.1 x.2) /\
    (forall z, z ∈ out -> tight 4 ([(0, 6)] ++ [(8, 10); (14, 20)]) z /\
                          from_ends ([(0, 6)] ++ [(8, 10); (14, 20)]) z).
Proof.
  apply (union_damage_correct [(0, 6)] [(8, 10); (14, 20)] 1 4); [lia|lia|..].
  - split; repeat constructor.
  - split; repeat constructor; cbn; unfold apart; cbn; lia.
  - repeat constructor; cbn; lia.
Defined.

(** ** Alignment *)
Definition down (k x : Z) : Z := x / 2 ^ k * 2 ^ k.
Definition up (k x : Z) : Z := div_ceil x (2 ^ k) * 2 ^ k.

Lemma align_down_ok k x : 0 <= k < 64 -> align_down x k = Ok (down k x).
Proof.
  intros. unfold align_down. rewrite assert_true by lia. cbn [mbind res_bind].
  by rewrite Z.shiftl_mul_pow2, Z.shiftr_div_pow2 by lia.
Qed.
Lemma align_up_ok k x : 0 <= k < 64 -> 0 <= x -> x + 2 ^ k <= 2 ^ 64 -> align_up x k = Ok (up k x).
Proof.
  intros Hk Hx Hb. unfold align_up. rewrite assert_true by lia. cbn [mbind res_bind].
  rewrite Z.shiftl_1_l. unfold checked_next_multiple_of, up, div_ceil.
  assert (0 < 2 ^ k) as Hpos by (apply Z.pow_pos_nonneg; lia). set (m := 2 ^ k) in *.
  assert (Hd : (x + m - 1) / m * m = if x mod m =? 0 then x else x + (m - x mod m)).
  { destruct (Z.eqb_spec (x mod m) 0) as [E|E].
    - replace ((x + m - 1) / m) with (x / m); [Z.div_mod_to_equations; lia|].
      apply Z.div_unique_pos with (m - 1); Z.div_mod_to_equations; nia.
    - replace ((x + m - 1) / m) with (x / m + 1); [Z.div_mod_to_equations; lia|].
      apply Z.div_unique_pos with (x mod m - 1); Z.div_mod_to_equations; nia. }
  rewrite Hd. destruct (x mod m =? 0) eqn:E; [done|].
  unfold checked. replace (in_U 64 _) with true; [done|].
  unfold in_U. pose proof (Z.mod_pos_bound x m Hpos). lia.
Qed.
Lemma down_spec k x : 0 <= k -> down k x <= x /\ down k x mod 2 ^ k = 0.
Proof.
  intros. assert (0 < 2 ^ k) by (apply Z.pow_pos_nonneg; lia). unfold down.
  split; [Z.div_mod_to_equations; lia|apply Z.mod_mul; lia].
Qed.
Lemma up_spec k x : 0 <= k -> x <= up k x < x + 2 ^ k /\ up k x mod 2 ^ k = 0.
Proof.
  intros. assert (0 < 2 ^ k) by (apply Z.pow_pos_nonneg; lia). unfold up, div_ceil.
  split; [Z.div_mod_to_equations; lia|apply Z.mod_mul; lia].
Qed.
Lemma down_mono k x y : 0 <= k -> x <= y -> down k x <= down k y.
Proof.
  intros. assert (0 < 2 ^ k) by (apply Z.pow_pos_nonneg; lia). unfold down.
  apply Z.mul_le_mono_nonneg_r; [lia|]. by apply Z.div_le_mono.
Qed.
Lemma up_mono k x y : 0 <= k -> x <= y -> up k x <= up k y.
Proof.
  intros. assert (0 < 2 ^ k) by (apply Z.pow_pos_nonneg; lia). unfold up, div_ceil.
  apply Z.mul_le_mono_nonneg_r; [lia|]. apply Z.div_le_mono; lia.
Qed.
Lemma down_nonneg k x : 0 <= k -> 0 <= x -> 0 <= down k x.
Proof. intros. unfold down. apply Z.mul_nonneg_nonneg; [apply Z.div_pos|]; lia. Qed.

(** ** The heap *)
Lemma heap_pop_spec h :
  match heap_pop h with
  | None => h = []
  | Some (x, rest) => Permutation h (x :: rest) /\ forall y, y ∈ rest -> x.1 <= y.1
  end.
Proof.
  induction h as [|x h IH]; cbn; [done|]. destruct (heap_pop h) as [[y rest]|].
  - destruct IH as [Hp Hm]. unfold heap_before.
    destruct (_ || _) eqn:E.
    + split; [by rewrite Hp|]. intros z [->|Hz]%elem_of_cons; [lia|]. specialize (Hm z Hz). lia.
    + split; [rewrite Hp; by constructor|]. intros z [->|Hz]%elem_of_cons; [lia|auto].
  - subst. split; [done|set_solver].
Qed.

(** ** One group of rectangles *)
Section GroupCorrect.
Context (k g offset stride bpp : Z).
Context (Hk : 0 <= k < 64) (Hg : 0 <= g).
Context (Hoff : 0 <= offset) (Hstr : 0 <= stride) (Hbpp : 0 < bpp).
#[local] Set Default Proof Using "All".

Definition pos (y x : Z) : Z := offset + y * stride + x * bpp.
(** A rectangle inside a buffer whose byte positions fit [usize] after alignment. *)
Definition rect_ok (r : Rect) : Prop :=
  0 <= x1 r < x2 r /\ x2 r < 2 ^ 32 /\ 0 <= y1 r < y2 r /\ y2 r < 2 ^ 32 /\
  pos (y2 r) (x2 r) + 2 ^ k <= 2 ^ 64.
(** The aligned interval of row [y]. *)
Definition row_lo (r : Rect) (y : Z) : Z := down k (pos y (x1 r)).
Definition row_hi (r : Rect) (y : Z) : Z := up k (pos y (x2 r)).

Lemma pos_mono y y' x x' : y <= y' -> x <= x' -> pos y x <= pos y' x'.
Proof. unfold pos. intros. nia. Qed.
Lemma pos_lt y x x' : x < x' -> pos y x < pos y x'.
Proof. unfold pos. intros. nia. Qed.
Lemma pos_nonneg y x : 0 <= y -> 0 <= x -> 0 <= pos y x.
Proof. unfold pos. intros. nia. Qed.

Lemma byte_pos_ok y x : 0 <= y -> 0 <= x -> pos y x < 2 ^ 64 ->
  byte_pos offset stride bpp y x = Ok (pos y x).
Proof.
  unfold pos, byte_pos. intros. assert (0 <= y * stride) by nia. assert (0 <= x * bpp) by nia.
  rewrite !chk_in by (unfold uN; lia). cbn [mbind res_bind].
  rewrite !chk_in by (unfold uN; lia). cbn [mbind res_bind]. rewrite ?chk_in by (unfold uN; lia).
  cbn [mbind res_bind]. rewrite ?chk_in by (unfold uN; lia). done.
Qed.
Lemma pow_k : 0 < 2 ^ k.
Proof. apply Z.pow_pos_nonneg; lia. Qed.

Lemma row_start_ok r y : rect_ok r -> y1 r <= y <= y2 r ->
  row_start k offset stride bpp r y = Ok (row_lo r y).
Proof.
  intros (?&?&?&?&Hb) Hy. pose proof pow_k. unfold row_start.
  pose proof (pos_mono y (y2 r) (x1 r) (x2 r) ltac:(lia) ltac:(lia)).
  rewrite byte_pos_ok by lia. cbn [mbind res_bind]. by rewrite align_down_ok.
Qed.
Lemma row_end_ok r y : rect_ok r -> y1 r <= y <= y2 r ->
  row_end k offset stride bpp r y = Ok (row_hi r y).
Proof.
  intros (?&?&?&?&Hb) Hy. pose proof pow_k. unfold row_end.
  pose proof (pos_mono y (y2 r) (x2 r) (x2 r) ltac:(lia) ltac:(lia)).
  pose proof (pos_nonneg y (x2 r) ltac:(lia) ltac:(lia)).
  rewrite byte_pos_ok by lia. cbn [mbind res_bind]. apply align_up_ok; lia.
Qed.
Lemma row_bounds r y : rect_ok r -> y1 r <= y <= y2 r ->
  uN 64 (row_lo r y) /\ row_lo r y < row_hi r y /\ aligned k (row_lo r y, row_hi r y).
Proof.
  intros (?&?&?&?&Hb) Hy. pose proof pow_k. unfold row_lo, row_hi.
  pose proof (pos_mono y (y2 r) (x2 r) (x2 r) ltac:(lia) ltac:(lia)).
  pose proof (pos_nonneg y (x1 r) ltac:(lia) ltac:(lia)).
  pose proof (pos_lt y (x1 r) (x2 r) ltac:(lia)).
  destruct (down_spec k (pos y (x1 r)) ltac:(lia)), (up_spec k (pos y (x2 r)) ltac:(lia)).
  pose proof (down_nonneg k (pos y (x1 r)) ltac:(lia) ltac:(lia)).
  split; [unfold uN; lia|]. split; [lia|]. by split.
Qed.
Lemma row_lo_mono r y y' : rect_ok r -> y <= y' -> row_lo r y <= row_lo r y'.
Proof. intros _ Hy. apply down_mono; [lia|]. by apply pos_mono. Qed.
Lemma row_hi_mono r y y' : rect_ok r -> y <= y' -> row_hi r y <= row_hi r y'.
Proof. intros _ Hy. apply up_mono; [lia|]. by apply pos_mono. Qed.

Section Loop.
Context (rects : list Rect) (bound : interval).
Context (Hrects : Forall rect_ok rects) (Hnum : zlen rects < 2 ^ 59).
Context (Hbound : Forall (fun r => bound.1 <= row_lo r (y1 r) /\ row_hi r (y2 r) <= bound.2) rects).
Context (Hb0 : 0 <= bound.1) (Hb64 : bound.2 < 2 ^ 64) (Hbal : bound.2 mod 2 ^ k = 0).

(** An entry of the heap stands for the rows of its rectangle that are left. *)
Definition entry_ok (counters : list Z) (e : Z * nat) : Prop :=
  exists r c, rects !! e.2 = Some r /\ counters !! e.2 = Some c /\
    ((c = usize_max /\ e.1 = row_lo r (y1 r)) \/
     (0 <= c < y2 r - y1 r /\ e.1 = row_lo r (y1 r + c))).
Definition rows_left (counters : list Z) (e : Z * nat) : nat :=
  match rects !! e.2, counters !! e.2 with
  | Some r, Some c => if c =? usize_max then 1%nat else Z.to_nat (y2 r - y1 r - c)
  | _, _ => 0%nat
  end.
Definition measure (counters : list Z) (h : heap) : nat :=
  foldr (fun e n => (rows_left counters e + n)%nat) 0%nat h.
Definition pending (counters : list Z) (h : heap) (i : nat) (y : Z) : Prop :=
  exists s c r, (s, i) ∈ h /\ counters !! i = Some c /\ rects !! i = Some r /\
    (c = usize_max \/ y1 r + c <= y).
Definition row_done (S : list interval) (r : Rect) (y : Z) : Prop :=
  exists x, x ∈ S /\ x.1 <= row_lo r y /\ row_hi r y <= x.2.

(** Invariant of the loop: [S] the segments popped so far, [out] what they were merged into. *)
Record loop_inv (S : list interval) (out : list interval) (s : gstate) : Prop := {
  li_len : length (row_counters s) = length rects;
  li_entries : Forall (entry_ok (row_counters s)) (rect_heap s);
  li_nodup : NoDup (rect_heap s).*2;
  li_rows i r y : rects !! i = Some r -> y1 r <= y < y2 r ->
    row_done S r y \/ pending (row_counters s) (rect_heap s) i y;
  li_acc : acc_ok k g S (cur s) out;
  li_seen x : x ∈ S -> bound.1 <= x.1 /\ x.2 <= bound.2;
  li_order cv e : cur s = Some cv -> e ∈ rect_heap s -> cv.1 <= e.1;
  li_work : 0 <= work_estimate s <= 2 ^ 61;
}.

Lemma measure_cons c e h : measure c (e :: h) = (rows_left c e + measure c h)%nat.
Proof. done. Qed.
Lemma measure_perm c h h' : Permutation h h' -> measure c h = measure c h'.
Proof. unfold measure. induction 1; cbn [foldr]; lia. Qed.
Lemma measure_insert c h i v :
  i ∉ h.*2 -> measure (<[i := v]> c) h = measure c h.
Proof.
  induction h as [|[s j] h IH]; [done|]. intros Hi. rewrite !measure_cons.
  cbn in Hi. rewrite IH by set_solver. f_equal. unfold rows_left; cbn.
  rewrite list_lookup_insert_ne; [done|set_solver].
Qed.
Lemma heap_length c h :
  Forall (entry_ok c) h -> NoDup h.*2 -> zlen h <= zlen rects.
Proof.
  intros He Hn. unfold zlen. rewrite <- (length_fmap snd h), <- (length_seq (length rects) 0).
  apply inj_le, submseteq_length, NoDup_submseteq; [done|].
  intros i Hi%list_elem_of_fmap. destruct Hi as ([s j] & -> & Hj). rewrite Forall_forall in He.
  destruct (He _ Hj) as (r&v&Hr&_). apply lookup_lt_Some in Hr. cbn in *. apply elem_of_seq. lia.
Qed.
Lemma entry_start s e : entry_ok s e -> bound.1 <= e.1 /\ uN 64 e.1.
Proof.
  intros (r&c&Hr&_&Hc). rewrite Forall_forall in Hrects, Hbound.
  apply list_elem_of_lookup_2 in Hr. pose proof (Hrects _ Hr) as Hok. pose proof (Hbound _ Hr) as [? _].
  pose proof Hok as (?&?&?&?&?).
  destruct Hc as [[-> ->]|[? ->]]; [split; [done|apply row_bounds; [done|lia]]|].
  split; [|apply row_bounds; [done|lia]].
  pose proof (row_lo_mono r (y1 r) (y1 r + c) Hok). lia.
Qed.

(** Facts about one entry. *)
Section Entry.
Context (counters : list Z) (start : Z) (i : nat) (r : Rect) (c : Z).
Context (Hr : rects !! i = Some r) (Hc : counters !! i = Some c).
Context (He : (c = usize_max /\ start = row_lo r (y1 r)) \/
              (0 <= c < y2 r - y1 r /\ start = row_lo r (y1 r + c))).

Lemma entry_rect : rect_ok r /\ bound.1 <= row_lo r (y1 r) /\ row_hi r (y2 r) <= bound.2.
Proof.
  rewrite Forall_forall in Hrects, Hbound. apply list_elem_of_lookup_2 in Hr.
  split; [by apply Hrects|by apply Hbound].
Qed.

Lemma segment_end_ok : exists e,
  segment_end k offset stride bpp r c = Ok e /\ start < e /\ aligned k (start, e) /\ e <= bound.2 /\
  row_lo r (y1 r) <= start /\
  (forall y, y1 r <= y < y2 r -> c = usize_max \/ y = y1 r + c -> start <= row_lo r y /\ row_hi r y <= e).
Proof.
  destruct entry_rect as (Hok & Hb1 & Hb2). pose proof Hok as (?&?&?&?&?). unfold segment_end.
  pose proof (row_hi_mono r (y2 r - 1) (y2 r) Hok ltac:(lia)).
  assert (Hal : forall y y', y1 r <= y <= y2 r -> y1 r <= y' <= y2 r -> y <= y' ->
    row_lo r y < row_hi r y' /\ aligned k (row_lo r y, row_hi r y')).
  { intros y y' Hy Hy' Hle. destruct (row_bounds r y Hok Hy) as (_&?&[]), (row_bounds r y' Hok Hy') as (_&?&[]).
    pose proof (row_hi_mono r y y' Hok Hle). split; [lia|]. by split. }
  destruct He as [[-> ->]|[Hcr ->]].
  - rewrite Z.eqb_refl, chk_in by (unfold uN; lia). cbn [mbind res_bind].
    rewrite row_end_ok by (done || lia). eexists; split; [done|].
    destruct (Hal (y1 r) (y2 r - 1)) as [? ?]; [lia..|]. split_and!; try done; [lia|].
    intros y Hy _. split; [by apply row_lo_mono; [|lia]|apply row_hi_mono; [done|lia]].
  - replace (c =? usize_max) with false by (unfold usize_max; lia).
    rewrite chk_in by (unfold uN; lia). cbn [mbind res_bind].
    rewrite row_end_ok by (done || lia). eexists; split; [done|].
    destruct (Hal (y1 r + c) (y1 r + c)) as [? ?]; [lia..|].
    pose proof (row_hi_mono r (y1 r + c) (y2 r) Hok ltac:(lia)). split_and!; try done; [lia| |].
    + apply row_lo_mono; [done|lia].
    + intros y Hy [->| ->]; [unfold usize_max in *; lia|lia].
Qed.

Lemma requeue_ok rest :
  Forall (entry_ok counters) rest -> NoDup (i :: rest.*2) -> (forall e, e ∈ rest -> start <= e.1) ->
  exists h' c',
    requeue k offset stride bpp r c i rest counters = Ok (h', c') /\ length c' = length counters /\
    Forall (entry_ok c') h' /\ NoDup h'.*2 /\ (forall e, e ∈ h' -> start <= e.1) /\
    (measure c' h' < measure counters ((start, i) :: rest))%nat /\
    (forall j y, pending counters ((start, i) :: rest) j y ->
       (forall r', rects !! j = Some r' -> y1 r' <= y < y2 r') ->
       (j = i /\ (c = usize_max \/ y = y1 r + c)) \/ pending c' h' j y).
Proof.
  intros Hrest Hnd Hmin. destruct entry_rect as (Hok & _). pose proof Hok as (?&?&?&?&?).
  apply NoDup_cons in Hnd as [Hi Hnd]. unfold requeue.
  assert (Hpend : forall j y, pending counters ((start, i) :: rest) j y -> j = i \/ pending counters rest j y).
  { intros j y (s&v&r'&[[= -> ->]|Hin]%elem_of_cons&?&?&?); [by left|]. right. by exists s, v, r'. }
  assert (Hrl : rows_left counters (start, i) =
    if c =? usize_max then 1%nat else Z.to_nat (y2 r - y1 r - c)).
  { unfold rows_left; cbn [snd]. by rewrite Hr, Hc. }
  rewrite measure_cons, Hrl.
  destruct He as [[-> ->]|[Hcr ->]].
  { rewrite Z.eqb_refl in *. exists rest, counters. split_and!; try done; [lia|].
    intros j y Hp Hy. destruct (Hpend j y Hp) as [->|]; auto. }
  replace (c =? usize_max) with false in * by (unfold usize_max; lia).
  rewrite !chk_in by (unfold uN; lia). cbn [mbind res_bind].
  rewrite chk_in by (unfold uN; lia). cbn [mbind res_bind].
  set (c' := <[i := c + 1]> counters).
  assert (Hlt : (i < length counters)%nat) by by eapply lookup_lt_Some.
  assert (Hrest' : Forall (entry_ok c') rest).
  { apply Forall_forall. intros e Hin. rewrite Forall_forall in Hrest.
    destruct (Hrest e Hin) as (r'&v&?&?&?). exists r', v. split_and!; try done.
    unfold c'. rewrite list_lookup_insert_ne; [done|]. intros ->. set_solver. }
  assert (Hm' : measure c' rest = measure counters rest) by by apply measure_insert.
  assert (Hother : forall j y, j <> i -> pending counters rest j y -> pending c' rest j y).
  { intros j y Hj (s&v&r'&?&?&?&?). exists s, v, r'. split_and!; try done.
    unfold c'. by rewrite list_lookup_insert_ne. }
  assert (Hni : forall y, ~ pending counters rest i y).
  { intros y (s&v&r'&Hin&_). apply Hi. apply list_elem_of_fmap. by exists (s, i). }
  destruct (Z.ltb_spec (c + 1) (y2 r - y1 r)).
  - rewrite ?chk_in by (unfold uN; lia). cbn [mbind res_bind].
    rewrite row_start_ok by (done || lia). cbn [mbind res_bind].
    exists ((row_lo r (y1 r + (c + 1)), i) :: rest), c'.
    assert (Hci : c' !! i = Some (c + 1)) by by apply list_lookup_insert_eq.
    split_and!; try done.
    + unfold c'. by rewrite length_insert.
    + constructor; [|done]. exists r, (c + 1). split_and!; try done. right. cbn. split; [lia|done].
    + cbn. by apply NoDup_cons.
    + intros e [->|Hin]%elem_of_cons; [|auto]. cbn. apply row_lo_mono; [done|lia].
    + rewrite measure_cons, Hm'. unfold rows_left at 1; cbn [snd].
      rewrite Hr, Hci. replace (_ =? usize_max) with false by (unfold usize_max; lia). lia.
    + intros j y Hp Hy. destruct (Hpend j y Hp) as [->|Hp'].
      * destruct (Z.eq_dec y (y1 r + c)) as [->|]; [left; auto|]. right.
        destruct Hp as (s&v&r'&_&Hv&Hr'&Hle). simplify_eq.
        eexists _, (c + 1), r. split_and!; [by left|done|done|]. right.
        destruct Hle as [->|]; [unfold usize_max in *; lia|lia].
      * destruct (decide (j = i)) as [->|Hj]; [by destruct (Hni y)|]. right.
        destruct (Hother j y Hj Hp') as (s&v&r'&?&?&?&?). exists s, v, r'. split_and!; try done. by right.
  - exists rest, c'. split_and!; try done.
    + unfold c'. by rewrite length_insert.
    + rewrite Hm'. lia.
    + intros j y Hp Hy. destruct (Hpend j y Hp) as [->|Hp'].
      * left. split; [done|]. right. destruct Hp as (s&v&r'&_&Hv&Hr'&Hle). simplify_eq.
        specialize (Hy _ Hr). destruct Hle as [->|]; [unfold usize_max in *; lia|lia].
      * destruct (decide (j = i)) as [->|Hj]; [by destruct (Hni y)|]. right. by apply Hother.
Qed.
End Entry.

(** What the group's output must be. *)
Definition group_out (new : list interval) : Prop :=
  well_formed k g new /\ (forall z, z ∈ new -> bound.1 <= z.1 /\ z.2 <= bound.2) /\
  (forall r y, r ∈ rects -> y1 r <= y < y2 r -> covers new (row_lo r y) (row_hi r y)).

Lemma acc_bounds S cur out z :
  acc_ok k g S cur out -> (forall x, x ∈ S -> bound.1 <= x.1 /\ x.2 <= bound.2) ->
  z ∈ out ++ opt_list cur -> bound.1 <= z.1 /\ z.2 <= bound.2 /\ z.1 < z.2.
Proof.
  intros Hacc HS Hz. destruct (acc_tight _ _ _ _ _ Hacc z Hz) as [_ [(x&Hx&Ex) (y&Hy&Ey)]].
  pose proof (HS x Hx). pose proof (HS y Hy). pose proof (acc_wf _ _ _ _ _ Hacc) as [Hf _].
  rewrite Forall_forall in Hf. destruct (Hf z Hz) as [? _]. split_and!; try done; lia.
Qed.

Lemma add_segment_app g' cur out0 out s e :
  add_segment g' cur (out0 ++ out) s e =
  r ← add_segment g' cur out s e; Ok (r.1, out0 ++ r.2).
Proof.
  unfold add_segment. destruct cur as [cv|]; [|done]. case_match; [done|].
  destruct (chk _ _); cbn; [|done..]. case_match; [done|]. cbn. by rewrite app_assoc.
Qed.

Lemma finish_end S out s :
  loop_inv S out s -> rect_heap s = [] -> group_out (out ++ opt_list (cur s)).
Proof.
  intros Hi Hh. pose proof (li_acc _ _ _ Hi) as Hacc. split_and!.
  - apply Hacc.
  - intros z Hz. destruct (acc_bounds _ _ _ _ Hacc (li_seen _ _ _ Hi) Hz) as (?&?&_). done.
  - intros r y [j Hj]%list_elem_of_lookup Hy. destruct (li_rows _ _ _ Hi j r y Hj Hy) as [(x&Hx&?&?)|Hp].
    + destruct (acc_covers _ _ _ _ _ Hacc x Hx) as (z&?&?&?). exists z. split_and!; [done|lia..].
    + destruct Hp as (?&?&?&Hin&_). rewrite Hh in Hin. set_solver.
Qed.

Lemma finish_early S out s cv :
  loop_inv S out s -> cur s = Some cv -> group_out (out ++ [(cv.1, bound.2)]).
Proof.
  intros Hi Hc. pose proof (li_acc _ _ _ Hi) as Hacc. rewrite Hc in Hacc.
  destruct (acc_bounds _ _ _ cv Hacc (li_seen _ _ _ Hi)) as (?&?&?); [set_solver|].
  pose proof (acc_wf _ _ _ _ _ Hacc) as Hwf. cbn [opt_list] in Hwf. destruct cv as [a b]; cbn [fst snd] in *.
  split_and!.
  - by eapply well_formed_extend.
  - intros z [Hz| ->%list_elem_of_singleton]%elem_of_app; [|cbn; lia].
    destruct (acc_bounds _ _ _ z Hacc (li_seen _ _ _ Hi)) as (?&?&_); [set_solver|]. done.
  - intros r y Hin Hy. pose proof Hin as [j Hj]%list_elem_of_lookup.
    destruct (li_rows _ _ _ Hi j r y Hj Hy) as [(x&Hx&?&?)|(s0&c&r'&Hh&Hcnt&Hr'&Hle)].
    + destruct (acc_covers _ _ _ _ _ Hacc x Hx) as (z&Hz&?&?). eapply covers_extend; [|exact H0].
      exists z. split_and!; [done|lia..].
    + assert (r' = r) as -> by congruence. exists (a, bound.2). cbn. split; [set_solver|].
      pose proof (li_order _ _ _ Hi (a, b) (s0, j) Hc Hh) as Ho; cbn in Ho.
      pose proof (li_entries _ _ _ Hi) as Hent.
      rewrite Forall_forall in Hent. rewrite Forall_forall in Hrects, Hbound.
      pose proof (Hrects r Hin) as Hok. destruct (Hbound r Hin) as [_ Hb2].
      destruct (Hent _ Hh) as (r2&c2&E1&E2&Hs); cbn in E1, E2, Hs.
      assert (r2 = r) as -> by congruence. assert (c2 = c) as -> by congruence.
      pose proof (row_hi_mono r y (y2 r) Hok ltac:(lia)). split; [|lia].
      destruct Hs as [[-> ->]|[? ->]].
      * pose proof (row_lo_mono r (y1 r) y Hok ltac:(lia)). lia.
      * destruct Hle as [->|Hle].
        { unfold usize_max in *. pose proof Hok as (?&?&?&?&?). lia. }
        pose proof (row_lo_mono r (y1 r + c) y Hok ltac:(lia)). lia.
Qed.

Lemma group_step_ok S out0 out s start i rest :
  loop_inv S out s -> output s = out0 ++ out -> heap_pop (rect_heap s) = Some (start, i, rest) ->
  exists S' out' s' cv,
    loop_inv S' out' s' /\ output s' = out0 ++ out' /\ cur s' = Some cv /\
    (measure (row_counters s') (rect_heap s') < measure (row_counters s) (rect_heap s))%nat /\
    (group_step rects bound k g offset stride bpp start i rest s = Ok (inr s') \/
     group_step rects bound k g offset stride bpp start i rest s
       = Ok (inl (out0 ++ out' ++ [(cv.1, bound.2)]))).
Proof.
  intros Hi Hout Hpop. pose proof (heap_pop_spec (rect_heap s)) as Hp. rewrite Hpop in Hp.
  destruct Hp as [Hperm Hmin]. cbn in Hmin.
  pose proof (li_entries _ _ _ Hi) as Hent. rewrite Hperm in Hent.
  apply Forall_cons in Hent as [He Hent]. pose proof He as (r&c&Hr&Hc&Hcase); cbn in Hr, Hc, Hcase.
  pose proof (li_nodup _ _ _ Hi) as Hnd. rewrite Hperm in Hnd. cbn in Hnd.
  destruct (entry_start _ _ He) as [Hs1 Hs2]; cbn in Hs1, Hs2.
  destruct (segment_end_ok (row_counters s) start i r c Hr Hc Hcase) as (e&Eend&Hse&Hal&Heb&_&Hrows).
  destruct (requeue_ok (row_counters s) start i r c Hr Hc Hcase rest Hent Hnd Hmin) as
    (h'&c'&Ereq&Elen&Hent'&Hnd'&Hmin'&Hmeas&Hpend).
  destruct (add_segment_ok k g S out start e Hse Hal Hg (cur s) (li_acc _ _ _ Hi)) as
    (cv&out'&Eadd&Hacc'&Hcv&Hcve); [|done|].
  { intros cv Hcv. split; [apply (li_order _ _ _ Hi cv (start, i) Hcv); rewrite Hperm; by left|].
    pose proof (li_acc _ _ _ Hi) as Hacc. rewrite Hcv in Hacc.
    destruct (acc_bounds _ _ _ cv Hacc (li_seen _ _ _ Hi)) as (?&?&?); [set_solver|]. lia. }
  assert (Hinv : forall w, 0 <= w <= 2 ^ 61 ->
    loop_inv (S ++ [(start, e)]) out' (MkG h' c' (Some cv) (out0 ++ out') w)).
  { intros w Hw. split; cbn; try done.
    - rewrite Elen. apply Hi.
    - intros j r' y Hj Hy. destruct (li_rows _ _ _ Hi j r' y Hj Hy) as [(x&Hx&?&?)|Hp].
      + left. exists x. set_solver.
      + assert (Hp' : pending (row_counters s) ((start, i) :: rest) j y).
        { destruct Hp as (s0&c0&r0&Hin&?). exists s0, c0, r0. by rewrite <- Hperm. }
        destruct (Hpend j y Hp') as [[-> Hc0]|]; [intros r2 Hr2; by simplify_eq| |by right].
        simplify_eq. left. exists (start, e). destruct (Hrows y Hy Hc0). set_solver.
    - intros x [Hx| ->%list_elem_of_singleton]%elem_of_app; [by apply Hi|cbn; lia].
    - intros cv' e' [= <-] Hin. specialize (Hmin' e' Hin). lia. }
  exists (S ++ [(start, e)]), out'. unfold group_step. rewrite Hr; cbn [unwrap mbind res_bind].
  rewrite Hc; cbn [unwrap mbind res_bind]. rewrite Eend; cbn [mbind res_bind].
  rewrite Hout, add_segment_app, Eadd; cbn [mbind res_bind fst snd]. rewrite Ereq; cbn [mbind res_bind fst snd].
  pose proof (heap_length _ _ Hent' Hnd') as Hhl. pose proof (li_work _ _ _ Hi) as Hw.
  pose proof (Z.log2_le_lin (Z.max 16 (zlen h')) ltac:(lia)). pose proof (Z.log2_nonneg (Z.max 16 (zlen h'))).
  rewrite !chk_in by (unfold uN; lia). cbn [mbind res_bind].
  rewrite (measure_perm _ _ _ Hperm).
  destruct (Z.ltb_spec ((bound.2 - bound.1) / 8)
    (work_estimate s + Z.log2 (Z.max 16 (zlen h')))) as [Hlt|Hge].
  - exists (MkG h' c' (Some cv) (out0 ++ out') 0), cv. split_and!; try done; [apply Hinv; lia|].
    right. by rewrite app_assoc.
  - eexists (MkG _ _ _ _ _), cv. split_and!; [|done..| |by left]; cbn; [|done].
    apply Hinv. Z.div_mod_to_equations; lia.
Qed.

Lemma group_loop_ok out0 : forall fuel S out s,
  loop_inv S out s -> output s = out0 ++ out ->
  (measure (row_counters s) (rect_heap s) < fuel)%nat ->
  exists new, group_loop rects bound k g offset stride bpp fuel s = Ok (out0 ++ new) /\ group_out new.
Proof.
  induction fuel as [|fuel IH]; intros S out s Hi Hout Hm; [lia|]. cbn [group_loop].
  destruct (heap_pop (rect_heap s)) as [[[start i] rest]|] eqn:Hpop.
  - destruct (group_step_ok S out0 out s start i rest Hi Hout Hpop) as
      (S'&out'&s'&cv&Hi'&Hout'&Hcv&Hm'&[-> | ->]); cbn [mbind res_bind].
    + apply (IH S' out'); [done|done|lia].
    + exists (out' ++ [(cv.1, bound.2)]). split; [done|]. by eapply finish_early.
  - pose proof (heap_pop_spec (rect_heap s)) as Hp. rewrite Hpop in Hp.
    exists (out ++ opt_list (cur s)). split; [|by eapply finish_end].
    rewrite Hout. destruct (cur s); cbn; by rewrite ?app_nil_r, ?app_assoc.
Qed.

(** The heap starts with one entry per rectangle. *)
Lemma init_heap_ok : forall l i, Forall rect_ok l ->
  exists h c, init_heap k g offset stride bpp i l = Ok (h, c) /\ length c = length l /\
    h = imap (fun j r => (row_lo r (y1 r), (i + j)%nat)) l /\
    Forall (fun v => v = 0 \/ v = usize_max) c.
Proof.
  induction l as [|r l IH]; intros i Hl; cbn [init_heap].
  { exists [], []. by repeat split. }
  apply Forall_cons in Hl as [Hr Hl]. pose proof Hr as (?&?&?&?&?).
  rewrite chk_in by (unfold uN; lia). cbn [mbind res_bind].
  assert (Hw : (x2 r - x1 r) * bpp <= pos (y2 r) (x2 r)) by (unfold pos; nia).
  assert (0 <= (x2 r - x1 r) * bpp) by nia. pose proof pow_k.
  rewrite chk_in by (unfold uN; lia). cbn [mbind res_bind].
  rewrite row_start_ok by (done || lia). cbn [mbind res_bind].
  destruct (IH (Datatypes.S i) Hl) as (h&c&->&Hlen&Hh&Hc). cbn [mbind res_bind fst snd].
  eexists _, _. split; [done|]. split; [cbn; lia|]. split; [|constructor; [|done]].
  - cbn [imap]. rewrite Nat.add_0_r. f_equal. rewrite Hh. apply imap_ext.
    intros j r' _. cbn. f_equal. lia.
  - case_match; [by right|by left].
Qed.

Lemma measure_init c l h :
  Forall2 (fun e r => (rows_left c e <= Z.to_nat (y2 r - y1 r))%nat) h l ->
  (measure c h <= total_rows l)%nat.
Proof. induction 1; [done|]. rewrite measure_cons. cbn [total_rows foldr]. unfold total_rows in *. lia. Qed.

Lemma process_group_ok out0 :
  exists new, process_group rects bound k g offset stride bpp out0 = Ok (out0 ++ new) /\ group_out new.
Proof.
  unfold process_group. destruct (init_heap_ok rects 0 Hrects) as (h&c&->&Hlen&Hh&Hc).
  cbn [mbind res_bind fst snd].
  assert (Hlook : forall e, e ∈ h -> exists r v, rects !! e.2 = Some r /\ c !! e.2 = Some v /\
    e.1 = row_lo r (y1 r) /\ (v = 0 \/ v = usize_max)).
  { intros e Hin. rewrite Hh in Hin. apply elem_of_lookup_imap_1 in Hin as (j&r&->&Hj). cbn.
    destruct (lookup_lt_is_Some_2 c j) as [v Hv]; [apply lookup_lt_Some in Hj; lia|].
    exists r, v. split_and!; try done. rewrite Forall_forall in Hc. apply Hc.
    by eapply list_elem_of_lookup_2. }
  assert (Hrect : forall j r, rects !! j = Some r -> rect_ok r)
    by (intros j r Hj; rewrite Forall_forall in Hrects; by eapply Hrects, list_elem_of_lookup_2).
  apply (group_loop_ok out0 _ [] []); cbn; [|by rewrite app_nil_r|].
  - split; cbn; try done; try lia.
    + apply Forall_forall. intros e Hin. destruct (Hlook e Hin) as (r&v&Hr&Hv&Hs&Hcase).
      exists r, v. split_and!; try done. pose proof (Hrect _ _ Hr) as (?&?&?&?&?).
      destruct Hcase as [->| ->]; [right|by left]. rewrite Z.add_0_r. split; [lia|done].
    + rewrite Hh, fmap_imap. apply NoDup_alt. intros a b x.
      rewrite !list_lookup_imap. destruct (rects !! a), (rects !! b); cbn; try done. congruence.
    + intros j r y Hj Hy. right. destruct (lookup_lt_is_Some_2 c j) as [v Hv];
        [apply lookup_lt_Some in Hj; lia|]. exists (row_lo r (y1 r)), v, r. split_and!; try done.
      * rewrite Hh. by apply (elem_of_lookup_imap_2 (fun j r => (row_lo r (y1 r), (0 + j)%nat))).
      * rewrite Forall_forall in Hc. destruct (Hc v) as [->| ->]; [by eapply list_elem_of_lookup_2|right; lia|by left].
    + apply acc_init.
    + set_solver.
  - apply Nat.lt_succ_r, measure_init.
    rewrite Hh. apply Forall2_same_length_lookup_2; [apply length_imap|].
    intros j e r He Hr. rewrite list_lookup_imap, Hr in He. cbn in He. injection He as <-.
    unfold rows_left; cbn. rewrite Hr. pose proof (Hrect _ _ Hr) as (?&?&?&?&?).
    destruct (c !! j) as [v|] eqn:Hv; [|lia]. rewrite Forall_forall in Hc.
    destruct (Hc v) as [->| ->]; [by eapply list_elem_of_lookup_2| |]; case_match; lia.
Qed.
End Loop.

(** *** Grouping *)
Lemma bounding_interval_ok r : rect_ok r ->
  bounding_interval r offset stride bpp = (pos (y1 r) (x1 r), pos (y2 r) (x2 r)).
Proof.
  intros (?&?&?&?&Hb). pose proof pow_k. pose proof (pos_mono (y1 r) (y2 r) (x1 r) (x2 r)).
  unfold bounding_interval, sat, pos in *.
  assert (0 <= y1 r * stride) by nia. assert (0 <= y2 r * stride) by nia.
  assert (0 <= x1 r * bpp) by nia. assert (0 <= x2 r * bpp) by nia.
  f_equal; repeat rewrite Z.min_l by lia; lia.
Qed.
Lemma aligned_bounding_interval_ok r : rect_ok r ->
  aligned_bounding_interval r offset stride bpp k = Ok (row_lo r (y1 r), row_hi r (y2 r)).
Proof.
  intros Hr. pose proof Hr as (?&?&?&?&Hb). unfold aligned_bounding_interval.
  rewrite bounding_interval_ok by done. cbn [fst snd]. rewrite align_down_ok by lia.
  cbn [mbind res_bind]. rewrite align_up_ok; [done|lia|apply pos_nonneg; lia|done].
Qed.

Section Groups.
Context (rs : list Rect) (Hrs : Forall rect_ok rs).

Definition region_ok (b : interval) : Prop := 0 <= b.1 < b.2 /\ b.2 < 2 ^ 64 /\ b.2 mod 2 ^ k = 0.
Definition inside_region (b : interval) (r : Rect) : Prop :=
  b.1 <= row_lo r (y1 r) /\ row_hi r (y2 r) <= b.2.
Definition group_ok (gp : Group) : Prop :=
  0 <= i_start gp < i_end gp /\ i_end gp <= zlen rs /\ region_ok (region gp) /\
  Forall (inside_region (region gp)) (slice rs (i_start gp) (i_end gp)).
Definition groups_ok (gs : list Group) (n : Z) : Prop :=
  Forall group_ok gs /\ StronglySorted (apart g) (map region gs) /\
  (forall j, 0 <= j < n -> exists gp, gp ∈ gs /\ i_start gp <= j < i_end gp).

Lemma rect_region r : rect_ok r -> region_ok (row_lo r (y1 r), row_hi r (y2 r)).
Proof.
  intros Hr. pose proof Hr as (?&?&?&?&?). destruct (row_bounds r (y1 r) Hr) as ([? _]&?&_); [lia|].
  destruct (row_bounds r (y2 r) Hr) as (_&_&[_ ?]); [lia|].
  pose proof (row_hi_mono r (y1 r) (y2 r) Hr ltac:(lia)).
  destruct (up_spec k (pos (y2 r) (x2 r)) ltac:(lia)). unfold region_ok, row_hi in *. cbn. lia.
Qed.

Lemma groups_extend gs current i r b2 :
  groups_ok (gs ++ [current]) i -> i_end current = i -> rs !! Z.to_nat i = Some r ->
  (region current).1 <= row_lo r (y1 r) -> b2 = Z.max (region current).2 (row_hi r (y2 r)) ->
  groups_ok (gs ++ [MkGroup (i_start current) (i + 1) ((region current).1, b2)]) (i + 1).
Proof.
  intros (Hf&Hs&Hc) Hi Hr Hlo Hb2. apply Forall_app in Hf as [Hf Hcur].
  apply Forall_cons in Hcur as [(?&?&(?&?&?)&Hin) _].
  pose proof (lookup_lt_Some _ _ _ Hr) as Hlt.
  assert (Hrok : rect_ok r) by (rewrite Forall_forall in Hrs; by eapply Hrs, list_elem_of_lookup_2).
  destruct (rect_region r Hrok) as (?&?&?); cbn [fst snd] in *.
  assert (region_ok ((region current).1, b2)) as Hreg.
  { unfold region_ok; cbn. split_and!; [lia..|].
    destruct (Z.max_spec (region current).2 (row_hi r (y2 r))) as [[_ E]|[_ E]]; congruence. }
  split_and!.
  - apply Forall_app; split; [done|]. constructor; [|constructor]. unfold group_ok; cbn.
    split_and!; [lia|lia|unfold zlen; lia|apply Hreg..|].
    rewrite (slice_split rs (i_start current) i) by lia. apply Forall_app; split.
    + rewrite <- Hi. eapply Forall_impl; [exact Hin|]. intros r' [? ?]. split; cbn; lia.
    + replace (slice rs i (i + 1)) with [r].
      * repeat constructor; cbn; lia.
      * unfold slice. replace (Z.to_nat (i + 1 - i)) with 1%nat by lia.
        rewrite (drop_S _ _ _ Hr). done.
  - rewrite map_app in *. apply StronglySorted_app_iff in Hs as (Hs1&_&Hs3).
    apply StronglySorted_snoc; [done|]. intros x Hx.
    apply (Hs3 x (region current) Hx). by left.
  - intros j Hj. destruct (Z.eq_dec j i) as [->|].
    + eexists; split; [apply elem_of_app; right; by left|]. cbn. lia.
    + destruct (Hc j ltac:(lia)) as (gp&[Hgp| ->%list_elem_of_singleton]%elem_of_app&?).
      * exists gp. set_solver.
      * eexists; split; [apply elem_of_app; right; by left|]. cbn. lia.
Qed.

Lemma groups_new gs current i r :
  groups_ok (gs ++ [current]) i -> i_end current = i -> rs !! Z.to_nat i = Some r ->
  (region current).2 + g <= row_lo r (y1 r) ->
  groups_ok ((gs ++ [current]) ++ [MkGroup i (i + 1) (row_lo r (y1 r), row_hi r (y2 r))]) (i + 1).
Proof.
  intros (Hf&Hs&Hc) Hi Hr Hlo. pose proof (lookup_lt_Some _ _ _ Hr) as Hlt.
  assert (Hrok : rect_ok r) by (rewrite Forall_forall in Hrs; by eapply Hrs, list_elem_of_lookup_2).
  pose proof Hf as [_ [(?&?&(?&?&?)&_) _]%Forall_cons]%Forall_app. split_and!.
  - apply Forall_app; split; [done|]. constructor; [|constructor]. unfold group_ok; cbn.
    split_and!; [lia|lia|unfold zlen; lia|by apply rect_region..|].
    replace (slice rs i (i + 1)) with [r]; [repeat constructor; cbn; lia|].
    unfold slice. replace (Z.to_nat (i + 1 - i)) with 1%nat by lia. by rewrite (drop_S _ _ _ Hr).
  - rewrite map_app. apply StronglySorted_snoc; [done|]. intros x Hx.
    rewrite map_app in Hx. apply elem_of_app in Hx as [Hx|Hx].
    + rewrite map_app in Hs. apply StronglySorted_app_iff in Hs as (_&_&Hs3).
      assert (Ha : apart g x (region current)) by (apply Hs3; [done|by left]).
      unfold apart in *. cbn. lia.
    + apply list_elem_of_singleton in Hx as ->. done.
  - intros j Hj. destruct (Z.eq_dec j i) as [->|].
    + eexists; split; [apply elem_of_app; right; by left|]. cbn. lia.
    + destruct (Hc j ltac:(lia)) as (gp&?&?). exists gp. set_solver.
Qed.

Lemma group_rects_ok : forall l i current gs,
  drop (Z.to_nat i) rs = l -> 0 <= i <= zlen rs -> StronglySorted (fun a b => row_lo a (y1 a) <= row_lo b (y1 b)) l ->
  groups_ok (gs ++ [current]) i -> i_end current = i ->
  (forall r, r ∈ l -> (region current).1 <= row_lo r (y1 r)) ->
  exists gs', group_rects k g offset stride bpp i l current gs = Ok gs' /\ groups_ok gs' (zlen rs).
Proof.
  induction l as [|r l IH]; intros i current gs Hd Hi Hsort Hgs Hend Hlo; cbn [group_rects].
  { exists (gs ++ [current]). split; [done|]. replace (zlen rs) with i; [done|].
    apply (f_equal length) in Hd. rewrite length_drop in Hd. cbn in Hd. unfold zlen in *. lia. }
  assert (Hr : rs !! Z.to_nat i = Some r).
  { rewrite <- (Nat.add_0_r (Z.to_nat i)), <- lookup_drop, Hd. done. }
  assert (Hd' : drop (Z.to_nat (i + 1)) rs = l).
  { replace (Z.to_nat (i + 1)) with (Z.to_nat i + 1)%nat by lia. rewrite <- drop_drop, Hd. done. }
  pose proof (lookup_lt_Some _ _ _ Hr) as Hlt.
  assert (Hrok : rect_ok r) by (rewrite Forall_forall in Hrs; by eapply Hrs, list_elem_of_lookup_2).
  rewrite aligned_bounding_interval_ok by done. cbn [mbind res_bind fst snd].
  apply StronglySorted_inv in Hsort as [Hsort Hhd]. rewrite Forall_forall in Hhd.
  assert (i + 1 <= zlen rs) by (unfold zlen; lia).
  pose proof (Hlo r ltac:(by left)) as Hlor.
  assert (Hmerge : exists gs', group_rects k g offset stride bpp (i + 1) l
    (MkGroup (i_start current) (i + 1) ((region current).1, Z.max (region current).2 (row_hi r (y2 r)))) gs
    = Ok gs' /\ groups_ok gs' (zlen rs)).
  { apply IH; try done; [lia| |]; cbn.
    - by eapply groups_extend.
    - intros r' Hr'. apply Hlo. by right. }
  destruct (rect_region r Hrok) as (?&?&_); cbn [fst snd] in *.
  pose proof Hgs as [[_ [(_&_&(?&?&_)&_) _]%Forall_cons]%Forall_app _].
  destruct (Z.leb_spec (row_lo r (y1 r)) (region current).2); [done|].
  rewrite chk_in by (unfold uN; lia). cbn [mbind res_bind].
  destruct (Z.ltb_spec (row_lo r (y1 r) - (region current).2) g); [done|].
  apply IH; try done; [lia|apply groups_new; try done; lia].
Qed.

Lemma slice_Forall {A} (P : A -> Prop) l a b : Forall P l -> Forall P (slice l a b).
Proof. intros. unfold slice. by apply Forall_take, Forall_drop. Qed.

Lemma process_spans_ok (Hnum : zlen rs < 2 ^ 59) : forall gs out,
  Forall group_ok gs -> StronglySorted (apart g) (map region gs) -> well_formed k g out ->
  (forall x gp, x ∈ out -> gp ∈ gs -> apart g x (region gp)) ->
  exists out', foldM (process_span k g offset stride bpp rs) out gs = Ok out' /\
    well_formed k g out' /\ (forall x, x ∈ out -> x ∈ out') /\
    (forall x, x ∈ out' -> x ∈ out \/ 0 <= x.1 /\ x.2 < 2 ^ 64) /\
    (forall gp r y, gp ∈ gs -> r ∈ slice rs (i_start gp) (i_end gp) -> y1 r <= y < y2 r ->
       covers out' (row_lo r y) (row_hi r y)).
Proof.
  induction gs as [|gp gs IH]; intros out Hf Hs Hwf Hap; cbn [foldM].
  { exists out. split_and!; try done; [by left|set_solver]. }
  apply Forall_cons in Hf as [(?&?&(?&?&?)&Hin) Hf]. cbn [map] in Hs.
  apply StronglySorted_inv in Hs as [Hs Hhd]. rewrite Forall_forall in Hhd.
  destruct (process_group_ok (slice rs (i_start gp) (i_end gp)) (region gp)) with (out0 := out)
    as (new&E&Hwf'&Hb&Hcov); try done; [by apply slice_Forall|rewrite zlen_slice; lia|lia|].
  assert (process_span k g offset stride bpp rs out gp = Ok (out ++ new)) as ->.
  { unfold process_span. rewrite get_range_ok by lia. done. }
  cbn [mbind res_bind]. destruct (IH (out ++ new)) as (out'&->&Hwf2&Hsub&Hrng&Hcov2); try done.
  - apply well_formed_app; try done. intros x y Hx Hy. specialize (Hap x gp Hx ltac:(by left)).
    destruct (Hb y Hy). unfold apart in *. lia.
  - intros x gp' [Hx|Hx]%elem_of_app Hgp; [apply Hap; [done|by right]|].
    destruct (Hb x Hx). specialize (Hhd (region gp')). unfold apart in *.
    enough ((region gp).2 + g <= (region gp').1) by lia. apply Hhd.
    apply list_elem_of_fmap. by exists gp'.
  - exists out'. split_and!; try done; [intros x Hx; apply Hsub; set_solver|..].
    { intros x Hx. destruct (Hrng x Hx) as [[?|Hn]%elem_of_app|?]; [by left|right|by right].
      destruct (Hb x Hn). lia. }
    intros gp' r y [->|Hgp]%elem_of_cons Hr Hy; [|by eapply Hcov2].
    eapply covers_mono; [|by apply Hcov]. intros x Hx. apply Hsub. set_solver.
Qed.
End Groups.
End GroupCorrect.

Lemma StronglySorted_impl_in {A} (R R' : A -> A -> Prop) l :
  (forall a b, a ∈ l -> b ∈ l -> R a b -> R' a b) -> StronglySorted R l -> StronglySorted R' l.
Proof.
  intros HR Hs. induction Hs as [|x l Hs IH Hx]; constructor.
  - apply IH. set_solver.
  - rewrite Forall_forall in *. intros y Hy. apply HR; set_solver.
Qed.

Lemma compute_unfold `{SortUnstable} k g offset stride bpp rects :
  rects <> [] ->
  compute_damaged_segments k g offset stride bpp rects =
    (assert_ (0 <? bpp);;
     assert_ (forallb (fun r => (x1 r <? x2 r) && (y1 r <? y2 r)) rects);;
     let rects := sort_unstable_by_key (fun r => (bounding_interval r offset stride bpp).1) rects in
     first ← index rects 0;
     b ← aligned_bounding_interval first offset stride bpp k;
     spans ← group_rects k g offset stride bpp 1 (drop 1 rects) (MkGroup 0 1 b) [];
     foldM (process_span k g offset stride bpp rects) [] spans).
Proof. by destruct rects. Qed.

Lemma compute_damaged_segments_ok `{SortUnstable} (k g offset stride bpp : Z)
    (rects : list Rect) :
  0 <= k < 64 -> 0 <= g -> 0 <= offset -> 0 <= stride -> 0 < bpp ->
  Forall (rect_ok k offset stride bpp) rects -> zlen rects < 2 ^ 59 ->
  exists out, compute_damaged_segments k g offset stride bpp rects = Ok out /\
    well_formed k g out /\ Forall (fun x => 0 <= x.1 /\ x.2 < 2 ^ 64) out /\
    (forall r y, r ∈ rects -> y1 r <= y < y2 r ->
       covers out (pos offset stride bpp y (x1 r)) (pos offset stride bpp y (x2 r))).
Proof.
  intros Hk Hg Hoff Hstr Hbpp Hrects Hnum.
  destruct (decide (rects = [])) as [->|Hne].
  { exists []. split_and!; [done|split; constructor|constructor|set_solver]. }
  rewrite compute_unfold by done. 
  assert (Hall : forallb (fun r => (x1 r <? x2 r) && (y1 r <? y2 r)) rects = true).
  { apply forallb_forall. intros r Hr%list_elem_of_In. rewrite Forall_forall in Hrects.
    destruct (Hrects r Hr) as (?&?&?&?&?). lia. }
  rewrite Hall, assert_true by lia. cbn [assert_ mbind res_bind].
  set (key := fun r => (bounding_interval r offset stride bpp).1).
  pose proof (sort_unstable_perm key rects) as Hperm.
  pose proof (sort_unstable_sorted key rects) as Hsort.
  set (rs := sort_unstable_by_key key rects) in *.
  assert (Hrs : Forall (rect_ok k offset stride bpp) rs) by by rewrite Hperm.
  assert (Hlen : zlen rs = zlen rects) by (unfold zlen; by rewrite Hperm).
  assert (Hsort' : StronglySorted (fun a b => row_lo k offset stride bpp a (y1 a)
    <= row_lo k offset stride bpp b (y1 b)) rs).
  { eapply StronglySorted_impl_in; [|exact Hsort]. intros a b Ha Hb Hab. rewrite Forall_forall in Hrs.
    unfold key in Hab. rewrite !(bounding_interval_ok k g) in Hab by eauto. apply down_mono; [lia|done]. }
  clearbody rs. destruct rs as [|r1 rs'] eqn:Ers; [destruct rects; [done|]; rewrite zlen_cons in Hlen; zlia|].
  rewrite <- Ers in *. assert (index rs 0 = Ok r1) as -> by (unfold index; cbn; by rewrite Ers).
  cbn [mbind res_bind]. assert (Hr1 : rect_ok k offset stride bpp r1) by (rewrite Ers in Hrs; by inversion Hrs).
  rewrite (aligned_bounding_interval_ok k g) by done. cbn [mbind res_bind].
  destruct (group_rects_ok k g offset stride bpp Hk Hg Hoff Hstr Hbpp rs Hrs (drop 1 rs) 1
    (MkGroup 0 1 (row_lo k offset stride bpp r1 (y1 r1), row_hi k offset stride bpp r1 (y2 r1))) [])
    as (gs&->&Hgs&Hap&Hcover); [done|..].
  - rewrite Ers, zlen_cons. zlia.
  - rewrite Ers. rewrite Ers in Hsort'. by apply StronglySorted_inv in Hsort' as [? _].
  - cbn [app]. split_and!.
    + constructor; [|constructor]. unfold group_ok; cbn. split_and!; try lia; try by eapply rect_region.
      * rewrite Ers, zlen_cons. zlia.
      * rewrite Ers. repeat constructor; cbn; lia.
    + repeat constructor.
    + intros j Hj. eexists; split; [by left|]. cbn. lia.
  - done.
  - cbn. intros r Hr. rewrite Ers in Hsort', Hr. apply StronglySorted_inv in Hsort' as [_ Hhd].
    rewrite Forall_forall in Hhd. by apply Hhd.
  - cbn [mbind res_bind].
    destruct (process_spans_ok k g offset stride bpp Hk Hg Hoff Hstr Hbpp rs Hrs ltac:(lia) gs [])
      as (out&->&Hwf&_&Hrng&Hcov); try done; [split; constructor|set_solver|].
    exists out. split; [by rewrite assert_true by lia|]. split; [done|].
    split; [apply Forall_forall; intros x Hx; destruct (Hrng x Hx); [set_solver|done]|]. intros r y Hr Hy.
    rewrite <- Hperm in Hr. apply list_elem_of_lookup in Hr as [j Hj].
    destruct (Hcover (Z.of_nat j)) as (gp&Hgp&Hjr); [apply lookup_lt_Some in Hj; unfold zlen; lia|].
    rewrite Forall_forall in Hgs. destruct (Hgs gp Hgp) as (?&?&_).
    destruct (Hcov gp r y Hgp) as (z&?&?&?); [|done|].
    + apply (list_elem_of_lookup_2 _ (Z.to_nat (Z.of_nat j - i_start gp))).
      rewrite lookup_slice by lia. rewrite <- Hj. f_equal. lia.
    + exists z. destruct (down_spec k (pos offset stride bpp y (x1 r)) ltac:(lia)).
      destruct (up_spec k (pos offset stride bpp y (x2 r)) ltac:(lia)).
      unfold row_lo, row_hi in *. split_and!; [done|lia|lia].
Qed.

(** C26: for rectangles inside a buffer whose byte positions fit [usize],
    [compute_damaged_segments] never panics and terminates, whatever order the unstable sort
    gives equal keys; its output is valid (non-empty, aligned to [2^align_bits], sorted, at
    least [min_gap] apart, within [usize]) and covers every byte of every row of every rectangle. *)
Theorem compute_damaged_segments_correct `{SortUnstable} (k g offset stride bpp : Z)
    (rects : list Rect) :
  0 <= k < 64 -> 0 <= g -> 0 <= offset -> 0 <= stride -> 0 < bpp ->
  Forall (rect_ok k offset stride bpp) rects -> zlen rects < 2 ^ 59 ->
  exists out, compute_damaged_segments k g offset stride bpp rects = Ok out /\
    well_formed k g out /\ Forall (fun x => 0 <= x.1 /\ x.2 < 2 ^ 64) out /\
    (forall r y, r ∈ rects -> y1 r <= y < y2 r ->
       covers out (pos offset stride bpp y (x1 r)) (pos offset stride bpp y (x2 r))).
Proof. apply compute_damaged_segments_ok. Qed.

(** A sort for the examples below. *)
#[export] Instance key_le_dec {A} (key : A -> Z) (a b : A) : Decision (key a <= key b) :=
  decide_rel Z.le (key a) (key b).
#[export] Program Instance merge_sort_by : SortUnstable :=
  {| sort_unstable_by_key A key l := merge_sort (fun a b => key a <= key b) l |}.
Next Obligation. intros A key l. apply merge_sort_Permutation. Qed.
Next Obligation.
  intros A key l. apply StronglySorted_merge_sort.
  - intros a b c ? ?. cbn in *. lia.
  - intros a b. cbn. lia.
Qed.

Lemma compute_damaged_segments_correct_witness :
  let rects := [MkRect 90 100 40 50; MkRect 0 10 0 10] in
  exists out, compute_damaged_segments 2 4 0 100 1 rects = Ok out /\ well_formed 2 4 out /\
    Forall (fun x => 0 <= x.1 /\ x.2 < 2 ^ 64) out /\
    (forall r y, r ∈ rects -> y1 r <= y < y2 r ->
       covers out (pos 0 100 1 y (x1 r)) (pos 0 100 1 y (x2 r))).
Proof.
  apply (compute_damaged_segments_correct 2 4 0 100 1 [MkRect 90 100 40 50; MkRect 0 10 0 10]);
    [lia..| |vm_compute; congruence].
  repeat constructor; cbn; try lia; vm_compute; congruence.
Defined.

(** The two examples of the unit test. *)
Example damage_test :
  let pattern := [MkRect 0 10 0 10; MkRect 90 100 40 50] in
  (fmap (M := res) length (compute_damaged_segments 0 0 0 100 1 pattern)) = Ok 20%nat /\
  compute_damaged_segments 0 usize_max 0 100 1 pattern = Ok [(0, 5000)].
Proof. vm_compute. done. Qed.
