(* ===== verification/Mirror.v ===== *)
(** * [src/mirror.rs]: a buffer copy with range-based access control

    A [Mirror] hands out mutable byte ranges to concurrent tasks. Its safety rests on the
    bookkeeping of [ranges]: no two live ranges may overlap. The module models the bookkeeping,
    the borrowed slices as views of the shared region, and the resizing; [mmap], [mremap] and
    the aligned allocator are the zero-initialised region they provide. *)
From Stdlib Require Import ZArith Lia.
From stdpp Require Import gmap sets.
From S2P Require Import Prelude.
Local Open Scope Z_scope.

Abbreviation span := (Z * Z)%type.

(** [region] is the memory behind [data], of length [region_size]. *)
Record MirrorState := MkMirror { region : bytes; region_size : Z; ranges : gset span }.

Definition nonempty_range_overlap (a b : span) : bool := (b.1 <? a.2) && (a.1 <? b.2).

Definition new (size : Z) : res MirrorState :=
  if isize_max <? size then Err "Creating mirror too large" else
  Ok (MkMirror (replicate (Z.to_nat size) Byte.x00) size ∅).

(** [get_mut_range]: the state after the call, and the range handed out, if any. *)
Definition get_mut_range (m : MirrorState) (start end_ : Z) : MirrorState * option span :=
  if end_ <=? start then (m, None) else
  let x := (start, end_) in
  if existsb (fun sp => nonempty_range_overlap sp x) (elements (ranges m)) then (m, None) else
  let m := MkMirror (region m) (region_size m) ({[x]} ∪ ranges m) in
  if region_size m <? end_ then (m, None) else (m, Some x).

(** What a holder of a range reads and writes through its [data] slice. *)
Definition read_range (m : MirrorState) (x : span) : res bytes := get_range (region m) x.1 x.2.
Definition write_range (m : MirrorState) (x : span) (v : bytes) : res MirrorState :=
  r ← set_range (region m) x.1 x.2 v; Ok (MkMirror r (region_size m) (ranges m)).

(** [Drop for MirrorRange] *)
Definition drop_range (m : MirrorState) (x : span) : MirrorState :=
  MkMirror (region m) (region_size m) (ranges m ∖ {[x]}).

Definition extend (m : MirrorState) (new_size : Z) : res MirrorState :=
  if isize_max <? new_size then Err "Extending mirror too large" else
  assert_ (bool_decide (ranges m = ∅));;
  assert_ (region_size m <=? new_size);;
  if new_size =? region_size m then Ok m else
  let fresh := replicate (Z.to_nat new_size) Byte.x00 in
  r ← set_range fresh 0 (region_size m) (region m);
  Ok (MkMirror r new_size (ranges m)).

Definition len (m : MirrorState) : Z := region_size m.

(** ** The system: a mirror and the ranges its users hold *)
Inductive op :=
| Get (start end_ : Z)
| Release (x : span)
| Store (x : span) (v : bytes)
| Extend (new_size : Z).

Record system := MkSys { mirror : MirrorState; held : list span }.

(** A step a well-typed Rust program can take: only a holder stores or releases, storing a
    slice of the range's length, and [extend] needs [&mut Mirror], so no range is held. *)
Inductive step : system -> op -> system -> Prop :=
| step_get m h a b m' x :
    0 <= a -> get_mut_range m a b = (m', Some x) -> step (MkSys m h) (Get a b) (MkSys m' (x :: h))
| step_get_none m h a b m' :
    0 <= a -> get_mut_range m a b = (m', None) -> step (MkSys m h) (Get a b) (MkSys m' h)
| step_release m h1 x h2 :
    step (MkSys m (h1 ++ x :: h2)) (Release x) (MkSys (drop_range m x) (h1 ++ h2))
| step_store m h x v m' :
    x ∈ h -> write_range m x v = Ok m' -> step (MkSys m h) (Store x v) (MkSys m' h)
| step_extend m n m' :
    extend m n = Ok m' -> step (MkSys m []) (Extend n) (MkSys m' []).

Inductive steps : system -> list op -> system -> Prop :=
| steps_nil s : steps s [] s
| steps_cons s o s' l s'' : step s o s' -> steps s' l s'' -> steps s (o :: l) s''.

(** ** Invariant *)
Definition disjoint (x y : span) : Prop := x.2 <= y.1 \/ y.2 <= x.1.
Record mirror_inv (m : MirrorState) : Prop := {
  mi_size : zlen (region m) = region_size m /\ region_size m <= isize_max;
  mi_span x : x ∈ ranges m -> 0 <= x.1 < x.2;
  mi_disjoint x y : x ∈ ranges m -> y ∈ ranges m -> x <> y -> disjoint x y;
}.
(** Every held range is registered and inside the region, and no two are the same. *)
Record sys_inv (s : system) : Prop := {
  si_mirror : mirror_inv (mirror s);
  si_held x : x ∈ held s -> x ∈ ranges (mirror s) /\ x.2 <= region_size (mirror s);
  si_nodup : NoDup (held s);
}.

Lemma overlap_false a b :
  nonempty_range_overlap a b = false <-> disjoint b a.
Proof. unfold nonempty_range_overlap, disjoint. lia. Qed.

Lemma get_mut_range_cases m a b :
  get_mut_range m a b = (m, None) \/
  (a < b /\ (forall sp, sp ∈ ranges m -> disjoint (a, b) sp) /\
   get_mut_range m a b = (MkMirror (region m) (region_size m) ({[(a, b)]} ∪ ranges m),
                          if region_size m <? b then None else Some (a, b))).
Proof.
  unfold get_mut_range. destruct (Z.leb_spec b a); [by left|].
  destruct (existsb _ _) eqn:E; [by left|]. right. split; [lia|]. split.
  - intros sp Hsp. apply overlap_false.
    destruct (nonempty_range_overlap sp (a, b)) eqn:Eo; [|done].
    assert (existsb (fun sp => nonempty_range_overlap sp (a, b)) (elements (ranges m)) = true); [|congruence].
    apply existsb_exists. exists sp. split; [|done]. by apply list_elem_of_In, elem_of_elements.
  - cbn. by case_match.
Qed.

Lemma new_ok n m : 0 <= n -> new n = Ok m -> mirror_inv m /\ region m = replicate (Z.to_nat n) Byte.x00.
Proof.
  unfold new. intros Hn. case_match; [done|]. intros [= <-]. split; [|done].
  split; cbn; [|set_solver..]. rewrite zlen_replicate. lia.
Qed.

Lemma mirror_inv_insert m a b :
  mirror_inv m -> 0 <= a < b -> (forall sp, sp ∈ ranges m -> disjoint (a, b) sp) ->
  mirror_inv (MkMirror (region m) (region_size m) ({[(a, b)]} ∪ ranges m)).
Proof.
  intros [Hs Hsp Hd] Hab Hnew. split; cbn; [done| |].
  - intros x [->%elem_of_singleton|]%elem_of_union; [done|auto].
  - intros x y [->%elem_of_singleton|Hx]%elem_of_union [->%elem_of_singleton|Hy]%elem_of_union Hne;
      [done|by apply Hnew| |by apply Hd].
    destruct (Hnew x Hx); [by right|by left].
Qed.

Lemma extend_ok m n m' :
  mirror_inv m -> extend m n = Ok m' ->
  mirror_inv m' /\ ranges m' = ∅ /\ region_size m' = n /\
  region m' = region m ++ replicate (Z.to_nat (n - region_size m)) Byte.x00.
Proof.
  intros [Hs Hsp Hd]. unfold extend. destruct (Z.ltb_spec isize_max n); [done|].
  case_bool_decide as Hr; [|done]. cbn [assert_ mbind res_bind].
  destruct (Z.leb_spec (region_size m) n); [|done]. cbn [assert_ mbind res_bind].
  destruct (Z.eqb_spec n (region_size m)) as [->|Hn].
  - intros [= <-]. rewrite Z.sub_diag, app_nil_r. by split_and!.
  - destruct Hs as [Hs1 Hs2]. pose proof (zlen_nonneg (region m)).
    rewrite set_range_ok by (rewrite ?zlen_replicate; lia). cbn [mbind res_bind]. intros [= <-].
    assert (E : splice (replicate (Z.to_nat n) Byte.x00) 0 (region m)
                = region m ++ replicate (Z.to_nat (n - region_size m)) Byte.x00).
    { unfold splice. rewrite take_0, drop_replicate. cbn [app]. do 2 f_equal. unfold zlen in *. lia. }
    cbn. rewrite E. split_and!; try done. split; cbn; [|set_solver..].
    rewrite zlen_app, zlen_replicate. lia.
Qed.

Lemma step_inv s o s' : sys_inv s -> step s o s' -> sys_inv s'.
Proof.
  intros [Hm Hh Hn] Hst. inversion Hst as [m h a b m' x Ha E|m h a b m' Ha E|m h1 x h2|m h x v m' Hx E|m n m' E];
    subst; cbn in *.
  - destruct (get_mut_range_cases m a b) as [E'|(Hab & Hd & E')]; rewrite E' in E; [done|].
    destruct (Z.ltb_spec (region_size m) b); [done|]. injection E as <- <-.
    split; cbn; [by apply mirror_inv_insert| |].
    + intros y [->|Hy]%elem_of_cons; [set_solver by lia|]. destruct (Hh y Hy). set_solver.
    + apply NoDup_cons. split; [|done]. intros Hin. destruct (Hh _ Hin) as [Hr _].
      destruct (Hd _ Hr); cbn in *; lia.
  - destruct (get_mut_range_cases m a b) as [E'|(Hab & Hd & E')]; rewrite E' in E.
    + injection E as <-. by split.
    + destruct (Z.ltb_spec (region_size m) b); [|done]. injection E as <-.
      split; cbn; [by apply mirror_inv_insert| |done].
      intros y Hy. destruct (Hh y Hy). set_solver.
  - apply NoDup_app in Hn as (Hn1&Hx&Hn2). apply NoDup_cons in Hn2 as [Hx2 Hn2].
    split; cbn.
    + destruct Hm as [? Hsp Hd]. split; cbn; [done|set_solver|set_solver].
    + intros y Hy. destruct (Hh y) as [Hr ?]; [set_solver|]. split; [|done].
      apply elem_of_difference. split; [done|]. intros ->%elem_of_singleton. set_solver.
    + apply NoDup_app. split_and!; [done|set_solver|done].
  - unfold write_range in E. minvs. split; cbn; [|done|done].
    destruct Hm as [[] Hsp Hd]. split; cbn; [|done|done]. rewrite zlen_splice; lia.
  - destruct (extend_ok _ _ _ Hm E) as (?&Hr&?&_). split; cbn; [done|set_solver|done].
Qed.

Lemma steps_inv s l s' : sys_inv s -> steps s l s' -> sys_inv s'.
Proof. intros Hs. induction 1; [done|]. eauto using step_inv. Qed.

Lemma held_disjoint s i j x y :
  sys_inv s -> held s !! i = Some x -> held s !! j = Some y -> i <> j -> disjoint x y.
Proof.
  intros [Hm Hh Hn] Hi Hj Hij. apply (mi_disjoint _ Hm).
  - apply Hh. by eapply list_elem_of_lookup_2.
  - apply Hh. by eapply list_elem_of_lookup_2.
  - intros ->. rewrite NoDup_alt in Hn. by apply Hij, (Hn i j y).
Qed.

(** Bytes outside a spliced range are untouched. *)
Lemma slice_splice_disjoint {A} (l v : list A) a b c d :
  0 <= a <= b -> b <= zlen l -> zlen v = b - a -> 0 <= c <= d -> d <= zlen l -> b <= c \/ d <= a ->
  slice (splice l a v) c d = slice l c d.
Proof.
  intros. rewrite splice_slices by lia. rewrite (slice_decomp l a b) at 4 by lia.
  destruct H4.
  - rewrite !(app_assoc (slice l 0 a)). replace (a + zlen v) with b by lia.
    rewrite !slice_app_r by (rewrite zlen_app, ?zlen_slice; lia).
    rewrite !zlen_app, zlen_slice, (zlen_slice l a b) by lia. do 2 f_equal; lia.
  - rewrite !slice_app_l by (rewrite ?zlen_slice; lia). done.
Qed.

(** after any sequence of calls on a new mirror, the ranges that are out are non-empty,
    inside the region and pairwise disjoint, and what is stored through one of them is not
    seen through any other. *)
Theorem mirror_exclusive (n : Z) (m : MirrorState) (l : list op) (s : system) :
  0 <= n -> new n = Ok m -> steps (MkSys m []) l s ->
  (forall x, x ∈ held s -> 0 <= x.1 < x.2 /\ x.2 <= zlen (region (mirror s))) /\
  (forall i j x y, held s !! i = Some x -> held s !! j = Some y -> i <> j ->
     disjoint x y /\
     forall v m', write_range (mirror s) x v = Ok m' ->
       read_range m' y = read_range (mirror s) y /\ read_range m' x = Ok v).
Proof.
  intros Hn Hnew Hsteps. destruct (new_ok _ _ Hn Hnew) as [Hm _].
  assert (Hs : sys_inv s).
  { eapply steps_inv; [|done]. split; cbn; [done|set_solver|constructor]. }
  assert (Hin : forall x, x ∈ held s -> 0 <= x.1 < x.2 /\ x.2 <= zlen (region (mirror s))).
  { intros x Hx. destruct (si_held _ Hs x Hx). pose proof (si_mirror _ Hs) as [[] Hsp _].
    split; [by apply Hsp|lia]. }
  split; [done|]. intros i j x y Hi Hj Hij. split; [by eapply held_disjoint|].
  intros v m' Hw. destruct (Hin x) as [Hx1 Hx2]; [by eapply list_elem_of_lookup_2|].
  destruct (Hin y) as [Hy1 Hy2]; [by eapply list_elem_of_lookup_2|].
  unfold write_range in Hw. minvs. unfold read_range; cbn.
  rewrite !get_range_ok by (rewrite ?zlen_splice; lia). split; f_equal.
  - apply slice_splice_disjoint with (b := x.2); try lia.
    destruct (held_disjoint s i j x y Hs Hi Hj Hij); lia.
  - rewrite splice_slices by lia. apply slice_app_mid; rewrite ?zlen_slice; lia.
Qed.
Lemma mirror_exclusive_witness :
  exists m s, new 16 = Ok m /\
  steps (MkSys m []) [Get 0 4; Get 4 8; Store (0, 4) (replicate 4 Byte.x01)] s /\
  held s = [(4, 8); (0, 4)] /\
  (forall x, x ∈ held s -> 0 <= x.1 < x.2 /\ x.2 <= zlen (region (mirror s))) /\
  (forall i j x y, held s !! i = Some x -> held s !! j = Some y -> i <> j ->
     disjoint x y /\
     forall v m', write_range (mirror s) x v = Ok m' ->
       read_range m' y = read_range (mirror s) y /\ read_range m' x = Ok v).
Proof.
  eexists _, _. split; [reflexivity|].
  assert (Hs : steps (MkSys (MkMirror (replicate 16 Byte.x00) 16 ∅) [])
    [Get 0 4; Get 4 8; Store (0, 4) (replicate 4 Byte.x01)]
    (MkSys (MkMirror (replicate 4 Byte.x01 ++ replicate 12 Byte.x00) 16
       ({[(4, 8)]} ∪ ({[(0, 4)]} ∪ ∅))) [(4, 8); (0, 4)])).
  { eapply steps_cons; [eapply step_get; [lia|reflexivity]|].
    eapply steps_cons; [eapply step_get; [lia|reflexivity]|].
    eapply steps_cons; [eapply step_store; [set_solver|reflexivity]|]. apply steps_nil. }
  split; [exact Hs|]. split; [reflexivity|].
  apply (mirror_exclusive 16 _ _ _ ltac:(lia) ltac:(reflexivity) Hs).
Defined.

(** [extend] refuses sizes above [isize::MAX], panics while a range is registered or on a
    decrease, and otherwise keeps the contents and adds zeros. *)
Theorem extend_spec (m : MirrorState) (n : Z) :
  mirror_inv m ->
  (isize_max < n -> extend m n = Err "Extending mirror too large") /\
  (n <= isize_max -> ranges m <> ∅ \/ n < region_size m -> extend m n = Panic) /\
  (n <= isize_max -> ranges m = ∅ -> region_size m <= n ->
   exists m', extend m n = Ok m' /\ mirror_inv m' /\ region_size m' = n /\
     region m' = region m ++ replicate (Z.to_nat (n - region_size m)) Byte.x00).
Proof.
  intros Hm. split_and!.
  - intros. unfold extend. by replace (isize_max <? n) with true by lia.
  - intros Hn Hbad. unfold extend. replace (isize_max <? n) with false by lia.
    case_bool_decide; cbn [assert_ mbind res_bind]; [|done].
    replace (region_size m <=? n) with false; [done|]. destruct Hbad; [done|lia].
  - intros Hn Hr Hs. destruct (extend m n) as [m'| |] eqn:E.
    + exists m'. by destruct (extend_ok _ _ _ Hm E) as (?&_&?&?).
    + unfold extend in E. replace (isize_max <? n) with false in E by lia.
      exfalso. revert E. rewrite bool_decide_true by done. cbn [assert_ mbind res_bind].
      replace (region_size m <=? n) with true by lia. cbn [assert_ mbind res_bind].
      case_match; [done|]. unfold set_range. case_match; done.
    + exfalso. revert E. unfold extend. replace (isize_max <? n) with false by lia.
      rewrite bool_decide_true by done. cbn [assert_ mbind res_bind].
      replace (region_size m <=? n) with true by lia. cbn [assert_ mbind res_bind].
      case_match; [done|]. destruct Hm as [[] _ _]. pose proof (zlen_nonneg (region m)).
      rewrite set_range_ok by (rewrite ?zlen_replicate; lia). done.
Qed.
Lemma extend_spec_witness :
  exists m', extend (MkMirror [Byte.x07] 1 ∅) 3 = Ok m' /\ mirror_inv m' /\ region_size m' = 3 /\
    region m' = [Byte.x07] ++ replicate 2 Byte.x00.
Proof.
  apply (extend_spec (MkMirror [Byte.x07] 1 ∅) 3); [|vm_compute; congruence|done|cbn; lia].
  split; cbn; [vm_compute; split; congruence|set_solver|set_solver].
Defined.

(** a request that ends beyond the region is refused but stays registered: it blocks every
    later overlapping request, although nobody holds it, and makes [extend] panic. *)
Theorem refused_range_leaks (m : MirrorState) (a b : Z) :
  a < b -> region_size m < b -> (forall sp, sp ∈ ranges m -> disjoint (a, b) sp) ->
  exists m', get_mut_range m a b = (m', None) /\
    (forall c d, nonempty_range_overlap (a, b) (c, d) = true -> get_mut_range m' c d = (m', None)) /\
    (forall n, n <= isize_max -> extend m' n = Panic).
Proof.
  intros Hab Hb Hd. eexists. split; [|split].
  - unfold get_mut_range. replace (b <=? a) with false by lia.
    destruct (existsb _ _) eqn:E.
    { apply existsb_exists in E as (sp&Hin&Ho). apply list_elem_of_In, elem_of_elements in Hin.
      specialize (Hd sp Hin). apply overlap_false in Hd. congruence. }
    cbn. replace (region_size m <? b) with true by lia. reflexivity.
  - intros c d Ho. unfold get_mut_range. case_match; [done|].
    destruct (existsb _ _) eqn:E; [done|]. exfalso.
    assert (existsb (fun sp => nonempty_range_overlap sp (c, d))
      (elements ({[(a, b)]} ∪ ranges m)) = true); [|cbn in *; congruence].
    apply existsb_exists. exists (a, b). split; [|done]. apply list_elem_of_In, elem_of_elements. set_solver.
  - intros n Hn. unfold extend; cbn. replace (isize_max <? n) with false by lia.
    rewrite bool_decide_false; [done|]. set_solver.
Qed.
Lemma refused_range_leaks_witness :
  exists m', get_mut_range (MkMirror (replicate 16 Byte.x00) 16 ∅) 8 32 = (m', None) /\
    (forall c d, nonempty_range_overlap (8, 32) (c, d) = true -> get_mut_range m' c d = (m', None)) /\
    (forall n, n <= isize_max -> extend m' n = Panic).
Proof.
  apply (refused_range_leaks (MkMirror (replicate 16 Byte.x00) 16 ∅) 8 32); [lia|cbn; lia|set_solver].
Defined.
