(* ===== verification/ReadBuffer.v ===== *)
(** * [src/read.rs]: message framing on the channel socket

    A [ReadBuffer] reads the channel into chunks and cuts it into messages. The memory of a
    chunk is modelled by its size and its initialised prefix; [readv] is an argument, the
    result the kernel gives for the total length of the vectors passed. A [ReadBufferView] owns
    its bytes exclusively, so it is modelled by their value. *)
From Stdlib Require Import ZArith Lia.
From S2P Require Import Prelude Util.
Import Wmsg Arith.
Local Open Scope Z_scope.

Definition MAX_NORMAL_MSG_SIZE : Z := Z.shiftl 1 18.

(** [filled] is the initialised part of the allocation of [csize] bytes. *)
Record ReadBufferChunk := MkChunk { csize : Z; filled : bytes }.
Definition new_chunk (len : Z) : res ReadBufferChunk :=
  assert_ (0 <? len);; Ok (MkChunk len []).

Record ReadBuffer := MkRB {
  old : option ReadBufferChunk;
  current : ReadBufferChunk;
  last_msg_start : Z;
  end_ : Z;
  msg_queue : list bytes }.

Definition new : res ReadBuffer :=
  c ← new_chunk (4 * MAX_NORMAL_MSG_SIZE);
  Ok (MkRB None c 0 0 []).

Definition get_message_padded_len (base : bytes) (start : Z) : res Z :=
  b ← get_range base start (start + 4);
  lt ← ok_or "Failed to parse wmsg header" (parse_wmsg_header (from_le b));
  if lt.1 <? 4 then Err "Message lengths must be at least 4" else
  align4 lt.1.

(** ** [readv] *)
Inductive readv_ret := Read (data : bytes) | ECONNRESET | EINTR | EAGAIN | EOTHER.
(** [true] iff the source has no more data, and the bytes read *)
Definition read_inner (total : Z) (readv : Z -> readv_ret) : res (bool * bytes) :=
  assert_ (0 <? total);;
  match readv total with
  | Read data => Ok (zlen data =? 0, data)
  | ECONNRESET => Ok (true, [])
  | EINTR | EAGAIN => Ok (false, [])
  | EOTHER => Err "Error reading from channel socket"
  end.

(** ** Operations *)
(** Store freshly read bytes at [pos]: the chunk is initialised up to [pos]. *)
Definition fill (c : ReadBufferChunk) (pos : Z) (data : bytes) : ReadBufferChunk :=
  MkChunk (csize c) (take (Z.to_nat pos) (filled c) ++ data).

Definition move_tail_to_new (b : ReadBuffer) (new_size : Z) : res ReadBuffer :=
  nxt ← new_chunk new_size;
  n ← usize (end_ b - last_msg_start b);
  assert_ (n <=? new_size);;
  tail ← get_range (filled (current b)) (last_msg_start b) (end_ b);
  Ok (MkRB (old b) (MkChunk new_size tail) 0 n (msg_queue b)).

Fixpoint extract_loop (fuel : nat) (b : ReadBuffer) : res ReadBuffer :=
  match fuel with
  | O => Panic
  | S fuel =>
      avail ← usize (end_ b - last_msg_start b);
      if avail <? 4 then Ok b else
      msg_len ← get_message_padded_len (filled (current b)) (last_msg_start b);
      if avail <? msg_len then Ok b else
      msg ← get_range (filled (current b)) (last_msg_start b) (last_msg_start b + msg_len);
      extract_loop fuel
        (MkRB (old b) (current b) (last_msg_start b + msg_len) (end_ b) (msg_queue b ++ [msg]))
  end.
(** Each message takes at least four bytes. *)
Definition extract_messages (b : ReadBuffer) : res ReadBuffer :=
  extract_loop (S (length (filled (current b)))) b.

(** The reading functions also return the bytes [readv] delivered, which the Rust code does not
    report: the theorems speak about them. *)
Definition read_with_old (b : ReadBuffer) (readv : Z -> readv_ret) :
  res (bool * bytes * ReadBuffer) :=
  old ← unwrap (old b);
  avail ← usize (end_ b - last_msg_start b);
  assert_ (4 <=? avail);;
  msg_len ← get_message_padded_len (filled old) (last_msg_start b);
  let msg_end := last_msg_start b + msg_len in
  need ← usize (msg_end - end_ b);
  cap2 ← usize (csize (current b) - MAX_NORMAL_MSG_SIZE);
  r ← read_inner (need + cap2) readv;
  let '(eof, data) := r in
  if zlen data <? need then
    (* did not complete the current message *)
    Ok (eof, data, MkRB (Some (fill old (end_ b) data)) (current b) (last_msg_start b)
                     (end_ b + zlen data) (msg_queue b))
  else
    let old := fill old (end_ b) (take (Z.to_nat need) data) in
    let rest := drop (Z.to_nat need) data in
    msg ← get_range (filled old) (last_msg_start b) (last_msg_start b + msg_len);
    b ← extract_messages (MkRB None (fill (current b) 0 rest) 0 (zlen rest) (msg_queue b ++ [msg]));
    Ok (eof, data, b).

(** The second half of [read_more]: read into the current chunk. *)
Definition read_current (b : ReadBuffer) (readv : Z -> readv_ret) :
  res (bool * bytes * ReadBuffer) :=
  room ← usize (csize (current b) - end_ b);
  assert_ (MAX_NORMAL_MSG_SIZE <=? room);;
  cap ← usize (csize (current b) - MAX_NORMAL_MSG_SIZE);
  cap ← usize (cap - end_ b);
  r ← read_inner cap readv;
  let '(eof, data) := r in
  b ← extract_messages (MkRB (old b) (fill (current b) (end_ b) data) (last_msg_start b)
                          (end_ b + zlen data) (msg_queue b));
  Ok (eof, data, b).

Definition read_more (b : ReadBuffer) (readv : Z -> readv_ret) :
  res (bool * bytes * ReadBuffer) :=
  match old b with
  | Some _ => read_with_old b readv
  | None =>
      avail ← usize (end_ b - last_msg_start b);
      let cap := csize (current b) in
      if 4 <=? avail then
        msg_len ← get_message_padded_len (filled (current b)) (last_msg_start b);
        let msg_end := last_msg_start b + msg_len in
        if cap <? msg_end then
          (* oversized message: move it *)
          let new_size := Z.max (2 * msg_len) (4 * MAX_NORMAL_MSG_SIZE) in
          assert_ (msg_len + MAX_NORMAL_MSG_SIZE <? new_size);;
          b ← move_tail_to_new b new_size;
          read_current b readv
        else if cap - msg_end <=? MAX_NORMAL_MSG_SIZE then
          (* complete this message, and start a new chunk *)
          nxt ← new_chunk (4 * MAX_NORMAL_MSG_SIZE);
          read_with_old (MkRB (Some (current b)) nxt (last_msg_start b) (end_ b) (msg_queue b)) readv
        else read_current b readv
      else
        assert_ (last_msg_start b <=? cap);;
        if cap - last_msg_start b <=? MAX_NORMAL_MSG_SIZE then
          b ← move_tail_to_new b (4 * MAX_NORMAL_MSG_SIZE);
          read_current b readv
        else read_current b readv
  end.

Definition pop_next_msg (b : ReadBuffer) : option bytes * ReadBuffer :=
  match msg_queue b with
  | [] => (None, b)
  | m :: q => (Some m, MkRB (old b) (current b) (last_msg_start b) (end_ b) q)
  end.

(** [ReadBufferView::advance] *)
Definition advance (view : bytes) (skip : Z) : res bytes :=
  assert_ (skip mod 4 =? 0);;
  assert_ (skip <=? zlen view);;
  Ok (drop (Z.to_nat skip) view).

(** ** What framing means

    A stream is cut into whole messages and an incomplete rest. *)
Definition whole (m : bytes) : Prop := get_message_padded_len m 0 = Ok (zlen m).
Definition incomplete (s : bytes) : Prop :=
  zlen s < 4 \/ exists n, get_message_padded_len s 0 = Ok n /\ zlen s < n.
Inductive framed : bytes -> list bytes -> bytes -> Prop :=
| framed_stop s : incomplete s -> framed s [] s
| framed_msg m s ms r : whole m -> framed s ms r -> framed (m ++ s) (m :: ms) r.

Lemma padded_len_range base start n :
  get_message_padded_len base start = Ok n ->
  4 <= n <= 2 ^ 27 /\ n mod 4 = 0 /\ 0 <= start /\ start + 4 <= zlen base.
Proof.
  unfold get_message_padded_len. intros H.
  apply bind_Ok in H as (b & Hb & H). apply get_range_Ok in Hb as (?&?&->).
  apply bind_Ok in H as ([len t] & Hp & H). cbn [fst] in H.
  destruct (parse_wmsg_header _) as [[l' t']|] eqn:E; [|done]. injection Hp as -> ->.
  assert (Hl : 0 <= len < 2 ^ 27).
  { unfold parse_wmsg_header in E. destruct (wmsg_of_code _); [|done]. cbn in E. injection E as <- _.
    assert (uN 32 (from_le (slice base start (start + 4)))) as Hu
      by (apply from_le_u32; rewrite zlen_slice; lia). unfold uN in Hu.
    rewrite Z.shiftr_div_pow2 by lia. change (2 ^ 5) with 32. Z.div_mod_to_equations; lia. }
  destruct (Z.ltb_spec len 4); [done|]. rewrite align4_ok in H by lia. injection H as <-.
  unfold div_ceil. Z.div_mod_to_equations; lia.
Qed.
Lemma padded_len_drop base start :
  0 <= start -> get_message_padded_len base start = get_message_padded_len (drop (Z.to_nat start) base) 0.
Proof.
  intros. unfold get_message_padded_len. unfold get_range at 1 2.
  replace (slice (drop (Z.to_nat start) base) 0 (0 + 4)) with (slice base start (start + 4))
    by (unfold slice; rewrite drop_drop; f_equal; [lia|f_equal; lia]).
  replace (range_ok (drop (Z.to_nat start) base) 0 (0 + 4)) with (range_ok base start (start + 4)); [done|].
  unfold range_ok, zlen. rewrite length_drop. apply Bool.eq_iff_eq_true. rewrite !andb_true_iff, !Z.leb_le. lia.
Qed.
Lemma padded_len_app s d : 4 <= zlen s -> get_message_padded_len (s ++ d) 0 = get_message_padded_len s 0.
Proof.
  intros. unfold get_message_padded_len. rewrite !get_range_ok by zlia. cbn [mbind res_bind].
  by rewrite slice_app_l by lia.
Qed.
Lemma padded_len_no_panic s : 4 <= zlen s -> get_message_padded_len s 0 <> Panic.
Proof.
  intros. destruct (get_message_padded_len s 0) eqn:E; try done. exfalso. revert E.
  unfold get_message_padded_len. rewrite get_range_ok by lia. cbn [mbind res_bind].
  destruct (parse_wmsg_header _) as [[l t]|] eqn:Ep; [|done]. cbn [ok_or mbind res_bind fst].
  case_match; [done|].
  assert (uN 32 (from_le (slice s 0 (0 + 4)))) as Hu by (apply from_le_u32; rewrite zlen_slice; lia).
  unfold parse_wmsg_header in Ep. destruct (wmsg_of_code _); [|done]. cbn in Ep. injection Ep as <- _.
  unfold uN in Hu. rewrite Z.shiftr_div_pow2 in * by lia. change (2 ^ 5) with 32 in *.
  rewrite align4_ok by (Z.div_mod_to_equations; lia). done.
Qed.

Lemma framed_concat s ms r : framed s ms r -> s = concat ms ++ r.
Proof. induction 1 as [|m s ms r ? ? ->]; [done|]. cbn. by rewrite app_assoc. Qed.
Lemma framed_rest s ms r : framed s ms r -> incomplete r.
Proof. by induction 1. Qed.
Lemma framed_app s ms p d ms' r :
  framed s ms p -> framed (p ++ d) ms' r -> framed (s ++ d) (ms ++ ms') r.
Proof.
  induction 1; [done|]. intros. rewrite <- app_assoc. cbn. constructor; auto.
Qed.
(** The cut is unique. *)
Lemma framed_det s ms r ms' r' : framed s ms r -> framed s ms' r' -> ms = ms' /\ r = r'.
Proof.
  intros H. revert ms' r'. induction H as [s Hs|m s ms r Hm Hf IH]; intros ms' r' H'.
  - inversion H' as [|m' s' ms'' r'' Hm' ? E]; subst; [done|]. exfalso.
    destruct (padded_len_range _ _ _ Hm') as (?&_&_&?). destruct Hs as [Hs|(n&E&Hs)]; [zlia|].
    rewrite padded_len_app in E by lia. rewrite Hm' in E. injection E as <-. zlia.
  - pose proof (padded_len_range _ _ _ Hm) as (?&_&_&?).
    inversion H' as [s' Hs|m' s' ms'' r'' Hm' Hf' E]; subst.
    + exfalso. destruct Hs as [Hs|(n&E&Hs)]; [zlia|].
      rewrite padded_len_app in E by lia. rewrite Hm in E. injection E as <-. zlia.
    + pose proof (padded_len_range _ _ _ Hm') as (?&_&_&?).
      assert (zlen m = zlen m') as El.
      { apply (f_equal (fun s => get_message_padded_len s 0)) in E.
        rewrite !padded_len_app in E by lia. rewrite Hm, Hm' in E. congruence. }
      apply app_inj_1 in E as [-> ->]; [|unfold zlen in El; lia].
      destruct (IH _ _ Hf') as [-> ->]. done.
Qed.

Lemma bad_header_not_framed s e : 4 <= zlen s -> get_message_padded_len s 0 = Err e ->
  forall ms r, ~ framed s ms r.
Proof.
  intros Hs He ms r Hf. inversion Hf as [s' [Hi|(n&Hn&_)]|m s' ms' r' Hm _]; subst; [lia|congruence|].
  pose proof (padded_len_range _ _ _ Hm) as (?&_&_&?).
  rewrite padded_len_app in He by lia. unfold whole in Hm. congruence.
Qed.
Lemma framed_tail m s ms r : whole m -> framed (m ++ s) ms r -> exists ms', framed s ms' r.
Proof.
  intros Hm Hf. pose proof (padded_len_range _ _ _ Hm) as (?&_&_&?).
  inversion Hf as [s' [Hi|(n&E&Hi)]|m' s' ms' r' Hm' Hf' E]; subst.
  - zlia.
  - rewrite padded_len_app in E by lia. rewrite Hm in E. injection E as <-. zlia.
  - pose proof (padded_len_range _ _ _ Hm') as (?&_&_&?).
    assert (zlen m = zlen m') as El.
    { apply (f_equal (fun s => get_message_padded_len s 0)) in E.
      rewrite !padded_len_app in E by lia. rewrite Hm, Hm' in E. congruence. }
    apply app_inj_1 in E as [-> ->]; [|unfold zlen in El; lia]. eauto.
Qed.

(** The unread part of a chunk. *)
Definition from (p : Z) (s : bytes) : bytes := drop (Z.to_nat p) s.
Lemma zlen_from p s : 0 <= p <= zlen s -> zlen (from p s) = zlen s - p.
Proof. unfold from, zlen. rewrite length_drop. lia. Qed.
Lemma from_split s p n :
  0 <= p -> 0 <= n -> p + n <= zlen s -> from p s = slice s p (p + n) ++ from (p + n) s.
Proof.
  intros. unfold from, slice. replace (p + n - p) with n by lia.
  replace (Z.to_nat (p + n)) with (Z.to_nat p + Z.to_nat n)%nat by lia.
  by rewrite <- drop_drop, take_drop.
Qed.
Lemma from_app p s d : 0 <= p <= zlen s -> from p (s ++ d) = from p s ++ d.
Proof. intros. unfold from. apply drop_app_le. unfold zlen in *. lia. Qed.

Lemma extract_loop_ok : forall fuel b,
  let s := filled (current b) in
  zlen s = end_ b -> 0 <= last_msg_start b <= end_ b -> last_msg_start b mod 4 = 0 ->
  end_ b < 2 ^ 64 -> (length (from (last_msg_start b) s) < fuel)%nat ->
  (exists e, extract_loop fuel b = Err e /\
     forall ms r, ~ framed (from (last_msg_start b) s) ms r) \/
  (exists ms last', extract_loop fuel b =
       Ok (MkRB (old b) (current b) last' (end_ b) (msg_queue b ++ ms)) /\
     last_msg_start b <= last' <= end_ b /\ last' mod 4 = 0 /\
     framed (from (last_msg_start b) s) ms (from last' s)).
Proof.
  induction fuel as [|fuel IH]; intros b s Hs Hl Hm He Hf; [lia|]. cbn [extract_loop].
  rewrite chk_in by (unfold uN; lia). cbn [mbind res_bind].
  assert (Hz : zlen (from (last_msg_start b) s) = end_ b - last_msg_start b) by (rewrite zlen_from; lia).
  destruct (Z.ltb_spec (end_ b - last_msg_start b) 4).
  { right. exists [], (last_msg_start b). rewrite app_nil_r. destruct b; split_and!; try done; try lia.
    constructor. left. lia. }
  fold s. rewrite padded_len_drop by lia. fold (from (last_msg_start b) s).
  pose proof (padded_len_no_panic (from (last_msg_start b) s) ltac:(lia)) as Hnp.
  destruct (get_message_padded_len _ 0) as [n|e|] eqn:En; [| |done]; cbn [mbind res_bind].
  2:{ left. exists e. split; [done|]. eapply bad_header_not_framed; [lia|done]. }
  destruct (padded_len_range _ _ _ En) as (?&?&_&_).
  destruct (Z.ltb_spec (end_ b - last_msg_start b) n).
  { right. exists [], (last_msg_start b). rewrite app_nil_r. destruct b; split_and!; try done; try lia.
    constructor. right. exists n. split; [done|lia]. }
  rewrite get_range_ok by lia. cbn [mbind res_bind].
  set (msg := slice s (last_msg_start b) (last_msg_start b + n)).
  assert (Hmsg : zlen msg = n) by (unfold msg; rewrite zlen_slice; lia).
  assert (Hsplit : from (last_msg_start b) s = msg ++ from (last_msg_start b + n) s)
    by (apply from_split; lia).
  assert (Hwhole : whole msg).
  { unfold whole. rewrite <- (padded_len_app msg (from (last_msg_start b + n) s)) by lia.
    rewrite <- Hsplit. by rewrite En, Hmsg. }
  destruct (IH (MkRB (old b) (current b) (last_msg_start b + n) (end_ b) (msg_queue b ++ [msg])))
    as [(e&->&Hbad)|(ms&last'&->&?&?&Hfr)]; cbn [current last_msg_start end_ msg_queue old]; fold s;
    try done; try lia.
  - Z.div_mod_to_equations; lia.
  - rewrite Hsplit, length_app in Hf. unfold zlen in Hmsg. lia.
  - left. exists e. split; [done|]. intros ms r Hfr. rewrite Hsplit in Hfr.
    destruct (framed_tail _ _ _ _ Hwhole Hfr) as [ms' Hfr']. by apply (Hbad ms' r).
  - cbn [last_msg_start end_ current msg_queue old] in *. right. exists (msg :: ms), last'. rewrite <- app_assoc. split_and!; try done; try lia.
    rewrite Hsplit. by constructor.
Qed.

(** ** Invariant *)
(** The chunk that holds the message in progress. *)
Definition active (b : ReadBuffer) : ReadBufferChunk :=
  match old b with Some c => c | None => current b end.
Definition pending (b : ReadBuffer) : bytes := from (last_msg_start b) (filled (active b)).
Definition chunk_ok (c : ReadBufferChunk) : Prop :=
  4 * MAX_NORMAL_MSG_SIZE <= csize c <= 2 ^ 28 /\ csize c mod 4 = 0.

Record rb_inv (b : ReadBuffer) : Prop := {
  rb_chunks : chunk_ok (active b) /\ chunk_ok (current b);
  rb_filled : zlen (filled (active b)) = end_ b;
  rb_order : 0 <= last_msg_start b <= end_ b;
  rb_end : end_ b <= csize (active b);
  rb_align : last_msg_start b mod 4 = 0;
  rb_pending : incomplete (pending b);
  (** [old] is kept only to complete a message that fits it *)
  rb_old : old b <> None -> exists n, get_message_padded_len (pending b) 0 = Ok n /\
    last_msg_start b + n <= csize (active b);
}.

Lemma max_msg : MAX_NORMAL_MSG_SIZE = 262144.
Proof. done. Qed.

Lemma new_inv b : new = Ok b -> rb_inv b /\ pending b = [] /\ msg_queue b = [].
Proof.
  intros [= <-]. split; [|done]. split; cbn; try done; try (vm_compute; split; congruence).
  left. by vm_compute.
Qed.

(** What the kernel promises: at most as many bytes as asked for. *)
Definition readv_ok (readv : Z -> readv_ret) : Prop :=
  forall t d, 0 < t -> readv t = Read d -> zlen d <= t.
Definition bytes_of (r : readv_ret) : bytes := match r with Read d => d | _ => [] end.
Definition eof_of (r : readv_ret) : bool :=
  match r with Read d => zlen d =? 0 | ECONNRESET => true | _ => false end.

Lemma read_inner_cases t readv :
  0 < t -> readv_ok readv ->
  (readv t = EOTHER /\ exists e, read_inner t readv = Err e) \/
  (read_inner t readv = Ok (eof_of (readv t), bytes_of (readv t)) /\ zlen (bytes_of (readv t)) <= t).
Proof.
  intros Ht Hr. unfold read_inner. rewrite assert_true by lia. cbn [mbind res_bind].
  specialize (Hr t). destruct (readv t); [|right..|left; eauto]; try (split; [done|unfold bytes_of; rewrite zlen_nil; lia]).
  right. split; [done|]. by apply Hr.
Qed.

(** What one call must do: read some bytes [d] and cut what was pending with them. *)
Definition read_post (b : ReadBuffer) (readv : Z -> readv_ret) (r : res (bool * bytes * ReadBuffer)) : Prop :=
  exists t, 0 < t /\
  match r with
  | Ok (eof, d, b') =>
      rb_inv b' /\ eof = eof_of (readv t) /\ d = bytes_of (readv t) /\
      exists ms, msg_queue b' = msg_queue b ++ ms /\ framed (pending b ++ d) ms (pending b')
  | Err _ => readv t = EOTHER \/ forall ms p, ~ framed (pending b ++ bytes_of (readv t)) ms p
  | Panic => False
  end.

Lemma extract_ok b q eof d t readv :
  eof = eof_of (readv t) -> 0 < t ->
  old b = None -> chunk_ok (current b) -> zlen (filled (current b)) = end_ b ->
  0 <= last_msg_start b <= end_ b -> end_ b <= csize (current b) -> last_msg_start b mod 4 = 0 ->
  bytes_of (readv t) = d ->
  forall (b0 : ReadBuffer) ms0, pending b0 ++ d = concat ms0 ++ from (last_msg_start b) (filled (current b)) ->
  Forall whole ms0 -> msg_queue b = q ++ ms0 -> msg_queue b0 = q ->
  read_post b0 readv (b ← extract_messages b; Ok (eof, d, b)).
Proof.
  intros -> Ht Hold Hc Hf Hl He Ha Hd b0 ms0 Hp Hms0 Hq Hq0. exists t. split; [done|].
  assert (Hfr : forall ms r, framed (from (last_msg_start b) (filled (current b))) ms r ->
    framed (pending b0 ++ d) (ms0 ++ ms) r).
  { intros ms r Hr. rewrite Hp. clear Hp Hq. induction Hms0; [done|].
    cbn. rewrite <- app_assoc. by constructor. }
  assert (Hbk : forall ms r, framed (pending b0 ++ d) ms r ->
    exists ms', framed (from (last_msg_start b) (filled (current b))) ms' r).
  { intros ms r Hr. rewrite Hp in Hr. clear Hp Hq Hfr. revert ms Hr.
    induction Hms0 as [|m ms1 Hm _ IH]; intros ms Hr; [eauto|].
    cbn in Hr. rewrite <- app_assoc in Hr. apply framed_tail in Hr as [ms' Hr]; [|done]. eauto. }
  destruct Hc as [[Hc1 Hc2] Hc4]. unfold extract_messages.
  destruct (extract_loop_ok (S (length (filled (current b)))) b) as [(e&->&Hbad)|(ms&l'&->&?&?&Hms)];
    try done; try lia.
  - unfold from. rewrite length_drop. lia.
  - cbn [mbind res_bind]. right. rewrite Hd. intros ms p Hr. destruct (Hbk _ _ Hr) as [ms' Hr'].
    by apply (Hbad ms' p).
  - cbn [mbind res_bind]. split; [|split; [done|split; [done|]]].
    + rewrite Hold. split; unfold active, pending; cbn; try done; try lia.
      unfold active; cbn. by eapply framed_rest.
    + exists (ms0 ++ ms). cbn. rewrite Hq, Hq0, <- app_assoc. split; [done|].
      unfold pending, active; cbn. rewrite Hold. by apply Hfr.
Qed.

Lemma read_post_same b b0 readv r :
  pending b = pending b0 -> msg_queue b = msg_queue b0 -> read_post b readv r -> read_post b0 readv r.
Proof. intros Hp Hq. unfold read_post. by rewrite Hp, Hq. Qed.

Lemma fill_end c d : filled (fill c (zlen (filled c)) d) = filled c ++ d.
Proof. cbn. unfold zlen. by rewrite Nat2Z.id, firstn_all. Qed.

Lemma read_current_ok b readv :
  rb_inv b -> old b = None -> MAX_NORMAL_MSG_SIZE < csize (current b) - end_ b -> readv_ok readv ->
  read_post b readv (read_current b readv).
Proof.
  intros [[_ Hc] Hf Ho He Ha Hp _] Hold Hroom Hr. unfold active in *. rewrite Hold in *.
  pose proof Hc as [[? ?] ?]. rewrite max_msg in *. unfold read_current. rewrite max_msg.
  mok. set (cap := csize (current b) - 262144 - end_ b). assert (Ht : 0 < cap) by (unfold cap; lia).
  destruct (read_inner_cases cap readv Ht Hr) as [[E [e ->]]|[-> Hlen]]; cbn [mbind res_bind].
  { exists cap. split; [done|]. by left. }
  set (d := bytes_of (readv cap)) in *. zlen_pos.
  eapply (extract_ok _ (msg_queue b) _ d cap readv) with (ms0 := []); try done;
    cbn [current last_msg_start end_ msg_queue old csize fill]; try lia.
  - rewrite <- Hf at 1. rewrite fill_end. zlia.
  - cbn [concat app]. rewrite <- Hf at 1. rewrite fill_end, from_app by lia.
    unfold pending, active. by rewrite Hold.
  - by rewrite app_nil_r.
Qed.

Lemma read_with_old_ok b o readv :
  rb_inv b -> old b = Some o -> readv_ok readv -> read_post b readv (read_with_old b readv).
Proof.
  intros [[Hc1 Hc2] Hf Ho He Ha Hp Hn] Hold Hr. destruct Hn as (n & Hn & Hfit); [by rewrite Hold|].
  unfold pending, active in *. rewrite Hold in *. cbn [mbind] in *.
  pose proof Hc1 as [[? ?] ?]. pose proof Hc2 as [[? ?] ?]. rewrite max_msg in *.
  assert (Hz : zlen (from (last_msg_start b) (filled o)) = end_ b - last_msg_start b)
    by (rewrite zlen_from; lia).
  destruct (padded_len_range _ _ _ Hn) as (?&?&_&?).
  assert (Hlt : end_ b - last_msg_start b < n).
  { destruct Hp as [?|(n'&E&?)]; [lia|]. rewrite Hn in E. injection E as <-. lia. }
  unfold read_with_old. rewrite Hold. cbn [unwrap mbind res_bind].
  mok. rewrite padded_len_drop by lia. fold (from (last_msg_start b) (filled o)).
  rewrite Hn. cbn [mbind res_bind]. rewrite max_msg. mok.
  set (need := last_msg_start b + n - end_ b). set (cap := need + (csize (current b) - 262144)).
  assert (Hneed : 0 < need) by (unfold need; lia). assert (Ht : 0 < cap) by (unfold cap; lia).
  destruct (read_inner_cases cap readv Ht Hr) as [[E [e ->]]|[-> Hlen]]; cbn [mbind res_bind].
  { exists cap. split; [done|]. by left. }
  set (d := bytes_of (readv cap)) in *. zlen_pos.
  destruct (Z.ltb_spec (zlen d) need) as [Hpart|Hfull].
  - exists cap. split; [done|].
    assert (Hp' : pending (MkRB (Some (fill o (end_ b) d)) (current b) (last_msg_start b)
      (end_ b + zlen d) (msg_queue b)) = from (last_msg_start b) (filled o) ++ d).
    { unfold pending, active; cbn [old last_msg_start]. rewrite <- Hf at 1.
      by rewrite fill_end, from_app by lia. }
    assert (Hn' : get_message_padded_len (from (last_msg_start b) (filled o) ++ d) 0 = Ok n)
      by by rewrite padded_len_app by lia.
    assert (Hinc : incomplete (from (last_msg_start b) (filled o) ++ d))
      by (right; exists n; split; [done|zlia]).
    split; [|split; [done|split; [done|]]].
    + split; try rewrite Hp'; unfold active; cbn [old current last_msg_start end_ csize fill]; try done; try lia.
      * rewrite <- Hf at 1. rewrite fill_end. zlia.
      * intros _. exists n. by split.
    + exists []. cbn [msg_queue]. rewrite app_nil_r. split; [done|]. rewrite Hp'.
      unfold pending, active. rewrite Hold. by constructor.
  - set (d1 := take (Z.to_nat need) d). set (rest := drop (Z.to_nat need) d).
    assert (Hd : d = d1 ++ rest) by (unfold d1, rest; by rewrite take_drop).
    assert (Hd1 : zlen d1 = need) by (unfold d1, zlen in *; rewrite length_take; lia).
    rewrite <- Hf at 1. rewrite fill_end. rewrite get_range_ok by zlia. cbn [mbind res_bind].
    assert (Hmsg : slice (filled o ++ d1) (last_msg_start b) (last_msg_start b + n)
      = from (last_msg_start b) (filled o) ++ d1).
    { rewrite <- from_app by lia. rewrite (from_split _ _ n) by zlia.
      replace (from (last_msg_start b + n) (filled o ++ d1)) with (@nil byte); [by rewrite app_nil_r|].
      symmetry. apply zlen_zero_nil. rewrite zlen_from by zlia. zlia. }
    rewrite Hmsg. assert (zlen rest = zlen d - need) by (rewrite Hd, zlen_app; lia). zlen_pos.
    eapply (extract_ok _ (msg_queue b) _ d cap readv)
      with (ms0 := [from (last_msg_start b) (filled o) ++ d1]); try done;
      cbn [current last_msg_start end_ msg_queue old csize fill filled]; try lia.
    + cbn [concat].
      rewrite take_0, app_nil_r. cbn [app]. unfold pending, active, from at 3. rewrite Hold.
      cbn [drop Z.to_nat]. rewrite <- app_assoc, Hd. done.
    + constructor; [|constructor]. unfold whole. rewrite padded_len_app by lia. rewrite Hn. f_equal. zlia.
Qed.

Lemma move_tail_ok b new_size :
  rb_inv b -> old b = None -> chunk_ok (MkChunk new_size []) -> end_ b - last_msg_start b <= new_size ->
  exists b', move_tail_to_new b new_size = Ok b' /\ rb_inv b' /\ old b' = None /\
    pending b' = pending b /\ msg_queue b' = msg_queue b /\ csize (current b') = new_size /\
    end_ b' = end_ b - last_msg_start b.
Proof.
  intros [[_ Hc] Hf Ho He Ha Hp _] Hold [[Hn1 Hn2] Hn4] Hfit.
  unfold pending, active in *. rewrite Hold in *. destruct Hc as [[? ?] ?]. cbn [csize] in *.
  rewrite max_msg in *. unfold move_tail_to_new, new_chunk. mok.
  assert (Htail : slice (filled (current b)) (last_msg_start b) (end_ b) = from (last_msg_start b) (filled (current b))).
  { unfold slice, from. apply take_ge. rewrite length_drop. unfold zlen in *. lia. }
  rewrite Htail, Hold. eexists; split; [done|]. split_and!; try done.
  split; unfold pending, active, chunk_ok; cbn [old current csize filled last_msg_start end_]; rewrite ?max_msg;
    try done; try lia. rewrite zlen_from; lia.
Qed.

Lemma read_more_ok b readv : rb_inv b -> readv_ok readv -> read_post b readv (read_more b readv).
Proof.
  intros Hi Hr. pose proof Hi as [[Hc1 Hc2] Hf Ho He Ha Hp Hn]. unfold read_more.
  destruct (old b) as [o|] eqn:Hold; [by eapply read_with_old_ok|].
  pose proof Hp as Hp'. unfold pending, active in Hf, He, Hp', Hn. rewrite Hold in *.
  pose proof Hc2 as [[? ?] ?]. rewrite max_msg in *.
  assert (Hz : zlen (from (last_msg_start b) (filled (current b))) = end_ b - last_msg_start b)
    by (rewrite zlen_from; lia).
  rewrite chk_in by (unfold uN; lia). cbn [mbind res_bind].
  assert (Hmove : forall new_size, 4 * 262144 <= new_size <= 2 ^ 28 -> new_size mod 4 = 0 ->
    end_ b - last_msg_start b + 262144 < new_size ->
    read_post b readv (b ← move_tail_to_new b new_size; read_current b readv)).
  { intros ns Hns Hns4 Hfit. destruct (move_tail_ok b ns) as (b'&->&Hi'&Hold'&Hpend'&Hq'&Hs'&He'); try done.
    - lia.
    - cbn [mbind res_bind]. eapply read_post_same; [exact Hpend'|exact Hq'|].
      apply read_current_ok; try done. rewrite max_msg. lia. }
  destruct (Z.leb_spec 4 (end_ b - last_msg_start b)).
  - rewrite padded_len_drop by lia. fold (from (last_msg_start b) (filled (current b))).
    destruct Hp' as [Hp'|(n&En&Hlt)]; [lia|]. rewrite En. cbn [mbind res_bind].
    destruct (padded_len_range _ _ _ En) as (?&?&_&_).
    destruct (Z.ltb_spec (csize (current b)) (last_msg_start b + n)).
    + rewrite assert_true by lia. cbn [mbind res_bind]. apply Hmove; [lia| |lia].
      destruct (Z.max_spec (2 * n) (4 * 262144)) as [[_ ->]|[_ ->]]; [done|Z.div_mod_to_equations; lia].
    + destruct (Z.leb_spec (csize (current b) - (last_msg_start b + n)) 262144).
      * unfold new_chunk. rewrite assert_true by lia. cbn [mbind res_bind].
        eapply (read_post_same (MkRB (Some (current b)) (MkChunk (4 * 262144) []) (last_msg_start b) (end_ b) (msg_queue b)));
          [unfold pending, active; by rewrite Hold|done|].
        eapply read_with_old_ok; try done.
        split; unfold pending, active, chunk_ok; cbn [old current csize filled last_msg_start end_];
          rewrite ?max_msg; try done; try lia; [by right; exists n|]. intros _. exists n. by split.
      * apply read_current_ok; try done. rewrite max_msg. lia.
  - rewrite assert_true by lia. cbn [mbind res_bind].
    destruct (Z.leb_spec (csize (current b) - last_msg_start b) 262144).
    + apply Hmove; [lia|done|lia].
    + apply read_current_ok; try done. rewrite max_msg. Z.div_mod_to_equations; lia.
Qed.

(** ** Any sequence of reads and pops *)
Inductive event := EvRead (readv : Z -> readv_ret) | EvPop.

(** The bytes received, the messages popped, and the buffer, after a run. *)
Inductive run : ReadBuffer -> list event -> bytes -> list bytes -> ReadBuffer -> Prop :=
| run_nil b : run b [] [] [] b
| run_read b readv eof d b' evs ds ms b'' :
    readv_ok readv -> read_more b readv = Ok (eof, d, b') ->
    run b' evs ds ms b'' -> run b (EvRead readv :: evs) (d ++ ds) ms b''
| run_pop b b' evs ds m ms b'' :
    pop_next_msg b = (Some m, b') -> run b' evs ds ms b'' -> run b (EvPop :: evs) ds (m :: ms) b''
| run_pop_none b evs ds ms b'' :
    pop_next_msg b = (None, b) -> run b evs ds ms b'' -> run b (EvPop :: evs) ds ms b''.

Lemma run_ok b evs ds ms b' :
  run b evs ds ms b' -> rb_inv b ->
  rb_inv b' /\ exists new, framed (pending b ++ ds) new (pending b') /\
    ms ++ msg_queue b' = msg_queue b ++ new.
Proof.
  induction 1 as [b|b readv eof d b1 evs ds ms b2 Hr E Hrun IH|b b1 evs ds m ms b2 E Hrun IH
    |b evs ds ms b2 E Hrun IH]; intros Hi.
  - split; [done|]. exists []. rewrite !app_nil_r. split; [|done]. constructor. apply Hi.
  - pose proof (read_more_ok b readv Hi Hr) as (t&_&P). rewrite E in P.
    destruct P as (Hi1&_&_&new1&Hq&Hf). destruct (IH Hi1) as (Hi2&new2&Hf2&Hq2).
    split; [done|]. exists (new1 ++ new2). rewrite app_assoc. split; [by eapply framed_app|].
    by rewrite Hq2, Hq, app_assoc.
  - unfold pop_next_msg in E. destruct (msg_queue b) as [|m' q] eqn:Hq; [done|].
    injection E as <- <-. destruct (IH) as (Hi2&new&Hf&Hq2).
    { destruct Hi. by split. }
    split; [done|]. exists new. split; [done|]. cbn in *. by rewrite Hq2.
  - by apply IH.
Qed.

(** C31: starting from a new buffer, after any sequence of reads (of any length, in any pieces the
    kernel chooses) and pops, the messages popped and queued are exactly the whole messages of
    the byte stream received, in order, and the pending bytes are the incomplete rest. *)
Theorem read_buffer_frames (b0 b : ReadBuffer) (evs : list event) (ds : bytes) (ms : list bytes) :
  new = Ok b0 -> run b0 evs ds ms b -> framed ds (ms ++ msg_queue b) (pending b).
Proof.
  intros Hn Hrun. destruct (new_inv _ Hn) as (Hi&Hp&Hq).
  destruct (run_ok _ _ _ _ _ Hrun Hi) as (_&new&Hf&Hm). rewrite Hp in Hf. rewrite Hq in Hm.
  cbn in *. by rewrite Hm.
Qed.

(** in every state a run can reach, reading more never panics, and fails only when [readv]
    fails or the stream has an invalid message header. *)
Theorem read_buffer_total (b0 b : ReadBuffer) (evs : list event) (ds : bytes) (ms : list bytes)
    (readv : Z -> readv_ret) :
  new = Ok b0 -> run b0 evs ds ms b -> readv_ok readv ->
  match read_more b readv with
  | Ok (eof, d, b') => eof = true -> d = []
  | Err _ => exists t, readv t = EOTHER \/ forall ms' p, ~ framed (ds ++ bytes_of (readv t)) ms' p
  | Panic => False
  end.
Proof.
  intros Hn Hrun Hr. destruct (new_inv _ Hn) as (Hi&Hp&Hq).
  destruct (run_ok _ _ _ _ _ Hrun Hi) as (Hi'&new&Hf&Hm). rewrite Hp in Hf. cbn in Hf.
  pose proof (read_more_ok b readv Hi' Hr) as (t&_&P).
  destruct (read_more b readv) as [[[eof d] b']|e|]; [| |done].
  - destruct P as (_&->&->&_). unfold eof_of, bytes_of. destruct (readv t); try done.
    intros E. apply zlen_zero_nil. lia.
  - exists t. destruct P as [P|P]; [by left|]. right. intros ms' p Hfr.
    assert (Hpre : forall s l r, framed s l r -> forall d ms p, framed (s ++ d) ms p -> exists ms2, framed (r ++ d) ms2 p).
    { clear. induction 1 as [|m s l r Hw _ IH]; intros d ms p Hf; [eauto|].
      rewrite <- app_assoc in Hf. apply framed_tail in Hf as [ms2 Hf]; eauto. }
    destruct (Hpre _ _ _ Hf _ _ _ Hfr) as [ms2 Hf2]. by apply (P ms2 p).
Qed.

(** A kernel with six bytes to deliver: a [Close] message and half of a header. *)
Definition six_bytes : bytes := [Byte.x92; Byte.x00; Byte.x00; Byte.x00; Byte.x92; Byte.x00].
Definition six_readv (t : Z) : readv_ret := Read (take (Z.to_nat t) six_bytes).
Lemma six_readv_ok : readv_ok six_readv.
Proof. intros t d Ht [= <-]. unfold zlen. rewrite length_take. lia. Qed.
Definition six_start : ReadBuffer := MkRB None (MkChunk 1048576 []) 0 0 [].
Definition six_end : ReadBuffer := MkRB None (MkChunk 1048576 six_bytes) 4 6 [].
Lemma six_run : run six_start [EvRead six_readv; EvPop] (six_bytes ++ []) [take 4 six_bytes] six_end.
Proof.
  eapply run_read; [apply six_readv_ok|reflexivity|].
  eapply run_pop; [reflexivity|]. apply run_nil.
Qed.
Lemma read_buffer_frames_witness :
  new = Ok six_start /\ framed (six_bytes ++ []) ([take 4 six_bytes] ++ []) [Byte.x92; Byte.x00].
Proof.
  split; [reflexivity|].
  exact (read_buffer_frames six_start six_end _ _ _ ltac:(reflexivity) six_run).
Defined.
Lemma read_buffer_total_witness :
  match read_more six_end six_readv with
  | Ok (eof, d, b') => eof = true -> d = []
  | Err _ => exists t, six_readv t = EOTHER \/
      forall ms' p, ~ framed ((six_bytes ++ []) ++ bytes_of (six_readv t)) ms' p
  | Panic => False
  end.
Proof.
  exact (read_buffer_total six_start six_end _ _ _ six_readv ltac:(reflexivity) six_run six_readv_ok).
Defined.
