(* ===== verification/Wire.v ===== *)
(** * [src/wayland.rs]: the Wayland wire format

    A parser takes the unread tail of a message and returns the value and the rest; a writer
    takes the unwritten tail of a buffer and returns the bytes it wrote and the tail after
    them, the memory being the first followed by the second. *)
From Stdlib Require Import ZArith Lia.
From S2P Require Import Prelude.
Local Open Scope Z_scope.

Definition PARSE_ERROR : string := "Failed to parse message".

(** ** Parsing *)
Definition parse_u32 (msg_tail : bytes) : res (Z * bytes) :=
  if zlen msg_tail <? 4 then Err PARSE_ERROR else
  b ← get_range msg_tail 0 4;
  rest ← get_from msg_tail 4;
  Ok (from_le b, rest).
Definition parse_obj (msg_tail : bytes) : res (Z * bytes) := parse_u32 msg_tail.
Definition parse_i32 (msg_tail : bytes) : res (Z * bytes) :=
  if zlen msg_tail <? 4 then Err PARSE_ERROR else
  b ← get_range msg_tail 0 4;
  rest ← get_from msg_tail 4;
  Ok (from_le_i32 b, rest).

(** [x.checked_next_multiple_of(4)] *)
Definition next_multiple_of_4 (x : Z) : option Z :=
  if x mod 4 =? 0 then Some x else checked 64 (x + (4 - x mod 4)).

Definition parse_array (msg_tail : bytes) : res (bytes * bytes) :=
  if zlen msg_tail <? 4 then Err PARSE_ERROR else
  b ← get_range msg_tail 0 4;
  let length := from_le b in
  space ← ok_or PARSE_ERROR (next_multiple_of_4 length);
  if zlen msg_tail - 4 <? space then Err PARSE_ERROR else
  ret ← get_range msg_tail 4 (4 + length);
  rest ← get_from msg_tail (4 + space);
  Ok (ret, rest).
Definition parse_string (msg_tail : bytes) : res (option bytes * bytes) :=
  vr ← parse_array msg_tail;
  let '(v, rest) := vr in
  if zlen v =? 0 then Ok (None, rest)
  else s ← get_range v 0 (zlen v - 1); Ok (Some s, rest).

(** Object id, length and opcode of a message header. *)
Definition parse_wl_header (msg : bytes) : res (Z * Z * Z) :=
  a ← get_range msg 0 4;
  b ← get_range msg 4 8;
  let x := from_le b in
  Ok (from_le a, Z.shiftr x 16, Z.land x 255).

(** ** Lengths *)
Definition length_array (arr_len : Z) : Z :=
  sat 64 (default usize_max (next_multiple_of_4 arr_len) + 4).
Definition length_string (str_len_unterminated : Z) : Z := length_array (sat 64 (str_len_unterminated + 1)).

(** ** Writing *)
(** [tail[..n].copy_from_slice(b)] and advance by [n = b.len()] *)
Definition put (tail b : bytes) : res (bytes * bytes) :=
  t ← set_range tail 0 (zlen b) b;
  rest ← get_from t (zlen b);
  Ok (b, rest).

Definition write_u32 (tail : bytes) (val : Z) : res (bytes * bytes) := put tail (to_le 4 val).
Definition write_obj (tail : bytes) (val : Z) : res (bytes * bytes) := write_u32 tail val.
Definition write_i32 (tail : bytes) (val : Z) : res (bytes * bytes) := put tail (to_le 4 val).

Definition write_header (tail : bytes) (obj_id length opcode ntagfds : Z) : res (bytes * bytes) :=
  let id := to_le 4 obj_id in
  assert_ ((length <? Z.shiftl 1 16) && (ntagfds <? Z.shiftl 1 5) && (opcode <? Z.shiftl 1 8));;
  let p := to_le 4 (Z.lor (Z.lor (Z.shiftl length 16) (Z.shiftl ntagfds 11)) (Z.land opcode 255)) in
  t ← set_range tail 0 4 id;
  t ← set_range t 4 8 p;
  rest ← get_from t 8;
  Ok (id ++ p, rest).

(** Length word, bytes, zeros up to [e]. *)
Definition put_padded (tail : bytes) (len : Z) (s : bytes) (e : Z) : res (bytes * bytes) :=
  t ← set_range tail 0 4 (to_le 4 len);
  t ← set_range t 4 (zlen s + 4) s;
  t ← set_range t (zlen s + 4) e (replicate (Z.to_nat (e - (zlen s + 4))) Byte.x00);
  w ← get_range t 0 e;
  rest ← get_from t e;
  Ok (w, rest).
Definition write_array (tail s : bytes) : res (bytes * bytes) :=
  put_padded tail (wrap 32 (zlen s)) s (length_array (zlen s)).
Definition write_string (tail : bytes) (os : option bytes) : res (bytes * bytes) :=
  match os with
  | Some s => l ← u32 (wrap 32 (zlen s) + 1); put_padded tail l s (length_string (zlen s))
  | None => put tail (replicate 4 Byte.x00)
  end.

(** ** Methods *)
Inductive MethodId := Event (x : Z) | Request (x : Z).
Definition code (m : MethodId) : Z := match m with Event x => x | Request x => x end.
Definition method_fmt (m : MethodId) : string :=
  match m with
  | Event x => "e" +:+ show_u x
  | Request x => "r" +:+ show_u x
  end.

(** ** Messages as the generated code builds them: a header and a list of arguments *)
Inductive argument :=
| AUint (v : Z) | AInt (v : Z) | AObj (v : Z) | AString (v : option bytes) | AArray (v : bytes).
Inductive argument_type := TUint | TInt | TObj | TString | TArray.

Definition type_of (a : argument) : argument_type :=
  match a with
  | AUint _ => TUint | AInt _ => TInt | AObj _ => TObj | AString _ => TString | AArray _ => TArray
  end.
Definition write_arg (tail : bytes) (a : argument) : res (bytes * bytes) :=
  match a with
  | AUint v => write_u32 tail v
  | AInt v => write_i32 tail v
  | AObj v => write_obj tail v
  | AString v => write_string tail v
  | AArray v => write_array tail v
  end.
Definition parse_arg (tail : bytes) (t : argument_type) : res (argument * bytes) :=
  match t with
  | TUint => r ← parse_u32 tail; Ok (AUint r.1, r.2)
  | TInt => r ← parse_i32 tail; Ok (AInt r.1, r.2)
  | TObj => r ← parse_obj tail; Ok (AObj r.1, r.2)
  | TString => r ← parse_string tail; Ok (AString r.1, r.2)
  | TArray => r ← parse_array tail; Ok (AArray r.1, r.2)
  end.
Fixpoint write_args (tail : bytes) (l : list argument) : res (bytes * bytes) :=
  match l with
  | [] => Ok ([], tail)
  | a :: l =>
      w ← write_arg tail a;
      ws ← write_args w.2 l;
      Ok (w.1 ++ ws.1, ws.2)
  end.
Fixpoint parse_args (tail : bytes) (l : list argument_type) : res (list argument * bytes) :=
  match l with
  | [] => Ok ([], tail)
  | t :: l =>
      a ← parse_arg tail t;
      rest ← parse_args a.2 l;
      Ok (a.1 :: rest.1, rest.2)
  end.

(** Length of an argument on the wire, as [length_evt_*]/[length_req_*] add it up. *)
Definition arg_length (a : argument) : Z :=
  match a with
  | AUint _ | AInt _ | AObj _ => 4
  | AString None => 4
  | AString (Some s) => length_string (zlen s)
  | AArray v => length_array (zlen v)
  end.
Definition args_length (l : list argument) : Z := foldr (fun a n => arg_length a + n) 0 l.
Definition arg_ok (a : argument) : Prop :=
  match a with
  | AUint v | AObj v => uN 32 v
  | AInt v => iN 32 v
  | AString None => True
  | AString (Some s) => zlen s + 1 < 2 ^ 32
  | AArray v => zlen v < 2 ^ 32
  end.

(** ** Round trips *)
Definition pad4 (n : Z) : Z := 4 * div_ceil n 4.
Lemma next_multiple_of_4_ok x : 0 <= x -> x + 4 <= 2 ^ 64 -> next_multiple_of_4 x = Some (pad4 x).
Proof.
  intros. unfold next_multiple_of_4, pad4, div_ceil.
  destruct (Z.eqb_spec (x mod 4) 0); [f_equal; Z.div_mod_to_equations; lia|].
  rewrite (proj2 (checked_Some 64 _ (x + (4 - x mod 4)))); [|split; [done|]].
  - f_equal. Z.div_mod_to_equations; lia.
  - unfold uN. Z.div_mod_to_equations; lia.
Qed.
Lemma pad4_spec n : n <= pad4 n < n + 4 /\ pad4 n mod 4 = 0.
Proof. unfold pad4, div_ceil. Z.div_mod_to_equations; lia. Qed.
Lemma length_array_ok n : 0 <= n < 2 ^ 32 -> length_array n = pad4 n + 4.
Proof.
  intros. unfold length_array. rewrite next_multiple_of_4_ok by lia.
  change (default usize_max (Some (pad4 n))) with (pad4 n).
  pose proof (pad4_spec n). unfold sat. lia.
Qed.
Lemma length_string_ok n : 0 <= n -> n + 1 < 2 ^ 32 -> length_string n = pad4 (n + 1) + 4.
Proof. intros. unfold length_string, sat. rewrite Z.min_l by lia. apply length_array_ok. lia. Qed.

Lemma put_ok tail b : zlen b <= zlen tail -> put tail b = Ok (b, drop (length b) tail).
Proof.
  intros. unfold put. zlen_pos. rewrite set_range_ok by lia. cbn [mbind res_bind].
  rewrite get_from_ok by (rewrite zlen_splice; lia). cbn [mbind res_bind]. do 2 f_equal.
  change (splice tail 0 b) with (take 0 tail ++ b ++ drop (length b) tail). rewrite take_0. cbn [app].
  unfold zlen. by rewrite Nat2Z.id, drop_app_length.
Qed.

Lemma splice_front {A} (l1 l2 src : list A) :
  zlen src = zlen l1 -> splice (l1 ++ l2) 0 src = src ++ l2.
Proof. intros. by apply (splice_mid [] l1 l2 src 0). Qed.
Lemma slice_front {A} (l1 l2 : list A) n : n = zlen l1 -> slice (l1 ++ l2) 0 n = l1.
Proof. intros ->. by apply (slice_app_mid [] l1 l2). Qed.

Lemma put_padded_ok tail len s e :
  zlen s + 4 <= e -> e <= zlen tail ->
  put_padded tail len s e =
  Ok (to_le 4 len ++ s ++ replicate (Z.to_nat (e - (zlen s + 4))) Byte.x00, drop (Z.to_nat e) tail).
Proof.
  intros Hs He. zlen_pos. unfold put_padded.
  set (z := replicate _ Byte.x00). assert (Hz : zlen z = e - (zlen s + 4)) by (unfold z; rewrite zlen_replicate; lia).
  set (rest := drop (Z.to_nat e) tail).
  assert (Ht : tail = slice tail 0 4 ++ slice tail 4 (zlen s + 4) ++ slice tail (zlen s + 4) e ++ rest).
  { unfold rest. replace (drop (Z.to_nat e) tail) with (slice tail e (zlen tail)).
    - rewrite <- !slice_split by lia. by rewrite slice_all.
    - unfold slice. apply take_ge. rewrite length_drop. unfold zlen in *. lia. }
  assert (H1 : zlen (slice tail 0 4) = 4) by (rewrite zlen_slice; lia).
  assert (H2 : zlen (slice tail 4 (zlen s + 4)) = zlen s) by (rewrite zlen_slice; lia).
  assert (H3 : zlen (slice tail (zlen s + 4) e) = e - (zlen s + 4)) by (rewrite zlen_slice; lia).
  rewrite Ht. revert H1 H2 H3. generalize (slice tail 0 4) as a, (slice tail 4 (zlen s + 4)) as b,
    (slice tail (zlen s + 4) e) as c. intros a b c H1 H2 H3. clear Ht.
  rewrite set_range_ok by zlia. cbn [mbind res_bind].
  rewrite splice_front by zlia. rewrite set_range_ok by zlia. cbn [mbind res_bind].
  rewrite splice_mid by zlia. rewrite set_range_ok by zlia. cbn [mbind res_bind].
  rewrite (app_assoc (to_le 4 len)), splice_mid by zlia. rewrite get_range_ok by zlia. cbn [mbind res_bind].
  rewrite get_from_ok by zlia. cbn [mbind res_bind]. rewrite (app_assoc _ z rest).
  assert (Hw : zlen ((to_le 4 len ++ s) ++ z) = e) by zlia. do 2 f_equal.
  - rewrite <- (app_assoc _ s z). apply slice_front; zlia.
  - rewrite <- Hw. unfold zlen. by rewrite Nat2Z.id, drop_app_length.
Qed.

Lemma parse_array_encoded v z rest :
  zlen v < 2 ^ 32 -> zlen z = pad4 (zlen v) - zlen v ->
  parse_array (to_le 4 (zlen v) ++ v ++ z ++ rest) = Ok (v, rest).
Proof.
  intros Hv Hz. zlen_pos. pose proof (pad4_spec (zlen v)). unfold parse_array.
  replace (_ <? 4) with false by zlia. rewrite get_range_ok by zlia. cbn [mbind res_bind].
  rewrite slice_front by zlia. rewrite from_to_le4 by (unfold uN; lia).
  rewrite next_multiple_of_4_ok by lia. cbn [ok_or mbind res_bind].
  replace (_ <? pad4 (zlen v)) with false by zlia.
  rewrite get_range_ok by zlia. cbn [mbind res_bind]. rewrite get_from_ok by zlia. cbn [mbind res_bind].
  rewrite slice_app_mid by zlia. do 2 f_equal. rewrite !app_assoc.
  rewrite drop_app_length'; [done|]. enough (zlen ((to_le 4 (zlen v) ++ v) ++ z) = 4 + pad4 (zlen v))
    by (unfold zlen in *; lia). zlia.
Qed.

(** Writing an argument and parsing it back, in any context. *)
Lemma arg_roundtrip a tail :
  arg_ok a -> arg_length a <= zlen tail ->
  exists w, write_arg tail a = Ok (w, drop (length w) tail) /\ zlen w = arg_length a /\
    forall rest, parse_arg (w ++ rest) (type_of a) = Ok (a, rest).
Proof.
  assert (H4 : forall v rest, (zlen (to_le 4 v ++ rest) <? 4) = false) by (intros; zlia).
  assert (Hdrop : forall v rest, drop (Z.to_nat 4) (to_le 4 v ++ rest) = rest) by done.
  destruct a as [v|v|v|[s|]|v]; cbn [arg_ok arg_length type_of write_arg parse_arg]; intros Hok Hlen.
  1, 3: exists (to_le 4 v); unfold write_obj, write_u32; rewrite put_ok by zlia;
    (split; [done|]); (split; [zlia|]); intros rest; unfold parse_obj, parse_u32; rewrite H4;
    rewrite get_range_ok by zlia; cbn [mbind res_bind]; rewrite get_from_ok by zlia; cbn [mbind res_bind];
    rewrite slice_front, Hdrop by zlia; by rewrite from_to_le4.
  - exists (to_le 4 v). unfold write_i32. rewrite put_ok by zlia. split; [done|]. split; [zlia|].
    intros rest. unfold parse_i32. rewrite H4. rewrite get_range_ok by zlia. cbn [mbind res_bind].
    rewrite get_from_ok by zlia. cbn [mbind res_bind]. rewrite slice_front, Hdrop by zlia.
    by rewrite from_to_le_i32.
  - zlen_pos. rewrite length_string_ok in Hlen by lia. pose proof (pad4_spec (zlen s + 1)).
    unfold write_string, wrap. rewrite Z.mod_small by lia. rewrite chk_in by (unfold uN; lia).
    cbn [mbind res_bind]. rewrite length_string_ok by lia. rewrite put_padded_ok by lia.
    match goal with |- context [Ok (?x, _)] => set (w := x) end.
    assert (Hw : zlen w = pad4 (zlen s + 1) + 4)
      by (unfold w; rewrite !zlen_app, zlen_to_le4, zlen_replicate; lia).
    exists w. split; [do 3 f_equal; unfold zlen in *; lia|]. split; [done|].
    unfold w. clear w Hw.
    { intros rest. rewrite <- !app_assoc.
      set (k := Z.to_nat (pad4 (zlen s + 1) - (zlen s + 1))).
      replace (replicate _ Byte.x00) with ([Byte.x00] ++ replicate k Byte.x00)
        by (change ([Byte.x00] ++ replicate k Byte.x00) with (replicate (S k) Byte.x00); f_equal; lia).
      rewrite <- (app_assoc [Byte.x00]), (app_assoc s [Byte.x00]).
      assert (El : zlen (s ++ [Byte.x00]) = zlen s + 1) by zlia. rewrite <- El.
      unfold parse_string. rewrite parse_array_encoded; [|lia|rewrite El; unfold k; rewrite zlen_replicate; lia].
      cbn [mbind res_bind]. rewrite El. replace (zlen s + 1 =? 0) with false by lia.
      rewrite get_range_ok by zlia. cbn [mbind res_bind]. by rewrite slice_front by lia. }
  - exists (to_le 4 0). split; [apply put_ok; zlia|]. split; [done|]. intros rest.
    unfold parse_string. pose proof (parse_array_encoded [] [] rest ltac:(done) ltac:(done)) as P.
    cbn [app] in P. change (zlen (@nil byte)) with 0 in P. rewrite P. done.
  - zlen_pos. rewrite length_array_ok in Hlen by lia. pose proof (pad4_spec (zlen v)).
    unfold write_array, wrap. rewrite Z.mod_small by lia.
    rewrite length_array_ok by lia. rewrite put_padded_ok by lia.
    match goal with |- context [Ok (?x, _)] => set (w := x) end.
    assert (Hw : zlen w = pad4 (zlen v) + 4)
      by (unfold w; rewrite !zlen_app, zlen_to_le4, zlen_replicate; lia).
    exists w. split; [do 3 f_equal; unfold zlen in *; lia|]. split; [done|].
    unfold w. intros rest. rewrite <- !app_assoc. rewrite parse_array_encoded; [done|lia|rewrite zlen_replicate; lia].
Qed.

Lemma args_length_nonneg l : Forall arg_ok l -> 0 <= args_length l.
Proof.
  induction 1 as [|a l Ha _ IH]; cbn; [done|]. fold (args_length l).
  enough (0 <= arg_length a) by lia. destruct a as [v|v|v|[s|]|v]; cbn in *; try lia; zlen_pos.
  - rewrite length_string_ok by lia. pose proof (pad4_spec (zlen s + 1)). lia.
  - rewrite length_array_ok by lia. pose proof (pad4_spec (zlen v)). lia.
Qed.

(** Arguments written into a buffer with room for their declared length fill exactly that
    length, leave the rest of the buffer alone, and parse back to the same arguments whatever
    follows them. *)
Lemma args_roundtrip (l : list argument) (tail : bytes) :
  Forall arg_ok l -> args_length l <= zlen tail ->
  exists w, write_args tail l = Ok (w, drop (length w) tail) /\ zlen w = args_length l /\
    forall rest, parse_args (w ++ rest) (map type_of l) = Ok (l, rest).
Proof.
  intros Hok. revert tail. induction Hok as [|a l Ha Hok IH]; intros tail Hlen; cbn [write_args map parse_args].
  - exists []. split; [done|]. split; done.
  - cbn [args_length foldr] in Hlen. fold (args_length l) in Hlen.
    pose proof (args_length_nonneg l Hok).
    destruct (arg_roundtrip a tail Ha ltac:(lia)) as (w&->&Hw&Hp). cbn [mbind res_bind fst snd].
    destruct (IH (drop (length w) tail)) as (ws&->&Hws&Hps).
    { unfold zlen in *. rewrite length_drop. lia. }
    cbn [mbind res_bind fst snd]. exists (w ++ ws). rewrite drop_drop, length_app.
    split; [done|]. split; [rewrite zlen_app; cbn; fold (args_length l); lia|].
    intros rest. rewrite <- app_assoc, Hp. cbn [mbind res_bind fst snd]. by rewrite Hps.
Qed.

(** A header written by [write_header] parses back to its object, length and opcode, with
    the count of tagged file descriptors in bits 11 to 15 where the opcode does not see it. *)
Lemma header_roundtrip (tail : bytes) (obj length opcode ntagfds : Z) :
  uN 32 obj -> uN 16 length -> uN 8 opcode -> uN 5 ntagfds -> 8 <= zlen tail ->
  exists w, write_header tail obj length opcode ntagfds = Ok (w, drop 8 tail) /\ zlen w = 8 /\
    parse_wl_header w = Ok (obj, length, opcode) /\
    Z.land (Z.shiftr (from_le (drop 4 w)) 11) 31 = ntagfds.
Proof.
  unfold uN. intros Ho Hl Hc Hn Ht. unfold write_header. change (Z.shiftl 1 16) with (2 ^ 16).
  change (Z.shiftl 1 5) with (2 ^ 5). change (Z.shiftl 1 8) with (2 ^ 8).
  rewrite assert_true by lia. cbn [mbind res_bind].
  set (x := Z.lor _ _). assert (Hx : x = (length * 32 + ntagfds) * 2 ^ 11 + opcode).
  { unfold x. change 255 with (Z.ones 8). rewrite (Z.land_ones opcode 8), Z.mod_small by lia.
    rewrite !Z.shiftl_mul_pow2 by lia.
    replace (length * 2 ^ 16) with (length * 2 ^ 5 * 2 ^ 11) by lia.
    rewrite <- (Z.shiftl_mul_pow2 _ 11), <- (Z.shiftl_mul_pow2 ntagfds 11), <- Z.shiftl_lor by lia.
    rewrite (lor_high_low length ntagfds 5), Z.shiftl_mul_pow2 by lia.
    apply lor_high_low; lia. }
  assert (Htail : tail = take 4 tail ++ take 4 (drop 4 tail) ++ drop 8 tail).
  { rewrite <- (take_drop 4 tail) at 1. f_equal. rewrite <- (take_drop 4 (drop 4 tail)) at 1.
    by rewrite drop_drop. }
  assert (Ha : zlen (take 4 tail) = 4) by (unfold zlen in *; rewrite length_take; lia).
  assert (Hb : zlen (take 4 (drop 4 tail)) = 4) by (unfold zlen in *; rewrite length_take, length_drop; lia).
  set (rest := drop 8 tail) in *. rewrite Htail. revert Ha Hb.
  generalize (take 4 tail) as a, (take 4 (drop 4 tail)) as b. intros a b Ha Hb. clear Htail.
  rewrite set_range_ok by zlia. cbn [mbind res_bind]. rewrite splice_front by zlia.
  rewrite set_range_ok by zlia. cbn [mbind res_bind]. rewrite splice_mid by zlia.
  rewrite get_from_ok by zlia. cbn [mbind res_bind]. exists (to_le 4 obj ++ to_le 4 x).
  assert (Hu : from_le (to_le 4 x) = x) by (apply from_to_le4; unfold uN; lia).
  split_and!; [done|done| |].
  - unfold parse_wl_header. rewrite !get_range_ok by zlia. cbn [mbind res_bind].
    rewrite slice_front by zlia. rewrite <- (app_nil_r (to_le 4 x)), slice_app_mid by zlia.
    rewrite Hu, from_to_le4 by done. do 2 f_equal; [f_equal|].
    + rewrite Hx. replace ((length * 32 + ntagfds) * 2 ^ 11 + opcode)
        with (length * 2 ^ 16 + (ntagfds * 2 ^ 11 + opcode)) by lia. apply shiftr_high; lia.
    + change 255 with (Z.ones 8). rewrite Hx.
      replace ((length * 32 + ntagfds) * 2 ^ 11 + opcode)
        with ((length * 32 + ntagfds) * 8 * 2 ^ 8 + opcode) by lia. apply land_ones_low; lia.
  - change (drop 4 (to_le 4 obj ++ to_le 4 x)) with (to_le 4 x). rewrite Hu, Hx.
    rewrite shiftr_high by lia. change 31 with (Z.ones 5). change 32 with (2 ^ 5). apply land_ones_low; lia.
Qed.

(** A parser that returns a value and a suffix of its input, or [PARSE_ERROR]. *)
Definition parser_ok {A} (tail : bytes) (r : res (A * bytes)) : Prop :=
  match r with
  | Ok (_, rest) => exists consumed, tail = consumed ++ rest
  | Err e => e = PARSE_ERROR
  | Panic => False
  end.

Lemma parse_word_ok {A} (f : bytes -> A) tail :
  parser_ok tail (if zlen tail <? 4 then Err PARSE_ERROR else
    b ← get_range tail 0 4; rest ← get_from tail 4; Ok (f b, rest)).
Proof.
  destruct (Z.ltb_spec (zlen tail) 4); [done|]. rewrite get_range_ok by lia. cbn [mbind res_bind].
  rewrite get_from_ok by lia. cbn. exists (take 4 tail). by rewrite take_drop.
Qed.
Lemma parse_array_ok tail : parser_ok tail (parse_array tail).
Proof.
  unfold parse_array. destruct (Z.ltb_spec (zlen tail) 4); [done|].
  rewrite get_range_ok by lia. cbn [mbind res_bind]. set (n := from_le _).
  assert (Hn : uN 32 n) by (apply from_le_u32; rewrite zlen_slice; lia). unfold uN in Hn.
  rewrite next_multiple_of_4_ok by lia. cbn [ok_or mbind res_bind]. pose proof (pad4_spec n).
  destruct (Z.ltb_spec (zlen tail - 4) (pad4 n)); [done|].
  rewrite get_range_ok by lia. cbn [mbind res_bind]. rewrite get_from_ok by lia. cbn [mbind res_bind parser_ok].
  exists (take (Z.to_nat (4 + pad4 n)) tail). by rewrite take_drop.
Qed.
Lemma parse_string_ok tail : parser_ok tail (parse_string tail).
Proof.
  unfold parse_string. pose proof (parse_array_ok tail) as P.
  destruct (parse_array tail) as [[v rest]| |]; cbn [mbind res_bind parser_ok] in *; [|done..].
  destruct (Z.eqb_spec (zlen v) 0); [done|]. pose proof (zlen_nonneg v).
  rewrite get_range_ok by lia. done.
Qed.
Lemma parse_arg_ok tail t : parser_ok tail (parse_arg tail t).
Proof.
  assert (Hb : forall A (r : res (A * bytes)) (f : A -> argument),
    parser_ok tail r -> parser_ok tail (x ← r; Ok (f x.1, x.2))) by (by intros A [[]| |] f).
  destruct t; cbn [parse_arg]; apply Hb; try apply parse_word_ok;
    [apply parse_string_ok|apply parse_array_ok].
Qed.

(** no input makes the argument parsers panic: they return a value or [PARSE_ERROR], and
    what is left is a suffix of the input. *)
Theorem parse_args_total (tail : bytes) (l : list argument_type) : parser_ok tail (parse_args tail l).
Proof.
  revert tail. induction l as [|t l IH]; intros tail; cbn [parse_args]; [by exists []|].
  pose proof (parse_arg_ok tail t) as P. destruct (parse_arg tail t) as [[a rest]| |];
    cbn [mbind res_bind parser_ok fst snd] in *; [|done..]. destruct P as [c1 ->].
  specialize (IH rest). destruct (parse_args rest l) as [[as_ rest']| |];
    cbn [mbind res_bind parser_ok fst snd] in *; [|done..]. destruct IH as [c2 ->].
  exists (c1 ++ c2). by rewrite app_assoc.
Qed.
