(* ===== verification/Protocol.v ===== *)
(** * [src/wayland_gen.rs], [src/wayland.rs]: interfaces, their methods and generated messages

    [INTERFACE_TABLE] describes every method of every interface the proxy knows. For the messages
    it reads or makes itself there are three functions, [write_x], [length_x] and [parse_x], of
    one shape: a header and the arguments in order, strings not null. A [Msg] holds what they
    differ in, and [write_msg], [length_msg] and [parse_msg] are the functions for it; the
    tables below were translated line by line. *)
From Stdlib Require Import ZArith Lia.
From S2P Require Import Prelude Wire.
Local Open Scope Z_scope.

(** ** Interfaces *)
Module WaylandInterface.
Inductive t :=
| ExtDataControlDeviceV1 | ExtDataControlManagerV1 | ExtDataControlOfferV1
| ExtDataControlSourceV1 | ExtForeignToplevelHandleV1
| ExtForeignToplevelImageCaptureSourceManagerV1 | ExtForeignToplevelListV1
| ExtImageCaptureSourceV1 | ExtImageCopyCaptureCursorSessionV1 | ExtImageCopyCaptureFrameV1
| ExtImageCopyCaptureManagerV1 | ExtImageCopyCaptureSessionV1
| ExtOutputImageCaptureSourceManagerV1 | GtkPrimarySelectionDevice
| GtkPrimarySelectionDeviceManager | GtkPrimarySelectionOffer | GtkPrimarySelectionSource
| WlBuffer | WlCallback | WlCompositor | WlDataDevice | WlDataDeviceManager | WlDataOffer
| WlDataSource | WlDisplay | WlDrm | WlFixes | WlKeyboard | WlOutput | WlPointer | WlRegion
| WlRegistry | WlSeat | WlShell | WlShellSurface | WlShm | WlShmPool | WlSubcompositor
| WlSubsurface | WlSurface | WlTouch | WpColorManagementOutputV1
| WpColorManagementSurfaceFeedbackV1 | WpColorManagementSurfaceV1 | WpColorManagerV1
| WpCommitTimerV1 | WpCommitTimingManagerV1 | WpImageDescriptionCreatorIccV1
| WpImageDescriptionCreatorParamsV1 | WpImageDescriptionInfoV1 | WpImageDescriptionReferenceV1
| WpImageDescriptionV1 | WpLinuxDrmSyncobjManagerV1 | WpLinuxDrmSyncobjSurfaceV1
| WpLinuxDrmSyncobjTimelineV1 | WpPresentation | WpPresentationFeedback
| WpSecurityContextManagerV1 | WpSecurityContextV1 | WpViewport | WpViewporter | XdgPopup
| XdgPositioner | XdgSurface | XdgToplevel | XdgToplevelIconManagerV1 | XdgToplevelIconV1
| XdgWmBase | ZwlrDataControlDeviceV1 | ZwlrDataControlManagerV1 | ZwlrDataControlOfferV1
| ZwlrDataControlSourceV1 | ZwlrExportDmabufFrameV1 | ZwlrExportDmabufManagerV1
| ZwlrGammaControlManagerV1 | ZwlrGammaControlV1 | ZwlrScreencopyFrameV1
| ZwlrScreencopyManagerV1 | ZwpInputMethodKeyboardGrabV2 | ZwpInputMethodManagerV2
| ZwpInputMethodV2 | ZwpInputPopupSurfaceV2 | ZwpLinuxBufferParamsV1 | ZwpLinuxDmabufFeedbackV1
| ZwpLinuxDmabufV1 | ZwpPrimarySelectionDeviceManagerV1 | ZwpPrimarySelectionDeviceV1
| ZwpPrimarySelectionOfferV1 | ZwpPrimarySelectionSourceV1 | ZwpVirtualKeyboardManagerV1
| ZwpVirtualKeyboardV1.
End WaylandInterface.
Module I := WaylandInterface.
#[export] Instance WaylandInterface_eq_dec : EqDecision I.t.
Proof. solve_decision. Defined.

Definition WAYLANDINTERFACE_LIST : list I.t := [
  I.ExtDataControlDeviceV1; I.ExtDataControlManagerV1; I.ExtDataControlOfferV1;
  I.ExtDataControlSourceV1; I.ExtForeignToplevelHandleV1;
  I.ExtForeignToplevelImageCaptureSourceManagerV1; I.ExtForeignToplevelListV1;
  I.ExtImageCaptureSourceV1; I.ExtImageCopyCaptureCursorSessionV1;
  I.ExtImageCopyCaptureFrameV1; I.ExtImageCopyCaptureManagerV1; I.ExtImageCopyCaptureSessionV1;
  I.ExtOutputImageCaptureSourceManagerV1; I.GtkPrimarySelectionDevice;
  I.GtkPrimarySelectionDeviceManager; I.GtkPrimarySelectionOffer; I.GtkPrimarySelectionSource;
  I.WlBuffer; I.WlCallback; I.WlCompositor; I.WlDataDevice; I.WlDataDeviceManager;
  I.WlDataOffer; I.WlDataSource; I.WlDisplay; I.WlDrm; I.WlFixes; I.WlKeyboard; I.WlOutput;
  I.WlPointer; I.WlRegion; I.WlRegistry; I.WlSeat; I.WlShell; I.WlShellSurface; I.WlShm;
  I.WlShmPool; I.WlSubcompositor; I.WlSubsurface; I.WlSurface; I.WlTouch;
  I.WpColorManagementOutputV1; I.WpColorManagementSurfaceFeedbackV1;
  I.WpColorManagementSurfaceV1; I.WpColorManagerV1; I.WpCommitTimerV1;
  I.WpCommitTimingManagerV1; I.WpImageDescriptionCreatorIccV1;
  I.WpImageDescriptionCreatorParamsV1; I.WpImageDescriptionInfoV1;
  I.WpImageDescriptionReferenceV1; I.WpImageDescriptionV1; I.WpLinuxDrmSyncobjManagerV1;
  I.WpLinuxDrmSyncobjSurfaceV1; I.WpLinuxDrmSyncobjTimelineV1; I.WpPresentation;
  I.WpPresentationFeedback; I.WpSecurityContextManagerV1; I.WpSecurityContextV1; I.WpViewport;
  I.WpViewporter; I.XdgPopup; I.XdgPositioner; I.XdgSurface; I.XdgToplevel;
  I.XdgToplevelIconManagerV1; I.XdgToplevelIconV1; I.XdgWmBase; I.ZwlrDataControlDeviceV1;
  I.ZwlrDataControlManagerV1; I.ZwlrDataControlOfferV1; I.ZwlrDataControlSourceV1;
  I.ZwlrExportDmabufFrameV1; I.ZwlrExportDmabufManagerV1; I.ZwlrGammaControlManagerV1;
  I.ZwlrGammaControlV1; I.ZwlrScreencopyFrameV1; I.ZwlrScreencopyManagerV1;
  I.ZwpInputMethodKeyboardGrabV2; I.ZwpInputMethodManagerV2; I.ZwpInputMethodV2;
  I.ZwpInputPopupSurfaceV2; I.ZwpLinuxBufferParamsV1; I.ZwpLinuxDmabufFeedbackV1;
  I.ZwpLinuxDmabufV1; I.ZwpPrimarySelectionDeviceManagerV1; I.ZwpPrimarySelectionDeviceV1;
  I.ZwpPrimarySelectionOfferV1; I.ZwpPrimarySelectionSourceV1; I.ZwpVirtualKeyboardManagerV1;
  I.ZwpVirtualKeyboardV1].
Definition interface_try_from (v : Z) : option I.t :=
  if 0 <=? v then WAYLANDINTERFACE_LIST !! Z.to_nat v else None.

(** [Int], [Uint] and the others carry the prefix their module gives them. *)
Module WaylandArgument.
Inductive t :=
| Int | Uint | Fixed | String | OptionalString | Object (i : I.t) | GenericObject | NewId (i : I.t)
| GenericNewId | Array | Fd.
End WaylandArgument.
Record WaylandMethod := MkMethod { m_name : string; sig : list WaylandArgument.t; destructor : bool }.
Record WaylandData := MkData {
  d_name : string; evts : list WaylandMethod; reqs : list WaylandMethod; version : Z }.

(** ** Tables *)
Module Tables.
Import WaylandArgument.
Definition DATA_WP_COLOR_MANAGER_V1 : WaylandData :=
  MkData "wp_color_manager_v1"
    [ MkMethod "supported_intent" [Uint] false;
      MkMethod "supported_feature" [Uint] false;
      MkMethod "supported_tf_named" [Uint] false;
      MkMethod "supported_primaries_named" [Uint] false;
      MkMethod "done" [] false ]
    [ MkMethod "destroy" [] true;
      MkMethod "get_output" [NewId I.WpColorManagementOutputV1; Object I.WlOutput] false;
      MkMethod "get_surface" [NewId I.WpColorManagementSurfaceV1; Object I.WlSurface] false;
      MkMethod "get_surface_feedback" [NewId I.WpColorManagementSurfaceFeedbackV1; Object I.WlSurface] false;
      MkMethod "create_icc_creator" [NewId I.WpImageDescriptionCreatorIccV1] false;
      MkMethod "create_parametric_creator" [NewId I.WpImageDescriptionCreatorParamsV1] false;
      MkMethod "create_windows_scrgb" [NewId I.WpImageDescriptionV1] false;
      MkMethod "get_image_description" [NewId I.WpImageDescriptionV1; Object I.WpImageDescriptionReferenceV1] false ]
    2.
Definition DATA_WP_COLOR_MANAGEMENT_OUTPUT_V1 : WaylandData :=
  MkData "wp_color_management_output_v1"
    [ MkMethod "image_description_changed" [] false ]
    [ MkMethod "destroy" [] true;
      MkMethod "get_image_description" [NewId I.WpImageDescriptionV1] false ]
    2.
Definition DATA_WP_COLOR_MANAGEMENT_SURFACE_V1 : WaylandData :=
  MkData "wp_color_management_surface_v1"
    []
    [ MkMethod "destroy" [] true;
      MkMethod "set_image_description" [Object I.WpImageDescriptionV1; Uint] false;
      MkMethod "unset_image_description" [] false ]
    2.
Definition DATA_WP_COLOR_MANAGEMENT_SURFACE_FEEDBACK_V1 : WaylandData :=
  MkData "wp_color_management_surface_feedback_v1"
    [ MkMethod "preferred_changed" [Uint] false;
      MkMethod "preferred_changed2" [Uint; Uint] false ]
    [ MkMethod "destroy" [] true;
      MkMethod "get_preferred" [NewId I.WpImageDescriptionV1] false;
      MkMethod "get_preferred_parametric" [NewId I.WpImageDescriptionV1] false ]
    2.
Definition DATA_WP_IMAGE_DESCRIPTION_CREATOR_ICC_V1 : WaylandData :=
  MkData "wp_image_description_creator_icc_v1"
    []
    [ MkMethod "create" [NewId I.WpImageDescriptionV1] true;
      MkMethod "set_icc_file" [Fd; Uint; Uint] false ]
    2.
Definition DATA_WP_IMAGE_DESCRIPTION_CREATOR_PARAMS_V1 : WaylandData :=
  MkData "wp_image_description_creator_params_v1"
    []
    [ MkMethod "create" [NewId I.WpImageDescriptionV1] true;
      MkMethod "set_tf_named" [Uint] false;
      MkMethod "set_tf_power" [Uint] false;
      MkMethod "set_primaries_named" [Uint] false;
      MkMethod "set_primaries" [Int; Int; Int; Int; Int; Int; Int; Int] false;
      MkMethod "set_luminances" [Uint; Uint; Uint] false;
      MkMethod "set_mastering_display_primaries" [Int; Int; Int; Int; Int; Int; Int; Int] false;
      MkMethod "set_mastering_luminance" [Uint; Uint] false;
      MkMethod "set_max_cll" [Uint] false;
      MkMethod "set_max_fall" [Uint] false ]
    2.
Definition DATA_WP_IMAGE_DESCRIPTION_V1 : WaylandData :=
  MkData "wp_image_description_v1"
    [ MkMethod "failed" [Uint; String] false;
      MkMethod "ready" [Uint] false;
      MkMethod "ready2" [Uint; Uint] false ]
    [ MkMethod "destroy" [] true;
      MkMethod "get_information" [NewId I.WpImageDescriptionInfoV1] false ]
    2.
Definition DATA_WP_IMAGE_DESCRIPTION_INFO_V1 : WaylandData :=
  MkData "wp_image_description_info_v1"
    [ MkMethod "done" [] true;
      MkMethod "icc_file" [Fd; Uint] false;
      MkMethod "primaries" [Int; Int; Int; Int; Int; Int; Int; Int] false;
      MkMethod "primaries_named" [Uint] false;
      MkMethod "tf_power" [Uint] false;
      MkMethod "tf_named" [Uint] false;
      MkMethod "luminances" [Uint; Uint; Uint] false;
      MkMethod "target_primaries" [Int; Int; Int; Int; Int; Int; Int; Int] false;
      MkMethod "target_luminance" [Uint; Uint] false;
      MkMethod "target_max_cll" [Uint] false;
      MkMethod "target_max_fall" [Uint] false ]
    []
    2.
Definition DATA_WP_IMAGE_DESCRIPTION_REFERENCE_V1 : WaylandData :=
  MkData "wp_image_description_reference_v1"
    []
    [ MkMethod "destroy" [] true ]
    1.
Definition DATA_WP_COMMIT_TIMING_MANAGER_V1 : WaylandData :=
  MkData "wp_commit_timing_manager_v1"
    []
    [ MkMethod "destroy" [] true;
      MkMethod "get_timer" [NewId I.WpCommitTimerV1; Object I.WlSurface] false ]
    1.
Definition DATA_WP_COMMIT_TIMER_V1 : WaylandData :=
  MkData "wp_commit_timer_v1"
    []
    [ MkMethod "set_timestamp" [Uint; Uint; Uint] false;
      MkMethod "destroy" [] true ]
    1.
Definition DATA_EXT_DATA_CONTROL_MANAGER_V1 : WaylandData :=
  MkData "ext_data_control_manager_v1"
    []
    [ MkMethod "create_data_source" [NewId I.ExtDataControlSourceV1] false;
      MkMethod "get_data_device" [NewId I.ExtDataControlDeviceV1; Object I.WlSeat] false;
      MkMethod "destroy" [] true ]
    1.
Definition DATA_EXT_DATA_CONTROL_DEVICE_V1 : WaylandData :=
  MkData "ext_data_control_device_v1"
    [ MkMethod "data_offer" [NewId I.ExtDataControlOfferV1] false;
      MkMethod "selection" [Object I.ExtDataControlOfferV1] false;
      MkMethod "finished" [] false;
      MkMethod "primary_selection" [Object I.ExtDataControlOfferV1] false ]
    [ MkMethod "set_selection" [Object I.ExtDataControlSourceV1] false;
      MkMethod "destroy" [] true;
      MkMethod "set_primary_selection" [Object I.ExtDataControlSourceV1] false ]
    1.
Definition DATA_EXT_DATA_CONTROL_SOURCE_V1 : WaylandData :=
  MkData "ext_data_control_source_v1"
    [ MkMethod "send" [String; Fd] false;
      MkMethod "cancelled" [] false ]
    [ MkMethod "offer" [String] false;
      MkMethod "destroy" [] true ]
    1.
Definition DATA_EXT_DATA_CONTROL_OFFER_V1 : WaylandData :=
  MkData "ext_data_control_offer_v1"
    [ MkMethod "offer" [String] false ]
    [ MkMethod "receive" [String; Fd] false;
      MkMethod "destroy" [] true ]
    1.
Definition DATA_EXT_FOREIGN_TOPLEVEL_LIST_V1 : WaylandData :=
  MkData "ext_foreign_toplevel_list_v1"
    [ MkMethod "toplevel" [NewId I.ExtForeignToplevelHandleV1] false;
      MkMethod "finished" [] false ]
    [ MkMethod "stop" [] false;
      MkMethod "destroy" [] true ]
    1.
Definition DATA_EXT_FOREIGN_TOPLEVEL_HANDLE_V1 : WaylandData :=
  MkData "ext_foreign_toplevel_handle_v1"
    [ MkMethod "closed" [] false;
      MkMethod "done" [] false;
      MkMethod "title" [String] false;
      MkMethod "app_id" [String] false;
      MkMethod "identifier" [String] false ]
    [ MkMethod "destroy" [] true ]
    1.
Definition DATA_EXT_IMAGE_CAPTURE_SOURCE_V1 : WaylandData :=
  MkData "ext_image_capture_source_v1"
    []
    [ MkMethod "destroy" [] true ]
    1.
Definition DATA_EXT_OUTPUT_IMAGE_CAPTURE_SOURCE_MANAGER_V1 : WaylandData :=
  MkData "ext_output_image_capture_source_manager_v1"
    []
    [ MkMethod "create_source" [NewId I.ExtImageCaptureSourceV1; Object I.WlOutput] false;
      MkMethod "destroy" [] true ]
    1.
Definition DATA_EXT_FOREIGN_TOPLEVEL_IMAGE_CAPTURE_SOURCE_MANAGER_V1 : WaylandData :=
  MkData "ext_foreign_toplevel_image_capture_source_manager_v1"
    []
    [ MkMethod "create_source" [NewId I.ExtImageCaptureSourceV1; Object I.ExtForeignToplevelHandleV1] false;
      MkMethod "destroy" [] true ]
    1.
Definition DATA_EXT_IMAGE_COPY_CAPTURE_MANAGER_V1 : WaylandData :=
  MkData "ext_image_copy_capture_manager_v1"
    []
    [ MkMethod "create_session" [NewId I.ExtImageCopyCaptureSessionV1; Object I.ExtImageCaptureSourceV1; Uint] false;
      MkMethod "create_pointer_cursor_session" [NewId I.ExtImageCopyCaptureCursorSessionV1; Object I.ExtImageCaptureSourceV1; Object I.WlPointer] false;
      MkMethod "destroy" [] true ]
    1.
Definition DATA_EXT_IMAGE_COPY_CAPTURE_SESSION_V1 : WaylandData :=
  MkData "ext_image_copy_capture_session_v1"
    [ MkMethod "buffer_size" [Uint; Uint] false;
      MkMethod "shm_format" [Uint] false;
      MkMethod "dmabuf_device" [Array] false;
      MkMethod "dmabuf_format" [Uint; Array] false;
      MkMethod "done" [] false;
      MkMethod "stopped" [] false ]
    [ MkMethod "create_frame" [NewId I.ExtImageCopyCaptureFrameV1] false;
      MkMethod "destroy" [] true ]
    1.
Definition DATA_EXT_IMAGE_COPY_CAPTURE_FRAME_V1 : WaylandData :=
  MkData "ext_image_copy_capture_frame_v1"
    [ MkMethod "transform" [Uint] false;
      MkMethod "damage" [Int; Int; Int; Int] false;
      MkMethod "presentation_time" [Uint; Uint; Uint] false;
      MkMethod "ready" [] false;
      MkMethod "failed" [Uint] false ]
    [ MkMethod "destroy" [] true;
      MkMethod "attach_buffer" [Object I.WlBuffer] false;
      MkMethod "damage_buffer" [Int; Int; Int; Int] false;
      MkMethod "capture" [] false ]
    1.
Definition DATA_EXT_IMAGE_COPY_CAPTURE_CURSOR_SESSION_V1 : WaylandData :=
  MkData "ext_image_copy_capture_cursor_session_v1"
    [ MkMethod "enter" [] false;
      MkMethod "leave" [] false;
      MkMethod "position" [Int; Int] false;
      MkMethod "hotspot" [Int; Int] false ]
    [ MkMethod "destroy" [] true;
      MkMethod "get_capture_session" [NewId I.ExtImageCopyCaptureSessionV1] false ]
    1.
Definition DATA_GTK_PRIMARY_SELECTION_DEVICE_MANAGER : WaylandData :=
  MkData "gtk_primary_selection_device_manager"
    []
    [ MkMethod "create_source" [NewId I.GtkPrimarySelectionSource] false;
      MkMethod "get_device" [NewId I.GtkPrimarySelectionDevice; Object I.WlSeat] false;
      MkMethod "destroy" [] true ]
    1.
Definition DATA_GTK_PRIMARY_SELECTION_DEVICE : WaylandData :=
  MkData "gtk_primary_selection_device"
    [ MkMethod "data_offer" [NewId I.GtkPrimarySelectionOffer] false;
      MkMethod "selection" [Object I.GtkPrimarySelectionOffer] false ]
    [ MkMethod "set_selection" [Object I.GtkPrimarySelectionSource; Uint] false;
      MkMethod "destroy" [] true ]
    1.
Definition DATA_GTK_PRIMARY_SELECTION_OFFER : WaylandData :=
  MkData "gtk_primary_selection_offer"
    [ MkMethod "offer" [String] false ]
    [ MkMethod "receive" [String; Fd] false;
      MkMethod "destroy" [] true ]
    1.
Definition DATA_GTK_PRIMARY_SELECTION_SOURCE : WaylandData :=
  MkData "gtk_primary_selection_source"
    [ MkMethod "send" [String; Fd] false;
      MkMethod "cancelled" [] false ]
    [ MkMethod "offer" [String] false;
      MkMethod "destroy" [] true ]
    1.
Definition DATA_ZWP_INPUT_METHOD_V2 : WaylandData :=
  MkData "zwp_input_method_v2"
    [ MkMethod "activate" [] false;
      MkMethod "deactivate" [] false;
      MkMethod "surrounding_text" [String; Uint; Uint] false;
      MkMethod "text_change_cause" [Uint] false;
      MkMethod "content_type" [Uint; Uint] false;
      MkMethod "done" [] false;
      MkMethod "unavailable" [] false ]
    [ MkMethod "commit_string" [String] false;
      MkMethod "set_preedit_string" [String; Int; Int] false;
      MkMethod "delete_surrounding_text" [Uint; Uint] false;
      MkMethod "commit" [Uint] false;
      MkMethod "get_input_popup_surface" [NewId I.ZwpInputPopupSurfaceV2; Object I.WlSurface] false;
      MkMethod "grab_keyboard" [NewId I.ZwpInputMethodKeyboardGrabV2] false;
      MkMethod "destroy" [] true ]
    1.
Definition DATA_ZWP_INPUT_POPUP_SURFACE_V2 : WaylandData :=
  MkData "zwp_input_popup_surface_v2"
    [ MkMethod "text_input_rectangle" [Int; Int; Int; Int] false ]
    [ MkMethod "destroy" [] true ]
    1.
Definition DATA_ZWP_INPUT_METHOD_KEYBOARD_GRAB_V2 : WaylandData :=
  MkData "zwp_input_method_keyboard_grab_v2"
    [ MkMethod "keymap" [Uint; Fd; Uint] false;
      MkMethod "key" [Uint; Uint; Uint; Uint] false;
      MkMethod "modifiers" [Uint; Uint; Uint; Uint; Uint] false;
      MkMethod "repeat_info" [Int; Int] false ]
    [ MkMethod "release" [] true ]
    1.
Definition DATA_ZWP_INPUT_METHOD_MANAGER_V2 : WaylandData :=
  MkData "zwp_input_method_manager_v2"
    []
    [ MkMethod "get_input_method" [Object I.WlSeat; NewId I.ZwpInputMethodV2] false;
      MkMethod "destroy" [] true ]
    1.
Definition DATA_ZWP_LINUX_DMABUF_V1 : WaylandData :=
  MkData "zwp_linux_dmabuf_v1"
    [ MkMethod "format" [Uint] false;
      MkMethod "modifier" [Uint; Uint; Uint] false ]
    [ MkMethod "destroy" [] true;
      MkMethod "create_params" [NewId I.ZwpLinuxBufferParamsV1] false;
      MkMethod "get_default_feedback" [NewId I.ZwpLinuxDmabufFeedbackV1] false;
      MkMethod "get_surface_feedback" [NewId I.ZwpLinuxDmabufFeedbackV1; Object I.WlSurface] false ]
    5.
Definition DATA_ZWP_LINUX_BUFFER_PARAMS_V1 : WaylandData :=
  MkData "zwp_linux_buffer_params_v1"
    [ MkMethod "created" [NewId I.WlBuffer] false;
      MkMethod "failed" [] false ]
    [ MkMethod "destroy" [] true;
      MkMethod "add" [Fd; Uint; Uint; Uint; Uint; Uint] false;
      MkMethod "create" [Int; Int; Uint; Uint] false;
      MkMethod "create_immed" [NewId I.WlBuffer; Int; Int; Uint; Uint] false ]
    5.
Definition DATA_ZWP_LINUX_DMABUF_FEEDBACK_V1 : WaylandData :=
  MkData "zwp_linux_dmabuf_feedback_v1"
    [ MkMethod "done" [] false;
      MkMethod "format_table" [Fd; Uint] false;
      MkMethod "main_device" [Array] false;
      MkMethod "tranche_done" [] false;
      MkMethod "tranche_target_device" [Array] false;
      MkMethod "tranche_formats" [Array] false;
      MkMethod "tranche_flags" [Uint] false ]
    [ MkMethod "destroy" [] true ]
    5.
Definition DATA_WP_LINUX_DRM_SYNCOBJ_MANAGER_V1 : WaylandData :=
  MkData "wp_linux_drm_syncobj_manager_v1"
    []
    [ MkMethod "destroy" [] true;
      MkMethod "get_surface" [NewId I.WpLinuxDrmSyncobjSurfaceV1; Object I.WlSurface] false;
      MkMethod "import_timeline" [NewId I.WpLinuxDrmSyncobjTimelineV1; Fd] false ]
    1.
Definition DATA_WP_LINUX_DRM_SYNCOBJ_TIMELINE_V1 : WaylandData :=
  MkData "wp_linux_drm_syncobj_timeline_v1"
    []
    [ MkMethod "destroy" [] true ]
    1.
Definition DATA_WP_LINUX_DRM_SYNCOBJ_SURFACE_V1 : WaylandData :=
  MkData "wp_linux_drm_syncobj_surface_v1"
    []
    [ MkMethod "destroy" [] true;
      MkMethod "set_acquire_point" [Object I.WpLinuxDrmSyncobjTimelineV1; Uint; Uint] false;
      MkMethod "set_release_point" [Object I.WpLinuxDrmSyncobjTimelineV1; Uint; Uint] false ]
    1.
Definition DATA_WP_PRESENTATION : WaylandData :=
  MkData "wp_presentation"
    [ MkMethod "clock_id" [Uint] false ]
    [ MkMethod "destroy" [] true;
      MkMethod "feedback" [Object I.WlSurface; NewId I.WpPresentationFeedback] false ]
    2.
Definition DATA_WP_PRESENTATION_FEEDBACK : WaylandData :=
  MkData "wp_presentation_feedback"
    [ MkMethod "sync_output" [Object I.WlOutput] false;
      MkMethod "presented" [Uint; Uint; Uint; Uint; Uint; Uint; Uint] true;
      MkMethod "discarded" [] true ]
    []
    2.
Definition DATA_ZWP_PRIMARY_SELECTION_DEVICE_MANAGER_V1 : WaylandData :=
  MkData "zwp_primary_selection_device_manager_v1"
    []
    [ MkMethod "create_source" [NewId I.ZwpPrimarySelectionSourceV1] false;
      MkMethod "get_device" [NewId I.ZwpPrimarySelectionDeviceV1; Object I.WlSeat] false;
      MkMethod "destroy" [] true ]
    1.
Definition DATA_ZWP_PRIMARY_SELECTION_DEVICE_V1 : WaylandData :=
  MkData "zwp_primary_selection_device_v1"
    [ MkMethod "data_offer" [NewId I.ZwpPrimarySelectionOfferV1] false;
      MkMethod "selection" [Object I.ZwpPrimarySelectionOfferV1] false ]
    [ MkMethod "set_selection" [Object I.ZwpPrimarySelectionSourceV1; Uint] false;
      MkMethod "destroy" [] true ]
    1.
Definition DATA_ZWP_PRIMARY_SELECTION_OFFER_V1 : WaylandData :=
  MkData "zwp_primary_selection_offer_v1"
    [ MkMethod "offer" [String] false ]
    [ MkMethod "receive" [String; Fd] false;
      MkMethod "destroy" [] true ]
    1.
Definition DATA_ZWP_PRIMARY_SELECTION_SOURCE_V1 : WaylandData :=
  MkData "zwp_primary_selection_source_v1"
    [ MkMethod "send" [String; Fd] false;
      MkMethod "cancelled" [] false ]
    [ MkMethod "offer" [String] false;
      MkMethod "destroy" [] true ]
    1.
Definition DATA_WP_SECURITY_CONTEXT_MANAGER_V1 : WaylandData :=
  MkData "wp_security_context_manager_v1"
    []
    [ MkMethod "destroy" [] true;
      MkMethod "create_listener" [NewId I.WpSecurityContextV1; Fd; Fd] false ]
    1.
Definition DATA_WP_SECURITY_CONTEXT_V1 : WaylandData :=
  MkData "wp_security_context_v1"
    []
    [ MkMethod "destroy" [] true;
      MkMethod "set_sandbox_engine" [String] false;
      MkMethod "set_app_id" [String] false;
      MkMethod "set_instance_id" [String] false;
      MkMethod "commit" [] false ]
    1.
Definition DATA_WP_VIEWPORTER : WaylandData :=
  MkData "wp_viewporter"
    []
    [ MkMethod "destroy" [] true;
      MkMethod "get_viewport" [NewId I.WpViewport; Object I.WlSurface] false ]
    1.
Definition DATA_WP_VIEWPORT : WaylandData :=
  MkData "wp_viewport"
    []
    [ MkMethod "destroy" [] true;
      MkMethod "set_source" [Fixed; Fixed; Fixed; Fixed] false;
      MkMethod "set_destination" [Int; Int] false ]
    1.
Definition DATA_ZWP_VIRTUAL_KEYBOARD_V1 : WaylandData :=
  MkData "zwp_virtual_keyboard_v1"
    []
    [ MkMethod "keymap" [Uint; Fd; Uint] false;
      MkMethod "key" [Uint; Uint; Uint] false;
      MkMethod "modifiers" [Uint; Uint; Uint; Uint] false;
      MkMethod "destroy" [] true ]
    1.
Definition DATA_ZWP_VIRTUAL_KEYBOARD_MANAGER_V1 : WaylandData :=
  MkData "zwp_virtual_keyboard_manager_v1"
    []
    [ MkMethod "create_virtual_keyboard" [Object I.WlSeat; NewId I.ZwpVirtualKeyboardV1] false ]
    1.
Definition DATA_WL_DRM : WaylandData :=
  MkData "wl_drm"
    [ MkMethod "device" [String] false;
      MkMethod "format" [Uint] false;
      MkMethod "authenticated" [] false;
      MkMethod "capabilities" [Uint] false ]
    [ MkMethod "authenticate" [Uint] false;
      MkMethod "create_buffer" [NewId I.WlBuffer; Uint; Int; Int; Uint; Uint] false;
      MkMethod "create_planar_buffer" [NewId I.WlBuffer; Uint; Int; Int; Uint; Int; Int; Int; Int; Int; Int] false;
      MkMethod "create_prime_buffer" [NewId I.WlBuffer; Fd; Int; Int; Uint; Int; Int; Int; Int; Int; Int] false ]
    2.
Definition DATA_WL_DISPLAY : WaylandData :=
  MkData "wl_display"
    [ MkMethod "error" [GenericObject; Uint; String] false;
      MkMethod "delete_id" [Uint] false ]
    [ MkMethod "sync" [NewId I.WlCallback] false;
      MkMethod "get_registry" [NewId I.WlRegistry] false ]
    1.
Definition DATA_WL_REGISTRY : WaylandData :=
  MkData "wl_registry"
    [ MkMethod "global" [Uint; String; Uint] false;
      MkMethod "global_remove" [Uint] false ]
    [ MkMethod "bind" [Uint; GenericNewId] false ]
    1.
Definition DATA_WL_CALLBACK : WaylandData :=
  MkData "wl_callback"
    [ MkMethod "done" [Uint] true ]
    []
    1.
Definition DATA_WL_COMPOSITOR : WaylandData :=
  MkData "wl_compositor"
    []
    [ MkMethod "create_surface" [NewId I.WlSurface] false;
      MkMethod "create_region" [NewId I.WlRegion] false ]
    6.
Definition DATA_WL_SHM_POOL : WaylandData :=
  MkData "wl_shm_pool"
    []
    [ MkMethod "create_buffer" [NewId I.WlBuffer; Int; Int; Int; Int; Uint] false;
      MkMethod "destroy" [] true;
      MkMethod "resize" [Int] false ]
    2.
Definition DATA_WL_SHM : WaylandData :=
  MkData "wl_shm"
    [ MkMethod "format" [Uint] false ]
    [ MkMethod "create_pool" [NewId I.WlShmPool; Fd; Int] false;
      MkMethod "release" [] true ]
    2.
Definition DATA_WL_BUFFER : WaylandData :=
  MkData "wl_buffer"
    [ MkMethod "release" [] false ]
    [ MkMethod "destroy" [] true ]
    1.
Definition DATA_WL_DATA_OFFER : WaylandData :=
  MkData "wl_data_offer"
    [ MkMethod "offer" [String] false;
      MkMethod "source_actions" [Uint] false;
      MkMethod "action" [Uint] false ]
    [ MkMethod "accept" [Uint; OptionalString] false;
      MkMethod "receive" [String; Fd] false;
      MkMethod "destroy" [] true;
      MkMethod "finish" [] false;
      MkMethod "set_actions" [Uint; Uint] false ]
    3.
Definition DATA_WL_DATA_SOURCE : WaylandData :=
  MkData "wl_data_source"
    [ MkMethod "target" [OptionalString] false;
      MkMethod "send" [String; Fd] false;
      MkMethod "cancelled" [] false;
      MkMethod "dnd_drop_performed" [] false;
      MkMethod "dnd_finished" [] false;
      MkMethod "action" [Uint] false ]
    [ MkMethod "offer" [String] false;
      MkMethod "destroy" [] true;
      MkMethod "set_actions" [Uint] false ]
    3.
Definition DATA_WL_DATA_DEVICE : WaylandData :=
  MkData "wl_data_device"
    [ MkMethod "data_offer" [NewId I.WlDataOffer] false;
      MkMethod "enter" [Uint; Object I.WlSurface; Fixed; Fixed; Object I.WlDataOffer] false;
      MkMethod "leave" [] false;
      MkMethod "motion" [Uint; Fixed; Fixed] false;
      MkMethod "drop" [] false;
      MkMethod "selection" [Object I.WlDataOffer] false ]
    [ MkMethod "start_drag" [Object I.WlDataSource; Object I.WlSurface; Object I.WlSurface; Uint] false;
      MkMethod "set_selection" [Object I.WlDataSource; Uint] false;
      MkMethod "release" [] true ]
    3.
Definition DATA_WL_DATA_DEVICE_MANAGER : WaylandData :=
  MkData "wl_data_device_manager"
    []
    [ MkMethod "create_data_source" [NewId I.WlDataSource] false;
      MkMethod "get_data_device" [NewId I.WlDataDevice; Object I.WlSeat] false ]
    3.
Definition DATA_WL_SHELL : WaylandData :=
  MkData "wl_shell"
    []
    [ MkMethod "get_shell_surface" [NewId I.WlShellSurface; Object I.WlSurface] false ]
    1.
Definition DATA_WL_SHELL_SURFACE : WaylandData :=
  MkData "wl_shell_surface"
    [ MkMethod "ping" [Uint] false;
      MkMethod "configure" [Uint; Int; Int] false;
      MkMethod "popup_done" [] false ]
    [ MkMethod "pong" [Uint] false;
      MkMethod "move" [Object I.WlSeat; Uint] false;
      MkMethod "resize" [Object I.WlSeat; Uint; Uint] false;
      MkMethod "set_toplevel" [] false;
      MkMethod "set_transient" [Object I.WlSurface; Int; Int; Uint] false;
      MkMethod "set_fullscreen" [Uint; Uint; Object I.WlOutput] false;
      MkMethod "set_popup" [Object I.WlSeat; Uint; Object I.WlSurface; Int; Int; Uint] false;
      MkMethod "set_maximized" [Object I.WlOutput] false;
      MkMethod "set_title" [String] false;
      MkMethod "set_class" [String] false ]
    1.
Definition DATA_WL_SURFACE : WaylandData :=
  MkData "wl_surface"
    [ MkMethod "enter" [Object I.WlOutput] false;
      MkMethod "leave" [Object I.WlOutput] false;
      MkMethod "preferred_buffer_scale" [Int] false;
      MkMethod "preferred_buffer_transform" [Uint] false ]
    [ MkMethod "destroy" [] true;
      MkMethod "attach" [Object I.WlBuffer; Int; Int] false;
      MkMethod "damage" [Int; Int; Int; Int] false;
      MkMethod "frame" [NewId I.WlCallback] false;
      MkMethod "set_opaque_region" [Object I.WlRegion] false;
      MkMethod "set_input_region" [Object I.WlRegion] false;
      MkMethod "commit" [] false;
      MkMethod "set_buffer_transform" [Int] false;
      MkMethod "set_buffer_scale" [Int] false;
      MkMethod "damage_buffer" [Int; Int; Int; Int] false;
      MkMethod "offset" [Int; Int] false ]
    6.
Definition DATA_WL_SEAT : WaylandData :=
  MkData "wl_seat"
    [ MkMethod "capabilities" [Uint] false;
      MkMethod "name" [String] false ]
    [ MkMethod "get_pointer" [NewId I.WlPointer] false;
      MkMethod "get_keyboard" [NewId I.WlKeyboard] false;
      MkMethod "get_touch" [NewId I.WlTouch] false;
      MkMethod "release" [] true ]
    10.
Definition DATA_WL_POINTER : WaylandData :=
  MkData "wl_pointer"
    [ MkMethod "enter" [Uint; Object I.WlSurface; Fixed; Fixed] false;
      MkMethod "leave" [Uint; Object I.WlSurface] false;
      MkMethod "motion" [Uint; Fixed; Fixed] false;
      MkMethod "button" [Uint; Uint; Uint; Uint] false;
      MkMethod "axis" [Uint; Uint; Fixed] false;
      MkMethod "frame" [] false;
      MkMethod "axis_source" [Uint] false;
      MkMethod "axis_stop" [Uint; Uint] false;
      MkMethod "axis_discrete" [Uint; Int] false;
      MkMethod "axis_value120" [Uint; Int] false;
      MkMethod "axis_relative_direction" [Uint; Uint] false ]
    [ MkMethod "set_cursor" [Uint; Object I.WlSurface; Int; Int] false;
      MkMethod "release" [] true ]
    10.
Definition DATA_WL_KEYBOARD : WaylandData :=
  MkData "wl_keyboard"
    [ MkMethod "keymap" [Uint; Fd; Uint] false;
      MkMethod "enter" [Uint; Object I.WlSurface; Array] false;
      MkMethod "leave" [Uint; Object I.WlSurface] false;
      MkMethod "key" [Uint; Uint; Uint; Uint] false;
      MkMethod "modifiers" [Uint; Uint; Uint; Uint; Uint] false;
      MkMethod "repeat_info" [Int; Int] false ]
    [ MkMethod "release" [] true ]
    10.
Definition DATA_WL_TOUCH : WaylandData :=
  MkData "wl_touch"
    [ MkMethod "down" [Uint; Uint; Object I.WlSurface; Int; Fixed; Fixed] false;
      MkMethod "up" [Uint; Uint; Int] false;
      MkMethod "motion" [Uint; Int; Fixed; Fixed] false;
      MkMethod "frame" [] false;
      MkMethod "cancel" [] false;
      MkMethod "shape" [Int; Fixed; Fixed] false;
      MkMethod "orientation" [Int; Fixed] false ]
    [ MkMethod "release" [] true ]
    10.
Definition DATA_WL_OUTPUT : WaylandData :=
  MkData "wl_output"
    [ MkMethod "geometry" [Int; Int; Int; Int; Int; String; String; Int] false;
      MkMethod "mode" [Uint; Int; Int; Int] false;
      MkMethod "done" [] false;
      MkMethod "scale" [Int] false;
      MkMethod "name" [String] false;
      MkMethod "description" [String] false ]
    [ MkMethod "release" [] true ]
    4.
Definition DATA_WL_REGION : WaylandData :=
  MkData "wl_region"
    []
    [ MkMethod "destroy" [] true;
      MkMethod "add" [Int; Int; Int; Int] false;
      MkMethod "subtract" [Int; Int; Int; Int] false ]
    1.
Definition DATA_WL_SUBCOMPOSITOR : WaylandData :=
  MkData "wl_subcompositor"
    []
    [ MkMethod "destroy" [] true;
      MkMethod "get_subsurface" [NewId I.WlSubsurface; Object I.WlSurface; Object I.WlSurface] false ]
    1.
Definition DATA_WL_SUBSURFACE : WaylandData :=
  MkData "wl_subsurface"
    []
    [ MkMethod "destroy" [] true;
      MkMethod "set_position" [Int; Int] false;
      MkMethod "place_above" [Object I.WlSurface] false;
      MkMethod "place_below" [Object I.WlSurface] false;
      MkMethod "set_sync" [] false;
      MkMethod "set_desync" [] false ]
    1.
Definition DATA_WL_FIXES : WaylandData :=
  MkData "wl_fixes"
    []
    [ MkMethod "destroy" [] true;
      MkMethod "destroy_registry" [Object I.WlRegistry] false ]
    1.
Definition DATA_ZWLR_DATA_CONTROL_MANAGER_V1 : WaylandData :=
  MkData "zwlr_data_control_manager_v1"
    []
    [ MkMethod "create_data_source" [NewId I.ZwlrDataControlSourceV1] false;
      MkMethod "get_data_device" [NewId I.ZwlrDataControlDeviceV1; Object I.WlSeat] false;
      MkMethod "destroy" [] true ]
    2.
Definition DATA_ZWLR_DATA_CONTROL_DEVICE_V1 : WaylandData :=
  MkData "zwlr_data_control_device_v1"
    [ MkMethod "data_offer" [NewId I.ZwlrDataControlOfferV1] false;
      MkMethod "selection" [Object I.ZwlrDataControlOfferV1] false;
      MkMethod "finished" [] false;
      MkMethod "primary_selection" [Object I.ZwlrDataControlOfferV1] false ]
    [ MkMethod "set_selection" [Object I.ZwlrDataControlSourceV1] false;
      MkMethod "destroy" [] true;
      MkMethod "set_primary_selection" [Object I.ZwlrDataControlSourceV1] false ]
    2.
Definition DATA_ZWLR_DATA_CONTROL_SOURCE_V1 : WaylandData :=
  MkData "zwlr_data_control_source_v1"
    [ MkMethod "send" [String; Fd] false;
      MkMethod "cancelled" [] false ]
    [ MkMethod "offer" [String] false;
      MkMethod "destroy" [] true ]
    1.
Definition DATA_ZWLR_DATA_CONTROL_OFFER_V1 : WaylandData :=
  MkData "zwlr_data_control_offer_v1"
    [ MkMethod "offer" [String] false ]
    [ MkMethod "receive" [String; Fd] false;
      MkMethod "destroy" [] true ]
    1.
Definition DATA_ZWLR_EXPORT_DMABUF_MANAGER_V1 : WaylandData :=
  MkData "zwlr_export_dmabuf_manager_v1"
    []
    [ MkMethod "capture_output" [NewId I.ZwlrExportDmabufFrameV1; Int; Object I.WlOutput] false;
      MkMethod "destroy" [] true ]
    1.
Definition DATA_ZWLR_EXPORT_DMABUF_FRAME_V1 : WaylandData :=
  MkData "zwlr_export_dmabuf_frame_v1"
    [ MkMethod "frame" [Uint; Uint; Uint; Uint; Uint; Uint; Uint; Uint; Uint; Uint] false;
      MkMethod "object" [Uint; Fd; Uint; Uint; Uint; Uint] false;
      MkMethod "ready" [Uint; Uint; Uint] false;
      MkMethod "cancel" [Uint] false ]
    [ MkMethod "destroy" [] true ]
    1.
Definition DATA_ZWLR_GAMMA_CONTROL_MANAGER_V1 : WaylandData :=
  MkData "zwlr_gamma_control_manager_v1"
    []
    [ MkMethod "get_gamma_control" [NewId I.ZwlrGammaControlV1; Object I.WlOutput] false;
      MkMethod "destroy" [] true ]
    1.
Definition DATA_ZWLR_GAMMA_CONTROL_V1 : WaylandData :=
  MkData "zwlr_gamma_control_v1"
    [ MkMethod "gamma_size" [Uint] false;
      MkMethod "failed" [] false ]
    [ MkMethod "set_gamma" [Fd] false;
      MkMethod "destroy" [] true ]
    1.
Definition DATA_ZWLR_SCREENCOPY_MANAGER_V1 : WaylandData :=
  MkData "zwlr_screencopy_manager_v1"
    []
    [ MkMethod "capture_output" [NewId I.ZwlrScreencopyFrameV1; Int; Object I.WlOutput] false;
      MkMethod "capture_output_region" [NewId I.ZwlrScreencopyFrameV1; Int; Object I.WlOutput; Int; Int; Int; Int] false;
      MkMethod "destroy" [] true ]
    3.
Definition DATA_ZWLR_SCREENCOPY_FRAME_V1 : WaylandData :=
  MkData "zwlr_screencopy_frame_v1"
    [ MkMethod "buffer" [Uint; Uint; Uint; Uint] false;
      MkMethod "flags" [Uint] false;
      MkMethod "ready" [Uint; Uint; Uint] false;
      MkMethod "failed" [] false;
      MkMethod "damage" [Uint; Uint; Uint; Uint] false;
      MkMethod "linux_dmabuf" [Uint; Uint; Uint] false;
      MkMethod "buffer_done" [] false ]
    [ MkMethod "copy" [Object I.WlBuffer] false;
      MkMethod "destroy" [] true;
      MkMethod "copy_with_damage" [Object I.WlBuffer] false ]
    3.
Definition DATA_XDG_WM_BASE : WaylandData :=
  MkData "xdg_wm_base"
    [ MkMethod "ping" [Uint] false ]
    [ MkMethod "destroy" [] true;
      MkMethod "create_positioner" [NewId I.XdgPositioner] false;
      MkMethod "get_xdg_surface" [NewId I.XdgSurface; Object I.WlSurface] false;
      MkMethod "pong" [Uint] false ]
    7.
Definition DATA_XDG_POSITIONER : WaylandData :=
  MkData "xdg_positioner"
    []
    [ MkMethod "destroy" [] true;
      MkMethod "set_size" [Int; Int] false;
      MkMethod "set_anchor_rect" [Int; Int; Int; Int] false;
      MkMethod "set_anchor" [Uint] false;
      MkMethod "set_gravity" [Uint] false;
      MkMethod "set_constraint_adjustment" [Uint] false;
      MkMethod "set_offset" [Int; Int] false;
      MkMethod "set_reactive" [] false;
      MkMethod "set_parent_size" [Int; Int] false;
      MkMethod "set_parent_configure" [Uint] false ]
    7.
Definition DATA_XDG_SURFACE : WaylandData :=
  MkData "xdg_surface"
    [ MkMethod "configure" [Uint] false ]
    [ MkMethod "destroy" [] true;
      MkMethod "get_toplevel" [NewId I.XdgToplevel] false;
      MkMethod "get_popup" [NewId I.XdgPopup; Object I.XdgSurface; Object I.XdgPositioner] false;
      MkMethod "set_window_geometry" [Int; Int; Int; Int] false;
      MkMethod "ack_configure" [Uint] false ]
    7.
Definition DATA_XDG_TOPLEVEL : WaylandData :=
  MkData "xdg_toplevel"
    [ MkMethod "configure" [Int; Int; Array] false;
      MkMethod "close" [] false;
      MkMethod "configure_bounds" [Int; Int] false;
      MkMethod "wm_capabilities" [Array] false ]
    [ MkMethod "destroy" [] true;
      MkMethod "set_parent" [Object I.XdgToplevel] false;
      MkMethod "set_title" [String] false;
      MkMethod "set_app_id" [String] false;
      MkMethod "show_window_menu" [Object I.WlSeat; Uint; Int; Int] false;
      MkMethod "move" [Object I.WlSeat; Uint] false;
      MkMethod "resize" [Object I.WlSeat; Uint; Uint] false;
      MkMethod "set_max_size" [Int; Int] false;
      MkMethod "set_min_size" [Int; Int] false;
      MkMethod "set_maximized" [] false;
      MkMethod "unset_maximized" [] false;
      MkMethod "set_fullscreen" [Object I.WlOutput] false;
      MkMethod "unset_fullscreen" [] false;
      MkMethod "set_minimized" [] false ]
    7.
Definition DATA_XDG_POPUP : WaylandData :=
  MkData "xdg_popup"
    [ MkMethod "configure" [Int; Int; Int; Int] false;
      MkMethod "popup_done" [] false;
      MkMethod "repositioned" [Uint] false ]
    [ MkMethod "destroy" [] true;
      MkMethod "grab" [Object I.WlSeat; Uint] false;
      MkMethod "reposition" [Object I.XdgPositioner; Uint] false ]
    7.
Definition DATA_XDG_TOPLEVEL_ICON_MANAGER_V1 : WaylandData :=
  MkData "xdg_toplevel_icon_manager_v1"
    [ MkMethod "icon_size" [Int] false;
      MkMethod "done" [] false ]
    [ MkMethod "destroy" [] true;
      MkMethod "create_icon" [NewId I.XdgToplevelIconV1] false;
      MkMethod "set_icon" [Object I.XdgToplevel; Object I.XdgToplevelIconV1] false ]
    1.
Definition DATA_XDG_TOPLEVEL_ICON_V1 : WaylandData :=
  MkData "xdg_toplevel_icon_v1"
    []
    [ MkMethod "destroy" [] true;
      MkMethod "set_name" [String] false;
      MkMethod "add_buffer" [Object I.WlBuffer; Int] false ]
    1.

Definition INTERFACE_TABLE : list WaylandData := [
  DATA_EXT_DATA_CONTROL_DEVICE_V1; DATA_EXT_DATA_CONTROL_MANAGER_V1;
  DATA_EXT_DATA_CONTROL_OFFER_V1; DATA_EXT_DATA_CONTROL_SOURCE_V1;
  DATA_EXT_FOREIGN_TOPLEVEL_HANDLE_V1;
  DATA_EXT_FOREIGN_TOPLEVEL_IMAGE_CAPTURE_SOURCE_MANAGER_V1; DATA_EXT_FOREIGN_TOPLEVEL_LIST_V1;
  DATA_EXT_IMAGE_CAPTURE_SOURCE_V1; DATA_EXT_IMAGE_COPY_CAPTURE_CURSOR_SESSION_V1;
  DATA_EXT_IMAGE_COPY_CAPTURE_FRAME_V1; DATA_EXT_IMAGE_COPY_CAPTURE_MANAGER_V1;
  DATA_EXT_IMAGE_COPY_CAPTURE_SESSION_V1; DATA_EXT_OUTPUT_IMAGE_CAPTURE_SOURCE_MANAGER_V1;
  DATA_GTK_PRIMARY_SELECTION_DEVICE; DATA_GTK_PRIMARY_SELECTION_DEVICE_MANAGER;
  DATA_GTK_PRIMARY_SELECTION_OFFER; DATA_GTK_PRIMARY_SELECTION_SOURCE; DATA_WL_BUFFER;
  DATA_WL_CALLBACK; DATA_WL_COMPOSITOR; DATA_WL_DATA_DEVICE; DATA_WL_DATA_DEVICE_MANAGER;
  DATA_WL_DATA_OFFER; DATA_WL_DATA_SOURCE; DATA_WL_DISPLAY; DATA_WL_DRM; DATA_WL_FIXES;
  DATA_WL_KEYBOARD; DATA_WL_OUTPUT; DATA_WL_POINTER; DATA_WL_REGION; DATA_WL_REGISTRY;
  DATA_WL_SEAT; DATA_WL_SHELL; DATA_WL_SHELL_SURFACE; DATA_WL_SHM; DATA_WL_SHM_POOL;
  DATA_WL_SUBCOMPOSITOR; DATA_WL_SUBSURFACE; DATA_WL_SURFACE; DATA_WL_TOUCH;
  DATA_WP_COLOR_MANAGEMENT_OUTPUT_V1; DATA_WP_COLOR_MANAGEMENT_SURFACE_FEEDBACK_V1;
  DATA_WP_COLOR_MANAGEMENT_SURFACE_V1; DATA_WP_COLOR_MANAGER_V1; DATA_WP_COMMIT_TIMER_V1;
  DATA_WP_COMMIT_TIMING_MANAGER_V1; DATA_WP_IMAGE_DESCRIPTION_CREATOR_ICC_V1;
  DATA_WP_IMAGE_DESCRIPTION_CREATOR_PARAMS_V1; DATA_WP_IMAGE_DESCRIPTION_INFO_V1;
  DATA_WP_IMAGE_DESCRIPTION_REFERENCE_V1; DATA_WP_IMAGE_DESCRIPTION_V1;
  DATA_WP_LINUX_DRM_SYNCOBJ_MANAGER_V1; DATA_WP_LINUX_DRM_SYNCOBJ_SURFACE_V1;
  DATA_WP_LINUX_DRM_SYNCOBJ_TIMELINE_V1; DATA_WP_PRESENTATION; DATA_WP_PRESENTATION_FEEDBACK;
  DATA_WP_SECURITY_CONTEXT_MANAGER_V1; DATA_WP_SECURITY_CONTEXT_V1; DATA_WP_VIEWPORT;
  DATA_WP_VIEWPORTER; DATA_XDG_POPUP; DATA_XDG_POSITIONER; DATA_XDG_SURFACE; DATA_XDG_TOPLEVEL;
  DATA_XDG_TOPLEVEL_ICON_MANAGER_V1; DATA_XDG_TOPLEVEL_ICON_V1; DATA_XDG_WM_BASE;
  DATA_ZWLR_DATA_CONTROL_DEVICE_V1; DATA_ZWLR_DATA_CONTROL_MANAGER_V1;
  DATA_ZWLR_DATA_CONTROL_OFFER_V1; DATA_ZWLR_DATA_CONTROL_SOURCE_V1;
  DATA_ZWLR_EXPORT_DMABUF_FRAME_V1; DATA_ZWLR_EXPORT_DMABUF_MANAGER_V1;
  DATA_ZWLR_GAMMA_CONTROL_MANAGER_V1; DATA_ZWLR_GAMMA_CONTROL_V1;
  DATA_ZWLR_SCREENCOPY_FRAME_V1; DATA_ZWLR_SCREENCOPY_MANAGER_V1;
  DATA_ZWP_INPUT_METHOD_KEYBOARD_GRAB_V2; DATA_ZWP_INPUT_METHOD_MANAGER_V2;
  DATA_ZWP_INPUT_METHOD_V2; DATA_ZWP_INPUT_POPUP_SURFACE_V2; DATA_ZWP_LINUX_BUFFER_PARAMS_V1;
  DATA_ZWP_LINUX_DMABUF_FEEDBACK_V1; DATA_ZWP_LINUX_DMABUF_V1;
  DATA_ZWP_PRIMARY_SELECTION_DEVICE_MANAGER_V1; DATA_ZWP_PRIMARY_SELECTION_DEVICE_V1;
  DATA_ZWP_PRIMARY_SELECTION_OFFER_V1; DATA_ZWP_PRIMARY_SELECTION_SOURCE_V1;
  DATA_ZWP_VIRTUAL_KEYBOARD_MANAGER_V1; DATA_ZWP_VIRTUAL_KEYBOARD_V1].
End Tables.
Export Tables.

(** [intf as usize] *)
Definition intf_index (i : I.t) : nat :=
  default 0%nat (list_find (fun j => j = i) WAYLANDINTERFACE_LIST ≫= fun p => Some p.1).
Definition intf_data (i : I.t) : res WaylandData := index INTERFACE_TABLE (Z.of_nat (intf_index i)).
(** The method a message of an object of interface [i] calls, if the table has it. *)
Definition lookup_method (d : WaylandData) (m : MethodId) : option WaylandMethod :=
  match m with
  | Event x => evts d !! Z.to_nat x
  | Request x => reqs d !! Z.to_nat x
  end.

(** ** [lookup_intf_by_name]: binary search by name *)
Fixpoint bsearch_loop (fuel : nat) (cmp : nat -> comparison) (size base : nat) : nat :=
  match fuel with
  | O => base
  | S fuel =>
      if (1 <? size)%nat then
        let half := (size / 2)%nat in
        let mid := (base + half)%nat in
        bsearch_loop fuel cmp (size - half) (match cmp mid with Gt => base | _ => mid end)
      else base
  end.
(** [slice.binary_search_by(f)]: the size halves, so its initial value is enough fuel. *)
Definition binary_search_by {A} (l : list A) (f : A -> comparison) : option nat :=
  let cmp i := match l !! i with Some a => f a | None => Gt end in
  match l with
  | [] => None
  | _ => let base := bsearch_loop (length l) cmp (length l) 0 in
         match cmp base with Eq => Some base | _ => None end
  end.
Definition lookup_intf_by_name (name : string) : res (option I.t) :=
  match binary_search_by INTERFACE_TABLE (fun cand => String.compare (d_name cand) name) with
  | Some idx => i ← unwrap (interface_try_from (Z.of_nat idx)); Ok (Some i)
  | None => Ok None
  end.

(** ** Generated messages *)
Record Msg := MkMsg {
  g_name : string; g_intf : I.t; g_id : MethodId;
  (** file descriptors the message carries *)
  g_fds : Z;
  (** length of the header and the arguments of fixed size *)
  g_len : Z;
  g_args : list argument_type }.

Module Messages.
Definition req_wp_color_manager_v1_get_output : Msg :=
  MkMsg "get_output" I.WpColorManagerV1 (Request 1) 0 16 [TObj; TObj].
Definition req_wp_color_manager_v1_create_icc_creator : Msg :=
  MkMsg "create_icc_creator" I.WpColorManagerV1 (Request 4) 0 12 [TObj].
Definition req_wp_color_management_output_v1_get_image_description : Msg :=
  MkMsg "get_image_description" I.WpColorManagementOutputV1 (Request 1) 0 12 [TObj].
Definition req_wp_image_description_creator_icc_v1_set_icc_file : Msg :=
  MkMsg "set_icc_file" I.WpImageDescriptionCreatorIccV1 (Request 1) 1 16 [TUint; TUint].
Definition req_wp_image_description_v1_get_information : Msg :=
  MkMsg "get_information" I.WpImageDescriptionV1 (Request 1) 0 12 [TObj].
Definition evt_wp_image_description_info_v1_icc_file : Msg :=
  MkMsg "icc_file" I.WpImageDescriptionInfoV1 (Event 1) 1 12 [TUint].
Definition req_wp_commit_timing_manager_v1_get_timer : Msg :=
  MkMsg "get_timer" I.WpCommitTimingManagerV1 (Request 1) 0 16 [TObj; TObj].
Definition req_wp_commit_timer_v1_set_timestamp : Msg :=
  MkMsg "set_timestamp" I.WpCommitTimerV1 (Request 0) 0 20 [TUint; TUint; TUint].
Definition req_ext_data_control_manager_v1_create_data_source : Msg :=
  MkMsg "create_data_source" I.ExtDataControlManagerV1 (Request 0) 0 12 [TObj].
Definition req_ext_data_control_manager_v1_get_data_device : Msg :=
  MkMsg "get_data_device" I.ExtDataControlManagerV1 (Request 1) 0 16 [TObj; TObj].
Definition req_ext_data_control_device_v1_set_selection : Msg :=
  MkMsg "set_selection" I.ExtDataControlDeviceV1 (Request 0) 0 12 [TObj].
Definition evt_ext_data_control_device_v1_data_offer : Msg :=
  MkMsg "data_offer" I.ExtDataControlDeviceV1 (Event 0) 0 12 [TObj].
Definition evt_ext_data_control_device_v1_selection : Msg :=
  MkMsg "selection" I.ExtDataControlDeviceV1 (Event 1) 0 12 [TObj].
Definition req_ext_data_control_source_v1_offer : Msg :=
  MkMsg "offer" I.ExtDataControlSourceV1 (Request 0) 0 8 [TString].
Definition evt_ext_data_control_source_v1_send : Msg :=
  MkMsg "send" I.ExtDataControlSourceV1 (Event 0) 1 8 [TString].
Definition req_ext_data_control_offer_v1_receive : Msg :=
  MkMsg "receive" I.ExtDataControlOfferV1 (Request 0) 1 8 [TString].
Definition evt_ext_data_control_offer_v1_offer : Msg :=
  MkMsg "offer" I.ExtDataControlOfferV1 (Event 0) 0 8 [TString].
Definition req_ext_output_image_capture_source_manager_v1_create_source : Msg :=
  MkMsg "create_source" I.ExtOutputImageCaptureSourceManagerV1 (Request 0) 0 16 [TObj; TObj].
Definition req_ext_image_copy_capture_manager_v1_create_session : Msg :=
  MkMsg "create_session" I.ExtImageCopyCaptureManagerV1 (Request 0) 0 20 [TObj; TObj; TUint].
Definition evt_ext_image_copy_capture_session_v1_buffer_size : Msg :=
  MkMsg "buffer_size" I.ExtImageCopyCaptureSessionV1 (Event 0) 0 16 [TUint; TUint].
Definition evt_ext_image_copy_capture_session_v1_shm_format : Msg :=
  MkMsg "shm_format" I.ExtImageCopyCaptureSessionV1 (Event 1) 0 12 [TUint].
Definition evt_ext_image_copy_capture_session_v1_dmabuf_device : Msg :=
  MkMsg "dmabuf_device" I.ExtImageCopyCaptureSessionV1 (Event 2) 0 8 [TArray].
Definition evt_ext_image_copy_capture_session_v1_dmabuf_format : Msg :=
  MkMsg "dmabuf_format" I.ExtImageCopyCaptureSessionV1 (Event 3) 0 12 [TUint; TArray].
Definition evt_ext_image_copy_capture_session_v1_done : Msg :=
  MkMsg "done" I.ExtImageCopyCaptureSessionV1 (Event 4) 0 8 [].
Definition req_ext_image_copy_capture_session_v1_create_frame : Msg :=
  MkMsg "create_frame" I.ExtImageCopyCaptureSessionV1 (Request 0) 0 12 [TObj].
Definition req_ext_image_copy_capture_session_v1_destroy : Msg :=
  MkMsg "destroy" I.ExtImageCopyCaptureSessionV1 (Request 1) 0 8 [].
Definition req_ext_image_copy_capture_frame_v1_destroy : Msg :=
  MkMsg "destroy" I.ExtImageCopyCaptureFrameV1 (Request 0) 0 8 [].
Definition req_ext_image_copy_capture_frame_v1_attach_buffer : Msg :=
  MkMsg "attach_buffer" I.ExtImageCopyCaptureFrameV1 (Request 1) 0 12 [TObj].
Definition req_ext_image_copy_capture_frame_v1_damage_buffer : Msg :=
  MkMsg "damage_buffer" I.ExtImageCopyCaptureFrameV1 (Request 2) 0 24 [TInt; TInt; TInt; TInt].
Definition req_ext_image_copy_capture_frame_v1_capture : Msg :=
  MkMsg "capture" I.ExtImageCopyCaptureFrameV1 (Request 3) 0 8 [].
Definition evt_ext_image_copy_capture_frame_v1_presentation_time : Msg :=
  MkMsg "presentation_time" I.ExtImageCopyCaptureFrameV1 (Event 2) 0 20 [TUint; TUint; TUint].
Definition evt_ext_image_copy_capture_frame_v1_ready : Msg :=
  MkMsg "ready" I.ExtImageCopyCaptureFrameV1 (Event 3) 0 8 [].
Definition evt_ext_image_copy_capture_frame_v1_failed : Msg :=
  MkMsg "failed" I.ExtImageCopyCaptureFrameV1 (Event 4) 0 12 [TUint].
Definition req_ext_image_copy_capture_cursor_session_v1_get_capture_session : Msg :=
  MkMsg "get_capture_session" I.ExtImageCopyCaptureCursorSessionV1 (Request 1) 0 12 [TObj].
Definition req_gtk_primary_selection_device_manager_create_source : Msg :=
  MkMsg "create_source" I.GtkPrimarySelectionDeviceManager (Request 0) 0 12 [TObj].
Definition req_gtk_primary_selection_device_manager_get_device : Msg :=
  MkMsg "get_device" I.GtkPrimarySelectionDeviceManager (Request 1) 0 16 [TObj; TObj].
Definition req_gtk_primary_selection_device_set_selection : Msg :=
  MkMsg "set_selection" I.GtkPrimarySelectionDevice (Request 0) 0 16 [TObj; TUint].
Definition evt_gtk_primary_selection_device_data_offer : Msg :=
  MkMsg "data_offer" I.GtkPrimarySelectionDevice (Event 0) 0 12 [TObj].
Definition evt_gtk_primary_selection_device_selection : Msg :=
  MkMsg "selection" I.GtkPrimarySelectionDevice (Event 1) 0 12 [TObj].
Definition req_gtk_primary_selection_offer_receive : Msg :=
  MkMsg "receive" I.GtkPrimarySelectionOffer (Request 0) 1 8 [TString].
Definition evt_gtk_primary_selection_offer_offer : Msg :=
  MkMsg "offer" I.GtkPrimarySelectionOffer (Event 0) 0 8 [TString].
Definition req_gtk_primary_selection_source_offer : Msg :=
  MkMsg "offer" I.GtkPrimarySelectionSource (Request 0) 0 8 [TString].
Definition evt_gtk_primary_selection_source_send : Msg :=
  MkMsg "send" I.GtkPrimarySelectionSource (Event 0) 1 8 [TString].
Definition req_zwp_linux_dmabuf_v1_create_params : Msg :=
  MkMsg "create_params" I.ZwpLinuxDmabufV1 (Request 1) 0 12 [TObj].
Definition evt_zwp_linux_dmabuf_v1_format : Msg :=
  MkMsg "format" I.ZwpLinuxDmabufV1 (Event 0) 0 12 [TUint].
Definition evt_zwp_linux_dmabuf_v1_modifier : Msg :=
  MkMsg "modifier" I.ZwpLinuxDmabufV1 (Event 1) 0 20 [TUint; TUint; TUint].
Definition req_zwp_linux_dmabuf_v1_get_default_feedback : Msg :=
  MkMsg "get_default_feedback" I.ZwpLinuxDmabufV1 (Request 2) 0 12 [TObj].
Definition req_zwp_linux_dmabuf_v1_get_surface_feedback : Msg :=
  MkMsg "get_surface_feedback" I.ZwpLinuxDmabufV1 (Request 3) 0 16 [TObj; TObj].
Definition req_zwp_linux_buffer_params_v1_destroy : Msg :=
  MkMsg "destroy" I.ZwpLinuxBufferParamsV1 (Request 0) 0 8 [].
Definition req_zwp_linux_buffer_params_v1_add : Msg :=
  MkMsg "add" I.ZwpLinuxBufferParamsV1 (Request 1) 1 28 [TUint; TUint; TUint; TUint; TUint].
Definition req_zwp_linux_buffer_params_v1_create : Msg :=
  MkMsg "create" I.ZwpLinuxBufferParamsV1 (Request 2) 0 24 [TInt; TInt; TUint; TUint].
Definition evt_zwp_linux_buffer_params_v1_created : Msg :=
  MkMsg "created" I.ZwpLinuxBufferParamsV1 (Event 0) 0 12 [TObj].
Definition evt_zwp_linux_buffer_params_v1_failed : Msg :=
  MkMsg "failed" I.ZwpLinuxBufferParamsV1 (Event 1) 0 8 [].
Definition req_zwp_linux_buffer_params_v1_create_immed : Msg :=
  MkMsg "create_immed" I.ZwpLinuxBufferParamsV1 (Request 3) 0 28 [TObj; TInt; TInt; TUint; TUint].
Definition evt_zwp_linux_dmabuf_feedback_v1_done : Msg :=
  MkMsg "done" I.ZwpLinuxDmabufFeedbackV1 (Event 0) 0 8 [].
Definition evt_zwp_linux_dmabuf_feedback_v1_format_table : Msg :=
  MkMsg "format_table" I.ZwpLinuxDmabufFeedbackV1 (Event 1) 1 12 [TUint].
Definition evt_zwp_linux_dmabuf_feedback_v1_main_device : Msg :=
  MkMsg "main_device" I.ZwpLinuxDmabufFeedbackV1 (Event 2) 0 8 [TArray].
Definition evt_zwp_linux_dmabuf_feedback_v1_tranche_done : Msg :=
  MkMsg "tranche_done" I.ZwpLinuxDmabufFeedbackV1 (Event 3) 0 8 [].
Definition evt_zwp_linux_dmabuf_feedback_v1_tranche_target_device : Msg :=
  MkMsg "tranche_target_device" I.ZwpLinuxDmabufFeedbackV1 (Event 4) 0 8 [TArray].
Definition evt_zwp_linux_dmabuf_feedback_v1_tranche_formats : Msg :=
  MkMsg "tranche_formats" I.ZwpLinuxDmabufFeedbackV1 (Event 5) 0 8 [TArray].
Definition evt_zwp_linux_dmabuf_feedback_v1_tranche_flags : Msg :=
  MkMsg "tranche_flags" I.ZwpLinuxDmabufFeedbackV1 (Event 6) 0 12 [TUint].
Definition req_wp_linux_drm_syncobj_manager_v1_get_surface : Msg :=
  MkMsg "get_surface" I.WpLinuxDrmSyncobjManagerV1 (Request 1) 0 16 [TObj; TObj].
Definition req_wp_linux_drm_syncobj_manager_v1_import_timeline : Msg :=
  MkMsg "import_timeline" I.WpLinuxDrmSyncobjManagerV1 (Request 2) 1 12 [TObj].
Definition req_wp_linux_drm_syncobj_surface_v1_set_acquire_point : Msg :=
  MkMsg "set_acquire_point" I.WpLinuxDrmSyncobjSurfaceV1 (Request 1) 0 20 [TObj; TUint; TUint].
Definition req_wp_linux_drm_syncobj_surface_v1_set_release_point : Msg :=
  MkMsg "set_release_point" I.WpLinuxDrmSyncobjSurfaceV1 (Request 2) 0 20 [TObj; TUint; TUint].
Definition req_wp_presentation_destroy : Msg :=
  MkMsg "destroy" I.WpPresentation (Request 0) 0 8 [].
Definition req_wp_presentation_feedback : Msg :=
  MkMsg "feedback" I.WpPresentation (Request 1) 0 16 [TObj; TObj].
Definition evt_wp_presentation_clock_id : Msg :=
  MkMsg "clock_id" I.WpPresentation (Event 0) 0 12 [TUint].
Definition evt_wp_presentation_feedback_presented : Msg :=
  MkMsg "presented" I.WpPresentationFeedback (Event 1) 0 36 [TUint; TUint; TUint; TUint; TUint; TUint; TUint].
Definition req_zwp_primary_selection_device_manager_v1_create_source : Msg :=
  MkMsg "create_source" I.ZwpPrimarySelectionDeviceManagerV1 (Request 0) 0 12 [TObj].
Definition req_zwp_primary_selection_device_manager_v1_get_device : Msg :=
  MkMsg "get_device" I.ZwpPrimarySelectionDeviceManagerV1 (Request 1) 0 16 [TObj; TObj].
Definition req_zwp_primary_selection_device_v1_set_selection : Msg :=
  MkMsg "set_selection" I.ZwpPrimarySelectionDeviceV1 (Request 0) 0 16 [TObj; TUint].
Definition evt_zwp_primary_selection_device_v1_data_offer : Msg :=
  MkMsg "data_offer" I.ZwpPrimarySelectionDeviceV1 (Event 0) 0 12 [TObj].
Definition evt_zwp_primary_selection_device_v1_selection : Msg :=
  MkMsg "selection" I.ZwpPrimarySelectionDeviceV1 (Event 1) 0 12 [TObj].
Definition req_zwp_primary_selection_offer_v1_receive : Msg :=
  MkMsg "receive" I.ZwpPrimarySelectionOfferV1 (Request 0) 1 8 [TString].
Definition evt_zwp_primary_selection_offer_v1_offer : Msg :=
  MkMsg "offer" I.ZwpPrimarySelectionOfferV1 (Event 0) 0 8 [TString].
Definition req_zwp_primary_selection_source_v1_offer : Msg :=
  MkMsg "offer" I.ZwpPrimarySelectionSourceV1 (Request 0) 0 8 [TString].
Definition evt_zwp_primary_selection_source_v1_send : Msg :=
  MkMsg "send" I.ZwpPrimarySelectionSourceV1 (Event 0) 1 8 [TString].
Definition req_wp_security_context_manager_v1_create_listener : Msg :=
  MkMsg "create_listener" I.WpSecurityContextManagerV1 (Request 1) 2 12 [TObj].
Definition req_wp_security_context_v1_set_sandbox_engine : Msg :=
  MkMsg "set_sandbox_engine" I.WpSecurityContextV1 (Request 1) 0 8 [TString].
Definition req_wp_security_context_v1_set_app_id : Msg :=
  MkMsg "set_app_id" I.WpSecurityContextV1 (Request 2) 0 8 [TString].
Definition req_wp_security_context_v1_set_instance_id : Msg :=
  MkMsg "set_instance_id" I.WpSecurityContextV1 (Request 3) 0 8 [TString].
Definition req_wp_security_context_v1_commit : Msg :=
  MkMsg "commit" I.WpSecurityContextV1 (Request 4) 0 8 [].
Definition req_wp_viewporter_get_viewport : Msg :=
  MkMsg "get_viewport" I.WpViewporter (Request 1) 0 16 [TObj; TObj].
Definition req_wp_viewport_destroy : Msg :=
  MkMsg "destroy" I.WpViewport (Request 0) 0 8 [].
Definition req_wp_viewport_set_source : Msg :=
  MkMsg "set_source" I.WpViewport (Request 1) 0 24 [TInt; TInt; TInt; TInt].
Definition req_wp_viewport_set_destination : Msg :=
  MkMsg "set_destination" I.WpViewport (Request 2) 0 16 [TInt; TInt].
Definition req_wl_display_sync : Msg :=
  MkMsg "sync" I.WlDisplay (Request 0) 0 12 [TObj].
Definition req_wl_display_get_registry : Msg :=
  MkMsg "get_registry" I.WlDisplay (Request 1) 0 12 [TObj].
Definition evt_wl_display_error : Msg :=
  MkMsg "error" I.WlDisplay (Event 0) 0 16 [TObj; TUint; TString].
Definition evt_wl_display_delete_id : Msg :=
  MkMsg "delete_id" I.WlDisplay (Event 1) 0 12 [TUint].
Definition req_wl_registry_bind : Msg :=
  MkMsg "bind" I.WlRegistry (Request 0) 0 20 [TUint; TString; TUint; TObj].
Definition evt_wl_registry_global : Msg :=
  MkMsg "global" I.WlRegistry (Event 0) 0 16 [TUint; TString; TUint].
Definition evt_wl_registry_global_remove : Msg :=
  MkMsg "global_remove" I.WlRegistry (Event 1) 0 12 [TUint].
Definition evt_wl_callback_done : Msg :=
  MkMsg "done" I.WlCallback (Event 0) 0 12 [TUint].
Definition req_wl_compositor_create_surface : Msg :=
  MkMsg "create_surface" I.WlCompositor (Request 0) 0 12 [TObj].
Definition req_wl_shm_pool_create_buffer : Msg :=
  MkMsg "create_buffer" I.WlShmPool (Request 0) 0 32 [TObj; TInt; TInt; TInt; TInt; TUint].
Definition req_wl_shm_pool_destroy : Msg :=
  MkMsg "destroy" I.WlShmPool (Request 1) 0 8 [].
Definition req_wl_shm_pool_resize : Msg :=
  MkMsg "resize" I.WlShmPool (Request 2) 0 12 [TInt].
Definition req_wl_shm_create_pool : Msg :=
  MkMsg "create_pool" I.WlShm (Request 0) 1 16 [TObj; TInt].
Definition req_wl_buffer_destroy : Msg :=
  MkMsg "destroy" I.WlBuffer (Request 0) 0 8 [].
Definition evt_wl_buffer_release : Msg :=
  MkMsg "release" I.WlBuffer (Event 0) 0 8 [].
Definition req_wl_data_offer_receive : Msg :=
  MkMsg "receive" I.WlDataOffer (Request 1) 1 8 [TString].
Definition evt_wl_data_offer_offer : Msg :=
  MkMsg "offer" I.WlDataOffer (Event 0) 0 8 [TString].
Definition req_wl_data_source_offer : Msg :=
  MkMsg "offer" I.WlDataSource (Request 0) 0 8 [TString].
Definition evt_wl_data_source_send : Msg :=
  MkMsg "send" I.WlDataSource (Event 1) 1 8 [TString].
Definition req_wl_data_device_set_selection : Msg :=
  MkMsg "set_selection" I.WlDataDevice (Request 1) 0 16 [TObj; TUint].
Definition evt_wl_data_device_data_offer : Msg :=
  MkMsg "data_offer" I.WlDataDevice (Event 0) 0 12 [TObj].
Definition evt_wl_data_device_selection : Msg :=
  MkMsg "selection" I.WlDataDevice (Event 5) 0 12 [TObj].
Definition req_wl_data_device_manager_create_data_source : Msg :=
  MkMsg "create_data_source" I.WlDataDeviceManager (Request 0) 0 12 [TObj].
Definition req_wl_data_device_manager_get_data_device : Msg :=
  MkMsg "get_data_device" I.WlDataDeviceManager (Request 1) 0 16 [TObj; TObj].
Definition req_wl_surface_destroy : Msg :=
  MkMsg "destroy" I.WlSurface (Request 0) 0 8 [].
Definition req_wl_surface_attach : Msg :=
  MkMsg "attach" I.WlSurface (Request 1) 0 20 [TObj; TInt; TInt].
Definition req_wl_surface_damage : Msg :=
  MkMsg "damage" I.WlSurface (Request 2) 0 24 [TInt; TInt; TInt; TInt].
Definition req_wl_surface_commit : Msg :=
  MkMsg "commit" I.WlSurface (Request 6) 0 8 [].
Definition req_wl_surface_set_buffer_transform : Msg :=
  MkMsg "set_buffer_transform" I.WlSurface (Request 7) 0 12 [TInt].
Definition req_wl_surface_set_buffer_scale : Msg :=
  MkMsg "set_buffer_scale" I.WlSurface (Request 8) 0 12 [TInt].
Definition req_wl_surface_damage_buffer : Msg :=
  MkMsg "damage_buffer" I.WlSurface (Request 9) 0 24 [TInt; TInt; TInt; TInt].
Definition evt_wl_seat_capabilities : Msg :=
  MkMsg "capabilities" I.WlSeat (Event 0) 0 12 [TUint].
Definition req_wl_seat_get_keyboard : Msg :=
  MkMsg "get_keyboard" I.WlSeat (Request 1) 0 12 [TObj].
Definition evt_wl_keyboard_keymap : Msg :=
  MkMsg "keymap" I.WlKeyboard (Event 0) 1 16 [TUint; TUint].
Definition req_wl_fixes_destroy : Msg :=
  MkMsg "destroy" I.WlFixes (Request 0) 0 8 [].
Definition req_wl_fixes_destroy_registry : Msg :=
  MkMsg "destroy_registry" I.WlFixes (Request 1) 0 12 [TObj].
Definition req_zwlr_data_control_manager_v1_create_data_source : Msg :=
  MkMsg "create_data_source" I.ZwlrDataControlManagerV1 (Request 0) 0 12 [TObj].
Definition req_zwlr_data_control_manager_v1_get_data_device : Msg :=
  MkMsg "get_data_device" I.ZwlrDataControlManagerV1 (Request 1) 0 16 [TObj; TObj].
Definition req_zwlr_data_control_device_v1_set_selection : Msg :=
  MkMsg "set_selection" I.ZwlrDataControlDeviceV1 (Request 0) 0 12 [TObj].
Definition evt_zwlr_data_control_device_v1_data_offer : Msg :=
  MkMsg "data_offer" I.ZwlrDataControlDeviceV1 (Event 0) 0 12 [TObj].
Definition evt_zwlr_data_control_device_v1_selection : Msg :=
  MkMsg "selection" I.ZwlrDataControlDeviceV1 (Event 1) 0 12 [TObj].
Definition req_zwlr_data_control_source_v1_offer : Msg :=
  MkMsg "offer" I.ZwlrDataControlSourceV1 (Request 0) 0 8 [TString].
Definition evt_zwlr_data_control_source_v1_send : Msg :=
  MkMsg "send" I.ZwlrDataControlSourceV1 (Event 0) 1 8 [TString].
Definition req_zwlr_data_control_offer_v1_receive : Msg :=
  MkMsg "receive" I.ZwlrDataControlOfferV1 (Request 0) 1 8 [TString].
Definition evt_zwlr_data_control_offer_v1_offer : Msg :=
  MkMsg "offer" I.ZwlrDataControlOfferV1 (Event 0) 0 8 [TString].
Definition req_zwlr_gamma_control_manager_v1_get_gamma_control : Msg :=
  MkMsg "get_gamma_control" I.ZwlrGammaControlManagerV1 (Request 0) 0 16 [TObj; TObj].
Definition evt_zwlr_gamma_control_v1_gamma_size : Msg :=
  MkMsg "gamma_size" I.ZwlrGammaControlV1 (Event 0) 0 12 [TUint].
Definition req_zwlr_gamma_control_v1_set_gamma : Msg :=
  MkMsg "set_gamma" I.ZwlrGammaControlV1 (Request 0) 1 8 [].
Definition req_zwlr_screencopy_manager_v1_capture_output : Msg :=
  MkMsg "capture_output" I.ZwlrScreencopyManagerV1 (Request 0) 0 20 [TObj; TInt; TObj].
Definition req_zwlr_screencopy_manager_v1_capture_output_region : Msg :=
  MkMsg "capture_output_region" I.ZwlrScreencopyManagerV1 (Request 1) 0 36 [TObj; TInt; TObj; TInt; TInt; TInt; TInt].
Definition evt_zwlr_screencopy_frame_v1_buffer : Msg :=
  MkMsg "buffer" I.ZwlrScreencopyFrameV1 (Event 0) 0 24 [TUint; TUint; TUint; TUint].
Definition req_zwlr_screencopy_frame_v1_copy : Msg :=
  MkMsg "copy" I.ZwlrScreencopyFrameV1 (Request 0) 0 12 [TObj].
Definition evt_zwlr_screencopy_frame_v1_ready : Msg :=
  MkMsg "ready" I.ZwlrScreencopyFrameV1 (Event 2) 0 20 [TUint; TUint; TUint].
Definition evt_zwlr_screencopy_frame_v1_failed : Msg :=
  MkMsg "failed" I.ZwlrScreencopyFrameV1 (Event 3) 0 8 [].
Definition req_zwlr_screencopy_frame_v1_destroy : Msg :=
  MkMsg "destroy" I.ZwlrScreencopyFrameV1 (Request 1) 0 8 [].
Definition req_zwlr_screencopy_frame_v1_copy_with_damage : Msg :=
  MkMsg "copy_with_damage" I.ZwlrScreencopyFrameV1 (Request 2) 0 12 [TObj].
Definition evt_zwlr_screencopy_frame_v1_linux_dmabuf : Msg :=
  MkMsg "linux_dmabuf" I.ZwlrScreencopyFrameV1 (Event 5) 0 20 [TUint; TUint; TUint].
Definition evt_zwlr_screencopy_frame_v1_buffer_done : Msg :=
  MkMsg "buffer_done" I.ZwlrScreencopyFrameV1 (Event 6) 0 8 [].
Definition req_xdg_wm_base_get_xdg_surface : Msg :=
  MkMsg "get_xdg_surface" I.XdgWmBase (Request 2) 0 16 [TObj; TObj].
Definition req_xdg_surface_get_toplevel : Msg :=
  MkMsg "get_toplevel" I.XdgSurface (Request 1) 0 12 [TObj].
Definition req_xdg_toplevel_set_title : Msg :=
  MkMsg "set_title" I.XdgToplevel (Request 2) 0 8 [TString].
Definition req_xdg_toplevel_icon_manager_v1_create_icon : Msg :=
  MkMsg "create_icon" I.XdgToplevelIconManagerV1 (Request 1) 0 12 [TObj].
Definition evt_xdg_toplevel_icon_manager_v1_icon_size : Msg :=
  MkMsg "icon_size" I.XdgToplevelIconManagerV1 (Event 0) 0 12 [TInt].
Definition evt_xdg_toplevel_icon_manager_v1_done : Msg :=
  MkMsg "done" I.XdgToplevelIconManagerV1 (Event 1) 0 8 [].
Definition req_xdg_toplevel_icon_v1_add_buffer : Msg :=
  MkMsg "add_buffer" I.XdgToplevelIconV1 (Request 2) 0 16 [TObj; TInt].

Definition ALL_MESSAGES : list Msg := [
  req_wp_color_manager_v1_get_output; req_wp_color_manager_v1_create_icc_creator;
  req_wp_color_management_output_v1_get_image_description;
  req_wp_image_description_creator_icc_v1_set_icc_file;
  req_wp_image_description_v1_get_information; evt_wp_image_description_info_v1_icc_file;
  req_wp_commit_timing_manager_v1_get_timer; req_wp_commit_timer_v1_set_timestamp;
  req_ext_data_control_manager_v1_create_data_source;
  req_ext_data_control_manager_v1_get_data_device;
  req_ext_data_control_device_v1_set_selection; evt_ext_data_control_device_v1_data_offer;
  evt_ext_data_control_device_v1_selection; req_ext_data_control_source_v1_offer;
  evt_ext_data_control_source_v1_send; req_ext_data_control_offer_v1_receive;
  evt_ext_data_control_offer_v1_offer;
  req_ext_output_image_capture_source_manager_v1_create_source;
  req_ext_image_copy_capture_manager_v1_create_session;
  evt_ext_image_copy_capture_session_v1_buffer_size;
  evt_ext_image_copy_capture_session_v1_shm_format;
  evt_ext_image_copy_capture_session_v1_dmabuf_device;
  evt_ext_image_copy_capture_session_v1_dmabuf_format;
  evt_ext_image_copy_capture_session_v1_done;
  req_ext_image_copy_capture_session_v1_create_frame;
  req_ext_image_copy_capture_session_v1_destroy; req_ext_image_copy_capture_frame_v1_destroy;
  req_ext_image_copy_capture_frame_v1_attach_buffer;
  req_ext_image_copy_capture_frame_v1_damage_buffer;
  req_ext_image_copy_capture_frame_v1_capture;
  evt_ext_image_copy_capture_frame_v1_presentation_time;
  evt_ext_image_copy_capture_frame_v1_ready; evt_ext_image_copy_capture_frame_v1_failed;
  req_ext_image_copy_capture_cursor_session_v1_get_capture_session;
  req_gtk_primary_selection_device_manager_create_source;
  req_gtk_primary_selection_device_manager_get_device;
  req_gtk_primary_selection_device_set_selection; evt_gtk_primary_selection_device_data_offer;
  evt_gtk_primary_selection_device_selection; req_gtk_primary_selection_offer_receive;
  evt_gtk_primary_selection_offer_offer; req_gtk_primary_selection_source_offer;
  evt_gtk_primary_selection_source_send; req_zwp_linux_dmabuf_v1_create_params;
  evt_zwp_linux_dmabuf_v1_format; evt_zwp_linux_dmabuf_v1_modifier;
  req_zwp_linux_dmabuf_v1_get_default_feedback; req_zwp_linux_dmabuf_v1_get_surface_feedback;
  req_zwp_linux_buffer_params_v1_destroy; req_zwp_linux_buffer_params_v1_add;
  req_zwp_linux_buffer_params_v1_create; evt_zwp_linux_buffer_params_v1_created;
  evt_zwp_linux_buffer_params_v1_failed; req_zwp_linux_buffer_params_v1_create_immed;
  evt_zwp_linux_dmabuf_feedback_v1_done; evt_zwp_linux_dmabuf_feedback_v1_format_table;
  evt_zwp_linux_dmabuf_feedback_v1_main_device; evt_zwp_linux_dmabuf_feedback_v1_tranche_done;
  evt_zwp_linux_dmabuf_feedback_v1_tranche_target_device;
  evt_zwp_linux_dmabuf_feedback_v1_tranche_formats;
  evt_zwp_linux_dmabuf_feedback_v1_tranche_flags;
  req_wp_linux_drm_syncobj_manager_v1_get_surface;
  req_wp_linux_drm_syncobj_manager_v1_import_timeline;
  req_wp_linux_drm_syncobj_surface_v1_set_acquire_point;
  req_wp_linux_drm_syncobj_surface_v1_set_release_point; req_wp_presentation_destroy;
  req_wp_presentation_feedback; evt_wp_presentation_clock_id;
  evt_wp_presentation_feedback_presented;
  req_zwp_primary_selection_device_manager_v1_create_source;
  req_zwp_primary_selection_device_manager_v1_get_device;
  req_zwp_primary_selection_device_v1_set_selection;
  evt_zwp_primary_selection_device_v1_data_offer;
  evt_zwp_primary_selection_device_v1_selection; req_zwp_primary_selection_offer_v1_receive;
  evt_zwp_primary_selection_offer_v1_offer; req_zwp_primary_selection_source_v1_offer;
  evt_zwp_primary_selection_source_v1_send; req_wp_security_context_manager_v1_create_listener;
  req_wp_security_context_v1_set_sandbox_engine; req_wp_security_context_v1_set_app_id;
  req_wp_security_context_v1_set_instance_id; req_wp_security_context_v1_commit;
  req_wp_viewporter_get_viewport; req_wp_viewport_destroy; req_wp_viewport_set_source;
  req_wp_viewport_set_destination; req_wl_display_sync; req_wl_display_get_registry;
  evt_wl_display_error; evt_wl_display_delete_id; req_wl_registry_bind; evt_wl_registry_global;
  evt_wl_registry_global_remove; evt_wl_callback_done; req_wl_compositor_create_surface;
  req_wl_shm_pool_create_buffer; req_wl_shm_pool_destroy; req_wl_shm_pool_resize;
  req_wl_shm_create_pool; req_wl_buffer_destroy; evt_wl_buffer_release;
  req_wl_data_offer_receive; evt_wl_data_offer_offer; req_wl_data_source_offer;
  evt_wl_data_source_send; req_wl_data_device_set_selection; evt_wl_data_device_data_offer;
  evt_wl_data_device_selection; req_wl_data_device_manager_create_data_source;
  req_wl_data_device_manager_get_data_device; req_wl_surface_destroy; req_wl_surface_attach;
  req_wl_surface_damage; req_wl_surface_commit; req_wl_surface_set_buffer_transform;
  req_wl_surface_set_buffer_scale; req_wl_surface_damage_buffer; evt_wl_seat_capabilities;
  req_wl_seat_get_keyboard; evt_wl_keyboard_keymap; req_wl_fixes_destroy;
  req_wl_fixes_destroy_registry; req_zwlr_data_control_manager_v1_create_data_source;
  req_zwlr_data_control_manager_v1_get_data_device;
  req_zwlr_data_control_device_v1_set_selection; evt_zwlr_data_control_device_v1_data_offer;
  evt_zwlr_data_control_device_v1_selection; req_zwlr_data_control_source_v1_offer;
  evt_zwlr_data_control_source_v1_send; req_zwlr_data_control_offer_v1_receive;
  evt_zwlr_data_control_offer_v1_offer; req_zwlr_gamma_control_manager_v1_get_gamma_control;
  evt_zwlr_gamma_control_v1_gamma_size; req_zwlr_gamma_control_v1_set_gamma;
  req_zwlr_screencopy_manager_v1_capture_output;
  req_zwlr_screencopy_manager_v1_capture_output_region; evt_zwlr_screencopy_frame_v1_buffer;
  req_zwlr_screencopy_frame_v1_copy; evt_zwlr_screencopy_frame_v1_ready;
  evt_zwlr_screencopy_frame_v1_failed; req_zwlr_screencopy_frame_v1_destroy;
  req_zwlr_screencopy_frame_v1_copy_with_damage; evt_zwlr_screencopy_frame_v1_linux_dmabuf;
  evt_zwlr_screencopy_frame_v1_buffer_done; req_xdg_wm_base_get_xdg_surface;
  req_xdg_surface_get_toplevel; req_xdg_toplevel_set_title;
  req_xdg_toplevel_icon_manager_v1_create_icon; evt_xdg_toplevel_icon_manager_v1_icon_size;
  evt_xdg_toplevel_icon_manager_v1_done; req_xdg_toplevel_icon_v1_add_buffer].
End Messages.
Export Messages.

Definition var_length (a : argument) : Z :=
  match a with
  | AString (Some s) => length_string (zlen s)
  | AArray v => length_array (zlen v)
  | _ => 0
  end.
(** [v += length_string(x_len)] for each argument of variable size *)
Definition length_msg (m : Msg) (args : list argument) : res Z :=
  foldM (fun v a => match a with AString _ | AArray _ => usize (v + var_length a) | _ => Ok v end)
    (g_len m) args.
Definition write_msg (m : Msg) (dst : bytes) (for_id : Z) (tag_fds : bool) (args : list argument) :
  res (bytes * bytes) :=
  l ← length_msg m args;
  h ← write_header dst for_id l (code (g_id m)) (if tag_fds then g_fds m else 0);
  w ← write_args h.2 args;
  Ok (h.1 ++ w.1, w.2).
(** [parse_string(..)?.ok_or(PARSE_ERROR)?] for the strings, which are not optional *)
Fixpoint parse_msg_args (tail : bytes) (l : list argument_type) : res (list argument * bytes) :=
  match l with
  | [] => Ok ([], tail)
  | t :: l =>
      a ← parse_arg tail t;
      (match a.1 with AString None => Err PARSE_ERROR | _ => Ok tt end);;
      rest ← parse_msg_args a.2 l;
      Ok (a.1 :: rest.1, rest.2)
  end.
Definition parse_msg (m : Msg) (msg : bytes) : res (list argument) :=
  match g_args m with
  | [] => if zlen msg =? 8 then Ok [] else Err PARSE_ERROR
  | l =>
      if zlen msg <? 8 then Err PARSE_ERROR else
      r ← parse_msg_args (drop 8 msg) l;
      if zlen r.2 =? 0 then Ok r.1 else Err PARSE_ERROR
  end.
