(* ===== verification/ProtocolCorrect.v ===== *)
(** * Interfaces are found by name, and generated messages agree with the tables and round-trip *)
From Stdlib Require Import ZArith Lia.
From S2P Require Import Prelude Wire Protocol.
Local Open Scope Z_scope.

(** ** Lookup by name *)
Definition name_of (i : I.t) : string :=
  match intf_data i with Ok d => d_name d | _ => "" end.

Lemma try_from_index i : interface_try_from (Z.of_nat (intf_index i)) = Some i.
Proof. by destruct i; vm_compute. Qed.
Lemma lookup_own_name i : lookup_intf_by_name (name_of i) = Ok (Some i).
Proof. destruct i; vm_compute; reflexivity. Qed.
Lemma index_names : forallb (fun k => match interface_try_from (Z.of_nat k), INTERFACE_TABLE !! k with
  | Some i, Some d => String.eqb (name_of i) (d_name d) | _, _ => false end) (seq 0 91) = true.
Proof. vm_compute. reflexivity. Qed.

Lemma binary_search_Some {A} (l : list A) f k : binary_search_by l f = Some k ->
  exists a, l !! k = Some a /\ f a = Eq.
Proof.
  unfold binary_search_by. destruct l as [|a0 l0] eqn:El; [done|]. rewrite <- El.
  set (b := bsearch_loop _ _ _ _). clearbody b. destruct (l !! b) as [a|] eqn:Ea; [|done].
  destruct (f a) eqn:Ef; try done. intros [= <-]. eauto.
Qed.
Lemma table_entry k d : INTERFACE_TABLE !! k = Some d ->
  exists i, interface_try_from (Z.of_nat k) = Some i /\ name_of i = d_name d.
Proof.
  intros Hk. pose proof (lookup_lt_Some _ _ _ Hk) as Hlt. change (length INTERFACE_TABLE) with 91%nat in Hlt.
  pose proof index_names as Hn. rewrite forallb_forall in Hn. specialize (Hn k).
  rewrite Hk in Hn. destruct (interface_try_from _) as [i|].
  - exists i. split; [done|]. apply String.eqb_eq, Hn, in_seq. lia.
  - discriminate Hn. apply in_seq. lia.
Qed.

(** [lookup_intf_by_name] never panics and finds an interface exactly by its name: the binary
    search over the table succeeds for every interface, and an answer has the name asked for. *)
Theorem lookup_intf_by_name_correct name :
  exists o, lookup_intf_by_name name = Ok o /\ forall i, o = Some i <-> name_of i = name.
Proof.
  unfold lookup_intf_by_name at 1. destruct (binary_search_by _ _) as [k|] eqn:E.
  - apply binary_search_Some in E as (d & Hd & Hc%String.compare_eq_iff).
    destruct (table_entry k d Hd) as (i & -> & Hi). cbn [unwrap mbind res_bind]. exists (Some i).
    split; [done|]. intros j. split; [intros [= <-]; congruence|]. intros Hj.
    pose proof (lookup_own_name i) as Li. pose proof (lookup_own_name j) as Lj. congruence.
  - exists None. split; [done|]. intros i. split; [done|]. intros Hi.
    pose proof (lookup_own_name i) as Li. unfold lookup_intf_by_name in Li. rewrite Hi, E in Li. done.
Qed.

(** ** Messages agree with the table *)
(** The arguments of a signature that are on the wire. *)
Definition wire_args (l : list WaylandArgument.t) : list argument_type :=
  flat_map (fun a => match a with
    | WaylandArgument.Int | WaylandArgument.Fixed => [TInt]
    | WaylandArgument.Uint => [TUint]
    | WaylandArgument.String | WaylandArgument.OptionalString => [TString]
    | WaylandArgument.Object _ | WaylandArgument.GenericObject | WaylandArgument.NewId _ => [TObj]
    | WaylandArgument.GenericNewId => [TString; TUint; TObj]
    | WaylandArgument.Array => [TArray]
    | WaylandArgument.Fd => []
    end) l.
Definition fd_args (l : list WaylandArgument.t) : Z :=
  zlen (List.filter (fun a => match a with WaylandArgument.Fd => true | _ => false end) l).
Definition fixed_args (l : list argument_type) : Z :=
  zlen (List.filter (fun a => match a with TString | TArray => false | _ => true end) l).
#[export] Instance argument_type_eq_dec : EqDecision argument_type.
Proof. solve_decision. Defined.

Definition method_of (m : Msg) : option WaylandMethod :=
  match intf_data (g_intf m) with Ok d => lookup_method d (g_id m) | _ => None end.
Definition matches_table (m : Msg) : bool :=
  match method_of m with
  | Some meth =>
      String.eqb (m_name meth) (g_name m) && bool_decide (wire_args (sig meth) = g_args m)
      && (fd_args (sig meth) =? g_fds m) && (g_len m =? 8 + 4 * fixed_args (g_args m))
      && (0 <=? code (g_id m)) && (code (g_id m) <? 256) && (0 <=? g_fds m) && (g_fds m <? 32)
  | None => false
  end.
Lemma all_match_table : forallb matches_table ALL_MESSAGES = true.
Proof. vm_compute. reflexivity. Qed.

(** C29: the two descriptions of a message agree: for every message with generated functions, the
    interface table has a method with its name at its opcode, whose signature has exactly the
    arguments the functions write and parse, in order, as many file descriptors as the header is
    tagged with, and the length the functions start from. *)
Theorem messages_match_table m : In m ALL_MESSAGES ->
  exists meth, method_of m = Some meth /\ m_name meth = g_name m /\
    wire_args (sig meth) = g_args m /\ fd_args (sig meth) = g_fds m /\
    g_len m = 8 + 4 * fixed_args (g_args m).
Proof.
  intros Hm. pose proof all_match_table as H. rewrite forallb_forall in H. specialize (H m Hm).
  unfold matches_table in H. destruct (method_of m) as [meth|]; [|done]. exists meth.
  repeat (apply andb_true_iff in H as [H ?]). split; [done|].
  apply String.eqb_eq in H. split; [done|]. rewrite bool_decide_eq_true in *. split; [done|]. lia.
Qed.
Lemma messages_match_table_witness :
  exists meth, method_of req_wl_surface_attach = Some meth /\ m_name meth = "attach" /\
    wire_args (sig meth) = [TObj; TInt; TInt] /\ fd_args (sig meth) = 0 /\
    20 = 8 + 4 * fixed_args [TObj; TInt; TInt].
Proof. apply (messages_match_table req_wl_surface_attach). vm_compute. tauto. Defined.

(** ** Round trips *)
Definition msg_args_ok (m : Msg) (args : list argument) : Prop :=
  map type_of args = g_args m /\ Forall (fun a => arg_ok a /\ a <> AString None) args.

Lemma fixed_args_cons a l : fixed_args (map type_of (a :: l)) =
  (match a with AString _ | AArray _ => 0 | _ => 1 end) + fixed_args (map type_of l).
Proof. unfold fixed_args. destruct a; cbn [map type_of List.filter]; rewrite ?zlen_cons; lia. Qed.
Lemma fixed_args_le l : Forall arg_ok l -> 0 <= 4 * fixed_args (map type_of l) <= args_length l.
Proof.
  induction 1 as [|a l Ha Hl IH]; [done|]. rewrite fixed_args_cons. cbn [args_length foldr].
  fold (args_length l). pose proof (args_length_nonneg [a] ltac:(by constructor)) as A. cbn in A.
  destruct a; cbn in *; lia.
Qed.

Lemma length_var l : Forall (fun a => arg_ok a /\ a <> AString None) l ->
  forall v, 0 <= v -> v + args_length l < 2 ^ 63 ->
  foldM (fun v a => match a with AString _ | AArray _ => usize (v + var_length a) | _ => Ok v end) v l
  = Ok (v + args_length l - 4 * fixed_args (map type_of l)).
Proof.
  induction 1 as [|a l [Ha Hn] Hl IH]; intros v Hv Hb; cbn [foldM args_length foldr].
  { f_equal. change (fixed_args (map type_of [])) with 0. lia. }
  cbn [args_length foldr] in Hb. fold (args_length l) in *.
  assert (0 <= args_length l) by (apply args_length_nonneg; eapply Forall_impl; [exact Hl|by intros ? []]).
  assert (0 <= arg_length a) by (pose proof (args_length_nonneg [a]) as A; cbn in A; specialize (A ltac:(by constructor)); lia).
  rewrite fixed_args_cons. destruct a as [x|x|x|[s|]|x]; cbn [arg_length var_length] in *; try by destruct Hn.
  all: try (rewrite chk_in by (unfold uN; lia)); cbn [mbind res_bind]; rewrite IH by lia; f_equal; lia.
Qed.

Lemma parse_msg_args_eq tail l args rest : parse_args tail l = Ok (args, rest) ->
  Forall (fun a => a <> AString None) args -> parse_msg_args tail l = Ok (args, rest).
Proof.
  revert tail args rest. induction l as [|t l IH]; intros tail args rest; cbn [parse_args parse_msg_args]; [done|].
  destruct (parse_arg tail t) as [[a r1]| |]; cbn [mbind res_bind fst snd]; [|done..].
  destruct (parse_args r1 l) as [[as1 r2]| |] eqn:E; cbn [mbind res_bind fst snd]; [|done..].
  intros [= <- <-] [Ha Hf]%Forall_cons. rewrite (IH _ _ _ E Hf). destruct a as [| | |[|]|]; done.
Qed.

Lemma zlen_drop8 (w rest : bytes) : zlen w = 8 -> drop 8 (w ++ rest) = rest.
Proof. intros H. apply drop_app_length'. unfold zlen in H. lia. Qed.

(** The facts that the table gives for a message. *)
Lemma message_facts m : In m ALL_MESSAGES ->
  g_len m = 8 + 4 * fixed_args (g_args m) /\ uN 8 (code (g_id m)) /\ uN 5 (g_fds m).
Proof.
  intros Hm. pose proof all_match_table as H. rewrite forallb_forall in H. specialize (H m Hm).
  unfold matches_table in H. destruct (method_of m) as [meth|]; [|done].
  repeat (apply andb_true_iff in H as [H ?]). unfold uN. split; [lia|]. split; lia.
Qed.
Lemma length_msg_ok m args : In m ALL_MESSAGES -> msg_args_ok m args -> args_length args < 2 ^ 60 ->
  length_msg m args = Ok (8 + args_length args).
Proof.
  intros Hm [Ht Ha] Hl. destruct (message_facts m Hm) as (Hg & _).
  assert (Hok : Forall arg_ok args) by (eapply Forall_impl; [exact Ha|by intros ? []]).
  pose proof (fixed_args_le args Hok) as Hfx. rewrite Ht in Hfx. unfold length_msg.
  rewrite length_var; [f_equal; rewrite Ht; lia|done|lia|lia].
Qed.

(** Writing a message into a buffer with room. *)
Lemma write_msg_ok m dst for_id (tag_fds : bool) args :
  In m ALL_MESSAGES -> msg_args_ok m args -> uN 32 for_id ->
  8 + args_length args < 2 ^ 16 -> 8 + args_length args <= zlen dst ->
  exists w, write_msg m dst for_id tag_fds args = Ok (w, drop (length w) dst) /\
    zlen w = 8 + args_length args /\ length_msg m args = Ok (zlen w) /\
    parse_wl_header w = Ok (for_id, zlen w, code (g_id m)) /\
    Z.land (Z.shiftr (from_le (slice w 4 8)) 11) 31 = (if tag_fds then g_fds m else 0) /\
    parse_msg m w = Ok args.
Proof.
  intros Hm [Ht Ha] Hid Hl Hd.
  destruct (message_facts m Hm) as (_ & Hc & Hf).
  assert (Hok : Forall arg_ok args) by (eapply Forall_impl; [exact Ha|by intros ? []]).
  assert (Hns : Forall (fun a => a <> AString None) args) by (eapply Forall_impl; [exact Ha|by intros ? []]).
  pose proof (args_length_nonneg args Hok).
  assert (HL : length_msg m args = Ok (8 + args_length args)) by (apply length_msg_ok; [done|done|lia]).
  unfold write_msg. rewrite HL. cbn [mbind res_bind].
  destruct (header_roundtrip dst for_id (8 + args_length args) (code (g_id m)) (if tag_fds then g_fds m else 0))
    as (h & -> & Hh & Hp & Hg); [done|unfold uN; lia|done|destruct tag_fds; [done|unfold uN; lia]|lia|].
  cbn [mbind res_bind fst snd]. destruct (args_roundtrip args (drop 8 dst) Hok) as (w & -> & Hw & Hpw).
  { unfold zlen in *. rewrite length_drop. lia. }
  cbn [mbind res_bind fst snd]. exists (h ++ w).
  assert (Hz : zlen (h ++ w) = 8 + args_length args) by (rewrite zlen_app; lia). rewrite Hz.
  split; [rewrite drop_drop, length_app; unfold zlen in Hh; replace (length h) with 8%nat by lia; reflexivity|].
  split; [done|]. split; [done|]. split; [|split].
  - unfold parse_wl_header in *. rewrite !get_range_ok in Hp |- * by zlia. cbn [mbind res_bind] in *.
    rewrite !slice_app_l by lia. done.
  - rewrite slice_app_l by lia. rewrite <- Hg. do 3 f_equal. unfold slice. apply take_ge. rewrite length_drop. unfold zlen in Hh. lia.
  - unfold parse_msg. specialize (Hpw []). rewrite app_nil_r, Ht in Hpw. apply parse_msg_args_eq in Hpw; [|done].
    rewrite Hz, (zlen_drop8 h w Hh). destruct (g_args m) as [|t l] eqn:Eg.
    + destruct args; [|done]. reflexivity.
    + rewrite (proj2 (Z.ltb_ge _ _)) by lia. rewrite Hpw. reflexivity.
Qed.

(** C28: every generated message round-trips: written with arguments of its types into a buffer
    with room, it succeeds as long as the message is shorter than [2^16] bytes, fills exactly the
    length it declares, has a header that gives object, length and opcode back, with the count of
    file descriptors in the tag bits, and is parsed back to the same arguments. *)
Theorem message_roundtrip m dst for_id (tag_fds : bool) args :
  In m ALL_MESSAGES -> msg_args_ok m args -> uN 32 for_id ->
  8 + args_length args < 2 ^ 16 -> 8 + args_length args <= zlen dst ->
  exists w rest, write_msg m dst for_id tag_fds args = Ok (w, rest) /\
    zlen w = 8 + args_length args /\ length_msg m args = Ok (zlen w) /\
    parse_wl_header w = Ok (for_id, zlen w, code (g_id m)) /\
    Z.land (Z.shiftr (from_le (slice w 4 8)) 11) 31 = (if tag_fds then g_fds m else 0) /\
    parse_msg m w = Ok args.
Proof. intros Hm Ha Hid Hl Hd. destruct (write_msg_ok m dst for_id tag_fds args Hm Ha Hid Hl Hd) as (w & H & ?). eauto. Qed.
Lemma message_roundtrip_witness :
  let args := [AUint 3; AString (Some [Byte.x77; Byte.x6c]); AUint 4] in
  let dst := replicate 40 Byte.xff in
  exists w rest, write_msg evt_wl_registry_global dst 2 false args = Ok (w, rest) /\
    zlen w = 8 + args_length args /\ length_msg evt_wl_registry_global args = Ok (zlen w) /\
    parse_wl_header w = Ok (2, zlen w, 0) /\
    Z.land (Z.shiftr (from_le (slice w 4 8)) 11) 31 = 0 /\
    parse_msg evt_wl_registry_global w = Ok args.
Proof.
  intros args dst. apply (message_roundtrip evt_wl_registry_global dst 2 false args).
  - vm_compute. tauto.
  - split; [reflexivity|]. repeat constructor; try done; vm_compute; congruence.
  - unfold uN; lia.
  - vm_compute. reflexivity.
  - vm_compute. congruence.
Defined.
