(* ===== verification/Channel.v ===== *)
(** * [src/mainloop.rs]: the queue of messages to the channel

    [TransferQueue] collects messages for the other Waypipe instance: [other_messages], then
    the protocol data behind its own header, and acknowledgements injected between messages.
    [write_to_channel] hands what is left to [writev], which may take any part of it, and
    accounts for what was taken. [writev] is an argument: the answer of the kernel for the
    total length offered. The model also returns the bytes taken, which the theorems are about. *)
From Stdlib Require Import ZArith Lia.
From S2P Require Import Prelude Util ReadBuffer.
Import Wmsg Arith.
Local Open Scope Z_scope.

(** [protocol_rids] holds the remote ids of the shadow fds queued with the protocol data. *)
Record TransferQueue := MkQ {
  protocol_data : bytes;
  protocol_len : Z;
  protocol_header_added : bool;
  protocol_rids : list Z;
  last_ack : Z;
  needs_new_ack : bool;
  ack_msg_cur : bytes;
  ack_msg_nxt : bytes;
  ack_nwritten : Z;
  other_messages : list bytes;
  expected_recvd_msgs : Z;
  nbytes_written : Z }.

Definition new_queue (protocol_data : bytes) : TransferQueue :=
  MkQ protocol_data 0 false [] 0 false (replicate 8 Byte.x00) (replicate 8 Byte.x00) 0 [] 0 0.

Definition set_messages (q : TransferQueue) (l : list bytes) : TransferQueue :=
  MkQ (protocol_data q) (protocol_len q) (protocol_header_added q) (protocol_rids q) (last_ack q)
      (needs_new_ack q) (ack_msg_cur q) (ack_msg_nxt q) (ack_nwritten q) l
      (expected_recvd_msgs q) (nbytes_written q).
Definition push_message (q : TransferQueue) (m : bytes) : TransferQueue :=
  set_messages q (other_messages q ++ [m]).
(** A message may be pushed in parts: header, data, padding. *)
Definition push_parts (q : TransferQueue) (parts : list bytes) : TransferQueue := foldl push_message q parts.

Definition send_protocol (q : TransferQueue) : bool :=
  (0 <? protocol_len q) && (expected_recvd_msgs q =? 0).
Definition has_from_way_output (q : TransferQueue) : bool :=
  negb (match other_messages q with [] => true | _ => false end)
  || (send_protocol q && (0 <? protocol_len q)) || needs_new_ack q || (0 <? ack_nwritten q).
Definition has_pending_compute_tasks (q : TransferQueue) : bool := 0 <? expected_recvd_msgs q.

(** ** [write_to_channel] *)
Inductive writev_ret := Wrote (n : Z) | WEPIPE | WECONNRESET | WEINTR | WEAGAIN | WEOTHER.

(** The state of the loop that collects the vectors. *)
Record collect := MkC { c_nwritten : Z; c_iovs : list bytes; c_injected : bool; c_partial : Z }.

(** Inject the acknowledgement once, and only where a message starts. *)
Definition inject (ack : option bytes) (c : collect) : collect :=
  match ack with
  | Some a => if negb (c_injected c) && (c_nwritten c =? 0)
              then MkC (c_nwritten c) (c_iovs c ++ [a]) true (c_partial c) else c
  | None => c
  end.
Definition collect_message (ack : option bytes) (c : collect) (v : bytes) : collect :=
  if zlen v <=? c_nwritten c
  then MkC (c_nwritten c - zlen v) (c_iovs c) (c_injected c) (c_partial c)
  else
    let c := inject ack c in
    let partial := if 0 <? c_nwritten c then zlen v - c_nwritten c else c_partial c in
    MkC 0 (c_iovs c ++ [drop (Z.to_nat (c_nwritten c)) v]) (c_injected c) partial.

Definition net_len (q : TransferQueue) : Z :=
  (if send_protocol q then protocol_len q else 0) + foldr (fun v n => zlen v + n) 0 (other_messages q).

(** The vectors passed to [writev], whether an ack was injected, and the length of the message
    in progress. *)
Definition gather (q : TransferQueue) : res (list bytes * bool * Z) :=
  iovs ← (if 0 <? ack_nwritten q then a ← get_from (ack_msg_cur q) (ack_nwritten q); Ok [a] else Ok []);
  let opt_whole_ack :=
    if needs_new_ack q
    then Some (if 0 <? ack_nwritten q then ack_msg_nxt q else ack_msg_cur q) else None in
  let c := foldl (collect_message opt_whole_ack) (MkC (nbytes_written q) iovs false 0) (other_messages q) in
  let c := inject opt_whole_ack c in
  if (c_nwritten c <? protocol_len q) && send_protocol q then
    p ← get_range (protocol_data q) (c_nwritten c) (protocol_len q);
    Ok (c_iovs c ++ [p], c_injected c, c_partial c)
  else Ok (c_iovs c, c_injected c, c_partial c).

(** Account for [len] bytes taken by the kernel. *)
Definition account (q : TransferQueue) (len : Z) (injected_whole_ack : bool) (first_partial_len : Z) :
  TransferQueue :=
  let ack_absorbed := if 0 <? ack_nwritten q then Z.min (8 - ack_nwritten q) len else 0 in
  let len := len - ack_absorbed in
  let ack := ack_nwritten q + ack_absorbed in
  let complete := (0 <? ack_nwritten q) && (ack =? 8) in
  let cur := if complete then ack_msg_nxt q else ack_msg_cur q in
  let ack := if complete then 0 else ack in
  let absorbed := if 0 <? first_partial_len then Z.min first_partial_len len else 0 in
  let nbytes := nbytes_written q + absorbed in
  let len := len - absorbed in
  let whole := if injected_whole_ack then Z.min 8 len else 0 in
  let ack := if injected_whole_ack && (whole <? 8) then whole else ack in
  let needs := if injected_whole_ack then false else needs_new_ack q in
  let nbytes := nbytes + (len - whole) in
  let done := nbytes =? net_len q in
  MkQ (protocol_data q) (if done && send_protocol q then 0 else protocol_len q)
      (if done && send_protocol q then false else protocol_header_added q) (protocol_rids q)
      (last_ack q) needs cur (ack_msg_nxt q) ack (if done then [] else other_messages q)
      (expected_recvd_msgs q) (if done then 0 else nbytes).

(** Returns whether the channel closed, the bytes taken, and the queue. *)
Definition write_to_channel (q : TransferQueue) (writev : Z -> writev_ret) :
  res (bool * bytes * TransferQueue) :=
  assert_ (net_len q mod 4 =? 0);;
  if (net_len q =? 0) && negb (needs_new_ack q) && (ack_nwritten q =? 0) then Ok (false, [], q) else
  assert_ ((nbytes_written q <? net_len q) || needs_new_ack q || (0 <? ack_nwritten q));;
  g ← gather q;
  let '(iovs, injected, partial) := g in
  let offered := concat iovs in
  match writev (zlen offered) with
  | Wrote n => Ok (false, take (Z.to_nat n) offered, account q n injected partial)
  | WEPIPE | WECONNRESET => Ok (true, [], q)
  | WEINTR | WEAGAIN => Ok (false, [], q)
  | WEOTHER => Err "Error writing to socket"
  end.

(** ** [process_wayland_2] *)
Definition rid_message (rids : list Z) : res bytes :=
  h ← build_wmsg_header InjectRIDs (zlen rids * 4 + 4);
  Ok (to_le 4 h ++ concat (map (to_le 4) rids)).
Definition protocol_header (len : Z) : res bytes :=
  h ← build_wmsg_header Protocol (len + 4); Ok (to_le 4 h).

Definition process_wayland_2 (q : TransferQueue) : res TransferQueue :=
  q ← (match protocol_rids q with
       | [] => Ok q
       | rids =>
           v ← rid_message rids;
           Ok (MkQ (protocol_data q) (protocol_len q) (protocol_header_added q) [] (last_ack q)
                 (needs_new_ack q) (ack_msg_cur q) (ack_msg_nxt q) (ack_nwritten q)
                 (other_messages q ++ [v]) (expected_recvd_msgs q) (nbytes_written q))
       end);
  if (0 <? protocol_len q) && negb (protocol_header_added q) then
    v ← protocol_header (protocol_len q);
    Ok (MkQ (protocol_data q) (protocol_len q) true (protocol_rids q) (last_ack q)
          (needs_new_ack q) (ack_msg_cur q) (ack_msg_nxt q) (ack_nwritten q)
          (other_messages q ++ [v]) (expected_recvd_msgs q) (nbytes_written q))
  else Ok q.

(** The acknowledgement the main loop queues when the message counter has changed. *)
Definition queue_ack (q : TransferQueue) (val : Z) : res TransferQueue :=
  if val =? last_ack q then Ok q else
  h ← build_wmsg_header AckNblocks 8;
  let msg := to_le 4 h ++ to_le 4 val in
  Ok (MkQ (protocol_data q) (protocol_len q) (protocol_header_added q) (protocol_rids q) val true
        (if 0 <? ack_nwritten q then ack_msg_cur q else msg)
        (if 0 <? ack_nwritten q then msg else ack_msg_nxt q)
        (ack_nwritten q) (other_messages q) (expected_recvd_msgs q) (nbytes_written q)).

(** ** Messages built here are whole *)
Lemma whole_message t len body :
  uN 27 len -> len mod 4 = 0 -> 4 <= len -> zlen body = len - 4 ->
  whole (to_le 4 (len * 32 + wmsg_code t) ++ body).
Proof.
  unfold uN. intros Hl Hm H4 Hb. pose proof (wmsg_code_range t). unfold whole.
  rewrite padded_len_app by (rewrite zlen_to_le4; lia). unfold get_message_padded_len.
  rewrite get_range_ok by zlia. cbn [mbind res_bind].
  replace (slice _ 0 (0 + 4)) with (to_le 4 (len * 32 + wmsg_code t))
    by (symmetry; apply (slice_all (to_le 4 (len * 32 + wmsg_code t)))).
  rewrite from_to_le4 by (unfold uN; lia). rewrite parse_build by done.
  cbn [ok_or mbind res_bind fst]. replace (len <? 4) with false by lia.
  rewrite align4_ok by lia. f_equal. rewrite zlen_app, zlen_to_le4. unfold div_ceil.
  Z.div_mod_to_equations; lia.
Qed.
Lemma concat_words_len l : zlen (concat (map (to_le 4) l)) = 4 * zlen l.
Proof.
  induction l as [|x l IH]; [done|]. cbn [map concat]. rewrite zlen_app, zlen_to_le4, zlen_cons, IH. lia.
Qed.
Lemma rid_message_ok rids :
  zlen rids < 2 ^ 24 -> exists m, rid_message rids = Ok m /\ whole m /\ zlen m = 4 + 4 * zlen rids.
Proof.
  intros. zlen_pos. unfold rid_message. rewrite build_wmsg_header_ok by (unfold uN; lia).
  cbn [mbind res_bind]. eexists; split; [done|]. split.
  - apply whole_message; [unfold uN; lia|Z.div_mod_to_equations; lia|lia|].
    rewrite concat_words_len. lia.
  - rewrite zlen_app, zlen_to_le4, concat_words_len. lia.
Qed.
Lemma protocol_header_ok len body :
  0 < len < 2 ^ 26 -> len mod 4 = 0 -> zlen body = len ->
  exists h, protocol_header len = Ok h /\ zlen h = 4 /\ whole (h ++ body).
Proof.
  intros. unfold protocol_header. rewrite build_wmsg_header_ok by (unfold uN; lia).
  cbn [mbind res_bind]. eexists; split; [done|]. split; [apply zlen_to_le4|].
  apply whole_message; [unfold uN; lia|Z.div_mod_to_equations; lia|lia|lia].
Qed.

(** ** Gathering without acknowledgements *)
Definition collected (c c' : collect) (b : bytes) : Prop :=
  concat (c_iovs c') = concat (c_iovs c) ++ drop (Z.to_nat (c_nwritten c)) b /\
  c_nwritten c' = Z.max 0 (c_nwritten c - zlen b) /\ c_injected c' = c_injected c /\
  (0 <= c_partial c -> 0 <= c_partial c').

Lemma collect_one c v : 0 <= c_nwritten c -> collected c (collect_message None c v) v.
Proof.
  intros Hc. zlen_pos. unfold collected, collect_message.
  destruct (Z.leb_spec (zlen v) (c_nwritten c)); cbn [inject c_iovs c_nwritten c_injected c_partial].
  - rewrite drop_ge by (unfold zlen in *; lia). rewrite app_nil_r. split_and!; try done; lia.
  - rewrite concat_app; cbn [concat]. rewrite app_nil_r. split_and!; try done; [lia|].
    intros. case_match; lia.
Qed.
Lemma collect_fold msgs : forall c, 0 <= c_nwritten c ->
  collected c (foldl (collect_message None) c msgs) (concat msgs).
Proof.
  induction msgs as [|v msgs IH]; intros c Hc; cbn [foldl concat].
  - unfold collected. rewrite drop_nil. rewrite app_nil_r. change (zlen []) with 0. split_and!; try done; lia.
  - destruct (collect_one c v Hc) as (E1&E2&E3&E4). zlen_pos.
    destruct (IH (collect_message None c v)) as (F1&F2&F3&F4); [lia|]. unfold collected.
    rewrite F1, F2, F3, E1, E2, E3, <- app_assoc, drop_app, zlen_app. zlen_pos.
    split_and!; try done; [|lia|auto]. do 3 f_equal. unfold zlen. lia.
Qed.

(** ** What is still to be written *)
Definition protocol_part (q : TransferQueue) : bytes :=
  if protocol_header_added q then take (Z.to_nat (protocol_len q)) (protocol_data q) else [].
Definition total (q : TransferQueue) : bytes := concat (other_messages q) ++ protocol_part q.
Definition unsent (q : TransferQueue) : bytes := drop (Z.to_nat (nbytes_written q)) (total q).

(** A queue with no acknowledgement to send (wire versions above 16). *)
Record queue_ok (q : TransferQueue) : Prop := {
  qo_noack : needs_new_ack q = false /\ ack_nwritten q = 0;
  qo_proto : 0 <= protocol_len q < 2 ^ 26 /\ protocol_len q <= zlen (protocol_data q) /\
             protocol_len q mod 4 = 0;
  qo_header : protocol_header_added q = true ->
              0 < protocol_len q /\ expected_recvd_msgs q = 0 /\ protocol_rids q = [];
  qo_msgs : zlen (concat (other_messages q)) mod 4 = 0;
  qo_written : 0 <= nbytes_written q /\
               (nbytes_written q < zlen (total q) \/ nbytes_written q = 0 /\ total q = []);
  qo_rids : zlen (protocol_rids q) < 2 ^ 24;
}.
(** The main loop adds the header as soon as the protocol data may be sent, before it writes. *)
Definition header_ready (q : TransferQueue) : Prop :=
  send_protocol q = true -> protocol_header_added q = true.

Lemma send_protocol_header q : queue_ok q -> header_ready q -> send_protocol q = protocol_header_added q.
Proof.
  intros Hq Hr. unfold header_ready in Hr. destruct (protocol_header_added q) eqn:E.
  - destruct (qo_header _ Hq E) as (?&?&_). unfold send_protocol. lia.
  - destruct (send_protocol q); [by rewrite Hr|done].
Qed.
Lemma net_len_total q :
  queue_ok q -> header_ready q -> net_len q = zlen (total q) /\ net_len q mod 4 = 0.
Proof.
  intros Hq Hr. unfold net_len, total, protocol_part. rewrite send_protocol_header by done.
  destruct (qo_proto _ Hq) as (?&?&Hm4). rewrite zlen_app.
  assert (E : foldr (fun v n => zlen v + n) 0 (other_messages q) = zlen (concat (other_messages q))).
  { induction (other_messages q) as [|v l IH]; [done|]. cbn [foldr concat]. rewrite IH, zlen_app. done. }
  pose proof (qo_msgs _ Hq) as E4.
  rewrite E. destruct (protocol_header_added q).
  - split; [|Z.div_mod_to_equations; lia]. unfold zlen at 3. rewrite length_take. unfold zlen in *. lia.
  - change (zlen []) with 0. split; [lia|done].
Qed.

Lemma gather_noack q : queue_ok q -> header_ready q ->
  exists iovs partial, gather q = Ok (iovs, false, partial) /\ concat iovs = unsent q /\ 0 <= partial.
Proof.
  intros Hq Hr. pose proof (net_len_total q Hq Hr) as [Hnet _].
  destruct (qo_noack _ Hq) as [Ha Hb], (qo_proto _ Hq) as (?&?&_), (qo_written _ Hq) as [Hw Hlt].
  unfold gather. rewrite Ha, Hb. cbn [Z.ltb Z.compare mbind res_bind inject].
  destruct (collect_fold (other_messages q) (MkC (nbytes_written q) [] false 0) Hw) as (E1&E2&E3&E4).
  cbn [c_iovs c_nwritten c_injected c_partial concat app] in E1, E2, E3, E4.
  set (c := foldl _ _ _) in *. rewrite E3. specialize (E4 ltac:(lia)).
  rewrite send_protocol_header by done. unfold unsent, total, protocol_part in *.
  destruct (protocol_header_added q) eqn:Eh; [|rewrite andb_false_r].
  - destruct (qo_header _ Hq Eh) as (?&_&_). rewrite andb_true_r.
    assert (Hp : zlen (take (Z.to_nat (protocol_len q)) (protocol_data q)) = protocol_len q)
      by (unfold zlen in *; rewrite length_take; lia). zlen_pos.
    assert (Hlt' : c_nwritten c < protocol_len q).
    { destruct Hlt as [Hlt|[_ Hn]]; [rewrite zlen_app in Hlt; lia|].
      apply app_eq_nil in Hn as [_ Hn]. rewrite Hn in Hp. rewrite zlen_nil in Hp. lia. }
    replace (_ <? _) with true by lia. rewrite get_range_ok by lia. cbn [mbind res_bind].
    eexists _, _; split; [done|]. split; [|done].
    rewrite concat_app; cbn [concat]. rewrite app_nil_r, E1, drop_app. f_equal.
    unfold slice. rewrite skipn_firstn_comm. f_equal; [unfold zlen in *; lia|f_equal; unfold zlen in *; lia].
  - eexists _, _; split; [done|]. by rewrite app_nil_r, E1.
Qed.

Lemma account_noack q n partial :
  queue_ok q -> header_ready q -> 0 <= partial -> 0 <= n <= zlen (unsent q) ->
  let q' := account q n false partial in
  queue_ok q' /\ unsent q = take (Z.to_nat n) (unsent q) ++ unsent q'.
Proof.
  intros Hq Hr Hp Hn. pose proof (net_len_total q Hq Hr) as [Hnet _].
  pose proof Hq as [[Ha Hb] Hpr Hh Hm [Hw Hlt] Hrids]. unfold account. rewrite Hb.
  cbn [Z.ltb Z.compare andb]. rewrite !Z.sub_0_r, !Z.add_0_r.
  set (ab := if 0 <? partial then _ else 0).
  replace (nbytes_written q + ab + (n - ab)) with (nbytes_written q + n) by lia.
  rewrite Hnet, send_protocol_header, Ha by done.
  assert (Hun : zlen (unsent q) = zlen (total q) - nbytes_written q).
  { unfold unsent, zlen in *. rewrite length_drop. destruct Hlt as [|[-> ->]]; cbn; lia. }
  destruct (Z.eqb_spec (nbytes_written q + n) (zlen (total q))) as [Ed|Ed]; cbn zeta; cbn [andb].
  - assert (En : n = zlen (unsent q)) by lia. split.
    + destruct Hpr as (?&?&?). split; cbn; try done.
      * destruct (protocol_header_added q); split_and!; try done; lia.
      * by destruct (protocol_header_added q).
      * split; [done|]. right. split; [done|]. unfold total, protocol_part; cbn.
        by destruct (protocol_header_added q).
    + rewrite En. unfold zlen. rewrite Nat2Z.id, firstn_all. unfold unsent at 3, total, protocol_part; cbn.
      destruct (protocol_header_added q); cbn; by rewrite app_nil_r.
  - split.
    + split; cbn; try done. split; [lia|]. left.
      enough (nbytes_written q + n < zlen (total q)) by done. lia.
    + unfold unsent at 3, total; cbn. fold (total q). unfold unsent.
      replace (Z.to_nat (nbytes_written q + n)) with (Z.to_nat (nbytes_written q) + Z.to_nat n)%nat by lia.
      rewrite <- drop_drop. by rewrite take_drop.
Qed.

Definition writev_ok (writev : Z -> writev_ret) : Prop :=
  forall t n, writev t = Wrote n -> 0 <= n <= t.

Lemma write_noack q writev :
  queue_ok q -> header_ready q -> writev_ok writev ->
  match write_to_channel q writev with
  | Ok (closed, w, q') => queue_ok q' /\ unsent q = w ++ unsent q'
  | Err _ => writev (zlen (unsent q)) = WEOTHER
  | Panic => False
  end.
Proof.
  intros Hq Hr Hwv. unfold write_to_channel. destruct (net_len_total q Hq Hr) as [Hnet H4].
  rewrite (assert_true (net_len q mod 4 =? 0)) by lia. cbn [mbind res_bind].
  destruct (qo_noack _ Hq) as [-> ->], (qo_written _ Hq) as [Hw Hlt]. cbn [negb].
  destruct (Z.eqb_spec (net_len q) 0) as [E0|E0]; [done|]. cbn [andb].
  rewrite assert_true. 2:{ destruct Hlt as [|[_ E]]; [lia|]. rewrite E, zlen_nil in Hnet. lia. }
  cbn [mbind res_bind].
  destruct (gather_noack q Hq Hr) as (iovs&partial&->&Ei&Hp). cbn [mbind res_bind].
  rewrite Ei.
  specialize (Hwv (zlen (unsent q))). destruct (writev (zlen (unsent q))) as [n| | | | |]; try done.
  apply account_noack; try done. by apply Hwv.
Qed.

(** ** The queue in the main loop

    [log] records the messages put on the channel, in order, and [sent] the bytes taken by the
    kernel. Messages, in one or several parts, are pushed at any time. Those of tasks and updates are pushed while no
    protocol header is queued: updates are collected when nothing is to be sent, and results are
    awaited, so that the header is not added yet. The exception is the message that a timeline point was
    signalled; [late] records that it was pushed behind a header.
    [process_wayland_1] leaves protocol data and remote ids only when nothing else is to be
    sent; [process_wayland_2] runs when no task result is awaited. *)
Record chan := MkChan { log : list bytes; sent : bytes; queue : TransferQueue; late : bool }.

Definition set_expected (q : TransferQueue) (n : Z) : TransferQueue :=
  MkQ (protocol_data q) (protocol_len q) (protocol_header_added q) (protocol_rids q) (last_ack q)
      (needs_new_ack q) (ack_msg_cur q) (ack_msg_nxt q) (ack_nwritten q) (other_messages q)
      n (nbytes_written q).
Definition set_protocol (q : TransferQueue) (data : bytes) (len : Z) (rids : list Z) : TransferQueue :=
  MkQ data len (protocol_header_added q) rids (last_ack q) (needs_new_ack q) (ack_msg_cur q)
      (ack_msg_nxt q) (ack_nwritten q) (other_messages q) (expected_recvd_msgs q) (nbytes_written q).

(** The messages [process_wayland_2] adds. *)
Definition wayland_2_messages (q : TransferQueue) : res (list bytes) :=
  a ← (match protocol_rids q with [] => Ok [] | rids => v ← rid_message rids; Ok [v] end);
  b ← (if (0 <? protocol_len q) && negb (protocol_header_added q)
       then h ← protocol_header (protocol_len q);
            Ok [h ++ take (Z.to_nat (protocol_len q)) (protocol_data q)]
       else Ok []);
  Ok (a ++ b).

Inductive cstep : chan -> chan -> Prop :=
| cstep_push l s q t parts :
    whole (concat parts) ->
    cstep (MkChan l s q t) (MkChan (l ++ [concat parts]) s (push_parts q parts) (t || protocol_header_added q))
| cstep_expect l s q t n :
    protocol_header_added q = false -> 0 <= n -> cstep (MkChan l s q t) (MkChan l s (set_expected q n) t)
| cstep_protocol l s q t data len rids :
    has_from_way_output q = false -> protocol_len q = 0 -> protocol_header_added q = false ->
    0 <= len < 2 ^ 26 -> len <= zlen data -> len mod 4 = 0 -> zlen rids < 2 ^ 24 ->
    cstep (MkChan l s q t) (MkChan l s (set_protocol q data len rids) t)
| cstep_process_2 l s q t q' ms :
    has_pending_compute_tasks q = false -> process_wayland_2 q = Ok q' -> wayland_2_messages q = Ok ms ->
    0 <= expected_recvd_msgs q ->
    cstep (MkChan l s q t) (MkChan (l ++ ms) s q' t)
| cstep_write l s q t writev closed w q' :
    header_ready q -> writev_ok writev -> write_to_channel q writev = Ok (closed, w, q') ->
    cstep (MkChan l s q t) (MkChan l (s ++ w) q' t).
Inductive csteps : chan -> chan -> Prop :=
| csteps_refl c : csteps c c
| csteps_step c c' c'' : cstep c c' -> csteps c' c'' -> csteps c c''.

Record chan_inv (c : chan) : Prop := {
  ci_queue : queue_ok (queue c);
  ci_log : Forall whole (log c);
  ci_stream : late c = false -> concat (log c) = sent c ++ unsent (queue c);
}.

Lemma whole_len m : whole m -> 4 <= zlen m /\ zlen m mod 4 = 0.
Proof. intros Hm. destruct (padded_len_range _ _ _ Hm) as (?&?&_). lia. Qed.

Lemma unsent_app q q' m :
  queue_ok q -> total q' = total q ++ m -> nbytes_written q' = nbytes_written q ->
  unsent q' = unsent q ++ m.
Proof.
  intros Hq Ht Hn. unfold unsent. rewrite Ht, Hn. destruct (qo_written _ Hq) as [? [?|[-> ->]]]; [|done].
  apply drop_app_le. unfold zlen in *. lia.
Qed.
(** Appending a non-empty message keeps the queue in order. *)
Lemma queue_ok_append q q' m :
  queue_ok q -> total q' = total q ++ m -> nbytes_written q' = nbytes_written q -> 0 < zlen m ->
  0 <= nbytes_written q' /\ (nbytes_written q' < zlen (total q') \/ nbytes_written q' = 0 /\ total q' = []).
Proof.
  intros Hq Ht Hn Hm. rewrite Hn, Ht, zlen_app. destruct (qo_written _ Hq) as [? [?|[-> ->]]].
  - split; [done|]. left. lia.
  - split; [done|]. left. change (zlen []) with 0. lia.
Qed.

Lemma push_parts_messages parts : forall q, push_parts q parts = set_messages q (other_messages q ++ parts).
Proof.
  induction parts as [|m parts IH]; intros q; cbn [push_parts foldl].
  - rewrite app_nil_r. by destruct q.
  - fold (push_parts (push_message q m) parts). rewrite IH. cbn. by rewrite <- app_assoc.
Qed.
Lemma push_keeps q parts : queue_ok q -> whole (concat parts) -> queue_ok (push_parts q parts).
Proof.
  intros Hq [Hm1 Hm2]%whole_len. rewrite push_parts_messages. destruct (qo_written _ Hq) as [Hw Hlt].
  assert (Hz : zlen (total q) < zlen (total (set_messages q (other_messages q ++ parts)))).
  { unfold total, protocol_part. cbn. rewrite concat_app, !zlen_app. lia. }
  destruct Hq as [? ? ? Hm ? ?]. split; try done.
  - cbn. rewrite concat_app, zlen_app. Z.div_mod_to_equations; lia.
  - split; [done|]. left. pose proof (zlen_nonneg (total q)). change (nbytes_written (set_messages _ _)) with (nbytes_written q). destruct Hlt as [?|[E _]]; lia.
Qed.
Lemma push_ok q parts : queue_ok q -> protocol_header_added q = false -> whole (concat parts) ->
  queue_ok (push_parts q parts) /\ unsent (push_parts q parts) = unsent q ++ concat parts.
Proof.
  intros Hq Hh Hm. split; [by apply push_keeps|]. rewrite push_parts_messages. apply unsent_app; [done| |done].
  unfold total, protocol_part; cbn. by rewrite Hh, !app_nil_r, concat_app.
Qed.

Lemma header_push_ok q : queue_ok q -> protocol_header_added q = false -> protocol_rids q = [] ->
  expected_recvd_msgs q = 0 -> 0 < protocol_len q ->
  exists h, protocol_header (protocol_len q) = Ok h /\
    let m := h ++ take (Z.to_nat (protocol_len q)) (protocol_data q) in
    let q' := MkQ (protocol_data q) (protocol_len q) true (protocol_rids q) (last_ack q)
      (needs_new_ack q) (ack_msg_cur q) (ack_msg_nxt q) (ack_nwritten q)
      (other_messages q ++ [h]) (expected_recvd_msgs q) (nbytes_written q) in
    whole m /\ queue_ok q' /\ unsent q' = unsent q ++ m.
Proof.
  intros Hq Hh Hr He Hl. destruct (qo_proto _ Hq) as (?&?&?).
  destruct (protocol_header_ok (protocol_len q) (take (Z.to_nat (protocol_len q)) (protocol_data q)))
    as (h&->&Hh4&Hw); [lia|done|unfold zlen in *; rewrite length_take; lia|].
  exists h. split; [done|]. cbn zeta. set (q' := MkQ _ _ true _ _ _ _ _ _ _ _ _).
  assert (Ht : total q' = total q ++ h ++ take (Z.to_nat (protocol_len q)) (protocol_data q)).
  { unfold total, protocol_part; cbn. rewrite Hh, !app_nil_r, concat_app. cbn.
    by rewrite app_nil_r, app_assoc. }
  split; [done|]. split; [|by apply unsent_app].
  pose proof (queue_ok_append _ _ _ Hq Ht eq_refl ltac:(rewrite zlen_app; zlia)).
  destruct Hq as [? ? ? Hm ? ?]. split; try done. cbn. rewrite concat_app, zlen_app. cbn. rewrite app_nil_r, Hh4. Z.div_mod_to_equations; lia.
Qed.
Lemma rids_push_ok q r rs : queue_ok q -> protocol_rids q = r :: rs ->
  exists v, rid_message (r :: rs) = Ok v /\
    let q' := MkQ (protocol_data q) (protocol_len q) (protocol_header_added q) [] (last_ack q)
      (needs_new_ack q) (ack_msg_cur q) (ack_msg_nxt q) (ack_nwritten q)
      (other_messages q ++ [v]) (expected_recvd_msgs q) (nbytes_written q) in
    whole v /\ queue_ok q' /\ unsent q' = unsent q ++ v /\ protocol_header_added q = false.
Proof.
  intros Hq Er. pose proof (qo_rids _ Hq) as Hlen. rewrite Er in Hlen.
  destruct (rid_message_ok (r :: rs) Hlen) as (v&->&Hw&_). exists v. split; [done|]. cbn zeta.
  assert (Hh : protocol_header_added q = false).
  { destruct (protocol_header_added q) eqn:E; [|done]. destruct (qo_header _ Hq E) as (_&_&?). congruence. }
  destruct (push_ok q [v] Hq Hh) as [Hq' Hu]; [cbn; by rewrite app_nil_r|]. cbn [concat] in Hu. rewrite app_nil_r in Hu.
  split; [done|]. split; [|by split].
  destruct Hq'; split; try done; cbn in *. congruence.
Qed.

Lemma process_wayland_2_ok q : queue_ok q -> expected_recvd_msgs q = 0 ->
  exists q' ms, process_wayland_2 q = Ok q' /\ wayland_2_messages q = Ok ms /\
    queue_ok q' /\ Forall whole ms /\ unsent q' = unsent q ++ concat ms.
Proof.
  intros Hq He. unfold process_wayland_2, wayland_2_messages.
  assert (Hstep : forall q1, queue_ok q1 -> expected_recvd_msgs q1 = 0 -> protocol_rids q1 = [] ->
    exists q' ms, (if (0 <? protocol_len q1) && negb (protocol_header_added q1) then
        v ← protocol_header (protocol_len q1);
        Ok (MkQ (protocol_data q1) (protocol_len q1) true (protocol_rids q1) (last_ack q1)
          (needs_new_ack q1) (ack_msg_cur q1) (ack_msg_nxt q1) (ack_nwritten q1)
          (other_messages q1 ++ [v]) (expected_recvd_msgs q1) (nbytes_written q1))
      else Ok q1) = Ok q' /\
      (if (0 <? protocol_len q1) && negb (protocol_header_added q1) then
        h ← protocol_header (protocol_len q1);
        Ok [h ++ take (Z.to_nat (protocol_len q1)) (protocol_data q1)] else Ok []) = Ok ms /\
      queue_ok q' /\ Forall whole ms /\ unsent q' = unsent q1 ++ concat ms).
  { intros q1 Hq1 He1 Hr1. destruct (Z.ltb_spec 0 (protocol_len q1)); cbn [andb].
    - destruct (protocol_header_added q1) eqn:Eh; cbn [negb].
      + exists q1, []. rewrite app_nil_r. by split_and!.
      + destruct (header_push_ok q1 Hq1 Eh Hr1 He1 ltac:(lia)) as (h&->&?&?&?). cbn [mbind res_bind].
        eexists _, _. split; [done|]. split; [done|]. split; [done|].
        split; [by repeat constructor|]. cbn [concat]. by rewrite app_nil_r.
    - exists q1, []. rewrite app_nil_r. by split_and!. }
  destruct (protocol_rids q) as [|r rs] eqn:Er; cbn [mbind res_bind].
  - destruct (Hstep q Hq He Er) as (q'&ms&->&->&?&?&?). exists q', ms. by split_and!.
  - destruct (rids_push_ok q r rs Hq Er) as (v&->&Hw&Hq1&Hu&Hh). cbn [mbind res_bind].
    destruct (Hstep _ Hq1) as (q'&ms&E1&E2&?&?&Hu'); [done|done|]. cbn in E1, E2, Hu'.
    cbn. rewrite E1, E2. cbn [mbind res_bind]. exists q', ([v] ++ ms). split_and!; try done.
    + by constructor.
    + rewrite Hu', Hu, <- app_assoc. done.
Qed.

Lemma cstep_inv c c' : chan_inv c -> cstep c c' -> chan_inv c'.
Proof.
  intros [Hq Hl Hs] Hst. inversion Hst as [l s q t parts Hw|l s q t n Hh Hn|l s q t data len rids Ho Hp0 Hh Hlen Hd H4 Hr
    |l s q t q' ms Hpend E1 E2 He|l s q t writev closed w q' Hr Hwv E]; subst; cbn in *.
  - split; cbn; [by apply push_keeps|apply Forall_app; by repeat constructor|].
    intros [Ht Hh]%orb_false_iff. destruct (push_ok q parts Hq Hh Hw) as [_ Hu].
    rewrite concat_app, (Hs Ht), Hu. cbn. by rewrite app_nil_r, app_assoc.
  - split; cbn; [|done|done]. destruct Hq. split; try done. intros. cbn in *. congruence.
  - assert (Hnil : other_messages q = []) by (unfold has_from_way_output in Ho; by destruct (other_messages q)).
    assert (Ht : total (set_protocol q data len rids) = total q)
      by (unfold total, protocol_part; cbn; by rewrite Hh).
    assert (Hu : unsent (set_protocol q data len rids) = unsent q) by (unfold unsent; by rewrite Ht).
    split; cbn [log sent queue late]; [|done|by rewrite Hu].
    destruct Hq as [? ? ? ? Hwr ?]. split; try done; [cbn; congruence|by rewrite Ht].
  - assert (expected_recvd_msgs q = 0) by (unfold has_pending_compute_tasks in Hpend; lia).
    destruct (process_wayland_2_ok q Hq) as (q2&ms2&E1'&E2'&?&?&Hu); [done|].
    rewrite E1 in E1'. rewrite E2 in E2'. injection E1' as <-. injection E2' as <-.
    split; cbn; [done|by apply Forall_app|]. intros Ht. by rewrite concat_app, Hs, Hu, app_assoc.
  - pose proof (write_noack q writev Hq Hr Hwv) as P. rewrite E in P. destruct P as [Hq' Hu].
    split; cbn; [done|done|]. intros Ht. by rewrite Hs, Hu, app_assoc.
Qed.
Lemma csteps_inv c c' : chan_inv c -> csteps c c' -> chan_inv c'.
Proof. intros Hc. induction 1; eauto using cstep_inv. Qed.
Lemma chan_init data : chan_inv (MkChan [] [] (new_queue data) false).
Proof.
  split; cbn; [|constructor|done]. pose proof (zlen_nonneg data).
  split; cbn; try done; try lia. split; [lia|]. by right.
Qed.

Lemma framed_whole ms r : Forall whole ms -> incomplete r -> framed (concat ms ++ r) ms r.
Proof.
  intros Hms Hr. induction Hms as [|m ms Hm _ IH]; cbn; [by constructor|].
  rewrite <- app_assoc. by constructor.
Qed.

(** C32: on connections without acknowledgements (wire version above 16), whatever parts a message is
    pushed in and whatever part the kernel takes of each write, the bytes sent are a prefix of the queued
    messages in order, with nothing lost, repeated or interleaved; once the queue is empty the receiver's framing
    of the bytes sent is exactly the messages queued. This holds until a timeline message is pushed behind a
    queued [Protocol] header ([late]); such a message goes between the header and its data
    ([late_push_interleaves]). *)
Theorem channel_stream (data : bytes) (c : chan) :
  csteps (MkChan [] [] (new_queue data) false) c -> late c = false ->
  concat (log c) = sent c ++ unsent (queue c) /\
  (other_messages (queue c) = [] -> protocol_header_added (queue c) = false ->
   framed (sent c) (log c) []).
Proof.
  intros Hsteps Hlate. destruct (csteps_inv _ _ (chan_init data) Hsteps) as [Hq Hl Hs]. specialize (Hs Hlate). split; [done|].
  intros Ho Hh. assert (Hu : unsent (queue c) = []).
  { unfold unsent, total, protocol_part. rewrite Ho, Hh. apply drop_nil. }
  rewrite Hu, app_nil_r in Hs. rewrite <- Hs, <- (app_nil_r (concat (log c))).
  apply framed_whole; [done|]. left. done.
Qed.

(** in every such state, writing (once the main loop has added a due protocol header) never
    panics, and fails only when [writev] does. *)
Theorem channel_write_total (data : bytes) (c : chan) (writev : Z -> writev_ret) :
  csteps (MkChan [] [] (new_queue data) false) c -> header_ready (queue c) -> writev_ok writev ->
  match write_to_channel (queue c) writev with
  | Ok _ => True
  | Err _ => writev (zlen (unsent (queue c))) = WEOTHER
  | Panic => False
  end.
Proof.
  intros Hsteps Hr Hw. destruct (csteps_inv _ _ (chan_init data) Hsteps) as [Hq _ _].
  pose proof (write_noack (queue c) writev Hq Hr Hw) as P.
  destruct (write_to_channel (queue c) writev) as [[[]]| |]; done.
Qed.

(** *** Witnesses: a [Close] message, then protocol data with one remote id, written in pieces *)
Definition close_msg : bytes := to_le 4 (4 * 32 + 18).
Lemma close_whole : whole close_msg.
Proof. by vm_compute. Qed.
(** It is pushed in two parts. *)
Definition close_parts : list bytes := [to_le 2 (4 * 32 + 18); to_le 2 0].
Lemma close_parts_whole : whole (concat close_parts).
Proof. by vm_compute. Qed.
(** A kernel that takes at most [n] bytes. *)
Definition take_n (n : Z) (t : Z) : writev_ret := if t <? 0 then WEAGAIN else Wrote (Z.min n t).
Lemma take_n_ok n : 0 <= n -> writev_ok (take_n n).
Proof. intros Hn t k. unfold take_n. destruct (Z.ltb_spec t 0); [done|]. intros [= <-]. lia. Qed.
Definition demo_data : bytes := replicate 8 Byte.x07.
Definition wrote_of (r : res (bool * bytes * TransferQueue)) : bool * bytes * TransferQueue :=
  match r with Ok x => x | _ => (true, [], new_queue []) end.
Definition demo_q1 : TransferQueue := push_parts (new_queue []) close_parts.
Definition demo_w1 : bool * bytes * TransferQueue := wrote_of (write_to_channel demo_q1 (take_n 100)).
Definition demo_q2 : TransferQueue := set_protocol demo_w1.2 demo_data 8 [5].
Definition demo_q3 : TransferQueue := match process_wayland_2 demo_q2 with Ok q => q | _ => demo_q2 end.
Definition demo_ms : list bytes := match wayland_2_messages demo_q2 with Ok ms => ms | _ => [] end.
Definition demo_w3 : bool * bytes * TransferQueue := wrote_of (write_to_channel demo_q3 (take_n 6)).
Definition demo_chan : chan := MkChan ([concat close_parts] ++ demo_ms) (demo_w1.1.2 ++ demo_w3.1.2) demo_w3.2 false.
Lemma demo_csteps : csteps (MkChan [] [] (new_queue []) false) demo_chan.
Proof.
  eapply csteps_step; [apply (cstep_push _ _ _ _ close_parts close_parts_whole)|].
  fold demo_q1. change (false || protocol_header_added (new_queue [])) with false. cbn [app].
  eapply csteps_step; [apply (cstep_write _ _ _ _ (take_n 100) demo_w1.1.1 demo_w1.1.2 demo_w1.2); [done|apply take_n_ok; lia|by vm_compute]|].
  eapply csteps_step; [apply (cstep_protocol _ _ _ _ demo_data 8 [5]); try (by vm_compute); lia|]. fold demo_q2.
  eapply csteps_step; [apply (cstep_process_2 _ _ _ _ demo_q3 demo_ms); by vm_compute|].
  eapply csteps_step; [apply (cstep_write _ _ _ _ (take_n 6) demo_w3.1.1 demo_w3.1.2 demo_w3.2); [done|apply take_n_ok; lia|by vm_compute]|].
  apply csteps_refl.
Qed.
Lemma channel_stream_witness :
  length (log demo_chan) = 3%nat /\ concat (log demo_chan) = sent demo_chan ++ unsent (queue demo_chan) /\
  (other_messages (queue demo_chan) = [] -> protocol_header_added (queue demo_chan) = false ->
   framed (sent demo_chan) (log demo_chan) []).
Proof. split; [by vm_compute|]. exact (channel_stream [] demo_chan demo_csteps eq_refl). Defined.

Lemma channel_write_total_witness : exists c,
  csteps (MkChan [] [] (new_queue []) false) c /\ unsent (queue c) = close_msg /\
  match write_to_channel (queue c) (take_n 3) with
  | Ok _ => True
  | Err _ => take_n 3 (zlen (unsent (queue c))) = WEOTHER
  | Panic => False
  end.
Proof.
  assert (H : csteps (MkChan [] [] (new_queue []) false) (MkChan [close_msg] [] (push_message (new_queue []) close_msg) false)).
  { eapply csteps_step; [apply (cstep_push _ _ _ _ [close_msg]); exact close_whole|]. apply csteps_refl. }
  eexists. split; [exact H|]. split; [reflexivity|].
  apply (channel_write_total [] _ (take_n 3) H); [done|apply take_n_ok; lia].
Defined.

(** ** Acknowledgements (wire version 16 and below) *)
Lemma collect_fold_fresh a msgs : forall iovs inj partial,
  exists iovs',
    inject (Some a) (foldl (collect_message (Some a)) (MkC 0 iovs inj partial) msgs)
      = MkC 0 iovs' true partial /\
    concat iovs' = concat iovs ++ (if inj then [] else a) ++ concat msgs.
Proof.
  induction msgs as [|v msgs IH]; intros iovs inj partial; cbn [foldl].
  - unfold inject; cbn. destruct inj; cbn; eexists; (split; [done|]).
    + by rewrite app_nil_r.
    + rewrite concat_app. done.
  - unfold collect_message at 2; cbn [c_nwritten c_iovs c_injected c_partial].
    destruct (Z.leb_spec (zlen v) 0) as [Hv|Hv].
    + assert (v = []) as -> by (apply zlen_zero_nil; pose proof (zlen_nonneg v); lia). cbn.
      destruct (IH iovs inj partial) as (iovs'&E&Hc). eauto.
    + destruct inj; cbn.
      * destruct (IH (iovs ++ [drop 0 v]) true partial) as (iovs'&E&Hc). exists iovs'. split; [done|].
        rewrite Hc, concat_app. cbn. by rewrite drop_0, app_nil_r, <- app_assoc.
      * destruct (IH ((iovs ++ [a]) ++ [drop 0 v]) true partial) as (iovs'&E&Hc). exists iovs'. split; [done|].
        rewrite Hc, !concat_app. cbn. by rewrite drop_0, !app_nil_r, <- !app_assoc.
Qed.

(** The queue without its acknowledgement. *)
Definition without_ack (q : TransferQueue) : TransferQueue :=
  MkQ (protocol_data q) (protocol_len q) (protocol_header_added q) (protocol_rids q) (last_ack q)
      false (ack_msg_cur q) (ack_msg_nxt q) 0 (other_messages q) (expected_recvd_msgs q) (nbytes_written q).

(** when the kernel takes whole writes, a queued acknowledgement goes out once, whole,
    before the queued messages, and nothing is left. *)
Theorem ack_sent_whole (q : TransferQueue) (writev : Z -> writev_ret) :
  queue_ok (without_ack q) -> header_ready q -> needs_new_ack q = true -> ack_nwritten q = 0 ->
  nbytes_written q = 0 -> zlen (ack_msg_cur q) = 8 -> (forall t, writev t = Wrote t) ->
  exists q', write_to_channel q writev = Ok (false, ack_msg_cur q ++ total q, q') /\
    has_from_way_output q' = false /\ queue_ok q'.
Proof.
  intros Hq Hr Hn Ha Hw H8 Hv.
  destruct (net_len_total (without_ack q) Hq Hr) as [Hnet H4].
  change (net_len (without_ack q)) with (net_len q) in Hnet, H4.
  change (total (without_ack q)) with (total q) in Hnet.
  pose proof (send_protocol_header (without_ack q) Hq Hr) as Hsp.
  change (send_protocol (without_ack q)) with (send_protocol q) in Hsp. cbn in Hsp.
  pose proof Hq as [_ (?&?&?) Hh Hm _ Hrids]; cbn in *.
  assert (Hg : exists iovs, gather q = Ok (iovs, true, 0) /\ concat iovs = ack_msg_cur q ++ total q).
  { unfold gather. rewrite Ha, Hn, Hw. cbn [Z.ltb Z.compare mbind res_bind].
    destruct (collect_fold_fresh (ack_msg_cur q) (other_messages q) [] false 0) as (iovs'&->&Hc).
    cbn [c_nwritten c_iovs c_injected c_partial]. rewrite Hsp. unfold total, protocol_part.
    destruct (protocol_header_added q); cbn [concat app] in Hc.
    - destruct (Hh eq_refl) as (?&_&_). replace (0 <? protocol_len q) with true by lia. cbn [andb].
      rewrite get_range_ok by lia. cbn [mbind res_bind]. eexists; split; [done|].
      rewrite concat_app, Hc. cbn. rewrite app_nil_r, <- app_assoc. unfold slice.
      by rewrite drop_0, Z.sub_0_r.
    - rewrite andb_false_r. eexists; split; [done|]. by rewrite Hc, app_nil_r. }
  destruct Hg as (iovs & Hg & Hc). unfold write_to_channel.
  rewrite (assert_true (net_len q mod 4 =? 0)) by lia. cbn [mbind res_bind]. rewrite Hn, andb_false_r.
  cbn [andb]. rewrite orb_true_r. cbn [orb assert_ mbind res_bind]. rewrite Hg. cbn [mbind res_bind].
  assert (Htk : forall s : bytes, take (Z.to_nat (zlen s)) s = s)
    by (intros s; unfold zlen; by rewrite Nat2Z.id, firstn_all).
  rewrite Hc, Hv, Htk. eexists. split; [done|].
  rewrite zlen_app, H8. zlen_pos. unfold account. rewrite Ha, Hw, Hnet, Hsp.
  cbn [Z.ltb Z.compare andb]. rewrite !Z.sub_0_r, !Z.add_0_l.
  replace (Z.min 8 (8 + zlen (total q))) with 8 by lia. cbn [Z.ltb Z.compare].
  replace (8 + zlen (total q) - 8 =? zlen (total q)) with true by lia. cbn [andb].
  split.
  - unfold has_from_way_output, send_protocol; cbn. destruct (protocol_header_added q) eqn:E; cbn; [done|].
    unfold send_protocol in Hsp. by rewrite Hsp.
  - split; cbn; try done.
    + destruct (protocol_header_added q); split_and!; try done; lia.
    + by destruct (protocol_header_added q).
    + split; [done|]. right. split; [done|]. unfold total, protocol_part; cbn.
      by destruct (protocol_header_added q).
Qed.
Lemma ack_sent_whole_witness :
  let q := push_message (new_queue []) close_msg in
  exists q1 q', queue_ack q 1 = Ok q1 /\
    write_to_channel q1 Wrote = Ok (false, ack_msg_cur q1 ++ total q1, q') /\
    has_from_way_output q' = false /\ queue_ok q'.
Proof.
  intros q. destruct (push_ok (new_queue []) [close_msg] (ci_queue _ (chan_init [])) eq_refl close_whole) as [Hq _].
  assert (E : exists q1, queue_ack q 1 = Ok q1) by (eexists; reflexivity).
  eexists. edestruct (ack_sent_whole) with (writev := Wrote) as (q'&?&?&?); cycle 7.
  - exists q'. split; [reflexivity|]. by split_and!.
  - destruct Hq; split; done.
  - intros Hs. vm_compute in Hs. done.
  - done.
  - done.
  - done.
  - done.
  - done.
Defined.

(** ** Where the accounting goes wrong: partial writes with acknowledgements, late messages *)

(** if the kernel stops before the injected acknowledgement, inside the message in progress,
    the acknowledgement is dropped: it is neither sent nor due any more. If it stops inside an
    acknowledgement already begun while the next one is due, both are forgotten and the rest of
    the first is never sent. *)
Theorem short_write_loses_ack (q : TransferQueue) (n partial : Z) :
  (ack_nwritten q = 0 -> 0 <= n <= partial -> 0 < partial ->
   let q' := account q n true partial in needs_new_ack q' = false /\ ack_nwritten q' = 0) /\
  (0 < ack_nwritten q < 8 -> 0 <= n < 8 - ack_nwritten q ->
   let q' := account q n true 0 in
   needs_new_ack q' = false /\ ack_nwritten q' = 0 /\ ack_msg_cur q' = ack_msg_cur q).
Proof.
  split.
  - intros Ha Hn Hp. unfold account; cbn. rewrite Ha. cbn. replace (0 <? partial) with true by lia.
    rewrite Z.sub_0_r. split; [done|]. case_match; lia.
  - intros Ha Hn. unfold account; cbn. replace (0 <? ack_nwritten q) with true by lia.
    replace (Z.min (8 - ack_nwritten q) n) with n by lia. cbn.
    replace (ack_nwritten q + n =? 8) with false by lia.
    rewrite Z.sub_diag. cbn. done.
Qed.
Lemma short_write_loses_ack_witness :
  let q := MkQ [] 0 false [] 1 true (replicate 8 Byte.x01) (replicate 8 Byte.x02) 3 [close_msg] 0 0 in
  let q' := account q 2 true 0 in
  needs_new_ack q' = false /\ ack_nwritten q' = 0 /\ ack_msg_cur q' = ack_msg_cur q.
Proof.
  apply (short_write_loses_ack
    (MkQ [] 0 false [] 1 true (replicate 8 Byte.x01) (replicate 8 Byte.x02) 3 [close_msg] 0 0) 2 1);
    cbn; lia.
Defined.

(** a message pushed after the protocol header is queued (as the main loop does when a
    timeline point is signalled) is written between the header and the protocol data, so the
    receiver does not get the protocol message. *)
Theorem late_push_interleaves :
  let q0 := set_protocol (new_queue []) demo_data 8 [] in
  exists h q1 w q2,
    process_wayland_2 q0 = Ok q1 /\ protocol_header 8 = Ok h /\
    write_to_channel (push_message q1 close_msg) Wrote = Ok (false, w, q2) /\
    w = h ++ close_msg ++ demo_data /\
    forall ms r, framed w ms r -> (h ++ demo_data) ∉ ms /\ close_msg ∉ ms.
Proof.
  eexists _, _, _, _. split; [reflexivity|]. split; [reflexivity|]. split; [reflexivity|].
  split; [reflexivity|]. intros ms r Hf.
  assert (Hg : framed (to_le 4 (12 * 32 + 0) ++ close_msg ++ demo_data)
    [to_le 4 (12 * 32 + 0) ++ close_msg ++ replicate 4 Byte.x07] (replicate 4 Byte.x07)).
  { change (to_le 4 (12 * 32 + 0) ++ close_msg ++ demo_data) with
      ((to_le 4 (12 * 32 + 0) ++ close_msg ++ replicate 4 Byte.x07) ++ replicate 4 Byte.x07).
    constructor; [by vm_compute|]. constructor. right. eexists. split; [by vm_compute|]. by vm_compute. }
  destruct (framed_det _ _ _ _ _ Hg Hf) as [<- _].
  split; intros Hin%list_elem_of_singleton; vm_compute in Hin; congruence.
Qed.
