(* ===== verification/Compress.v ===== *)
(** * [src/compress.rs] and the codec selection of [src/mainloop.rs]

    The LZ4 and Zstd C libraries are the class [CompLib]; [CompLibLaws] states what their
    headers document: the worst-case sizes of compressed data, that compression into a buffer
    of that size succeeds, and that decompression inverts it. *)
From Stdlib Require Import ZArith Lia.
From S2P Require Import Prelude Util.
Local Open Scope Z_scope.
Import Util.Options.

(** ** The C libraries

    Output buffers are the bytes written to them. A function that reports failure by an error
    code returns [None]; the LZ4 compressors report failure by writing nothing. Contexts carry
    no state between calls, so their creation is only whether the allocation succeeds. *)
Class CompLib := {
  ZSTD_createCCtx : bool;
  ZSTD_createDCtx : bool;
  LZ4_alloc_state : bool;
  ZSTD_compressBound : Z -> Z;
  ZSTD_CCtx_setLevel : Z -> bool;
  ZSTD_compress2 : Z -> bytes -> Z -> option bytes;
  ZSTD_decompressDCtx : bytes -> Z -> option bytes;
  LZ4_compressBound : Z -> Z;
  LZ4_compress_fast_extState : bytes -> Z -> Z -> bytes;
  LZ4_compress_HC_extStateHC : bytes -> Z -> Z -> bytes;
  LZ4_decompress_safe : bytes -> Z -> option bytes;
}.

(** [LZ4_MAX_INPUT_SIZE] *)
Definition lz4_max_input : Z := 0x7E000000.

Class CompLibLaws (L : CompLib) : Prop := {
  allocations : ZSTD_createCCtx = true /\ ZSTD_createDCtx = true /\ LZ4_alloc_state = true;
  (** [ZSTD_COMPRESSBOUND] *)
  zstd_bound n : 0 <= n <= lz4_max_input ->
    ZSTD_compressBound n = n + n / 2 ^ 8 + (if n <? 2 ^ 17 then (2 ^ 17 - n) / 2 ^ 11 else 0);
  zstd_level lvl : iN 8 lvl -> ZSTD_CCtx_setLevel lvl = true;
  zstd_compress lvl x : iN 8 lvl -> zlen x <= lz4_max_input ->
    exists c, ZSTD_compress2 lvl x (ZSTD_compressBound (zlen x)) = Some c /\
      zlen c <= ZSTD_compressBound (zlen x) /\ ZSTD_decompressDCtx c (zlen x) = Some x;
  (** [LZ4_COMPRESSBOUND] *)
  lz4_bound n : 0 <= n <= lz4_max_input -> LZ4_compressBound n = n + n / 255 + 16;
  lz4_fast x acc : zlen x <= lz4_max_input ->
    let c := LZ4_compress_fast_extState x (LZ4_compressBound (zlen x)) acc in
    zlen c <= LZ4_compressBound (zlen x) /\ LZ4_decompress_safe c (zlen x) = Some x;
  lz4_hc x lvl : zlen x <= lz4_max_input ->
    let c := LZ4_compress_HC_extStateHC x (LZ4_compressBound (zlen x)) lvl in
    zlen c <= LZ4_compressBound (zlen x) /\ LZ4_decompress_safe c (zlen x) = Some x;
}.

Definition zeros (n : Z) : bytes := replicate (Z.to_nat n) Byte.x00.

Lemma zlen_zeros n : 0 <= n -> zlen (zeros n) = n.
Proof. intros. unfold zeros. rewrite zlen_replicate. lia. Qed.
#[export] Hint Rewrite @zlen_zeros using lia : zlen.

(** [n.try_into::<i32>()] *)
Definition to_i32 (n : Z) : option Z := if in_I 32 n then Some n else None.

Section Codec.
Context {L : CompLib}.

(** ** [src/compress.rs] *)
Definition zstd_make_cctx : option unit := if ZSTD_createCCtx then Some tt else None.
Definition zstd_make_dctx : option unit := if ZSTD_createDCtx then Some tt else None.
Definition lz4_make_cctx : option unit := if LZ4_alloc_state then Some tt else None.

Definition zstd_compress_to_vec (input : bytes) (level pad_pre pad_post : Z) : res bytes :=
  let max_space := ZSTD_compressBound (zlen input) in
  a ← unwrap (checked 64 (max_space + pad_pre));
  req_space ← unwrap (checked 64 (a + pad_post));
  assert_ (req_space <=? isize_max);;
  assert_ (ZSTD_CCtx_setLevel level);;
  c ← unwrap (ZSTD_compress2 level input max_space);
  assert_ (zlen c <=? max_space);;
  Ok (zeros pad_pre ++ c ++ zeros pad_post).

Definition zstd_decompress_to_vec (input : bytes) (uncomp_len : Z) : res (option bytes) :=
  assert_ (uncomp_len <=? isize_max);;
  Ok (match ZSTD_decompressDCtx input uncomp_len with
      | Some v => if zlen v =? uncomp_len then Some v else None
      | None => None
      end).

(** The new contents of [dst], of length [dst_len]. *)
Definition zstd_decompress_to_slice (input : bytes) (dst_len : Z) : option bytes :=
  match ZSTD_decompressDCtx input dst_len with
  | Some v => if zlen v =? dst_len then Some v else None
  | None => None
  end.

Definition lz4_compress_to_vec (input : bytes) (level pad_pre pad_post : Z) : res bytes :=
  ilen ← unwrap (to_i32 (zlen input));
  let max_space := LZ4_compressBound ilen in
  m ← unwrap (checked 64 max_space);
  a ← unwrap (checked 64 (m + pad_pre));
  req_space ← unwrap (checked 64 (a + pad_post));
  assert_ (req_space <? isize_max);;
  let c := if level <=? 0 then LZ4_compress_fast_extState input max_space (- level)
           else LZ4_compress_HC_extStateHC input max_space level in
  assert_ (zlen c <=? max_space);;
  Ok (zeros pad_pre ++ c ++ zeros pad_post).

Definition lz4_decompress_to_slice (input : bytes) (dst_len : Z) : option bytes :=
  _ ← to_i32 (zlen input);
  olen ← to_i32 dst_len;
  v ← LZ4_decompress_safe input olen;
  if zlen v =? olen then Some v else None.

Definition lz4_decompress_to_vec (input : bytes) (uncomp_len : Z) : option bytes :=
  _ ← to_i32 (zlen input);
  olen ← to_i32 uncomp_len;
  v ← LZ4_decompress_safe input olen;
  if zlen v =? olen then Some v else None.

(** ** Codec selection, with the thread's cached contexts *)
Record ThreadCacheComp := MkCache { lz4_c : bool; zstd_c : bool; zstd_d : bool }.

Definition get_lz4_cctx (c : ThreadCacheComp) : res ThreadCacheComp :=
  if lz4_c c then Ok c
  else ok_or "Failed to make LZ4 compression context" lz4_make_cctx;; Ok (MkCache true (zstd_c c) (zstd_d c)).
Definition get_zstd_cctx (c : ThreadCacheComp) : res ThreadCacheComp :=
  if zstd_c c then Ok c
  else ok_or "Failed to make LZ4 compression context" zstd_make_cctx;;
       Ok (MkCache (lz4_c c) true (zstd_d c)).
Definition get_zstd_dctx (c : ThreadCacheComp) : res ThreadCacheComp :=
  if zstd_d c then Ok c
  else ok_or "Failed to make LZ4 compression context" zstd_make_dctx;;
       Ok (MkCache (lz4_c c) (zstd_c c) true).

(** The new contents of [dst], of length [dst_len]. *)
Definition decomp_into_slice (comp : Compression) (cache : ThreadCacheComp) (src : bytes)
    (dst_len : Z) : res (bytes * ThreadCacheComp) :=
  match comp with
  | CompNone => assert_ (zlen src =? dst_len);; Ok (src, cache)
  | Lz4 _ =>
      v ← ok_or "Failed to decompress" (lz4_decompress_to_slice src dst_len); Ok (v, cache)
  | Zstd _ =>
      cache ← get_zstd_dctx cache;
      v ← ok_or "Failed to decompress" (zstd_decompress_to_slice src dst_len); Ok (v, cache)
  end.

Definition decomp_into_vec (comp : Compression) (cache : ThreadCacheComp) (src : bytes)
    (uncomp_len : Z) : res (bytes * ThreadCacheComp) :=
  match comp with
  | CompNone => assert_ (zlen src =? uncomp_len);; Ok (src, cache)
  | Lz4 _ =>
      v ← ok_or "Failed to decompress" (lz4_decompress_to_vec src uncomp_len); Ok (v, cache)
  | Zstd _ =>
      cache ← get_zstd_dctx cache;
      o ← zstd_decompress_to_vec src uncomp_len;
      v ← ok_or "Failed to decompress" o; Ok (v, cache)
  end.

Definition comp_into_vec (comp : Compression) (cache : ThreadCacheComp) (src : bytes)
    (pad_pre pad_post : Z) : res (bytes * ThreadCacheComp) :=
  match comp with
  | CompNone => Ok (zeros pad_pre ++ src ++ zeros pad_post, cache)
  | Lz4 lvl =>
      cache ← get_lz4_cctx cache;
      v ← lz4_compress_to_vec src lvl pad_pre pad_post; Ok (v, cache)
  | Zstd lvl =>
      cache ← get_zstd_cctx cache;
      v ← zstd_compress_to_vec src lvl pad_pre pad_post; Ok (v, cache)
  end.

(** ** Round trip *)
Context `{Laws : !CompLibLaws L}.
#[local] Set Default Proof Using "All".

(** [c] is what [comp] makes of [x]: both decompression routines recover [x] from it. *)
Definition encodes (comp : Compression) (c x : bytes) : Prop :=
  zlen c <= zlen x + zlen x / 2 ^ 7 + 80 /\
  (forall cache, exists cache', decomp_into_vec comp cache c (zlen x) = Ok (x, cache')) /\
  (forall cache, exists cache', decomp_into_slice comp cache c (zlen x) = Ok (x, cache')).

Lemma contexts_ok c :
  (exists c', get_lz4_cctx c = Ok c') /\ (exists c', get_zstd_cctx c = Ok c') /\
  (exists c', get_zstd_dctx c = Ok c').
Proof.
  destruct allocations as (H1 & H2 & H3).
  unfold get_lz4_cctx, get_zstd_cctx, get_zstd_dctx, lz4_make_cctx, zstd_make_cctx, zstd_make_dctx.
  rewrite H1, H2, H3. repeat split; case_match; eauto.
Qed.

Lemma bounds_ok n : 0 <= n <= lz4_max_input ->
  0 <= ZSTD_compressBound n <= n + n / 2 ^ 7 + 80 /\
  0 <= LZ4_compressBound n <= n + n / 2 ^ 7 + 80 /\ n + n / 2 ^ 7 + 80 < 2 ^ 31.
Proof.
  intros Hn. rewrite zstd_bound, lz4_bound by done. unfold lz4_max_input in Hn.
  change (2 ^ 8) with 256. change (2 ^ 7) with 128. change (2 ^ 17) with 131072.
  change (2 ^ 11) with 2048. change (2 ^ 31) with 2147483648.
  assert (0 <= n / 256 <= n / 128) by (split; [apply Z.div_pos|apply Z.div_le_compat_l]; lia).
  assert (0 <= n / 255 <= n / 128) by (split; [apply Z.div_pos|apply Z.div_le_compat_l]; lia).
  assert (n / 128 * 128 <= n) by (pose proof (Z.mul_div_le n 128); lia).
  case_match; [|lia].
  assert (0 <= (131072 - n) / 2048 <= 64); [|lia].
  split; [apply Z.div_pos; lia|]. apply Z.div_le_upper_bound; lia.
Qed.

Lemma lz4_decode_ok c x : zlen x <= lz4_max_input -> zlen c <= 2 ^ 31 - 1 ->
  LZ4_decompress_safe c (zlen x) = Some x ->
  lz4_decompress_to_vec c (zlen x) = Some x /\ lz4_decompress_to_slice c (zlen x) = Some x.
Proof.
  intros Hx Hc E. unfold lz4_decompress_to_vec, lz4_decompress_to_slice, to_i32, in_I.
  unfold lz4_max_input in Hx. zlen_pos.
  replace (_ && (zlen c <? _)) with true by lia. replace (_ && (zlen x <? _)) with true by lia.
  cbn [mbind option_bind]. rewrite E. cbn [mbind option_bind]. by rewrite Z.eqb_refl.
Qed.

Lemma lz4_compress_ok x lvl pre post :
  zlen x <= lz4_max_input -> 0 <= pre <= 2 ^ 20 -> 0 <= post <= 2 ^ 20 ->
  exists c, lz4_compress_to_vec x lvl pre post = Ok (zeros pre ++ c ++ zeros post)
            /\ zlen c <= LZ4_compressBound (zlen x) /\ LZ4_decompress_safe c (zlen x) = Some x.
Proof.
  intros Hx Hpre Hpost. pose proof (zlen_nonneg x).
  destruct (bounds_ok (zlen x) ltac:(lia)) as (_ & Hl & Hm).
  exists (if lvl <=? 0 then LZ4_compress_fast_extState x (LZ4_compressBound (zlen x)) (- lvl)
     else LZ4_compress_HC_extStateHC x (LZ4_compressBound (zlen x)) lvl).
  assert (Hc : forall c : bytes, zlen c <= LZ4_compressBound (zlen x) ->
    (zlen c <=? LZ4_compressBound (zlen x)) = true) by lia.
  unfold lz4_compress_to_vec, to_i32, in_I. unfold lz4_max_input in Hx.
  replace (_ && (zlen x <? _)) with true by lia. cbn [unwrap mbind res_bind].
  unfold isize_max. mok. rewrite (assert_true (_ <? _)) by lia. cbn [mbind res_bind].
  destruct (lvl <=? 0).
  - destruct (lz4_fast x (- lvl) Hx) as [Hb Hd]. by rewrite (Hc _ Hb).
  - destruct (lz4_hc x lvl Hx) as [Hb Hd]. by rewrite (Hc _ Hb).
Qed.

Lemma zstd_compress_ok x lvl pre post :
  iN 8 lvl -> zlen x <= lz4_max_input -> 0 <= pre <= 2 ^ 20 -> 0 <= post <= 2 ^ 20 ->
  exists c, zstd_compress_to_vec x lvl pre post = Ok (zeros pre ++ c ++ zeros post)
            /\ zlen c <= ZSTD_compressBound (zlen x) /\ ZSTD_decompressDCtx c (zlen x) = Some x.
Proof.
  intros Hl Hx Hpre Hpost. pose proof (zlen_nonneg x).
  destruct (bounds_ok (zlen x) ltac:(lia)) as (Hz & _ & Hm).
  destruct (zstd_compress lvl x Hl Hx) as (c & E & Hc & Hd). exists c.
  unfold zstd_compress_to_vec. rewrite E, zstd_level by done.
  unfold isize_max. mok. done.
Qed.

Lemma comp_into_vec_ok comp cache x pre post :
  compression_wf comp -> zlen x <= lz4_max_input -> 0 <= pre <= 2 ^ 20 -> 0 <= post <= 2 ^ 20 ->
  exists c cache', comp_into_vec comp cache x pre post = Ok (zeros pre ++ c ++ zeros post, cache')
                   /\ encodes comp c x.
Proof.
  intros Hw Hx Hpre Hpost. pose proof (zlen_nonneg x).
  destruct (bounds_ok (zlen x) ltac:(lia)) as (Hzb & Hlb & Hm).
  destruct comp as [|lvl|lvl]; cbn [comp_into_vec compression_wf] in *.
  - exists x, cache. split; [done|]. split; [pose proof (Z.div_pos (zlen x) (2 ^ 7)); lia|].
    cbn [decomp_into_vec decomp_into_slice]. rewrite assert_true by lia. cbn. eauto.
  - destruct (contexts_ok cache) as ([c' ->] & _). cbn [mbind res_bind].
    destruct (lz4_compress_ok x lvl pre post) as (c & -> & Hc & Hd); [done..|].
    exists c, c'. split; [done|]. destruct (lz4_decode_ok c x Hx ltac:(lia) Hd) as [Hv Hs].
    split; [lia|]. unfold decomp_into_vec, decomp_into_slice. rewrite Hv, Hs. cbn. eauto.
  - destruct (contexts_ok cache) as (_ & [c' ->] & _). cbn [mbind res_bind].
    destruct (zstd_compress_ok x lvl pre post) as (c & -> & Hc & Hd); [done..|].
    exists c, c'. split; [done|]. split; [lia|].
    unfold decomp_into_vec, decomp_into_slice, zstd_decompress_to_vec, zstd_decompress_to_slice.
    rewrite Hd, Z.eqb_refl, assert_true by (unfold lz4_max_input, isize_max in *; lia).
    split; intros cc; destruct (contexts_ok cc) as (_ & _ & [c2 ->]); cbn; eauto.
Qed.

(** compression is lossless for every codec and level: on an input the codecs accept,
    [comp_into_vec] returns the compressed data between the requested zero padding, of bounded
    size, and both decompression routines recover the input from it in any thread. *)
Theorem compression_lossless comp cache x pre post :
  compression_wf comp -> zlen x <= lz4_max_input -> 0 <= pre <= 2 ^ 20 -> 0 <= post <= 2 ^ 20 ->
  exists c cache',
    comp_into_vec comp cache x pre post = Ok (zeros pre ++ c ++ zeros post, cache') /\
    zlen c <= zlen x + zlen x / 2 ^ 7 + 80 /\
    (forall ch, exists ch', decomp_into_vec comp ch c (zlen x) = Ok (x, ch')) /\
    (forall ch, exists ch', decomp_into_slice comp ch c (zlen x) = Ok (x, ch')).
Proof. apply comp_into_vec_ok. Qed.

End Codec.

(** ** A codec that satisfies the laws: stored blocks *)
Definition stored : CompLib := {|
  ZSTD_createCCtx := true; ZSTD_createDCtx := true; LZ4_alloc_state := true;
  ZSTD_compressBound n := n + n / 2 ^ 8 + (if n <? 2 ^ 17 then (2 ^ 17 - n) / 2 ^ 11 else 0);
  ZSTD_CCtx_setLevel _ := true;
  ZSTD_compress2 _ x cap := if zlen x <=? cap then Some x else None;
  ZSTD_decompressDCtx c cap := if zlen c <=? cap then Some c else None;
  LZ4_compressBound n := n + n / 255 + 16;
  LZ4_compress_fast_extState x _ _ := x;
  LZ4_compress_HC_extStateHC x _ _ := x;
  LZ4_decompress_safe c cap := if zlen c <=? cap then Some c else None;
|}.

#[export] Instance stored_laws : CompLibLaws stored.
Proof.
  assert (Hb : forall x : bytes, zlen x <= zlen x + zlen x / 2 ^ 8 +
    (if zlen x <? 2 ^ 17 then (2 ^ 17 - zlen x) / 2 ^ 11 else 0)).
  { intros x. pose proof (zlen_nonneg x). pose proof (Z.div_pos (zlen x) (2 ^ 8)).
    case_match; [|lia]. pose proof (Z.div_pos (2 ^ 17 - zlen x) (2 ^ 11)). lia. }
  assert (Hl : forall x : bytes, zlen x <= zlen x + zlen x / 255 + 16).
  { intros x. pose proof (zlen_nonneg x). pose proof (Z.div_pos (zlen x) 255). lia. }
  split; cbn [stored ZSTD_compressBound ZSTD_compress2 ZSTD_decompressDCtx LZ4_compressBound
    LZ4_compress_fast_extState LZ4_compress_HC_extStateHC LZ4_decompress_safe]; try done.
  - intros lvl x _ _. exists x. rewrite Z.leb_refl.
    replace (_ <=? _) with true by (specialize (Hb x); lia). auto.
  - intros x _ _. rewrite Z.leb_refl. auto.
  - intros x _ _. rewrite Z.leb_refl. auto.
Qed.

Lemma compression_lossless_witness :
  exists c cache',
    comp_into_vec (L := stored) (Zstd 3) (MkCache false false false) [Byte.x41; Byte.x42] 16 4
      = Ok (zeros 16 ++ c ++ zeros 4, cache') /\
    zlen c <= 2 + 2 / 2 ^ 7 + 80 /\
    (forall ch, exists ch', decomp_into_vec (L := stored) (Zstd 3) ch c 2
                            = Ok ([Byte.x41; Byte.x42], ch')) /\
    (forall ch, exists ch', decomp_into_slice (L := stored) (Zstd 3) ch c 2
                            = Ok ([Byte.x41; Byte.x42], ch')).
Proof.
  apply (compression_lossless (L := stored) (Zstd 3) (MkCache false false false)
           [Byte.x41; Byte.x42] 16 4); 
    [unfold compression_wf, iN; lia|by vm_compute|lia|lia].
Defined.
