(* ===== verification/Tasks.v ===== *)
(** * [src/mainloop.rs]: the tasks that replicate shared memory files

    The sending side splits the damage of a file into tasks ([split_damage], the file branch of
    [collect_updates]), computes a diff message per task ([run_diff_task]) or fills a read-only
    file ([construct_fill_transfers]); the receiving side decodes a message ([run_decomp_task])
    and applies it to the file and its mirror ([run_apply_task]). The file and mirror-only
    targets are modelled; a DMABUF target needs the Vulkan device. *)
From Stdlib Require Import ZArith Lia.
From S2P Require Import Prelude Util Kernel Mirror Compress.
Local Open Scope Z_scope.
Import Util.Wmsg Util.Arith Util.Options Kernel.Mapping Kernel.Construct Kernel.Apply.

Definition DIFF_CHUNKSIZE : Z := 262144.

(** ** Splitting damage into parts *)
Definition measure_step (final_chunk buf_size : Z) (st : Z * bool) (r : Z * Z) :
  res (Z * bool) :=
  let '(net_len, has_trailing) := st in
  assert_ (r.1 <? r.2);;
  assert_ ((r.1 mod 64 =? 0) && (r.2 mod 64 =? 0));;
  if final_chunk <? r.2 then
    if r.1 <? buf_size then
      assert_ (r.1 <=? final_chunk);;
      n ← usize (net_len + (final_chunk - r.1)); Ok (n, true)
    else Ok st
  else n ← usize (net_len + (r.2 - r.1)); Ok (n, has_trailing).

(** The [while] loop that fills one part: the state is the rest of a cut interval
    [prev_interval] and the intervals not yet taken; each iteration takes one of them. *)
Fixpoint take_part (fuel : nat) (final_chunk remaining : Z) (prev_interval : option (Z * Z))
    (intv_iter output : list (Z * Z)) : res (option (Z * Z) * list (Z * Z) * list (Z * Z)) :=
  match fuel with
  | O => Panic
  | S fuel =>
      if remaining <=? 0 then Ok (prev_interval, intv_iter, output) else
      let nxt := match prev_interval, intv_iter with
                 | Some x, it => Some (x, it)
                 | None, y :: it => Some (y, it)
                 | None, [] => None
                 end in
      match nxt with
      | None => Ok (None, [], output)
      | Some (cur, it) =>
          if (final_chunk <? cur.2) && (final_chunk <=? cur.1) then Ok (None, it, output) else
          let cur := if final_chunk <? cur.2 then (cur.1, final_chunk) else cur in
          d ← usize (cur.2 - cur.1);
          if wrap 32 d <=? remaining then
            take_part fuel final_chunk (remaining - wrap 32 d) None it
                      (output ++ [(wrap 32 cur.1, wrap 32 cur.2)])
          else
            e ← u32 (wrap 32 cur.1 + remaining);
            Ok (Some (cur.1 + remaining, cur.2), it, output ++ [(wrap 32 cur.1, e)])
      end
  end.

Definition part_step (final_chunk net_len nshards : Z)
    (st : option (Z * Z) * list (Z * Z) * list (list (Z * Z))) (i : Z) :
  res (option (Z * Z) * list (Z * Z) * list (list (Z * Z))) :=
  let '(prev_interval, intv_iter, parts) := st in
  s ← split_interval 0 (net_len / 64) nshards i;
  start ← u32 (64 * s);
  e ← split_interval 0 (net_len / 64) nshards (i + 1);
  end_ ← u32 (64 * e);
  remaining ← u32 (end_ - start);
  r ← take_part (S (S (length intv_iter))) final_chunk remaining prev_interval intv_iter [];
  let '(prev_interval, intv_iter, output) := r in
  Ok (prev_interval, intv_iter, parts ++ [output]).

(** [0..n] *)
Definition range (n : Z) : list Z := map Z.of_nat (seq 0 (Z.to_nat n)).

Definition split_damage (intervals : list (Z * Z)) (buf_size : Z) :
  res (Z * list (list (Z * Z))) :=
  let final_chunk := 64 * (buf_size / 64) in
  r ← foldM (measure_step final_chunk buf_size) (0, false) intervals;
  let '(net_len, has_trailing) := r in
  net_len ← unwrap (checked 32 net_len);
  assert_ (net_len mod 64 =? 0);;
  if net_len =? 0 then
    if (has_trailing : bool) then Ok (buf_size mod 64, [[]]) else Ok (0, [])
  else
    nshards ← ceildiv (net_len / 64) (DIFF_CHUNKSIZE / 64);
    let trail_size := buf_size mod 64 in
    r ← foldM (part_step final_chunk net_len nshards) (None, intervals, []) (range nshards);
    let '(_, _, parts) := r in
    Ok (if has_trailing then trail_size else 0, parts).

(** ** Files and the messages about them *)
Record ShadowFdFileCore := MkCore { mem_mirror : MirrorState; mapping : bytes }.

Inductive Damage := Everything | Intervals (l : list (Z * Z)).

(** [ShadowFdFile], with [remote_id] and [only_here] of its [ShadowFd]. *)
Record ShadowFdFile := MkFile {
  remote_id : Z; only_here : bool;
  buffer_size : Z; remote_bufsize : Z; readonly : bool; damage : Damage;
  core : option ShadowFdFileCore }.

Record DiffTask := MkDiff {
  d_rid : Z; d_region : option (Z * Z); d_intervals : list (Z * Z); d_trailing : Z;
  d_compression : Compression }.

Definition cat3x4 (a b c : bytes) : bytes := a ++ b ++ c.
Definition cat4x4 (a b c d : bytes) : bytes := a ++ b ++ c ++ d.

Definition open_msg (typ : WmsgType) (rid size : Z) : res bytes :=
  h ← build_wmsg_header typ 12;
  Ok (cat3x4 (to_le 4 h) (to_le 4 rid) (to_le 4 (wrap 32 size))).

Section Tasks.
Context {L : CompLib}.

(** *** Read-only files are sent whole *)
Definition fill_compress (compression : Compression) (output : bytes) : res bytes :=
  match compression with
  | CompNone => Ok output
  | Lz4 lvl => unwrap lz4_make_cctx;; lz4_compress_to_vec output lvl 0 0
  | Zstd lvl => unwrap zstd_make_cctx;; zstd_compress_to_vec output lvl 0 0
  end.

Definition fill_step (rid div_len nshards trail_size : Z) (mapping : bytes)
    (compression : Compression) (other_messages : list bytes) (i : Z) : res (list bytes) :=
  s ← split_interval 0 div_len nshards i;
  start ← u32 (64 * s);
  e ← split_interval 0 div_len nshards (i + 1);
  end_ ← u32 (64 * e);
  end_ ← (if i =? nshards - 1 then u32 (end_ + wrap 32 trail_size) else Ok end_);
  space ← u32 (end_ - start);
  output ← copy_from_mapping mapping start space;
  compressed ← fill_compress compression output;
  h ← build_wmsg_header BufferFill (16 + zlen compressed);
  let header := cat4x4 (to_le 4 h) (to_le 4 rid) (to_le 4 start) (to_le 4 end_) in
  n ← align4 (zlen compressed);
  let pad := n - zlen compressed in
  Ok (other_messages ++ [header; compressed] ++ (if 0 <? pad then [zeros pad] else [])).

Definition construct_fill_transfers (rid bufsize : Z) (mapping : bytes)
    (other_messages : list bytes) (compression : Compression) : res (list bytes) :=
  let div_len := wrap 32 (bufsize / 64) in
  nshards ← ceildiv div_len (DIFF_CHUNKSIZE / 64);
  let trail_size := bufsize mod 64 in
  let nshards := if (nshards =? 0) && (0 <? trail_size) then 1 else nshards in
  foldM (fill_step rid div_len nshards trail_size mapping compression) other_messages
        (range nshards).

(** *** The file branch of [collect_updates]

    Returns the file, the messages pushed to [other_messages] and the tasks pushed to
    [construct] (each also counts in [expected_recvd_msgs]). *)
Definition part_task (rid trail_len nparts : Z) (compression : Compression)
    (i : Z) (output : list (Z * Z)) : res DiffTask :=
  (if i =? nparts - 1 then assert_ (0 <? zlen output + trail_len)
   else assert_ (negb (zlen output =? 0)));;
  let region := match output, last output with
                | f :: _, Some l => Some (f.1, l.2)
                | _, _ => None
                end in
  Ok (MkDiff rid region output
        (if (i =? nparts - 1) && (0 <? trail_len) then wrap 32 trail_len else 0) compression).

Fixpoint part_tasks (rid trail_len nparts : Z) (compression : Compression) (i : Z)
    (parts : list (list (Z * Z))) : res (list DiffTask) :=
  match parts with
  | [] => Ok []
  | p :: parts =>
      t ← part_task rid trail_len nparts compression i p;
      l ← part_tasks rid trail_len nparts compression (i + 1) parts;
      Ok (t :: l)
  end.

(** Send the creation message, or the message for an increased size. *)
Definition announce_file (f : ShadowFdFile) (other_messages : list bytes) :
  res (ShadowFdFile * list bytes) :=
  r ← (if only_here f then
         msg ← open_msg OpenFile (remote_id f) (buffer_size f);
         Ok (MkFile (remote_id f) false (buffer_size f) (buffer_size f) (readonly f) (damage f)
               (core f), other_messages ++ [msg])
       else Ok (f, other_messages));
  let '(f, other_messages) := r in
  if remote_bufsize f <? buffer_size f then
    assert_ (negb (readonly f));;
    msg ← open_msg ExtendFile (remote_id f) (buffer_size f);
    Ok (MkFile (remote_id f) (only_here f) (buffer_size f) (buffer_size f) (readonly f)
          (damage f) (core f), other_messages ++ [msg])
  else Ok (f, other_messages).

(** Queue the diff tasks for the damage of a writable file, and reset it. *)
Definition queue_damage (f : ShadowFdFile) (compression : Compression) :
  res (ShadowFdFile * list DiffTask) :=
  full_end ← align (buffer_size f) 64;
  let damaged_intervals :=
    match damage f with Everything => [(0, full_end)] | Intervals x => x end in
  if zlen damaged_intervals =? 0 then Ok (f, []) else
  r ← split_damage damaged_intervals (buffer_size f);
  let '(trail_len, parts) := r in
  tasks ← part_tasks (remote_id f) trail_len (zlen parts) compression 0 parts;
  (if zlen parts =? 0 then Ok tt else unwrap (core f);; Ok tt);;
  Ok (MkFile (remote_id f) (only_here f) (buffer_size f) (remote_bufsize f) (readonly f)
        (Intervals []) (core f), tasks).

Definition collect_file (f : ShadowFdFile) (other_messages : list bytes)
    (compression : Compression) : res (ShadowFdFile * list bytes * list DiffTask) :=
  let first_visit := only_here f in
  r ← announce_file f other_messages;
  let '(f, other_messages) := r in
  if readonly f then
    if negb first_visit then Ok (f, other_messages, []) else
    c ← unwrap (core f);
    other_messages ← construct_fill_transfers (remote_id f) (buffer_size f) (mapping c)
                       other_messages compression;
    Ok (f, other_messages, [])
  else
    r ← queue_damage f compression;
    let '(f, tasks) := r in
    Ok (f, other_messages, tasks).

(** *** Computing a diff *)

(** Borrow [start..end] of a mirror, run [f] on the slice and release the range. *)
Definition with_range {A} (m : MirrorState) (start end_ : Z) (err : string)
    (f : bytes -> res (A * bytes)) : res (A * MirrorState) :=
  match get_mut_range m start end_ with
  | (_, None) => Err err
  | (m, Some x) =>
      v ← read_range m x;
      r ← f v;
      m ← write_range m x r.2;
      Ok (r.1, drop_range m x)
  end.

(** The diff of the task's region, into [dst]: its length, [dst] and the mirror. *)
Definition diff_region (task : DiffTask) (core : ShadowFdFileCore) (dst : bytes) :
  res (Z * bytes * MirrorState) :=
  match d_region task with
  | Some (start, end_) =>
      assert_ (start mod 64 =? 0);;
      assert_ (end_ mod 64 =? 0);;
      with_range (mem_mirror core) start end_ "Failed to acquire mirror for diff" (fun data =>
        r ← construct_diff dst (mapping core) (d_intervals task) data start;
        let '(n, dst, data) := r in
        Ok ((wrap 32 n, dst), data))
  | None => Ok ((0, dst), mem_mirror core)
  end.

(** The trailing bytes of the file, appended to [dst] if they changed. *)
Definition diff_trailing (task : DiffTask) (mapping : bytes) (mirror : MirrorState)
    (diff_len : Z) (dst : bytes) : res (Z * bytes * MirrorState) :=
  if 0 <? d_trailing task then
    let buflen := zlen (get_u8 mapping) in
    start ← usize (buflen - d_trailing task);
    with_range mirror start buflen "Failed to acquire trailing mirror" (fun data =>
      tail ← get_from dst diff_len;
      r ← copy_tail_if_diff tail mapping (d_trailing task) data;
      let '(changed, tail, data) := r in
      dst ← set_range dst diff_len (zlen dst) tail;
      Ok ((if (changed : bool) then d_trailing task else 0, dst), data))
  else Ok ((0, dst), mirror).

Definition diff_inner (task : DiffTask) (core : ShadowFdFileCore) (dst : bytes) :
  res (Z * Z * bytes * ShadowFdFileCore) :=
  r ← diff_region task core dst;
  let '(diff_len, dst, mirror) := r in
  r ← diff_trailing task (mapping core) mirror diff_len dst;
  let '(ntrailing, dst, mirror) := r in
  Ok (diff_len, ntrailing, dst, MkCore mirror (mapping core)).

(** [ThreadCache], without the Vulkan objects. *)
Record ThreadCache := MkTC { large : bytes; comp : ThreadCacheComp }.

Definition diff_space (intervals : list (Z * Z)) : res Z :=
  foldM (fun n t => a ← u32 (8 + t.2); b ← u32 (a - t.1); u32 (n + b)) 0 intervals.

(** Truncate and pad the message, and write its header. *)
Definition finish_diff_msg (msg : bytes) (rid unpadded_len diff_len ntrailing : Z) : res bytes :=
  n ← align4 unpadded_len;
  assert_ (n <=? zlen msg);;
  let msg := take (Z.to_nat n) msg in
  msg ← set_range msg unpadded_len n (zeros (n - unpadded_len));
  h ← build_wmsg_header BufferDiff unpadded_len;
  set_range msg 0 16 (cat4x4 (to_le 4 h) (to_le 4 rid) (to_le 4 diff_len) (to_le 4 ntrailing)).

(** The two ways to build the message of a diff that takes up to [space] bytes: in place, or
    in the cached buffer and then compressed. The message is empty if nothing changed. *)
Definition plain_diff_msg (task : DiffTask) (core : ShadowFdFileCore) (space : Z) :
  res (bytes * ShadowFdFileCore) :=
  n ← align4 space;
  let buf := zeros (n + 16) in
  dst ← get_range buf 16 (16 + space);
  r ← diff_inner task core dst;
  let '(diff_len, ntrailing, dst, core) := r in
  buf ← set_range buf 16 (16 + space) dst;
  if (diff_len =? 0) && (ntrailing =? 0) then Ok ([], core) else
  raw_len ← u32 (diff_len + ntrailing);
  msg ← finish_diff_msg buf (d_rid task) (16 + raw_len) diff_len ntrailing;
  Ok (msg, core).

Definition compressed_diff_msg (task : DiffTask) (cache : ThreadCache)
    (core : ShadowFdFileCore) (space : Z) : res (bytes * ThreadCache * ShadowFdFileCore) :=
  let lg := large cache ++ zeros (space - zlen (large cache)) in
  dst ← get_range lg 0 space;
  r ← diff_inner task core dst;
  let '(diff_len, ntrailing, dst, core) := r in
  lg ← set_range lg 0 space dst;
  if (diff_len =? 0) && (ntrailing =? 0) then Ok ([], MkTC lg (comp cache), core) else
  raw_len ← u32 (diff_len + ntrailing);
  src ← get_range lg 0 raw_len;
  r ← comp_into_vec (d_compression task) (comp cache) src 16 4;
  let '(nxt, comp) := r in
  sz ← usize (zlen nxt - 4 - 16);
  msg ← finish_diff_msg nxt (d_rid task) (16 + sz) diff_len ntrailing;
  Ok (msg, MkTC lg comp, core).

(** Returns the message, the cache and the file. *)
Definition run_diff_task (task : DiffTask) (cache : ThreadCache) (core : ShadowFdFileCore) :
  res (bytes * ThreadCache * ShadowFdFileCore) :=
  diffspace ← diff_space (d_intervals task);
  space ← u32 (diffspace + d_trailing task);
  match d_compression task with
  | CompNone => r ← plain_diff_msg task core space; Ok (r.1, cache, r.2)
  | Lz4 _ | Zstd _ => compressed_diff_msg task cache core space
  end.

(** *** Decoding a message *)
Inductive DecompTarget :=
| TFile (skip_mirror : bool)
| TMirrorOnly (notify_on_completion : bool).

Record DecompTask := MkDecomp {
  dc_sequence : option Z; dc_msg : bytes; dc_file_size : Z; dc_compression : Compression;
  dc_target : DecompTarget }.

Record ApplyTask := MkApply {
  a_sequence : Z; a_remote_id : Z; a_data : bytes; a_is_diff_type : bool; a_ntrailing : Z;
  a_target : DecompTarget; region_start : Z; region_end : Z }.

(** A [BufferDiff] message, for a file or a mirror: the diff and the region it changes. *)
Definition decomp_diff (task : DecompTask) (cache : ThreadCacheComp) (len remote_id diff_size
    ntrailing : Z) : res (ApplyTask * ThreadCacheComp) :=
  src ← get_range (dc_msg task) 16 len;
  total ← u32 (diff_size + ntrailing);
  r ← decomp_into_vec (dc_compression task) cache src total;
  let '(diff, cache) := r in
  sp ← compute_diff_span diff ntrailing (dc_file_size task);
  sequence ← unwrap (dc_sequence task);
  Ok (MkApply sequence remote_id diff true ntrailing (dc_target task) sp.1 sp.2, cache).

(** A [BufferFill] message, for a file or a mirror. *)
Definition decomp_fill (task : DecompTask) (cache : ThreadCacheComp) (len remote_id region_start
    region_end : Z) : res (ApplyTask * ThreadCacheComp) :=
  src ← get_range (dc_msg task) 16 len;
  r ← decomp_into_vec (dc_compression task) cache src (region_end - region_start);
  let '(fill, cache) := r in
  sequence ← unwrap (dc_sequence task);
  Ok (MkApply sequence remote_id fill false 0 (dc_target task) region_start region_end, cache).

Definition run_decomp_task (task : DecompTask) (cache : ThreadCacheComp) :
  res (ApplyTask * ThreadCacheComp) :=
  let msg := dc_msg task in
  header ← read_u32 msg 0;
  lt ← unwrap (parse_wmsg_header header);
  let '(len, t) := lt in
  ridb ← get_range msg 4 8;
  let remote_id := from_le_i32 ridb in
  if decide (t = BufferDiff) then
    diff_size ← read_u32 msg 8;
    ntrailing ← read_u32 msg 12;
    decomp_diff task cache len remote_id diff_size ntrailing
  else if decide (t = BufferFill) then
    region_start ← read_u32 msg 8;
    region_end ← read_u32 msg 12;
    if region_end <=? region_start then Err "Invalid region" else
    decomp_fill task cache len remote_id region_start region_end
  else Panic.

(** *** Applying it *)
(** [OutMsg] stands for [TaskOutput::Msg]. *)
Inductive TaskOutput := MirrorApply | OutMsg (m : bytes) | ApplyDone (rid : Z) | DmabufApplyOp (pt rid : Z).

Definition run_apply_shm (task : ApplyTask) (skip_mirror : bool) (core : ShadowFdFileCore) :
  res (TaskOutput * ShadowFdFileCore) :=
  core ←
    (if a_is_diff_type task then
       r ← with_range (mem_mirror core) (region_start task) (region_end task)
             "Failed to acquire mirror range when applying" (fun data =>
             apply_diff (a_data task) (a_ntrailing task) (mapping core) (region_start task) data);
       let '(mapping, mirror) := r in
       Ok (MkCore mirror mapping)
     else
       mapping ← copy_onto_mapping (a_data task) (mapping core) (region_start task);
       if skip_mirror then Ok (MkCore (mem_mirror core) mapping) else
       r ← with_range (mem_mirror core) (region_start task) (region_end task)
             "Failed to acquire mirror range when applying" (fun data =>
             data ← set_range data 0 (zlen data) (a_data task); Ok (tt, data));
       Ok (MkCore r.2 mapping));
  Ok (ApplyDone (a_remote_id task), core).

Definition run_apply_mirror (task : ApplyTask) (notify_on_completion : bool)
    (mirror : MirrorState) : res (TaskOutput * MirrorState) :=
  r ← with_range mirror (region_start task) (region_end task) "Failed to get mirror segment"
        (fun data =>
           data ← (if a_is_diff_type task
                   then apply_diff_one (a_data task) (a_ntrailing task) (region_start task) data
                   else set_range data 0 (zlen data) (a_data task));
           Ok (tt, data));
  Ok (if notify_on_completion then ApplyDone (a_remote_id task) else MirrorApply, r.2).

Definition run_apply_task (task : ApplyTask) (core : ShadowFdFileCore) :
  res (TaskOutput * ShadowFdFileCore) :=
  match a_target task with
  | TFile skip_mirror => run_apply_shm task skip_mirror core
  | TMirrorOnly notify =>
      r ← run_apply_mirror task notify (mem_mirror core);
      Ok (r.1, MkCore r.2 (mapping core))
  end.

End Tasks.
