(* ===== verification/TasksCorrect.v ===== *)
(** * Splitting damage: the tasks of a file cover its damage once

    [split_damage] cuts the damaged intervals, clipped to whole 64-byte chunks, into parts of
    at most [DIFF_CHUNKSIZE] bytes; together with the trailing bytes the parts cover exactly
    the damage. *)
From Stdlib Require Import ZArith Lia.
From stdpp Require Import gmap.
From S2P Require Import Prelude Util Kernel KernelCorrect Mirror Compress Tasks.
Local Open Scope Z_scope.
Import Util.Wmsg Util.Arith Util.Options.

(** ** Lists of intervals *)
Definition total (l : list (Z * Z)) : Z := foldr (fun i n => i.2 - i.1 + n) 0 l.
(** Nonempty, disjoint and in ascending order, from [lo] on. *)
Fixpoint ascending (lo : Z) (l : list (Z * Z)) : Prop :=
  match l with
  | [] => True
  | i :: l => lo <= i.1 /\ i.1 < i.2 /\ ascending i.2 l
  end.
Definition aligned (l : list (Z * Z)) : Prop :=
  Forall (fun i => i.1 mod 64 = 0 /\ i.2 mod 64 = 0) l.
(** The part of the intervals below [fc]. *)
Definition clip1 (fc : Z) (r : Z * Z) : list (Z * Z) :=
  if r.1 <? fc then [(r.1, Z.min r.2 fc)] else [].
Definition clip (fc : Z) (l : list (Z * Z)) : list (Z * Z) := flat_map (clip1 fc) l.

Lemma clip_cons fc r l : clip fc (r :: l) = clip1 fc r ++ clip fc l.
Proof. done. Qed.
Lemma total_app l1 l2 : total (l1 ++ l2) = total l1 + total l2.
Proof. induction l1 as [|i l1 IH]; cbn; [done|]. fold (total (l1 ++ l2)) (total l1). lia. Qed.
Lemma in_intervals_app l1 l2 p : in_intervals (l1 ++ l2) p = in_intervals l1 p || in_intervals l2 p.
Proof. apply existsb_app. Qed.
Lemma ascending_weaken lo lo' l : lo' <= lo -> ascending lo l -> ascending lo' l.
Proof. destruct l; cbn; [done|]. intros ? (?&?&?). split_and!; [lia|done..]. Qed.
Lemma clip_beyond fc l : forall lo, fc <= lo -> ascending lo l -> clip fc l = [].
Proof.
  induction l as [|i l IH]; intros lo Hlo; [done|]. intros (?&?&?). rewrite clip_cons. unfold clip1.
  replace (i.1 <? fc) with false by lia. cbn. apply (IH i.2); [lia|done].
Qed.
Lemma clip_total_le fc l : forall lo, ascending lo l -> 0 <= total (clip fc l) <= Z.max 0 (fc - lo).
Proof.
  induction l as [|i l IH]; intros lo; [cbn; lia|]. intros (?&?&H). rewrite clip_cons, total_app.
  specialize (IH i.2 H). unfold clip1. case_match; cbn; lia.
Qed.
Lemma clip_aligned fc l : fc mod 64 = 0 -> aligned l -> aligned (clip fc l).
Proof.
  intros Hfc. induction 1 as [|i l [H1 H2] _ IH]; [constructor|]. rewrite clip_cons.
  apply Forall_app. split; [|done]. unfold clip1. case_match; constructor; [|constructor].
  cbn. split; [done|]. destruct (Z.min_spec i.2 fc) as [[_ ->]|[_ ->]]; done.
Qed.
Lemma total_aligned l : aligned l -> total l mod 64 = 0.
Proof.
  induction 1 as [|i l [H1 H2] _ IH]; [done|]. cbn. fold (total l).
  Z.div_mod_to_equations; lia.
Qed.
Lemma clip_points fc l p :
  in_intervals (clip fc l) p = (p <? fc) && in_intervals l p.
Proof.
  induction l as [|i l IH]; [cbn; lia|]. rewrite clip_cons, in_intervals_app, IH.
  unfold clip1. cbn [in_intervals existsb]. fold (in_intervals l p).
  destruct (in_intervals l p); case_match; cbn; lia.
Qed.

Lemma measure_ok bs fc l : fc = 64 * (bs / 64) -> forall n h lo,
  0 <= lo -> ascending lo l -> aligned l -> 0 <= n -> n + total (clip fc l) < 2 ^ 64 ->
  foldM (measure_step fc bs) (n, h) l =
  Ok (n + total (clip fc l), h || existsb (fun r => (fc <? r.2) && (r.1 <? bs)) l).
Proof.
  intros Hfc. induction l as [|r l IH]; intros n h lo Hlo Ha Hal Hn Hm.
  - cbn. by rewrite orb_false_r, Z.add_0_r.
  - destruct Ha as (?&?&Ha). apply Forall_cons_1 in Hal as [[H1 H2] Hal].
    assert (r.1 < bs -> r.1 <= fc) by (Z.div_mod_to_equations; lia).
    rewrite clip_cons, total_app in *. pose proof (clip_total_le fc l r.2 Ha) as Hc.
    cbn [foldM measure_step existsb]. rewrite (assert_true (_ <? _)) by lia. cbn [mbind res_bind].
    rewrite (assert_true (_ && _)) by lia. cbn [mbind res_bind]. unfold clip1 in *.
    destruct (Z.ltb_spec fc r.2) as [Hb|Hb].
    + destruct (Z.ltb_spec r.1 bs) as [Hb2|Hb2].
      * rewrite assert_true by lia. cbn [mbind res_bind].
        assert (E : total (if r.1 <? fc then [(r.1, Z.min r.2 fc)] else []) = fc - r.1)
          by (case_match; cbn; lia). rewrite E in *.
        rewrite chk_in by (unfold uN; lia). cbn [mbind res_bind].
        rewrite (IH _ _ r.2) by (done || lia). f_equal. f_equal; [lia|]. by rewrite !orb_true_r.
      * assert (fc <= r.1) by (Z.div_mod_to_equations; lia).
        replace (r.1 <? fc) with false in * by lia. cbn [mbind res_bind total foldr andb orb].
        cbn in Hm. rewrite (IH _ _ r.2) by (done || lia). done.
    + replace (r.1 <? fc) with true in * by lia. rewrite Z.min_l in * by lia. cbn in Hm.
      rewrite chk_in by (unfold uN; lia). cbn [mbind res_bind andb orb].
      rewrite (IH _ _ r.2) by (done || lia). cbn. f_equal. f_equal. lia.
Qed.

(** ** Filling one part *)
Definition queue (prev : option (Z * Z)) (it : list (Z * Z)) : list (Z * Z) :=
  match prev with Some x => x :: it | None => it end.

(** [o] was taken off the front of [q], leaving [q']. *)
Record taken (fc lo : Z) (q o q' : list (Z * Z)) : Prop := {
  tk_asc : ascending lo (o ++ q');
  tk_al : aligned (o ++ q');
  tk_in : Forall (fun i => i.2 <= fc) o;
  tk_pts p : in_intervals (o ++ clip fc q') p = in_intervals (clip fc q) p;
  tk_total : total o + total (clip fc q') = total (clip fc q);
}.

Lemma taken_nil fc lo q : ascending lo q -> aligned q -> taken fc lo q [] q.
Proof. by split. Qed.

Lemma taken_cons fc lo cur q o q' :
  0 <= lo -> lo <= cur.1 < cur.2 -> cur.1 < fc -> fc mod 64 = 0 ->
  cur.1 mod 64 = 0 -> cur.2 mod 64 = 0 -> taken fc cur.2 q o q' ->
  taken fc lo (cur :: q) ((cur.1, Z.min cur.2 fc) :: o) q'.
Proof.
  intros ??????[H1 H2 H3 H4 H5]. split; rewrite ?clip_cons; unfold clip1;
    rewrite ?(proj2 (Z.ltb_lt cur.1 fc)) by lia; cbn [app].
  - cbn. split_and!; [lia..|]. eapply ascending_weaken; [|done]. lia.
  - constructor; [|done]. cbn. split; [done|].
    destruct (Z.min_spec cur.2 fc) as [[_ ->]|[_ ->]]; done.
  - constructor; [|done]. cbn. lia.
  - intros p. cbn [in_intervals existsb]. f_equal. apply H4.
  - cbn. fold (total o) (total (clip fc q)). lia.
Qed.

Lemma taken_cut fc lo cur q rem :
  0 <= lo -> lo <= cur.1 < cur.2 -> cur.1 < fc -> fc mod 64 = 0 -> rem mod 64 = 0 ->
  cur.1 mod 64 = 0 -> 0 < rem < Z.min cur.2 fc - cur.1 -> ascending cur.2 q ->
  aligned (cur :: q) ->
  taken fc lo (cur :: q) [(cur.1, cur.1 + rem)] ((cur.1 + rem, Z.min cur.2 fc) :: q).
Proof.
  intros ????????[[Ha1 Ha2] Ha]%Forall_cons_1.
  assert (Hm : Z.min cur.2 fc mod 64 = 0)
    by (destruct (Z.min_spec cur.2 fc) as [[_ ->]|[_ ->]]; done).
  assert ((cur.1 + rem) mod 64 = 0) by (Z.div_mod_to_equations; lia).
  split; rewrite ?clip_cons; unfold clip1; cbn [fst snd];
    rewrite ?(proj2 (Z.ltb_lt cur.1 fc)), ?(proj2 (Z.ltb_lt (cur.1 + rem) fc)) by lia;
    rewrite ?(Z.min_l (Z.min _ _)) by lia; cbn [app].
  - cbn. split_and!; try lia. eapply ascending_weaken; [|done]. lia.
  - repeat (constructor; [done|]). done.
  - repeat constructor. cbn. lia.
  - intros p. cbn [in_intervals existsb fst snd].
    fold (in_intervals (clip fc q) p). destruct (in_intervals (clip fc q) p); lia.
  - cbn. lia.
Qed.

Lemma take_part_ok fc : 0 <= fc < 2 ^ 32 -> fc mod 64 = 0 -> forall fuel rem prev it out lo,
  0 <= lo -> ascending lo (queue prev it) -> aligned (queue prev it) ->
  0 <= rem <= total (clip fc (queue prev it)) -> rem mod 64 = 0 ->
  (length (queue prev it) < fuel)%nat ->
  exists prev' it' o, take_part fuel fc rem prev it out = Ok (prev', it', out ++ o) /\
    total o = rem /\ taken fc lo (queue prev it) o (queue prev' it').
Proof.
  intros Hfc Hfc64. induction fuel as [|fuel IH]; intros rem prev it out lo Hlo Hasc Hal Hrem Hr64 Hfu;
    [lia|]. cbn [take_part]. destruct (Z.leb_spec rem 0) as [Hr|Hr].
  { exists prev, it, []. rewrite app_nil_r. split; [done|]. split; [cbn; lia|]. by apply taken_nil. }
  destruct (queue prev it) as [|cur q] eqn:Eq; [cbn in Hrem; lia|].
  assert (match prev, it with Some x, it => Some (x, it) | None, y :: it => Some (y, it)
          | None, [] => None end = Some (cur, q)) as -> by (destruct prev, it; naive_solver).
  destruct Hasc as (H1&H2&Hasc). pose proof Hal as [[H3 H4] Hal']%Forall_cons_1.
  assert (Hlt : cur.1 < fc).
  { destruct (Z.lt_ge_cases cur.1 fc); [done|]. rewrite (clip_beyond fc (cur :: q) cur.1) in Hrem;
      [cbn in Hrem; lia|done|]. cbn. split_and!; [lia|done..]. }
  replace (_ && _) with false by lia.
  replace (if fc <? cur.2 then (cur.1, fc) else cur) with (cur.1, Z.min cur.2 fc)
    by (destruct cur; case_match; cbn in *; f_equal; lia).
  cbn [fst snd]. rewrite (chk_in 64) by (unfold uN; lia). cbn [mbind res_bind].
  unfold wrap. rewrite !Z.mod_small by lia.
  destruct (Z.leb_spec (Z.min cur.2 fc - cur.1) rem) as [Hd|Hd].
  - rewrite clip_cons, total_app in Hrem. unfold clip1 in Hrem.
    rewrite (proj2 (Z.ltb_lt cur.1 fc)) in Hrem by lia. cbn in Hrem. fold (total (clip fc q)) in Hrem.
    assert (Hm : Z.min cur.2 fc mod 64 = 0)
      by (destruct (Z.min_spec cur.2 fc) as [[_ ->]|[_ ->]]; done).
    destruct (IH (rem - (Z.min cur.2 fc - cur.1)) None q (out ++ [(cur.1, Z.min cur.2 fc)]) cur.2)
      as (prev' & it' & o & -> & Ho & Ht); cbn [queue] in *;
      [lia|done|done|lia|Z.div_mod_to_equations; lia|cbn in Hfu; lia|].
    exists prev', it', ((cur.1, Z.min cur.2 fc) :: o). rewrite <- app_assoc. split; [done|].
    split; [cbn; fold (total o); lia|]. by apply taken_cons; try lia.
  - rewrite chk_in by (unfold uN; lia). cbn [mbind res_bind].
    exists (Some (cur.1 + rem, Z.min cur.2 fc)), q, [(cur.1, cur.1 + rem)].
    split; [done|]. split; [cbn; lia|]. apply taken_cut; (done || lia).
Qed.

(** ** All parts *)
Lemma ascending_app lo o q : ascending lo (o ++ q) ->
  exists lo', lo <= lo' /\ ascending lo' q /\ forall r, ascending lo' r -> ascending lo (o ++ r).
Proof.
  revert lo; induction o as [|i o IH]; intros lo; cbn; [exists lo; split_and!; [lia|done..]|].
  intros (?&?&H). destruct (IH i.2 H) as (lo'&?&?&Hr). exists lo'. split_and!; [lia|done|].
  intros r Hr'. by split_and!; [..|apply Hr].
Qed.
Lemma clip_total_zero fc l : forall lo, ascending lo l -> total (clip fc l) = 0 -> clip fc l = [].
Proof.
  induction l as [|i l IH]; intros lo; [done|]. intros (?&?&H). rewrite clip_cons, total_app.
  pose proof (clip_total_le fc l i.2 H). unfold clip1. case_match; cbn; [lia|].
  intros. by apply (IH i.2).
Qed.

(** What is promised of the list of parts, given what remains to be taken. *)
Record parts_ok (fc lo : Z) (q : list (Z * Z)) (parts : list (list (Z * Z))) : Prop := {
  po_asc : ascending lo (concat parts);
  po_al : aligned (concat parts);
  po_in : Forall (fun i => i.2 <= fc) (concat parts);
  po_pts p : in_intervals (concat parts) p = in_intervals (clip fc q) p;
  po_size : Forall (fun l => 0 < total l <= DIFF_CHUNKSIZE) parts;
}.

Lemma parts_ok_cons fc lo q o q' :
  taken fc lo q o q' -> 0 < total o <= DIFF_CHUNKSIZE ->
  exists lo', lo <= lo' /\ ascending lo' q' /\ aligned q' /\
    forall parts, parts_ok fc lo' q' parts -> parts_ok fc lo q (o :: parts).
Proof.
  intros [H1 H2 H3 H4 H5] Hs. destruct (ascending_app _ _ _ H1) as (lo'&Hl&Ha&Hr).
  apply Forall_app in H2 as [H2 H2']. exists lo'. split_and!; [done..|].
  intros parts [P1 P2 P3 P4 P5].
  split; cbn [concat]; [by apply Hr|by apply Forall_app|by apply Forall_app| |by constructor].
  intros p. by rewrite in_intervals_app, P4, <- in_intervals_app, H4.
Qed.

Section Parts.
Context (fc u n : Z) (Hfc : 0 <= fc < 2 ^ 32) (Hfc64 : fc mod 64 = 0).
Context (Hu : 0 < u < 2 ^ 26) (Hn : n = div_ceil u 4096).

Lemma shards_bounds : 0 < n < 2 ^ 15 /\ n <= u /\ u <= n * 4096.
Proof using Hu Hn.
  pose proof (div_ceil_mul_ge u 4096 ltac:(lia)).
  assert (div_ceil u 4096 * 4096 <= u + 4095).
  { unfold div_ceil. pose proof (Z.mul_div_le (u + 4096 - 1) 4096). lia. }
  lia.
Qed.

Lemma piece_ok i : 0 <= i < n -> exists a b,
  split_interval 0 u n i = Ok a /\ split_interval 0 u n (i + 1) = Ok b /\
  0 <= a /\ b <= u /\ 0 < b - a <= 4096.
Proof using Hu Hn.
  intros Hi. destruct shards_bounds as (B1&B2&B3).
  destruct (split_interval_piece 0 u n i) as (a&b&->&->&?&?&H1&H2); [lia..|].
  exists a, b. rewrite Z.sub_0_r in *. split_and!; try done; try lia.
  - assert (1 <= u / n) by (apply Z.div_le_lower_bound; lia). lia.
  - assert (div_ceil u n <= 4096) by (apply div_ceil_le; lia). lia.
Qed.

Lemma part_loop_ok m : forall k prev it parts lo,
  Z.of_nat k + Z.of_nat m = n -> 0 <= lo ->
  ascending lo (queue prev it) -> aligned (queue prev it) ->
  (forall s, split_interval 0 u n (Z.of_nat k) = Ok s ->
     total (clip fc (queue prev it)) = 64 * u - 64 * s) ->
  exists prev' it' new,
    foldM (part_step fc (64 * u) n) (prev, it, parts) (map Z.of_nat (seq k m))
      = Ok (prev', it', parts ++ new) /\
    zlen new = Z.of_nat m /\ parts_ok fc lo (queue prev it) new.
Proof using Hu Hn Hfc Hfc64.
  destruct shards_bounds as (B1&B2&B3).
  induction m as [|m IH]; intros k prev it parts lo Hk Hlo Ha Hal Ht.
  - exists prev, it, []. rewrite app_nil_r. split; [done|]. split; [done|].
    specialize (Ht u). replace (Z.of_nat k) with n in Ht by lia.
    rewrite split_interval_last in Ht by lia. specialize (Ht eq_refl).
    split; cbn; try constructor. intros p. by rewrite (clip_total_zero fc _ lo) by (done || lia).
  - cbn [seq map foldM part_step].
    destruct (piece_ok (Z.of_nat k)) as (a&b&E1&E2&?&?&?); [lia|].
    specialize (Ht a E1). replace (64 * u / 64) with u by (Z.div_mod_to_equations; lia).
    rewrite E1, E2. cbn [mbind res_bind]. mok.
    destruct (take_part_ok fc Hfc Hfc64 (S (S (length it))) (64 * b - 64 * a) prev it [] lo)
      as (prev'&it'&o&->&Ho&Htk); [done..|lia|Z.div_mod_to_equations; lia|destruct prev; cbn; lia|].
    cbn [mbind res_bind app]. pose proof (tk_total _ _ _ _ _ Htk).
    destruct (parts_ok_cons _ _ _ _ _ Htk) as (lo'&?&Ha'&Hal'&Hcons); [unfold DIFF_CHUNKSIZE; lia|].
    destruct (IH (S k) prev' it' (parts ++ [o]) lo') as (p2&i2&new&->&Hnew&Hok); [lia|lia|done|done| |].
    { intros s Hs. replace (Z.of_nat (S k)) with (Z.of_nat k + 1) in Hs by lia.
      rewrite E2 in Hs. injection Hs as <-. lia. }
    exists p2, i2, (o :: new). rewrite <- app_assoc. split; [done|].
    split; [rewrite zlen_cons; lia|by apply Hcons].
Qed.
End Parts.

(** Whether some interval reaches past the last whole chunk. *)
Definition reaches_tail (bs : Z) (l : list (Z * Z)) : bool :=
  existsb (fun r => (64 * (bs / 64) <? r.2) && (r.1 <? bs)) l.

(** An aligned interval that reaches past the last chunk covers the whole tail. *)
Lemma tail_points bs l p : aligned l -> 64 * (bs / 64) <= p < bs ->
  in_intervals l p = reaches_tail bs l.
Proof.
  intros Hal Hp. induction Hal as [|r l [H1 H2] _ IH]; [done|].
  cbn [in_intervals reaches_tail existsb]. fold (in_intervals l p) (reaches_tail bs l). rewrite IH.
  f_equal. apply Bool.eq_iff_eq_true. Z.div_mod_to_equations; lia.
Qed.

(** Byte [p] of a buffer of [bs] bytes belongs to the parts or to the trailing bytes. *)
Definition covered (bs trail : Z) (parts : list (list (Z * Z))) (p : Z) : bool :=
  in_intervals (concat parts) p || (bs - trail <=? p).

Lemma covered_points bs ivs parts p :
  aligned ivs -> 0 <= p < bs ->
  (forall p, in_intervals (concat parts) p = in_intervals (clip (64 * (bs / 64)) ivs) p) ->
  covered bs (if reaches_tail bs ivs then bs mod 64 else 0) parts p = in_intervals ivs p.
Proof.
  intros Hal Hp Hpts. unfold covered. rewrite Hpts, clip_points.
  destruct (Z.ltb_spec p (64 * (bs / 64))) as [Hlt|Hge]; cbn [andb orb].
  - replace (_ <=? p) with false; [by rewrite orb_false_r|].
    symmetry. case_match; Z.div_mod_to_equations; lia.
  - rewrite (tail_points bs) by (done || lia).
    destruct (reaches_tail bs ivs); Z.div_mod_to_equations; lia.
Qed.

Lemma split_damage_ok ivs bs :
  0 <= bs < 2 ^ 32 -> ascending 0 ivs -> aligned ivs ->
  exists trail parts, split_damage ivs bs = Ok (trail, parts) /\
    (forall p, 0 <= p < bs -> covered bs trail parts p = in_intervals ivs p) /\
    (trail = 0 \/ trail = bs mod 64) /\
    ascending 0 (concat parts) /\ aligned (concat parts) /\
    Forall (fun i => i.2 <= bs - bs mod 64) (concat parts) /\
    (parts = [[]] /\ 0 < trail \/
     Forall (fun l => 0 < total l <= DIFF_CHUNKSIZE) parts /\ (parts = [] -> trail = 0)).
Proof.
  intros Hbs Ha Hal. unfold split_damage. set (fc := 64 * (bs / 64)).
  assert (Hfc : 0 <= fc <= bs /\ bs - fc = bs mod 64) by (unfold fc; Z.div_mod_to_equations; lia).
  assert (Hfc64 : fc mod 64 = 0) by (unfold fc; Z.div_mod_to_equations; lia).
  pose proof (clip_total_le fc ivs 0 Ha) as Ht.
  pose proof (total_aligned _ (clip_aligned fc ivs Hfc64 Hal)) as Ht64.
  rewrite (measure_ok bs fc ivs) with (lo := 0) by (done || lia). cbn [mbind res_bind orb].
  change (existsb _ ivs) with (reaches_tail bs ivs). rewrite Z.add_0_l.
  rewrite checked_in by (unfold uN; lia). cbn [unwrap mbind res_bind].
  rewrite assert_true by lia. cbn [mbind res_bind].
  destruct (Z.eqb_spec (total (clip fc ivs)) 0) as [E0|E0].
  - pose proof (clip_total_zero fc ivs 0 Ha E0) as Ec.
    exists (if reaches_tail bs ivs then bs mod 64 else 0), (if reaches_tail bs ivs then [[]] else []).
    split; [by case_match|]. split.
    { intros p Hp. apply covered_points; [done..|]. fold fc. rewrite Ec. by case_match. }
    split; [case_match; auto|]. destruct (reaches_tail bs ivs) eqn:Er; cbn [concat app];
      (split_and!; [done|constructor|constructor|]); [|right; split; [constructor|done]].
    left. split; [done|]. apply Z.le_neq. split; [apply Z.mod_pos_bound; lia|]. intros E.
    apply existsb_exists in Er as (r & Hin & Hr). apply list_elem_of_In in Hin.
    assert (Hc : in_intervals (clip fc ivs) r.1 = true); [|by rewrite Ec in Hc].
    rewrite clip_points. apply andb_true_intro. split; [lia|]. apply existsb_exists.
    exists r. split; [by apply list_elem_of_In|]. fold fc in Hr. lia.
  - set (u := total (clip fc ivs) / 64). assert (Hu : total (clip fc ivs) = 64 * u)
      by (unfold u; Z.div_mod_to_equations; lia).
    unfold ceildiv. change (DIFF_CHUNKSIZE / 64) with 4096. change (4096 =? 0) with false.
    cbn [mbind res_bind]. rewrite Hu. replace (64 * u / 64) with u by (Z.div_mod_to_equations; lia).
    destruct (shards_bounds u (div_ceil u 4096)) as (B1&_); [lia|done|].
    destruct (part_loop_ok fc u (div_ceil u 4096) ltac:(lia) Hfc64 ltac:(lia) eq_refl
      (Z.to_nat (div_ceil u 4096)) 0 None ivs [] 0) as (p'&i'&parts&E&Hl&[P1 P2 P3 P4 P5]);
      [lia|done|done|done| |].
    { intros s. rewrite split_interval_first by lia. intros [= <-]. cbn [queue]. lia. }
    unfold range. rewrite E. cbn [mbind res_bind app].
    exists (if reaches_tail bs ivs then bs mod 64 else 0), parts. split; [done|].
    split; [intros p Hp; apply covered_points; [done..|]; intros q; by rewrite P4|].
    split; [case_match; auto|]. split_and!; [done|done| |].
    2: { right. split; [done|]. intros ->. change (0 = Z.of_nat (Z.to_nat (div_ceil u 4096))) in Hl. lia. }
    eapply Forall_impl; [exact P3|]. cbn. lia.
Qed.

(** [split_damage] never panics on the ascending, disjoint, 64-byte-aligned intervals the
    damage code produces; a byte of the buffer is damaged iff it is in exactly the parts or the
    trailing bytes; the parts are again ascending, disjoint and aligned, none is larger than
    [DIFF_CHUNKSIZE], and none is empty unless only trailing bytes are damaged. *)
Theorem split_damage_covers ivs bs :
  0 <= bs < 2 ^ 32 -> ascending 0 ivs -> aligned ivs ->
  exists trail parts, split_damage ivs bs = Ok (trail, parts) /\
    (forall p, 0 <= p < bs -> covered bs trail parts p = in_intervals ivs p) /\
    (trail = 0 \/ trail = bs mod 64) /\
    ascending 0 (concat parts) /\ aligned (concat parts) /\
    Forall (fun i => i.2 <= bs - bs mod 64) (concat parts) /\
    (parts = [[]] /\ 0 < trail \/
     Forall (fun l => 0 < total l <= DIFF_CHUNKSIZE) parts /\ (parts = [] -> trail = 0)).
Proof. apply split_damage_ok. Qed.

Lemma split_damage_covers_witness :
  exists trail parts, split_damage [(64, 128); (256, 524352); (524416, 524480)] 524420 = Ok (trail, parts) /\
    (forall p, 0 <= p < 524420 -> covered 524420 trail parts p
       = in_intervals [(64, 128); (256, 524352); (524416, 524480)] p) /\
    (trail = 0 \/ trail = 524420 mod 64) /\
    ascending 0 (concat parts) /\ aligned (concat parts) /\
    Forall (fun i => i.2 <= 524420 - 524420 mod 64) (concat parts) /\
    (parts = [[]] /\ 0 < trail \/
     Forall (fun l => 0 < total l <= DIFF_CHUNKSIZE) parts /\ (parts = [] -> trail = 0)).
Proof.
  apply (split_damage_covers [(64, 128); (256, 524352); (524416, 524480)] 524420);
    [lia|cbn; lia|repeat constructor].
Defined.

(** ** The tasks of a file *)

(** What [run_diff_task] needs of a task on a file of [bs] bytes. *)
Record task_ok (bs : Z) (t : DiffTask) : Prop := {
  tok_trailing : d_trailing t = 0 \/ 0 < d_trailing t /\ d_trailing t = bs mod 64;
  tok_region : match d_region t with
    | Some (a, b) => a mod 64 = 0 /\ b mod 64 = 0 /\ 0 <= a < b /\ b + d_trailing t <= bs /\
        Forall (interval_ok bs a (b - a)) (d_intervals t)
    | None => d_intervals t = [] /\ 0 < d_trailing t
    end;
  tok_space : 0 <= interval_space (d_intervals t) <= 2 ^ 20;
}.
Definition task_covers (bs : Z) (t : DiffTask) (p : Z) : bool :=
  in_intervals (d_intervals t) p || (bs - d_trailing t <=? p).

Lemma ascending_last lo p l : ascending lo p -> last p = Some l ->
  Forall (fun i => lo <= i.1 /\ i.1 < i.2 /\ i.2 <= l.2) p.
Proof.
  revert lo; induction p as [|i p IH]; intros lo; [done|]. intros (?&?&H) Hl.
  destruct p as [|j p]; [injection Hl as <-; repeat constructor; lia|].
  specialize (IH i.2 H Hl). constructor.
  - apply Forall_cons_1 in IH as [? _]. lia.
  - eapply Forall_impl; [exact IH|]. cbn. lia.
Qed.
Lemma interval_space_total p lo : ascending lo p -> aligned p ->
  0 <= interval_space p /\ 8 * interval_space p <= 9 * total p.
Proof.
  intros Ha Hal. revert lo Ha; induction Hal as [|i p [H1 H2] _ IH]; intros lo; [cbn; lia|].
  intros (?&?&Ha). specialize (IH _ Ha). cbn. fold (interval_space p) (total p).
  assert (64 <= i.2 - i.1) by (Z.div_mod_to_equations; lia). lia.
Qed.

Lemma part_task_ok rid bs trail n comp i lo p :
  0 <= bs < 2 ^ 32 -> 0 <= lo -> trail = 0 \/ trail = bs mod 64 ->
  ascending lo p -> aligned p -> Forall (fun r => r.2 <= bs - bs mod 64) p ->
  total p <= DIFF_CHUNKSIZE ->
  (p = [] -> i = n - 1 /\ 0 < trail) ->
  exists t, part_task rid trail n comp i p = Ok t /\ d_rid t = rid /\ d_compression t = comp /\
    task_ok bs t /\ d_intervals t = p /\ d_trailing t = (if i =? n - 1 then trail else 0).
Proof.
  intros Hbs Hlo Htr Ha Hal Hin Hsz Hne. unfold part_task, DIFF_CHUNKSIZE in *.
  pose proof (Z.mod_pos_bound bs 64 ltac:(lia)) as Hm.
  assert (Hw : wrap 32 trail = trail) by (unfold wrap; apply Z.mod_small; lia).
  assert (Ht : (if (i =? n - 1) && (0 <? trail) then wrap 32 trail else 0)
               = if i =? n - 1 then trail else 0)
    by (rewrite Hw; destruct (i =? n - 1); cbn; [case_match|]; lia).
  assert (HA : (if i =? n - 1 then assert_ (0 <? zlen p + trail) else assert_ (negb (zlen p =? 0)))
               = Ok tt).
  { destruct p as [|r p]; [destruct (Hne eq_refl) as [-> ?]; rewrite Z.eqb_refl; change (zlen []) with 0|
      rewrite zlen_cons; zlen_pos; destruct (i =? n - 1)]; rewrite assert_true; (done || lia). }
  rewrite HA, Ht. cbn [mbind res_bind]. clear HA. eexists. split; [done|]. split_and!; [done|done| |done|done].
  destruct (interval_space_total p lo Ha Hal). split; cbn [d_trailing d_region d_intervals].
  - case_match; lia.
  - destruct p as [|f p]; [destruct (Hne eq_refl) as [-> ?]; rewrite Z.eqb_refl; auto|].
    destruct (last (f :: p)) as [l|] eqn:El; [|by apply last_None in El].
    pose proof (ascending_last f.1 (f :: p) l) as Hl. destruct Ha as (?&?&Ha).
    specialize (Hl ltac:(cbn; split_and!; [lia|done..]) El).
    assert (Hlin : l ∈ f :: p) by by apply last_Some_elem_of.
    pose proof Hal as [[? ?] _]%Forall_cons_1. unfold aligned in Hal. rewrite Forall_forall in Hal, Hin, Hl.
    pose proof (Hal l Hlin) as [??]. pose proof (Hin l Hlin). pose proof (Hl l Hlin). cbn in *.
    split_and!; [done|done|lia|lia|case_match; lia|]. apply Forall_forall. intros r Hr.
    specialize (Hal r Hr). specialize (Hin r Hr). specialize (Hl r Hr).
    unfold interval_ok. cbn in *. split_and!; lia.
  - lia.
Qed.

Lemma ascending_app_l lo o q : ascending lo (o ++ q) -> ascending lo o.
Proof. revert lo; induction o as [|i o IH]; intros lo; cbn; [done|]. intros (?&?&?). auto. Qed.

(** The tasks made of the parts carry the file's id and codec, and cover the same bytes. *)
Definition tasks_ok (rid bs : Z) (comp : Compression) (ts : list DiffTask) : Prop :=
  Forall (fun t => d_rid t = rid /\ d_compression t = comp /\ task_ok bs t) ts.

Lemma part_tasks_ok rid bs trail comp parts : forall i n lo,
  0 <= bs < 2 ^ 32 -> trail = 0 \/ trail = bs mod 64 -> 0 <= lo -> i + zlen parts = n ->
  ascending lo (concat parts) -> aligned (concat parts) ->
  Forall (fun r => r.2 <= bs - bs mod 64) (concat parts) ->
  Forall (fun l => 0 < total l <= DIFF_CHUNKSIZE) parts ->
  exists ts, part_tasks rid trail n comp i parts = Ok ts /\ tasks_ok rid bs comp ts /\
    forall p, p < bs -> existsb (fun t => task_covers bs t p) ts =
      in_intervals (concat parts) p || (negb (zlen parts =? 0) && (bs - trail <=? p)).
Proof.
  induction parts as [|q parts IH]; intros i n lo Hbs Htr Hlo Hn Ha Hal Hin Hsz;
    cbn [part_tasks concat] in *.
  - exists []. split; [done|]. split; [constructor|]. intros p Hp. cbn. done.
  - apply Forall_app in Hal as [Hal1 Hal2], Hin as [Hin1 Hin2].
    apply Forall_cons_1 in Hsz as [Hq Hsz].
    destruct (ascending_app _ _ _ Ha) as (lo'&?&Ha2&_). apply ascending_app_l in Ha.
    rewrite zlen_cons in *. zlen_pos.
    destruct (part_task_ok rid bs trail n comp i lo q) as (t&->&E1&E2&E3&E4&E5); [done..|lia| |].
    { intros ->. cbn in Hq. lia. }
    cbn [mbind res_bind]. destruct (IH (i + 1) n lo') as (ts&->&Hts&Hc); [done|done|lia|lia|done..|].
    cbn [mbind res_bind]. exists (t :: ts). split; [done|]. split; [by constructor|].
    intros p Hp. cbn [existsb]. rewrite Hc, in_intervals_app by done. unfold task_covers.
    rewrite E4, E5. destruct (in_intervals q p), (in_intervals (concat parts) p); cbn; try lia.
    destruct (Z.eqb_spec i (n - 1)), (Z.eqb_spec (zlen parts) 0); cbn; lia.
Qed.

Lemma split_tasks_ok rid bs ivs comp :
  0 <= bs < 2 ^ 32 -> ascending 0 ivs -> aligned ivs ->
  exists trail parts ts, split_damage ivs bs = Ok (trail, parts) /\
    part_tasks rid trail (zlen parts) comp 0 parts = Ok ts /\ tasks_ok rid bs comp ts /\
    forall p, 0 <= p < bs -> existsb (fun t => task_covers bs t p) ts = in_intervals ivs p.
Proof.
  intros Hbs Ha Hal. destruct (split_damage_ok ivs bs Hbs Ha Hal)
    as (trail&parts&E&Hc&Htr&Pa&Pal&Pin&[[-> Ht]|[Hsz He]]).
  - exists trail, [[]]. change (zlen [[]]) with 1. cbn [part_tasks].
    destruct (part_task_ok rid bs trail 1 comp 0 0 []) as (t&->&E1&E2&E3&E4&E5);
      [done..|unfold DIFF_CHUNKSIZE; cbn; lia|done|].
    exists [t]. split; [done|]. split; [done|]. split; [by apply Forall_singleton|].
    intros p Hp. rewrite <- Hc by done. cbn. unfold task_covers, covered. rewrite E4, E5. cbn.
    by rewrite orb_false_r.
  - destruct (part_tasks_ok rid bs trail comp parts 0 (zlen parts) 0) as (ts&Et&Hts&Hts');
      [done..|]. exists trail, parts, ts. split_and!; [done..|]. intros p Hp.
    rewrite Hts', <- Hc by lia. unfold covered. f_equal.
    destruct (Z.eqb_spec (zlen parts) 0) as [E0|E0]; [|done].
    rewrite He by by apply zlen_zero_nil. cbn. lia.
Qed.

(** ** [collect_updates] on a file *)
Definition damage_wf (d : Damage) : Prop :=
  match d with Everything => True | Intervals l => ascending 0 l /\ aligned l end.
Definition damaged (d : Damage) (p : Z) : bool :=
  match d with Everything => true | Intervals l => in_intervals l p end.
(** The messages that make the remote file exist with the local size. *)
Definition size_msgs (f : ShadowFdFile) : res (list bytes) :=
  if only_here f then m ← open_msg OpenFile (remote_id f) (buffer_size f); Ok [m]
  else if remote_bufsize f <? buffer_size f
       then m ← open_msg ExtendFile (remote_id f) (buffer_size f); Ok [m]
       else Ok [].

Lemma open_msg_ok t rid size : exists m, open_msg t rid size = Ok m.
Proof. unfold open_msg. rewrite build_wmsg_header_ok by (unfold uN; lia). cbn. eauto. Qed.

Lemma full_damage_ok bs : 0 < bs < 2 ^ 32 -> exists e, align bs 64 = Ok e /\
  ascending 0 [(0, e)] /\ aligned [(0, e)] /\ forall p, 0 <= p < bs -> in_intervals [(0, e)] p = true.
Proof.
  intros. rewrite align_ok by lia. pose proof (div_ceil_mul_ge bs 64 ltac:(lia)).
  eexists. split; [done|]. split; [cbn; lia|]. split.
  - repeat constructor. cbn. rewrite Z.mul_comm. apply Z.mod_mul. lia.
  - intros p Hp. cbn. lia.
Qed.

Lemma announce_ok f msgs :
  readonly f = false -> remote_bufsize f <= buffer_size f ->
  exists new, size_msgs f = Ok new /\
    announce_file f msgs = Ok (MkFile (remote_id f) false (buffer_size f) (buffer_size f) false
                                 (damage f) (core f), msgs ++ new).
Proof.
  intros Hro Hr. unfold size_msgs, announce_file. rewrite Hro.
  destruct (open_msg_ok OpenFile (remote_id f) (buffer_size f)) as [m1 ->].
  destruct (open_msg_ok ExtendFile (remote_id f) (buffer_size f)) as [m2 E2].
  destruct f as [rid oh bs rs ro d c]; cbn in *; subst. destruct oh; cbn.
  - rewrite Z.ltb_irrefl. eauto.
  - destruct (Z.ltb_spec rs bs); cbn.
    + rewrite E2. cbn. eauto.
    + exists []. rewrite app_nil_r. by replace rs with bs by lia.
Qed.

Lemma queue_damage_ok f comp :
  0 < buffer_size f < 2 ^ 32 -> damage_wf (damage f) -> is_Some (core f) ->
  exists tasks, queue_damage f comp =
      Ok (MkFile (remote_id f) (only_here f) (buffer_size f) (remote_bufsize f) (readonly f)
            (Intervals []) (core f), tasks) /\
    tasks_ok (remote_id f) (buffer_size f) comp tasks /\
    forall p, 0 <= p < buffer_size f ->
      existsb (fun t => task_covers (buffer_size f) t p) tasks = damaged (damage f) p.
Proof.
  intros Hbs Hd [c Hc]. unfold queue_damage.
  destruct (full_damage_ok (buffer_size f) Hbs) as (e & -> & He1 & He2 & He3). cbn [mbind res_bind].
  set (ivs := match damage f with Everything => [(0, e)] | Intervals x => x end).
  assert (Hivs : ascending 0 ivs /\ aligned ivs /\
    forall p, 0 <= p < buffer_size f -> in_intervals ivs p = damaged (damage f) p)
    by (unfold ivs; destruct (damage f); cbn in Hd; naive_solver).
  destruct Hivs as (Ha & Hal & Hpts).
  destruct (Z.eqb_spec (zlen ivs) 0) as [E0|E0].
  - apply zlen_zero_nil in E0. exists []. split.
    + unfold ivs in E0. destruct f as [rid oh bs rs ro [|l] c']; cbn in *; [done|by subst].
    + split; [constructor|]. intros p Hp. by rewrite <- Hpts, E0.
  - destruct (split_tasks_ok (remote_id f) (buffer_size f) ivs comp)
      as (trail&parts&ts&->&Et&Hts&Hcov); [lia|done..|]. cbn [mbind res_bind]. rewrite Et, Hc.
    exists ts. split; [by case_match|]. split; [done|]. intros p Hp. by rewrite Hcov, Hpts.
Qed.

(** C21: for a writable file, [collect_updates] first announces the file or its new size when
    the remote side lacks it, resets the damage, and queues diff tasks that are well formed
    for [run_diff_task] and cover a byte of the file iff it was damaged; no assertion on the
    way fails. *)
Theorem collect_file_covers {L : CompLib} (f : ShadowFdFile) msgs comp :
  readonly f = false -> 0 < buffer_size f < 2 ^ 32 -> damage_wf (damage f) -> is_Some (core f) ->
  remote_bufsize f <= buffer_size f ->
  exists new tasks, size_msgs f = Ok new /\
    collect_file f msgs comp =
      Ok (MkFile (remote_id f) false (buffer_size f) (buffer_size f) false
            (Intervals []) (core f), msgs ++ new, tasks) /\
    tasks_ok (remote_id f) (buffer_size f) comp tasks /\
    forall p, 0 <= p < buffer_size f ->
      existsb (fun t => task_covers (buffer_size f) t p) tasks = damaged (damage f) p.
Proof.
  intros Hro Hbs Hd Hc Hr. destruct (announce_ok f msgs Hro Hr) as (new & En & Ea).
  set (f' := MkFile _ _ _ _ _ _ _) in Ea.
  destruct (queue_damage_ok f' comp Hbs Hd Hc) as (ts & Eq & Hts & Hcov).
  exists new, ts. split; [done|]. split; [|done].
  unfold collect_file. rewrite Ea. cbn [mbind res_bind]. by rewrite Eq.
Qed.

Definition demo_file : ShadowFdFile :=
  MkFile 5 true 200 0 false Everything (Some (MkCore (MkMirror (zeros 200) 200 ∅) (zeros 200))).

Lemma collect_file_covers_witness :
  exists new tasks, size_msgs demo_file = Ok new /\
    collect_file (L := stored) demo_file [] CompNone =
      Ok (MkFile 5 false 200 200 false (Intervals []) (core demo_file), [] ++ new, tasks) /\
    tasks_ok 5 200 CompNone tasks /\
    forall p, 0 <= p < 200 -> existsb (fun t => task_covers 200 t p) tasks = true.
Proof.
  apply (collect_file_covers (L := stored) demo_file [] CompNone); cbn; [done|lia|done|eauto|lia].
Defined.
