(* ===== verification/Formats.v ===== *)
(** * Pixel formats: [WlShmFormat] of [src/wayland_gen.rs] and the layouts of [src/util.rs]

    The enumeration and the table are in the order of the source. *)
From Stdlib Require Import ZArith Lia.
From S2P Require Import Prelude Util.
Local Open Scope Z_scope.

(** [PlaneLayout]: bytes per texel block, subsampling ratios, size of a texel block in pixels. *)
Record PlaneLayout := MkPlane { bpt : Z; hsub : Z; vsub : Z; htex : Z; vtex : Z }.
Abbreviation FormatLayout := (list PlaneLayout).
#[export] Instance PlaneLayout_eq_dec : EqDecision PlaneLayout.
Proof. solve_decision. Defined.

Inductive WlShmFormat :=
| Argb8888 | Xrgb8888 | C8 | Rgb332 | Bgr233 | Xrgb4444 | Xbgr4444 | Rgbx4444 | Bgrx4444
| Argb4444 | Abgr4444 | Rgba4444 | Bgra4444 | Xrgb1555 | Xbgr1555 | Rgbx5551 | Bgrx5551
| Argb1555 | Abgr1555 | Rgba5551 | Bgra5551 | Rgb565 | Bgr565 | Rgb888 | Bgr888 | Xbgr8888
| Rgbx8888 | Bgrx8888 | Abgr8888 | Rgba8888 | Bgra8888 | Xrgb2101010 | Xbgr2101010
| Rgbx1010102 | Bgrx1010102 | Argb2101010 | Abgr2101010 | Rgba1010102 | Bgra1010102 | Yuyv
| Yvyu | Uyvy | Vyuy | Ayuv | Nv12 | Nv21 | Nv16 | Nv61 | Yuv410 | Yvu410 | Yuv411 | Yvu411
| Yuv420 | Yvu420 | Yuv422 | Yvu422 | Yuv444 | Yvu444 | R8 | R16 | Rg88 | Gr88 | Rg1616
| Gr1616 | Xrgb16161616f | Xbgr16161616f | Argb16161616f | Abgr16161616f | Xyuv8888 | Vuy888
| Vuy101010 | Y210 | Y212 | Y216 | Y410 | Y412 | Y416 | Xvyu2101010 | Xvyu1216161616
| Xvyu16161616 | Y0l0 | X0l0 | Y0l2 | X0l2 | Yuv4208bit | Yuv42010bit | Xrgb8888A8 | Xbgr8888A8
| Rgbx8888A8 | Bgrx8888A8 | Rgb888A8 | Bgr888A8 | Rgb565A8 | Bgr565A8 | Nv24 | Nv42 | P210
| P010 | P012 | P016 | Axbxgxrx106106106106 | Nv15 | Q410 | Q401 | Xrgb16161616 | Xbgr16161616
| Argb16161616 | Abgr16161616 | C1 | C2 | C4 | D1 | D2 | D4 | D8 | R1 | R2 | R4 | R10 | R12
| Avuy8888 | Xvuy8888 | P030.
#[export] Instance WlShmFormat_eq_dec : EqDecision WlShmFormat.
Proof. solve_decision. Defined.

Definition all_formats : list WlShmFormat :=
  [Argb8888; Xrgb8888; C8; Rgb332; Bgr233; Xrgb4444; Xbgr4444; Rgbx4444; Bgrx4444; Argb4444;
   Abgr4444; Rgba4444; Bgra4444; Xrgb1555; Xbgr1555; Rgbx5551; Bgrx5551; Argb1555; Abgr1555;
   Rgba5551; Bgra5551; Rgb565; Bgr565; Rgb888; Bgr888; Xbgr8888; Rgbx8888; Bgrx8888; Abgr8888;
   Rgba8888; Bgra8888; Xrgb2101010; Xbgr2101010; Rgbx1010102; Bgrx1010102; Argb2101010;
   Abgr2101010; Rgba1010102; Bgra1010102; Yuyv; Yvyu; Uyvy; Vyuy; Ayuv; Nv12; Nv21; Nv16; Nv61;
   Yuv410; Yvu410; Yuv411; Yvu411; Yuv420; Yvu420; Yuv422; Yvu422; Yuv444; Yvu444; R8; R16;
   Rg88; Gr88; Rg1616; Gr1616; Xrgb16161616f; Xbgr16161616f; Argb16161616f; Abgr16161616f;
   Xyuv8888; Vuy888; Vuy101010; Y210; Y212; Y216; Y410; Y412; Y416; Xvyu2101010;
   Xvyu1216161616; Xvyu16161616; Y0l0; X0l0; Y0l2; X0l2; Yuv4208bit; Yuv42010bit; Xrgb8888A8;
   Xbgr8888A8; Rgbx8888A8; Bgrx8888A8; Rgb888A8; Bgr888A8; Rgb565A8; Bgr565A8; Nv24; Nv42;
   P210; P010; P012; P016; Axbxgxrx106106106106; Nv15; Q410; Q401; Xrgb16161616; Xbgr16161616;
   Argb16161616; Abgr16161616; C1; C2; C4; D1; D2; D4; D8; R1; R2; R4; R10; R12; Avuy8888;
   Xvuy8888; P030].

(** [f as u32] *)
Definition format_code (f : WlShmFormat) : Z :=
  match f with
  | Argb8888 => 0 | Xrgb8888 => 1 | C8 => 0x20203843 | Rgb332 => 0x38424752
  | Bgr233 => 0x38524742 | Xrgb4444 => 0x32315258 | Xbgr4444 => 0x32314258
  | Rgbx4444 => 0x32315852 | Bgrx4444 => 0x32315842 | Argb4444 => 0x32315241
  | Abgr4444 => 0x32314241 | Rgba4444 => 0x32314152 | Bgra4444 => 0x32314142
  | Xrgb1555 => 0x35315258 | Xbgr1555 => 0x35314258 | Rgbx5551 => 0x35315852
  | Bgrx5551 => 0x35315842 | Argb1555 => 0x35315241 | Abgr1555 => 0x35314241
  | Rgba5551 => 0x35314152 | Bgra5551 => 0x35314142 | Rgb565 => 0x36314752
  | Bgr565 => 0x36314742 | Rgb888 => 0x34324752 | Bgr888 => 0x34324742 | Xbgr8888 => 0x34324258
  | Rgbx8888 => 0x34325852 | Bgrx8888 => 0x34325842 | Abgr8888 => 0x34324241
  | Rgba8888 => 0x34324152 | Bgra8888 => 0x34324142 | Xrgb2101010 => 0x30335258
  | Xbgr2101010 => 0x30334258 | Rgbx1010102 => 0x30335852 | Bgrx1010102 => 0x30335842
  | Argb2101010 => 0x30335241 | Abgr2101010 => 0x30334241 | Rgba1010102 => 0x30334152
  | Bgra1010102 => 0x30334142 | Yuyv => 0x56595559 | Yvyu => 0x55595659 | Uyvy => 0x59565955
  | Vyuy => 0x59555956 | Ayuv => 0x56555941 | Nv12 => 0x3231564e | Nv21 => 0x3132564e
  | Nv16 => 0x3631564e | Nv61 => 0x3136564e | Yuv410 => 0x39565559 | Yvu410 => 0x39555659
  | Yuv411 => 0x31315559 | Yvu411 => 0x31315659 | Yuv420 => 0x32315559 | Yvu420 => 0x32315659
  | Yuv422 => 0x36315559 | Yvu422 => 0x36315659 | Yuv444 => 0x34325559 | Yvu444 => 0x34325659
  | R8 => 0x20203852 | R16 => 0x20363152 | Rg88 => 0x38384752 | Gr88 => 0x38385247
  | Rg1616 => 0x32334752 | Gr1616 => 0x32335247 | Xrgb16161616f => 0x48345258
  | Xbgr16161616f => 0x48344258 | Argb16161616f => 0x48345241 | Abgr16161616f => 0x48344241
  | Xyuv8888 => 0x56555958 | Vuy888 => 0x34325556 | Vuy101010 => 0x30335556
  | Y210 => 0x30313259 | Y212 => 0x32313259 | Y216 => 0x36313259 | Y410 => 0x30313459
  | Y412 => 0x32313459 | Y416 => 0x36313459 | Xvyu2101010 => 0x30335658
  | Xvyu1216161616 => 0x36335658 | Xvyu16161616 => 0x38345658 | Y0l0 => 0x304c3059
  | X0l0 => 0x304c3058 | Y0l2 => 0x324c3059 | X0l2 => 0x324c3058 | Yuv4208bit => 0x38305559
  | Yuv42010bit => 0x30315559 | Xrgb8888A8 => 0x38415258 | Xbgr8888A8 => 0x38414258
  | Rgbx8888A8 => 0x38415852 | Bgrx8888A8 => 0x38415842 | Rgb888A8 => 0x38413852
  | Bgr888A8 => 0x38413842 | Rgb565A8 => 0x38413552 | Bgr565A8 => 0x38413542
  | Nv24 => 0x3432564e | Nv42 => 0x3234564e | P210 => 0x30313250 | P010 => 0x30313050
  | P012 => 0x32313050 | P016 => 0x36313050 | Axbxgxrx106106106106 => 0x30314241
  | Nv15 => 0x3531564e | Q410 => 0x30313451 | Q401 => 0x31303451 | Xrgb16161616 => 0x38345258
  | Xbgr16161616 => 0x38344258 | Argb16161616 => 0x38345241 | Abgr16161616 => 0x38344241
  | C1 => 0x20203143 | C2 => 0x20203243 | C4 => 0x20203443 | D1 => 0x20203144
  | D2 => 0x20203244 | D4 => 0x20203444 | D8 => 0x20203844 | R1 => 0x20203152
  | R2 => 0x20203252 | R4 => 0x20203452 | R10 => 0x20303152 | R12 => 0x20323152
  | Avuy8888 => 0x59555641 | Xvuy8888 => 0x59555658 | P030 => 0x30333050
  end.

(** [TryFrom<u32> for WlShmFormat] *)
Definition try_from (v : Z) : option WlShmFormat :=
  List.find (fun f => format_code f =? v) all_formats.

(** Wayland and DRM differ in the codes of two formats. *)
Definition drm_to_wayland (drm_format : Z) : Z :=
  if drm_format =? Arith.fourcc "A" "R" "2" "4" then format_code Argb8888
  else if drm_format =? Arith.fourcc "X" "R" "2" "4" then format_code Xrgb8888
  else drm_format.

Definition SIMPLE_1 : PlaneLayout := MkPlane 1 1 1 1 1.
Definition SIMPLE_2 : PlaneLayout := MkPlane 2 1 1 1 1.

Definition layout_of (f : WlShmFormat) : option FormatLayout :=
  match f with
  | R8 | C8 | D8 | Rgb332 | Bgr233 => Some [SIMPLE_1]
  | Xrgb4444 | Xbgr4444 | Rgbx4444 | Bgrx4444 | Argb4444 | Abgr4444 | Rgba4444 | Bgra4444
  | Xrgb1555 | Xbgr1555 | Rgbx5551 | Bgrx5551 | Argb1555 | Abgr1555 | Rgba5551 | Bgra5551
  | Rgb565 | Bgr565 | R10 | R12 | R16 | Rg88 | Gr88 => Some [SIMPLE_2]
  | Rgb888 | Bgr888 | Vuy888 => Some [MkPlane 3 1 1 1 1]
  | Argb8888 | Xrgb8888 | Xbgr8888 | Rgbx8888 | Bgrx8888 | Abgr8888 | Rgba8888 | Bgra8888
  | Xrgb2101010 | Xbgr2101010 | Rgbx1010102 | Bgrx1010102 | Argb2101010 | Abgr2101010
  | Rgba1010102 | Bgra1010102 | Ayuv | Avuy8888 | Xvuy8888 | Xyuv8888 | Xvyu2101010 | Rg1616
  | Gr1616 | Y410 => Some [MkPlane 4 1 1 1 1]
  | Xrgb16161616f | Xbgr16161616f | Argb16161616f | Abgr16161616f | Xrgb16161616 | Xbgr16161616
  | Argb16161616 | Abgr16161616 | Axbxgxrx106106106106 | Xvyu1216161616 | Xvyu16161616 | Y412
  | Y416 => Some [MkPlane 8 1 1 1 1]
  | R1 | C1 | D1 => Some [MkPlane 1 8 1 8 1]
  | R2 | C2 | D2 => Some [MkPlane 1 4 1 4 1]
  | R4 | C4 | D4 => Some [MkPlane 1 2 1 2 1]
  | Yuyv | Yvyu | Uyvy | Vyuy => Some [MkPlane 4 2 1 2 1]
  | Y210 | Y212 | Y216 => Some [MkPlane 8 2 1 2 1]
  | Y0l0 | X0l0 | Y0l2 | X0l2 => Some [MkPlane 8 2 2 2 2]
  | Rgb565A8 | Bgr565A8 => Some [SIMPLE_2; SIMPLE_1]
  | Rgb888A8 | Bgr888A8 => Some [MkPlane 3 1 1 1 1; SIMPLE_1]
  | Xrgb8888A8 | Xbgr8888A8 | Rgbx8888A8 | Bgrx8888A8 => Some [MkPlane 4 1 1 1 1; SIMPLE_1]
  | Nv12 | Nv21 => Some [SIMPLE_1; MkPlane 2 2 2 1 1]
  | Nv16 | Nv61 => Some [SIMPLE_1; MkPlane 2 2 1 1 1]
  | Nv24 | Nv42 => Some [SIMPLE_1; SIMPLE_2]
  | Nv15 => Some [MkPlane 5 4 1 4 1; MkPlane 5 4 2 2 1]
  | P210 | P010 | P012 | P016 => Some [SIMPLE_2; MkPlane 4 2 2 1 1]
  | P030 => Some [MkPlane 4 3 1 3 1; MkPlane 8 6 2 3 1]
  | Yuv410 | Yvu410 => Some [SIMPLE_1; MkPlane 1 4 4 1 1; MkPlane 1 4 4 1 1]
  | Yuv411 | Yvu411 => Some [SIMPLE_1; MkPlane 1 4 1 1 1; MkPlane 1 4 1 1 1]
  | Yuv420 | Yvu420 => Some [SIMPLE_1; MkPlane 1 2 2 1 1; MkPlane 1 2 2 1 1]
  | Yuv422 | Yvu422 => Some [SIMPLE_1; MkPlane 1 2 1 1 1; MkPlane 1 2 1 1 1]
  | Yuv444 | Yvu444 => Some [SIMPLE_1; SIMPLE_1; SIMPLE_1]
  | Q401 | Q410 => Some [SIMPLE_2; SIMPLE_2; SIMPLE_2]
  | Yuv4208bit | Yuv42010bit | Vuy101010 => None
  end.

Definition get_shm_format_layout (format : Z) : option FormatLayout :=
  if format =? Arith.fourcc "N" "V" "2" "0" then Some [MkPlane 5 4 1 4 1; MkPlane 5 4 1 2 1]
  else if format =? Arith.fourcc "N" "V" "3" "0" then Some [MkPlane 5 4 1 4 1; MkPlane 5 2 1 2 1]
  else f ← try_from (drm_to_wayland format); layout_of f.

(** ** Properties of the tables *)
Definition plane_ok (p : PlaneLayout) : bool :=
  (0 <? bpt p) && (0 <? hsub p) && (0 <? vsub p) && (0 <? htex p) && (0 <? vtex p)
  && (hsub p mod htex p =? 0) && (vsub p mod vtex p =? 0) && (bpt p <=? 8) && (hsub p <=? 8)
  && (vsub p <=? 4).
Definition layout_ok (l : FormatLayout) : bool :=
  negb (bool_decide (l = [])) && (zlen l <=? 3) && forallb plane_ok l.

Lemma all_formats_complete f : In f all_formats.
Proof. destruct f; vm_compute; tauto. Qed.

Lemma try_from_code f : try_from (format_code f) = Some f.
Proof. destruct f; reflexivity. Qed.
Lemma try_from_inv v f : try_from v = Some f -> format_code f = v.
Proof. intros [_ H]%find_some. lia. Qed.

Lemma layout_of_ok f l : layout_of f = Some l -> layout_ok l = true.
Proof.
  assert (H : forallb (fun f => match layout_of f with Some l => layout_ok l | None => true end)
                all_formats = true) by (vm_compute; reflexivity).
  rewrite forallb_forall in H. intros E. specialize (H f (all_formats_complete f)). by rewrite E in H.
Qed.
Lemma shm_layout_ok format l : get_shm_format_layout format = Some l -> layout_ok l = true.
Proof.
  unfold get_shm_format_layout. repeat (case_match; [intros [= <-]; reflexivity|]).
  destruct (try_from _) as [f|]; [|done]. apply layout_of_ok.
Qed.

(** the format tables are consistent: a code names a format exactly if it is that format's
    code, so the codes are distinct; every known layout has between one and three planes with
    positive parameters that fit the arithmetic done with them, texel blocks dividing the
    subsampling ratios; and a DRM code and its Wayland code have the same layout. *)
Theorem format_table_consistent :
  (forall v f, try_from v = Some f <-> format_code f = v) /\
  (forall format l, get_shm_format_layout format = Some l -> layout_ok l = true) /\
  (forall format, get_shm_format_layout (drm_to_wayland format) = get_shm_format_layout format).
Proof.
  split_and!.
  - intros v f. split; [apply try_from_inv|intros <-; apply try_from_code].
  - apply shm_layout_ok.
  - intros format. unfold drm_to_wayland. repeat case_match; try done.
    + replace format with (Arith.fourcc "A" "R" "2" "4") by lia. reflexivity.
    + replace format with (Arith.fourcc "X" "R" "2" "4") by lia. reflexivity.
Qed.
