(* ===== verification/Geometry.v ===== *)
(** * [src/tracking.rs]: from surface damage to damaged bytes of a pool

    A client reports damage in surface or buffer coordinates; on commit it is carried into the
    coordinates of the buffer being committed, through the viewport, the buffer scale and the
    buffer transform, and becomes byte intervals of the shared memory pool. Casts between
    integer types of values known to be nonnegative and in range are the identity; the
    products taken in [u128] cannot overflow. *)
From Stdlib Require Import ZArith Lia.
From S2P Require Import Prelude Util Damage Formats Tasks.
Local Open Scope Z_scope.
Import Util.Arith.

(** ** Data *)
Record WlRect := MkWl { x : Z; y : Z; width : Z; height : Z }.

Inductive WlOutputTransform :=
| Normal | Item90 | Item180 | Item270 | Flipped | Flipped90 | Flipped180 | Flipped270.

Abbreviation viewport_src_t := (option (Z * Z * Z * Z)).
Abbreviation viewport_dst_t := (option (Z * Z)).

Record BufferAttachment := MkAtt {
  scale : Z; transform : WlOutputTransform; viewport_src : viewport_src_t;
  viewport_dst : viewport_dst_t; buffer_uid : Z; buffer_size : Z * Z }.
#[export] Instance WlOutputTransform_eq_dec : EqDecision WlOutputTransform.
Proof. solve_decision. Defined.
#[export] Instance BufferAttachment_eq_dec : EqDecision BufferAttachment.
Proof. solve_decision. Defined.

Record DamageBatch := MkBatch {
  attachment : BufferAttachment; damage : list WlRect; damage_buffer : list WlRect }.

Record ObjWlBufferShm := MkShm {
  b_width : Z; b_height : Z; b_format : Z; b_offset : Z; b_stride : Z }.

(** ** Integer operations of the standard library *)
(** [a.saturating_add(b)] on [i32] *)
Definition sat_add_i32 (a b : Z) : Z := Z.max i32_min (Z.min i32_max (a + b)).
(** [v.clamp(lo, hi)] asserts [lo <= hi]. *)
Definition clampR (v lo hi : Z) : res Z := assert_ (lo <=? hi);; Ok (clamp v lo hi).
Definition udiv_ceil (a b : Z) : res Z := if b =? 0 then Panic else Ok (div_ceil a b).

(** ** Clipping *)
Definition clip_wlrect_to_buffer (a : WlRect) (w h : Z) : res (option Rect) :=
  nx1 ← clampR (x a) 0 w;
  nx2 ← clampR (sat_add_i32 (x a) (width a)) 0 w;
  ny1 ← clampR (y a) 0 h;
  ny2 ← clampR (sat_add_i32 (y a) (height a)) 0 h;
  if (nx1 <? nx2) && (ny1 <? ny2) then Ok (Some (MkRect nx1 nx2 ny1 ny2)) else Ok None.

(** ** Surface to buffer *)
Definition source_floor (v dst src_sz_fixed src_offset_fixed : Z) : res Z :=
  p ← u64 (v * src_sz_fixed);
  q ← udiv p dst;
  s ← u64 (q + src_offset_fixed);
  Ok (wrap 32 (s / 256)).
Definition source_ceil (v dst src_sz_fixed src_offset_fixed : Z) : res Z :=
  p ← u64 (v * src_sz_fixed);
  q ← udiv_ceil p dst;
  s ← u64 (q + src_offset_fixed);
  Ok (wrap 32 (div_ceil s 256)).

Definition scale_floor (v size dst : Z) : res Z :=
  p ← u64 (v * size); q ← udiv p dst; Ok (wrap 32 q).
Definition scale_ceil (v size dst : Z) : res Z :=
  p ← u64 (v * size); q ← udiv_ceil p dst; Ok (wrap 32 q).

(** The size of the surface. *)
Definition viewport_extent (bsize : Z * Z) (view_src : viewport_src_t) (view_dst : viewport_dst_t) :
  Z * Z :=
  match view_dst, view_src with
  | Some d, _ => d
  | None, Some (_, _, sw, sh) => (div_ceil sw 256, div_ceil sh 256)
  | None, None => bsize
  end.

Definition apply_viewport_transform (a : WlRect) (bsize : Z * Z) (view_src : viewport_src_t)
    (view_dst : viewport_dst_t) : res (option Rect) :=
  assert_ ((0 <=? width a) && (0 <=? height a));;
  let dst := viewport_extent bsize view_src view_dst in
  ax ← clampR (x a) 0 dst.1;
  bx ← clampR (sat_add_i32 (x a) (width a)) 0 dst.1;
  ay ← clampR (y a) 0 dst.2;
  by_ ← clampR (sat_add_i32 (y a) (height a)) 0 dst.2;
  if (bx <=? ax) || (by_ <=? ay) then Ok None else
  match view_src with
  | Some (v0, v1, v2, v3) =>
      assert_ ((0 <=? v0) && (0 <=? v1) && (0 <? v2) && (0 <? v3));;
      sx1 ← source_floor ax dst.1 v2 v0;
      sx2 ← source_ceil bx dst.1 v2 v0;
      sy1 ← source_floor ay dst.2 v3 v1;
      sy2 ← source_ceil by_ dst.2 v3 v1;
      let sx1 := Z.min sx1 bsize.1 in
      let sx2 := Z.min sx2 bsize.1 in
      let sy1 := Z.min sy1 bsize.2 in
      let sy2 := Z.min sy2 bsize.2 in
      if (sx2 <=? sx1) || (sy2 <=? sy1) then Ok None else Ok (Some (MkRect sx1 sx2 sy1 sy2))
  | None =>
      sx1 ← scale_floor ax bsize.1 dst.1;
      sx2 ← scale_ceil bx bsize.1 dst.1;
      sy1 ← scale_floor ay bsize.2 dst.2;
      sy2 ← scale_ceil by_ bsize.2 dst.2;
      Ok (Some (MkRect sx1 sx2 sy1 sy2))
  end.

(** [transform as u32] and the set of reflections it stands for *)
Definition transform_code (t : WlOutputTransform) : Z :=
  match t with
  | Normal => 0 | Item90 => 1 | Item180 => 2 | Item270 => 3
  | Flipped => 4 | Flipped90 => 5 | Flipped180 => 6 | Flipped270 => 7
  end.
Definition reflections (t : WlOutputTransform) : res (bool * bool * bool) :=
  code ← index [0; 3; 6; 5; 2; 1; 4; 7] (transform_code t);
  Ok (negb (Z.land code 1 =? 0), negb (Z.land code 2 =? 0), negb (Z.land code 4 =? 0)).

Definition apply_damage_rect_transform (a : WlRect) (scale : Z) (transform : WlOutputTransform)
    (view_src : viewport_src_t) (view_dst : viewport_dst_t) (w h : Z) : res (option Rect) :=
  c ← reflections transform;
  let '(swap_xy, flip_x, flip_y) := c in
  qw ← (if swrap 32 scale =? 0 then Panic else Ok (Z.quot w (swrap 32 scale)));
  qh ← (if swrap 32 scale =? 0 then Panic else Ok (Z.quot h (swrap 32 scale)));
  let pre_vp_size := if (swap_xy : bool) then (qh, qw) else (qw, qh) in
  o ← apply_viewport_transform a pre_vp_size view_src view_dst;
  match o with
  | None => Ok None
  | Some b =>
      xl ← unwrap (checked 32 (x1 b * scale));
      yl ← unwrap (checked 32 (y1 b * scale));
      xh ← unwrap (checked 32 (x2 b * scale));
      yh ← unwrap (checked 32 (y2 b * scale));
      let end_w := wrap 32 (if swap_xy then h else w) in
      let end_h := wrap 32 (if swap_xy then w else h) in
      xs ← (if (flip_x : bool) then a ← u32 (end_w - xl); b ← u32 (end_w - xh); Ok (b, a)
            else Ok (xl, xh));
      ys ← (if (flip_y : bool) then a ← u32 (end_h - yl); b ← u32 (end_h - yh); Ok (b, a)
            else Ok (yl, yh));
      if swap_xy then Ok (Some (MkRect ys.1 ys.2 xs.1 xs.2))
      else Ok (Some (MkRect xs.1 xs.2 ys.1 ys.2))
  end.

(** ** Buffer to surface *)
Definition inverse_viewport_transform (a : Rect) (bsize : Z * Z) (view_src : viewport_src_t)
    (view_dst : viewport_dst_t) : res (option WlRect) :=
  assert_ ((0 <? bsize.1) && (0 <? bsize.2));;
  assert_ ((x1 a <? x2 a) && (y1 a <? y2 a) && (x2 a <=? bsize.1) && (y2 a <=? bsize.2));;
  clipped ← match view_src with
            | Some (sx, sy, sw, sh) =>
                assert_ ((0 <=? sx) && (0 <=? sy) && (0 <? sw) && (0 <? sh));;
                let e := (sx + sw, sy + sh) in
                ax ← clampR (x1 a * 256) sx e.1;
                bx ← clampR (x2 a * 256) sx e.1;
                ay ← clampR (y1 a * 256) sy e.2;
                by_ ← clampR (y2 a * 256) sy e.2;
                if (bx <=? ax) || (by_ <=? ay) then Ok None
                else Ok (Some (ax - sx, bx - sx, ay - sy, by_ - sy, (sw, sh)))
            | None => Ok (Some (x1 a * 256, x2 a * 256, y1 a * 256, y2 a * 256,
                                (bsize.1 * 256, bsize.2 * 256)))
            end;
  match clipped with
  | None => Ok None
  | Some (ax, bx, ay, by_, src) =>
      (match view_dst with Some (dw, dh) => assert_ ((0 <? dw) && (0 <? dh)) | None => Ok tt end);;
      let dst := viewport_extent bsize view_src view_dst in
      xl ← udiv (ax * dst.1) src.1;
      xh ← udiv_ceil (bx * dst.1) src.1;
      yl ← udiv (ay * dst.2) src.2;
      yh ← udiv_ceil (by_ * dst.2) src.2;
      assert_ ((xl <? xh) && (yl <? yh));;
      assert_ ((xh <=? i32_max) && (yh <=? i32_max));;
      Ok (Some (MkWl xl yl (xh - xl) (yh - yl)))
  end.

Definition inverse_damage_rect_transform (a : WlRect) (scale : Z) (transform : WlOutputTransform)
    (view_src : viewport_src_t) (view_dst : viewport_dst_t) (buf_width buf_height : Z) :
  res (option WlRect) :=
  assert_ ((0 <? buf_width) && (0 <? buf_height) && (0 <? scale));;
  assert_ ((0 <? width a) && (0 <? height a));;
  c ← reflections transform;
  let '(swap_xy, flip_x, flip_y) := c in
  xl ← clampR (x a) 0 buf_width;
  xh ← clampR (sat_add_i32 (x a) (width a)) 0 buf_width;
  yl ← clampR (y a) 0 buf_height;
  yh ← clampR (sat_add_i32 (y a) (height a)) 0 buf_height;
  if (xh <=? xl) || (yh <=? yl) then Ok None else
  let ends := if (swap_xy : bool) then (buf_height, buf_width) else (buf_width, buf_height) in
  let '(xl, xh, yl, yh) := if swap_xy then (yl, yh, xl, xh) else (xl, xh, yl, yh) in
  ys ← (if (flip_y : bool) then a ← u32 (ends.2 - yl); b ← u32 (ends.2 - yh); Ok (b, a)
        else Ok (yl, yh));
  xs ← (if (flip_x : bool) then a ← u32 (ends.1 - xl); b ← u32 (ends.1 - xh); Ok (b, a)
        else Ok (xl, xh));
  let b := MkRect (xs.1 / scale) (div_ceil xs.2 scale) (ys.1 / scale) (div_ceil ys.2 scale) in
  let post_vp_size := (div_ceil ends.1 scale, div_ceil ends.2 scale) in
  inverse_viewport_transform b post_vp_size view_src view_dst.

(** ** Whole buffers *)
Definition plane_step (buffer : ObjWlBufferShm) (p0 : PlaneLayout) (ext_stride : Z)
    (st : option (Z * Z)) (plane : PlaneLayout) : res (option (Z * Z)) :=
  match st with
  | None => Ok None
  | Some (end_, max_row_len) =>
      match checked 64 (ext_stride * bpt plane) with
      | None => Ok None
      | Some es =>
      den ← unwrap (checked 32 (bpt p0 * hsub plane));
      Ok (let plane_stride := div_ceil es den in
          let plane_height := div_ceil (b_height buffer) (vsub plane) in
          row ← checked 64 (b_width buffer * bpt plane);
          let max_row_len := Z.max max_row_len (div_ceil row (hsub plane)) in
          sz ← checked 64 (plane_height * plane_stride);
          end_ ← checked 64 (end_ + sz);
          Some (end_, max_row_len))
      end
  end.

Definition extent_for_linear_buffer (buffer : ObjWlBufferShm) (layout : FormatLayout) :
  res (option (Z * Z)) :=
  start ← unwrap (checked 64 (b_offset buffer));
  assert_ ((0 <=? b_stride buffer) && (0 <? b_width buffer) && (0 <? b_height buffer));;
  p0 ← index layout 0;
  match checked 64 (b_stride buffer * hsub p0) with
  | None => Ok None
  | Some ext_stride =>
      r ← foldM (plane_step buffer p0 ext_stride) (Some (start, 0)) layout;
      match r with
      | None => Ok None
      | Some (end_, max_row_len) =>
          Ok (e ← checked 64 (start + max_row_len); Some (start, Z.max end_ e))
      end
  end.

Definition damage_for_entire_buffer (buffer : ObjWlBufferShm) : res (Z * Z) :=
  let max_endpoint := 64 * (usize_max / 64) in
  match get_shm_format_layout (b_format buffer) with
  | Some layout =>
      r ← extent_for_linear_buffer buffer layout;
      match r with
      | Some (start, end_) =>
          e ← align (Z.min end_ max_endpoint) 64;
          Ok (64 * (start / 64), e)
      | None => Ok (64 * (wrap 64 (b_offset buffer) / 64), max_endpoint)
      end
  | None => Ok (64 * (wrap 64 (b_offset buffer) / 64), max_endpoint)
  end.

(** ** Damage since a buffer was last committed *)
Definition push_some {A} (l : list A) (o : option A) : list A :=
  match o with Some r => l ++ [r] | None => l end.

Definition surface_rect (att : BufferAttachment) (rects : list Rect) (w : WlRect) :
  res (list Rect) :=
  r ← apply_damage_rect_transform w (scale att) (transform att) (viewport_src att)
        (viewport_dst att) (buffer_size att).1 (buffer_size att).2;
  Ok (push_some rects r).

Definition buffer_rect (first : bool) (att batch_att : BufferAttachment) (rects : list Rect)
    (w : WlRect) : res (list Rect) :=
  if first then
    r ← clip_wlrect_to_buffer w (buffer_size att).1 (buffer_size att).2;
    Ok (push_some rects r)
  else
    s ← inverse_damage_rect_transform w (scale batch_att) (transform batch_att)
          (viewport_src batch_att) (viewport_dst batch_att) (buffer_size batch_att).1
          (buffer_size batch_att).2;
    match s with
    | None => Ok rects
    | Some s => surface_rect att rects s
    end.

Definition batch_rects (att : BufferAttachment) (rects : list Rect) (ib : nat * DamageBatch) :
  res (list Rect) :=
  let '(i, batch) := ib in
  rects ← foldM (buffer_rect (i =? 0)%nat att (attachment batch)) rects (damage_buffer batch);
  foldM (surface_rect att) rects (damage batch).

(** [iter().position(p)] *)
Fixpoint position {A} (p : A -> bool) (l : list A) : option nat :=
  match l with
  | [] => None
  | a :: l => if p a then Some 0%nat else S <$> position p l
  end.

Definition get_damage_rects (damage_history : list DamageBatch) (att : BufferAttachment) :
  res (list Rect) :=
  let '(w, h) := buffer_size att in
  assert_ ((0 <? w) && (0 <? h));;
  let full_damage := MkRect 0 w 0 h in
  match position (fun b => buffer_uid (attachment b) =? buffer_uid att) (drop 1 damage_history) with
  | None => Ok [full_damage]
  | Some first_idx_offset =>
      let first_idx := S first_idx_offset in
      b ← index damage_history (Z.of_nat first_idx);
      if decide (attachment b = att)
      then foldM (batch_rects att) []
             (zip (seq 0 first_idx) (take first_idx damage_history))
      else Ok [full_damage]
  end.

Definition get_damage_for_shm `{SortUnstable} (shm_info : ObjWlBufferShm)
    (damage_history : list DamageBatch) (att : BufferAttachment) : res (list (Z * Z)) :=
  match get_shm_format_layout (b_format shm_info) with
  | Some [p0] =>
      if (hsub p0 =? 1) && (vsub p0 =? 1) && (htex p0 =? 1) && (vtex p0 =? 1) then
        rects ← get_damage_rects damage_history att;
        offset ← unwrap (checked 64 (b_offset shm_info));
        stride ← unwrap (checked 64 (b_stride shm_info));
        compute_damaged_segments 6 128 offset stride (bpt p0) rects
      else d ← damage_for_entire_buffer shm_info; Ok [d]
  | _ => d ← damage_for_entire_buffer shm_info; Ok [d]
  end.

(** ** [wl_surface.commit] on a shared memory buffer

    The damage of the pool, and the history: the pending batch moves to index 1, the oldest of
    the seven is dropped, and a fresh pending batch keeps the attachment. *)
Definition rotate_history (damage_history : list DamageBatch) (current : BufferAttachment) :
  list DamageBatch :=
  match damage_history with
  | pending :: rest =>
      MkBatch current [] [] :: MkBatch current (damage pending) (damage_buffer pending) :: take 5 rest
  | [] => []
  end.

Definition commit_shm `{SortUnstable} (shm_info : ObjWlBufferShm) (unique_id : Z)
    (damage_history : list DamageBatch) (pool_damage : Tasks.Damage) :
  res (list DamageBatch * Tasks.Damage) :=
  pending ← index damage_history 0;
  let a := attachment pending in
  let current := MkAtt (scale a) (transform a) (viewport_src a) (viewport_dst a) unique_id
                   (b_width shm_info, b_height shm_info) in
  (if swrap 32 (scale current) =? 0 then Panic else Ok tt);;
  pool_damage ← match pool_damage with
                | Everything => Ok Everything
                | Intervals old =>
                    dmg ← get_damage_for_shm shm_info damage_history current;
                    u ← union_damage old dmg 128;
                    Ok (Intervals u)
                end;
  Ok (rotate_history damage_history current, pool_damage).

(** Committing without a buffer clears the history. *)
Definition commit_none (damage_history : list DamageBatch) : res (list DamageBatch) :=
  pending ← index damage_history 0;
  let a := attachment pending in
  let current := MkAtt (scale a) (transform a) (viewport_src a) (viewport_dst a) 0 (0, 0) in
  Ok (replicate 7 (MkBatch current [] [])).
