(* ===== verification/GeometryCorrect.v ===== *)
(** * Damage rectangles stay in the buffer and are not lost

    The coordinate changes never panic for valid attachments, map damage to rectangles inside
    the buffer, and a damaged pixel carried to the surface and back is still damaged. *)
From Stdlib Require Import ZArith Lia Sorting.Sorted.
From stdpp Require Import sets.
From S2P Require Import Prelude Util Damage Formats Tasks TasksCorrect Geometry.
Local Open Scope Z_scope.
Import Util.Arith.

(** ** Values and attachments the requests admit *)
Definition i31 (v : Z) : Prop := 0 <= v <= i32_max.
Definition pos31 (v : Z) : Prop := 0 < v <= i32_max.
Definition src_ok (v : viewport_src_t) : Prop :=
  match v with Some (sx, sy, sw, sh) => i31 sx /\ i31 sy /\ pos31 sw /\ pos31 sh | None => True end.
Definition dst_ok (v : viewport_dst_t) : Prop :=
  match v with Some (dw, dh) => pos31 dw /\ pos31 dh | None => True end.
Record att_ok (a : BufferAttachment) : Prop := {
  ao_scale : 0 < scale a;
  ao_size : pos31 (buffer_size a).1 /\ pos31 (buffer_size a).2;
  (** the scale is not larger than the buffer *)
  ao_fit : scale a <= (buffer_size a).1 /\ scale a <= (buffer_size a).2;
  ao_src : src_ok (viewport_src a);
  ao_dst : dst_ok (viewport_dst a);
}.
Definition wl_ok (r : WlRect) : Prop :=
  iN 32 (x r) /\ iN 32 (y r) /\ pos31 (width r) /\ pos31 (height r).
Definition rect_in (w h : Z) (r : Rect) : Prop :=
  0 <= x1 r < x2 r /\ x2 r <= w /\ 0 <= y1 r < y2 r /\ y2 r <= h.

(** ** One axis *)
Lemma clampR_ok v lo hi : lo <= hi -> clampR v lo hi = Ok (Z.max lo (Z.min v hi)).
Proof. intros. unfold clampR. rewrite assert_true by lia. cbn. by rewrite clamp_spec. Qed.
Lemma udiv_ok a b : b <> 0 -> udiv a b = Ok (a / b).
Proof. unfold udiv. by intros ->%Z.eqb_neq. Qed.
Lemma udiv_ceil_ok a b : b <> 0 -> udiv_ceil a b = Ok (div_ceil a b).
Proof. unfold udiv_ceil. by intros ->%Z.eqb_neq. Qed.
Lemma div_ceil_ge a b c : 0 < b -> (c <= div_ceil a b <-> (c - 1) * b < a).
Proof. intros Hb. pose proof (div_ceil_le a b (c - 1) Hb). lia. Qed.

Lemma mul_div_bound v s d : 0 <= v <= d -> 0 < d -> 0 <= s ->
  0 <= v * s / d <= s /\ 0 <= div_ceil (v * s) d <= s.
Proof.
  intros. split; split.
  - apply Z.div_pos; nia.
  - apply Z.div_le_upper_bound; nia.
  - apply div_ceil_ge; nia.
  - apply div_ceil_le; nia.
Qed.
Lemma floor_lt_ceil a b s d : a < b -> 0 < s -> 0 < d -> a * s / d < div_ceil (b * s) d.
Proof.
  intros. apply Z.le_succ_l. apply div_ceil_ge; [done|].
  pose proof (Z.mul_div_le (a * s) d). nia.
Qed.

Lemma source_floor_ok v d sz off : 0 <= v <= d -> pos31 d -> pos31 sz -> i31 off ->
  source_floor v d sz off = Ok ((v * sz / d + off) / 256).
Proof.
  unfold pos31, i31, i32_max, source_floor. intros. assert (0 <= v * sz < 2 ^ 31 * 2 ^ 31) by nia.
  rewrite chk_in by (unfold uN; lia). cbn [mbind res_bind]. rewrite udiv_ok by lia. cbn [mbind res_bind].
  pose proof (mul_div_bound v sz d) as [? _]; [lia..|].
  rewrite chk_in by (unfold uN; lia). cbn [mbind res_bind]. unfold wrap. rewrite Z.mod_small; [done|].
  split; [apply Z.div_pos; lia|]. apply Z.div_lt_upper_bound; lia.
Qed.
Lemma source_ceil_ok v d sz off : 0 <= v <= d -> pos31 d -> pos31 sz -> i31 off ->
  source_ceil v d sz off = Ok (div_ceil (div_ceil (v * sz) d + off) 256).
Proof.
  unfold pos31, i31, i32_max, source_ceil. intros. assert (0 <= v * sz < 2 ^ 31 * 2 ^ 31) by nia.
  rewrite chk_in by (unfold uN; lia). cbn [mbind res_bind]. rewrite udiv_ceil_ok by lia. cbn [mbind res_bind].
  pose proof (mul_div_bound v sz d) as [_ ?]; [lia..|].
  rewrite chk_in by (unfold uN; lia). cbn [mbind res_bind]. unfold wrap. rewrite Z.mod_small; [done|].
  split; [apply div_ceil_ge; lia|].
  assert (div_ceil (div_ceil (v * sz) d + off) 256 <= 2 ^ 31) by (apply div_ceil_le; lia). lia.
Qed.
Lemma scale_floor_ok v s d : 0 <= v <= d -> pos31 d -> i31 s -> scale_floor v s d = Ok (v * s / d).
Proof.
  unfold pos31, i31, i32_max, scale_floor. intros. assert (0 <= v * s < 2 ^ 31 * 2 ^ 31) by nia.
  rewrite chk_in by (unfold uN; lia). cbn [mbind res_bind]. rewrite udiv_ok by lia. cbn [mbind res_bind].
  pose proof (mul_div_bound v s d) as [? _]; [lia..|]. unfold wrap. rewrite Z.mod_small; [done|lia].
Qed.
Lemma scale_ceil_ok v s d : 0 <= v <= d -> pos31 d -> i31 s -> scale_ceil v s d = Ok (div_ceil (v * s) d).
Proof.
  unfold pos31, i31, i32_max, scale_ceil. intros. assert (0 <= v * s < 2 ^ 31 * 2 ^ 31) by nia.
  rewrite chk_in by (unfold uN; lia). cbn [mbind res_bind]. rewrite udiv_ceil_ok by lia. cbn [mbind res_bind].
  pose proof (mul_div_bound v s d) as [_ ?]; [lia..|]. unfold wrap. rewrite Z.mod_small; [done|lia].
Qed.

Lemma viewport_extent_ok bsize vs vd :
  src_ok vs -> dst_ok vd -> pos31 bsize.1 -> pos31 bsize.2 ->
  pos31 (viewport_extent bsize vs vd).1 /\ pos31 (viewport_extent bsize vs vd).2.
Proof.
  unfold src_ok, dst_ok, viewport_extent, pos31, i31, i32_max. intros Hs Hd H1 H2.
  destruct vd as [[dw dh]|]; [done|]. destruct vs as [[[[sx sy] sw] sh]|]; [|done]. cbn.
  assert (1 <= div_ceil sw 256 /\ 1 <= div_ceil sh 256) by (split; apply div_ceil_ge; lia).
  assert (div_ceil sw 256 <= 2147483647 /\ div_ceil sh 256 <= 2147483647) by (split; apply div_ceil_le; lia).
  lia.
Qed.

(** The interval [ax, bx) of a surface axis of length [d] in a buffer axis of length [B]. *)
Definition fwd (src : option (Z * Z)) (B d ax bx : Z) : Z * Z :=
  match src with
  | Some (sx, sw) => (Z.min ((ax * sw / d + sx) / 256) B,
                      Z.min (div_ceil (div_ceil (bx * sw) d + sx) 256) B)
  | None => (ax * B / d, div_ceil (bx * B) d)
  end.
Definition src_x (v : viewport_src_t) : option (Z * Z) :=
  match v with Some (sx, _, sw, _) => Some (sx, sw) | None => None end.
Definition src_y (v : viewport_src_t) : option (Z * Z) :=
  match v with Some (_, sy, _, sh) => Some (sy, sh) | None => None end.

(** [apply_viewport_transform] in closed form. *)
Lemma apply_viewport_eq a bsize vs vd :
  0 <= width a -> 0 <= height a -> src_ok vs -> dst_ok vd -> pos31 bsize.1 -> pos31 bsize.2 ->
  let d := viewport_extent bsize vs vd in
  let ax := Z.max 0 (Z.min (x a) d.1) in
  let bx := Z.max 0 (Z.min (sat_add_i32 (x a) (width a)) d.1) in
  let ay := Z.max 0 (Z.min (y a) d.2) in
  let by_ := Z.max 0 (Z.min (sat_add_i32 (y a) (height a)) d.2) in
  let X := fwd (src_x vs) bsize.1 d.1 ax bx in
  let Y := fwd (src_y vs) bsize.2 d.2 ay by_ in
  apply_viewport_transform a bsize vs vd =
    Ok (if (bx <=? ax) || (by_ <=? ay) then None
        else if match vs with Some _ => (X.2 <=? X.1) || (Y.2 <=? Y.1) | None => false end then None
        else Some (MkRect X.1 X.2 Y.1 Y.2)).
Proof.
  intros Hw Hh Hs Hd HB1 HB2 d ax bx ay by_ X Y.
  destruct (viewport_extent_ok bsize vs vd Hs Hd HB1 HB2) as [Hd1 Hd2]. fold d in Hd1, Hd2.
  assert (Hd1' : 0 <= d.1) by (unfold pos31 in *; lia). assert (Hd2' : 0 <= d.2) by (unfold pos31 in *; lia).
  unfold apply_viewport_transform. rewrite assert_true by lia. cbn [mbind res_bind]. fold d.
  rewrite !clampR_ok by done. cbn [mbind res_bind].
  fold ax bx ay by_.
  assert (Hax : 0 <= ax <= d.1 /\ 0 <= bx <= d.1) by lia.
  assert (Hay : 0 <= ay <= d.2 /\ 0 <= by_ <= d.2) by lia.
  destruct ((bx <=? ax) || (by_ <=? ay)); [done|].
  destruct vs as [[[[sx sy] sw] sh]|]; cbn in Hs.
  - destruct Hs as (?&?&?&?). rewrite assert_true by (unfold i31, pos31 in *; lia). cbn [mbind res_bind].
    rewrite source_floor_ok by (done || lia). cbn [mbind res_bind].
    rewrite source_ceil_ok by (done || lia). cbn [mbind res_bind].
    rewrite source_floor_ok by (done || lia). cbn [mbind res_bind].
    rewrite source_ceil_ok by (done || lia). cbn [mbind res_bind].
    unfold X, Y. cbn [src_x src_y fwd fst snd]. by case_match.
  - rewrite scale_floor_ok by (done || (unfold i31, pos31 in *; lia)). cbn [mbind res_bind].
    rewrite scale_ceil_ok by (done || (unfold i31, pos31 in *; lia)). cbn [mbind res_bind].
    rewrite scale_floor_ok by (done || (unfold i31, pos31 in *; lia)). cbn [mbind res_bind].
    rewrite scale_ceil_ok by (done || (unfold i31, pos31 in *; lia)). cbn [mbind res_bind]. done.
Qed.

(** ** Whole rectangles *)
Lemma fwd_in src B d ax bx : 0 <= ax < bx -> bx <= d -> pos31 d -> pos31 B ->
  match src with Some (sx, sw) => i31 sx /\ pos31 sw | None => True end ->
  let X := fwd src B d ax bx in
  0 <= X.1 /\ X.2 <= B /\ match src with Some _ => True | None => X.1 < X.2 end.
Proof.
  intros Ha Hb Hd HB Hs X. unfold X, fwd, pos31, i31 in *. destruct src as [[sx sw]|]; cbn.
  - split; [|split; [lia|done]].
    pose proof (mul_div_bound ax sw d) as [? _]; [lia..|].
    assert (0 <= (ax * sw / d + sx) / 256) by (apply Z.div_pos; lia). lia.
  - pose proof (mul_div_bound ax B d) as [? _]; [lia..|].
    pose proof (mul_div_bound bx B d) as [_ ?]; [lia..|].
    pose proof (floor_lt_ceil ax bx B d). lia.
Qed.

Lemma src_xy_ok vs : src_ok vs ->
  match src_x vs with Some (sx, sw) => i31 sx /\ pos31 sw | None => True end /\
  match src_y vs with Some (sx, sw) => i31 sx /\ pos31 sw | None => True end.
Proof. destruct vs as [[[[sx sy] sw] sh]|]; cbn; intuition. Qed.

Lemma apply_viewport_in a bsize vs vd :
  0 <= width a -> 0 <= height a -> src_ok vs -> dst_ok vd -> pos31 bsize.1 -> pos31 bsize.2 ->
  exists o, apply_viewport_transform a bsize vs vd = Ok o /\
    forall r, o = Some r -> rect_in bsize.1 bsize.2 r.
Proof.
  intros Hw Hh Hs Hd HB1 HB2. eexists. split; [by apply apply_viewport_eq|]. intros r.
  destruct (viewport_extent_ok bsize vs vd Hs Hd HB1 HB2) as [Hd1 Hd2].
  set (d := viewport_extent bsize vs vd) in *.
  set (ax := Z.max 0 (Z.min (x a) _)). set (bx := Z.max 0 (Z.min (sat_add_i32 (x a) _) _)).
  set (ay := Z.max 0 (Z.min (y a) _)). set (by_ := Z.max 0 (Z.min (sat_add_i32 (y a) _) _)).
  destruct ((bx <=? ax) || (by_ <=? ay)) eqn:E; [done|].
  destruct (src_xy_ok vs Hs) as [Hx Hy].
  pose proof (fwd_in (src_x vs) bsize.1 d.1 ax bx) as HX.
  pose proof (fwd_in (src_y vs) bsize.2 d.2 ay by_) as HY.
  unfold pos31 in Hd1, Hd2.
  ospecialize* HX; [lia|lia|done|done|done|]. ospecialize* HY; [lia|lia|done|done|done|].
  set (X := fwd (src_x vs) _ _ _ _) in *. set (Y := fwd (src_y vs) _ _ _ _) in *.
  clearbody X Y. unfold rect_in.
  destruct vs as [[[[sx sy] sw] sh]|]; cbn [src_x src_y] in HX, HY;
    [destruct ((X.2 <=? X.1) || (Y.2 <=? Y.1)) eqn:E2; [done|]|]; intros [= <-]; cbn; lia.
Qed.

(** The set of reflections a transform stands for: exchange of the axes, then flips. *)
Definition flips (t : WlOutputTransform) : bool * bool * bool :=
  match t with
  | Normal => (false, false, false) | Item90 => (true, true, false)
  | Item180 => (false, true, true) | Item270 => (true, false, true)
  | Flipped => (false, true, false) | Flipped90 => (true, false, false)
  | Flipped180 => (false, false, true) | Flipped270 => (true, true, true)
  end.
Lemma reflections_eq t : reflections t = Ok (flips t).
Proof. by destruct t. Qed.

Definition flip (f : bool) (e lo hi : Z) : Z * Z := if f then (e - hi, e - lo) else (lo, hi).

(** The rectangle [b] of the surface-aligned buffer of pixels of size [s], in the buffer. *)
Definition place (t : WlOutputTransform) (s w h : Z) (b : Rect) : Rect :=
  let '(swap, fx, fy) := flips t in
  let xs := flip fx (if swap then h else w) (x1 b * s) (x2 b * s) in
  let ys := flip fy (if swap then w else h) (y1 b * s) (y2 b * s) in
  if swap then MkRect ys.1 ys.2 xs.1 xs.2 else MkRect xs.1 xs.2 ys.1 ys.2.
Definition pre_size (t : WlOutputTransform) (s w h : Z) : Z * Z :=
  if (flips t).1.1 then (h / s, w / s) else (w / s, h / s).

Lemma apply_damage_eq a s t vs vd w h :
  0 <= width a -> 0 <= height a -> src_ok vs -> dst_ok vd -> pos31 w -> pos31 h ->
  0 < s -> s <= w -> s <= h ->
  exists o, apply_viewport_transform a (pre_size t s w h) vs vd = Ok o /\
    (forall b, o = Some b -> rect_in (pre_size t s w h).1 (pre_size t s w h).2 b) /\
    apply_damage_rect_transform a s t vs vd w h = Ok (place t s w h <$> o).
Proof.
  intros Hwa Hha Hs Hd Hw Hh Hs0 Hsw Hsh. unfold pos31, i32_max in Hw, Hh.
  assert (Hq : 1 <= w / s <= w /\ 1 <= h / s <= h).
  { repeat split; [apply Z.div_le_lower_bound|apply Z.div_le_upper_bound|
                   apply Z.div_le_lower_bound|apply Z.div_le_upper_bound]; nia. }
  assert (Hb : pos31 (pre_size t s w h).1 /\ pos31 (pre_size t s w h).2).
  { unfold pre_size, pos31, i32_max. destruct ((flips t).1.1); cbn; lia. }
  destruct Hb as [Hb1 Hb2].
  destruct (apply_viewport_in a (pre_size t s w h) vs vd) as (o & Ho & Hin); [done..|].
  exists o. split; [done|]. split; [done|].
  unfold apply_damage_rect_transform. rewrite reflections_eq. cbn [mbind res_bind].
  rewrite (swrap_id 32) by (unfold iN; lia). unfold pre_size, place in *.
  assert (Es : (s =? 0) = false) by lia. rewrite Es. cbn [mbind res_bind].
  rewrite !Z.quot_div_nonneg by lia.
  destruct (flips t) as [[swap fx] fy]. cbn [fst snd] in *. rewrite Ho. cbn [mbind res_bind].
  destruct o as [b|]; [|done]. specialize (Hin b eq_refl). unfold rect_in in Hin.
  pose proof (Z.mul_div_le w s Hs0). pose proof (Z.mul_div_le h s Hs0).
  set (W := (if swap then h else w)). set (H' := (if swap then w else h)).
  assert (HX : 0 <= x1 b * s /\ x1 b * s <= x2 b * s /\ x2 b * s <= W < 2147483648).
  { destruct swap; cbn [fst snd] in Hin; unfold W; nia. }
  assert (HY : 0 <= y1 b * s /\ y1 b * s <= y2 b * s /\ y2 b * s <= H' < 2147483648).
  { destruct swap; cbn [fst snd] in Hin; unfold H'; nia. }
  rewrite !checked_in by (unfold uN; lia). cbn [unwrap mbind res_bind].
  unfold wrap. rewrite !(Z.mod_small _ (2 ^ 32)) by lia. clearbody W H'.
  unfold flip. destruct fx, fy; cbn [mbind res_bind];
    rewrite ?(chk_in 32 (W - _)), ?(chk_in 32 (H' - _)) by (unfold uN; lia); cbn; by destruct swap.
Qed.

(** ** From the buffer back to the surface *)
Definition inv_end (src : option (Z * Z)) (v : Z) : Z :=
  match src with Some (sx, sw) => Z.max sx (Z.min (v * 256) (sx + sw)) - sx | None => v * 256 end.
Definition inv_len (src : option (Z * Z)) (B : Z) : Z :=
  match src with Some (_, sw) => sw | None => B * 256 end.
(** The interval [A, E) of a buffer axis of length [B] on a surface axis of length [d]. *)
Definition inv1 (src : option (Z * Z)) (B d A E : Z) : Z * Z :=
  (inv_end src A * d / inv_len src B, div_ceil (inv_end src E * d) (inv_len src B)).
Definition axis_ok (src : option (Z * Z)) : Prop :=
  match src with Some (sx, sw) => i31 sx /\ pos31 sw | None => True end.
(** Pixel [u] of a buffer axis intersects the viewport source. *)
Definition visible (src : option (Z * Z)) (u : Z) : Prop :=
  match src with Some (sx, sw) => sx < 256 * (u + 1) /\ 256 * u < sx + sw | None => True end.

Lemma inv1_in src B d A E : axis_ok src -> pos31 B -> pos31 d -> 0 <= A < E -> E <= B ->
  inv_end src A < inv_end src E ->
  0 <= (inv1 src B d A E).1 < (inv1 src B d A E).2 /\ (inv1 src B d A E).2 <= d.
Proof.
  unfold pos31. intros Hs HB Hd HA HE Hlt. unfold inv1. cbn [fst snd].
  assert (Hl : 0 < inv_len src B /\ 0 <= inv_end src A /\ inv_end src E <= inv_len src B).
  { destruct src as [[sx sw]|]; cbn in *; unfold i31, pos31 in *; lia. }
  pose proof (mul_div_bound (inv_end src A) d (inv_len src B)) as [? _]; [lia..|].
  pose proof (mul_div_bound (inv_end src E) d (inv_len src B)) as [_ ?]; [lia..|].
  pose proof (floor_lt_ceil (inv_end src A) (inv_end src E) d (inv_len src B)). lia.
Qed.
Lemma visible_end src A E u : axis_ok src -> 0 <= A <= u -> u < E -> visible src u ->
  inv_end src A < inv_end src E.
Proof. destruct src as [[sx sw]|]; cbn; unfold i31, pos31; lia. Qed.

(** A pixel carried to the surface and back stays in the interval. *)
Lemma fwd_inv src B d A E u : axis_ok src -> pos31 B -> pos31 d -> 0 <= A <= u -> u < E -> E <= B ->
  visible src u ->
  let X := inv1 src B d A E in
  (fwd src B d X.1 X.2).1 <= u < (fwd src B d X.1 X.2).2.
Proof.
  intros Hs HB Hd HA HE HEB Hv X. subst X. unfold inv1, pos31 in *. cbn [fst snd].
  assert (Hl : 0 < inv_len src B /\ 0 <= inv_end src A).
  { destruct src as [[sx sw]|]; cbn in *; unfold i31, pos31 in *; lia. }
  destruct Hl as [Hl Ha]. set (L := inv_len src B) in *. set (a := inv_end src A) in *.
  set (e := inv_end src E) in *.
  pose proof (Z.mul_div_le (a * d) L Hl) as H1. set (p := a * d / L) in *.
  assert (H2 : e * d <= L * div_ceil (e * d) L).
  { pose proof (proj1 (div_ceil_le (e * d) L (div_ceil (e * d) L) Hl)). lia. }
  set (q := div_ceil (e * d) L) in *.
  destruct src as [[sx sw]|]; cbn in *; unfold i31, pos31 in *.
  - assert (H3 : p * L / d <= a) by (apply Z.div_le_upper_bound; nia).
    assert (H4 : e <= div_ceil (q * L) d) by (apply div_ceil_ge; nia).
    subst L. split.
    + assert ((p * sw / d + sx) / 256 < u + 1) by (apply Z.div_lt_upper_bound; lia). lia.
    + assert (u + 1 <= div_ceil (div_ceil (q * sw) d + sx) 256) by (apply div_ceil_ge; lia). lia.
  - subst L a e. split.
    + assert (p * B / d < u + 1) by (apply Z.div_lt_upper_bound; nia). lia.
    + assert (u + 1 <= div_ceil (q * B) d) by (apply div_ceil_ge; nia). lia.
Qed.

(** [inverse_viewport_transform] in closed form. *)
Lemma inverse_viewport_eq a bsize vs vd :
  src_ok vs -> dst_ok vd -> pos31 bsize.1 -> pos31 bsize.2 -> rect_in bsize.1 bsize.2 a ->
  let d := viewport_extent bsize vs vd in
  let X := inv1 (src_x vs) bsize.1 d.1 (x1 a) (x2 a) in
  let Y := inv1 (src_y vs) bsize.2 d.2 (y1 a) (y2 a) in
  inverse_viewport_transform a bsize vs vd =
    Ok (if (inv_end (src_x vs) (x2 a) <=? inv_end (src_x vs) (x1 a))
           || (inv_end (src_y vs) (y2 a) <=? inv_end (src_y vs) (y1 a))
        then None else Some (MkWl X.1 Y.1 (X.2 - X.1) (Y.2 - Y.1))).
Proof.
  intros Hs Hd HB1 HB2 Ha d X Y.
  destruct (viewport_extent_ok bsize vs vd Hs Hd HB1 HB2) as [Hd1 Hd2]. fold d in Hd1, Hd2.
  destruct (src_xy_ok vs Hs) as [Hx Hy]. unfold rect_in in Ha. destruct Ha as (?&?&?&?).
  pose proof (inv1_in (src_x vs) bsize.1 d.1 (x1 a) (x2 a) Hx HB1 Hd1) as HX.
  pose proof (inv1_in (src_y vs) bsize.2 d.2 (y1 a) (y2 a) Hy HB2 Hd2) as HY.
  fold X in HX. fold Y in HY.
  unfold inverse_viewport_transform. rewrite assert_true by (unfold pos31 in *; lia). cbn [mbind res_bind].
  rewrite assert_true by lia. cbn [mbind res_bind].
  assert (Hdst : match vd with Some (dw, dh) => assert_ ((0 <? dw) && (0 <? dh)) | None => Ok tt end = Ok tt).
  { destruct vd as [[dw dh]|]; [|done]. cbn in Hd. apply assert_true. unfold pos31 in *. lia. }
  assert (Hfin : inv_end (src_x vs) (x1 a) < inv_end (src_x vs) (x2 a) ->
    inv_end (src_y vs) (y1 a) < inv_end (src_y vs) (y2 a) ->
    assert_ ((X.1 <? X.2) && (Y.1 <? Y.2)) = Ok tt /\
    assert_ ((X.2 <=? i32_max) && (Y.2 <=? i32_max)) = Ok tt).
  { intros ? ?. unfold pos31, i32_max in Hd1, Hd2.
    split; apply assert_true; unfold i32_max; lia. }
  unfold inv1 in X, Y.
  destruct vs as [[[[sx sy] sw] sh]|]; cbn [src_x src_y inv_end inv_len] in *.
  - destruct Hs as (?&?&?&?). unfold i31, pos31 in *.
    rewrite assert_true by lia. cbn [mbind res_bind]. rewrite !clampR_ok by (cbn; lia). cbn [mbind res_bind fst snd].
    set (ax := Z.max sx (Z.min (x1 a * 256) _)) in *. set (bx := Z.max sx (Z.min (x2 a * 256) _)) in *.
    set (ay := Z.max sy (Z.min (y1 a * 256) _)) in *. set (by_ := Z.max sy (Z.min (y2 a * 256) _)) in *.
    replace (bx - sx <=? ax - sx) with (bx <=? ax) by lia.
    replace (by_ - sy <=? ay - sy) with (by_ <=? ay) by lia.
    destruct ((bx <=? ax) || (by_ <=? ay)) eqn:E; [done|]. cbn [mbind res_bind].
    rewrite Hdst. cbn [mbind res_bind fst snd]. fold d.
    rewrite !udiv_ok, !udiv_ceil_ok by lia. cbn [mbind res_bind].
    destruct Hfin as [F1 F2]; [lia..|]. unfold X, Y in F1, F2 |- *. cbn [fst snd] in F1, F2 |- *. rewrite F1. cbn [mbind res_bind]. by rewrite F2.
  - cbn [mbind res_bind]. rewrite Hdst. cbn [mbind res_bind fst snd]. fold d. unfold pos31 in *.
    rewrite !udiv_ok, !udiv_ceil_ok by lia. cbn [mbind res_bind].
    destruct Hfin as [F1 F2]; [lia..|]. unfold X, Y in F1, F2 |- *. cbn [fst snd] in F1, F2 |- *.
    rewrite F1. cbn [mbind res_bind]. rewrite F2. cbn [mbind res_bind].
    assert (((x2 a * 256 <=? x1 a * 256) || (y2 a * 256 <=? y1 a * 256)) = false) as -> by lia. done.
Qed.

(** ** Clipping, and the buffer seen before the viewport *)
Definition pixel_in (r : Rect) (p : Z * Z) : Prop := x1 r <= p.1 < x2 r /\ y1 r <= p.2 < y2 r.
(** Pixel [p] lies in the damage [a] a client reported. *)
Definition wl_pixel (a : WlRect) (p : Z * Z) : Prop :=
  x a <= p.1 < x a + width a /\ y a <= p.2 < y a + height a.

Definition clip (a : WlRect) (w h : Z) : option Rect :=
  let r := MkRect (Z.max 0 (Z.min (x a) w)) (Z.max 0 (Z.min (sat_add_i32 (x a) (width a)) w))
             (Z.max 0 (Z.min (y a) h)) (Z.max 0 (Z.min (sat_add_i32 (y a) (height a)) h)) in
  if (x1 r <? x2 r) && (y1 r <? y2 r) then Some r else None.

Lemma clip_eq a w h : 0 <= w -> 0 <= h -> clip_wlrect_to_buffer a w h = Ok (clip a w h).
Proof.
  intros. unfold clip_wlrect_to_buffer. rewrite !clampR_ok by done. cbn [mbind res_bind].
  unfold clip. cbn [x1 x2 y1 y2]. by case_match.
Qed.
Lemma clip_in a w h r : clip a w h = Some r -> 0 <= w -> 0 <= h -> rect_in w h r.
Proof. unfold clip, rect_in. cbn. destruct (_ && _) eqn:E; [|done]. intros [= <-]. cbn. lia. Qed.
Lemma clip_pixel a w h p : pos31 w -> pos31 h -> wl_pixel a p -> 0 <= p.1 < w -> 0 <= p.2 < h ->
  exists r, clip a w h = Some r /\ pixel_in r p.
Proof.
  unfold pos31, wl_pixel, clip, pixel_in, sat_add_i32, i32_max, i32_min. intros. cbn.
  destruct (_ && _) eqn:E; [|lia]. eexists. split; [done|]. cbn. lia.
Qed.

Definition ends (t : WlOutputTransform) (w h : Z) : Z * Z := if (flips t).1.1 then (h, w) else (w, h).
Definition post_size (t : WlOutputTransform) (s w h : Z) : Z * Z :=
  (div_ceil (ends t w h).1 s, div_ceil (ends t w h).2 s).
(** The rectangle [r] of the buffer, in the surface-aligned buffer of pixels of size [s]. *)
Definition unplace (t : WlOutputTransform) (s w h : Z) (r : Rect) : Rect :=
  let '(swap, fx, fy) := flips t in
  let xs := flip fx (ends t w h).1 (if swap then y1 r else x1 r) (if swap then y2 r else x2 r) in
  let ys := flip fy (ends t w h).2 (if swap then x1 r else y1 r) (if swap then x2 r else y2 r) in
  MkRect (xs.1 / s) (div_ceil xs.2 s) (ys.1 / s) (div_ceil ys.2 s).
Definition to_pre (t : WlOutputTransform) (s w h : Z) (p : Z * Z) : Z * Z :=
  let '(swap, fx, fy) := flips t in
  let q := if swap then (p.2, p.1) else p in
  ((if fx then (ends t w h).1 - 1 - q.1 else q.1) / s, (if fy then (ends t w h).2 - 1 - q.2 else q.2) / s).

Lemma inverse_damage_eq a s t vs vd w h :
  0 < width a -> 0 < height a -> pos31 w -> pos31 h -> 0 < s ->
  inverse_damage_rect_transform a s t vs vd w h =
    match clip a w h with
    | None => Ok None
    | Some r => inverse_viewport_transform (unplace t s w h r) (post_size t s w h) vs vd
    end.
Proof.
  unfold pos31. intros Hwa Hha Hw Hh Hs. unfold inverse_damage_rect_transform.
  rewrite assert_true by lia. cbn [mbind res_bind]. rewrite assert_true by lia. cbn [mbind res_bind].
  rewrite reflections_eq. cbn [mbind res_bind]. unfold unplace, post_size, ends, clip.
  destruct (flips t) as [[swap fx] fy]. rewrite !clampR_ok by lia. cbn [mbind res_bind x1 x2 y1 y2].
  set (xl := Z.max 0 (Z.min (x a) w)). set (xh := Z.max 0 (Z.min (sat_add_i32 (x a) _) w)).
  set (yl := Z.max 0 (Z.min (y a) h)). set (yh := Z.max 0 (Z.min (sat_add_i32 (y a) _) h)).
  replace ((xl <? xh) && (yl <? yh)) with (negb ((xh <=? xl) || (yh <=? yl))) by lia.
  unfold i32_max in *.
  assert (Hb : 0 <= xl <= w /\ 0 <= xh <= w /\ 0 <= yl <= h /\ 0 <= yh <= h) by lia. clearbody xl xh yl yh.
  destruct (_ || _); [done|]. cbn [negb].
  destruct swap, fx, fy; cbn [fst snd flip mbind res_bind];
    rewrite ?(chk_in 32 (w - _)), ?(chk_in 32 (h - _)) by (unfold uN; lia); done.
Qed.

Lemma flip_pixel f e lo hi p : lo <= p < hi ->
  (flip f e lo hi).1 <= (if f then e - 1 - p else p) < (flip f e lo hi).2.
Proof. destruct f; cbn; lia. Qed.
Lemma flip_in f e lo hi : 0 <= lo < hi -> hi <= e ->
  0 <= (flip f e lo hi).1 < (flip f e lo hi).2 /\ (flip f e lo hi).2 <= e.
Proof. destruct f; cbn; lia. Qed.
Lemma div_pixel s lo hi p : 0 < s -> lo <= p < hi -> lo / s <= p / s < div_ceil hi s.
Proof.
  intros Hs Hp. split; [by apply Z.div_le_mono; lia|]. apply Z.le_succ_l, div_ceil_ge; [done|].
  pose proof (Z.mul_div_le p s Hs). lia.
Qed.
Lemma div_in s lo hi e : 0 < s -> 0 <= lo < hi -> hi <= e ->
  0 <= lo / s < div_ceil hi s /\ div_ceil hi s <= div_ceil e s.
Proof.
  intros Hs Hl He. pose proof (div_pixel s lo hi lo Hs). split; [split; [by apply Z.div_pos; lia|lia]|].
  apply div_ceil_le; [done|]. pose proof (proj1 (div_ceil_le e s (div_ceil e s) Hs)). lia.
Qed.

Lemma unplace_in t s w h r : 0 < s -> rect_in w h r ->
  rect_in (post_size t s w h).1 (post_size t s w h).2 (unplace t s w h r).
Proof.
  intros Hs (?&?&?&?). unfold unplace, post_size, ends, rect_in.
  destruct (flips t) as [[swap fx] fy]. cbn [fst snd x1 x2 y1 y2]. destruct swap; cbn [fst snd].
  - destruct (flip_in fx h (y1 r) (y2 r)), (flip_in fy w (x1 r) (x2 r)); try lia.
    pose proof (div_in s (flip fx h (y1 r) (y2 r)).1 (flip fx h (y1 r) (y2 r)).2 h Hs).
    pose proof (div_in s (flip fy w (x1 r) (x2 r)).1 (flip fy w (x1 r) (x2 r)).2 w Hs). lia.
  - destruct (flip_in fx w (x1 r) (x2 r)), (flip_in fy h (y1 r) (y2 r)); try lia.
    pose proof (div_in s (flip fx w (x1 r) (x2 r)).1 (flip fx w (x1 r) (x2 r)).2 w Hs).
    pose proof (div_in s (flip fy h (y1 r) (y2 r)).1 (flip fy h (y1 r) (y2 r)).2 h Hs). lia.
Qed.
Lemma unplace_pixel t s w h r p : 0 < s -> pixel_in r p ->
  pixel_in (unplace t s w h r) (to_pre t s w h p).
Proof.
  intros Hs [? ?]. unfold unplace, to_pre, pixel_in.
  destruct (flips t) as [[swap fx] fy]. cbn [fst snd x1 x2 y1 y2].
  split; apply div_pixel; try done; apply flip_pixel; by destruct swap.
Qed.
Lemma div_place s lo hi p : 0 < s -> lo <= p / s < hi -> lo * s <= p < hi * s.
Proof. intros Hs Hp. pose proof (Z.div_mod p s). pose proof (Z.mod_pos_bound p s Hs). nia. Qed.
Lemma place_pixel t s w h b p : 0 < s -> pixel_in b (to_pre t s w h p) ->
  pixel_in (place t s w h b) p.
Proof.
  intros Hs [Hx Hy]. unfold place, to_pre, pixel_in, ends in *.
  destruct (flips t) as [[swap fx] fy]. cbn [fst snd] in *.
  apply div_place in Hx; [|done]. apply div_place in Hy; [|done].
  destruct swap, fx, fy; cbn [fst snd flip x1 x2 y1 y2] in *; lia.
Qed.

(** ** Attachments *)
Definition to_buffer (att : BufferAttachment) (a : WlRect) : res (option Rect) :=
  apply_damage_rect_transform a (scale att) (transform att) (viewport_src att) (viewport_dst att)
    (buffer_size att).1 (buffer_size att).2.
Definition to_surface (att : BufferAttachment) (a : WlRect) : res (option WlRect) :=
  inverse_damage_rect_transform a (scale att) (transform att) (viewport_src att) (viewport_dst att)
    (buffer_size att).1 (buffer_size att).2.
(** The scale divides the buffer size, as the protocol requires. *)
Definition exact (att : BufferAttachment) : Prop :=
  (buffer_size att).1 mod scale att = 0 /\ (buffer_size att).2 mod scale att = 0.
Definition pre_pixel (att : BufferAttachment) : Z * Z -> Z * Z :=
  to_pre (transform att) (scale att) (buffer_size att).1 (buffer_size att).2.
(** The pixel of the buffer is shown by the surface. *)
Definition shown (att : BufferAttachment) (p : Z * Z) : Prop :=
  0 <= p.1 < (buffer_size att).1 /\ 0 <= p.2 < (buffer_size att).2 /\
  visible (src_x (viewport_src att)) (pre_pixel att p).1 /\
  visible (src_y (viewport_src att)) (pre_pixel att p).2.

Lemma post_size_pos t s w h : 0 < s -> pos31 w -> pos31 h ->
  pos31 (post_size t s w h).1 /\ pos31 (post_size t s w h).2.
Proof.
  unfold pos31. intros Hs Hw Hh.
  assert (Hp : forall e, 0 < e <= i32_max -> 0 < div_ceil e s <= i32_max).
  { intros e He. split; [apply Z.le_succ_l, div_ceil_ge; lia|apply div_ceil_le; [done|nia]]. }
  unfold post_size, ends. destruct ((flips t).1.1); cbn; auto.
Qed.

Lemma to_buffer_in att a : att_ok att -> 0 <= width a -> 0 <= height a ->
  exists o, to_buffer att a = Ok o /\
    forall r, o = Some r -> rect_in (buffer_size att).1 (buffer_size att).2 r.
Proof.
  intros [Hs [Hw Hh] [Hf1 Hf2] Hsrc Hdst] Hwa Hha. unfold to_buffer.
  destruct (apply_damage_eq a (scale att) (transform att) (viewport_src att) (viewport_dst att)
    (buffer_size att).1 (buffer_size att).2) as (o & _ & Hin & ->); [done..|].
  eexists. split; [done|]. intros r. destruct o as [b|]; [|done]. intros [= <-].
  specialize (Hin b eq_refl). set (w := (buffer_size att).1) in *. set (h := (buffer_size att).2) in *.
  set (s := scale att) in *. unfold place, pre_size, rect_in in *.
  pose proof (Z.mul_div_le w s Hs). pose proof (Z.mul_div_le h s Hs).
  destruct (flips (transform att)) as [[swap fx] fy]. destruct swap; cbn [fst snd] in Hin |- *.
  - assert (HX : 0 <= x1 b * s < x2 b * s /\ x2 b * s <= h) by nia.
    assert (HY : 0 <= y1 b * s < y2 b * s /\ y2 b * s <= w) by nia.
    destruct (flip_in fx h (x1 b * s) (x2 b * s)), (flip_in fy w (y1 b * s) (y2 b * s)); cbn; lia.
  - assert (HX : 0 <= x1 b * s < x2 b * s /\ x2 b * s <= w) by nia.
    assert (HY : 0 <= y1 b * s < y2 b * s /\ y2 b * s <= h) by nia.
    destruct (flip_in fx w (x1 b * s) (x2 b * s)), (flip_in fy h (y1 b * s) (y2 b * s)); cbn; lia.
Qed.

Lemma to_surface_ok att a : att_ok att -> wl_ok a ->
  exists o, to_surface att a = Ok o /\ forall s, o = Some s -> wl_ok s.
Proof.
  intros [Hs [Hw Hh] _ Hsrc Hdst] (_&_&[Hwa _]&[Hha _]). unfold to_surface.
  rewrite inverse_damage_eq by done. destruct (clip _ _ _) as [r|] eqn:Er; [|by eexists].
  apply clip_in in Er; [|unfold pos31 in *; lia..].
  destruct (post_size_pos (transform att) (scale att) (buffer_size att).1 (buffer_size att).2) as [HB1 HB2]; [done..|].
  pose proof (unplace_in (transform att) (scale att) _ _ r Hs Er) as Hin.
  eexists. split; [by apply inverse_viewport_eq|]. intros s.
  destruct (src_xy_ok _ Hsrc) as [Hx Hy].
  destruct (viewport_extent_ok _ _ _ Hsrc Hdst HB1 HB2) as [Hd1 Hd2].
  destruct (_ || _) eqn:E; [done|]. intros <-%(inj Some). destruct Hin as (?&?&?&?).
  apply orb_false_iff in E as [E1 E2]. apply Z.leb_gt in E1, E2.
  eapply (inv1_in _ _ _ _ _ Hx HB1 Hd1) in E1; [|lia..].
  eapply (inv1_in _ _ _ _ _ Hy HB2 Hd2) in E2; [|lia..].
  set (X := inv1 _ _ _ (x1 _) _) in *. set (Y := inv1 _ _ _ (y1 _) _) in *. clearbody X Y.
  unfold wl_ok, iN, pos31, i32_max in *. cbn [x y width height]. lia.
Qed.

Lemma pre_post_size t s w h : 0 < s -> w mod s = 0 -> h mod s = 0 ->
  pre_size t s w h = post_size t s w h.
Proof.
  intros Hs Hw Hh. assert (He : forall e, e mod s = 0 -> e / s = div_ceil e s).
  { intros e Ee. apply Z.le_antisymm.
    - apply div_ceil_ge; [done|]. pose proof (Z.div_mod e s). nia.
    - apply div_ceil_le; [done|]. pose proof (Z.div_mod e s). nia. }
  unfold pre_size, post_size, ends. destruct ((flips t).1.1); cbn; by rewrite !He.
Qed.

(** The viewport and its inverse keep every visible pixel. *)
Lemma viewport_pixel b B vs vd u :
  src_ok vs -> dst_ok vd -> pos31 B.1 -> pos31 B.2 -> rect_in B.1 B.2 b -> pixel_in b u ->
  visible (src_x vs) u.1 -> visible (src_y vs) u.2 ->
  exists s r, inverse_viewport_transform b B vs vd = Ok (Some s) /\ 0 <= width s /\ 0 <= height s /\
    apply_viewport_transform s B vs vd = Ok (Some r) /\ pixel_in r u.
Proof.
  intros Hsrc Hdst HB1 HB2 Hin [Hux Huy] Hv1 Hv2. rewrite inverse_viewport_eq by done.
  set (d := viewport_extent B vs vd).
  destruct (viewport_extent_ok _ _ _ Hsrc Hdst HB1 HB2) as [Hd1 Hd2]. fold d in Hd1, Hd2.
  destruct (src_xy_ok _ Hsrc) as [Hx Hy]. destruct Hin as ([Hx0 _]&Hx1&[Hy0 _]&Hy1).
  assert (Ex : inv_end (src_x vs) (x1 b) < inv_end (src_x vs) (x2 b)).
  { apply (visible_end _ _ _ u.1); [done|lia..|done]. }
  assert (Ey : inv_end (src_y vs) (y1 b) < inv_end (src_y vs) (y2 b)).
  { apply (visible_end _ _ _ u.2); [done|lia..|done]. }
  rewrite (proj2 (orb_false_iff _ _)) by (split; apply Z.leb_gt; lia).
  pose proof (inv1_in (src_x vs) B.1 d.1 (x1 b) (x2 b) Hx HB1 Hd1) as IX.
  pose proof (inv1_in (src_y vs) B.2 d.2 (y1 b) (y2 b) Hy HB2 Hd2) as IY.
  pose proof (fwd_inv (src_x vs) B.1 d.1 (x1 b) (x2 b) u.1 Hx HB1 Hd1) as FX.
  pose proof (fwd_inv (src_y vs) B.2 d.2 (y1 b) (y2 b) u.2 Hy HB2 Hd2) as FY.
  cbv zeta in FX, FY. ospecialize* IX; [lia..|]. ospecialize* IY; [lia..|].
  ospecialize* FX; [lia..|done|]. ospecialize* FY; [lia..|done|].
  set (X := inv1 _ _ _ (x1 b) _) in *. set (Y := inv1 _ _ _ (y1 b) _) in *. clearbody X Y.
  set (s := MkWl X.1 Y.1 (X.2 - X.1) (Y.2 - Y.1)).
  exists s. eexists. split; [done|]. split; [cbn; lia|]. split; [cbn; lia|].
  rewrite apply_viewport_eq by (done || cbn; lia). cbv zeta. fold d.
  unfold pos31, i32_max in Hd1, Hd2.
  assert (Z.max 0 (Z.min (x s) d.1) = X.1 /\ Z.max 0 (Z.min (y s) d.2) = Y.1) as [-> ->] by (cbn; lia).
  assert (Z.max 0 (Z.min (sat_add_i32 (x s) (width s)) d.1) = X.2 /\
          Z.max 0 (Z.min (sat_add_i32 (y s) (height s)) d.2) = Y.2) as [-> ->]
    by (unfold sat_add_i32, i32_min, i32_max; cbn; lia).
  rewrite (proj2 (orb_false_iff _ _)) by (split; apply Z.leb_gt; lia).
  assert (match vs with Some _ => ((fwd (src_x vs) B.1 d.1 X.1 X.2).2 <=? (fwd (src_x vs) B.1 d.1 X.1 X.2).1)
            || ((fwd (src_y vs) B.2 d.2 Y.1 Y.2).2 <=? (fwd (src_y vs) B.2 d.2 Y.1 Y.2).1)
          | None => false end = false) as ->.
  { destruct vs; [|done]. apply orb_false_iff; split; apply Z.leb_gt; lia. }
  split; [done|]. split; cbn [x1 x2 y1 y2]; lia.
Qed.

(** Damage of a buffer, carried to the surface and back to a buffer with the same attachment. *)
Lemma damage_pixel att a p : att_ok att -> exact att -> wl_ok a -> wl_pixel a p -> shown att p ->
  exists s r, to_surface att a = Ok (Some s) /\ to_buffer att s = Ok (Some r) /\ pixel_in r p.
Proof.
  intros [Hs [Hw Hh] [Hf1 Hf2] Hsrc Hdst] [Ew Eh] (_&_&[Hwa _]&[Hha _]) Hp (Hp1 & Hp2 & Hv1 & Hv2).
  unfold to_surface, to_buffer, pre_pixel in *. rewrite inverse_damage_eq by done.
  destruct (clip_pixel a _ _ p Hw Hh Hp Hp1 Hp2) as (r & Er & Hpr). rewrite Er.
  apply clip_in in Er; [|unfold pos31 in *; lia..].
  destruct (post_size_pos (transform att) _ _ _ Hs Hw Hh) as [HB1 HB2].
  destruct (viewport_pixel (unplace (transform att) (scale att) (buffer_size att).1 (buffer_size att).2 r)
     _ _ (viewport_dst att) _ Hsrc Hdst HB1 HB2 (unplace_in _ _ _ _ _ Hs Er)
     (unplace_pixel _ _ _ _ _ _ Hs Hpr) Hv1 Hv2) as (s & r' & -> & ? & ? & Hr' & Hpx).
  destruct (apply_damage_eq s (scale att) (transform att) (viewport_src att) (viewport_dst att)
    (buffer_size att).1 (buffer_size att).2) as (o & Ho & _ & E); [done..|].
  rewrite pre_post_size, Hr' in Ho by done. injection Ho as <-.
  exists s. eexists. split; [done|]. split; [exact E|]. by apply place_pixel.
Qed.

(** *** Damage of the surface *)
(** Pixel [u] of a surface axis of length [d] shows some of pixel [v] of a buffer axis of length [B]: in units of
    [1 / (256 d)] of a buffer pixel, what the viewport shows at [u..u + 1] meets [v..v + 1]. *)
Definition meets (src : option (Z * Z)) (B d u v : Z) : Prop :=
  let off := match src with Some (sx, _) => sx | None => 0 end in
  0 <= u < d /\ 0 <= v < B /\ off * d + u * inv_len src B < 256 * (v + 1) * d /\
  256 * v * d < off * d + (u + 1) * inv_len src B.
(** Pixel [s] of the surface shows some of pixel [p] of the buffer. *)
Definition shows (att : BufferAttachment) (s p : Z * Z) : Prop :=
  let B := pre_size (transform att) (scale att) (buffer_size att).1 (buffer_size att).2 in
  let d := viewport_extent B (viewport_src att) (viewport_dst att) in
  meets (src_x (viewport_src att)) B.1 d.1 s.1 (pre_pixel att p).1 /\
  meets (src_y (viewport_src att)) B.2 d.2 s.2 (pre_pixel att p).2.

Lemma fwd_meets src B d ax bx u v : axis_ok src -> pos31 B -> pos31 d -> 0 <= ax <= u -> u < bx -> bx <= d ->
  meets src B d u v -> (fwd src B d ax bx).1 <= v < (fwd src B d ax bx).2.
Proof.
  unfold pos31, meets. intros Hs HB Hd Ha Hu Hb (_ & Hv & H1 & H2). destruct src as [[sx sw]|]; cbn in *; unfold i31, pos31 in *.
  - pose proof (Z.mul_div_le (ax * sw) d ltac:(lia)) as M1.
    assert (M2 : bx * sw <= d * div_ceil (bx * sw) d) by (pose proof (proj1 (div_ceil_le (bx * sw) d (div_ceil (bx * sw) d) ltac:(lia))); lia).
    split.
    + assert ((ax * sw / d + sx) / 256 < v + 1); [|lia]. apply Z.div_lt_upper_bound; [lia|]. nia.
    + assert (v + 1 <= div_ceil (div_ceil (bx * sw) d + sx) 256); [|lia]. apply div_ceil_ge; [lia|]. nia.
  - split.
    + assert (ax * B / d < v + 1); [|lia]. apply Z.div_lt_upper_bound; nia.
    + assert (v + 1 <= div_ceil (bx * B) d); [|lia]. apply div_ceil_ge; nia.
Qed.
Lemma pre_size_pos t s w h : 0 < s -> s <= w -> s <= h -> pos31 w -> pos31 h ->
  pos31 (pre_size t s w h).1 /\ pos31 (pre_size t s w h).2.
Proof.
  unfold pos31. intros Hs Hw Hh Hw' Hh'. assert (Hq : forall e, s <= e <= i32_max -> 0 < e / s <= i32_max).
  { intros e He. split; [apply Z.le_succ_l, Z.div_le_lower_bound; lia|apply Z.div_le_upper_bound; [done|nia]]. }
  unfold pre_size. destruct ((flips t).1.1); cbn; split; apply Hq; lia.
Qed.
Lemma sat_end a e d : iN 32 a -> 0 < e -> 0 <= d <= i32_max ->
  Z.max 0 (Z.min (sat_add_i32 a e) d) = Z.max 0 (Z.min (a + e) d).
Proof. unfold sat_add_i32, iN, i32_min, i32_max. intros. cbn. lia. Qed.
(** Damage of the surface, carried to the buffer. *)
Lemma surface_damage_pixel att a s p : att_ok att -> wl_ok a -> wl_pixel a s -> shows att s p ->
  exists r, to_buffer att a = Ok (Some r) /\ pixel_in r p.
Proof.
  intros [Hs [Hw Hh] [Hf1 Hf2] Hsrc Hdst] (Hax & Hay & [Hwa Hwb] & [Hha Hhb]) [Hpx Hpy] [Hm1 Hm2]. unfold to_buffer.
  destruct (apply_damage_eq a (scale att) (transform att) (viewport_src att) (viewport_dst att)
    (buffer_size att).1 (buffer_size att).2) as (o & Eo & _ & ->); [lia|lia|done..|].
  destruct (pre_size_pos (transform att) (scale att) _ _ Hs Hf1 Hf2 Hw Hh) as [HB1 HB2].
  unfold pre_pixel in Hm1, Hm2. set (B := pre_size _ _ _ _) in *. set (q := to_pre _ _ _ _ _) in *.
  rewrite apply_viewport_eq in Eo by (done || lia). cbv zeta in Eo.
  destruct (viewport_extent_ok _ _ _ Hsrc Hdst HB1 HB2) as [Hd1 Hd2]. set (d := viewport_extent _ _ _) in *.
  destruct (src_xy_ok _ Hsrc) as [Hx Hy]. pose proof Hm1 as (Hu1 & _). pose proof Hm2 as (Hu2 & _).
  rewrite !sat_end in Eo by (done || (unfold pos31 in *; lia)).
  set (ax := Z.max 0 (Z.min (x a) d.1)) in *. set (bx := Z.max 0 (Z.min (x a + width a) d.1)) in *.
  set (ay := Z.max 0 (Z.min (y a) d.2)) in *. set (by_ := Z.max 0 (Z.min (y a + height a) d.2)) in *.
  pose proof (fwd_meets (src_x (viewport_src att)) B.1 d.1 ax bx s.1 q.1 Hx HB1 Hd1) as FX.
  pose proof (fwd_meets (src_y (viewport_src att)) B.2 d.2 ay by_ s.2 q.2 Hy HB2 Hd2) as FY.
  ospecialize* FX; [lia..|done|]. ospecialize* FY; [lia..|done|].
  rewrite (proj2 (orb_false_iff _ _)) in Eo by (split; apply Z.leb_gt; lia).
  set (X := fwd _ _ _ ax bx) in *. set (Y := fwd _ _ _ ay by_) in *. clearbody X Y.
  assert (E : match viewport_src att with Some _ => (X.2 <=? X.1) || (Y.2 <=? Y.1) | None => false end = false)
    by (destruct (viewport_src att); [lia|done]).
  rewrite E in Eo. injection Eo as <-. eexists. split; [done|]. apply place_pixel; [done|]. split; done.
Qed.

(** ** Damage since a buffer was last committed *)
Lemma foldM_collect {A B} (f : list B -> A -> res (list B)) (Q : A -> list B -> Prop) l :
  (forall a acc, a ∈ l -> exists new, f acc a = Ok (acc ++ new) /\ Q a new) ->
  forall acc, exists news, foldM f acc l = Ok (acc ++ concat news) /\ Forall2 Q l news.
Proof.
  induction l as [|a l IH]; intros Hf acc.
  - exists []. cbn. by rewrite app_nil_r.
  - destruct (Hf a acc) as (new & E & HQ); [set_solver|].
    destruct (IH ltac:(set_solver) (acc ++ new)) as (news & E' & HQs).
    exists (new :: news). cbn. rewrite E. cbn. rewrite E'. cbn. rewrite app_assoc. by split; [|constructor].
Qed.

Lemma Forall2_concat {A B} (Q : A -> list B -> Prop) (P : B -> Prop) l news :
  Forall2 (fun a new => Forall P new /\ (length new <= 1)%nat /\ Q a new) l news ->
  Forall P (concat news) /\ (length (concat news) <= length l)%nat /\
  forall a, a ∈ l -> exists new, Q a new /\ forall r, r ∈ new -> r ∈ concat news.
Proof.
  induction 1 as [|a new l news (HP & Hl & HQ) _ (IHP & IHl & IHQ)]; cbn; [set_solver|].
  rewrite length_app. split; [by apply Forall_app|]. split; [lia|].
  intros a' [->|Ha']%elem_of_cons; [exists new; set_solver|].
  destruct (IHQ a' Ha') as (new' & ? & ?). exists new'. set_solver.
Qed.

Record batch_ok (b : DamageBatch) : Prop := {
  bo_damage : Forall wl_ok (damage b);
  bo_buffer : Forall wl_ok (damage_buffer b) }.
Record history_ok (hist : list DamageBatch) : Prop := {
  ho_batches : Forall batch_ok hist;
  (** a batch cleared by a commit without a buffer has no size, and no damage *)
  ho_committed : Forall (fun b => att_ok (attachment b) \/ damage_buffer b = []) (drop 1 hist) }.

Definition same_view (a b : BufferAttachment) : Prop :=
  scale a = scale b /\ transform a = transform b /\ viewport_src a = viewport_src b /\
  viewport_dst a = viewport_dst b /\ buffer_size a = buffer_size b.
(** Batch [n] is the last commit of the buffer of [att], and had the same attachment. *)
Definition held (hist : list DamageBatch) (att : BufferAttachment) (n : nat) : Prop :=
  (1 <= n)%nat /\ (exists b, hist !! n = Some b /\ attachment b = att) /\
  forall j b, (1 <= j < n)%nat -> hist !! j = Some b -> buffer_uid (attachment b) <> buffer_uid att.
(** Batch [b], committed [i] commits ago, reports that pixel [p] of the buffer changed: in the coordinates of the
    surface, or in those of the buffer itself or of another buffer shown the same way. *)
Definition reported (att : BufferAttachment) (i : nat) (b : DamageBatch) (p : Z * Z) : Prop :=
  (exists a s, a ∈ damage b /\ wl_pixel a s /\ shows att s p) \/
  (exists a, a ∈ damage_buffer b /\ wl_pixel a p /\
     (i = 0%nat \/ same_view (attachment b) att /\ exact att /\ shown att p)).
(** Pixel [p] of the buffer may differ from what was last transferred. *)
Definition stale (hist : list DamageBatch) (att : BufferAttachment) (p : Z * Z) : Prop :=
  (forall n, ~ held hist att n) \/
  exists n i b, held hist att n /\ (i < n)%nat /\ hist !! i = Some b /\ reported att i b p.

Section Rects.
Context (att : BufferAttachment) (Hatt : att_ok att).
Let w := (buffer_size att).1.
Let h := (buffer_size att).2.
Definition in_buffer (p : Z * Z) : Prop := 0 <= p.1 < w /\ 0 <= p.2 < h.

Lemma surface_rect_ok rects a : wl_ok a ->
  exists new, surface_rect att rects a = Ok (rects ++ new) /\ Forall (rect_in w h) new /\
    (length new <= 1)%nat /\ (forall r, to_buffer att a = Ok (Some r) -> r ∈ new).
Proof using Hatt.
  intros (_&_&[? _]&[? _]). destruct (to_buffer_in att a Hatt) as (o & E & Hin); [lia..|].
  unfold surface_rect. fold (to_buffer att a). rewrite E. exists (option_list o).
  split; [destruct o; cbn; by rewrite ?app_nil_r|]. split; [destruct o; cbn; [apply Forall_singleton; by apply Hin|constructor]|].
  split; [destruct o; cbn; lia|]. intros r [= ->]. set_solver.
Qed.

Lemma buffer_rect_ok first batt rects a : wl_ok a -> (first = false -> att_ok batt) ->
  exists new, buffer_rect first att batt rects a = Ok (rects ++ new) /\ Forall (rect_in w h) new /\
    (length new <= 1)%nat /\ forall p, wl_pixel a p -> in_buffer p ->
      first = true \/ same_view batt att /\ exact att /\ shown att p ->
      exists r, r ∈ new /\ pixel_in r p.
Proof using Hatt.
  intros Ha Hb. pose proof Hatt as [Hs [Hw Hh] _ _ _]. fold w in Hw. fold h in Hh. destruct first; cbn.
  - fold w h. rewrite clip_eq by (unfold pos31 in *; lia). exists (option_list (clip a w h)).
    split; [destruct (clip a w h); cbn; by rewrite ?app_nil_r|]. split.
    + destruct (clip a w h) eqn:E; cbn; [|constructor]. apply Forall_singleton.
      apply clip_in in E; [done|unfold pos31 in *; lia..].
    + split; [destruct (clip a w h); cbn; lia|]. intros p Hp [H1 H2] _. destruct (clip_pixel a w h p Hw Hh Hp H1 H2) as (r & -> & Hr). exists r. set_solver.
  - specialize (Hb eq_refl). fold (to_surface batt a).
    destruct (to_surface_ok batt a Hb Ha) as (o & E & Ho). rewrite E. cbn.
    destruct o as [s|]; cbn.
    + destruct (surface_rect_ok rects s) as (new & -> & Hin & Hl & Hr); [by apply Ho|]. exists new.
      split; [done|]. split; [done|]. split; [done|]. intros p Hp _ [?|(Hsv & He & Hsh)]; [done|].
      destruct (damage_pixel att a p Hatt He Ha Hp Hsh) as (s' & r & E1 & E2 & Hpr).
      assert (to_surface batt a = to_surface att a) as Eq
        by (destruct Hsv as (?&?&?&?&?); unfold to_surface; congruence).
      rewrite Eq, E1 in E. injection E as ->. eauto.
    + exists []. rewrite app_nil_r. split; [done|]. split; [done|]. split; [cbn; lia|]. intros p Hp _ [?|(Hsv & He & Hsh)]; [done|].
      destruct (damage_pixel att a p Hatt He Ha Hp Hsh) as (s' & r & E1 & E2 & Hpr).
      assert (to_surface batt a = to_surface att a) as Eq
        by (destruct Hsv as (?&?&?&?&?); unfold to_surface; congruence). congruence.
Qed.

(** One batch of the history. *)
Lemma batch_rects_ok i b rects : batch_ok b ->
  (i <> 0%nat -> att_ok (attachment b) \/ damage_buffer b = []) ->
  exists new, batch_rects att rects (i, b) = Ok (rects ++ new) /\ Forall (rect_in w h) new /\
    (length new <= length (damage b) + length (damage_buffer b))%nat /\
    forall p, in_buffer p -> reported att i b p -> exists r, r ∈ new /\ pixel_in r p.
Proof using Hatt.
  intros [Hd Hb] Hi. unfold batch_rects. rewrite Forall_forall in Hd, Hb.
  destruct (foldM_collect (buffer_rect (i =? 0)%nat att (attachment b)) (fun a new =>
    Forall (rect_in w h) new /\ (length new <= 1)%nat /\ forall p, wl_pixel a p -> in_buffer p ->
      (i =? 0)%nat = true \/ same_view (attachment b) att /\ exact att /\ shown att p ->
      exists r, r ∈ new /\ pixel_in r p) (damage_buffer b)) with (acc := rects) as (n1 & -> & H1).
  { intros a acc Ha. apply buffer_rect_ok; [by apply Hb|]. intros ?%Nat.eqb_neq.
    destruct Hi as [?|E]; [done|done|]. rewrite E in Ha. set_solver. }
  cbn [mbind res_bind].
  destruct (foldM_collect (surface_rect att) (fun a new => Forall (rect_in w h) new /\
    (length new <= 1)%nat /\ forall r, to_buffer att a = Ok (Some r) -> r ∈ new) (damage b)) with (acc := rects ++ concat n1) as (n2 & -> & H2).
  { intros a acc Ha. by apply surface_rect_ok, Hd. }
  apply Forall2_concat in H1 as (P1 & L1 & C1), H2 as (P2 & L2 & C2).
  exists (concat n1 ++ concat n2). rewrite app_assoc, length_app. split; [done|].
  split; [by apply Forall_app|]. split; [lia|].
  intros p Hin [(a & q & Ha & Hq & Hs)|(a & Ha & Hp & Hc)].
  - destruct (C2 a Ha) as (new & HQ & Hnew). destruct (surface_damage_pixel att a q p Hatt (Hd a Ha) Hq Hs) as (r & Er & Hpr).
    exists r. split; [|done]. apply elem_of_app. right. by apply Hnew, HQ.
  - destruct (C1 a Ha) as (new & HQ & Hnew).
    destruct (HQ p Hp Hin) as (r & Hr & Hpr); [by rewrite Nat.eqb_eq|]. exists r. set_solver.
Qed.
End Rects.

Lemma index_lookup {A} (l : list A) n a : l !! n = Some a -> index l (Z.of_nat n) = Ok a.
Proof. intros H. unfold index. rewrite (proj2 (Z.leb_le _ _)) by lia. by rewrite Nat2Z.id, H. Qed.

Lemma position_spec {A} (p : A -> bool) l n : position p l = Some n <->
  (exists a, l !! n = Some a /\ p a = true) /\ forall j a, (j < n)%nat -> l !! j = Some a -> p a = false.
Proof.
  revert n. induction l as [|a l IH]; intros n; cbn.
  { split; [done|]. intros [(? & ? & _) _]. by destruct n. }
  destruct (p a) eqn:E.
  - split.
    + intros [= <-]. split; [by exists a|]. lia.
    + intros [_ H2]. destruct n; [done|]. specialize (H2 0%nat a ltac:(lia) eq_refl). congruence.
  - rewrite fmap_Some. setoid_rewrite IH. split.
    + intros (m & [H1 H2] & ->). split; [done|]. intros [|j] b Hj Hb; [cbn in Hb; congruence|].
      apply (H2 j); [lia|done].
    + intros [(b & Hb & Hpb) H2]. destruct n; [cbn in Hb; congruence|]. exists n. split; [|done].
      split; [by exists b|]. intros j c Hj Hc. by apply (H2 (S j)); [lia|].
Qed.

Lemma held_position hist att n : held hist att n <->
  exists m b, n = S m /\ hist !! n = Some b /\ attachment b = att /\
    position (fun b => buffer_uid (attachment b) =? buffer_uid att) (drop 1 hist) = Some m.
Proof.
  setoid_rewrite position_spec. split.
  - intros (Hn & (b & Hb & Ea) & Hj). destruct n as [|m]; [lia|]. exists m, b. split_and!; try done.
    + exists b. rewrite lookup_drop. split; [done|]. rewrite Ea. lia.
    + intros j c Hlt Hc. rewrite lookup_drop in Hc. apply Z.eqb_neq. by apply (Hj (S j)); [lia|].
  - intros (m & b & -> & Hb & Ea & _ & Hj). split; [lia|]. split; [eauto|]. intros j c Hlt Hc.
    apply Z.eqb_neq. destruct j as [|j]; [lia|]. apply (Hj j); [lia|]. by rewrite lookup_drop.
Qed.

Definition rect_count (hist : list DamageBatch) : nat :=
  sum_list_with (fun b => length (damage b) + length (damage_buffer b))%nat hist.

(** Batches [k..] of the history. *)
Lemma batches_ok att : att_ok att -> forall hist k rects,
  Forall batch_ok hist -> (forall i b, hist !! i = Some b -> (k + i)%nat <> 0%nat -> att_ok (attachment b) \/ damage_buffer b = []) ->
  exists new, foldM (batch_rects att) rects (zip (seq k (length hist)) hist) = Ok (rects ++ new) /\
    Forall (rect_in (buffer_size att).1 (buffer_size att).2) new /\ (length new <= rect_count hist)%nat /\
    forall p i b, hist !! i = Some b -> in_buffer att p -> reported att (k + i) b p -> exists r, r ∈ new /\ pixel_in r p.
Proof.
  intros Hatt. induction hist as [|b hist IH]; intros k rects Hb Hc.
  { exists []. cbn. rewrite app_nil_r. split_and!; try done; lia. }
  apply Forall_cons in Hb as [Hb0 Hb].
  destruct (batch_rects_ok att Hatt k b rects Hb0) as (n1 & E1 & P1 & L1 & C1).
  { intros Hk. apply (Hc 0%nat b); [done|lia]. }
  destruct (IH (S k) (rects ++ n1) Hb) as (n2 & E2 & P2 & L2 & C2).
  { intros i c Hi _. apply (Hc (S i) c); [done|lia]. }
  exists (n1 ++ n2). cbn [length seq zip foldM]. cbn [zip_with foldM]. rewrite E1. cbn [mbind res_bind].
  rewrite E2, app_assoc. split; [done|]. split; [by apply Forall_app|].
  split; [rewrite length_app; unfold rect_count in *; cbn; lia|].
  intros p [|i] c Hi Hin Hs.
  - injection Hi as ->. rewrite Nat.add_0_r in Hs. destruct (C1 p Hin Hs) as (r & ? & ?). exists r. set_solver.
  - rewrite <- Nat.add_succ_comm in Hs. destruct (C2 p i c Hi Hin Hs) as (r & ? & ?). exists r. set_solver.
Qed.

Lemma get_damage_rects_ok hist att : att_ok att -> history_ok hist ->
  exists rects, get_damage_rects hist att = Ok rects /\
    Forall (rect_in (buffer_size att).1 (buffer_size att).2) rects /\
    (length rects <= 1 + rect_count hist)%nat /\
    forall p, in_buffer att p -> stale hist att p -> exists r, r ∈ rects /\ pixel_in r p.
Proof.
  intros Hatt [Hb Hc]. pose proof Hatt as [_ [Hw Hh] _ _ _]. unfold get_damage_rects.
  rewrite (surjective_pairing (buffer_size att)). rewrite assert_true by (unfold pos31 in *; lia).
  cbn [mbind res_bind].
  set (full := MkRect 0 (buffer_size att).1 0 (buffer_size att).2).
  assert (Hfull : exists rects, Ok [full] = Ok rects /\
    Forall (rect_in (buffer_size att).1 (buffer_size att).2) rects /\
    (length rects <= 1 + rect_count hist)%nat /\
    forall p, in_buffer att p -> stale hist att p -> exists r, r ∈ rects /\ pixel_in r p).
  { exists [full]. split; [done|]. split; [apply Forall_singleton; unfold rect_in, pos31 in *; cbn; lia|].
    split; [cbn; lia|]. intros p Hp _. exists full. split; [set_solver|done]. }
  destruct (position _ _) as [m|] eqn:Em; [|done].
  pose proof Em as [(b & Hb1 & _) _]%position_spec. rewrite lookup_drop in Hb1. cbn [Nat.add] in Hb1.
  rewrite (index_lookup hist _ b) by done. cbn [mbind res_bind].
  destruct (decide (attachment b = att)) as [Ea|Ea]; [|done]. clear Hfull.
  assert (Hh' : held hist att (S m)) by (apply held_position; eauto 10).
  pose proof (lookup_lt_Some _ _ _ Hb1) as Hlt.
  assert (El : length (take (S m) hist) = S m) by (rewrite length_take; lia).
  destruct (batches_ok att Hatt (take (S m) hist) 0 []) as (new & E & P & L & C).
  { by apply Forall_take. }
  { intros i c [Hi ?]%lookup_take_Some Hne. rewrite Forall_forall in Hc. apply Hc.
    apply list_elem_of_lookup. exists (pred i). rewrite lookup_drop. by replace (1 + pred i)%nat with i by lia. }
  rewrite El in E. exists new. split; [exact E|]. split; [done|]. split.
  { etrans; [exact L|]. unfold rect_count. rewrite <- (take_drop (S m) hist) at 2.
    rewrite sum_list_with_app. lia. }
  intros p Hp [Hno|(n & i & c & Hn & Hi & Hc' & Hs)]; [by destruct (Hno (S m))|].
  apply held_position in Hn as (m' & ? & -> & _ & _ & Em').
  assert (m' = m) as -> by congruence.
  apply (C p i c); try done. by rewrite lookup_take_lt by lia.
Qed.

(** ** Bytes of the pool *)
Record shm_ok (b : ObjWlBufferShm) : Prop := {
  so_offset : i31 (b_offset b); so_stride : i31 (b_stride b);
  so_width : pos31 (b_width b); so_height : pos31 (b_height b) }.

Definition plane_bytes (b : ObjWlBufferShm) (p0 plane : PlaneLayout) : Z :=
  div_ceil (b_height b) (vsub plane) *
  div_ceil (b_stride b * hsub p0 * bpt plane) (bpt p0 * hsub plane).
Definition all_bytes (b : ObjWlBufferShm) (p0 : PlaneLayout) (l : FormatLayout) : Z :=
  foldr (fun p n => plane_bytes b p0 p + n) 0 l.

Lemma plane_ok_bounds p : plane_ok p = true ->
  0 < bpt p <= 8 /\ 0 < hsub p <= 8 /\ 0 < vsub p <= 4.
Proof. unfold plane_ok. lia. Qed.

Lemma planes_fold b p0 l : shm_ok b -> plane_ok p0 = true -> forallb plane_ok l = true ->
  forall e m, 0 <= m -> exists o,
    foldM (plane_step b p0 (b_stride b * hsub p0)) (Some (e, m)) l = Ok o /\
    forall e' m', o = Some (e', m') -> e' = e + all_bytes b p0 l /\ m <= m' /\ (l <> [] -> 0 < m').
Proof.
  intros [_ _ Hw _] Hp0 Hl e m. revert e m. apply plane_ok_bounds in Hp0. unfold pos31 in Hw.
  induction l as [|p l IH]; intros e m Hm; cbn [foldM all_bytes foldr].
  { eexists. split; [done|]. intros e' m' [= <- <-]. split_and!; [lia|lia|done]. }
  cbn in Hl. apply andb_true_iff in Hl as [Hp Hl]. apply plane_ok_bounds in Hp. specialize (IH Hl).
  assert (HN : exists o, foldM (plane_step b p0 (b_stride b * hsub p0)) None l = Ok o /\
    forall e' m', o = Some (e', m') -> e' = e + (plane_bytes b p0 p + foldr (fun q n => plane_bytes b p0 q + n) 0 l)
      /\ m <= m' /\ (p :: l <> [] -> 0 < m')).
  { exists None. split; [|done]. clear. by induction l. }
  unfold plane_step at 2. destruct (checked 64 _) as [es|] eqn:E1; [|exact HN].
  rewrite (checked_in 32) by (unfold uN; nia). cbn [unwrap mbind res_bind option_bind].
  destruct (checked 64 (b_width b * bpt p)) as [row|] eqn:E2; [|exact HN]. cbn [option_bind mbind].
  destruct (checked 64 (div_ceil (b_height b) _ * _)) as [sz|] eqn:E3; [|exact HN]. cbn [option_bind mbind].
  destruct (checked 64 (e + sz)) as [e1|] eqn:E4; [|exact HN]. cbn [option_bind mbind].
  apply checked_Some in E1 as [-> _], E2 as [-> _], E3 as [-> _], E4 as [-> _].
  assert (0 < div_ceil (b_width b * bpt p) (hsub p)) by (apply Z.le_succ_l, div_ceil_ge; nia).
  destruct (IH (e + plane_bytes b p0 p) (Z.max m (div_ceil (b_width b * bpt p) (hsub p)))) as (o & E & Ho); [lia|].
  exists o. split; [exact E|]. intros e' m' Eo. destruct (Ho e' m' Eo) as (-> & ? & _).
  unfold all_bytes. split_and!; [lia|lia|lia].
Qed.

(** The interval marked for formats whose pixels are not tracked. *)
Lemma entire_buffer_ok b : shm_ok b -> exists s e, damage_for_entire_buffer b = Ok (s, e) /\
  s mod 64 = 0 /\ e mod 64 = 0 /\ 0 <= s <= b_offset b /\ s < e <= 2 ^ 64 - 64 /\
  forall p0 l, get_shm_format_layout (b_format b) = Some (p0 :: l) ->
    b_offset b + all_bytes b p0 (p0 :: l) <= e \/ e = 2 ^ 64 - 64.
Proof.
  intros Hb. pose proof Hb as [Ho Hst Hw Hh]. unfold i31, pos31, i32_max in *.
  unfold damage_for_entire_buffer. change (64 * (usize_max / 64)) with (2 ^ 64 - 64).
  assert (Hs : (64 * (b_offset b / 64)) mod 64 = 0) by (rewrite Z.mul_comm; apply Z.mod_mul; lia).
  pose proof (Z.mul_div_le (b_offset b) 64 ltac:(lia)) as Hs1. pose proof (Z.div_pos (b_offset b) 64) as Hs2.
  assert (Hmax : forall P : Prop, P -> exists s e, Ok (64 * (wrap 64 (b_offset b) / 64), 2 ^ 64 - 64) = Ok (s, e) /\
    s mod 64 = 0 /\ e mod 64 = 0 /\ 0 <= s <= b_offset b /\ s < e <= 2 ^ 64 - 64 /\
    (forall p0 l, get_shm_format_layout (b_format b) = Some (p0 :: l) ->
      b_offset b + all_bytes b p0 (p0 :: l) <= e \/ e = 2 ^ 64 - 64)).
  { intros _ _. unfold wrap. rewrite Z.mod_small by lia. eexists _, _. split_and!; try done; try lia. }
  destruct (get_shm_format_layout (b_format b)) as [l|] eqn:El; [|by apply (Hmax True)].
  destruct l as [|p0 l]; [by apply shm_layout_ok in El|].
  pose proof (shm_layout_ok _ _ El) as Hl. unfold layout_ok in Hl. apply andb_true_iff in Hl as [_ Hl].
  pose proof Hl as Hp0. cbn in Hp0. apply andb_true_iff in Hp0 as [Hp0 _].
  unfold extent_for_linear_buffer. rewrite checked_in by (unfold uN; lia). cbn [unwrap mbind res_bind].
  rewrite assert_true by lia. cbn [mbind res_bind]. change (index (p0 :: l) 0) with (Ok p0). cbn [mbind res_bind].
  rewrite checked_in by (apply plane_ok_bounds in Hp0; unfold uN; nia).
  destruct (planes_fold b p0 (p0 :: l) Hb Hp0 Hl (b_offset b) 0) as (o & -> & Ho'); [lia|]. cbn [mbind res_bind].
  destruct o as [[e m]|]; [|by apply (Hmax True)]. destruct (Ho' e m eq_refl) as (He & _ & Hm).
  specialize (Hm ltac:(done)). destruct (checked 64 (b_offset b + m)) as [e2|] eqn:E2; cbn [mbind option_bind res_bind];
    [|by apply (Hmax True)].
  apply checked_Some in E2 as [-> _].
  set (z := Z.min (Z.max e (b_offset b + m)) (2 ^ 64 - 64)).
  assert (Hz : b_offset b < z) by lia.
  rewrite align_ok by lia. cbn [mbind res_bind].
  assert (z <= 64 * div_ceil z 64).
  { pose proof (proj1 (div_ceil_le z 64 (div_ceil z 64) ltac:(lia))). lia. }
  assert (div_ceil z 64 <= 2 ^ 58 - 1) by (apply div_ceil_le; lia).
  eexists _, _. split; [done|]. split_and!; try lia.
  - rewrite Z.mul_comm. apply Z.mod_mul. lia.
  - intros q0 l' [= <- <-]. lia.
Qed.

(** Formats whose pixels are tracked individually: one plane, no subsampling, texels of one pixel. *)
Definition tracked (format : Z) : option Z :=
  match get_shm_format_layout format with
  | Some [p0] => if (hsub p0 =? 1) && (vsub p0 =? 1) && (htex p0 =? 1) && (vtex p0 =? 1)
                 then Some (bpt p0) else None
  | _ => None
  end.
Definition segs_ok (l : list interval) : Prop :=
  well_formed 6 128 l /\ Forall (fun x => uN 64 x.1 /\ uN 64 x.2) l.
(** The byte position of pixel [p]. *)
Definition pixel_pos (b : ObjWlBufferShm) (bpp : Z) (p : Z * Z) : Z :=
  pos (b_offset b) (b_stride b) bpp p.2 p.1.

Lemma get_damage_for_shm_ok `{SortUnstable} b hist att :
  shm_ok b -> att_ok att -> history_ok hist -> buffer_size att = (b_width b, b_height b) ->
  Z.of_nat (rect_count hist) < 2 ^ 58 ->
  exists segs, get_damage_for_shm b hist att = Ok segs /\ segs_ok segs /\
    (forall bpp p, tracked (b_format b) = Some bpp -> in_buffer att p -> stale hist att p ->
       covers segs (pixel_pos b bpp p) (pixel_pos b bpp p + bpp)).
Proof.
  intros Hb Ha Hh Es Hn. unfold get_damage_for_shm, tracked.
  assert (Hent : exists segs, (d ← damage_for_entire_buffer b; Ok [d]) = Ok segs /\ segs_ok segs /\
    forall bpp p, None = Some bpp -> in_buffer att p -> stale hist att p ->
       covers segs (pixel_pos b bpp p) (pixel_pos b bpp p + bpp)).
  { destruct (entire_buffer_ok b Hb) as (s & e & -> & Ms & Me & ? & ? & _). exists [(s, e)]. split; [done|].
    split; [|done]. split; [split|]; [apply Forall_singleton| |apply Forall_singleton].
    - split; [cbn; lia|by split].
    - repeat constructor.
    - unfold uN; cbn; lia. }
  destruct (get_shm_format_layout (b_format b)) as [[|p0 [|p1 l]]|] eqn:El; [exact Hent| |exact Hent|exact Hent].
  destruct (_ && _) eqn:Et; [|exact Hent]. clear Hent Et.
  apply shm_layout_ok in El. unfold layout_ok in El. cbn in El. rewrite andb_true_r in El.
  apply plane_ok_bounds in El as ([Hbpp Hbpp8] & _). destruct Hb as [Ho Hst Hw Hhe].
  destruct (get_damage_rects_ok hist att Ha Hh) as (rects & -> & Hin & Hl & Hc).
  rewrite Es in Hin. cbn [fst snd] in Hin. unfold i31, pos31, i32_max in *.
  cbn [mbind res_bind]. rewrite !checked_in by (unfold uN; lia). cbn [unwrap mbind res_bind].
  destruct (compute_damaged_segments_ok 6 128 (b_offset b) (b_stride b) (bpt p0) rects) as (segs & -> & Hwf & Hr & Hcov);
    [lia..| |unfold zlen; lia|].
  { eapply Forall_impl; [exact Hin|]. intros r (?&?&?&?). unfold rect_ok, pos. split_and!; try lia. nia. }
  exists segs. split; [done|]. split.
  { split; [done|]. apply Forall_forall. intros x Hx. rewrite Forall_forall in Hr. specialize (Hr x Hx).
    destruct Hwf as [Hf _]. rewrite Forall_forall in Hf. destruct (Hf x Hx) as [? _]. unfold uN. lia. }
  intros bpp p [= <-] Hp Hs. destruct (Hc p Hp Hs) as (r & Hr' & [Hpx Hpy]).
  destruct (Hcov r p.2 Hr' Hpy) as (z & Hz & H1 & H2). exists z. unfold pixel_pos, pos in *. split; [done|]. nia.
Qed.

Definition pool_ok (d : Tasks.Damage) : Prop :=
  match d with Everything => True | Intervals l => segs_ok l end.
Definition marked (d : Tasks.Damage) (p q : Z) : Prop :=
  match d with Everything => True | Intervals l => covers l p q end.

Lemma union_segs a b : segs_ok a -> segs_ok b ->
  exists u, union_damage a b 128 = Ok u /\ segs_ok u /\ forall p q, p < q ->
    covers a p q \/ covers b p q -> covers u p q.
Proof.
  intros [Ha Ra] [Hb Rb]. destruct (union_damage_ok a b 6 128) as (u & -> & Hwf & Hc & Ht); [lia|lia|done|done| |].
  { apply Forall_app. split; eapply Forall_impl; [exact Ra| |exact Rb|]; by intros ? []. }
  assert (Rab : Forall (fun x => uN 64 x.1 /\ uN 64 x.2) (a ++ b)) by (by apply Forall_app).
  rewrite Forall_forall in Rab. exists u. split; [done|]. split; [split; [done|]|].
  - apply Forall_forall. intros z Hz. destruct (Ht z Hz) as [_ [(x & Hx & ->) (y & Hy & ->)]].
    split; by apply Rab.
  - intros p q Hpq Hcov. assert (exists x, x ∈ a ++ b /\ x.1 <= p /\ q <= x.2) as (x & Hx & ? & ?).
    { destruct Hcov as [(x & ? & ?)|(x & ? & ?)]; exists x; set_solver. }
    destruct (Hc x Hx) as (z & ? & ? & ?). exists z. split; [done|lia].
Qed.

(** ** Commits *)
Lemma rotate_ok hist current : history_ok hist -> att_ok current -> history_ok (rotate_history hist current).
Proof.
  intros [Hb Hc] Ha. destruct hist as [|pending rest]; [done|]. cbn in *.
  apply Forall_cons in Hb as [[Hd Hdb] Hb]. constructor; cbn.
  - constructor; [by constructor|]. constructor; [by constructor|by apply Forall_take].
  - constructor; [by left|by apply Forall_take].
Qed.

(** The attachment a commit of buffer [unique_id] gives the pending state. *)
Definition commit_attachment (b : ObjWlBufferShm) (unique_id : Z) (pending : DamageBatch) : BufferAttachment :=
  let a := attachment pending in
  MkAtt (scale a) (transform a) (viewport_src a) (viewport_dst a) unique_id (b_width b, b_height b).


Definition demo_att : BufferAttachment := MkAtt 1 Normal None None 7 (4, 4).
Definition demo_shm : ObjWlBufferShm := MkShm 4 4 0 0 16.
Definition demo_batch : DamageBatch := MkBatch demo_att [MkWl 3 3 1 1] [MkWl 0 0 2 2].
Lemma demo_att_ok : att_ok demo_att.
Proof. split; unfold pos31, i32_max; cbn; try done; lia. Qed.

(** C27: for a valid attachment whose scale divides the buffer size, the two coordinate changes lose
    no damage: a rectangle of buffer damage is carried to the surface without panicking, and every
    damaged pixel of the buffer that the viewport shows is in the rectangle carried back, for all
    eight transforms, any scale and any viewport. *)
Theorem damage_roundtrip att a p :
  att_ok att -> exact att -> wl_ok a -> wl_pixel a p -> shown att p ->
  exists s r,
    inverse_damage_rect_transform a (scale att) (transform att) (viewport_src att) (viewport_dst att)
      (buffer_size att).1 (buffer_size att).2 = Ok (Some s) /\
    apply_damage_rect_transform s (scale att) (transform att) (viewport_src att) (viewport_dst att)
      (buffer_size att).1 (buffer_size att).2 = Ok (Some r) /\
    rect_in (buffer_size att).1 (buffer_size att).2 r /\ pixel_in r p.
Proof.
  intros Hok He Ha Hp Hs. destruct (damage_pixel att a p Hok He Ha Hp Hs) as (s & r & E1 & E2 & Hpr).
  exists s, r. split_and!; [done|done| |done].
  destruct (to_surface_ok att a Hok Ha) as (o & E & Ho). rewrite E1 in E. injection E as <-.
  destruct (Ho s eq_refl) as (_&_&[? _]&[? _]).
  destruct (to_buffer_in att s Hok) as (o & E & Hin); [lia..|]. rewrite E2 in E. injection E as <-. by apply Hin.
Qed.
Lemma damage_roundtrip_witness :
  let att := MkAtt 2 Flipped90 (Some (128, 0, 1000, 700)) (Some (13, 11)) 5 (12, 8) in
  let a := MkWl 3 2 5 100 in
  exists s r,
    inverse_damage_rect_transform a 2 Flipped90 (Some (128, 0, 1000, 700)) (Some (13, 11)) 12 8 = Ok (Some s) /\
    apply_damage_rect_transform s 2 Flipped90 (Some (128, 0, 1000, 700)) (Some (13, 11)) 12 8 = Ok (Some r) /\
    rect_in 12 8 r /\ pixel_in r (4, 5).
Proof.
  intros att a. apply (damage_roundtrip att a (4, 5)).
  - split; unfold src_ok, dst_ok, i31, pos31, i32_max; cbn; lia.
  - split; reflexivity.
  - unfold wl_ok, iN, pos31, i32_max; cbn; lia.
  - unfold wl_pixel; cbn; lia.
  - repeat split; vm_compute; (reflexivity || discriminate).
Defined.

(** ** Inputs outside the theorems *)

(** A buffer smaller than the buffer scale, committed twice on a surface with a viewport
    destination: the size before the viewport is zero, the damage becomes an empty rectangle, and
    [compute_damaged_segments] asserts that there is none. The mismatch is only logged. *)
Lemma small_buffer_panics :
  let att := MkAtt 4 Normal None (Some (10, 10)) 7 (3, 3) in
  commit_shm (MkShm 3 3 0 0 12) 7 [MkBatch att [MkWl 0 0 5 5] []; MkBatch att [] []] (Intervals [])
  = Panic.
Proof. vm_compute. reflexivity. Qed.

(** [P210] is documented as subsampled [2x1], but has the layout of [P010]: the interval marked
    for a 64 by 64 buffer ends after half of the second plane. *)
Lemma p210_extent_short :
  damage_for_entire_buffer (MkShm 64 64 (format_code P210) 0 128) = Ok (0, 128 * 64 + 32 * 128).
Proof. vm_compute. reflexivity. Qed.
