(* ===== verification/Time.v ===== *)
(** * [src/tracking.rs]: timestamps of different clocks

    Timestamps cross the channel in [CLOCK_REALTIME]; each side converts them from or to the
    clock its Wayland peer uses, with a difference of the two clocks estimated by reading one
    clock before and after the other. [clock_gettime] is a parameter: [clock_gettime c i] is the
    value the [i]-th of the three calls gives for clock [c]. [tv_sec] and [tv_nsec] are [i64]. *)
From Stdlib Require Import ZArith Lia.
From S2P Require Import Prelude Util.
Local Open Scope Z_scope.
Import Util.Arith.

Definition giga : Z := 1000000000.
Definition timespec : Type := Z * Z.
Definition CLOCK_REALTIME : Z := 0.

Abbreviation i64 := (ichk 64).

(** ** Operations *)
Definition timespec_midpoint (stamp_1 stamp_3 : timespec) : res timespec :=
  mid_nsec ← (if stamp_1.2 <? stamp_3.2
              then d ← i64 (stamp_3.2 - stamp_1.2); i64 (stamp_1.2 + Z.quot d 2)
              else d ← i64 (stamp_1.2 - stamp_3.2); i64 (stamp_3.2 + Z.quot d 2));
  mid_sec ← (if stamp_1.1 <? stamp_3.1
             then d ← i64 (stamp_3.1 - stamp_1.1); i64 (stamp_1.1 + Z.quot d 2)
             else d ← i64 (stamp_1.1 - stamp_3.1); i64 (stamp_3.1 + Z.quot d 2));
  mid_nsec ← (if Z.rem stamp_3.1 2 =? Z.rem stamp_1.1 2 then Ok mid_nsec
              else i64 (mid_nsec + 500000000));
  if giga <? mid_nsec then
    s ← i64 (mid_sec + 1);
    n ← i64 (mid_nsec - giga);
    Ok (s, n)
  else Ok (mid_sec, mid_nsec).

Definition time_add (a b : Z * Z) : res (option (Z * Z)) :=
  assert_ ((a.2 <? giga) && (b.2 <? giga));;
  Ok (nsec ← checked 32 (a.2 + b.2);
      if giga <? nsec then
        sec ← checked 64 (a.1 + 1);
        sec ← checked 64 (sec + b.1);
        Some (sec, nsec - giga)
      else
        sec ← checked 64 (a.1 + b.1);
        Some (sec, nsec)).

Section Clocks.
Context (clock_gettime : Z -> nat -> option timespec).

(** [clock.try_into::<clockid_t>().unwrap()] *)
Definition clockid (c : Z) : res Z := if in_I 32 c then Ok c else Panic.

Definition clock_sub (clock_a clock_b : Z) : res (Z * Z) :=
  ca ← clockid clock_a;
  cb ← clockid clock_b;
  match clock_gettime ca 0, clock_gettime cb 1, clock_gettime ca 2 with
  | Some stamp_1, Some stamp_2, Some stamp_3 =>
      stamp_avg ← timespec_midpoint stamp_1 stamp_3;
      let sec := stamp_avg.1 - stamp_2.1 in
      if negb (in_I 64 sec) then Err "overflow" else
      let nsec := stamp_avg.2 - stamp_2.2 in
      if negb (in_I 64 nsec) then Err "overflow" else
      let tv_nsec := swrap 32 nsec in
      r ← (if tv_nsec <? 0 then s ← i64 (sec - 1); n ← ichk 32 (tv_nsec + giga); Ok (s, n)
           else Ok (sec, tv_nsec));
      assert_ ((0 <=? r.2) && (r.2 <? giga));;
      Ok r
  | _, _, _ => Err "clock_gettime failed for clock"
  end.

Definition translate_timestamp (tv_sec_hi tv_sec_lo tv_nsec clock_id : Z) (to_channel : bool) :
  res (Z * Z * Z) :=
  if giga <=? tv_nsec then Err "tv_nsec should be in [0,10^9)" else
  let tv_sec := join_u64 tv_sec_hi tv_sec_lo in
  diff ← (if to_channel then clock_sub CLOCK_REALTIME clock_id
          else clock_sub clock_id CLOCK_REALTIME);
  t ← time_add (tv_sec, tv_nsec) diff;
  match t with
  | None => Err "overflow"
  | Some (new_sec, new_nsec) =>
      let '(hi, lo) := split_u64 new_sec in Ok (hi, lo, new_nsec)
  end.
End Clocks.

(** ** Correctness *)
Definition ns (t : Z * Z) : Z := t.1 * giga + t.2.
(** What [clock_gettime] returns: nanoseconds in range, and seconds far from overflow. *)
Definition ts_ok (t : timespec) : Prop := 0 <= t.1 < 2 ^ 61 /\ 0 <= t.2 < giga.

Lemma quot_half d : 0 <= d -> Z.quot d 2 = d / 2.
Proof. intros. by apply Z.quot_div_nonneg. Qed.
Lemma half_sum a b : 0 <= a -> 0 <= b -> iN 64 a -> iN 64 b ->
  (if a <? b then d ← i64 (b - a); i64 (a + Z.quot d 2)
   else d ← i64 (a - b); i64 (b + Z.quot d 2)) = Ok ((a + b) / 2).
Proof.
  intros Ha Hb Ia Ib. unfold iN in *. assert (Hq : forall x y, 0 <= x <= y -> y < 2 ^ 63 ->
    (d ← i64 (y - x); i64 (x + Z.quot d 2)) = Ok ((x + y) / 2)).
  { intros x y Hx Hy. rewrite ichk_in by (unfold iN; lia). cbn [mbind res_bind].
    rewrite quot_half by lia. assert (x + (y - x) / 2 = (x + y) / 2) as ->.
    { replace (x + y) with (y - x + x * 2) by lia. rewrite Z.div_add by lia. lia. }
    apply ichk_in. unfold iN. pose proof (Z.div_pos (x + y) 2). 
    assert ((x + y) / 2 <= y) by (apply Z.div_le_upper_bound; lia). lia. }
  destruct (Z.ltb_spec a b); [apply Hq; lia|]. rewrite (Z.add_comm a b). apply Hq; lia.
Qed.

(** The midpoint is exact up to the half nanosecond it rounds down; it is normalized except that
    its nanoseconds may be [10^9]. *)
Lemma timespec_midpoint_value t1 t3 : ts_ok t1 -> ts_ok t3 ->
  exists t, timespec_midpoint t1 t3 = Ok t /\ ns t = (ns t1 + ns t3) / 2 /\
    0 <= t.1 < 2 ^ 62 /\ 0 <= t.2 <= giga.
Proof.
  intros [Hs1 Hn1] [Hs3 Hn3]. unfold timespec_midpoint, giga in *.
  rewrite half_sum by (unfold iN; lia). cbn [mbind res_bind].
  rewrite half_sum by (unfold iN; lia). cbn [mbind res_bind].
  pose proof (Z.div_mod (t1.2 + t3.2) 2 ltac:(lia)) as En. pose proof (Z.mod_pos_bound (t1.2 + t3.2) 2 ltac:(lia)).
  pose proof (Z.div_mod (t1.1 + t3.1) 2 ltac:(lia)) as Es. pose proof (Z.mod_pos_bound (t1.1 + t3.1) 2 ltac:(lia)).
  set (mn := (t1.2 + t3.2) / 2) in *. set (ms := (t1.1 + t3.1) / 2) in *.
  rewrite !Z.rem_mod_nonneg by lia.
  assert (Hodd : (t1.1 + t3.1) mod 2 = if t3.1 mod 2 =? t1.1 mod 2 then 0 else 1).
  { pose proof (Z.mod_pos_bound t1.1 2). pose proof (Z.mod_pos_bound t3.1 2).
    rewrite Z.add_mod by lia. destruct (Z.eqb_spec (t3.1 mod 2) (t1.1 mod 2)) as [->|].
    - assert (t1.1 mod 2 = 0 \/ t1.1 mod 2 = 1) as [E|E] by lia; rewrite E; reflexivity.
    - assert (t1.1 mod 2 + t3.1 mod 2 = 1) as -> by lia. done. }
  assert (Hval : (ns t1 + ns t3) / 2 = ms * giga + mn + 500000000 * ((t1.1 + t3.1) mod 2)).
  { symmetry. apply (Z.div_unique_pos _ _ _ ((t1.2 + t3.2) mod 2)); [lia|]. unfold ns, giga in *. lia. }
  rewrite Hval. clear Hval.
  destruct (Z.eqb_spec (t3.1 mod 2) (t1.1 mod 2)) as [Hp|Hp]; rewrite Hodd in *.
  - cbn [mbind res_bind]. rewrite (proj2 (Z.ltb_ge _ _)) by lia. eexists. split; [done|]. unfold ns, giga; cbn. lia.
  - rewrite (ichk_in 64 (mn + 500000000)) by (unfold iN; lia). cbn [mbind res_bind]. destruct (1000000000 <? mn + 500000000) eqn:Eg.
    + rewrite (ichk_in 64 (ms + 1)) by (unfold iN; lia). cbn [mbind res_bind].
      rewrite ichk_in by (unfold iN; lia). cbn [mbind res_bind]. eexists. split; [reflexivity|]. unfold ns, giga; cbn. lia.
    + eexists. split; [done|]. unfold ns, giga; cbn. lia.
Qed.

Lemma time_add_value a b : 0 <= a.2 < giga -> 0 <= b.2 < giga -> uN 64 a.1 -> iN 64 b.1 ->
  exists o, time_add a b = Ok o /\
    (forall t, o = Some t -> ns t = ns a + ns b /\ uN 64 t.1 /\ 0 <= t.2 <= giga) /\
    (o = None -> ns a + ns b <= 0 \/ 2 ^ 64 * giga <= ns a + ns b \/ a.1 = 2 ^ 64 - 1).
Proof.
  intros Ha Hb Hsa Hsb. unfold time_add, giga in *. rewrite assert_true by lia. cbn [mbind res_bind].
  rewrite (checked_in 32 (a.2 + b.2)) by (unfold uN; lia). cbn [mbind option_bind].
  eexists. split; [done|]. unfold ns, giga, uN, iN in *. destruct (Z.ltb_spec 1000000000 (a.2 + b.2)).
  - destruct (checked 64 (a.1 + 1)) as [s1|] eqn:E1; cbn.
    + apply checked_Some in E1 as [-> ?]. destruct (checked 64 (a.1 + 1 + b.1)) as [s2|] eqn:E2; cbn.
      * apply checked_Some in E2 as [-> ?]. split; [|done]. intros t [= <-]. unfold uN in *. cbn. lia.
      * split; [done|]. intros _. assert (~ uN 64 (a.1 + 1 + b.1)).
        { intros H'. rewrite checked_in in E2 by done. done. }
        unfold uN in *. lia.
    + split; [done|]. intros _. assert (~ uN 64 (a.1 + 1)) by (intros H'; by rewrite checked_in in E1).
      unfold uN in *. lia.
  - destruct (checked 64 (a.1 + b.1)) as [s2|] eqn:E2; cbn.
    + apply checked_Some in E2 as [-> ?]. split; [|done]. intros t [= <-]. unfold uN in *. cbn. lia.
    + split; [done|]. intros _. assert (~ uN 64 (a.1 + b.1)) by (intros H'; by rewrite checked_in in E2).
      unfold uN in *. lia.
Qed.

Section ClocksCorrect.
Context (clock_gettime : Z -> nat -> option timespec).

(** The clocks can be read and are in range. *)
Definition clocks_ok (ca cb : Z) (t1 t2 t3 : timespec) : Prop :=
  iN 32 ca /\ iN 32 cb /\ clock_gettime ca 0 = Some t1 /\ clock_gettime cb 1 = Some t2 /\
  clock_gettime ca 2 = Some t3 /\ ts_ok t1 /\ ts_ok t2 /\ ts_ok t3.
(** The estimate of clock [a] minus clock [b]. *)
Definition clock_diff (t1 t2 t3 : timespec) : Z := (ns t1 + ns t3) / 2 - ns t2.

Lemma clock_sub_value ca cb t1 t2 t3 : clocks_ok ca cb t1 t2 t3 ->
  (exists d, clock_sub clock_gettime ca cb = Ok d /\ ns d = clock_diff t1 t2 t3 /\
     iN 63 d.1 /\ 0 <= d.2 < giga) \/
  clock_sub clock_gettime ca cb = Panic /\ t2.2 = 0 /\ ((ns t1 + ns t3) / 2) mod giga = 0.
Proof.
  intros (Ha & Hb & E1 & E2 & E3 & H1 & H2 & H3). unfold clock_sub, clockid, in_I, clock_diff.
  unfold iN in Ha, Hb. replace (_ && _) with true by lia. cbn [mbind res_bind].
  replace (_ && _) with true by lia. cbn [mbind res_bind]. rewrite E1, E2, E3.
  destruct (timespec_midpoint_value t1 t3 H1 H3) as (t & -> & Hv & Hs & Hn). rewrite <- Hv. cbn [mbind res_bind].
  destruct H2 as [Hs2 Hn2]. unfold giga in *. replace (_ && _) with true by lia. cbn [negb].
  replace (_ && _) with true by lia. cbn [negb]. rewrite swrap_id by (unfold iN; lia).
  destruct (Z.ltb_spec (t.2 - t2.2) 0).
  - rewrite (ichk_in 64 (t.1 - t2.1 - 1)) by (unfold iN; lia). cbn [mbind res_bind].
    rewrite (ichk_in 32 _) by (unfold iN; lia). cbn [mbind res_bind]. rewrite assert_true by (cbn; lia).
    left. eexists. split; [reflexivity|]. unfold ns, iN, giga; cbn. lia.
  - cbn [mbind res_bind fst snd]. destruct (Z.eq_dec (t.2 - t2.2) 1000000000) as [E|E].
    + right. rewrite (proj2 (Z.ltb_ge _ _)) by lia. rewrite andb_false_r. split; [reflexivity|]. split; [lia|].
      unfold ns, giga. replace t.2 with 1000000000 by lia.
      replace (t.1 * 1000000000 + 1000000000) with ((t.1 + 1) * 1000000000) by lia. apply Z.mod_mul. lia.
    + rewrite assert_true by lia. left. eexists. split; [reflexivity|]. unfold ns, iN, giga; cbn. lia.
Qed.

(** The two readings used for a message in the given direction. *)
Definition direction (clock_id : Z) (to_channel : bool) : Z * Z :=
  if to_channel then (CLOCK_REALTIME, clock_id) else (clock_id, CLOCK_REALTIME).

(** C34: for readable clocks, a timestamp with nanoseconds in range is translated to the same
    instant on the other clock: the result is the old time plus the estimated difference of the
    clocks exactly, with seconds in [u64] and nanoseconds at most [10^9]. It fails only when the
    result has no 64-bit seconds, and panics only if the midpoint of the two readings of the one
    clock and the reading of the other are both whole seconds. *)
Theorem timestamp_translated clock_id to_channel hi lo nsec t1 t2 t3 :
  clocks_ok (direction clock_id to_channel).1 (direction clock_id to_channel).2 t1 t2 t3 ->
  uN 32 hi -> uN 32 lo -> 0 <= nsec < giga ->
  let old := join_u64 hi lo * giga + nsec in
  match translate_timestamp clock_gettime hi lo nsec clock_id to_channel with
  | Ok (hi', lo', nsec') =>
      uN 32 hi' /\ uN 32 lo' /\ 0 <= nsec' <= giga /\
      join_u64 hi' lo' * giga + nsec' = old + clock_diff t1 t2 t3
  | Err e => e = "overflow" /\ (old + clock_diff t1 t2 t3 <= 0 \/
               2 ^ 64 * giga <= old + clock_diff t1 t2 t3 \/ join_u64 hi lo = 2 ^ 64 - 1)
  | Panic => t2.2 = 0 /\ ((ns t1 + ns t3) / 2) mod giga = 0
  end.
Proof.
  intros Hc Hhi Hlo Hn old. unfold translate_timestamp. rewrite (proj2 (Z.leb_gt _ _)) by lia.
  assert (Hd : (if to_channel then clock_sub clock_gettime CLOCK_REALTIME clock_id
                else clock_sub clock_gettime clock_id CLOCK_REALTIME) =
    clock_sub clock_gettime (direction clock_id to_channel).1 (direction clock_id to_channel).2).
  { by destruct to_channel. }
  rewrite Hd. destruct (clock_sub_value _ _ _ _ _ Hc) as [(d & -> & Hv & Hds & Hdn)|[-> Hp]]; [|done].
  cbn [mbind res_bind]. assert (Hj : uN 64 (join_u64 hi lo)) by (by apply join_u64_range).
  destruct (time_add_value (join_u64 hi lo, nsec) d) as (o & -> & Hs & Hno); [done|done|done|unfold iN in *; lia|].
  cbn [mbind res_bind]. change (ns (join_u64 hi lo, nsec)) with old in *. rewrite Hv in Hs, Hno.
  destruct o as [[s n]|]; [|split; [done|]; by apply Hno].
  destruct (Hs (s, n) eq_refl) as (Hv' & Hs' & Hn'). cbn [fst snd] in *.
  destruct (split_u64 s) as [h' l'] eqn:Es. pose proof (join_split_u64 s Hs') as Hjs. rewrite Es in Hjs.
  unfold split_u64 in Es. injection Es as <- <-. unfold uN, wrap.
  split; [apply Z.mod_pos_bound; lia|]. split; [apply Z.mod_pos_bound; lia|]. split; [done|].
  unfold wrap in Hjs. cbn [fst snd] in Hjs. rewrite Hjs. exact Hv'.
Qed.
End ClocksCorrect.

(** Clocks that always read the given times. *)
Definition two_clocks (realtime mono : timespec) (c : Z) (_ : nat) : option timespec :=
  Some (if c =? CLOCK_REALTIME then realtime else mono).
Lemma timestamp_translated_witness :
  let g := two_clocks (1700000000, 500) (1000, 999999999) in
  match translate_timestamp g 0 900 7 1 true with
  | Ok (hi', lo', nsec') =>
      uN 32 hi' /\ uN 32 lo' /\ 0 <= nsec' <= giga /\
      join_u64 hi' lo' * giga + nsec' = join_u64 0 900 * giga + 7 +
        clock_diff (1700000000, 500) (1000, 999999999) (1700000000, 500)
  | Err e => e = "overflow" /\ (join_u64 0 900 * giga + 7 +
        clock_diff (1700000000, 500) (1000, 999999999) (1700000000, 500) <= 0 \/
      2 ^ 64 * giga <= join_u64 0 900 * giga + 7 +
        clock_diff (1700000000, 500) (1000, 999999999) (1700000000, 500) \/ join_u64 0 900 = 2 ^ 64 - 1)
  | Panic => 999999999 = 0 /\
      ((ns (1700000000, 500) + ns (1700000000, 500)) / 2) mod giga = 0
  end.
Proof.
  intros g.
  apply (timestamp_translated g 1 true 0 900 7 (1700000000, 500) (1000, 999999999) (1700000000, 500)).
  - unfold clocks_ok, direction, iN, ts_ok, giga, CLOCK_REALTIME. cbn [fst snd]. split_and!; reflexivity || lia.
  - unfold uN; lia.
  - unfold uN; lia.
  - unfold giga; lia.
Defined.

(** the comparisons with [10^9] miss equality, so two inputs in range are mishandled: a valid
    timestamp is translated to one with [10^9] nanoseconds, which the other side rejects; and
    clock readings whose midpoint is a whole second make [clock_sub] panic. *)
Theorem whole_second_mishandled :
  let g := two_clocks (100, 400000000) (40, 0) in
  translate_timestamp g 0 7 600000000 1 true = Ok (0, 67, giga) /\
  (exists e, translate_timestamp g 0 67 giga 1 false = Err e) /\
  exists g', g' 0 0%nat = Some (9, 500000000) /\ g' 0 2%nat = Some (10, 500000000) /\
    g' 1 1%nat = Some (3, 0) /\ translate_timestamp g' 0 7 0 1 true = Panic.
Proof.
  cbv zeta. split; [vm_compute; reflexivity|]. split; [eexists; vm_compute; reflexivity|].
  exists (fun c i => Some (if c =? 0 then (if (i =? 0)%nat then (9, 500000000) else (10, 500000000)) else (3, 0))).
  repeat split; vm_compute; reflexivity.
Qed.
