(* ===== verification/TrackState.v ===== *)
(** * [src/tracking.rs], [src/mainloop.rs]: Wayland objects and the files they use

    The state [process_way_msg] works on, and the functions its arms share. A [ShadowFd] is
    shared between the map of the connection, the objects that use it, the queues of the message
    and other [ShadowFd]s: the model names it by its [Rid], which [allocate_rid] never gives
    twice, and keeps the one copy in [map]. A file descriptor is a number.

    Parameters: class [Sys] has the system calls, class [Gpu] what the Vulkan and GBM libraries
    answer through [src/dmabuf.rs], [src/gbm.rs] and [src/video.rs]. *)
From Stdlib Require Import ZArith Lia.
From stdpp Require Import gmap.
From S2P Require Import Prelude Util Damage Wire Protocol Formats Mirror Kernel Tasks Geometry Time.
Local Open Scope Z_scope.
Import Util.Arith.

(** ** Data *)
Record AddDmabufPlane := MkPlane {
  plane_fd : Z; plane_idx : Z; plane_offset : Z; plane_stride : Z; plane_modifier : Z }.

(** A point is a value and the timeline it is on. *)
Record ObjWlSurface := MkSurface {
  attached_buffer_id : option Z; damage_history : list DamageBatch;
  acquire_pt : option (Z * Z); release_pt : option (Z * Z); viewport_id : option Z }.
Record ObjWlBuffer := MkBuffer { sfd : Z; shm_info : option ObjWlBufferShm; unique_id : Z }.
Record DmabufTranche := MkTranche {
  flags : Z; values : list (Z * Z); indices : bytes; device : Z }.
Record ObjZwpLinuxDmabufFeedback := MkFeedback {
  input_format_table : option (list (Z * Z)); output_format_table : option bytes;
  main_device : option Z; tranches : list DmabufTranche; current : DmabufTranche;
  processed : bool; queued_format_table : option (Z * Z) }.
Record ObjZwpLinuxDmabufParams := MkParams { dmabuf : option Z; planes : list AddDmabufPlane }.
(** The buffer a frame is copied to: the file, and its layout. *)
Definition frame_buffer : Type := option (Z * option ObjWlBufferShm).
Record ObjExtImageCopyCaptureSession := MkSession {
  session_device : option Z; dmabuf_formats : list (Z * list Z);
  last_format_mod_list : list (Z * Z); frame_list : list Z }.
Record ObjExtImageCopyCaptureFrame := MkFrame {
  buffer : frame_buffer; capture_session : option Z; supported_modifiers : list (Z * Z) }.
Inductive WpExtra :=
| XSurface (s : ObjWlSurface)
| XBuffer (b : ObjWlBuffer)
| XRegistry (syncobj_manager_replay : list (Z * Z))
| XShmPool (buffer : Z)
| XViewport (wl_surface : option Z)
| XDmabuf (formats_seen : gset Z)
| XFeedback (f : ObjZwpLinuxDmabufFeedback)
| XParams (p : ObjZwpLinuxDmabufParams)
| XScreencopyFrame (buffer : frame_buffer)
| XSession (s : ObjExtImageCopyCaptureSession)
| XCaptureFrame (f : ObjExtImageCopyCaptureFrame)
| XGammaControl (gamma_size : option Z)
| XSyncobjSurface (surface : Z)
| XTimeline (timeline : Z)
| XNone.
Record WpObject := MkObject { obj_type : I.t; extra : WpExtra }.

(** A DMABUF of the device, with its size; what else it is belongs to the device. *)
Inductive DmabufImpl := VulkanBuf (width height : Z) | GbmBuf (width height : Z).
Definition impl_size (b : DmabufImpl) : Z * Z := match b with VulkanBuf w h | GbmBuf w h => (w, h) end.
(** [video_decode], [video_encode]: whether there is a decoder or encoder; its state belongs to the device. *)
Record ShadowFdDmabuf := MkDmabuf {
  dmabuf_rid : Z; dmabuf_only_here : bool; buf : DmabufImpl; mirror : option MirrorState;
  drm_format : Z; drm_modifier : Z; dmabuf_damage : Tasks.Damage; view_row_stride : option Z;
  first_damage : bool; export_planes : list AddDmabufPlane; using_implicit_sync : bool;
  acquires : list (Z * Z); releases : gmap (Z * Z) Z; dmabuf_pending : Z; debug_wayland_id : Z;
  video_decode : bool; video_encode : bool }.
(** The semaphore is a number of the device. *)
Record ShadowFdTimeline := MkTimeline {
  timeline_rid : Z; timeline_only_here : bool; semaphore : Z; timeline_wayland_id : Z;
  timeline_releases : list (Z * Z); timeline_export_fd : option Z }.
(** Data read from the program, of at most 4096 bytes, or from the channel, not yet passed on. *)
Inductive ShadowFdPipeBuffer := ReadFromWayland (data : bytes) | ReadFromChannel (data : bytes).
Record ShadowFdPipe := MkPipe {
  pipe_rid : Z; pipe_only_here : bool; pipe_buf : ShadowFdPipeBuffer; program_closed : bool;
  channel_closed : bool; pipe_fd : Z; pipe_export_fd : option Z }.
Inductive ShadowFd :=
| FileFd (fd : Z) (f : ShadowFdFile) (pending_apply_tasks : Z)
| PipeFd (p : ShadowFdPipe)
| DmabufFd (d : ShadowFdDmabuf)
| TimelineFd (t : ShadowFdTimeline).

Inductive DmabufDevice := Unknown | Unavailable | VulkanSetup | Vulkan | Gbm.

(** [map] keeps a [ShadowFd] for those who hold it; [unmapped] are the [Rid]s whose entry in the source's [map] of
    weak references was removed. [fresh_rids] are the files announced by the channel that no protocol message
    has used. *)
Record Globals := MkGlobals {
  on_display_side : bool; objects : gmap Z WpObject; map : gmap Z ShadowFd; pipes : list Z;
  max_local_id : Z; max_buffer_uid : Z; presentation_clock : option Z; title_prefix : bytes;
  no_gpu : bool; dmabuf_device : DmabufDevice; advertised_modifiers : gmap Z (list Z);
  screencopy_restrictions : gmap Z (list Z); fresh_rids : gset Z; unmapped : gset Z; wire_version : Z;
  has_first_message : bool; has_received_close : bool }.

(** Queues of [Rid]s to receive and to send; of file descriptors to receive and [Rid]s to send. *)
Inductive TranslationInfo :=
| FromChannel (x y : list Z)
| FromWayland (x y : list Z).

Inductive ProcMsg := Done | NeedsSpace (space : Z * Z) | WaitFor (rid : Z).

(** What [process_way_msg] changes: the connection, the queues, the bytes written so far and
    the rest of the output buffer. *)
Record St := MkSt { glob : Globals; transl : TranslationInfo; out : bytes; dst : bytes }.

Definition with_glob (st : St) (g : Globals) : St := MkSt g (transl st) (out st) (dst st).
Definition with_transl (st : St) (t : TranslationInfo) : St := MkSt (glob st) t (out st) (dst st).
Definition wrote (st : St) (w : bytes * bytes) : St :=
  MkSt (glob st) (transl st) (out st ++ w.1) w.2.
Definition set_objects (g : Globals) (o : gmap Z WpObject) : Globals :=
  MkGlobals (on_display_side g) o (map g) (pipes g) (max_local_id g) (max_buffer_uid g)
    (presentation_clock g) (title_prefix g) (no_gpu g) (dmabuf_device g) (advertised_modifiers g)
    (screencopy_restrictions g) (fresh_rids g) (unmapped g) (wire_version g) (has_first_message g) (has_received_close g).
Definition set_map (g : Globals) (m : gmap Z ShadowFd) : Globals :=
  MkGlobals (on_display_side g) (objects g) m (pipes g) (max_local_id g) (max_buffer_uid g)
    (presentation_clock g) (title_prefix g) (no_gpu g) (dmabuf_device g) (advertised_modifiers g)
    (screencopy_restrictions g) (fresh_rids g) (unmapped g) (wire_version g) (has_first_message g) (has_received_close g).
Definition set_pipes (g : Globals) (p : list Z) : Globals :=
  MkGlobals (on_display_side g) (objects g) (map g) p (max_local_id g) (max_buffer_uid g)
    (presentation_clock g) (title_prefix g) (no_gpu g) (dmabuf_device g) (advertised_modifiers g)
    (screencopy_restrictions g) (fresh_rids g) (unmapped g) (wire_version g) (has_first_message g) (has_received_close g).
Definition set_local_id (g : Globals) (n : Z) : Globals :=
  MkGlobals (on_display_side g) (objects g) (map g) (pipes g) n (max_buffer_uid g)
    (presentation_clock g) (title_prefix g) (no_gpu g) (dmabuf_device g) (advertised_modifiers g)
    (screencopy_restrictions g) (fresh_rids g) (unmapped g) (wire_version g) (has_first_message g) (has_received_close g).
Definition set_buffer_uid (g : Globals) (n : Z) : Globals :=
  MkGlobals (on_display_side g) (objects g) (map g) (pipes g) (max_local_id g) n
    (presentation_clock g) (title_prefix g) (no_gpu g) (dmabuf_device g) (advertised_modifiers g)
    (screencopy_restrictions g) (fresh_rids g) (unmapped g) (wire_version g) (has_first_message g) (has_received_close g).
Definition set_clock (g : Globals) (c : Z) : Globals :=
  MkGlobals (on_display_side g) (objects g) (map g) (pipes g) (max_local_id g) (max_buffer_uid g)
    (Some c) (title_prefix g) (no_gpu g) (dmabuf_device g) (advertised_modifiers g)
    (screencopy_restrictions g) (fresh_rids g) (unmapped g) (wire_version g) (has_first_message g) (has_received_close g).
Definition set_device (g : Globals) (d : DmabufDevice) : Globals :=
  MkGlobals (on_display_side g) (objects g) (map g) (pipes g) (max_local_id g) (max_buffer_uid g)
    (presentation_clock g) (title_prefix g) (no_gpu g) d (advertised_modifiers g)
    (screencopy_restrictions g) (fresh_rids g) (unmapped g) (wire_version g) (has_first_message g) (has_received_close g).
Definition set_modifiers (g : Globals) (a s : gmap Z (list Z)) : Globals :=
  MkGlobals (on_display_side g) (objects g) (map g) (pipes g) (max_local_id g) (max_buffer_uid g)
    (presentation_clock g) (title_prefix g) (no_gpu g) (dmabuf_device g) a s
    (fresh_rids g) (unmapped g) (wire_version g) (has_first_message g) (has_received_close g).
Definition set_fresh (g : Globals) (f : gset Z) : Globals :=
  MkGlobals (on_display_side g) (objects g) (map g) (pipes g) (max_local_id g) (max_buffer_uid g)
    (presentation_clock g) (title_prefix g) (no_gpu g) (dmabuf_device g) (advertised_modifiers g)
    (screencopy_restrictions g) f (unmapped g) (wire_version g) (has_first_message g) (has_received_close g).
Definition set_unmapped (g : Globals) (u : gset Z) : Globals :=
  MkGlobals (on_display_side g) (objects g) (map g) (pipes g) (max_local_id g) (max_buffer_uid g)
    (presentation_clock g) (title_prefix g) (no_gpu g) (dmabuf_device g) (advertised_modifiers g)
    (screencopy_restrictions g) (fresh_rids g) u (wire_version g) (has_first_message g) (has_received_close g).
Definition set_version (g : Globals) (version : Z) (first : bool) : Globals :=
  MkGlobals (on_display_side g) (objects g) (map g) (pipes g) (max_local_id g) (max_buffer_uid g)
    (presentation_clock g) (title_prefix g) (no_gpu g) (dmabuf_device g) (advertised_modifiers g)
    (screencopy_restrictions g) (fresh_rids g) (unmapped g) version first (has_received_close g).
Definition set_received_close (g : Globals) : Globals :=
  MkGlobals (on_display_side g) (objects g) (map g) (pipes g) (max_local_id g) (max_buffer_uid g)
    (presentation_clock g) (title_prefix g) (no_gpu g) (dmabuf_device g) (advertised_modifiers g)
    (screencopy_restrictions g) (fresh_rids g) (unmapped g) (wire_version g) (has_first_message g) true.
Definition upd_objects (st : St) (f : gmap Z WpObject -> gmap Z WpObject) : St :=
  with_glob st (set_objects (glob st) (f (objects (glob st)))).
Definition set_extra (st : St) (id : Z) (o : WpObject) (x : WpExtra) : St :=
  upd_objects st <[id := MkObject (obj_type o) x]>.
(** Store a changed [ShadowFd]. *)
Definition set_sfd (st : St) (rid : Z) (s : ShadowFd) : St :=
  with_glob st (set_map (glob st) (<[rid := s]> (map (glob st)))).

Definition MAX_OUTGOING_FDS : Z := 8.

(** ** Helpers *)
Definition setup_object_map : gmap Z WpObject := {[ 1 := MkObject I.WlDisplay XNone ]}.

Definition insert_new_object (st : St) (id : Z) (obj : WpObject) : res St :=
  match objects (glob st) !! id with
  | Some _ => Err "Creating object, but object with same id already exists"
  | None => Ok (upd_objects st <[id := obj]>)
  end.

Definition name_of_bytes (b : bytes) : string := String.string_of_list_byte b.

Fixpoint register_args (st : St) (tail : bytes) (ops : list WaylandArgument.t) : res St :=
  match ops with
  | [] => Ok st
  | op :: ops =>
      match op with
      | WaylandArgument.Uint | WaylandArgument.Int | WaylandArgument.Fixed =>
          (* [let _ = parse_u32(&mut tail)]: a failure leaves the tail *)
          match parse_u32 tail with
          | Ok r => register_args st r.2 ops
          | Err _ => register_args st tail ops
          | Panic => Panic
          end
      | WaylandArgument.Fd => register_args st tail ops
      | WaylandArgument.Object _ | WaylandArgument.GenericObject =>
          r ← parse_obj tail; register_args st r.2 ops
      | WaylandArgument.NewId new_intf =>
          r ← parse_obj tail;
          st ← insert_new_object st r.1 (MkObject new_intf XNone);
          register_args st r.2 ops
      | WaylandArgument.GenericNewId =>
          s ← parse_string tail;
          match s.1 with
          | None => Err "New id string should not be null"
          | Some string =>
              v ← parse_u32 s.2;
              r ← parse_obj v.2;
              match objects (glob st) !! r.1 with
              | Some _ => Err "Creating object with id not detected as deleted"
              | None =>
                  o ← lookup_intf_by_name (name_of_bytes string);
                  register_args
                    (match o with
                     | Some new_intf => upd_objects st <[r.1 := MkObject new_intf XNone]>
                     | None => st
                     end) r.2 ops
              end
          end
      | WaylandArgument.String =>
          s ← parse_string tail;
          match s.1 with
          | None => Err "Received null string where none allowed"
          | Some _ => register_args st s.2 ops
          end
      | WaylandArgument.OptionalString => s ← parse_string tail; register_args st s.2 ops
      | WaylandArgument.Array => a ← parse_array tail; register_args st a.2 ops
      end
  end.
Definition register_generic_new_ids (st : St) (msg : bytes) (meth : WaylandMethod) : res St :=
  tail ← get_from msg 8;
  register_args st tail (sig meth).

Definition copy_msg (msg : bytes) (st : St) : res St :=
  w ← put (dst st) msg; Ok (wrote st w).

(** The second header word of a message, with [f] applied. *)
Definition edit_header (msg : bytes) (f : Z -> Z) : res bytes :=
  h ← get_range msg 4 8;
  set_range msg 4 8 (to_le 4 (f (from_le h))).
(** [h & !mask] on 32 bits *)
Definition clear_bits (h mask : Z) : Z := Z.land h (Z.lxor (2 ^ 32 - 1) mask).

Definition copy_msg_tag_fd (msg : bytes) (st : St) (from_channel : bool) : res St :=
  d ← set_range (dst st) 0 (zlen msg) msg;
  hb ← get_range d 4 8;
  let h2 := from_le hb in
  if from_channel && (Z.land h2 (Z.shiftl 1 11) =? 0) then Err "header part missing fd tag" else
  let h2 := if from_channel then clear_bits h2 65280
            else Z.lor (clear_bits h2 65280) (Z.shiftl 1 11) in
  d ← set_range d 4 8 (to_le 4 h2);
  w ← get_range d 0 (zlen msg);
  rest ← get_from d (zlen msg);
  Ok (wrote st (w, rest)).

Definition is_server_object (id : Z) : bool := 4278190080 <=? id.
Definition space_le (x y : Z * Z) : bool := (x.1 <=? y.1) && (x.2 <=? y.2).

Definition default_proc_way_msg (msg : bytes) (st : St) (meth : WaylandMethod) (is_req : bool)
    (object_id : Z) : res (ProcMsg * St) :=
  if zlen (dst st) <? zlen msg then Ok (NeedsSpace (zlen msg, 0), st) else
  st ← register_generic_new_ids st msg meth;
  st ← (if destructor meth && (negb is_req || is_server_object object_id) then
          match objects (glob st) !! object_id with
          | Some _ => Ok (upd_objects st (delete object_id))
          | None => Panic
          end
        else Ok st);
  st ← copy_msg msg st;
  Ok (Done, st).

Definition get_sfd (g : Globals) (rid : Z) : res ShadowFd := unwrap (map g !! rid).
(** Tasks left, as far as an unidentified message waits for them. *)
Definition pending_of (s : ShadowFd) : Z := match s with FileFd _ _ p => p | _ => 0 end.
Definition file_has_pending_apply_tasks (g : Globals) (rid : Z) : res bool :=
  s ← get_sfd g rid;
  match s with
  | FileFd _ _ p => Ok (0 <? p)
  | _ => Err "ShadowFd is not of file type"
  end.

(** The first of [n] shadow files that still has tasks to apply. *)
Fixpoint first_pending (g : Globals) (l : list Z) : res (option Z) :=
  match l with
  | [] => Ok None
  | rid :: l => s ← get_sfd g rid; if 0 <? pending_of s then Ok (Some rid) else first_pending g l
  end.

Definition proc_unknown_way_msg (msg : bytes) (st : St) : res (ProcMsg * St) :=
  match transl st with
  | FromChannel x y =>
      hb ← get_range msg 4 8;
      let header2 := from_le hb in
      let ntagfds := Z.shiftr (Z.land header2 (Z.shiftl 1 16 - 1)) 11 in
      if (zlen (dst st) <? zlen msg) || (MAX_OUTGOING_FDS <? zlen y + ntagfds)
      then Ok (NeedsSpace (zlen msg, ntagfds), st) else
      if zlen x <? ntagfds then Err "Missing sfd" else
      let n := Z.to_nat ntagfds in
      w ← first_pending (glob st) (take n x);
      match w with
      | Some rid => Ok (WaitFor rid, st)
      | None =>
          let st := with_transl st (FromChannel (drop n x) (y ++ take n x)) in
          m ← edit_header msg (fun h => clear_bits h 63488);
          w ← put (dst st) m;
          Ok (Done, wrote st w)
      end
  | FromWayland _ _ =>
      if zlen (dst st) <? zlen msg then Ok (NeedsSpace (zlen msg, 0), st) else
      st ← copy_msg msg st;
      Ok (Done, st)
  end.

Definition allocate_rid (g : Globals) : res (Z * Globals) :=
  let v := max_local_id g in
  n ← (if in_I 32 (v + Z.sgn v) then Ok (v + Z.sgn v) else Panic);
  Ok (v, set_local_id g n).


(** ** The system and the devices *)
Class Sys := {
  (** [mmap] of a file descriptor, the size, and whether the mapping is private *)
  mmap : Z -> Z -> bool -> res bytes;
  (** the [i]-th reading of a clock *)
  clock_gettime : Z -> nat -> option timespec;
  memfd_create : res Z;
  ftruncate : Z -> Z -> res unit }.

Class Gpu := {
  test_skip_vulkan : bool;
  (** [opts.drm_node] through [get_dev_for_drm_node_path] *)
  drm_node : option (res Z);
  (** whether there is an instance or device *)
  setup_vulkan_instance : res bool;
  has_device : option Z -> bool;
  setup_vulkan_device : option Z -> res bool;
  setup_gbm_device : option Z -> res bool;
  device_supports_timeline_import_export : option Z -> bool;
  supports_timeline_import_export : bool;
  supports_format : Z -> Z -> bool;
  get_supported_modifiers : Z -> list Z;
  gbm_supported_modifiers : Z -> list Z;
  get_device : Z;
  gbm_get_device_id : Z;
  (** [opts.video.format], and whether the device can code video of that format *)
  video_format : option Z;
  supports_video_format : Z -> Z -> Z -> Z -> bool;
  can_import_image : Z -> Z -> Z -> list AddDmabufPlane -> bool -> bool;
  (** the import of a DMABUF by a Vulkan device, possibly to encode video from it, or by GBM *)
  vulkan_import_dmabuf : list AddDmabufPlane -> Z -> Z -> Z -> bool -> res unit;
  setup_video_encode : Z -> res unit;
  gbm_import_dmabuf : list AddDmabufPlane -> Z -> Z -> Z -> res unit;
  nominal_size : DmabufImpl -> option Z -> Z;
  copy_onto_dmabuf : DmabufImpl -> option Z -> bytes -> res unit;
  vulkan_import_timeline : Z -> res Z;
  signal_timeline_pt : Z -> Z -> res unit }.

Section Devices.
Context `{Gpu}.

Definition chosen_device : res (option Z) :=
  match drm_node with Some r => d ← r; Ok (Some d) | None => Ok None end.

Definition try_setup_dmabuf_instance_light (device : option Z) : res DmabufDevice :=
  v ← (if test_skip_vulkan then Ok false
       else i ← setup_vulkan_instance; Ok (i && has_device device));
  if (v : bool) then Ok VulkanSetup else
  g ← setup_gbm_device device;
  Ok (if (g : bool) then Gbm else Unavailable).

Definition try_setup_dmabuf_instance_full (device : option Z) : res DmabufDevice :=
  v ← (if test_skip_vulkan then Ok false
       else i ← setup_vulkan_instance; if (i : bool) then setup_vulkan_device device else Ok false);
  if (v : bool) then Ok Vulkan else
  g ← setup_gbm_device device;
  Ok (if (g : bool) then Gbm else Unavailable).

Definition complete_dmabuf_setup (device : option Z) (dmabuf_dev : DmabufDevice) : res DmabufDevice :=
  match dmabuf_dev with
  | VulkanSetup => d ← setup_vulkan_device device; assert_ d;; Ok Vulkan
  | d => Ok d
  end.

Definition dmabuf_dev_supports_format (dev : DmabufDevice) (format modifier : Z) : res bool :=
  match dev with
  | Unknown | Unavailable | VulkanSetup => Panic
  | Vulkan => Ok (supports_format format modifier)
  | Gbm => Ok (existsb (Z.eqb modifier) (gbm_supported_modifiers format))
  end.
Definition dmabuf_dev_modifier_list (dev : DmabufDevice) (format : Z) : res (list Z) :=
  match dev with
  | Unknown | Unavailable | VulkanSetup => Panic
  | Vulkan => Ok (get_supported_modifiers format)
  | Gbm => Ok (gbm_supported_modifiers format)
  end.
Definition dmabuf_dev_get_id (dev : DmabufDevice) : res Z :=
  match dev with
  | Unknown | Unavailable | VulkanSetup => Panic
  | Vulkan => Ok get_device
  | Gbm => Ok gbm_get_device_id
  end.

Definition dmabuf_post_apply_task_operations (data : ShadowFdDmabuf) : res ShadowFdDmabuf :=
  match buf data with
  | GbmBuf _ _ =>
      let len := nominal_size (buf data) (view_row_stride data) in
      m ← unwrap (mirror data);
      r ← with_range m 0 len "Failed to get entire mirror, to apply changes to DMABUF" (fun src =>
            copy_onto_dmabuf (buf data) (view_row_stride data) src;; Ok (tt, src));
      Ok (MkDmabuf (dmabuf_rid data) (dmabuf_only_here data) (buf data) (Some r.2) (drm_format data)
            (drm_modifier data) (dmabuf_damage data) (view_row_stride data) (first_damage data)
            (export_planes data) (using_implicit_sync data) (acquires data) (releases data)
            (dmabuf_pending data) (debug_wayland_id data) (video_decode data) (video_encode data))
  | VulkanBuf _ _ => Ok data
  end.

(** Damage of the linear view of a DMABUF. *)
Definition get_damage_for_dmabuf `{SortUnstable} (sfdd : ShadowFdDmabuf)
    (damage_history : list DamageBatch) (att : BufferAttachment) : res (list (Z * Z)) :=
  let nom_len := nominal_size (buf sfdd) (view_row_stride sfdd) in
  let width := (impl_size (buf sfdd)).1 in
  let everything := e ← align nom_len 64; Ok [(0, e)] in
  assert_ (negb (drm_format sfdd =? format_code Xrgb8888) && negb (drm_format sfdd =? format_code Argb8888));;
  match get_shm_format_layout (drm_to_wayland (drm_format sfdd)) with
  | Some [p0] =>
      if (hsub p0 =? 1) && (vsub p0 =? 1) && (htex p0 =? 1) && (vtex p0 =? 1) then
        rects ← get_damage_rects damage_history att;
        packed ← u32 (width * bpt p0);
        compute_damaged_segments 6 128 0 (default packed (view_row_stride sfdd)) (bpt p0) rects
      else everything
  | _ => everything
  end.
End Devices.

(** ** Tracking new files *)
Definition ExternalMapping_new (mmap : Z -> Z -> bool -> res bytes) (fd size : Z) (readonce : bool) : res bytes :=
  if size =? 0 then Ok [] else
  if isize_max <? size then Err "Failed to mmap, region too large" else mmap fd size readonce.

Definition translate_shm_fd (mmap : Z -> Z -> bool -> res bytes) (g : Globals) (fd size_lb : Z)
    (default_damage readonce local_only : bool) : res (Z * Globals) :=
  r ← allocate_rid g;
  let '(remote_id, g) := r in
  m ← ExternalMapping_new mmap fd size_lb readonce;
  mirror ← Mirror.new (if readonce then 0 else size_lb);
  let f := MkFile remote_id (negb local_only) size_lb 0 readonce
             (if default_damage then Everything else Intervals []) (Some (MkCore mirror m)) in
  Ok (remote_id, set_map g (<[remote_id := FileFd fd f 0]> (map g))).

Definition translate_pipe_fd (g : Globals) (fd : Z) (reading_from_channel : bool) : res (Z * Globals) :=
  r ← allocate_rid g;
  let '(remote_id, g) := r in
  let p := MkPipe remote_id true
             (if reading_from_channel then ReadFromChannel [] else ReadFromWayland []) false false fd None in
  Ok (remote_id, set_pipes (set_map g (<[remote_id := PipeFd p]> (map g))) (pipes g ++ [remote_id])).

Definition translate_dmabuf_fd `{Gpu} (g : Globals) (width height drm_format : Z)
    (planes : list AddDmabufPlane) (wayland_id : Z) : res (Z * Globals) :=
  r ← allocate_rid g;
  let '(remote_id, g) := r in
  p0 ← index planes 0;
  b ← match dmabuf_device g with
      | Unknown | Unavailable | VulkanSetup => Panic
      | Vulkan =>
          let use_video := match video_format with
                           | Some f => supports_video_format f drm_format width height
                                       && can_import_image drm_format width height planes true
                           | None => false
                           end in
          if negb use_video && negb (can_import_image drm_format width height planes false)
          then Err "Cannot import DMABUF" else
          vulkan_import_dmabuf planes width height drm_format use_video;;
          enc ← match video_format with
                | Some f => if use_video then setup_video_encode f;; Ok true else Ok false
                | None => Ok false
                end;
          Ok (VulkanBuf width height, enc)
      | Gbm => gbm_import_dmabuf planes width height drm_format;; Ok (GbmBuf width height, false)
      end;
  let d := MkDmabuf remote_id true b.1 None drm_format (plane_modifier p0) (Intervals []) None true []
             false [] ∅ 0 wayland_id false b.2 in
  Ok (remote_id, set_map g (<[remote_id := DmabufFd d]> (map g))).

Definition translate_timeline `{Gpu} (g : Globals) (fd object_id : Z) : res (Z * Globals) :=
  r ← allocate_rid g;
  let '(remote_id, g) := r in
  match dmabuf_device g with
  | Vulkan =>
      tm ← vulkan_import_timeline fd;
      let t := MkTimeline remote_id true tm object_id [] None in
      Ok (remote_id, set_map g (<[remote_id := TimelineFd t]> (map g)))
  | _ => Panic
  end.

(** [update_core_for_new_size]; no task holds the core here. *)
Definition update_core_for_new_size `{Sys} (fd size : Z) (c : option ShadowFdFileCore) :
  res (option ShadowFdFileCore) :=
  m ← ExternalMapping_new mmap fd size false;
  c ← unwrap c;
  assert_ (Mirror.len (mem_mirror c) <=? size);;
  mirror ← Mirror.extend (mem_mirror c) size;
  Ok (Some (MkCore mirror m)).

(** ** Space *)
Definition remaining_space (st : St) : Z * Z :=
  (zlen (dst st), MAX_OUTGOING_FDS - match transl st with FromChannel _ y | FromWayland _ y => zlen y end).
Definition check_space (st : St) (bytes fds : Z) (k : res (ProcMsg * St)) : res (ProcMsg * St) :=
  if space_le (bytes, fds) (remaining_space st) then k else Ok (NeedsSpace (bytes, fds), st).
Definition from_channel (st : St) : bool :=
  match transl st with FromChannel _ _ => true | FromWayland _ _ => false end.
