(* ===== verification/Arms.v ===== *)
(** * [src/tracking.rs]: the arms of [process_way_msg]

    An arm has the message, the state, and the object it is for. The last branch of a match on
    the arguments of a message is not reached, since they have the types parsed. The messages
    here are those of the display, registry, shared memory, surfaces, viewports, files sent
    whole (keymaps, colour profiles, gamma ramps), data offers, titles, icons and timestamps;
    [GpuArms] has those of DMABUFs, timelines and screen capture. *)
From Stdlib Require Import ZArith Lia.
From stdpp Require Import gmap.
From S2P Require Import Prelude Util Damage Wire Protocol Formats Mirror Kernel Tasks Geometry Time TrackState.
Local Open Scope Z_scope.
Import Util.Arith.

Section Arms.
Context `{Sys} `{Gpu} `{SortUnstable}.

(** *** Files *)
Definition translate_or_wait_for_fixed_file (st : St) (file_sz : Z) : res (option ProcMsg * St) :=
  match transl st with
  | FromChannel [] _ => Err "Missing fd"
  | FromChannel (rid :: x) y =>
      p ← file_has_pending_apply_tasks (glob st) rid;
      if (p : bool) then Ok (Some (WaitFor rid), st)
      else Ok (None, with_transl st (FromChannel x (y ++ [rid])))
  | FromWayland [] _ => Err "Missing fd"
  | FromWayland (fd :: x) y =>
      v ← translate_shm_fd mmap (glob st) fd file_sz true true false;
      Ok (None, with_transl (with_glob st v.2) (FromWayland x (y ++ [v.1])))
  end.

(** A message that carries one file to replicate whole. *)
Definition fixed_file (msg : bytes) (st : St) (file_sz : Z) : res (ProcMsg * St) :=
  r ← translate_or_wait_for_fixed_file st file_sz;
  match r.1 with
  | Some wait => Ok (wait, r.2)
  | None => st' ← copy_msg_tag_fd msg r.2 (from_channel st); Ok (Done, st')
  end.

(** *** Display, registry, callback *)
Definition arm_delete_id (msg : bytes) (st : St) : res (ProcMsg * St) :=
  check_space st (zlen msg) 0 (
  a ← parse_msg evt_wl_display_delete_id msg;
  match a with
  | [AUint id] =>
      if id =? 1 then Err "Tried to delete wl_display object" else
      st ← copy_msg msg (upd_objects st (delete id));
      Ok (Done, st)
  | _ => Panic
  end).

Definition arm_get_registry (msg : bytes) (st : St) : res (ProcMsg * St) :=
  check_space st (zlen msg) 0 (
  a ← parse_msg req_wl_display_get_registry msg;
  match a with
  | [AObj registry_id] =>
      st ← insert_new_object st registry_id (MkObject I.WlRegistry (XRegistry []));
      st ← copy_msg msg st;
      Ok (Done, st)
  | _ => Panic
  end).

Definition arm_callback_done (msg : bytes) (st : St) (object_id : Z) : res (ProcMsg * St) :=
  check_space st (zlen msg) 0 (
  st ← copy_msg msg st;
  Ok (Done, upd_objects st (delete object_id))).

(** *** Shared memory *)
Definition arm_create_pool (msg : bytes) (st : St) : res (ProcMsg * St) :=
  check_space st (zlen msg) 1 (
  a ← parse_msg req_wl_shm_create_pool msg;
  match a with
  | [AObj pool_id; AInt pool_size] =>
      if pool_size <? 0 then Err "Need nonnegative shm pool size" else
      r ← match transl st with
          | FromChannel [] _ | FromWayland [] _ => Err "Missing fd"
          | FromChannel (rid :: x) y => Ok (rid, with_transl st (FromChannel x (y ++ [rid])))
          | FromWayland (fd :: x) y =>
              v ← translate_shm_fd mmap (glob st) fd pool_size false false false;
              Ok (v.1, with_transl (with_glob st v.2) (FromWayland x (y ++ [v.1])))
          end;
      st' ← insert_new_object r.2 pool_id (MkObject I.WlShmPool (XShmPool r.1));
      st' ← copy_msg_tag_fd msg st' (from_channel st);
      Ok (Done, st')
  | _ => Panic
  end).

Definition arm_create_buffer (msg : bytes) (st : St) (obj : WpObject) : res (ProcMsg * St) :=
  check_space st (zlen msg) 0 (
  st ← copy_msg msg st;
  a ← parse_msg req_wl_shm_pool_create_buffer msg;
  match a with
  | [AObj buffer_id; AInt offset; AInt w; AInt h; AInt stride; AUint format] =>
      if (w <=? 0) || (h <=? 0) then Err "wl_shm buffer width, height should be positive" else
      if offset <? 0 then Err "wl_shm buffer offsets must be nonnegative" else
      if stride <? 0 then Err "wl_shm stride should be nonnegative" else
      let info := MkShm (Z.max w 0) (Z.max h 0) format offset stride in
      match extra obj with
      | XShmPool rid =>
          s ← get_sfd (glob st) rid;
          match s with
          | FileFd _ f _ =>
              too_small ← match get_shm_format_layout format with
                          | Some layout =>
                              e ← extent_for_linear_buffer info layout;
                              Ok match e with
                                 | Some i => Tasks.buffer_size f <? i.2
                                 | None => true
                                 end
                          | None => Ok false
                          end;
              if (too_small : bool) then Err "wl_shm_pool is too small to contain provided wl_buffer" else
              let g := glob st in
              st ← insert_new_object st buffer_id
                     (MkObject I.WlBuffer (XBuffer (MkBuffer rid (Some info) (max_buffer_uid g))));
              uid ← u64 (max_buffer_uid g + 1);
              Ok (Done, with_glob st (set_buffer_uid (glob st) uid))
          | _ => Panic
          end
      | _ => Err "wl_shm_pool object has invalid extra type"
      end
  | _ => Panic
  end).

Definition arm_pool_resize (msg : bytes) (st : St) (obj : WpObject) : res (ProcMsg * St) :=
  check_space st (zlen msg) 0 (
  match extra obj with
  | XShmPool rid =>
      p ← file_has_pending_apply_tasks (glob st) rid;
      if (p : bool) then Ok (WaitFor rid, st) else
      st ← copy_msg msg st;
      if on_display_side (glob st) then Ok (Done, st) else
      a ← parse_msg req_wl_shm_pool_resize msg;
      match a with
      | [AInt size] =>
          if size <? 0 then Err "Invalid buffer size" else
          s ← get_sfd (glob st) rid;
          match s with
          | FileFd fd f pending =>
              if size <? Tasks.buffer_size f then Err "Invalid decrease in size for wl_shm_pool::resize" else
              c ← update_core_for_new_size fd size (core f);
              let f := MkFile (remote_id f) (only_here f) size (remote_bufsize f) (readonly f)
                         (Tasks.damage f) c in
              Ok (Done, set_sfd st rid (FileFd fd f pending))
          | _ => Ok (Done, st)
          end
      | _ => Panic
      end
  | _ => Err "wl_shm_pool object has invalid extra type"
  end).

(** *** Surfaces and viewports *)
Definition initial_batch : DamageBatch := MkBatch (MkAtt 1 Normal None None 0 (0, 0)) [] [].

Definition arm_create_surface (msg : bytes) (st : St) : res (ProcMsg * St) :=
  check_space st (zlen msg) 0 (
  a ← parse_msg req_wl_compositor_create_surface msg;
  match a with
  | [AObj surf_id] =>
      st ← insert_new_object st surf_id
             (MkObject I.WlSurface (XSurface (MkSurface None (replicate 7 initial_batch) None None None)));
      st ← copy_msg msg st;
      Ok (Done, st)
  | _ => Panic
  end).

Definition surface_type : string := "Surface object has invalid extra type".
Definition viewport_type : string := "Viewport object has invalid extra type".

Definition arm_surface_destroy (msg : bytes) (st : St) (object_id : Z) (obj : WpObject) :
  res (ProcMsg * St) :=
  check_space st (zlen msg) 0 (
  st ← copy_msg msg st;
  match extra obj with
  | XSurface s =>
      let st := set_extra st object_id obj
                  (XSurface (MkSurface (attached_buffer_id s) (damage_history s) (acquire_pt s) (release_pt s) None)) in
      match viewport_id s with
      | Some vp_id =>
          match objects (glob st) !! vp_id with
          | Some o =>
              match extra o with
              | XViewport _ => Ok (Done, set_extra st vp_id o (XViewport None))
              | _ => Err viewport_type
              end
          | None => Ok (Done, st)
          end
      | None => Ok (Done, st)
      end
  | _ => Err surface_type
  end).

Definition arm_surface_attach (msg : bytes) (st : St) (object_id : Z) (obj : WpObject) :
  res (ProcMsg * St) :=
  check_space st (zlen msg) 0 (
  a ← parse_msg req_wl_surface_attach msg;
  match a with
  | [AObj buf_id; AInt _; AInt _] =>
      match extra obj with
      | XSurface s =>
          let st := set_extra st object_id obj
                      (XSurface (MkSurface (if buf_id =? 0 then None else Some buf_id)
                                   (damage_history s) (acquire_pt s) (release_pt s) (viewport_id s))) in
          st ← copy_msg msg st;
          Ok (Done, st)
      | _ => Err surface_type
      end
  | _ => Panic
  end).

(** [surf.damage_history[0]] changed by [f] *)
Definition upd_pending (s : ObjWlSurface) (f : DamageBatch -> DamageBatch) : ObjWlSurface :=
  MkSurface (attached_buffer_id s)
    match damage_history s with p :: rest => f p :: rest | [] => [] end
    (acquire_pt s) (release_pt s) (viewport_id s).
Definition upd_attachment (f : BufferAttachment -> BufferAttachment) (b : DamageBatch) : DamageBatch :=
  MkBatch (f (attachment b)) (Geometry.damage b) (damage_buffer b).

Definition arm_set_buffer_scale (msg : bytes) (st : St) (object_id : Z) (obj : WpObject) :
  res (ProcMsg * St) :=
  check_space st (zlen msg) 0 (
  st ← copy_msg msg st;
  a ← parse_msg req_wl_surface_set_buffer_scale msg;
  match a with
  | [AInt s] =>
      if s <=? 0 then Err "wl_surface.set_buffer_scale used nonpositive scale" else
      match extra obj with
      | XSurface surf =>
          Ok (Done, set_extra st object_id obj (XSurface (upd_pending surf (upd_attachment (fun a =>
            MkAtt s (transform a) (viewport_src a) (viewport_dst a) (buffer_uid a) (buffer_size a))))))
      | _ => Err surface_type
      end
  | _ => Panic
  end).

Definition transform_try_from (t : Z) : option WlOutputTransform :=
  match t with
  | 0 => Some Normal | 1 => Some Item90 | 2 => Some Item180 | 3 => Some Item270
  | 4 => Some Flipped | 5 => Some Flipped90 | 6 => Some Flipped180 | 7 => Some Flipped270
  | _ => None
  end.
Definition arm_set_buffer_transform (msg : bytes) (st : St) (object_id : Z) (obj : WpObject) :
  res (ProcMsg * St) :=
  check_space st (zlen msg) 0 (
  st ← copy_msg msg st;
  a ← parse_msg req_wl_surface_set_buffer_transform msg;
  match a with
  | [AInt t] =>
      match extra obj with
      | XSurface surf =>
          if t <? 0 then Err "Buffer transform value should be nonnegative" else
          match transform_try_from t with
          | None => Err "Not a valid transform type"
          | Some t =>
              Ok (Done, set_extra st object_id obj (XSurface (upd_pending surf (upd_attachment (fun a =>
                MkAtt (scale a) t (viewport_src a) (viewport_dst a) (buffer_uid a) (buffer_size a))))))
          end
      | _ => Err surface_type
      end
  | _ => Panic
  end).

(** [wl_surface.damage] and [wl_surface.damage_buffer] differ in the list they append to. *)
Definition arm_damage (m : Msg) (push : WlRect -> DamageBatch -> DamageBatch)
    (msg : bytes) (st : St) (object_id : Z) (obj : WpObject) : res (ProcMsg * St) :=
  check_space st (zlen msg) 0 (
  st ← copy_msg msg st;
  if on_display_side (glob st) then Ok (Done, st) else
  match extra obj with
  | XSurface surf =>
      a ← parse_msg m msg;
      match a with
      | [AInt x; AInt y; AInt w; AInt h] =>
          if (w <=? 0) || (h <=? 0) then Ok (Done, st) else
          Ok (Done, set_extra st object_id obj (XSurface (upd_pending surf (push (MkWl x y w h)))))
      | _ => Panic
      end
  | _ => Err surface_type
  end).
Definition push_damage (r : WlRect) (b : DamageBatch) : DamageBatch :=
  MkBatch (attachment b) (Geometry.damage b ++ [r]) (damage_buffer b).
Definition push_damage_buffer (r : WlRect) (b : DamageBatch) : DamageBatch :=
  MkBatch (attachment b) (Geometry.damage b) (damage_buffer b ++ [r]).

(** The buffer a surface has attached, if it is tracked as one. *)
Definition attached_buffer (g : Globals) (s : ObjWlSurface) : option ObjWlBuffer :=
  id ← attached_buffer_id s;
  o ← objects g !! id;
  match extra o with XBuffer b => Some b | _ => None end.

(** The file a commit from the channel has to wait for. With timelines the tasks of a DMABUF are
    not waited for: the last one signals the acquire point. *)
Definition commit_wait (st : St) (x : ObjWlSurface) (has_timelines : bool) : res (option Z) :=
  match from_channel st, attached_buffer (glob st) x with
  | true, Some b =>
      s ← get_sfd (glob st) (sfd b);
      apply_count ← match s with
                    | FileFd _ _ p => Ok p
                    | DmabufFd d => Ok (if has_timelines then 0 else dmabuf_pending d)
                    | _ => Err "Attached buffer is not of file or dmabuf type"
                    end;
      Ok (if 0 <? apply_count then Some (sfd b) else None)
  | _, _ => Ok None
  end.

Definition signal_timeline_acquires (g : Globals) (acquires : list (Z * Z)) : res unit :=
  foldM (fun _ acq =>
    s ← get_sfd g acq.2;
    match s with
    | TimelineFd t => signal_timeline_pt (semaphore t) acq.1
    | _ => Panic
    end) tt acquires.

(** Add the points of a commit to DMABUF [d]; a release point is also noted on its timeline. *)
Definition add_points (st : St) (rid : Z) (d : ShadowFdDmabuf) (acq rel : option (Z * Z)) :
  res (St * ShadowFdDmabuf) :=
  let acqs := acquires d ++ match acq with Some a => [a] | None => [] end in
  r ← match rel with
      | Some (pt, timeline) =>
          s ← get_sfd (glob st) timeline;
          match s with
          | TimelineFd t =>
              let t' := MkTimeline (timeline_rid t) (timeline_only_here t) (semaphore t)
                          (timeline_wayland_id t) (timeline_releases t ++ [(pt, rid)]) (timeline_export_fd t) in
              Ok (set_sfd st timeline (TimelineFd t'), <[(timeline_rid t, pt) := timeline]> (releases d))
          | _ => Panic
          end
      | None => Ok (st, releases d)
      end;
  Ok (r.1, MkDmabuf (dmabuf_rid d) (dmabuf_only_here d) (buf d) (mirror d) (drm_format d) (drm_modifier d)
             (dmabuf_damage d) (view_row_stride d) (first_damage d) (export_planes d) (using_implicit_sync d)
             acqs r.2 (dmabuf_pending d) (debug_wayland_id d) (video_decode d) (video_encode d)).
Definition set_acquires (d : ShadowFdDmabuf) (a : list (Z * Z)) : ShadowFdDmabuf :=
  MkDmabuf (dmabuf_rid d) (dmabuf_only_here d) (buf d) (mirror d) (drm_format d) (drm_modifier d)
    (dmabuf_damage d) (view_row_stride d) (first_damage d) (export_planes d) (using_implicit_sync d)
    a (releases d) (dmabuf_pending d) (debug_wayland_id d) (video_decode d) (video_encode d).
Definition set_dmabuf_damage (d : ShadowFdDmabuf) (dmg : Tasks.Damage) (implicit : bool) : ShadowFdDmabuf :=
  MkDmabuf (dmabuf_rid d) (dmabuf_only_here d) (buf d) (mirror d) (drm_format d) (drm_modifier d)
    dmg (view_row_stride d) (first_damage d) (export_planes d) implicit
    (acquires d) (releases d) (dmabuf_pending d) (debug_wayland_id d) (video_decode d) (video_encode d).

(** On the display side the changes received are made visible to the compositor. *)
Definition commit_display (st : St) (x : ObjWlSurface) : res St :=
  match attached_buffer (glob st) x with
  | Some b =>
      s ← get_sfd (glob st) (sfd b);
      match s with
      | DmabufFd y =>
          y ← dmabuf_post_apply_task_operations y;
          r ← add_points st (sfd b) y (acquire_pt x) (release_pt x);
          let '(st, y) := r in
          y ← (if dmabuf_pending y =? 0
               then signal_timeline_acquires (glob st) (acquires y);; Ok (set_acquires y [])
               else Ok y);
          Ok (set_sfd st (sfd b) (DmabufFd y))
      | _ => Ok st
      end
  | None => Ok st
  end.

(** The history and damage after committing DMABUF [y]. *)
Definition commit_dmabuf (y : ShadowFdDmabuf) (unique_id : Z) (damage_history : list DamageBatch) :
  res (list DamageBatch * Tasks.Damage) :=
  pending ← index damage_history 0;
  w ← ichk 32 (impl_size (buf y)).1;
  h ← ichk 32 (impl_size (buf y)).2;
  let a := attachment pending in
  let current := MkAtt (scale a) (transform a) (viewport_src a) (viewport_dst a) unique_id (w, h) in
  (if swrap 32 (scale current) =? 0 then Panic else Ok tt);;
  dmg ← match dmabuf_damage y with
        | Everything => Ok Everything
        | Intervals old =>
            dmg ← get_damage_for_dmabuf y damage_history current;
            u ← union_damage old dmg 128;
            Ok (Intervals u)
        end;
  Ok (rotate_history damage_history current, dmg).

(** On the application side the commit marks damage and moves the history on. *)
Definition commit_application (st : St) (x : ObjWlSurface) : res (list DamageBatch * St) :=
  match attached_buffer (glob st) x with
  | Some b =>
      s ← get_sfd (glob st) (sfd b);
      match s with
      | FileFd fd f pending =>
          match shm_info b with
          | None => Err "Expected shm info for wl_buffer with File-type ShadowFd"
          | Some info =>
              r ← commit_shm info (unique_id b) (damage_history x) (Tasks.damage f);
              let f := MkFile (remote_id f) (only_here f) (Tasks.buffer_size f) (remote_bufsize f)
                         (readonly f) r.2 (core f) in
              Ok (r.1, set_sfd st (sfd b) (FileFd fd f pending))
          end
      | DmabufFd y =>
          r ← commit_dmabuf y (unique_id b) (damage_history x);
          let implicit := match acquire_pt x with None => true | Some _ => using_implicit_sync y end in
          p ← add_points st (sfd b) (set_dmabuf_damage y r.2 implicit) (acquire_pt x) (release_pt x);
          Ok (r.1, set_sfd p.1 (sfd b) (DmabufFd p.2))
      | _ => Err "Expected buffer shadowfd to be of file type"
      end
  | None => h ← commit_none (damage_history x); Ok (h, st)
  end.

Definition is_some {A} (o : option A) : bool := match o with Some _ => true | None => false end.
Definition arm_commit (msg : bytes) (st : St) (object_id : Z) (obj : WpObject) : res (ProcMsg * St) :=
  check_space st (zlen msg) 0 (
  _ ← parse_msg req_wl_surface_commit msg;
  match extra obj with
  | XSurface x =>
      if negb (Bool.eqb (is_some (acquire_pt x)) (is_some (release_pt x)))
      then Err "Acquire/release points must both be set" else
      wait ← commit_wait st x (is_some (acquire_pt x) || is_some (release_pt x));
      match wait with
      | Some rid => Ok (WaitFor rid, st)
      | None =>
          st ← copy_msg msg st;
          r ← (if on_display_side (glob st)
               then st ← commit_display st x; Ok (damage_history x, st)
               else commit_application st x);
          Ok (Done, set_extra r.2 object_id obj
                      (XSurface (MkSurface (attached_buffer_id x) r.1 None None (viewport_id x))))
      end
  | _ => Err surface_type
  end).

Definition arm_get_viewport (msg : bytes) (st : St) : res (ProcMsg * St) :=
  check_space st (zlen msg) 0 (
  st ← copy_msg msg st;
  a ← parse_msg req_wp_viewporter_get_viewport msg;
  match a with
  | [AObj new_id; AObj surface] =>
      st ← insert_new_object st new_id (MkObject I.WpViewport (XViewport (Some surface)));
      Ok (Done, st)
  | _ => Panic
  end).

(** Change the pending state of the surface [o] of a viewport, if it is still tracked. *)
Definition upd_viewport_surface (st : St) (o : option Z) (f : ObjWlSurface -> ObjWlSurface) : res St :=
  match o with
  | Some surf_id =>
      match objects (glob st) !! surf_id with
      | Some object =>
          match extra object with
          | XSurface s => Ok (set_extra st surf_id object (XSurface (f s)))
          | _ => Err surface_type
          end
      | None => Ok st
      end
  | None => Ok st
  end.

Definition set_viewport (src : viewport_src_t) (dst : viewport_dst_t) (a : BufferAttachment) :
  BufferAttachment := MkAtt (scale a) (transform a) src dst (buffer_uid a) (buffer_size a).

Definition arm_viewport_destroy (msg : bytes) (st : St) (object_id : Z) (obj : WpObject) :
  res (ProcMsg * St) :=
  check_space st (zlen msg) 0 (
  st ← copy_msg msg st;
  match extra obj with
  | XViewport surf =>
      let st := set_extra st object_id obj (XViewport None) in
      st ← upd_viewport_surface st surf (fun s =>
             let s := upd_pending s (upd_attachment (set_viewport None None)) in
             MkSurface (attached_buffer_id s) (damage_history s) (acquire_pt s) (release_pt s) None);
      Ok (Done, st)
  | _ => Err viewport_type
  end).

Definition arm_set_destination (msg : bytes) (st : St) (obj : WpObject) : res (ProcMsg * St) :=
  check_space st (zlen msg) 0 (
  st ← copy_msg msg st;
  a ← parse_msg req_wp_viewport_set_destination msg;
  match a with
  | [AInt w; AInt h] =>
      destination ← (if (w =? -1) && (h =? -1) then Ok None
                     else if (w <=? 0) || (h <=? 0) then Err "invalid wp_viewport destination"
                     else Ok (Some (w, h)));
      match extra obj with
      | XViewport surf =>
          st ← upd_viewport_surface st surf (fun s => upd_pending s (upd_attachment (fun a =>
                 set_viewport (viewport_src a) destination a)));
          Ok (Done, st)
      | _ => Err viewport_type
      end
  | _ => Panic
  end).

Definition arm_set_source (msg : bytes) (st : St) (obj : WpObject) : res (ProcMsg * St) :=
  check_space st (zlen msg) 0 (
  st ← copy_msg msg st;
  a ← parse_msg req_wp_viewport_set_source msg;
  match a with
  | [AInt x; AInt y; AInt w; AInt h] =>
      source ← (if (x =? -256) && (y =? -256) && (w =? -256) && (h =? -256) then Ok None
                else if (x <? 0) || (y <? 0) || (w <=? 0) || (h <=? 0) then Err "invalid wp_viewport source"
                else Ok (Some (x, y, w, h)));
      match extra obj with
      | XViewport surf =>
          st ← upd_viewport_surface st surf (fun s => upd_pending s (upd_attachment (fun a =>
                 set_viewport source (viewport_dst a) a)));
          Ok (Done, st)
      | _ => Err viewport_type
      end
  | _ => Panic
  end).

(** *** Files sent whole, and data transfers *)
Definition arm_keymap (msg : bytes) (st : St) : res (ProcMsg * St) :=
  check_space st (zlen msg) 1 (
  a ← parse_msg evt_wl_keyboard_keymap msg;
  match a with
  | [AUint _; AUint keymap_size] => fixed_file msg st keymap_size
  | _ => Panic
  end).
Definition arm_icc_file (msg : bytes) (st : St) : res (ProcMsg * St) :=
  check_space st (zlen msg) 1 (
  a ← parse_msg evt_wp_image_description_info_v1_icc_file msg;
  match a with
  | [AUint file_size] => fixed_file msg st file_size
  | _ => Panic
  end).
Definition arm_set_icc_file (msg : bytes) (st : St) : res (ProcMsg * St) :=
  check_space st (zlen msg) 1 (
  a ← parse_msg req_wp_image_description_creator_icc_v1_set_icc_file msg;
  match a with
  | [AUint offset; AUint len] =>
      if len =? 0 then Err "File length for set_icc_file should not be zero" else
      match checked 32 (offset + len) with
      | None => Err "File offset+length overflow for set_icc_file"
      | Some file_sz => fixed_file msg st file_sz
      end
  | _ => Panic
  end).
Definition missing_state : string := "Object produced through unexpected method, missing associated state".
Definition arm_get_gamma_control (msg : bytes) (st : St) : res (ProcMsg * St) :=
  check_space st (zlen msg) 0 (
  a ← parse_msg req_zwlr_gamma_control_manager_v1_get_gamma_control msg;
  match a with
  | [AObj gamma; AObj _] =>
      st ← insert_new_object st gamma (MkObject I.ZwlrGammaControlV1 (XGammaControl None));
      st ← copy_msg msg st;
      Ok (Done, st)
  | _ => Panic
  end).
Definition arm_gamma_size (msg : bytes) (st : St) (object_id : Z) (obj : WpObject) : res (ProcMsg * St) :=
  check_space st (zlen msg) 0 (
  match extra obj with
  | XGammaControl _ =>
      a ← parse_msg evt_zwlr_gamma_control_v1_gamma_size msg;
      match a with
      | [AUint gamma_size] =>
          if u32_max / 6 <? gamma_size then Err "Gamma size too large (ramps would use >u32::MAX bytes)" else
          st ← copy_msg msg (set_extra st object_id obj (XGammaControl (Some gamma_size)));
          Ok (Done, st)
      | _ => Panic
      end
  | _ => Err missing_state
  end).
Definition arm_set_gamma (msg : bytes) (st : St) (obj : WpObject) : res (ProcMsg * St) :=
  check_space st (zlen msg) 1 (
  match extra obj with
  | XGammaControl None => Err "zwlr_gamma_control_v1::set_gamma called before gamma size provided"
  | XGammaControl (Some gamma_size) =>
      sz ← unwrap (checked 32 (gamma_size * 6));
      fixed_file msg st sz
  | _ => Err missing_state
  end).
Definition arm_transfer (msg : bytes) (st : St) : res (ProcMsg * St) :=
  check_space st (zlen msg) 1 (
  st' ← match transl st with
        | FromChannel [] _ => Err "Missing sfd"
        | FromChannel (rid :: x) y => Ok (with_transl st (FromChannel x (y ++ [rid])))
        | FromWayland [] _ => Err "Missing fd"
        | FromWayland (fd :: x) y =>
            v ← translate_pipe_fd (glob st) fd true;
            Ok (with_transl (with_glob st v.2) (FromWayland x (y ++ [v.1])))
        end;
  st' ← copy_msg_tag_fd msg st' (from_channel st);
  Ok (Done, st')).

(** *** Titles and icons *)
Definition arm_set_title (msg : bytes) (st : St) (object_id : Z) : res (ProcMsg * St) :=
  a ← parse_msg req_xdg_toplevel_set_title msg;
  match a with
  | [AString (Some title)] =>
      let concat := title_prefix (glob st) ++ title in
      space_needed ← length_msg req_xdg_toplevel_set_title [AString (Some concat)];
      check_space st space_needed 0 (
      w ← write_msg req_xdg_toplevel_set_title (dst st) object_id false [AString (Some concat)];
      Ok (Done, wrote st w))
  | _ => Panic
  end.
Definition arm_add_icon_buffer (msg : bytes) (st : St) : res (ProcMsg * St) :=
  check_space st (zlen msg) 0 (
  a ← parse_msg req_xdg_toplevel_icon_v1_add_buffer msg;
  match a with
  | [AObj buffer_id; AInt _] =>
      match objects (glob st) !! buffer_id with
      | None => Err "Provided buffer is null, was never created, or is not tracked"
      | Some o =>
          match extra o with
          | XBuffer b =>
              s ← get_sfd (glob st) (sfd b);
              if on_display_side (glob st) then
                match s with
                | FileFd _ _ p =>
                    if 0 <? p then Ok (WaitFor (sfd b), st) else st ← copy_msg msg st; Ok (Done, st)
                | _ => Err "Attached buffer shadowfd is not of file type"
                end
              else
                st ← copy_msg msg st;
                match s with
                | FileFd fd f pending =>
                    info ← unwrap (shm_info b);
                    i ← damage_for_entire_buffer info;
                    d ← match Tasks.damage f with
                        | Everything => Ok Everything
                        | Intervals old => u ← union_damage old [i] 128; Ok (Intervals u)
                        end;
                    let f := MkFile (remote_id f) (only_here f) (Tasks.buffer_size f) (remote_bufsize f)
                               (readonly f) d (core f) in
                    Ok (Done, set_sfd st (sfd b) (FileFd fd f pending))
                | _ => Err "Expected buffer shadowfd to be of file type"
                end
          | _ => Err "Expected wl_buffer object"
          end
      end
  | _ => Panic
  end).

(** *** Timestamps *)
Definition CLOCK_MONOTONIC : Z := 1.
Definition arm_presented (msg : bytes) (st : St) (object_id : Z) : res (ProcMsg * St) :=
  check_space st (zlen msg) 0 (
  a ← parse_msg evt_wp_presentation_feedback_presented msg;
  match a with
  | [AUint hi; AUint lo; AUint nsec; AUint refresh; AUint seq_hi; AUint seq_lo; AUint flags] =>
      t ← translate_timestamp clock_gettime hi lo nsec
            (default CLOCK_MONOTONIC (presentation_clock (glob st))) (on_display_side (glob st));
      let '(hi, lo, nsec) := t in
      w ← write_msg evt_wp_presentation_feedback_presented (dst st) object_id false
            [AUint hi; AUint lo; AUint nsec; AUint refresh; AUint seq_hi; AUint seq_lo; AUint flags];
      Ok (Done, wrote st w)
  | _ => Panic
  end).
Definition arm_clock_id (msg : bytes) (st : St) : res (ProcMsg * St) :=
  check_space st (zlen msg) 0 (
  a ← parse_msg evt_wp_presentation_clock_id msg;
  match a with
  | [AUint clock_id] =>
      let g := glob st in
      if match presentation_clock g with Some old => negb (clock_id =? old) | None => false end
      then Err "The wp_presentation clock was already set and cannot be changed" else
      st ← copy_msg msg (with_glob st (set_clock g clock_id));
      Ok (Done, st)
  | _ => Panic
  end).
Definition arm_set_timestamp (msg : bytes) (st : St) (object_id : Z) : res (ProcMsg * St) :=
  check_space st (zlen msg) 0 (
  a ← parse_msg req_wp_commit_timer_v1_set_timestamp msg;
  match a with
  | [AUint hi; AUint lo; AUint nsec] =>
      t ← translate_timestamp clock_gettime hi lo nsec
            (default CLOCK_MONOTONIC (presentation_clock (glob st))) (negb (on_display_side (glob st)));
      let '(hi, lo, nsec) := t in
      w ← write_msg req_wp_commit_timer_v1_set_timestamp (dst st) object_id false
            [AUint hi; AUint lo; AUint nsec];
      Ok (Done, wrote st w)
  | _ => Panic
  end).

(** *** Registry *)
Definition blacklist : list string :=
  ["wl_drm"; "wp_drm_lease_device_v1"; "zwlr_export_dmabuf_manager_v1";
   "zwp_linux_explicit_synchronization_v1"; "wp_security_context_manager_v1"].
Definition limited : list I.t :=
  [I.WlShm; I.ZwpLinuxDmabufV1; I.WpLinuxDrmSyncobjManagerV1; I.ExtImageCopyCaptureManagerV1;
   I.ZwlrScreencopyManagerV1; I.ZwlrExportDmabufManagerV1].
Definition DMABUF : string := "zwp_linux_dmabuf_v1".
Definition SYNCOBJ : string := "wp_linux_drm_syncobj_manager_v1".
(** The version advertised to the client: at most the version of the tables. *)
Definition limit_version (intf : string) (version : Z) : res Z :=
  match List.find (fun i => match intf_data i with Ok d => String.eqb (d_name d) intf | _ => false end) limited with
  | Some i => d ← intf_data i; Ok (Z.min version (Protocol.version d))
  | None => Ok version
  end.
Definition is_unavailable (d : DmabufDevice) : bool :=
  match d with Unavailable => true | _ => false end.
Definition replay_of (o : WpObject) : res (list (Z * Z)) :=
  match extra o with
  | XRegistry r => Ok r
  | _ => Err "Unexpected extra type for wl_registry"
  end.

(** The device for a [zwp_linux_dmabuf_v1] global, and whether to drop the event. *)
Definition dmabuf_global (g : Globals) : res (bool * Globals) :=
  d ← match dmabuf_device g with
      | Unknown =>
          if on_display_side g then Ok Unknown
          else
            dev ← chosen_device;
            d ← try_setup_dmabuf_instance_light dev;
            assert_ (match d with Unknown => false | _ => true end);; Ok d
      | d => Ok d
      end;
  Ok (is_unavailable d, set_device g d).
(** Whether to drop a [wp_linux_drm_syncobj_manager_v1] global; it is stored if it is not known. *)
Definition syncobj_global (st : St) (object_id name version : Z) (obj : WpObject) :
  res (bool * St * WpObject) :=
  match dmabuf_device (glob st) with
  | Unknown =>
      r ← replay_of obj;
      let obj := MkObject (obj_type obj) (XRegistry (r ++ [(name, version)])) in
      Ok (false, upd_objects st <[object_id := obj]>, obj)
  | Gbm | Unavailable => Ok (true, st, obj)
  | VulkanSetup =>
      dev ← chosen_device;
      Ok (negb (device_supports_timeline_import_export dev), st, obj)
  | Vulkan => Ok (negb supports_timeline_import_export, st, obj)
  end.

Definition write_global (object_id : Z) (dst : bytes) (name : Z) (intf : bytes) (version : Z) :
  res (bytes * bytes) :=
  write_msg evt_wl_registry_global dst object_id false [AUint name; AString (Some intf); AUint version].
Definition replay_one (object_id : Z) (intf : bytes) (st : St) (nv : Z * Z) : res St :=
  w ← write_global object_id (dst st) nv.1 intf nv.2; Ok (wrote st w).

Definition arm_registry_global (msg : bytes) (st : St) (object_id : Z) (obj : WpObject) :
  res (ProcMsg * St) :=
  a ← parse_msg evt_wl_registry_global msg;
  match a with
  | [AUint name; AString (Some intf_bytes); AUint version] =>
      let intf := name_of_bytes intf_bytes in
      version ← limit_version intf version;
      if existsb (String.eqb intf) blacklist then Ok (Done, st) else
      d ← (if String.eqb intf DMABUF then r ← dmabuf_global (glob st); Ok (r.1, with_glob st r.2)
           else Ok (false, st));
      if (d.1 : bool) then Ok (Done, d.2) else
      let st := d.2 in
      s ← (if String.eqb intf SYNCOBJ then syncobj_global st object_id name version obj
           else Ok (false, st, obj));
      let '(drop_it, st, obj) := s in
      if (drop_it : bool) then Ok (Done, st) else
      replay ← (if String.eqb intf DMABUF then replay_of obj else Ok []);
      one ← length_msg evt_wl_registry_global
              [AUint 0; AString (Some (String.list_byte_of_string SYNCOBJ)); AUint 0];
      space ← usize (zlen msg + one * zlen replay);
      check_space st space 0 (
      w ← write_global object_id (dst st) name intf_bytes version;
      let st := wrote st w in
      if String.eqb intf DMABUF then
        t ← match dmabuf_device (glob st) with
            | VulkanSetup => Ok true
            | Unknown => if on_display_side (glob st) then Ok true else Panic
            | Unavailable => Panic
            | Gbm => Ok false
            | Vulkan => Ok supports_timeline_import_export
            end;
        let st := upd_objects st <[object_id := MkObject (obj_type obj) (XRegistry [])]> in
        st ← (if (t : bool)
              then foldM (replay_one object_id (String.list_byte_of_string SYNCOBJ)) st replay
              else Ok st);
        Ok (Done, st)
      else Ok (Done, st))
  | _ => Panic
  end.

Definition arm_registry_bind (msg : bytes) (st : St) (meth : WaylandMethod) (is_req : bool)
    (object_id : Z) : res (ProcMsg * St) :=
  a ← parse_msg req_wl_registry_bind msg;
  match a with
  | [AUint _; AString (Some name); AUint version; AObj oid] =>
      if String.eqb (name_of_bytes name) DMABUF then
        let g := glob st in
        let light_setup := (4 <=? version) && on_display_side g in
        d ← match dmabuf_device g with
            | Unknown =>
                dev ← chosen_device;
                d ← (if light_setup then try_setup_dmabuf_instance_light dev
                     else try_setup_dmabuf_instance_full dev);
                assert_ (match d with Unknown => false | _ => true end);; Ok d
            | d => Ok d
            end;
        d ← match d with
            | VulkanSetup =>
                if light_setup then Ok d else dev ← chosen_device; complete_dmabuf_setup dev d
            | d => Ok d
            end;
        if is_unavailable d then Err "Failed to set up a device to handle DMABUFS" else
        let st := with_glob st (set_device g d) in
        check_space st (zlen msg) 0 (
        st ← copy_msg msg st;
        st ← insert_new_object st oid (MkObject I.ZwpLinuxDmabufV1 (XDmabuf ∅));
        Ok (Done, st))
      else default_proc_way_msg msg st meth is_req object_id
  | _ => Panic
  end.
End Arms.
