(* ===== verification/GpuArms.v ===== *)
(** * [src/tracking.rs]: the arms for DMABUFs, timelines and screen capture

    The display side restricts the formats a compositor offers to what its device supports; the
    application side offers what its own device supports instead. The events that describe
    formats are collected and written anew when the last one arrives. *)
From Stdlib Require Import ZArith Lia.
From stdpp Require Import gmap.
From S2P Require Import Prelude Util Damage Wire Protocol Formats Mirror Kernel Tasks Geometry Time.
From S2P Require Import TrackState Arms.
Local Open Scope Z_scope.
Import Util.Arith Kernel.Mapping.

(** ** Tables of formats *)
Fixpoint chunks_exact {A} (fuel n : nat) (l : list A) : list (list A) :=
  match fuel with
  | O => []
  | S fuel => if (length l <? n)%nat then [] else take n l :: chunks_exact fuel n (drop n l)
  end.
Definition parse_format_table (data : bytes) : list (Z * Z) :=
  List.map (fun chunk => (from_le (slice chunk 0 4), from_le (slice chunk 8 16)))
    (chunks_exact (length data) 16 data).
Definition parse_dev_array (arr : bytes) : option Z :=
  if zlen arr =? 4 then Some (from_le arr) else if zlen arr =? 8 then Some (from_le arr) else None.
Definition write_dev_array (dev : Z) : bytes := to_le 8 dev.

Definition add_advertised_modifiers (m : gmap Z (list Z)) (format : Z) (modifiers : list Z) : gmap Z (list Z) :=
  match modifiers with
  | [] => m
  | _ =>
      let entries := default [] (m !! format) in
      <[format := foldl (fun e x => if existsb (Z.eqb x) e then e else e ++ [x]) entries modifiers]> m
  end.

(** Ordered sets of pairs, as in [BTreeMap] and [sort_unstable] *)
Definition pair_lt (a b : Z * Z) : bool := (a.1 <? b.1) || ((a.1 =? b.1) && (a.2 <? b.2)).
Fixpoint insert_pair (dup : bool) (a : Z * Z) (l : list (Z * Z)) : list (Z * Z) :=
  match l with
  | [] => [a]
  | b :: l' =>
      if pair_lt a b then a :: l
      else if negb dup && negb (pair_lt b a) then l
      else b :: insert_pair dup a l'
  end.
Definition sort_pairs (l : list (Z * Z)) : list (Z * Z) := foldr (insert_pair true) [] l.
Definition index_pairs (l : list (Z * Z)) : list (Z * Z) := foldl (fun i f => insert_pair false f i) [] l.

Definition format_entry (f : Z * Z) : bytes := to_le 4 f.1 ++ to_le 4 0 ++ to_le 8 f.2.
Definition find_pair (index : list (Z * Z)) (f : Z * Z) : option nat :=
  position (fun g => (g.1 =? f.1) && (g.2 =? f.2)) index.
Definition tranche_indices (index : list (Z * Z)) (t : DmabufTranche) : res DmabufTranche :=
  ix ← foldM (fun acc f => i ← unwrap (find_pair index f); Ok (acc ++ to_le 2 (Z.of_nat i))) [] (values t);
  Ok (MkTranche (flags t) (values t) ix (device t)).
Fixpoint mapM_res {A B} (f : A -> res B) (l : list A) : res (list B) :=
  match l with
  | [] => Ok []
  | a :: l => b ← f a; bs ← mapM_res f l; Ok (b :: bs)
  end.

Definition set_tranches (f : ObjZwpLinuxDmabufFeedback) (t : list DmabufTranche) : ObjZwpLinuxDmabufFeedback :=
  MkFeedback (input_format_table f) (output_format_table f) (main_device f) t (current f) (processed f)
    (queued_format_table f).
Definition set_current (f : ObjZwpLinuxDmabufFeedback) (t : DmabufTranche) : ObjZwpLinuxDmabufFeedback :=
  MkFeedback (input_format_table f) (output_format_table f) (main_device f) (tranches f) t (processed f)
    (queued_format_table f).
Definition no_tranche : DmabufTranche := MkTranche 0 [] [] 0.

(** The new table, and the tranches with their indices into it. *)
Definition process_dmabuf_feedback (f : ObjZwpLinuxDmabufFeedback) :
  res (bytes * ObjZwpLinuxDmabufFeedback) :=
  let index := index_pairs (List.concat (List.map values (tranches f))) in
  if 65535 <? zlen index then Err "Format table is too large" else
  let table := List.concat (List.map format_entry index) in
  ts ← mapM_res (tranche_indices index) (tranches f);
  Ok (table, set_tranches f ts).

Section Arms.
Context `{Sys} `{Gpu} `{SortUnstable}.

Definition incorrect_extra : string := "Incorrect extra type".
Definition unexpected_extra : string := "Unexpected object extra type".
(** Write message [m] to the output. *)
Definition emit (m : Msg) (object_id : Z) (tag : bool) (args : list argument) (st : St) : res St :=
  w ← write_msg m (dst st) object_id tag args; Ok (wrote st w).
Definition length_fixed (m : Msg) : res Z := length_msg m [].

(** *** Timelines *)
Definition arm_get_syncobj_surface (msg : bytes) (st : St) : res (ProcMsg * St) :=
  check_space st (zlen msg) 0 (
  st ← copy_msg msg st;
  a ← parse_msg req_wp_linux_drm_syncobj_manager_v1_get_surface msg;
  match a with
  | [AObj new_id; AObj surf_id] =>
      st ← insert_new_object st new_id (MkObject I.WpLinuxDrmSyncobjSurfaceV1 (XSyncobjSurface surf_id));
      Ok (Done, st)
  | _ => Panic
  end).

Definition arm_import_timeline (msg : bytes) (st : St) : res (ProcMsg * St) :=
  check_space st (zlen msg) 1 (
  a ← parse_msg req_wp_linux_drm_syncobj_manager_v1_import_timeline msg;
  match a with
  | [AObj new_id] =>
      r ← match transl st with
          | FromChannel [] _ => Err "Missing sfd"
          | FromChannel (rid :: x) y =>
              s ← get_sfd (glob st) rid;
              match s with
              | TimelineFd t =>
                  let t := MkTimeline (timeline_rid t) (timeline_only_here t) (semaphore t) new_id
                             (timeline_releases t) (timeline_export_fd t) in
                  Ok (rid, with_transl (set_sfd st rid (TimelineFd t)) (FromChannel x (y ++ [rid])))
              | _ => Err "Expected timeline fd"
              end
          | FromWayland [] _ => Err "Missing fd"
          | FromWayland (fd :: x) y =>
              v ← translate_timeline (glob st) fd new_id;
              Ok (v.1, with_transl (with_glob st v.2) (FromWayland x (y ++ [v.1])))
          end;
      st' ← insert_new_object r.2 new_id (MkObject I.WpLinuxDrmSyncobjTimelineV1 (XTimeline r.1));
      st' ← copy_msg_tag_fd msg st' (from_channel st);
      Ok (Done, st')
  | _ => Panic
  end).

Definition arm_set_point (m : Msg) (acquire : bool) (msg : bytes) (st : St) (obj : WpObject) :
  res (ProcMsg * St) :=
  check_space st (zlen msg) 0 (
  a ← parse_msg m msg;
  match a with
  | [AObj timeline_id; AUint pt_hi; AUint pt_lo] =>
      let pt := join_u64 pt_hi pt_lo in
      match extra obj with
      | XSyncobjSurface surf_id =>
          match objects (glob st) !! timeline_id with
          | None => Err ""
          | Some to =>
              match extra to with
              | XTimeline rid =>
                  match objects (glob st) !! surf_id with
                  | None => Err ""
                  | Some so =>
                      match extra so with
                      | XSurface s =>
                          let s := MkSurface (attached_buffer_id s) (damage_history s)
                                     (if acquire then Some (pt, rid) else acquire_pt s)
                                     (if acquire then release_pt s else Some (pt, rid)) (viewport_id s) in
                          st ← copy_msg msg (set_extra st surf_id so (XSurface s));
                          Ok (Done, st)
                      | _ => Err "Incorrect extra type, expected surface"
                      end
                  end
              | _ => Err "Incorrect extra type, expected timeline"
              end
          end
      | _ => Err missing_state
      end
  | _ => Panic
  end).

(** *** Formats offered by a compositor *)
Definition arm_dmabuf_format (msg : bytes) (st : St) : res (ProcMsg * St) :=
  a ← parse_msg evt_zwp_linux_dmabuf_v1_format msg;
  match a with
  | [AUint format] =>
      keep ← match dmabuf_device (glob st) with
             | Unknown | Unavailable => Panic
             | VulkanSetup => Ok false
             | Vulkan => Ok (supports_format format 0)
             | Gbm => Ok (match gbm_supported_modifiers format with [] => false | _ => true end)
             end;
      if (keep : bool) then
        check_space st (zlen msg) 0 (st ← copy_msg msg st; Ok (Done, st))
      else Ok (Done, st)
  | _ => Panic
  end.

Definition advertise (format : Z) (mods : list Z) (st : St) : St :=
  let g := glob st in
  with_glob st (set_modifiers g (add_advertised_modifiers (advertised_modifiers g) format mods)
                  (screencopy_restrictions g)).
Definition write_modifier (object_id format : Z) (st : St) (new_mod : Z) : res St :=
  let '(hi, lo) := split_u64 new_mod in
  emit evt_zwp_linux_dmabuf_v1_modifier object_id false [AUint format; AUint hi; AUint lo] st.

Definition arm_dmabuf_modifier (msg : bytes) (st : St) (object_id : Z) (obj : WpObject) :
  res (ProcMsg * St) :=
  a ← parse_msg evt_zwp_linux_dmabuf_v1_modifier msg;
  match a with
  | [AUint format; AUint mod_hi; AUint mod_lo] =>
      let modifier := join_u64 mod_hi mod_lo in
      if on_display_side (glob st) then
        ok ← dmabuf_dev_supports_format (dmabuf_device (glob st)) format modifier;
        if negb ok then Ok (Done, st) else
        check_space st (zlen msg) 0 (
        st ← copy_msg msg (advertise format [modifier] st);
        Ok (Done, st))
      else
        match extra obj with
        | XDmabuf formats_seen =>
            if decide (format ∈ formats_seen) then Ok (Done, st) else
            let st := set_extra st object_id obj (XDmabuf ({[format]} ∪ formats_seen)) in
            mods ← dmabuf_dev_modifier_list (dmabuf_device (glob st)) format;
            one ← length_fixed evt_zwp_linux_dmabuf_v1_modifier;
            space ← usize (zlen mods * one);
            check_space st space 0 (
            st ← foldM (write_modifier object_id format) (advertise format mods st) mods;
            Ok (Done, st))
        | _ => Err missing_state
        end
  | _ => Panic
  end.

(** *** DMABUF parameters *)
Definition arm_create_params (msg : bytes) (st : St) : res (ProcMsg * St) :=
  check_space st (zlen msg) 0 (
  st ← copy_msg msg st;
  a ← parse_msg req_zwp_linux_dmabuf_v1_create_params msg;
  match a with
  | [AObj params_id] =>
      st ← insert_new_object st params_id (MkObject I.ZwpLinuxBufferParamsV1 (XParams (MkParams None [])));
      Ok (Done, st)
  | _ => Panic
  end).

Definition arm_params_add (msg : bytes) (st : St) (object_id : Z) (obj : WpObject) : res (ProcMsg * St) :=
  a ← parse_msg req_zwp_linux_buffer_params_v1_add msg;
  match a with
  | [AUint plane_idx; AUint offset; AUint stride; AUint hi; AUint lo] =>
      match extra obj with
      | XParams p =>
          match transl st with
          | FromChannel _ _ => Ok (Done, st)
          | FromWayland [] _ => Err "Missing fd"
          | FromWayland (fd :: x) y =>
              let p := MkParams (dmabuf p) (planes p ++ [MkPlane fd plane_idx offset stride (join_u64 hi lo)]) in
              Ok (Done, set_extra (with_transl st (FromWayland x y)) object_id obj (XParams p))
          end
      | _ => Err incorrect_extra
      end
  | _ => Panic
  end.

Definition write_plane (object_id : Z) (st : St) (p : AddDmabufPlane) : res St :=
  let '(hi, lo) := split_u64 (plane_modifier p) in
  emit req_zwp_linux_buffer_params_v1_add object_id false
    [AUint (plane_idx p); AUint (plane_offset p); AUint (plane_stride p); AUint hi; AUint lo] st.
Definition set_wayland_id (d : ShadowFdDmabuf) (id : Z) : ShadowFdDmabuf :=
  MkDmabuf (dmabuf_rid d) (dmabuf_only_here d) (buf d) (mirror d) (drm_format d) (drm_modifier d)
    (dmabuf_damage d) (view_row_stride d) (first_damage d) (export_planes d) (using_implicit_sync d)
    (acquires d) (releases d) (dmabuf_pending d) id (video_decode d) (video_encode d).
Definition params_length (nplanes : Z) : res Z :=
  add ← length_fixed req_zwp_linux_buffer_params_v1_add;
  create ← length_fixed req_zwp_linux_buffer_params_v1_create_immed;
  usize (add * nplanes + create).

(** [create] and [create_immed] with the DMABUF of the other side: its planes are added, as they
    are here. [k] goes on with the DMABUF. *)
Definition create_from_channel (msg : bytes) (st : St) (object_id : Z) (id : option Z) (x y : list Z)
    (k : Z -> St -> res (ProcMsg * St)) : res (ProcMsg * St) :=
  match x with
  | [] => Err "Missing sfd"
  | rid :: x =>
      s ← get_sfd (glob st) rid;
      match s with
      | DmabufFd d =>
          let st := match id with Some id => set_sfd st rid (DmabufFd (set_wayland_id d id)) | None => st end in
          len ← params_length (zlen (export_planes d));
          check_space st len (zlen (export_planes d)) (
          st ← foldM (write_plane object_id) st (export_planes d);
          st ← copy_msg msg st;
          k rid (with_transl st (FromChannel x (y ++ [rid]))))
      | _ => Err incorrect_extra
      end
  end.
(** The same with the planes of the application: one plane is announced, as if it were linear. *)
Definition create_from_wayland (m : Msg) (args : list argument) (st : St) (object_id : Z) (obj : WpObject)
    (p : ObjZwpLinuxDmabufParams) (width height drm_format id : Z) (x y : list Z)
    (k : Z -> St -> res (ProcMsg * St)) : res (ProcMsg * St) :=
  len ← params_length 1;
  check_space st len (zlen (planes p)) (
  let st := set_extra st object_id obj (XParams (MkParams (dmabuf p) [])) in
  v ← translate_dmabuf_fd (glob st) width height drm_format (planes p) id;
  let st := with_transl (with_glob st v.2) (FromWayland x (y ++ [v.1])) in
  layout ← unwrap (get_shm_format_layout (drm_to_wayland drm_format));
  p0 ← index layout 0;
  stride ← unwrap (checked 32 (bpt p0 * width));
  st ← emit req_zwp_linux_buffer_params_v1_add object_id true
         [AUint 0; AUint 0; AUint stride; AUint 0; AUint 0] st;
  st ← emit m object_id false args st;
  k v.1 st).

Definition new_buffer (rid buffer_id : Z) (st : St) : res (ProcMsg * St) :=
  let uid := max_buffer_uid (glob st) in
  st ← insert_new_object st buffer_id (MkObject I.WlBuffer (XBuffer (MkBuffer rid None uid)));
  uid ← u64 (uid + 1);
  Ok (Done, with_glob st (set_buffer_uid (glob st) uid)).

Definition arm_create_immed (msg : bytes) (st : St) (object_id : Z) (obj : WpObject) : res (ProcMsg * St) :=
  match extra obj with
  | XParams p =>
      a ← parse_msg req_zwp_linux_buffer_params_v1_create_immed msg;
      match a with
      | [AObj buffer_id; AInt width; AInt height; AUint drm_format; AUint flags] =>
          if (width <=? 0) || (height <=? 0) then Err "DMABUF width or height should be positive" else
          if negb (flags =? 0) then Err "DMABUF flags not yet supported" else
          match transl st with
          | FromChannel x y =>
              create_from_channel msg st object_id (Some buffer_id) x y (fun rid => new_buffer rid buffer_id)
          | FromWayland x y =>
              create_from_wayland req_zwp_linux_buffer_params_v1_create_immed a st object_id obj p
                width height drm_format buffer_id x y (fun rid => new_buffer rid buffer_id)
          end
      | _ => Panic
      end
  | _ => Err incorrect_extra
  end.

Definition arm_params_create (msg : bytes) (st : St) (object_id : Z) (obj : WpObject) : res (ProcMsg * St) :=
  match extra obj with
  | XParams p =>
      if is_some (dmabuf p) then Err "Can only create dmabuf from params once" else
      a ← parse_msg req_zwp_linux_buffer_params_v1_create msg;
      match a with
      | [AInt width; AInt height; AUint drm_format; AUint flags] =>
          if (width <=? 0) || (height <=? 0) then Err "DMABUF width or height should be positive" else
          match transl st with
          | FromChannel x y =>
              create_from_channel msg st object_id None x y (fun rid st =>
                Ok (Done, set_extra st object_id obj (XParams (MkParams (Some rid) (planes p)))))
          | FromWayland x y =>
              create_from_wayland req_zwp_linux_buffer_params_v1_create a st object_id obj p
                width height drm_format 0 x y (fun rid st =>
                Ok (Done, set_extra st object_id obj (XParams (MkParams (Some rid) []))))
          end
      | _ => Panic
      end
  | _ => Err incorrect_extra
  end.

Definition arm_params_failed (msg : bytes) (st : St) (object_id : Z) (obj : WpObject) : res (ProcMsg * St) :=
  check_space st (zlen msg) 0 (
  st ← copy_msg msg st;
  match extra obj with
  | XParams p => Ok (Done, set_extra st object_id obj (XParams (MkParams None (planes p))))
  | _ => Err incorrect_extra
  end).

Definition arm_params_created (msg : bytes) (st : St) (object_id : Z) (obj : WpObject) : res (ProcMsg * St) :=
  check_space st (zlen msg) 0 (
  st ← copy_msg msg st;
  a ← parse_msg evt_zwp_linux_buffer_params_v1_created msg;
  match a with
  | [AObj obj_id] =>
      match extra obj with
      | XParams p =>
          match dmabuf p with
          | None => Err "zwp_linux_buffer_params_v1::created event must follow ::create request and must occur at most once"
          | Some rid =>
              let st := set_extra st object_id obj (XParams (MkParams None (planes p))) in
              s ← get_sfd (glob st) rid;
              match s with
              | DmabufFd d => new_buffer rid obj_id (set_sfd st rid (DmabufFd (set_wayland_id d obj_id)))
              | _ => Err "Incorrect shadowfd type"
              end
          end
      | _ => Err incorrect_extra
      end
  | _ => Panic
  end).

(** *** DMABUF feedback *)
Definition new_feedback : ObjZwpLinuxDmabufFeedback := MkFeedback None None None [] no_tranche false None.
Definition arm_get_feedback (m : Msg) (msg : bytes) (st : St) : res (ProcMsg * St) :=
  check_space st (zlen msg) 0 (
  st ← copy_msg msg st;
  a ← parse_msg m msg;
  match a with
  | AObj feedback_id :: _ =>
      st ← insert_new_object st feedback_id (MkObject I.ZwpLinuxDmabufFeedbackV1 (XFeedback new_feedback));
      Ok (Done, st)
  | _ => Panic
  end).

(** The contents of the table of formats a compositor or the other side sent. *)
Definition load_table (st : St) (table_size : Z) : res (option ProcMsg * bytes * St) :=
  match transl st with
  | FromChannel [] _ => Err "Missing sfd"
  | FromChannel (rid :: x) y =>
      p ← file_has_pending_apply_tasks (glob st) rid;
      if (p : bool) then Ok (Some (WaitFor rid), [], st) else
      s ← get_sfd (glob st) rid;
      match s with
      | FileFd _ f _ =>
          if negb (table_size =? Tasks.buffer_size f) then Err "Wrong buffer size for format table" else
          c ← unwrap (core f);
          t ← copy_from_mapping (mapping c) 0 table_size;
          Ok (None, t, with_transl st (FromChannel x y))
      | _ => Err "Received non-File ShadowFd for format table"
      end
  | FromWayland [] _ => Err "Missing fd"
  | FromWayland (fd :: x) y =>
      m ← ExternalMapping_new mmap fd table_size true;
      t ← copy_from_mapping m 0 table_size;
      Ok (None, t, with_transl st (FromWayland x y))
  end.
Definition arm_format_table (msg : bytes) (st : St) (object_id : Z) (obj : WpObject) : res (ProcMsg * St) :=
  a ← parse_msg evt_zwp_linux_dmabuf_feedback_v1_format_table msg;
  match a with
  | [AUint table_size] =>
      match extra obj with
      | XFeedback f =>
          r ← load_table st table_size;
          let '(w, table_data, st) := r in
          match w with
          | Some wait => Ok (wait, st)
          | None =>
              Ok (Done, set_extra st object_id obj (XFeedback
                    (MkFeedback (Some (parse_format_table table_data)) (output_format_table f) (main_device f)
                       (tranches f) (current f) (processed f) (queued_format_table f))))
          end
      | _ => Err "Expected object to have dmabuf_feedback data"
      end
  | _ => Panic
  end.

Definition arm_main_device (msg : bytes) (st : St) (object_id : Z) (obj : WpObject) : res (ProcMsg * St) :=
  match extra obj with
  | XFeedback f =>
      a ← parse_msg evt_zwp_linux_dmabuf_feedback_v1_main_device msg;
      match a with
      | [AArray dev] =>
          match parse_dev_array dev with
          | None => Err "Unexpected size for dev_t"
          | Some d =>
              let st := set_extra st object_id obj (XFeedback
                    (MkFeedback (input_format_table f) (output_format_table f) (Some d) (tranches f)
                       (current f) (processed f) (queued_format_table f))) in
              if on_display_side (glob st) then
                dev' ← complete_dmabuf_setup (Some d) (dmabuf_device (glob st));
                Ok (Done, with_glob st (set_device (glob st) dev'))
              else Ok (Done, st)
          end
      | _ => Panic
      end
  | _ => Err unexpected_extra
  end.

Definition arm_tranche_flags (msg : bytes) (st : St) (object_id : Z) (obj : WpObject) : res (ProcMsg * St) :=
  match extra obj with
  | XFeedback f =>
      a ← parse_msg evt_zwp_linux_dmabuf_feedback_v1_tranche_flags msg;
      match a with
      | [AUint fl] =>
          let c := current f in
          Ok (Done, set_extra st object_id obj (XFeedback (set_current f
                (MkTranche fl (values c) (indices c) (device c)))))
      | _ => Panic
      end
  | _ => Err unexpected_extra
  end.
Definition arm_tranche_target_device (msg : bytes) (st : St) (object_id : Z) (obj : WpObject) :
  res (ProcMsg * St) :=
  match extra obj with
  | XFeedback f =>
      a ← parse_msg evt_zwp_linux_dmabuf_feedback_v1_tranche_target_device msg;
      match a with
      | [AArray dev] =>
          match parse_dev_array dev with
          | None => Err "Unexpected size for dev_t"
          | Some d =>
              let c := current f in
              Ok (Done, set_extra st object_id obj (XFeedback (set_current f
                    (MkTranche (flags c) (values c) (indices c) d))))
          end
      | _ => Panic
      end
  | _ => Err unexpected_extra
  end.

(** Look one index of a tranche up, and keep it unless the display's device does not support it. *)
Definition tranche_format (g : Globals) (table : list (Z * Z)) (acc : list (Z * Z)) (chunk : bytes) :
  res (list (Z * Z)) :=
  match table !! Z.to_nat (from_le chunk) with
  | None => Err "Tranche format index out of range for format table"
  | Some p =>
      ok ← (if on_display_side g then dmabuf_dev_supports_format (dmabuf_device g) p.1 p.2 else Ok true);
      Ok (if (ok : bool) then acc ++ [p] else acc)
  end.
Definition arm_tranche_formats (msg : bytes) (st : St) (object_id : Z) (obj : WpObject) :
  res (ProcMsg * St) :=
  match extra obj with
  | XFeedback f =>
      a ← parse_msg evt_zwp_linux_dmabuf_feedback_v1_tranche_formats msg;
      match a with
      | [AArray fmts] =>
          if negb (zlen fmts mod 2 =? 0) then Err "Format array not of even length" else
          if zlen fmts =? 0 then Ok (Done, st) else
          match input_format_table f with
          | None => Err "No format table provided before tranche_formats was received"
          | Some table =>
              let c := current f in
              vs ← foldM (tranche_format (glob st) table) (values c) (chunks_exact (length fmts) 2 fmts);
              Ok (Done, set_extra st object_id obj (XFeedback (set_current f
                    (MkTranche (flags c) vs (indices c) (device c)))))
          end
      | _ => Panic
      end
  | _ => Err unexpected_extra
  end.
Definition arm_tranche_done (msg : bytes) (st : St) (object_id : Z) (obj : WpObject) : res (ProcMsg * St) :=
  match extra obj with
  | XFeedback f =>
      Ok (Done, set_extra st object_id obj (XFeedback
            (set_current (set_tranches f (tranches f ++ [current f])) no_tranche)))
  | _ => Err unexpected_extra
  end.

(** One tranche of the application's device in place of one of the compositor's: the formats not
    yet taken, with all modifiers supported here. *)
Definition rebuild_tranche (dev : DmabufDevice) (main : Z) (remaining : gset Z) (t : DmabufTranche) :
  res (gset Z * DmabufTranche) :=
  r ← foldM (fun acc f =>
        if decide (f.1 ∈ acc.1) then
          mods ← dmabuf_dev_modifier_list dev f.1;
          Ok (acc.1 ∖ {[f.1]}, acc.2 ++ List.map (fun m => (f.1, m)) mods)
        else Ok acc) (remaining, []) (values t);
  Ok (r.1, MkTranche 0 r.2 [] main).
Definition rebuild_format_table (dev : DmabufDevice) (f : ObjZwpLinuxDmabufFeedback) :
  res ObjZwpLinuxDmabufFeedback :=
  main ← match tranches f with [] => Ok 0 | _ => unwrap (main_device f) end;
  let used := List.filter (fun t => device t =? main) (tranches f) in
  let remote_formats : gset Z := list_to_set (List.map fst (List.concat (List.map values used))) in
  r ← foldM (fun acc t =>
        n ← rebuild_tranche dev main acc.1 t;
        Ok (n.1, match values n.2 with [] => acc.2 | _ => acc.2 ++ [n.2] end)) (remote_formats, []) used;
  match r.2 with
  | [] => Err "Failed to build new format tranches: no formats with common support"
  | ts => Ok (set_tranches f ts)
  end.

(** The first time [done] is handled: the table is made, and a file for it if it changed. The
    second mapping of the file may fail too, and has what was written through the first. *)
Definition feedback_process (st : St) (f : ObjZwpLinuxDmabufFeedback) :
  res (St * ObjZwpLinuxDmabufFeedback) :=
  if processed f then Ok (st, f) else
  f ← (if on_display_side (glob st) then Ok f else rebuild_format_table (dmabuf_device (glob st)) f);
  r ← process_dmabuf_feedback f;
  let '(new_table, f) := r in
  if decide (output_format_table f = Some new_table) then
    Ok (st, MkFeedback (input_format_table f) (output_format_table f) (main_device f) (tranches f)
              (current f) true (queued_format_table f))
  else
    local_fd ← memfd_create;
    sz ← unwrap (checked 32 (zlen new_table));
    assert_ (0 <? sz);;
    ftruncate local_fd sz;;
    m ← ExternalMapping_new mmap local_fd sz false;
    m ← copy_onto_mapping new_table m 0;
    v ← translate_shm_fd (fun fd size private => mmap fd size private;; Ok m) (glob st) local_fd sz (on_display_side (glob st)) true
          (negb (on_display_side (glob st)));
    Ok (with_glob st v.2,
        MkFeedback (input_format_table f) (Some new_table) (main_device f) (tranches f) (current f) true
          (Some (v.1, sz))).

Definition feedback_space (f : ObjZwpLinuxDmabufFeedback) : res Z :=
  let dev := write_dev_array 0 in
  t ← (if is_some (queued_format_table f)
       then length_fixed evt_zwp_linux_dmabuf_feedback_v1_format_table else Ok 0);
  m ← length_msg evt_zwp_linux_dmabuf_feedback_v1_main_device [AArray dev];
  d ← length_fixed evt_zwp_linux_dmabuf_feedback_v1_done;
  s ← usize (t + m + d);
  foldM (fun s t =>
    a ← length_fixed evt_zwp_linux_dmabuf_feedback_v1_tranche_done;
    b ← length_fixed evt_zwp_linux_dmabuf_feedback_v1_tranche_flags;
    c ← length_msg evt_zwp_linux_dmabuf_feedback_v1_tranche_target_device [AArray dev];
    d ← length_msg evt_zwp_linux_dmabuf_feedback_v1_tranche_formats [AArray (indices t)];
    usize (s + (a + b + c + d))) s (tranches f).

Definition queue_sfd (t : TranslationInfo) (rid : Z) : TranslationInfo :=
  match t with
  | FromChannel x y => FromChannel x (y ++ [rid])
  | FromWayland x y => FromWayland x (y ++ [rid])
  end.
Definition send_table (object_id : Z) (f : ObjZwpLinuxDmabufFeedback) (st : St) : res St :=
  match queued_format_table f with
  | Some (rid, sz) =>
      st' ← emit evt_zwp_linux_dmabuf_feedback_v1_format_table object_id (negb (from_channel st)) [AUint sz] st;
      Ok (with_transl st' (queue_sfd (transl st') rid))
  | None => Ok st
  end.
Definition send_tranche (object_id dev_id : Z) (st : St) (t : DmabufTranche) : res St :=
  let st := foldl (fun st f => advertise f.1 [f.2] st) st (values t) in
  st ← emit evt_zwp_linux_dmabuf_feedback_v1_tranche_target_device object_id false
         [AArray (write_dev_array dev_id)] st;
  st ← emit evt_zwp_linux_dmabuf_feedback_v1_tranche_flags object_id false [AUint (flags t)] st;
  st ← emit evt_zwp_linux_dmabuf_feedback_v1_tranche_formats object_id false [AArray (indices t)] st;
  emit evt_zwp_linux_dmabuf_feedback_v1_tranche_done object_id false [] st.

Definition arm_feedback_done (msg : bytes) (st : St) (object_id : Z) (obj : WpObject) : res (ProcMsg * St) :=
  match extra obj with
  | XFeedback f =>
      r ← feedback_process st f;
      let '(st, f) := r in
      let st := set_extra st object_id obj (XFeedback f) in
      space ← feedback_space f;
      check_space st space (if is_some (queued_format_table f) then 1 else 0) (
      st ← send_table object_id f st;
      dev_id ← dmabuf_dev_get_id (dmabuf_device (glob st));
      st ← emit evt_zwp_linux_dmabuf_feedback_v1_main_device object_id false
             [AArray (write_dev_array dev_id)] st;
      st ← foldM (send_tranche object_id dev_id) st (tranches f);
      st ← emit evt_zwp_linux_dmabuf_feedback_v1_done object_id false [] st;
      Ok (Done, set_extra st object_id obj (XFeedback
            (MkFeedback (input_format_table f) (output_format_table f) (main_device f) [] no_tranche false None))))
  | _ => Err unexpected_extra
  end.

(** *** Screen capture *)
Definition new_session : ObjExtImageCopyCaptureSession := MkSession None [] [] [].
(** The messages that create a frame or a session: the new object is the first argument. *)
Definition arm_new_first (m : Msg) (t : I.t) (x : WpExtra) (msg : bytes) (st : St) : res (ProcMsg * St) :=
  check_space st (zlen msg) 0 (
  a ← parse_msg m msg;
  match a with
  | AObj id :: _ =>
      st ← insert_new_object st id (MkObject t x);
      st ← copy_msg msg st;
      Ok (Done, st)
  | _ => Panic
  end).
Definition arm_capture_output (msg : bytes) (st : St) : res (ProcMsg * St) :=
  arm_new_first req_zwlr_screencopy_manager_v1_capture_output I.ZwlrScreencopyFrameV1
    (XScreencopyFrame None) msg st.
Definition arm_capture_output_region (msg : bytes) (st : St) : res (ProcMsg * St) :=
  arm_new_first req_zwlr_screencopy_manager_v1_capture_output_region I.ZwlrScreencopyFrameV1
    (XScreencopyFrame None) msg st.
Definition arm_create_session (msg : bytes) (st : St) : res (ProcMsg * St) :=
  arm_new_first req_ext_image_copy_capture_manager_v1_create_session I.ExtImageCopyCaptureSessionV1
    (XSession new_session) msg st.
Definition arm_get_capture_session (msg : bytes) (st : St) : res (ProcMsg * St) :=
  arm_new_first req_ext_image_copy_capture_cursor_session_v1_get_capture_session
    I.ExtImageCopyCaptureSessionV1 (XSession new_session) msg st.

Definition arm_session_dmabuf_device (msg : bytes) (st : St) (object_id : Z) (obj : WpObject) :
  res (ProcMsg * St) :=
  check_space st (zlen msg) 0 (
  if no_gpu (glob st) then Ok (Done, st) else
  match extra obj with
  | XSession s =>
      a ← parse_msg evt_ext_image_copy_capture_session_v1_dmabuf_device msg;
      match a with
      | [AArray dev] =>
          match parse_dev_array dev with
          | None => Err "Unexpected size for dev_t"
          | Some d =>
              Ok (Done, set_extra st object_id obj (XSession
                    (MkSession (Some d) (dmabuf_formats s) (last_format_mod_list s) (frame_list s))))
          end
      | _ => Panic
      end
  | _ => Err missing_state
  end).
Definition arm_session_dmabuf_format (msg : bytes) (st : St) (object_id : Z) (obj : WpObject) :
  res (ProcMsg * St) :=
  check_space st (zlen msg) 0 (
  if no_gpu (glob st) then Ok (Done, st) else
  match extra obj with
  | XSession s =>
      a ← parse_msg evt_ext_image_copy_capture_session_v1_dmabuf_format msg;
      match a with
      | [AUint fmt; AArray modifiers] =>
          let mod_list := List.map from_le (chunks_exact (length modifiers) 8 modifiers) in
          match mod_list with
          | [] => Ok (Done, st)
          | _ =>
              Ok (Done, set_extra st object_id obj (XSession
                    (MkSession (session_device s) (dmabuf_formats s ++ [(fmt, mod_list)])
                       (last_format_mod_list s) (frame_list s))))
          end
      | _ => Panic
      end
  | _ => Err missing_state
  end).

(** The device for the formats of a session. *)
Definition session_setup (g : Globals) (main_device : Z) : res DmabufDevice :=
  let pick := if on_display_side g then Ok (Some main_device) else chosen_device in
  dev ← match dmabuf_device g with
        | Unknown => d ← pick; try_setup_dmabuf_instance_full d
        | VulkanSetup => d ← pick; complete_dmabuf_setup d VulkanSetup
        | d => Ok d
        end;
  if is_unavailable dev then Err "DMABUF device specified, but DMABUFs are not supported" else
  id ← dmabuf_dev_get_id dev;
  if on_display_side g && negb (main_device =? id)
  then Err "image copy device did not match existing device; multiple devices are not yet supported" else
  Ok dev.
(** The modifiers advertised for a format: those of the display both sides support, or all of ours. *)
Definition session_modifiers (display : bool) (dev : DmabufDevice) (f : Z * list Z) : res (list Z) :=
  if display then
    foldM (fun acc m => ok ← dmabuf_dev_supports_format dev f.1 m; Ok (if (ok : bool) then acc ++ [m] else acc))
      [] f.2
  else dmabuf_dev_modifier_list dev f.1.
Definition session_space (st : St) (s : ObjExtImageCopyCaptureSession) : res Z :=
  n ← length_fixed evt_ext_image_copy_capture_session_v1_done;
  match session_device s with
  | None => Ok n
  | Some _ =>
      id ← dmabuf_dev_get_id (dmabuf_device (glob st));
      d ← length_msg evt_ext_image_copy_capture_session_v1_dmabuf_device [AArray (write_dev_array id)];
      n ← usize (n + d);
      foldM (fun n f =>
        mods ← session_modifiers (on_display_side (glob st)) (dmabuf_device (glob st)) f;
        match mods with
        | [] => Ok n
        | _ =>
            l ← length_msg evt_ext_image_copy_capture_session_v1_dmabuf_format
                  [AUint f.1; AArray (List.concat (List.map (to_le 8) mods))];
            usize (n + l)
        end) n (dmabuf_formats s)
  end.
Definition session_format (object_id : Z) (st : St) (f : Z * list Z) : res St :=
  mods ← session_modifiers (on_display_side (glob st)) (dmabuf_device (glob st)) f;
  let st := advertise f.1 mods st in
  match mods with
  | [] => Ok st
  | _ => emit evt_ext_image_copy_capture_session_v1_dmabuf_format object_id false
           [AUint f.1; AArray (List.concat (List.map (to_le 8) mods))] st
  end.
Definition restrict_formats (st : St) (l : list (Z * list Z)) : St :=
  let g := glob st in
  with_glob st (set_modifiers g (advertised_modifiers g)
                  (foldl (fun m f => <[f.1 := f.2]> m) (screencopy_restrictions g) l)).

Definition arm_session_done (msg : bytes) (st : St) (object_id : Z) (obj : WpObject) : res (ProcMsg * St) :=
  match extra obj with
  | XSession s =>
      st ← match session_device s with
           | Some d => dev ← session_setup (glob st) d; Ok (with_glob st (set_device (glob st) dev))
           | None => Ok st
           end;
      space ← session_space st s;
      check_space st space 0 (
      r ← match session_device s with
          | Some _ =>
              id ← dmabuf_dev_get_id (dmabuf_device (glob st));
              st ← emit evt_ext_image_copy_capture_session_v1_dmabuf_device object_id false
                     [AArray (write_dev_array id)] st;
              st ← foldM (session_format object_id) st (dmabuf_formats s);
              let pairs := List.concat (List.map (fun f => List.map (fun m => (f.1, m)) f.2) (dmabuf_formats s)) in
              Ok (if on_display_side (glob st) then restrict_formats st (dmabuf_formats s) else st,
                  sort_pairs pairs)
          | None => Ok (st, [])
          end;
      st ← emit evt_ext_image_copy_capture_session_v1_done object_id false [] r.1;
      Ok (Done, set_extra st object_id obj (XSession (MkSession None [] r.2 (frame_list s)))))
  | _ => Err missing_state
  end.

Definition arm_create_frame (msg : bytes) (st : St) (object_id : Z) (obj : WpObject) : res (ProcMsg * St) :=
  check_space st (zlen msg) 0 (
  match extra obj with
  | XSession s =>
      a ← parse_msg req_ext_image_copy_capture_session_v1_create_frame msg;
      match a with
      | [AObj frame] =>
          st ← insert_new_object st frame (MkObject I.ExtImageCopyCaptureFrameV1
                 (XCaptureFrame (MkFrame None (Some object_id) (last_format_mod_list s))));
          st ← copy_msg msg st;
          Ok (Done, st)
      | _ => Panic
      end
  | _ => Err missing_state
  end).

Definition orphan_frame (mods : list (Z * Z)) (st : St) (frame_id : Z) : res St :=
  o ← unwrap (objects (glob st) !! frame_id);
  match extra o with
  | XCaptureFrame f => Ok (set_extra st frame_id o (XCaptureFrame (MkFrame (buffer f) None mods)))
  | _ => Err missing_state
  end.
Definition arm_session_destroy (msg : bytes) (st : St) (object_id : Z) (obj : WpObject) : res (ProcMsg * St) :=
  check_space st (zlen msg) 0 (
  st ← copy_msg msg st;
  match extra obj with
  | XSession s =>
      let st := set_extra st object_id obj (XSession
                  (MkSession (session_device s) (dmabuf_formats s) (last_format_mod_list s) [])) in
      st ← foldM (orphan_frame (last_format_mod_list s)) st (frame_list s);
      Ok (Done, st)
  | _ => Err missing_state
  end).

(** The buffer named by a capture request. *)
Definition target_buffer (g : Globals) (id : Z) : res (Z * option ObjWlBufferShm) :=
  if id =? 0 then Err "capture requires non-null object" else
  match objects g !! id with
  | None => Err "Failed to lookup buffer"
  | Some o =>
      match extra o with
      | XBuffer b => Ok (sfd b, shm_info b)
      | _ => Err "Expected wl_buffer object"
      end
  end.
Definition arm_screencopy_copy (m : Msg) (msg : bytes) (st : St) (object_id : Z) (obj : WpObject) :
  res (ProcMsg * St) :=
  check_space st (zlen msg) 0 (
  st ← copy_msg msg st;
  a ← parse_msg m msg;
  match a with
  | [AObj id] =>
      b ← target_buffer (glob st) id;
      match extra obj with
      | XScreencopyFrame _ => Ok (Done, set_extra st object_id obj (XScreencopyFrame (Some b)))
      | _ => Err missing_state
      end
  | _ => Panic
  end).
Definition arm_attach_buffer (msg : bytes) (st : St) (object_id : Z) (obj : WpObject) : res (ProcMsg * St) :=
  check_space st (zlen msg) 0 (
  st ← copy_msg msg st;
  a ← parse_msg req_ext_image_copy_capture_frame_v1_attach_buffer msg;
  match a with
  | [AObj id] =>
      b ← target_buffer (glob st) id;
      match extra obj with
      | XCaptureFrame f =>
          Ok (Done, set_extra st object_id obj (XCaptureFrame
                (MkFrame (Some b) (capture_session f) (supported_modifiers f))))
      | _ => Err missing_state
      end
  | _ => Panic
  end).

Definition arm_capture_frame_destroy (msg : bytes) (st : St) (object_id : Z) (obj : WpObject) :
  res (ProcMsg * St) :=
  check_space st (zlen msg) 0 (
  st ← copy_msg msg st;
  match extra obj with
  | XCaptureFrame f =>
      let st := set_extra st object_id obj (XCaptureFrame (MkFrame (buffer f) None (supported_modifiers f))) in
      match capture_session f with
      | None => Ok (Done, st)
      | Some session_id =>
          o ← unwrap (objects (glob st) !! session_id);
          match extra o with
          | XSession s =>
              let l := match position (Z.eqb object_id) (frame_list s) with
                       | Some i => take i (frame_list s) ++ drop (S i) (frame_list s)
                       | None => frame_list s
                       end in
              Ok (Done, set_extra st session_id o (XSession
                    (MkSession (session_device s) (dmabuf_formats s) (last_format_mod_list s) l)))
          | _ => Err missing_state
          end
      end
  | _ => Err missing_state
  end).

(** [capture] only warns about a modifier that is not supported, but looks the session up. *)
Definition arm_capture (msg : bytes) (st : St) (obj : WpObject) : res (ProcMsg * St) :=
  check_space st (zlen msg) 0 (
  st ← copy_msg msg st;
  if negb (on_display_side (glob st)) then Ok (Done, st) else
  match extra obj with
  | XCaptureFrame f =>
      is_dmabuf ← match buffer f with
                  | Some (rid, _) =>
                      s ← get_sfd (glob st) rid; Ok (match s with DmabufFd _ => true | _ => false end)
                  | None => Ok false
                  end;
      if negb is_dmabuf then Ok (Done, st) else
      match capture_session f with
      | Some session_id =>
          o ← unwrap (objects (glob st) !! session_id);
          match extra o with
          | XSession _ => Ok (Done, st)
          | _ => Err missing_state
          end
      | None => Ok (Done, st)
      end
  | _ => Err missing_state
  end).

(** A frame is ready: the application side waits for the contents of the buffer, the display side
    marks them as damaged. *)
Definition ready_wait (st : St) (rid : Z) : res (option Z) :=
  if on_display_side (glob st) then Ok None else
  s ← get_sfd (glob st) rid;
  apply_count ← match s with
                | FileFd _ _ p => Ok p
                | DmabufFd d => Ok (dmabuf_pending d)
                | _ => Err "Attached buffer is not of file or dmabuf type"
                end;
  Ok (if 0 <? apply_count then Some rid else None).
Definition ready_effect (st : St) (rid : Z) (shm : option ObjWlBufferShm) : res St :=
  s ← get_sfd (glob st) rid;
  if on_display_side (glob st) then
    match s with
    | FileFd fd f p =>
        info ← unwrap shm;
        i ← damage_for_entire_buffer info;
        d ← match Tasks.damage f with
            | Everything => Ok Everything
            | Intervals old => u ← union_damage old [i] 128; Ok (Intervals u)
            end;
        Ok (set_sfd st rid (FileFd fd (MkFile (remote_id f) (only_here f) (Tasks.buffer_size f)
              (remote_bufsize f) (readonly f) d (core f)) p))
    | DmabufFd d => Ok (set_sfd st rid (DmabufFd (set_dmabuf_damage d Everything true)))
    | _ => Err "Expected buffer shadowfd to be of file type"
    end
  else
    match s with
    | DmabufFd d => d ← dmabuf_post_apply_task_operations d; Ok (set_sfd st rid (DmabufFd d))
    | _ => Ok st
    end.

Definition arm_screencopy_ready (msg : bytes) (st : St) (object_id : Z) (obj : WpObject) :
  res (ProcMsg * St) :=
  check_space st (zlen msg) 0 (
  match extra obj with
  | XScreencopyFrame None => Err "zwlr_screencopy_frame_v1::ready is missing buffer information"
  | XScreencopyFrame (Some (rid, shm)) =>
      w ← ready_wait st rid;
      match w with
      | Some rid => Ok (WaitFor rid, st)
      | None =>
          a ← parse_msg evt_zwlr_screencopy_frame_v1_ready msg;
          match a with
          | [AUint hi; AUint lo; AUint nsec] =>
              t ← translate_timestamp clock_gettime hi lo nsec CLOCK_MONOTONIC (on_display_side (glob st));
              let '(hi, lo, nsec) := t in
              st ← emit evt_zwlr_screencopy_frame_v1_ready object_id false [AUint hi; AUint lo; AUint nsec] st;
              st ← ready_effect st rid shm;
              Ok (Done, set_extra st object_id obj (XScreencopyFrame None))
          | _ => Panic
          end
      end
  | _ => Err missing_state
  end).
Definition arm_presentation_time (msg : bytes) (st : St) (object_id : Z) : res (ProcMsg * St) :=
  check_space st (zlen msg) 0 (
  a ← parse_msg evt_ext_image_copy_capture_frame_v1_presentation_time msg;
  match a with
  | [AUint hi; AUint lo; AUint nsec] =>
      t ← translate_timestamp clock_gettime hi lo nsec CLOCK_MONOTONIC (on_display_side (glob st));
      let '(hi, lo, nsec) := t in
      st ← emit evt_ext_image_copy_capture_frame_v1_presentation_time object_id false
             [AUint hi; AUint lo; AUint nsec] st;
      Ok (Done, st)
  | _ => Panic
  end).
Definition arm_capture_ready (msg : bytes) (st : St) (object_id : Z) (obj : WpObject) : res (ProcMsg * St) :=
  check_space st (zlen msg) 0 (
  match extra obj with
  | XCaptureFrame f =>
      match buffer f with
      | None => Err "zwlr_screencopy_frame_v1::ready is missing buffer information"
      | Some (rid, shm) =>
          w ← ready_wait st rid;
          match w with
          | Some rid => Ok (WaitFor rid, st)
          | None =>
              st ← copy_msg msg st;
              st ← ready_effect st rid shm;
              Ok (Done, set_extra st object_id obj (XCaptureFrame
                    (MkFrame None (capture_session f) (supported_modifiers f))))
          end
      end
  | _ => Err missing_state
  end).
Definition arm_screencopy_failed (msg : bytes) (st : St) (object_id : Z) (obj : WpObject) :
  res (ProcMsg * St) :=
  check_space st (zlen msg) 0 (
  st ← copy_msg msg st;
  match extra obj with
  | XScreencopyFrame _ => Ok (Done, set_extra st object_id obj (XScreencopyFrame None))
  | _ => Err missing_state
  end).
Definition arm_capture_failed (msg : bytes) (st : St) (object_id : Z) (obj : WpObject) : res (ProcMsg * St) :=
  check_space st (zlen msg) 0 (
  st ← copy_msg msg st;
  match extra obj with
  | XCaptureFrame f =>
      Ok (Done, set_extra st object_id obj (XCaptureFrame
            (MkFrame None (capture_session f) (supported_modifiers f))))
  | _ => Err missing_state
  end).
End Arms.
