(* ===== verification/Tracking.v ===== *)
(** * [src/tracking.rs]: the processing of a message

    Each message is looked up by the object it is sent to; most are copied to the other side,
    after the objects they create have been recorded, and some are changed or have effects on
    files. [dispatch] is the match of [process_way_msg] on the interface and the opcode. *)
From Stdlib Require Import ZArith Lia.
From stdpp Require Import gmap.
From S2P Require Import Prelude Util Damage Wire Protocol Formats Mirror Kernel Tasks Geometry Time.
From S2P Require Import TrackState Arms GpuArms.
Local Open Scope Z_scope.
Import Util.Arith.

Section Process.
Context `{Sys} `{Gpu} `{SortUnstable}.

Definition is_msg (m : Msg) (t : I.t) (id : MethodId) : bool :=
  bool_decide (g_intf m = t) &&
  match g_id m, id with
  | Event a, Event b | Request a, Request b => a =? b
  | _, _ => false
  end.
Definition transfers : list Msg :=
  [evt_zwp_primary_selection_source_v1_send; req_zwp_primary_selection_offer_v1_receive;
   evt_gtk_primary_selection_source_send; req_gtk_primary_selection_offer_receive;
   evt_ext_data_control_source_v1_send; req_ext_data_control_offer_v1_receive;
   evt_zwlr_data_control_source_v1_send; req_zwlr_data_control_offer_v1_receive;
   evt_wl_data_source_send; req_wl_data_offer_receive].

(** Arms are tried in the order of the source; no two match the same message. *)
Definition dispatch (t : I.t) (id : MethodId) (meth : WaylandMethod) (is_req : bool)
    (msg : bytes) (st : St) (object_id : Z) (obj : WpObject) : res (ProcMsg * St) :=
  let this m := is_msg m t id in
  if this evt_wl_display_delete_id then arm_delete_id msg st else
  if this req_wl_display_get_registry then arm_get_registry msg st else
  if this evt_wl_callback_done then arm_callback_done msg st object_id else
  if this req_wl_shm_create_pool then arm_create_pool msg st else
  if this req_wl_shm_pool_create_buffer then arm_create_buffer msg st obj else
  if this req_wl_shm_pool_resize then arm_pool_resize msg st obj else
  if this req_wl_compositor_create_surface then arm_create_surface msg st else
  if this req_wl_surface_destroy then arm_surface_destroy msg st object_id obj else
  if this req_wl_surface_attach then arm_surface_attach msg st object_id obj else
  if this req_wl_surface_set_buffer_scale then arm_set_buffer_scale msg st object_id obj else
  if this req_wl_surface_set_buffer_transform then arm_set_buffer_transform msg st object_id obj else
  if this req_wl_surface_damage then
    arm_damage req_wl_surface_damage push_damage msg st object_id obj else
  if this req_wl_surface_damage_buffer then
    arm_damage req_wl_surface_damage_buffer push_damage_buffer msg st object_id obj else
  if this req_wl_surface_commit then arm_commit msg st object_id obj else
  if this req_wp_viewporter_get_viewport then arm_get_viewport msg st else
  if this req_wp_viewport_destroy then arm_viewport_destroy msg st object_id obj else
  if this req_wp_viewport_set_destination then arm_set_destination msg st obj else
  if this req_wp_viewport_set_source then arm_set_source msg st obj else
  if this req_wp_linux_drm_syncobj_manager_v1_get_surface then arm_get_syncobj_surface msg st else
  if this req_wp_linux_drm_syncobj_manager_v1_import_timeline then arm_import_timeline msg st else
  if this req_wp_linux_drm_syncobj_surface_v1_set_acquire_point then
    arm_set_point req_wp_linux_drm_syncobj_surface_v1_set_acquire_point true msg st obj else
  if this req_wp_linux_drm_syncobj_surface_v1_set_release_point then
    arm_set_point req_wp_linux_drm_syncobj_surface_v1_set_release_point false msg st obj else
  if this evt_zwp_linux_dmabuf_v1_format then arm_dmabuf_format msg st else
  if this evt_zwp_linux_dmabuf_v1_modifier then arm_dmabuf_modifier msg st object_id obj else
  if this req_zwp_linux_dmabuf_v1_create_params then arm_create_params msg st else
  if this req_zwp_linux_buffer_params_v1_add then arm_params_add msg st object_id obj else
  if this req_zwp_linux_buffer_params_v1_create_immed then arm_create_immed msg st object_id obj else
  if this req_zwp_linux_buffer_params_v1_create then arm_params_create msg st object_id obj else
  if this evt_zwp_linux_buffer_params_v1_failed then arm_params_failed msg st object_id obj else
  if this evt_zwp_linux_buffer_params_v1_created then arm_params_created msg st object_id obj else
  if this req_zwp_linux_dmabuf_v1_get_default_feedback then
    arm_get_feedback req_zwp_linux_dmabuf_v1_get_default_feedback msg st else
  if this req_zwp_linux_dmabuf_v1_get_surface_feedback then
    arm_get_feedback req_zwp_linux_dmabuf_v1_get_surface_feedback msg st else
  if this evt_zwp_linux_dmabuf_feedback_v1_format_table then arm_format_table msg st object_id obj else
  if this evt_zwp_linux_dmabuf_feedback_v1_main_device then arm_main_device msg st object_id obj else
  if this evt_zwp_linux_dmabuf_feedback_v1_tranche_flags then arm_tranche_flags msg st object_id obj else
  if this evt_zwp_linux_dmabuf_feedback_v1_tranche_target_device then
    arm_tranche_target_device msg st object_id obj else
  if this evt_zwp_linux_dmabuf_feedback_v1_tranche_formats then arm_tranche_formats msg st object_id obj else
  if this evt_zwp_linux_dmabuf_feedback_v1_tranche_done then arm_tranche_done msg st object_id obj else
  if this evt_zwp_linux_dmabuf_feedback_v1_done then arm_feedback_done msg st object_id obj else
  if this evt_wl_keyboard_keymap then arm_keymap msg st else
  if this evt_wp_image_description_info_v1_icc_file then arm_icc_file msg st else
  if this req_wp_image_description_creator_icc_v1_set_icc_file then arm_set_icc_file msg st else
  if this req_zwlr_gamma_control_manager_v1_get_gamma_control then arm_get_gamma_control msg st else
  if this evt_zwlr_gamma_control_v1_gamma_size then arm_gamma_size msg st object_id obj else
  if this req_zwlr_gamma_control_v1_set_gamma then arm_set_gamma msg st obj else
  if existsb this transfers then arm_transfer msg st else
  if this req_zwlr_screencopy_manager_v1_capture_output_region then arm_capture_output_region msg st else
  if this req_zwlr_screencopy_manager_v1_capture_output then arm_capture_output msg st else
  if this req_ext_image_copy_capture_manager_v1_create_session then arm_create_session msg st else
  if this req_ext_image_copy_capture_cursor_session_v1_get_capture_session then
    arm_get_capture_session msg st else
  if this evt_ext_image_copy_capture_session_v1_dmabuf_device then
    arm_session_dmabuf_device msg st object_id obj else
  if this evt_ext_image_copy_capture_session_v1_dmabuf_format then
    arm_session_dmabuf_format msg st object_id obj else
  if this evt_ext_image_copy_capture_session_v1_done then arm_session_done msg st object_id obj else
  if this req_ext_image_copy_capture_session_v1_create_frame then arm_create_frame msg st object_id obj else
  if this req_ext_image_copy_capture_session_v1_destroy then arm_session_destroy msg st object_id obj else
  if this req_zwlr_screencopy_frame_v1_copy then
    arm_screencopy_copy req_zwlr_screencopy_frame_v1_copy msg st object_id obj else
  if this req_zwlr_screencopy_frame_v1_copy_with_damage then
    arm_screencopy_copy req_zwlr_screencopy_frame_v1_copy_with_damage msg st object_id obj else
  if this req_ext_image_copy_capture_frame_v1_destroy then arm_capture_frame_destroy msg st object_id obj else
  if this req_ext_image_copy_capture_frame_v1_attach_buffer then arm_attach_buffer msg st object_id obj else
  if this req_ext_image_copy_capture_frame_v1_capture then arm_capture msg st obj else
  if this evt_zwlr_screencopy_frame_v1_ready then arm_screencopy_ready msg st object_id obj else
  if this evt_ext_image_copy_capture_frame_v1_presentation_time then arm_presentation_time msg st object_id else
  if this evt_ext_image_copy_capture_frame_v1_ready then arm_capture_ready msg st object_id obj else
  if this evt_zwlr_screencopy_frame_v1_failed then arm_screencopy_failed msg st object_id obj else
  if this evt_ext_image_copy_capture_frame_v1_failed then arm_capture_failed msg st object_id obj else
  if this req_xdg_toplevel_set_title then arm_set_title msg st object_id else
  if this req_xdg_toplevel_icon_v1_add_buffer then arm_add_icon_buffer msg st else
  if this evt_wp_presentation_feedback_presented then arm_presented msg st object_id else
  if this evt_wp_presentation_clock_id then arm_clock_id msg st else
  if this req_wp_commit_timer_v1_set_timestamp then arm_set_timestamp msg st object_id else
  if this evt_wl_registry_global then arm_registry_global msg st object_id obj else
  if this req_wl_registry_bind then arm_registry_bind msg st meth is_req object_id else
  default_proc_way_msg msg st meth is_req object_id.

Definition process_way_msg (msg : bytes) (st : St) : res (ProcMsg * St) :=
  a ← get_range msg 0 4;
  b ← get_range msg 4 8;
  let object_id := from_le a in
  let header2 := from_le b in
  assert_ (zlen msg =? Z.shiftr header2 16);;
  let opcode := Z.land header2 (Z.shiftl 1 11 - 1) in
  let is_req := Bool.eqb (on_display_side (glob st)) (from_channel st) in
  match objects (glob st) !! object_id with
  | None => proc_unknown_way_msg msg st
  | Some obj =>
      d ← intf_data (obj_type obj);
      match lookup_method d (if is_req then Request opcode else Event opcode) with
      | None => proc_unknown_way_msg msg st
      | Some meth =>
          assert_ (opcode <=? 255);;
          usize (remaining_space st).2;;
          dispatch (obj_type obj) (if is_req then Request opcode else Event opcode) meth is_req
            msg st object_id obj
      end
  end.
End Process.
