(* ===== verification/TrackingCorrect.v ===== *)
(** * Messages are forwarded *)
From Stdlib Require Import ZArith Lia.
From stdpp Require Import gmap.
From S2P Require Import Prelude Util Damage Wire Protocol ProtocolCorrect Formats Mirror Tasks.
From S2P Require Import Kernel Geometry GeometryCorrect Time TrackState Arms GpuArms Tracking.
Local Open Scope Z_scope.
Import Util.Arith.

(** ** Results that hold of every branch of a computation

    [post P r]: if [r] returns, its result satisfies [P]. *)
Definition post {A} (P : A -> Prop) (r : res A) : Prop :=
  match r with Ok a => P a | _ => True end.
Lemma post_bind {A B} (P : B -> Prop) (m : res A) (k : A -> res B) :
  (forall a, m = Ok a -> post P (k a)) -> post P (m ≫= k).
Proof. intros Hk. destruct m; cbn; auto. Qed.
Lemma post_Ok {A} (P : A -> Prop) a : P a -> post P (Ok a).
Proof. done. Qed.
Lemma post_use {A} (P : A -> Prop) r a : post P r -> r = Ok a -> P a.
Proof. by intros Hp ->. Qed.
Lemma post_check P st n f k :
  (space_le (n, f) (remaining_space st) = false -> P (NeedsSpace (n, f), st)) ->
  (space_le (n, f) (remaining_space st) = true -> post P k) -> post P (check_space st n f k).
Proof. intros H1 H2. unfold check_space. destruct (space_le _ _) eqn:E; [by apply H2|by apply H1]. Qed.

(** Step through the branches of an arm. *)
Ltac branch := repeat first
  [ progress intros
  | match goal with
    | |- post _ (check_space _ _ _ _) => apply post_check
    | |- post _ (_ ≫= _) => apply post_bind
    | |- post _ (Ok _) => apply post_Ok
    | |- post _ (Err _) => exact I
    | |- post _ Panic => exact I
    | |- post _ (if ?b then _ else _) => let E := fresh "E" in destruct b eqn:E
    | |- post _ (match ?b with _ => _ end) => let E := fresh "E" in destruct b eqn:E
    end ].

(** ** Files looked up *)
(** Tasks left to apply to a file. *)
Definition tasks_left (s : ShadowFd) : Z :=
  match s with FileFd _ _ p => p | DmabufFd d => dmabuf_pending d | _ => 0 end.
Lemma get_sfd_Ok g rid s : get_sfd g rid = Ok s <-> map g !! rid = Some s.
Proof. unfold get_sfd. destruct (map g !! rid); cbn; naive_solver. Qed.
Lemma pending_found g rid : file_has_pending_apply_tasks g rid = Ok true ->
  exists s, map g !! rid = Some s /\ 0 < tasks_left s.
Proof.
  unfold file_has_pending_apply_tasks, get_sfd. destruct (map g !! rid) as [s|]; [|done]. cbn.
  destruct s; try done. intros [= E]. eexists; split; [done|]. cbn. lia.
Qed.
Lemma first_pending_found g l rid : first_pending g l = Ok (Some rid) ->
  exists s, map g !! rid = Some s /\ 0 < tasks_left s.
Proof.
  induction l as [|r l IH]; cbn [first_pending]; [done|]. unfold get_sfd.
  destruct (map g !! r) as [s|] eqn:E; [|done]. cbn. destruct (0 <? pending_of s) eqn:Ep; [|done].
  intros [= <-]. exists s. split; [done|]. destruct s; cbn in *; lia.
Qed.

(** ** Forwarding *)
(** [w] is [msg] up to the tag bits of the header. *)
Definition same_msg (w msg : bytes) : Prop :=
  zlen w = zlen msg /\ take 4 w = take 4 msg /\ drop 8 w = drop 8 msg /\
  clear_bits (from_le (slice w 4 8)) 65280 = clear_bits (from_le (slice msg 4 8)) 65280.
Lemma same_msg_refl msg : same_msg msg msg.
Proof. done. Qed.

Lemma put_Ok (d src : bytes) w : put d src = Ok w -> w = (src, drop (length src) d).
Proof.
  destruct (Z.le_gt_cases (zlen src) (zlen d)) as [Hle|Hgt].
  - rewrite put_ok by done. by intros [= <-].
  - unfold put, set_range, range_ok. pose proof (zlen_nonneg src).
    rewrite (proj2 (Z.leb_gt (zlen src) (zlen d))) by lia. rewrite andb_false_r. done.
Qed.
Lemma copy_msg_Ok msg st st' : copy_msg msg st = Ok st' ->
  st' = wrote st (msg, drop (length msg) (dst st)).
Proof. by intros (w & ->%put_Ok & [= <-])%bind_Ok. Qed.
Lemma insert_new_object_Ok st id o st' : insert_new_object st id o = Ok st' ->
  objects (glob st) !! id = None /\ st' = upd_objects st <[id := o]>.
Proof. unfold insert_new_object. destruct (_ !! id); [done|]. by intros [= <-]. Qed.

(** Replacing the second header word. *)
Lemma msg_parts (msg : bytes) : 8 <= zlen msg ->
  msg = slice msg 0 4 ++ slice msg 4 8 ++ drop 8 msg /\ zlen (slice msg 0 4) = 4 /\ zlen (slice msg 4 8) = 4.
Proof.
  intros Hl. rewrite !zlen_slice by lia. split; [|lia].
  change (slice msg 0 4) with (take 4 msg). change (slice msg 4 8) with (take 4 (drop 4 msg)).
  rewrite <- (take_drop 4 msg) at 1. f_equal. rewrite <- (take_drop 4 (drop 4 msg)) at 1. by rewrite drop_drop.
Qed.
Lemma word_replaced (msg w : bytes) : 8 <= zlen msg -> zlen w = 4 ->
  splice msg 4 w = slice msg 0 4 ++ w ++ drop 8 msg /\ slice (splice msg 4 w) 4 8 = w.
Proof.
  intros Hl Hw. destruct (msg_parts msg Hl) as (Hm & Ha & Hb).
  assert (Hs : splice msg 4 w = slice msg 0 4 ++ w ++ drop 8 msg).
  { rewrite Hm at 1. by rewrite splice_mid by lia. }
  split; [done|]. rewrite Hs. by rewrite slice_app_mid by lia.
Qed.
Lemma header_word_same msg (f : Z -> Z) : 8 <= zlen msg ->
  (forall h, uN 32 h -> uN 32 (f h) /\ clear_bits (f h) 65280 = clear_bits h 65280) ->
  same_msg (splice msg 4 (to_le 4 (f (from_le (slice msg 4 8))))) msg.
Proof.
  intros Hl Hf. set (h := from_le (slice msg 4 8)).
  assert (Hh : uN 32 h) by (apply from_le_u32; rewrite zlen_slice; lia).
  destruct (Hf h Hh) as [Hu Hc].
  assert (Hz : zlen (to_le 4 (f h)) = 4) by apply zlen_to_le4.
  destruct (word_replaced msg _ Hl Hz) as [Hs Hw]. destruct (msg_parts msg Hl) as (_ & Ha & _).
  unfold same_msg. rewrite Hw, from_to_le4 by done. rewrite zlen_splice by lia. rewrite Hs. split_and!; try done.
  - change (slice msg 0 4) with (take 4 msg). rewrite take_app_le by (rewrite length_take; unfold zlen in *; lia).
    rewrite take_take. done.
  - rewrite app_assoc. apply drop_app_length'. rewrite length_app. unfold zlen in *. lia.
Qed.

Lemma clear_u32 h m : uN 32 h -> uN 32 (clear_bits h m).
Proof.
  unfold uN, clear_bits. intros Hh. rewrite <- (Z.mod_small h (2 ^ 32)) by lia.
  rewrite <- Z.land_ones by lia. rewrite <- Z.land_assoc, (Z.land_comm (Z.ones 32)), Z.land_assoc.
  rewrite Z.land_ones by lia. apply Z.mod_pos_bound. lia.
Qed.
Lemma clear_mask_idem h m : clear_bits (clear_bits h m) m = clear_bits h m.
Proof. unfold clear_bits. by rewrite <- Z.land_assoc, Z.land_diag. Qed.
Lemma clear_mask_sub h m m' : Z.land (Z.lxor (2 ^ 32 - 1) m) (Z.lxor (2 ^ 32 - 1) m') = Z.lxor (2 ^ 32 - 1) m' ->
  clear_bits (clear_bits h m) m' = clear_bits h m'.
Proof. intros Hm. unfold clear_bits. by rewrite <- Z.land_assoc, Hm. Qed.
Lemma u32_lor a b : uN 32 a -> uN 32 b -> uN 32 (Z.lor a b).
Proof.
  unfold uN. intros Ha Hb. rewrite <- (Z.mod_small a (2 ^ 32)), <- (Z.mod_small b (2 ^ 32)) by lia.
  rewrite <- !Z.land_ones, <- Z.land_lor_distr_l, Z.land_ones by lia. apply Z.mod_pos_bound. lia.
Qed.
Lemma tag_u32 h : uN 32 h -> uN 32 (Z.lor (clear_bits h 65280) (Z.shiftl 1 11)).
Proof. intros Hh. apply u32_lor; [by apply clear_u32|]. by split. Qed.
Lemma tag_same h : clear_bits (Z.lor (clear_bits h 65280) (Z.shiftl 1 11)) 65280 = clear_bits h 65280.
Proof.
  unfold clear_bits at 1. rewrite Z.land_lor_distr_l.
  change (Z.land (clear_bits h 65280) (Z.lxor (2 ^ 32 - 1) 65280)) with (clear_bits (clear_bits h 65280) 65280).
  rewrite clear_mask_idem. by rewrite (Z.lor_0_r).
Qed.

Lemma edit_header_Ok msg f m : edit_header msg f = Ok m ->
  8 <= zlen msg /\ m = splice msg 4 (to_le 4 (f (from_le (slice msg 4 8)))).
Proof.
  unfold edit_header. intros (h & (_ & ? & ->)%get_range_Ok & (_ & _ & _ & ->)%set_range_Ok)%bind_Ok.
  split; [lia|done].
Qed.
Lemma splice_app_l {A} (l1 l2 src : list A) a : 0 <= a -> a + zlen src <= zlen l1 ->
  splice (l1 ++ l2) a src = splice l1 a src ++ l2.
Proof.
  unfold splice, zlen. intros. rewrite take_app_le, drop_app_le by lia. by rewrite !app_assoc.
Qed.
(** What [copy_msg_tag_fd] writes. *)
Definition tagged (msg : bytes) (fc : bool) : bytes :=
  splice msg 4 (to_le 4 (let h := from_le (slice msg 4 8) in
    if fc then clear_bits h 65280 else Z.lor (clear_bits h 65280) (Z.shiftl 1 11))).
Lemma tagged_same msg fc : 8 <= zlen msg -> same_msg (tagged msg fc) msg.
Proof.
  intros Hl. unfold tagged. destruct fc.
  - apply (header_word_same msg (fun h => clear_bits h 65280)); [done|]. intros h Hh.
    split; [by apply clear_u32|apply clear_mask_idem].
  - apply (header_word_same msg (fun h => Z.lor (clear_bits h 65280) (Z.shiftl 1 11))); [done|].
    intros h Hh. split; [by apply tag_u32|apply tag_same].
Qed.
Lemma copy_msg_tag_fd_ok msg st fc : 8 <= zlen msg -> zlen msg <= zlen (dst st) ->
  (fc = true -> Z.land (from_le (slice msg 4 8)) (Z.shiftl 1 11) <> 0) ->
  copy_msg_tag_fd msg st fc = Ok (wrote st (tagged msg fc, drop (length msg) (dst st))).
Proof.
  intros Hl Hd Hf. unfold copy_msg_tag_fd. rewrite set_range_ok by lia. cbn [mbind res_bind].
  assert (Hs : splice (dst st) 0 msg = msg ++ drop (length msg) (dst st)).
  { unfold splice. by rewrite take_0. }
  rewrite Hs. rewrite (get_range_ok _ 4 8) by (rewrite ?zlen_app; zlia). cbn [mbind res_bind].
  rewrite slice_app_l by lia. replace (fc && _) with false by (destruct fc; [specialize (Hf eq_refl)|]; lia).
  pose proof (zlen_nonneg (drop (length msg) (dst st))).
  rewrite (set_range_ok _ 4 8) by (rewrite ?zlen_app, ?zlen_to_le4; lia). cbn [mbind res_bind].
  rewrite splice_app_l by (rewrite ?zlen_to_le4; lia). fold (tagged msg fc).
  destruct (tagged_same msg fc Hl) as [Hz _]. rewrite <- Hz.
  rewrite get_range_ok by (rewrite ?zlen_app; lia). cbn [mbind res_bind].
  rewrite slice_app_l, slice_all by lia. rewrite get_from_ok by (rewrite zlen_app; lia). cbn [mbind res_bind].
  rewrite drop_app_length'; [done|]. unfold zlen in *. lia.
Qed.
Lemma copy_msg_tag_fd_Ok msg st fc st' : 8 <= zlen msg -> copy_msg_tag_fd msg st fc = Ok st' ->
  st' = wrote st (tagged msg fc, drop (length msg) (dst st)).
Proof.
  intros Hl E. pose proof E as E'. unfold copy_msg_tag_fd in E'.
  apply bind_Ok in E' as (d & (_ & ? & _ & ->)%set_range_Ok & E').
  apply bind_Ok in E' as (hb & (_ & _ & ->)%get_range_Ok & E'). cbv zeta in E'.
  rewrite splice_slices, Z.add_0_l in E' by lia. change (slice (dst st) 0 0) with (@nil byte) in E'.
  cbn [app] in E'. rewrite slice_app_l in E' by lia. destruct (fc && _) eqn:Ef; [done|].
  rewrite copy_msg_tag_fd_ok in E; [congruence|done|lia|]. intros ->. cbn [andb] in Ef. lia.
Qed.

(** Tagging for the channel and untagging on the other side give the message back. *)
Lemma tag_untag msg : 8 <= zlen msg -> clear_bits (from_le (slice msg 4 8)) 65280 = from_le (slice msg 4 8) ->
  tagged (tagged msg false) true = msg /\ Z.land (from_le (slice (tagged msg false) 4 8)) (Z.shiftl 1 11) <> 0.
Proof.
  intros Hl Hc. destruct (tagged_same msg false Hl) as [Hz _]. destruct (msg_parts msg Hl) as (Hm & Ha & Hb).
  unfold tagged at 1 3. cbv zeta. set (h := from_le (slice msg 4 8)) in *.
  assert (Hh : uN 32 h) by (apply from_le_u32; lia).
  assert (Ht : tagged msg false = splice msg 4 (to_le 4 (Z.lor (clear_bits h 65280) (Z.shiftl 1 11)))) by done.
  destruct (word_replaced msg (to_le 4 (Z.lor (clear_bits h 65280) (Z.shiftl 1 11))) Hl (zlen_to_le4 _)) as [Hs Hw].
  fold h. rewrite <- Ht in Hs, Hw |- *. rewrite Hw, from_to_le4 by (by apply tag_u32). split.
  - rewrite tag_same, Hc. rewrite Hs, splice_mid by (rewrite ?zlen_to_le4; lia).
    unfold h. rewrite (to_from_le 4) by lia. by symmetry.
  - rewrite Z.land_lor_distr_l, Z.lor_eq_0_iff. by intros [_ ?].
Qed.

(** Descriptors leave the queue they are in from the front, and join the other at the end. *)
Definition fds_moved (t t' : TranslationInfo) : Prop :=
  match t, t' with
  | FromChannel x y, FromChannel x' y' => exists n, x' = drop n x /\ y' = y ++ take n x
  | FromWayland x y, FromWayland x' y' => exists n rids, x' = drop n x /\ y' = y ++ rids /\ length rids = n
  | _, _ => False
  end.
Definition forwarded (msg : bytes) (st : St) (r : ProcMsg * St) : Prop :=
  r.1 = Done -> exists w, out r.2 = out st ++ w /\ same_msg w msg /\
    dst r.2 = drop (length msg) (dst st) /\ fds_moved (transl st) (transl r.2).

Lemma fds_stay t : fds_moved t t.
Proof.
  destruct t as [x y|x y]; cbn; [exists 0%nat|exists 0%nat, []]; by rewrite drop_0, app_nil_r.
Qed.
Lemma fd_moved_channel rid x y : fds_moved (FromChannel (rid :: x) y) (FromChannel x (y ++ [rid])).
Proof. by exists 1%nat. Qed.
Lemma fd_moved_wayland fd x y rid : fds_moved (FromWayland (fd :: x) y) (FromWayland x (y ++ [rid])).
Proof. by exists 1%nat, [rid]. Qed.
#[local] Hint Resolve fds_stay fd_moved_channel fd_moved_wayland same_msg_refl tagged_same : core.

Definition same_io (st st' : St) : Prop :=
  out st' = out st /\ dst st' = dst st /\ transl st' = transl st.
(** The generic handling of a message only adds plain objects, with ids that were free. *)
Lemma register_args_inv (P : St -> Prop) :
  (forall st id t, P st -> objects (glob st) !! id = None -> P (upd_objects st <[id := MkObject t XNone]>)) ->
  forall ops st tail st', register_args st tail ops = Ok st' -> P st -> P st'.
Proof.
  intros Hstep. induction ops as [|op ops IH]; intros st tail st'; cbn [register_args]; [by intros [= <-]|].
  assert (Hskip : forall tail, match parse_u32 tail with
      | Ok r => register_args st r.2 ops | Err _ => register_args st tail ops | Panic => Panic
      end = Ok st' -> P st -> P st').
  { intros tl. destruct (parse_u32 tl); [apply IH|apply IH|done]. }
  destruct op; try apply Hskip; try (intros E; minvs; by eapply IH).
  - intros (s & _ & E)%bind_Ok. destruct (s.1); [|done]. by eapply IH.
  - intros E. minvs. match goal with E : insert_new_object _ _ _ = Ok _ |- _ =>
      apply insert_new_object_Ok in E as [? ->] end. intros HP. eapply IH; [done|]. by apply Hstep.
  - intros (s & _ & E)%bind_Ok. destruct (s.1) as [str|]; [|done]. apply bind_Ok in E as (v & _ & E).
    apply bind_Ok in E as (r & _ & E). destruct (objects (glob st) !! r.1) eqn:En; [done|].
    apply bind_Ok in E as (o & _ & E). intros HP. eapply IH; [exact E|]. destruct o; [by apply Hstep|done].
Qed.
Lemma register_inv (P : St -> Prop) st msg meth st' :
  (forall st id t, P st -> objects (glob st) !! id = None -> P (upd_objects st <[id := MkObject t XNone]>)) ->
  register_generic_new_ids st msg meth = Ok st' -> P st -> P st'.
Proof. intros Hs (tail & _ & E)%bind_Ok. by eapply register_args_inv. Qed.
Lemma register_io st msg meth st' : register_generic_new_ids st msg meth = Ok st' -> same_io st st'.
Proof. intros E. by eapply (register_inv (same_io st)) in E. Qed.
Lemma viewport_surface_io st o f st' : upd_viewport_surface st o f = Ok st' -> same_io st st'.
Proof.
  unfold upd_viewport_surface. destruct o as [i|]; [|by intros [= <-]].
  destruct (objects (glob st) !! i) as [o|]; [|by intros [= <-]]. destruct (extra o); try done. by intros [= <-].
Qed.

Lemma same_io_trans a b c : same_io a b -> same_io b c -> same_io a c.
Proof. intros (? & ? & ?) (? & ? & ?). split_and!; congruence. Qed.
Lemma foldM_io {A} (f : St -> A -> res St) l : (forall s a s', f s a = Ok s' -> same_io s s') ->
  forall s s', foldM f s l = Ok s' -> same_io s s'.
Proof.
  intros Hf. induction l as [|a l IH]; cbn [foldM]; intros s s'; [by intros [= <-]|].
  intros (s1 & E1 & E)%bind_Ok. eapply same_io_trans; eauto.
Qed.
Lemma add_points_io `{Sys} `{Gpu} st rid d a b r : add_points st rid d a b = Ok r -> same_io st r.1.
Proof.
  unfold add_points. intros (x & E & [= <-])%bind_Ok. cbn. destruct b as [[pt tl]|]; [|by injection E as <-].
  apply bind_Ok in E as (s & _ & E). destruct s; try done. by injection E as <-.
Qed.
Lemma commit_display_io `{Sys} `{Gpu} st x st' : commit_display st x = Ok st' -> same_io st st'.
Proof.
  unfold commit_display. destruct (attached_buffer _ _) as [b|]; [|by intros [= <-]].
  intros (s & _ & E)%bind_Ok. destruct s as [| |y|]; try by injection E as <-.
  apply bind_Ok in E as (y' & _ & E). apply bind_Ok in E as ([st1 y1] & E1%add_points_io & E).
  apply bind_Ok in E as (y2 & _ & [= <-]). exact E1.
Qed.
Lemma commit_application_io `{Sys} `{Gpu} `{SortUnstable} st x r :
  commit_application st x = Ok r -> same_io st r.2.
Proof.
  unfold commit_application. destruct (attached_buffer _ _) as [b|].
  - intros (s & _ & E)%bind_Ok. destruct s as [fd f p| |y|]; try done.
    + destruct (shm_info b); [|done]. by apply bind_Ok in E as (r' & _ & [= <-]).
    + apply bind_Ok in E as (r' & _ & E). by apply bind_Ok in E as (p & E1%add_points_io & [= <-]).
  - by intros (h & _ & [= <-])%bind_Ok.
Qed.
Lemma ready_effect_io `{Sys} `{Gpu} st rid shm st' : ready_effect st rid shm = Ok st' -> same_io st st'.
Proof.
  unfold ready_effect. intros (s & _ & E)%bind_Ok.
  destruct (on_display_side _), s; try done; minvs; done.
Qed.
Lemma orphan_frame_io mods st id st' : orphan_frame mods st id = Ok st' -> same_io st st'.
Proof. unfold orphan_frame. intros (o & _ & E)%bind_Ok. destruct (extra o); try done. by injection E as <-. Qed.

Ltac fwd_hyps := repeat match goal with
  | E : copy_msg _ _ = Ok _ |- _ => apply copy_msg_Ok in E
  | E : insert_new_object _ _ _ = Ok _ |- _ => apply insert_new_object_Ok in E as [? E]
  | E : copy_msg_tag_fd _ _ _ = Ok _ |- _ => apply copy_msg_tag_fd_Ok in E; [|done]
  | E : upd_viewport_surface _ _ _ = Ok _ |- _ => apply viewport_surface_io in E as (? & ? & ?)
  | E : register_generic_new_ids _ _ _ = Ok _ |- _ => apply register_io in E as (? & ? & ?)
  | E : commit_display _ _ = Ok _ |- _ => apply commit_display_io in E as (? & ? & ?)
  | E : commit_application _ _ = Ok _ |- _ => apply commit_application_io in E as (? & ? & ?)
  | E : ready_effect _ _ _ = Ok _ |- _ => apply ready_effect_io in E as (? & ? & ?)
  | E : foldM (orphan_frame _) _ _ = Ok _ |- _ =>
      apply (foldM_io _ _ (orphan_frame_io _)) in E as (? & ? & ?)
  | E : match transl ?st with _ => _ end = Ok _ |- _ =>
      let Et := fresh "Et" in destruct (transl st) as [[|] ?|[|] ?] eqn:Et; minvs; try done
  | E : (if ?b then _ else _) = Ok _ |- _ => destruct b; minvs; try done
  | E : match ?s with FileFd _ _ _ => _ | PipeFd _ => _ | DmabufFd _ => _ | TimelineFd _ => _ end = Ok _ |- _ =>
      destruct s; minvs; try done
  end; subst.
Lemma forwarded_not_done msg st p st' : p <> Done -> forwarded msg st (p, st').
Proof. by intros ? ?. Qed.
Lemma forwarded_done msg st st' w :
  out st' = out st ++ w -> same_msg w msg -> dst st' = drop (length msg) (dst st) ->
  fds_moved (transl st) (transl st') -> forwarded msg st (Done, st').
Proof. intros ???? _. eauto. Qed.
Ltac fwd := fwd_hyps; first
  [ apply forwarded_not_done; done
  | eapply forwarded_done; cbn in *;
    [repeat match goal with E : out _ = _ |- _ => rewrite E end; reflexivity | auto | congruence
    | repeat match goal with E : transl _ = _ |- _ => rewrite E end; auto] ].

Ltac head_of t := lazymatch t with ?f _ => head_of f | _ => t end.
(** Unfold the arm the goal is about, and follow its branches. *)
Ltac open_arm := lazymatch goal with |- post _ ?t => let f := head_of t in unfold f end; branch.
(** Leave out the arms excluded by a hypothesis. *)
Ltac exclude H := repeat (apply Forall_cons in H; let E := fresh "E" in destruct H as [E H]; rewrite ?E; clear E).

Section Props.
Context `{Sys} `{Gpu} `{SortUnstable}.

(** ** What a message is *)
Definition method_id (msg : bytes) (st : St) : MethodId :=
  let op := Z.land (from_le (slice msg 4 8)) 2047 in
  if Bool.eqb (on_display_side (glob st)) (from_channel st) then Request op else Event op.
(** The message is one of [ms]. *)
Definition is_one_of (ms : list Msg) (msg : bytes) (st : St) : bool :=
  match objects (glob st) !! from_le (slice msg 0 4) with
  | Some obj => existsb (fun m => is_msg m (obj_type obj) (method_id msg st)) ms
  | None => false
  end.
Lemma not_one_of ms msg st obj : is_one_of ms msg st = false ->
  objects (glob st) !! from_le (slice msg 0 4) = Some obj ->
  Forall (fun m => is_msg m (obj_type obj) (method_id msg st) = false) ms.
Proof.
  unfold is_one_of. intros E Eo. rewrite Eo in E. apply Forall_forall. intros m Hm.
  destruct (is_msg m _ _) eqn:E1; [|done]. assert (existsb (fun m => is_msg m (obj_type obj) (method_id msg st)) ms = true);
    [|congruence]. apply existsb_exists. exists m. split; [by apply list_elem_of_In|done].
Qed.

(** [process] runs one of three functions on a message. *)
Lemma process_cases P msg st :
  post P (proc_unknown_way_msg msg st) ->
  (forall obj id meth is_req object_id, objects (glob st) !! object_id = Some obj ->
     object_id = from_le (slice msg 0 4) -> id = method_id msg st -> 8 <= zlen msg ->
     post P (dispatch (obj_type obj) id meth is_req msg st object_id obj)) ->
  post P (process_way_msg msg st).
Proof.
  intros Hu Hd. unfold process_way_msg. apply post_bind. intros a Ha. apply post_bind. intros b Hb.
  apply get_range_Ok in Ha as (_ & _ & ->), Hb as (? & ? & ->).
  apply post_bind. intros _ _. set (op := Z.land _ _). set (is_req := Bool.eqb _ _).
  destruct (objects (glob st) !! _) as [obj|] eqn:Eo; [|done]. apply post_bind. intros d _.
  destruct (lookup_method d _) as [meth|]; [|done]. do 2 (apply post_bind; intros _ _).
  by apply Hd.
Qed.

(** ** Every arm forwards its message *)
Lemma fixed_file_fwd msg st sz : 8 <= zlen msg -> post (forwarded msg st) (fixed_file msg st sz).
Proof.
  intros Hl. unfold fixed_file. apply post_bind. intros [w st'] E.
  unfold translate_or_wait_for_fixed_file in E. cbn [fst snd].
  destruct (transl st) as [[|rid x] y|[|fd x] y] eqn:Et; try done; minvs.
  - case_match; simplify_eq; [done|]. branch. fwd.
  - simplify_eq. branch. fwd.
Qed.
Lemma default_fwd msg st meth is_req id : post (forwarded msg st) (default_proc_way_msg msg st meth is_req id).
Proof.
  unfold default_proc_way_msg. branch; try (by apply forwarded_not_done).
  match goal with E : (if ?b then _ else _) = Ok _ |- _ => destruct b end; try case_match; minvs; fwd.
Qed.
Lemma unknown_fwd msg st : 8 <= zlen msg -> post (forwarded msg st) (proc_unknown_way_msg msg st).
Proof.
  intros Hl. unfold proc_unknown_way_msg. destruct (transl st) as [x y|x y] eqn:Et; [|branch; fwd].
  branch; try (by apply forwarded_not_done).
  match goal with E : edit_header _ _ = Ok _ |- _ => apply edit_header_Ok in E as [_ ->] end.
  match goal with E : put _ _ = Ok _ |- _ => apply put_Ok in E as -> end.
  match goal with |- forwarded _ _ (_, wrote _ (?m, _)) => assert (Hm : same_msg m msg) end.
  { apply (header_word_same msg (fun h => clear_bits h 63488)); [done|]. intros h Hh.
    split; [by apply clear_u32|by apply clear_mask_sub]. }
  eapply forwarded_done; [done|done|..]; cbn.
  - destruct Hm as [Hz _]. unfold zlen in Hz. f_equal. lia.
  - rewrite Et. by eexists.
Qed.

(** These messages are dropped, or written anew. *)
Definition rewritten : list Msg :=
  [req_xdg_toplevel_set_title; evt_wp_presentation_feedback_presented;
   req_wp_commit_timer_v1_set_timestamp; evt_wl_registry_global;
   evt_zwp_linux_dmabuf_v1_format; evt_zwp_linux_dmabuf_v1_modifier;
   req_zwp_linux_buffer_params_v1_add; req_zwp_linux_buffer_params_v1_create_immed;
   req_zwp_linux_buffer_params_v1_create; evt_zwp_linux_dmabuf_feedback_v1_format_table;
   evt_zwp_linux_dmabuf_feedback_v1_main_device; evt_zwp_linux_dmabuf_feedback_v1_tranche_flags;
   evt_zwp_linux_dmabuf_feedback_v1_tranche_target_device;
   evt_zwp_linux_dmabuf_feedback_v1_tranche_formats; evt_zwp_linux_dmabuf_feedback_v1_tranche_done;
   evt_zwp_linux_dmabuf_feedback_v1_done; evt_ext_image_copy_capture_session_v1_dmabuf_device;
   evt_ext_image_copy_capture_session_v1_dmabuf_format; evt_ext_image_copy_capture_session_v1_done;
   evt_zwlr_screencopy_frame_v1_ready; evt_ext_image_copy_capture_frame_v1_presentation_time].

Lemma new_first_fwd m t x msg st : post (forwarded msg st) (arm_new_first m t x msg st).
Proof. open_arm; fwd. Qed.
Lemma dispatch_fwd t id meth is_req msg st object_id obj : 8 <= zlen msg ->
  Forall (fun m => is_msg m t id = false) rewritten ->
  post (forwarded msg st) (dispatch t id meth is_req msg st object_id obj).
Proof.
  intros Hl Hr. unfold dispatch, rewritten in *. exclude Hr.
  repeat match goal with |- post _ (if ?b then _ else _) => destruct b end.
  all: try apply default_fwd.
  all: open_arm; try (unfold new_buffer; branch);
    first [apply default_fwd | by apply fixed_file_fwd | apply new_first_fwd | fwd].
Qed.

(** C5: a message that is finished has been forwarded: apart from the messages listed, which are
    dropped or written anew, what is appended to the output is the message, bit for bit but for
    the tag bits of its header, and the descriptors it takes from the front of one queue are
    appended to the other in the same order. *)
Theorem process_forwards msg st st' :
  is_one_of rewritten msg st = false -> process_way_msg msg st = Ok (Done, st') ->
  exists w, out st' = out st ++ w /\ same_msg w msg /\ dst st' = drop (length msg) (dst st) /\
    fds_moved (transl st) (transl st').
Proof.
  intros Hn. cut (post (forwarded msg st) (process_way_msg msg st)).
  { intros Hp Hd. rewrite Hd in Hp. by apply Hp. }
  destruct (decide (8 <= zlen msg)) as [Hl|Hl].
  - apply process_cases; [by apply unknown_fwd|].
    intros obj id meth is_req oid Hobj -> -> _. apply dispatch_fwd; [done|by apply not_one_of].
  - apply post_bind. intros a _. apply post_bind. intros b (_ & ? & _)%get_range_Ok. lia.
Qed.
End Props.

Lemma clear_nothing h m : uN 32 h -> Z.land h m = 0 -> clear_bits h m = h.
Proof.
  intros Hh Hz. unfold clear_bits. change (2 ^ 32 - 1) with (Z.ones 32).
  rewrite <- (Z.mod_small h (2 ^ 32)) at 2 by (unfold uN in Hh; lia). rewrite <- Z.land_ones by lia.
  apply Z.bits_inj'. intros k _. rewrite !Z.land_spec, Z.lxor_spec.
  assert (Hk : Z.testbit h k && Z.testbit m k = false) by by rewrite <- Z.land_spec, Hz, Z.bits_0.
  destruct (Z.testbit h k); [|done]. cbn in Hk |- *. by rewrite Hk, xorb_false_r.
Qed.

(** a message with a descriptor survives the channel: tagged by one side and untagged by
    the other it is the same bytes, when its opcode is below 256. *)
Theorem tag_fd_roundtrip msg st st1 st2 w :
  8 <= zlen msg -> Z.land (from_le (slice msg 4 8)) 65280 = 0 ->
  copy_msg_tag_fd msg st false = Ok st1 -> out st1 = out st ++ w -> zlen msg <= zlen (dst st2) ->
  copy_msg_tag_fd w st2 true = Ok (wrote st2 (msg, drop (length msg) (dst st2))).
Proof.
  intros Hl Hz ->%copy_msg_tag_fd_Ok Hw Hd; [|done]. cbn in Hw. apply app_inv_head in Hw. subst w.
  assert (Hh : uN 32 (from_le (slice msg 4 8))) by (apply from_le_u32; rewrite zlen_slice; lia).
  destruct (tag_untag msg Hl (clear_nothing _ _ Hh Hz)) as [Hu Ht].
  destruct (tagged_same msg false Hl) as [Hz' _].
  rewrite copy_msg_tag_fd_ok by (lia || (intros _; exact Ht)). rewrite Hu. unfold zlen in Hz'. by replace (length (tagged msg false)) with (length msg) by lia.
Qed.

(** ** Concrete runs *)
(** A message with no descriptors: object, opcode, arguments. *)
Definition demo_msg (object_id opcode : Z) (args : list Z) : bytes :=
  to_le 4 object_id ++ to_le 4 (Z.lor (Z.shiftl (8 + 4 * zlen args) 16) opcode)
    ++ List.concat (List.map (to_le 4) args).
Definition demo_glob (display : bool) (device : DmabufDevice) (o : gmap Z WpObject) (m : gmap Z ShadowFd) : Globals :=
  MkGlobals display o m [] (if display then -1 else 1) 1 None [] false device ∅ ∅ ∅ ∅ 17 true false.
(** No file can be mapped, no clock read; files can be made, and there is a Vulkan device that supports two formats,
    each with two modifiers. *)
Definition demo_sys : Sys := {| mmap _ _ _ := Err "mmap"; clock_gettime _ _ := None; memfd_create := Ok 5; ftruncate _ _ := Ok tt |}.
Definition demo_gpu : Gpu :=
  {| test_skip_vulkan := false; drm_node := None; setup_vulkan_instance := Ok true;
     has_device _ := true; setup_vulkan_device _ := Ok true; setup_gbm_device _ := Ok false;
     device_supports_timeline_import_export _ := true; supports_timeline_import_export := true;
     supports_format f _ := (f <? 2); get_supported_modifiers f := if f <? 2 then [0; 5] else [];
     gbm_supported_modifiers _ := []; get_device := 77; gbm_get_device_id := 0;
     video_format := None; supports_video_format _ _ _ _ := false;
     can_import_image _ _ _ _ _ := true; setup_video_encode _ := Ok tt;
     vulkan_import_dmabuf _ _ _ _ _ := Ok tt; gbm_import_dmabuf _ _ _ _ := Ok tt;
     nominal_size _ _ := 0; copy_onto_dmabuf _ _ _ := Ok tt; vulkan_import_timeline fd := Ok fd;
     signal_timeline_pt _ _ := Ok tt |}.
Definition demo_process : bytes -> St -> res (ProcMsg * St) :=
  @process_way_msg demo_sys demo_gpu merge_sort_by.
Definition demo_run (msgs : list bytes) (st : St) : res St :=
  foldM (fun st m => r ← demo_process m st;
           match r.1 with Done => Ok r.2 | _ => Err "not finished" end) st msgs.
Definition demo_room : bytes := replicate 256 Byte.x00.
Definition demo_sync : bytes := demo_msg 1 0 [2].
Definition demo_start : St := MkSt (demo_glob false Unknown setup_object_map ∅) (FromWayland [] []) [] (replicate 8 Byte.x00).

(** A request on [wl_display], with room for it. *)
Definition demo_roomy : St := MkSt (demo_glob false Unknown setup_object_map ∅) (FromWayland [] []) [] demo_room.
Lemma process_forwards_witness : exists st' w,
  demo_process demo_sync demo_roomy = Ok (Done, st') /\ out st' = [] ++ w /\ same_msg w demo_sync /\
  dst st' = drop 12 demo_room /\ fds_moved (FromWayland [] []) (transl st').
Proof.
  destruct (demo_process demo_sync demo_roomy) as [[[| |] st']| |] eqn:E; try (vm_compute in E; discriminate E).
  destruct (@process_forwards demo_sys demo_gpu merge_sort_by demo_sync demo_roomy st') as (w & H1 & H2 & H3 & H4);
    [by vm_compute|exact E|]. exists st', w. by rewrite <- E.
Defined.

Lemma tag_fd_roundtrip_witness : exists st1 w,
  copy_msg_tag_fd demo_sync demo_roomy false = Ok st1 /\ out st1 = w /\ w <> demo_sync /\
  copy_msg_tag_fd w demo_roomy true = Ok (wrote demo_roomy (demo_sync, drop 12 demo_room)).
Proof.
  eexists _, _. split; [vm_compute; reflexivity|]. split; [reflexivity|]. split; [by vm_compute|].
  eapply (tag_fd_roundtrip demo_sync demo_roomy); [by vm_compute|by vm_compute|vm_compute; reflexivity|reflexivity|by vm_compute].
Defined.
