(* ===== verification/TrackingSafe.v ===== *)
(** * Messages can be tried again, and the queue of descriptors is bounded *)
From Stdlib Require Import ZArith Lia.
From stdpp Require Import gmap.
From S2P Require Import Prelude Util Damage Wire Protocol ProtocolCorrect Formats Mirror Tasks.
From S2P Require Import Kernel Geometry GeometryCorrect Time TrackState Arms GpuArms Tracking TrackingCorrect.
Local Open Scope Z_scope.
Import Util.Arith.

Section Props.
Context `{Sys} `{Gpu} `{SortUnstable}.

(** ** Retries *)
(** A message that is not finished changed nothing: it asked for more space than there is, or
    waits for a file that has tasks left. *)
Definition retry_ok (st : St) (r : ProcMsg * St) : Prop :=
  match r.1 with
  | Done => True
  | NeedsSpace sp => r.2 = st /\ space_le sp (remaining_space st) = false
  | WaitFor rid => r.2 = st /\ exists s, map (glob st) !! rid = Some s /\ 0 < tasks_left s
  end.

Lemma fixed_file_retry msg st sz : post (retry_ok st) (fixed_file msg st sz).
Proof.
  unfold fixed_file. apply post_bind. intros [w st'] E. cbn [fst snd].
  destruct w as [w|]; [|branch; done].
  unfold translate_or_wait_for_fixed_file in E. destruct (transl st) as [[|rid x] y|[|fd x] y]; try done.
  - destruct (file_has_pending_apply_tasks _ _) as [[]| |] eqn:Ep; try done.
    injection E as <- <-. apply post_Ok. split; [done|]. by apply pending_found.
  - minvs. done.
Qed.
Lemma default_retry msg st meth is_req id : post (retry_ok st) (default_proc_way_msg msg st meth is_req id).
Proof.
  unfold default_proc_way_msg. destruct (Z.ltb_spec (zlen (dst st)) (zlen msg)); [|branch; done].
  split; [done|]. unfold space_le, remaining_space. cbn. lia.
Qed.
Lemma unknown_retry msg st : post (retry_ok st) (proc_unknown_way_msg msg st).
Proof.
  unfold proc_unknown_way_msg. destruct (transl st) as [x y|x y] eqn:Et.
  - apply post_bind. intros hb _. set (n := Z.shiftr _ 11). clearbody n.
    destruct (_ || _) eqn:E.
    + split; [done|]. unfold space_le, remaining_space, MAX_OUTGOING_FDS in *. rewrite Et. cbn. lia.
    + branch; try done. split; [done|]. by eapply first_pending_found.
  - destruct (Z.ltb_spec (zlen (dst st)) (zlen msg)); [|branch; done].
    split; [done|]. unfold space_le, remaining_space. rewrite Et. cbn. lia.
Qed.

(** The arms that can wait. *)
Lemma resize_retry msg st obj : post (retry_ok st) (arm_pool_resize msg st obj).
Proof.
  unfold arm_pool_resize. branch; try done. split; [done|]. by apply pending_found.
Qed.
Lemma commit_wait_found st x has rid : commit_wait st x has = Ok (Some rid) ->
  exists s, map (glob st) !! rid = Some s /\ 0 < tasks_left s.
Proof.
  unfold commit_wait. destruct (from_channel st); [|done]. destruct (attached_buffer _ _) as [b|]; [|done].
  intros (s & Es%get_sfd_Ok & E)%bind_Ok. apply bind_Ok in E as (n & En & E).
  destruct (0 <? n) eqn:Ep; [|done]. injection E as <-. exists s. split; [done|].
  destruct s; try done; minvs; cbn; try destruct has; lia.
Qed.
Lemma ready_wait_found st rid rid' : ready_wait st rid = Ok (Some rid') ->
  exists s, map (glob st) !! rid' = Some s /\ 0 < tasks_left s.
Proof.
  unfold ready_wait. destruct (on_display_side _); [done|].
  intros (s & Es%get_sfd_Ok & E)%bind_Ok. apply bind_Ok in E as (n & En & E).
  destruct (0 <? n) eqn:Ep; [|done]. injection E as <-. exists s. split; [done|].
  destruct s; try done; minvs; cbn; lia.
Qed.
Lemma load_table_retry st n w t st' : load_table st n = Ok (Some w, t, st') -> retry_ok st (w, st').
Proof.
  unfold load_table. destruct (transl st) as [[|rid x] y|[|fd x] y]; try done.
  - intros ([] & Ep & E)%bind_Ok; [|minvs; case_match; [case_match; minvs|..]; done].
    injection E as <- <- <-. split; [done|]. by apply pending_found.
  - intros E. minvs. done.
Qed.
Lemma icon_retry msg st : post (retry_ok st) (arm_add_icon_buffer msg st).
Proof.
  unfold arm_add_icon_buffer. branch; try done. split; [done|].
  match goal with E : get_sfd _ _ = Ok _ |- _ => apply get_sfd_Ok in E as Es end.
  eexists. split; [exact Es|]. cbn. lia.
Qed.

Lemma new_first_retry m t x msg st : post (retry_ok st) (arm_new_first m t x msg st).
Proof. open_arm; done. Qed.
Lemma new_buffer_retry st rid id st0 : post (retry_ok st0) (new_buffer rid id st).
Proof. open_arm; done. Qed.

(** These messages have effects before the space they need is known. *)
Definition early_effects : list Msg :=
  [evt_wl_registry_global; req_wl_registry_bind; evt_zwp_linux_dmabuf_v1_modifier;
   req_zwp_linux_buffer_params_v1_create_immed; evt_zwp_linux_dmabuf_feedback_v1_done;
   evt_ext_image_copy_capture_session_v1_done].

Ltac retry_step := first
  [ done
  | split; [done|]; first [by apply pending_found | by eapply commit_wait_found | by eapply ready_wait_found]
  | apply fixed_file_retry | apply new_first_retry | apply new_buffer_retry | by eapply load_table_retry ].
Lemma dispatch_retry t id meth is_req msg st object_id obj :
  Forall (fun m => is_msg m t id = false) early_effects ->
  post (retry_ok st) (dispatch t id meth is_req msg st object_id obj).
Proof.
  intros Hr. unfold dispatch, early_effects in *. exclude Hr.
  repeat match goal with |- post _ (if ?b then _ else _) => destruct b end.
  all: try apply default_retry.
  all: try apply icon_retry.
  all: open_arm; try retry_step.
  all: open_arm; retry_step.
Qed.

(** C7: a message can be tried again: apart from the messages listed, when processing it does not
    finish the state is exactly as before, and the reason is real: the space asked for is more
    than the buffer and the descriptor queue have left, or the file waited for has tasks left. *)
Theorem process_retry_safe msg st r :
  is_one_of early_effects msg st = false -> process_way_msg msg st = Ok r -> retry_ok st r.
Proof.
  intros Hn. apply post_use. apply process_cases; [apply unknown_retry|].
  intros obj id meth is_req oid Hobj -> -> _. apply dispatch_retry. by apply not_one_of.
Qed.

(** ** The queue of descriptors to send is bounded *)
Definition outgoing (t : TranslationInfo) : list Z := match t with FromChannel _ y | FromWayland _ y => y end.
Definition bounded (st : St) : Prop := zlen (outgoing (transl st)) <= MAX_OUTGOING_FDS.
Definition stays_bounded (r : ProcMsg * St) : Prop := bounded r.2.
Lemma bounded_same st st' : bounded st -> transl st' = transl st -> bounded st'.
Proof. unfold bounded. by intros ? ->. Qed.
Lemma bounded_space st : bounded st -> uN 64 (remaining_space st).2.
Proof. unfold bounded, remaining_space, outgoing, uN, MAX_OUTGOING_FDS. intros Hb. destruct (transl st); cbn [snd] in *; zlen_pos; lia. Qed.
Lemma bounded_room st n k : space_le (n, k) (remaining_space st) = true -> 1 <= k ->
  zlen (outgoing (transl st)) + 1 <= MAX_OUTGOING_FDS.
Proof. unfold space_le, remaining_space, outgoing. cbn [fst snd]. destruct (transl st); lia. Qed.
Lemma bounded_moved st st' z : zlen (outgoing (transl st)) + 1 <= MAX_OUTGOING_FDS ->
  outgoing (transl st') = outgoing (transl st) ++ [z] -> bounded st'.
Proof. intros Hr E. unfold bounded. rewrite E, zlen_app. change (zlen [z]) with 1. lia. Qed.

(** No arm needs the message to be long enough for this. *)
Lemma copy_tag_transl msg st fc st' : copy_msg_tag_fd msg st fc = Ok st' -> transl st' = transl st.
Proof. unfold copy_msg_tag_fd. intros E. minvs. destruct (fc && _); [done|]. minvs. done. Qed.

Lemma foldM_transl {A} (f : St -> A -> res St) l : (forall s a s', f s a = Ok s' -> transl s' = transl s) ->
  forall s s', foldM f s l = Ok s' -> transl s' = transl s.
Proof.
  intros Hf. induction l as [|a l IH]; cbn [foldM]; intros s s'; [by intros [= <-]|].
  intros (s1 & E1 & E)%bind_Ok. apply Hf in E1. apply IH in E. congruence.
Qed.
Lemma emit_transl m id tag args st st' : emit m id tag args st = Ok st' -> transl st' = transl st.
Proof. by intros (w & _ & [= <-])%bind_Ok. Qed.
Lemma replay_transl object_id intf st nv st' : replay_one object_id intf st nv = Ok st' -> transl st' = transl st.
Proof. by intros (w & _ & [= <-])%bind_Ok. Qed.
Lemma write_plane_transl id st p st' : write_plane id st p = Ok st' -> transl st' = transl st.
Proof. unfold write_plane. destruct (split_u64 _). apply emit_transl. Qed.
Lemma write_modifier_transl id f st p st' : write_modifier id f st p = Ok st' -> transl st' = transl st.
Proof. unfold write_modifier. destruct (split_u64 _). apply emit_transl. Qed.
Lemma advertise_all_transl (l : list (Z * Z)) : forall st,
  transl (foldl (fun st f => advertise f.1 [f.2] st) st l) = transl st.
Proof. induction l as [|f l IH]; intros st; [done|]. cbn [foldl]. by rewrite IH. Qed.
Lemma send_tranche_transl id dev st t st' : send_tranche id dev st t = Ok st' -> transl st' = transl st.
Proof.
  unfold send_tranche. intros (s1 & E1%emit_transl & E)%bind_Ok. apply bind_Ok in E as (s2 & E2%emit_transl & E).
  apply bind_Ok in E as (s3 & E3%emit_transl & E4%emit_transl). rewrite advertise_all_transl in E1. congruence.
Qed.
Lemma session_format_transl id st f st' : session_format id st f = Ok st' -> transl st' = transl st.
Proof.
  unfold session_format. intros (mods & _ & E)%bind_Ok. destruct mods; [by injection E as <-|].
  by apply emit_transl in E.
Qed.
Lemma feedback_process_transl st f r : feedback_process st f = Ok r -> transl r.1 = transl st.
Proof.
  unfold feedback_process. destruct (processed f); [by intros [= <-]|]. intros E.
  apply bind_Ok in E as (f1 & _ & E). apply bind_Ok in E as ([t f2] & _ & E).
  destruct (decide _); [by injection E as <-|]. minvs. done.
Qed.
Lemma load_table_outgoing st n r : load_table st n = Ok r -> outgoing (transl r.2) = outgoing (transl st).
Proof.
  unfold load_table. destruct (transl st) as [[|rid x] y|[|fd x] y] eqn:Et; try done.
  - intros ([] & _ & E)%bind_Ok; [injection E as <-; cbn [snd]; by rewrite Et|].
    apply bind_Ok in E as (s & _ & E). destruct s; try done. destruct (negb _); [done|]. minvs. done.
  - intros E. minvs. done.
Qed.

Ltac bnd_hyps := repeat match goal with
  | E : copy_msg _ _ = Ok _ |- _ => apply copy_msg_Ok in E
  | E : insert_new_object _ _ _ = Ok _ |- _ => apply insert_new_object_Ok in E as [? E]
  | E : copy_msg_tag_fd _ _ _ = Ok _ |- _ => apply copy_tag_transl in E
  | E : emit _ _ _ _ _ = Ok _ |- _ => apply emit_transl in E
  | E : foldM (write_plane _) _ _ = Ok _ |- _ => apply (foldM_transl _ _ (write_plane_transl _)) in E
  | E : foldM (write_modifier _ _) _ _ = Ok _ |- _ => apply (foldM_transl _ _ (write_modifier_transl _ _)) in E
  | E : foldM (send_tranche _ _) _ _ = Ok _ |- _ => apply (foldM_transl _ _ (send_tranche_transl _ _)) in E
  | E : foldM (session_format _) _ _ = Ok _ |- _ => apply (foldM_transl _ _ (session_format_transl _)) in E
  | E : foldM (orphan_frame _) _ _ = Ok _ |- _ => apply (foldM_io _ _ (orphan_frame_io _)) in E as (_ & _ & ?)
  | E : feedback_process _ _ = Ok _ |- _ => apply feedback_process_transl in E; cbn [fst snd] in E
  | E : upd_viewport_surface _ _ _ = Ok _ |- _ => apply viewport_surface_io in E as (_ & _ & ?)
  | E : register_generic_new_ids _ _ _ = Ok _ |- _ => apply register_io in E as (_ & _ & ?)
  | E : commit_display _ _ = Ok _ |- _ => apply commit_display_io in E as (_ & _ & ?)
  | E : commit_application _ _ = Ok _ |- _ => apply commit_application_io in E as (_ & _ & ?)
  | E : ready_effect _ _ _ = Ok _ |- _ => apply ready_effect_io in E as (_ & _ & ?)
  | E : match transl ?st with _ => _ end = Ok _ |- _ =>
      let Et := fresh "Et" in destruct (transl st) as [[|] ?|[|] ?] eqn:Et; minvs; try done
  | E : (if ?b then _ else _) = Ok _ |- _ => destruct b; minvs; try done
  | E : match ?s with FileFd _ _ _ => _ | PipeFd _ => _ | DmabufFd _ => _ | TimelineFd _ => _ end = Ok _ |- _ =>
      destruct s; minvs; try done
  | E : match session_device ?s with Some _ => _ | None => _ end = Ok _ |- _ =>
      destruct (session_device s); minvs; try done
  end; subst.
Ltac bnd := unfold stays_bounded; cbn [snd]; bnd_hyps; first
  [ done
  | eapply bounded_same; [eassumption|]; cbn in *; congruence
  | match goal with Hs : space_le (_, 1) _ = true |- _ => apply bounded_room in Hs as ?; [|done] end;
    eapply bounded_moved; [eassumption|];
    repeat match goal with E : transl _ = _ |- _ => rewrite E in * end; cbn; reflexivity ].

Lemma fixed_file_bound msg st sz n : bounded st -> space_le (n, 1) (remaining_space st) = true ->
  post stays_bounded (fixed_file msg st sz).
Proof.
  intros Hb Hs. unfold fixed_file. apply post_bind. intros [w st'] E.
  unfold translate_or_wait_for_fixed_file in E. cbn [fst snd].
  destruct (transl st) as [[|rid x] y|[|fd x] y] eqn:Et; try done; minvs.
  - case_match; simplify_eq; [done|]. branch. bnd.
  - simplify_eq. branch. bnd.
Qed.
Lemma default_bound msg st meth is_req id : bounded st ->
  post stays_bounded (default_proc_way_msg msg st meth is_req id).
Proof.
  intros Hb. unfold default_proc_way_msg. branch; [done|].
  match goal with E : (if ?b then _ else _) = Ok _ |- _ => destruct b end; try case_match; minvs; bnd.
Qed.
Lemma unknown_bound msg st : bounded st -> post stays_bounded (proc_unknown_way_msg msg st).
Proof.
  intros Hb. unfold proc_unknown_way_msg. destruct (transl st) as [x y|x y] eqn:Et; [|branch; bnd].
  branch; try bnd. unfold stays_bounded, bounded. cbn. rewrite zlen_app.
  match goal with |- context [Z.to_nat ?n] => assert (0 <= n)
    by (apply Z.shiftr_nonneg, Z.land_nonneg; by right) end.
  unfold zlen in *. rewrite length_take. lia.
Qed.
Lemma registry_global_bound msg st object_id obj : bounded st ->
  post stays_bounded (arm_registry_global msg st object_id obj).
Proof.
  intros Hb. unfold arm_registry_global. apply post_bind. intros a _.
  destruct a as [|[name| | | |] [|[| | |[intf|]|] [|[ver| | | |] [|]]]]; try exact I.
  apply post_bind. intros ver' _. destruct (existsb _ _); [exact Hb|].
  apply post_bind. intros [d st1] Hd. assert (E1 : transl st1 = transl st).
  { destruct (String.eqb _ _) in Hd; minvs; done. }
  cbn [fst snd]. clear Hd. destruct d; [by eapply bounded_same|].
  apply post_bind. intros [[dr st2] obj2] Hs. assert (E2 : transl st2 = transl st).
  { destruct (String.eqb _ _) in Hs; [|minvs; congruence]. unfold syncobj_global in Hs.
    destruct (dmabuf_device _); minvs; done. }
  destruct dr; [by eapply bounded_same|].
  apply post_bind. intros replay _. apply post_bind. intros one _. apply post_bind. intros sp _.
  apply post_check; intros _; [by eapply bounded_same|]. apply post_bind. intros w _.
  clear Hs. cbv zeta. destruct (String.eqb _ _); [|apply post_Ok; by apply (bounded_same st)]. apply post_bind. intros t _. cbv zeta.
  apply post_bind. intros st3 E3. eapply bounded_same; [exact Hb|]. cbn.
  destruct t; [|by injection E3 as <-]. apply (foldM_transl _ _ (replay_transl _ _)) in E3. by rewrite E3.
Qed.
(** The next object received, if it is a DMABUF, is not yet sent to the compositor: the planes it is to be sent with,
    which sending it takes, are still there. *)
Definition exports_ok (st : St) : Prop := forall rid x y d,
  transl st = FromChannel (rid :: x) y -> map (glob st) !! rid = Some (DmabufFd d) -> export_planes d <> [].
Lemma new_buffer_bound rid id st : bounded st -> post stays_bounded (new_buffer rid id st).
Proof. intros Hb. open_arm. bnd. Qed.
Lemma new_first_bound m t x msg st : bounded st -> post stays_bounded (arm_new_first m t x msg st).
Proof. intros Hb. open_arm; bnd. Qed.
Lemma create_channel_bound msg st object_id id x y k :
  bounded st -> exports_ok st -> transl st = FromChannel x y ->
  (forall rid st', bounded st' -> post stays_bounded (k rid st')) ->
  post stays_bounded (create_from_channel msg st object_id id x y k).
Proof.
  intros Hb He Et Hk. unfold create_from_channel. destruct x as [|rid x]; [done|].
  apply post_bind. intros s Es%get_sfd_Ok. destruct s as [| |d|]; try done. cbv zeta.
  set (st1 := match id with Some _ => _ | None => st end).
  assert (E1 : transl st1 = transl st) by by destruct id. clearbody st1.
  apply post_bind. intros len _. apply post_check; [intros _; by eapply bounded_same|]. intros Hs.
  assert (Hn : 1 <= zlen (export_planes d)).
  { destruct (export_planes d) eqn:Ed; [|zlia]. by destruct (He rid x y d). }
  apply bounded_room in Hs; [|done]. rewrite E1, Et in Hs. branch. bnd_hyps. apply Hk.
  unfold bounded. cbn. rewrite zlen_app. exact Hs.
Qed.
Lemma translate_dmabuf_planes g w h f planes id v : translate_dmabuf_fd g w h f planes id = Ok v -> 1 <= zlen planes.
Proof.
  unfold translate_dmabuf_fd. intros (r & _ & E)%bind_Ok. destruct r. apply bind_Ok in E as (p & Ep & _).
  destruct planes; [done|zlia].
Qed.
Lemma create_wayland_bound m args st object_id obj p w h f id x y k :
  bounded st -> transl st = FromWayland x y ->
  (forall rid st', bounded st' -> post stays_bounded (k rid st')) ->
  post stays_bounded (create_from_wayland m args st object_id obj p w h f id x y k).
Proof.
  intros Hb Et Hk. unfold create_from_wayland. branch; [bnd|].
  match goal with E : translate_dmabuf_fd _ _ _ _ _ _ = Ok _ |- _ => apply translate_dmabuf_planes in E end.
  match goal with Hs : space_le _ _ = true |- _ => apply bounded_room in Hs; [|done]; rewrite Et in Hs end.
  bnd_hyps. apply Hk. unfold bounded.
  repeat match goal with E : transl _ = _ |- _ => rewrite E; clear E end. cbn. by rewrite zlen_app.
Qed.
Lemma send_table_outgoing object_id f st st' : send_table object_id f st = Ok st' ->
  outgoing (transl st') = outgoing (transl st) ++ match queued_format_table f with Some q => [q.1] | None => [] end.
Proof.
  unfold send_table. destruct (queued_format_table f) as [[rid sz]|]; [|intros [= <-]; by rewrite app_nil_r].
  intros (s1 & E1%emit_transl & [= <-])%bind_Ok. cbn. rewrite E1. by destruct (transl st).
Qed.
Lemma feedback_done_bound msg st object_id obj : bounded st ->
  post stays_bounded (arm_feedback_done msg st object_id obj).
Proof.
  intros Hb. unfold arm_feedback_done. destruct (extra obj) as [| | | | | |f| | | | | | | |]; try done.
  apply post_bind. intros [st1 f1] E1%feedback_process_transl. cbn [fst] in E1. cbv zeta.
  apply post_bind. intros sp _. apply post_check; [intros _; by eapply bounded_same|]. intros Hs.
  apply post_bind. intros st2 E2%send_table_outgoing. cbn in E2. rewrite E1 in E2.
  assert (H2 : bounded st2).
  { destruct (queued_format_table f1) as [[rid sz]|]; unfold bounded; rewrite E2, zlen_app.
    - apply bounded_room in Hs; [|done]. cbn in Hs. by rewrite E1 in Hs.
    - unfold bounded in Hb. zlia. }
  branch. bnd_hyps. unfold stays_bounded. cbn [snd]. eapply bounded_same; [exact H2|]. cbn. congruence.
Qed.
Lemma bounded_outgoing st st' : bounded st -> outgoing (transl st') = outgoing (transl st) -> bounded st'.
Proof. unfold bounded. by intros ? ->. Qed.
Lemma session_done_bound msg st object_id obj : bounded st ->
  post stays_bounded (arm_session_done msg st object_id obj).
Proof.
  intros Hb. unfold arm_session_done. destruct (extra obj) as [| | | | | | | | |s| | | | |]; try done.
  apply post_bind. intros st1 E1. assert (T1 : transl st1 = transl st) by (destruct (session_device s); minvs; done).
  apply post_bind. intros sp _. apply post_check; [intros _; by eapply bounded_same|]. intros _.
  apply post_bind. intros [st2 l] E2. assert (T2 : transl st2 = transl st1).
  { clear E1. destruct (session_device s); [|by injection E2 as <-]. minvs. bnd_hyps.
    destruct (on_display_side _); cbn; congruence. }
  clear E1 E2. branch. bnd_hyps. unfold stays_bounded. cbn [snd fst] in *. eapply bounded_same; [exact Hb|]. cbn. congruence.
Qed.
Lemma dispatch_bound t id meth is_req msg st object_id obj : bounded st -> exports_ok st ->
  post stays_bounded (dispatch t id meth is_req msg st object_id obj).
Proof.
  intros Hb He. unfold dispatch.
  repeat match goal with |- post _ (if ?b then _ else _) => destruct b end.
  all: try by apply default_bound.
  all: try by apply registry_global_bound.
  all: try by apply feedback_done_bound.
  all: try by apply session_done_bound.
  all: open_arm; try first [by apply default_bound | by eapply fixed_file_bound | by apply new_first_bound | bnd].
  all: try (apply new_buffer_bound; bnd_hyps; by eapply bounded_same).
  all: try (eapply bounded_outgoing; [eassumption|]; cbn;
    first [ match goal with E : load_table _ _ = Ok _ |- _ => by apply load_table_outgoing in E end
          | match goal with E : transl _ = _ |- _ => by rewrite E end ]).
  all: first [apply create_channel_bound | apply create_wayland_bound]; try done.
  all: intros; by apply new_buffer_bound.
Qed.

(** C33: the queue of files whose descriptors are to be sent never holds more than [MAX_OUTGOING_FDS] entries, so that
    the room that is left, [MAX_OUTGOING_FDS] less the entries, which the code computes as an unsigned number for
    every message, does not underflow: no message makes it too long, if the DMABUF that a message from the channel may
    refer to, the next one received, has not been sent before. *)
Theorem process_fds_bounded msg st p st' :
  bounded st -> exports_ok st -> process_way_msg msg st = Ok (p, st') ->
  bounded st' /\ uN 64 (remaining_space st').2.
Proof.
  intros Hb He E. assert (Hs : bounded st'); [|split; [done|by apply bounded_space]]. change st' with (p, st').2. change (stays_bounded (p, st')). revert E. apply post_use.
  apply process_cases; [by apply unknown_bound|]. intros. by apply dispatch_bound.
Qed.
End Props.

Lemma process_retry_safe_witness : exists sp,
  demo_process demo_sync demo_start = Ok (NeedsSpace sp, demo_start) /\ retry_ok demo_start (NeedsSpace sp, demo_start).
Proof.
  eexists. split; [vm_compute; reflexivity|].
  apply (@process_retry_safe demo_sys demo_gpu merge_sort_by demo_sync); [by vm_compute|vm_compute; reflexivity].
Defined.


(** A DMABUF of one plane, received and not yet sent, and the request that makes a [wl_buffer] of it. *)
Definition import_state : St :=
  MkSt (demo_glob true Vulkan (<[3 := MkObject I.ZwpLinuxBufferParamsV1 (XParams (MkParams None []))]> setup_object_map)
          {[ 5 := DmabufFd (MkDmabuf 5 false (VulkanBuf 4 4) None 875713112 0 (Intervals []) (Some 16) true
                              [MkPlane 9 0 0 16 0] false [] ∅ 0 0 false false) ]})
    (FromChannel [5] []) [] demo_room.
Definition import_msg : bytes := demo_msg 3 3 [7; 4; 4; 875713112; 0].
Lemma process_fds_bounded_witness : exists st',
  demo_process import_msg import_state = Ok (Done, st') /\ outgoing (transl st') = [5] /\ bounded st'.
Proof.
  destruct (demo_process import_msg import_state) as [[[| |] st']| |] eqn:E; try (vm_compute in E; discriminate E).
  exists st'. split; [done|]. split; [vm_compute in E; by injection E as <-|].
  apply (@process_fds_bounded demo_sys demo_gpu merge_sort_by import_msg import_state Done); [by vm_compute| |exact E].
  intros rid x y d [= <- <- <-] Hd. vm_compute in Hd. by injection Hd as <-.
Defined.
