(* ===== verification/TrackingTyped.v ===== *)
(** * Objects keep their types

    The invariant of the connection state of [src/tracking.rs]: the extra data of an object
    belongs to its interface, surfaces have seven damage batches with valid rectangles and
    attachments, and every [Rid] an object, a queue or a point names is one of a [ShadowFd] of the
    right kind that is tracked under that number. *)
From Stdlib Require Import ZArith Lia.
From stdpp Require Import gmap.
From S2P Require Import Prelude Util Damage Wire Protocol ProtocolCorrect Formats Mirror Kernel Tasks.
From S2P Require Import Geometry GeometryCorrect Time TrackState Arms GpuArms Tracking TrackingCorrect.
Local Open Scope Z_scope.
Import Util.Arith.

(** ** Arguments have the types of the message *)
Definition arg_width (a : argument) : Prop :=
  match a with AUint v | AObj v => uN 32 v | AInt v => iN 32 v | _ => True end.
Lemma from_le_i32_range bs : iN 32 (from_le_i32 bs).
Proof.
  unfold from_le_i32, swrap, iN. change (2 ^ (32 - 1)) with (2 ^ 31).
  pose proof (Z.mod_pos_bound (le_combine bs + 2 ^ 31) (2 ^ 32)). lia.
Qed.
Lemma parse_u32_width tail r : parse_u32 tail = Ok r -> uN 32 r.1.
Proof.
  unfold parse_u32. destruct (Z.ltb_spec (zlen tail) 4); [done|]. intros E. minvs.
  apply from_le_u32. rewrite zlen_slice; lia.
Qed.
Lemma parse_i32_width tail r : parse_i32 tail = Ok r -> iN 32 r.1.
Proof.
  unfold parse_i32. destruct (zlen tail <? 4); [done|]. intros E. minvs. apply from_le_i32_range.
Qed.
Lemma parse_arg_typed tail t r : parse_arg tail t = Ok r -> type_of r.1 = t /\ arg_width r.1.
Proof.
  destruct t; intros (x & Ex & [= <-])%bind_Ok; split; try done; cbn.
  - by eapply parse_u32_width.
  - by eapply parse_i32_width.
  - by eapply parse_u32_width.
Qed.
Lemma parse_msg_typed m msg args : parse_msg m msg = Ok args ->
  List.map type_of args = g_args m /\ Forall arg_width args.
Proof.
  unfold parse_msg. assert (Hgo : forall l tail r, parse_msg_args tail l = Ok r ->
    List.map type_of r.1 = l /\ Forall arg_width r.1).
  { induction l as [|t l IH]; cbn [parse_msg_args]; intros tail r; [by intros [= <-]|].
    intros (a & [Ht Hw]%parse_arg_typed & E)%bind_Ok. apply bind_Ok in E as (_ & _ & E).
    apply bind_Ok in E as (rest & [IHt IHw]%IH & [= <-]). cbn. split; [by f_equal|by constructor]. }
  destruct (g_args m) as [|t l]; [by destruct (_ =? _); [intros [= <-]|]|].
  destruct (_ <? _); [done|]. intros (r & Er%Hgo & E)%bind_Ok.
  destruct (_ =? _); [|done]. by injection E as <-.
Qed.

(** ** The invariant *)
Inductive kind := KFile | KPipe | KDmabuf | KTimeline.
Definition kind_of (s : ShadowFd) : kind :=
  match s with FileFd _ _ _ => KFile | PipeFd _ => KPipe | DmabufFd _ => KDmabuf | TimelineFd _ => KTimeline end.
(** [rid] is tracked, as a [ShadowFd] of kind [k]. *)
Definition is_kind (m : gmap Z ShadowFd) (rid : Z) (k : kind) : Prop := kind_of <$> m !! rid = Some k.

Definition view_ok (a : BufferAttachment) : Prop :=
  0 < scale a <= i32_max /\ src_ok (viewport_src a) /\ dst_ok (viewport_dst a).
Record history_ok (h : list DamageBatch) : Prop := {
  su_seven : length h = 7%nat;
  su_batches : Forall batch_ok h;
  su_views : Forall (fun b => view_ok (attachment b)) h }.
(** A point is on a timeline. *)
Definition point_ok (m : gmap Z ShadowFd) (p : Z * Z) : Prop := is_kind m p.2 KTimeline.
Definition points_ok (m : gmap Z ShadowFd) (s : ObjWlSurface) : Prop :=
  (forall p, acquire_pt s = Some p -> point_ok m p) /\ (forall p, release_pt s = Some p -> point_ok m p).
(** A buffer with a layout is in a file; one without is a DMABUF. *)
Definition buffer_ok (m : gmap Z ShadowFd) (rid : Z) (shm : option ObjWlBufferShm) : Prop :=
  match shm with
  | Some info => is_kind m rid KFile /\ shm_ok info
  | None => is_kind m rid KDmabuf
  end.
Definition frame_ok (m : gmap Z ShadowFd) (b : frame_buffer) : Prop :=
  match b with Some (rid, shm) => buffer_ok m rid shm | None => True end.

Definition typed (m : gmap Z ShadowFd) (o : WpObject) : Prop :=
  match extra o with
  | XSurface s => obj_type o = I.WlSurface /\ history_ok (damage_history s) /\ points_ok m s
  | XBuffer b => obj_type o = I.WlBuffer /\ buffer_ok m (sfd b) (shm_info b)
  | XRegistry _ => obj_type o = I.WlRegistry
  | XShmPool rid => obj_type o = I.WlShmPool /\ is_Some (m !! rid)
  | XViewport _ => obj_type o = I.WpViewport
  | XDmabuf _ => obj_type o = I.ZwpLinuxDmabufV1
  | XFeedback f => obj_type o = I.ZwpLinuxDmabufFeedbackV1 /\
                   (forall rid sz, queued_format_table f = Some (rid, sz) -> is_kind m rid KFile)
  | XParams p => obj_type o = I.ZwpLinuxBufferParamsV1 /\
                 (forall rid, dmabuf p = Some rid -> is_kind m rid KDmabuf)
  | XScreencopyFrame b => obj_type o = I.ZwlrScreencopyFrameV1 /\ frame_ok m b
  | XSession _ => obj_type o = I.ExtImageCopyCaptureSessionV1
  | XCaptureFrame f => obj_type o = I.ExtImageCopyCaptureFrameV1 /\ frame_ok m (buffer f)
  | XGammaControl sz => obj_type o = I.ZwlrGammaControlV1 /\
                        match sz with Some n => 0 <= 6 * n <= u32_max | None => True end
  | XSyncobjSurface _ => obj_type o = I.WpLinuxDrmSyncobjSurfaceV1
  | XTimeline rid => obj_type o = I.WpLinuxDrmSyncobjTimelineV1 /\ is_kind m rid KTimeline
  | XNone => True
  end.
Definition queue_rids (t : TranslationInfo) : list Z :=
  match t with FromChannel x y => x ++ y | FromWayland _ y => y end.
(** A [ShadowFd] has the number it is tracked under; the points of a DMABUF are on timelines,
    which note for each release point the DMABUF it is for. *)
Definition sfd_ok (m : gmap Z ShadowFd) (rid : Z) (s : ShadowFd) : Prop :=
  match s with
  | FileFd _ f _ => remote_id f = rid
  | PipeFd p => pipe_rid p = rid
  | DmabufFd d => dmabuf_rid d = rid /\ Forall (point_ok m) (acquires d) /\
                  map_Forall (fun k t => t = k.1 /\ is_kind m t KTimeline) (releases d)
  | TimelineFd t => timeline_rid t = rid /\ Forall (fun p => is_kind m p.2 KDmabuf) (timeline_releases t)
  end.
Record state_ok (g : Globals) (t : TranslationInfo) : Prop := {
  so_objects : map_Forall (fun _ o => typed (map g) o) (objects g);
  so_queue : Forall (fun rid => is_Some (map g !! rid)) (queue_rids t);
  so_sfds : map_Forall (sfd_ok (map g)) (map g);
  (** the numbers still to be given are not used *)
  so_fresh : map_Forall (fun rid _ => Z.sgn rid = Z.sgn (max_local_id g) ->
               Z.abs rid < Z.abs (max_local_id g)) (map g);
  so_local : max_local_id g <> 0 }.
Definition wf (st : St) : Prop := state_ok (glob st) (transl st).

(** ** Changes that keep it *)
(** What is tracked stays tracked, and keeps its kind. *)
Definition grows (m m' : gmap Z ShadowFd) : Prop := forall rid k, is_kind m rid k -> is_kind m' rid k.
#[global] Instance grows_preorder : PreOrder grows.
Proof. split; [by intros m rid k|]. intros a b c H1 H2 rid k Hk. by apply H2, H1. Qed.
Lemma kind_found m rid s : m !! rid = Some s -> is_kind m rid (kind_of s).
Proof. unfold is_kind. by intros ->. Qed.
Lemma kind_is_Some m rid k : is_kind m rid k -> is_Some (m !! rid).
Proof. unfold is_kind. destruct (m !! rid); [by eexists|done]. Qed.
Lemma kind_unique m rid s k : m !! rid = Some s -> is_kind m rid k -> kind_of s = k.
Proof. unfold is_kind. intros ->. by intros [= <-]. Qed.
Lemma grows_Some m m' rid : grows m m' -> is_Some (m !! rid) -> is_Some (m' !! rid).
Proof. intros Hg [s Hs]. by eapply kind_is_Some, Hg, kind_found. Qed.
Lemma grows_insert m rid s : (forall s0, m !! rid = Some s0 -> kind_of s = kind_of s0) -> grows m (<[rid := s]> m).
Proof.
  intros Hs r k. unfold is_kind. destruct (decide (r = rid)) as [->|]; [|by rewrite lookup_insert_ne].
  rewrite lookup_insert_eq. destruct (m !! rid) as [s0|] eqn:E; [|done]. cbn. by rewrite (Hs s0 eq_refl).
Qed.
Lemma buffer_grows m m' rid shm : grows m m' -> buffer_ok m rid shm -> buffer_ok m' rid shm.
Proof. intros Hg. destruct shm; cbn; [intros [? ?]; split; auto|auto]. Qed.
Lemma points_grows m m' s : grows m m' -> points_ok m s -> points_ok m' s.
Proof. intros Hg [H1 H2]. split; intros p Hp; [apply Hg, (H1 p Hp)|apply Hg, (H2 p Hp)]. Qed.
Lemma typed_grows m m' o : grows m m' -> typed m o -> typed m' o.
Proof.
  intros Hg. unfold typed. destruct (extra o); try done.
  - intros (? & ? & ?). split_and!; [done..|by eapply points_grows].
  - intros [? ?]. split; [done|by eapply buffer_grows].
  - intros [? ?]. split; [done|by eapply grows_Some].
  - intros [? Hq]. split; [done|]. intros rid sz Hr. eapply Hg, Hq, Hr.
  - intros [? Hq]. split; [done|]. intros rid Hr. by apply Hg, Hq.
  - intros [? Hb]. split; [done|]. destruct buffer as [[]|]; [by eapply buffer_grows|done].
  - intros [? Hb]. split; [done|]. destruct (buffer f) as [[]|]; [by eapply buffer_grows|done].
  - intros [? ?]. split; [done|by apply Hg].
Qed.
Lemma sfd_grows m m' rid s : grows m m' -> sfd_ok m rid s -> sfd_ok m' rid s.
Proof.
  intros Hg. destruct s; try done; cbn.
  - intros (? & Ha & Hr). split_and!; [done|..].
    + eapply Forall_impl; [exact Ha|]. intros p. apply Hg.
    + eapply map_Forall_impl; [exact Hr|]. intros ? ? [? ?]. split; [done|by apply Hg].
  - intros (? & Hr). split; [done|]. eapply Forall_impl; [exact Hr|]. intros p. apply Hg.
Qed.

Lemma wf_insert st id o : wf st -> typed (map (glob st)) o -> wf (upd_objects st <[id := o]>).
Proof. intros [] ?. constructor; cbn; try done. by apply map_Forall_insert_2. Qed.
Lemma wf_delete st id : wf st -> wf (upd_objects st (delete id)).
Proof. intros []. constructor; cbn; try done. by apply map_Forall_delete. Qed.
(** A [ShadowFd] is replaced by one of the same kind. *)
Lemma wf_sfd st rid s s' : wf st -> map (glob st) !! rid = Some s -> kind_of s' = kind_of s ->
  sfd_ok (map (glob st)) rid s' -> wf (set_sfd st rid s') /\ grows (map (glob st)) (map (glob (set_sfd st rid s'))).
Proof.
  intros [Ho Hq Hn Hf Hl] Hr Hk Hs. assert (Hg : grows (map (glob st)) (<[rid := s']> (map (glob st)))).
  { apply grows_insert. intros s0 E. congruence. }
  split; [|done]. constructor; cbn; try done.
  - eapply map_Forall_impl; [exact Ho|]. intros ? ?. by apply typed_grows.
  - eapply Forall_impl; [exact Hq|]. intros r. by apply grows_Some.
  - apply map_Forall_insert_2; [by eapply sfd_grows|]. eapply map_Forall_impl; [exact Hn|]. intros ? ?. by apply sfd_grows.
  - apply map_Forall_insert_2; [exact (Hf _ _ Hr)|done].
Qed.
Lemma wf_file st rid fd f p fd' f' p' : wf st -> map (glob st) !! rid = Some (FileFd fd f p) ->
  remote_id f' = remote_id f -> wf (set_sfd st rid (FileFd fd' f' p')).
Proof. intros Hw Hr He. eapply wf_sfd; [done|done|done|]. cbn. rewrite He. exact (so_sfds _ _ Hw _ _ Hr). Qed.
Lemma wf_queue st t : wf st -> Forall (fun rid => is_Some (map (glob st) !! rid)) (queue_rids t) ->
  wf (with_transl st t).
Proof. intros [] ?. by constructor. Qed.

(** A number newly given is not in use, and tracking it keeps the invariant. *)
Lemma state_new g t g' s : state_ok g t -> let v := max_local_id g in
  objects g' = objects g -> map g' = <[v := s]> (map g) -> max_local_id g' = v + Z.sgn v -> sfd_ok (map g) v s ->
  grows (map g) (map g') /\ state_ok g' t.
Proof.
  intros [Ho Hq Hn Hf Hl] v Eo Em El Hs.
  assert (Hv : map g !! v = None).
  { destruct (map g !! v) as [s'|] eqn:E; [|done]. specialize (Hf _ _ E). cbn in Hf. unfold v in *. lia. }
  assert (Hg : grows (map g) (map g')) by (rewrite Em; apply grows_insert; congruence).
  split; [done|]. constructor.
  - rewrite Eo. eapply map_Forall_impl; [exact Ho|]. intros ? ?. by apply typed_grows.
  - eapply Forall_impl; [exact Hq|]. intros r. by apply grows_Some.
  - rewrite Em at 2. apply map_Forall_insert_2; [by eapply sfd_grows|].
    eapply map_Forall_impl; [exact Hn|]. intros ? ?. by apply sfd_grows.
  - rewrite Em, El. apply map_Forall_insert_2; [unfold v; lia|].
    eapply map_Forall_impl; [exact Hf|]. cbn. intros r _ Hr Hsg. unfold v in *. lia.
  - rewrite El. unfold v. lia.
Qed.
Lemma allocate_Ok g r : allocate_rid g = Ok r ->
  r.1 = max_local_id g /\ objects r.2 = objects g /\ map r.2 = map g /\
  max_local_id r.2 = max_local_id g + Z.sgn (max_local_id g).
Proof. unfold allocate_rid. destruct (in_I _ _); [|done]. by intros [= <-]. Qed.

(** The ways a [ShadowFd] is made. *)
Definition tracked_new (st : St) (k : kind) (v : Z * Globals) : Prop :=
  is_kind (map v.2) v.1 k /\ grows (map (glob st)) (map v.2) /\
  forall t', (forall rid, rid ∈ queue_rids t' -> rid = v.1 \/ rid ∈ queue_rids (transl st)) ->
    wf (with_transl (with_glob st v.2) t').
Lemma tracked_new_ok st v s : wf st -> v.1 = max_local_id (glob st) -> objects v.2 = objects (glob st) ->
  map v.2 = <[v.1 := s]> (map (glob st)) ->
  max_local_id v.2 = max_local_id (glob st) + Z.sgn (max_local_id (glob st)) ->
  sfd_ok (map (glob st)) v.1 s -> tracked_new st (kind_of s) v.
Proof.
  intros Hw E1 E2 E3 E4 Hs. rewrite E1 in E3, Hs.
  destruct (state_new _ _ v.2 s Hw E2 E3 E4 Hs) as [Hg Hok].
  assert (Hv : is_kind (map v.2) v.1 (kind_of s)) by (unfold is_kind; by rewrite E3, E1, lookup_insert_eq).
  split_and!; [done..|]. intros t' Ht. apply (wf_queue (with_glob st v.2)); [done|]. apply Forall_forall.
  intros rid [->|Hr]%Ht; [by eapply kind_is_Some|].
  destruct Hok as [_ Hq _ _ _]. rewrite Forall_forall in Hq. by apply Hq.
Qed.
Ltac new_sfd := intros Hw; lazymatch goal with |- ?t = Ok _ -> _ => let f := head_of t in unfold f end;
  intros (a & (E1 & E2 & E3 & E4)%allocate_Ok & E)%bind_Ok; destruct a as [rid g]; cbn in *.
Ltac new_sfd_ok E3 := minvs; lazymatch goal with |- tracked_new _ _ (_, set_map _ (<[_ := ?s]> _)) => apply (tracked_new_ok _ _ s)
  | |- tracked_new _ _ (_, set_pipes (set_map _ (<[_ := ?s]> _)) _) => apply (tracked_new_ok _ _ s) end;
  cbn; [done|done|done|by rewrite E3|done|done].
Lemma translate_shm_new mm st fd sz d r l v : wf st ->
  translate_shm_fd mm (glob st) fd sz d r l = Ok v -> tracked_new st KFile v.
Proof. new_sfd. new_sfd_ok E3. Qed.
Lemma translate_pipe_new st fd b v : wf st -> translate_pipe_fd (glob st) fd b = Ok v -> tracked_new st KPipe v.
Proof. new_sfd. new_sfd_ok E3. Qed.
Lemma translate_dmabuf_new `{Gpu} st w h f planes id v : wf st ->
  translate_dmabuf_fd (glob st) w h f planes id = Ok v -> tracked_new st KDmabuf v.
Proof. new_sfd. new_sfd_ok E3. Qed.
Lemma translate_timeline_new `{Gpu} st fd id v : wf st ->
  translate_timeline (glob st) fd id = Ok v -> tracked_new st KTimeline v.
Proof. new_sfd. destruct (dmabuf_device g); try done. new_sfd_ok E3. Qed.

(** ** Each arm keeps the invariant *)
Definition keeps (r : ProcMsg * St) : Prop := wf r.2.
(** A step inside an arm. *)
Definition good (st st' : St) : Prop := wf st' /\ grows (map (glob st)) (map (glob st')).
Lemma good_refl st : wf st -> good st st.
Proof. done. Qed.
Lemma good_trans a b c : good a b -> good b c -> good a c.
Proof. intros [_ H1] [? H2]. split; [done|by etrans]. Qed.
Lemma good_wf a b : good a b -> wf b.
Proof. by intros []. Qed.
Lemma foldM_good {A} (f : St -> A -> res St) l : (forall s a s', wf s -> f s a = Ok s' -> good s s') ->
  forall s s', wf s -> foldM f s l = Ok s' -> good s s'.
Proof.
  intros Hf. induction l as [|a l IH]; cbn [foldM]; intros s s' Hw; [by intros [= <-]|].
  intros (s1 & E1 & E)%bind_Ok. apply Hf in E1; [|done]. eapply good_trans; [done|].
  apply IH; [by destruct E1|done].
Qed.
Lemma wf_wrote st w : wf st -> wf (wrote st w).
Proof. done. Qed.
Lemma wf_glob st g : wf st -> objects g = objects (glob st) -> map g = map (glob st) ->
  max_local_id g = max_local_id (glob st) -> wf (with_glob st g).
Proof. intros [] E1 E2 E3. constructor; cbn; by rewrite ?E1, ?E2, ?E3. Qed.
Lemma wf_set_extra st id o x : wf st -> typed (map (glob st)) (MkObject (obj_type o) x) -> wf (set_extra st id o x).
Proof. apply wf_insert. Qed.
Lemma wf_moved st rid x y : wf st -> transl st = FromChannel (rid :: x) y ->
  wf (with_transl st (FromChannel x (y ++ [rid]))) /\ is_Some (map (glob st) !! rid).
Proof.
  intros Hw Et. pose proof (so_queue _ _ Hw) as Hq. rewrite Et in Hq. cbn in Hq.
  apply Forall_cons in Hq as [Hr Hq]. split; [|done]. apply wf_queue; [done|]. cbn.
  rewrite app_assoc. apply Forall_app. split; [done|by apply Forall_singleton].
Qed.
(** Taking from a queue without passing on. *)
Lemma wf_taken st t : wf st -> (forall rid, rid ∈ queue_rids t -> rid ∈ queue_rids (transl st)) ->
  wf (with_transl st t).
Proof.
  intros Hw Ht. apply wf_queue; [done|]. apply Forall_forall. intros rid Hr%Ht.
  pose proof (so_queue _ _ Hw) as Hq. rewrite Forall_forall in Hq. by apply Hq.
Qed.
Lemma emit_good m id tag args st st' : wf st -> emit m id tag args st = Ok st' -> good st st'.
Proof. by intros Hw (w & _ & [= <-])%bind_Ok. Qed.
Lemma typed_extra m o x : typed m o -> extra o = x -> typed m (MkObject (obj_type o) x).
Proof. unfold typed. intros Ht <-. exact Ht. Qed.
#[local] Hint Resolve wf_wrote wf_insert wf_delete wf_set_extra good_refl good_wf : core.

(** The effect of the calls of an arm on [wf]. *)
Ltac wf_hyps := repeat match goal with
  | E : copy_msg _ _ = Ok _ |- _ => apply copy_msg_Ok in E
  | E : insert_new_object _ _ _ = Ok _ |- _ => apply insert_new_object_Ok in E as [? E]
  | E : copy_msg_tag_fd _ _ _ = Ok _ |- _ => apply copy_msg_tag_fd_Ok in E; [|done]
  end; subst.
Ltac wf_arm := branch; wf_hyps; unfold keeps; cbn [snd]; auto.
(** The data of the object, and the ranges of the arguments. *)
Ltac use_extra := repeat match goal with
  | E : extra ?o = _, Ht : typed _ ?o |- _ => eapply typed_extra in E; [|exact Ht]; cbn in E
  | E : parse_msg _ _ = Ok _ |- _ => apply parse_msg_typed in E as [_ E]
  | E : get_sfd _ _ = Ok _ |- _ => apply get_sfd_Ok in E
  end;
  repeat match goal with
  | E : Forall arg_width (_ :: _) |- _ => let Ha := fresh "Ha" in apply Forall_cons in E as [Ha E]; cbn [arg_width] in Ha
  | E : _ /\ _ |- _ => destruct E
  end.

(** *** Surfaces *)
Lemma history_pending s f : history_ok (damage_history s) ->
  (forall b, batch_ok b -> view_ok (attachment b) -> batch_ok (f b) /\ view_ok (attachment (f b))) ->
  history_ok (damage_history (upd_pending s f)).
Proof.
  intros [Hl Hb Hv] Hf. destruct (damage_history s) as [|p rest] eqn:E; [done|].
  apply Forall_cons in Hb as [Hp Hb], Hv as [Hvp Hv]. destruct (Hf p Hp Hvp).
  constructor; unfold upd_pending; cbn; rewrite E; [done|by constructor..].
Qed.
Lemma history_attachment s f : history_ok (damage_history s) -> (forall a, view_ok a -> view_ok (f a)) ->
  history_ok (damage_history (upd_pending s (upd_attachment f))).
Proof. intros Hs Hf. apply history_pending; [done|]. intros b [] Hv. split; [by constructor|by apply Hf]. Qed.
(** Batches move on by one; the attachment committed is the pending one but for its buffer. *)
Lemma history_rotate h p rest uid sz : history_ok h -> h = p :: rest ->
  history_ok (rotate_history h (MkAtt (scale (attachment p)) (transform (attachment p))
    (viewport_src (attachment p)) (viewport_dst (attachment p)) uid sz)).
Proof.
  intros [Hl Hb Hv] ->. apply Forall_cons in Hb as [[] Hb], Hv as [Hvp Hv]. constructor; cbn.
  - rewrite length_take. cbn in Hl. lia.
  - constructor; [by constructor|]. constructor; [by constructor|by apply Forall_take].
  - constructor; [done|]. constructor; [done|by apply Forall_take].
Qed.
Lemma index_0 {A} (l : list A) p : index l 0 = Ok p -> exists rest, l = p :: rest.
Proof. destruct l; [done|]. intros [= <-]. by eexists. Qed.
Lemma history_commit `{SortUnstable} h b uid d r : history_ok h -> commit_shm b uid h d = Ok r -> history_ok r.1.
Proof.
  intros Hh (p & [rest Ep]%index_0 & E)%bind_Ok. apply bind_Ok in E as (_ & _ & E).
  apply bind_Ok in E as (d' & _ & [= <-]). by eapply history_rotate.
Qed.
Lemma history_commit_dmabuf `{Gpu} `{SortUnstable} h y uid r : history_ok h -> commit_dmabuf y uid h = Ok r ->
  history_ok r.1.
Proof.
  intros Hh (p & [rest Ep]%index_0 & E)%bind_Ok. minvs. cbv zeta in E. minvs. cbn [fst]. by apply (history_rotate (p :: rest) p rest).
Qed.
Lemma history_commit_none h h' : history_ok h -> commit_none h = Ok h' -> history_ok h'.
Proof.
  intros [Hl Hb Hv] (p & [rest ->]%index_0 & [= <-])%bind_Ok. apply Forall_cons in Hv as [Hvp _].
  constructor; cbn; [done| |]; repeat (constructor; [first [done | by constructor]|]); constructor.
Qed.
Lemma history_initial : history_ok (replicate 7 initial_batch).
Proof.
  constructor; [done| |]; apply Forall_replicate; [by constructor|].
  unfold view_ok, initial_batch, i32_max. cbn. lia.
Qed.
Lemma viewport_wf st o f st' : wf st ->
  (forall s, history_ok (damage_history s) -> history_ok (damage_history (f s)) /\
     acquire_pt (f s) = acquire_pt s /\ release_pt (f s) = release_pt s) ->
  upd_viewport_surface st o f = Ok st' -> wf st'.
Proof.
  intros Hw Hf. unfold upd_viewport_surface. destruct o as [i|]; [|by intros [= <-]].
  destruct (objects (glob st) !! i) as [o|] eqn:Eo; [|by intros [= <-]].
  destruct (extra o) as [s| | | | | | | | | | | | | |] eqn:Ex; try done. intros [= <-].
  apply (so_objects _ _ Hw) in Eo. eapply typed_extra in Eo; [|exact Ex]. destruct Eo as (Et & Hs & Hp).
  destruct (Hf s Hs) as (Hs' & Ea & Er). apply wf_set_extra; [done|]. split_and!; [done..|].
  unfold points_ok. by rewrite Ea, Er.
Qed.

Section Props.
Context `{Sys} `{Gpu} `{SortUnstable}.

Lemma fixed_file_wf msg st sz : 8 <= zlen msg -> wf st -> post keeps (fixed_file msg st sz).
Proof.
  intros Hl Hw. unfold fixed_file. apply post_bind. intros [w st'] E.
  unfold translate_or_wait_for_fixed_file in E. cbn [fst snd].
  assert (Hst : wf st'); [|destruct w; wf_arm].
  destruct (transl st) as [[|rid x] y|[|fd x] y] eqn:Et; try done.
  - apply bind_Ok in E as (p & _ & E). destruct p; injection E as _ <-; [done|]. by eapply wf_moved.
  - apply bind_Ok in E as (v & Ev%translate_shm_new & E); [|done]. injection E as _ <-.
    apply Ev. intros r. rewrite Et. cbn. set_solver.
Qed.
Lemma register_wf st msg meth st' : register_generic_new_ids st msg meth = Ok st' -> wf st -> wf st'.
Proof. apply register_inv. intros. by apply wf_insert. Qed.
Lemma default_wf msg st meth is_req id : wf st -> post keeps (default_proc_way_msg msg st meth is_req id).
Proof.
  intros Hw. unfold default_proc_way_msg. wf_arm.
  match goal with E : register_generic_new_ids _ _ _ = Ok _ |- _ => apply register_wf in E; [|done] end.
  match goal with E : (if ?b then _ else _) = Ok _ |- _ => destruct b end; try case_match; minvs; auto.
Qed.
Lemma unknown_wf msg st : wf st -> post keeps (proc_unknown_way_msg msg st).
Proof.
  intros Hw. unfold proc_unknown_way_msg. destruct (transl st) as [x y|x y] eqn:Et; wf_arm.
  apply wf_wrote, wf_queue; [done|]. pose proof (so_queue _ _ Hw) as Hq. rewrite Et in Hq. cbn in *.
  rewrite (Permutation_app_comm y), app_assoc. by rewrite (Permutation_app_comm (drop _ _)), take_drop.
Qed.

(** *** Commits *)
Definition dmabuf_ok (m : gmap Z ShadowFd) (rid : Z) (d : ShadowFdDmabuf) : Prop := sfd_ok m rid (DmabufFd d).
Lemma post_apply_ok m rid d d' : dmabuf_post_apply_task_operations d = Ok d' -> dmabuf_ok m rid d -> dmabuf_ok m rid d'.
Proof.
  unfold dmabuf_post_apply_task_operations. destruct (buf d); [by intros [= <-]|]. intros E. minvs. done.
Qed.
Lemma add_points_good st rid d0 d a b r : wf st -> map (glob st) !! rid = Some (DmabufFd d0) ->
  dmabuf_ok (map (glob st)) rid d ->
  (forall p, a = Some p -> point_ok (map (glob st)) p) -> add_points st rid d a b = Ok r ->
  good st r.1 /\ dmabuf_ok (map (glob r.1)) rid r.2.
Proof.
  intros Hw Hr (Hid & Ha & Hrel) Hp (x & E & [= <-])%bind_Ok. cbn [fst snd].
  assert (Hacq : forall m, grows (map (glob st)) m ->
    Forall (point_ok m) (acquires d ++ match a with Some p => [p] | None => [] end)).
  { intros m Hg. apply Forall_app. split; [eapply Forall_impl; [exact Ha|]; intros p; apply Hg|].
    destruct a as [p|]; [|done]. apply Forall_singleton, Hg. by apply Hp. }
  destruct b as [[pt tl]|].
  - apply bind_Ok in E as (s & Es%get_sfd_Ok & E). destruct s as [| | |t]; try done. injection E as <-.
    destruct (so_sfds _ _ Hw _ _ Es) as [Ht Hrs]. cbn [fst snd].
    destruct (wf_sfd st tl (TimelineFd t) (TimelineFd (MkTimeline (timeline_rid t) (timeline_only_here t)
      (semaphore t) (timeline_wayland_id t) (timeline_releases t ++ [(pt, rid)]) (timeline_export_fd t)))) as [Hw' Hg]; [done..| |].
    { split; [done|]. cbn. apply Forall_app. split; [done|]. apply Forall_singleton. by apply kind_found in Hr. }
    split; [done|]. split_and!; [done|by apply Hacq|]. cbn [releases]. apply map_Forall_insert_2.
    + split; [done|]. apply Hg. by apply kind_found in Es.
    + eapply map_Forall_impl; [exact Hrel|]. intros ? ? [? ?]. split; [done|by apply Hg].
  - injection E as <-. split; [done|]. split_and!; [done|by apply Hacq|done].
Qed.
Lemma good_sfd st st' rid s s' : good st st' -> map (glob st') !! rid = Some s -> kind_of s' = kind_of s ->
  sfd_ok (map (glob st')) rid s' -> good st (set_sfd st' rid s').
Proof. intros [Hw Hg] Hr Hk Hs. destruct (wf_sfd st' rid s s') as [? Hg']; [done..|]. split; [done|by etrans]. Qed.
(** After a step, a DMABUF is still one. *)
Lemma good_dmabuf st st' rid d d' : good st st' -> map (glob st) !! rid = Some (DmabufFd d) ->
  dmabuf_ok (map (glob st')) rid d' -> good st (set_sfd st' rid (DmabufFd d')).
Proof.
  intros [Hw Hg] Hr%kind_found Hd. apply Hg in Hr. unfold is_kind in Hr.
  destruct (map (glob st') !! rid) as [s|] eqn:E; [|done]. injection Hr as Hk. by eapply good_sfd.
Qed.

Lemma commit_display_good st x st' : wf st -> points_ok (map (glob st)) x ->
  commit_display st x = Ok st' -> good st st'.
Proof.
  intros Hw [Hp _]. unfold commit_display. destruct (attached_buffer _ _) as [b|]; [|by intros [= <-]].
  intros (s & Es%get_sfd_Ok & E)%bind_Ok. destruct s as [| |y|]; try by injection E as <-.
  apply bind_Ok in E as (y' & Ey & E). eapply post_apply_ok in Ey; [|exact (so_sfds _ _ Hw _ _ Es)].
  apply bind_Ok in E as ([st1 y1] & E1 & E). eapply add_points_good in E1 as [Hg Hy1]; [|done..].
  cbn [fst snd] in *. apply bind_Ok in E as (y2 & E2 & [= <-]). eapply good_dmabuf; [done|done|].
  destruct (_ =? 0); minvs; [|done]. destruct Hy1 as (? & ? & ?). by split_and!.
Qed.
Lemma commit_application_good st x r : wf st -> points_ok (map (glob st)) x -> history_ok (damage_history x) ->
  commit_application st x = Ok r -> good st r.2 /\ history_ok r.1.
Proof.
  intros Hw [Hp _] Hh. unfold commit_application. destruct (attached_buffer _ _) as [b|].
  - intros (s & Es%get_sfd_Ok & E)%bind_Ok. pose proof (so_sfds _ _ Hw _ _ Es) as Hs.
    destruct s as [fd f p| |y|]; try done.
    + destruct (shm_info b); [|done]. apply bind_Ok in E as (r' & Er & [= <-]). cbn [fst snd].
      split; [by eapply good_sfd|by eapply history_commit].
    + apply bind_Ok in E as (r' & Er & E). apply bind_Ok in E as (p & Ep & [= <-]). cbn [fst snd].
      split; [|by eapply history_commit_dmabuf].
      eapply add_points_good in Ep as [Hg Hd]; [|done..]. by eapply good_dmabuf.
  - intros (h & Eh & [= <-])%bind_Ok. split; [done|by eapply history_commit_none].
Qed.

Section Surface.
Context (msg : bytes) (st : St) (id : Z) (obj : WpObject).
Context (Hw : wf st) (Ht : typed (map (glob st)) obj).
#[local] Set Default Proof Using "All".

Lemma surface_destroy_wf : post keeps (arm_surface_destroy msg st id obj).
Proof.
  unfold arm_surface_destroy. wf_arm; use_extra; try (apply wf_set_extra; [done|]; by split_and!).
  assert (Hw' : wf (set_extra (wrote st (msg, drop (length msg) (dst st))) id obj
    (XSurface (MkSurface (attached_buffer_id s) (damage_history s) (acquire_pt s) (release_pt s) None)))).
  { apply wf_set_extra; [done|]. by split_and!. }
  apply wf_set_extra; [done|]. match goal with E : _ !! _ = Some _, Ex : extra _ = XViewport _ |- _ =>
    exact (typed_extra _ _ _ (so_objects _ _ Hw' _ _ E) Ex) end.
Qed.
Lemma surface_attach_wf : post keeps (arm_surface_attach msg st id obj).
Proof. unfold arm_surface_attach. wf_arm. use_extra. apply wf_wrote, wf_set_extra; [done|]. by split_and!. Qed.
Lemma set_buffer_scale_wf : post keeps (arm_set_buffer_scale msg st id obj).
Proof.
  unfold arm_set_buffer_scale. wf_arm. use_extra. apply wf_set_extra; [done|]. split_and!; [done| |done].
  apply history_attachment; [done|]. intros a (? & ? & ?). split_and!; cbn; try done; unfold iN, i32_max in *; lia.
Qed.
Lemma set_buffer_transform_wf : post keeps (arm_set_buffer_transform msg st id obj).
Proof.
  unfold arm_set_buffer_transform. wf_arm. use_extra. apply wf_set_extra; [done|]. split_and!; [done| |done].
  by apply history_attachment.
Qed.
Lemma damage_wf m push : (forall r b, batch_ok b -> wl_ok r -> batch_ok (push r b) /\ attachment (push r b) = attachment b) ->
  post keeps (arm_damage m push msg st id obj).
Proof.
  intros Hp. unfold arm_damage. wf_arm. use_extra. apply wf_set_extra; [done|]. split_and!; [done| |done].
  apply history_pending; [done|]. intros b Hb Hv. destruct (Hp (MkWl v v0 v1 v2) b Hb) as [? ->]; [|done].
  unfold wl_ok, pos31, iN, i32_max in *. cbn. lia.
Qed.
Lemma commit_wf : post keeps (arm_commit msg st id obj).
Proof.
  unfold arm_commit. wf_arm; use_extra. set (st1 := wrote st _) in *. assert (Hw1 : wf st1) by done.
  match goal with E : (if ?b then _ else _) = Ok ?r |- _ =>
    assert (Hr : good st1 r.2 /\ history_ok r.1); [destruct b|] end.
  - minvs. split; [by eapply commit_display_good|done].
  - by eapply commit_application_good.
  - destruct Hr as [[Hw2 _] Hh]. apply wf_set_extra; [done|]. split_and!; [done|done|]. by split.
Qed.
End Surface.

Section Others.
Context (msg : bytes) (st : St) (id : Z) (obj : WpObject).
Context (Hw : wf st) (Ht : typed (map (glob st)) obj) (Hl : 8 <= zlen msg).
#[local] Set Default Proof Using "All".

Lemma create_pool_wf : post keeps (arm_create_pool msg st).
Proof.
  unfold arm_create_pool. wf_arm. apply wf_wrote.
  match goal with E : match _ with FromChannel _ _ => _ | FromWayland _ _ => _ end = Ok ?r |- _ =>
    assert (Hr : wf r.2 /\ is_Some (map (glob r.2) !! r.1)) end.
  { destruct (transl st) as [[|rid x] y|[|fd x] y] eqn:Et; try done.
    - minvs. cbn [fst snd]. by apply (wf_moved st).
    - match goal with E : _ = Ok _ |- _ => apply bind_Ok in E as (v' & (Hk & _ & Ev)%translate_shm_new & [= <-]) end; [|done].
      split; [|by eapply kind_is_Some]. apply Ev. intros r. rewrite Et. cbn. set_solver. }
  destruct Hr. by apply wf_insert.
Qed.
Lemma create_buffer_wf : post keeps (arm_create_buffer msg st obj).
Proof.
  unfold arm_create_buffer. wf_arm. use_extra. apply wf_glob; [|done..]. apply wf_insert; [done|].
  match goal with E : map _ !! _ = Some _ |- _ => apply kind_found in E end.
  cbn in *. split_and!; [done|done|]. constructor; unfold i31, pos31, iN, i32_max in *; cbn; lia.
Qed.
Lemma pool_resize_wf : post keeps (arm_pool_resize msg st obj).
Proof. unfold arm_pool_resize. wf_arm. use_extra. by eapply (wf_file (wrote st _)). Qed.
Lemma viewport_destroy_wf : post keeps (arm_viewport_destroy msg st id obj).
Proof.
  unfold arm_viewport_destroy. wf_arm. use_extra. eapply viewport_wf; [| |done].
  - by apply wf_set_extra.
  - intros s Hs. split; [|done]. apply (history_attachment s (set_viewport None None)); [done|].
    by intros a (? & _ & _).
Qed.
Lemma set_destination_wf : post keeps (arm_set_destination msg st obj).
Proof.
  unfold arm_set_destination. wf_arm. use_extra. eapply viewport_wf; [|intros s Hs|done]; [done|]. split; [|done].
  apply (history_attachment s (fun a => set_viewport (viewport_src a) _ a)); [done|].
  intros a (? & ? & _). split; [done|split; [done|]]. cbn.
  match goal with E : (if ?b then _ else _) = Ok ?d |- dst_ok ?d => destruct b; [by injection E as <-|] end.
  match goal with E : (if ?b then _ else _) = Ok ?d |- dst_ok ?d => destruct b eqn:E'; [done|injection E as <-] end.
  unfold dst_ok, pos31, iN, i32_max in *. lia.
Qed.
Lemma set_source_wf : post keeps (arm_set_source msg st obj).
Proof.
  unfold arm_set_source. wf_arm. use_extra. eapply viewport_wf; [|intros s Hs|done]; [done|]. split; [|done].
  apply (history_attachment s (fun a => set_viewport _ (viewport_dst a) a)); [done|].
  intros a (? & _ & ?). split; [done|split; [|done]]. cbn.
  match goal with E : (if ?b then _ else _) = Ok ?d |- src_ok ?d => destruct b; [by injection E as <-|] end.
  match goal with E : (if ?b then _ else _) = Ok ?d |- src_ok ?d => destruct b eqn:E'; [done|injection E as <-] end.
  unfold src_ok, i31, pos31, iN, i32_max in *. lia.
Qed.
Lemma gamma_size_wf : post keeps (arm_gamma_size msg st id obj).
Proof.
  unfold arm_gamma_size. wf_arm. use_extra. apply wf_wrote, wf_set_extra; [done|]. split; [done|].
  match goal with E : (u32_max / 6 <? _) = false |- _ => change (u32_max / 6) with 715827882 in E end.
  unfold uN, u32_max in *. lia.
Qed.
Lemma transfer_wf : post keeps (arm_transfer msg st).
Proof.
  unfold arm_transfer. wf_arm. apply wf_wrote.
  destruct (transl st) as [[|rid x] y|[|fd x] y] eqn:Et; try done.
  - minvs. by eapply wf_moved.
  - match goal with E : _ = Ok _ |- _ => apply bind_Ok in E as (v' & Ev%translate_pipe_new & [= <-]) end; [|done].
    apply Ev. intros r. rewrite Et. cbn. set_solver.
Qed.
Lemma add_icon_wf : post keeps (arm_add_icon_buffer msg st).
Proof. unfold arm_add_icon_buffer. wf_arm. use_extra. by eapply (wf_file (wrote st _)). Qed.

(** Registries. *)
Lemma dmabuf_global_wf r : dmabuf_global (glob st) = Ok r ->
  wf (with_glob st r.2) /\ map r.2 = map (glob st).
Proof. unfold dmabuf_global. intros E. minvs. split; [by apply wf_glob|done]. Qed.
Lemma syncobj_global_wf s name ver r : wf s -> typed (map (glob s)) obj ->
  syncobj_global s id name ver obj = Ok r ->
  wf r.1.2 /\ map (glob r.1.2) = map (glob s) /\ typed (map (glob s)) r.2.
Proof.
  intros Hs Ho. unfold syncobj_global. destruct (dmabuf_device _); intros E; minvs; try done.
  match goal with E : replay_of _ = Ok _ |- _ => unfold replay_of in E; destruct (extra obj) eqn:Ex; try done end.
  assert (typed (map (glob s)) (MkObject (obj_type obj) (XRegistry []))) by by eapply typed_extra in Ex.
  split; [by apply wf_insert|done].
Qed.
Lemma replay_wf intf l s s' : foldM (replay_one id intf) s l = Ok s' -> wf s -> wf s'.
Proof.
  intros E Hs. eapply good_wf, foldM_good; [|done|done]. by intros ? ? ? ? (w & _ & [= <-])%bind_Ok.
Qed.
Lemma registry_global_wf : post keeps (arm_registry_global msg st id obj).
Proof.
  unfold arm_registry_global. apply post_bind. intros a _.
  destruct a as [|[name| | | |] [|[| | |[intf|]|] [|[ver| | | |] [|]]]]; try exact I.
  apply post_bind. intros ver' _. destruct (existsb _ _); [exact Hw|].
  apply post_bind. intros [d st1] Hd. assert (H1' : wf st1 /\ map (glob st1) = map (glob st)).
  { destruct (String.eqb _ _) in Hd; [|by injection Hd as _ <-].
    apply bind_Ok in Hd as (r & Hr%dmabuf_global_wf & [= _ <-]). exact Hr. }
  cbn [fst snd]. destruct H1' as [Hw1 Em1]. destruct d; [exact Hw1|].
  apply post_bind. intros [[dr st2] obj2] Hs.
  assert (H2' : wf st2 /\ map (glob st2) = map (glob st) /\ typed (map (glob st)) obj2).
  { rewrite <- Em1. destruct (String.eqb _ _) in Hs; [|injection Hs as _ <- <-; by rewrite Em1].
    apply syncobj_global_wf in Hs; [done|done|by rewrite Em1]. }
  destruct H2' as (Hw2 & Em2 & Ht2). destruct dr; [exact Hw2|].
  apply post_bind. intros replay Hr. apply post_bind. intros one _. apply post_bind. intros sp _.
  apply post_check; [done|]. intros _. apply post_bind. intros w _.
  destruct (String.eqb _ _) in Hr |- *; [|exact Hw2]. apply post_bind. intros t _. cbv zeta.
  apply post_bind. intros st3 E3. apply post_Ok. unfold keeps. cbn [snd].
  assert (Hx : typed (map (glob st2)) (MkObject (obj_type obj2) (XRegistry []))).
  { unfold replay_of in Hr. destruct (extra obj2) eqn:Ex; try done. rewrite Em2. by eapply typed_extra in Ex. }
  assert (Hw3 : wf (upd_objects (wrote st2 w) <[id := MkObject (obj_type obj2) (XRegistry [])]>)) by auto.
  destruct t; [by eapply replay_wf|by injection E3 as <-].
Qed.
Lemma registry_bind_wf meth is_req : post keeps (arm_registry_bind msg st meth is_req id).
Proof.
  unfold arm_registry_bind. wf_arm; try (by apply default_wf); try (by apply wf_glob).
  apply wf_insert; [|done]. by apply wf_wrote, wf_glob.
Qed.
End Others.

(** *** DMABUFs, timelines and screen capture *)
Lemma advertise_good f mods st : wf st -> good st (advertise f mods st).
Proof. intros Hw. split; [by apply wf_glob|done]. Qed.
Lemma write_modifier_good id f st p st' : wf st -> write_modifier id f st p = Ok st' -> good st st'.
Proof. unfold write_modifier. destruct (split_u64 _). apply emit_good. Qed.
Lemma write_plane_good id st p st' : wf st -> write_plane id st p = Ok st' -> good st st'.
Proof. unfold write_plane. destruct (split_u64 _). apply emit_good. Qed.
Lemma advertise_all_good (l : list (Z * Z)) : forall st, wf st ->
  good st (foldl (fun st f => advertise f.1 [f.2] st) st l).
Proof.
  induction l as [|f l IH]; intros st Hw; [done|]. cbn [foldl].
  eapply good_trans; [by apply (advertise_good f.1 [f.2])|]. by apply IH, wf_glob.
Qed.
Lemma send_tranche_good id dev st t st' : wf st -> send_tranche id dev st t = Ok st' -> good st st'.
Proof.
  intros Hw. unfold send_tranche. pose proof (advertise_all_good (values t) st Hw) as H0'. revert H0'.
  generalize (foldl (fun st f => advertise f.1 [f.2] st) st (values t)). intros st0 G0.
  intros (s1 & E1%emit_good & E)%bind_Ok; [|by eauto]. apply bind_Ok in E as (s2 & E2%emit_good & E); [|by eauto].
  apply bind_Ok in E as (s3 & E3%emit_good & E4%emit_good); eauto 6 using good_trans.
Qed.
Lemma session_format_good id st f st' : wf st -> session_format id st f = Ok st' -> good st st'.
Proof.
  intros Hw. unfold session_format. intros (mods & _ & E)%bind_Ok. pose proof (advertise_good f.1 mods st Hw) as Ha.
  destruct mods; [by injection E as <-|]. apply emit_good in E; [|by eauto]. by eapply good_trans.
Qed.
Lemma orphan_frame_good mods st id st' : wf st -> orphan_frame mods st id = Ok st' -> good st st'.
Proof.
  intros Hw. unfold orphan_frame. intros (o & Eo & E)%bind_Ok.
  destruct (objects (glob st) !! id) as [o'|] eqn:El; [|done]. injection Eo as ->. apply (so_objects _ _ Hw) in El.
  destruct (extra o) eqn:Ex; try done. injection E as <-. eapply typed_extra in El; [|exact Ex].
  split; [|done]. by apply wf_set_extra.
Qed.

(** The file of a buffer is one, when its layout is known. *)
Lemma ready_effect_good st rid shm st' : wf st -> ready_effect st rid shm = Ok st' -> good st st'.
Proof.
  intros Hw. unfold ready_effect. intros (s & Es%get_sfd_Ok & E)%bind_Ok. pose proof (so_sfds _ _ Hw _ _ Es) as Hs.
  destruct (on_display_side _), s; try done; minvs; try done; try by eapply good_sfd.
  eapply good_sfd; [done|done|done|]. by eapply post_apply_ok.
Qed.

Lemma tranche_queued f r : process_dmabuf_feedback f = Ok r -> queued_format_table r.2 = queued_format_table f.
Proof. unfold process_dmabuf_feedback. destruct (_ <? _); [done|]. intros E. minvs. done. Qed.
Lemma rebuild_queued dev f f' : rebuild_format_table dev f = Ok f' -> queued_format_table f' = queued_format_table f.
Proof.
  unfold rebuild_format_table. intros (main & _ & E)%bind_Ok. apply bind_Ok in E as ([r ts] & _ & E).
  destruct ts; [done|]. by injection E as <-.
Qed.
Lemma feedback_process_good st o f r : wf st -> typed (map (glob st)) (MkObject o (XFeedback f)) ->
  feedback_process st f = Ok r -> good st r.1 /\ typed (map (glob r.1)) (MkObject o (XFeedback r.2)).
Proof.
  intros Hw [Ho Hq]. unfold feedback_process. destruct (processed f); [by intros [= <-]|].
  intros (f1 & E1 & E)%bind_Ok. apply bind_Ok in E as ([t f2] & E2%tranche_queued & E).
  assert (Q : queued_format_table f2 = queued_format_table f).
  { cbn in E2. rewrite E2. destruct (on_display_side _); [by injection E1 as <-|by eapply rebuild_queued]. }
  destruct (decide _).
  - injection E as <-. split; [done|]. split; [done|]. cbn. by rewrite Q.
  - minvs. match goal with E : translate_shm_fd _ _ _ _ _ _ _ = Ok _ |- _ =>
      apply translate_shm_new in E as (Hk & Hg & Hn); [|done] end.
    split; [|split; [done|]; cbn; by intros ? ? [= <- _]]. split; [|done].
    apply (Hn (transl st)). auto.
Qed.
Lemma send_table_good id f st st' : wf st ->
  (forall rid sz, queued_format_table f = Some (rid, sz) -> is_kind (map (glob st)) rid KFile) ->
  send_table id f st = Ok st' -> good st st'.
Proof.
  intros Hw Hq. unfold send_table. destruct (queued_format_table f) as [[rid sz]|]; [|by intros [= <-]].
  intros (s1 & [Hw1 Hg]%emit_good & [= <-])%bind_Ok; [|done]. split; [|done]. apply wf_queue; [done|].
  specialize (Hq rid sz eq_refl). apply Hg, kind_is_Some in Hq. pose proof (so_queue _ _ Hw1) as Hs.
  destruct (transl s1); cbn in *; rewrite ?app_assoc; by apply Forall_app_2, Forall_singleton.
Qed.
Lemma load_table_good st n r : wf st -> load_table st n = Ok r -> good st r.2.
Proof.
  intros Hw. unfold load_table. destruct (transl st) as [[|rid x] y|[|fd x] y] eqn:Et; try done.
  - intros ([] & _ & E)%bind_Ok; [by injection E as <-|].
    apply bind_Ok in E as (s & _ & E). destruct s; try done. destruct (negb _); [done|]. minvs.
    split; [|done]. apply wf_taken; [done|]. rewrite Et. cbn. intros r Hr. by apply list_elem_of_further.
  - intros E. minvs. split; [|done]. apply wf_taken; [done|]. by rewrite Et.
Qed.

(** Peel the changes off the state. *)
Ltac wf_go := repeat match goal with
  | |- wf (wrote _ _) => apply wf_wrote
  | |- wf (set_extra _ _ _ _) => apply wf_set_extra
  | |- wf (upd_objects _ <[_ := _]>) => apply wf_insert
  | |- wf (upd_objects _ (delete _)) => apply wf_delete
  | |- wf (advertise _ _ _) => apply advertise_good
  | |- wf (with_glob _ (set_device _ _)) => apply wf_glob; [|done..]
  | |- wf (with_glob _ (set_clock _ _)) => apply wf_glob; [|done..]
  | |- wf (with_glob _ (set_buffer_uid _ _)) => apply wf_glob; [|done..]
  | |- typed _ (MkObject _ (XSurface (MkSurface None (replicate _ _) _ _ _))) =>
      split_and!; [done|apply history_initial|done]
  | |- typed _ _ => first [done | by split_and!]
  end; try done.

Lemma new_buffer_wf rid id st : wf st -> is_kind (map (glob st)) rid KDmabuf -> post keeps (new_buffer rid id st).
Proof. intros Hw Hk. open_arm. wf_hyps. unfold keeps. cbn [snd]. wf_go. Qed.
Lemma new_first_wf m t x msg st : wf st -> typed (map (glob st)) (MkObject t x) ->
  post keeps (arm_new_first m t x msg st).
Proof. intros Hw Hk. open_arm; wf_hyps; unfold keeps; cbn [snd]; wf_go. Qed.

Lemma create_channel_wf msg st object_id id x y k : wf st -> transl st = FromChannel x y ->
  (forall rid st', good st st' -> is_kind (map (glob st')) rid KDmabuf -> post keeps (k rid st')) ->
  post keeps (create_from_channel msg st object_id id x y k).
Proof.
  intros Hw Et Hk. unfold create_from_channel. destruct x as [|rid x]; [done|].
  apply post_bind. intros s Es%get_sfd_Ok. destruct s as [| |d|]; try done. cbv zeta.
  set (st1 := match id with Some _ => _ | None => st end).
  assert (G1 : good st st1 /\ transl st1 = transl st).
  { split; [|by destruct id]. destruct id; [|done]. eapply good_sfd; [by apply good_refl|done|done|].
    exact (so_sfds _ _ Hw _ _ Es). }
  clearbody st1. destruct G1 as [[Hw1 Hg1] Et1].
  apply post_bind. intros len _. apply post_check; [done|]. intros _.
  apply post_bind. intros st2 E2. apply post_bind. intros st3 ->%copy_msg_Ok.
  assert (Et2 : transl st2 = transl st).
  { rewrite <- Et1. revert E2. clear. revert st1. induction (export_planes d) as [|p l IH]; intros st1; cbn [foldM];
      [by intros [= <-]|]. intros (s & Es & E)%bind_Ok. apply IH in E. rewrite E. unfold write_plane in Es.
    destruct (split_u64 _). by apply bind_Ok in Es as (? & _ & [= <-]). }
  apply foldM_good in E2 as [Hw2 Hg2]; [|apply write_plane_good|done].
  destruct (wf_moved (wrote st2 (msg, drop (length msg) (dst st2))) rid x y) as [Hw3 _]; [done|by rewrite <- Et|].
  apply Hk; [split; [done|]; cbn; by etrans|]. cbn. apply Hg2, Hg1. by apply kind_found in Es.
Qed.
Lemma create_wayland_wf m args st object_id obj p w h f id x y k : wf st ->
  typed (map (glob st)) (MkObject (obj_type obj) (XParams p)) -> transl st = FromWayland x y ->
  (forall rid st', good st st' -> is_kind (map (glob st')) rid KDmabuf -> post keeps (k rid st')) ->
  post keeps (create_from_wayland m args st object_id obj p w h f id x y k).
Proof.
  intros Hw Ht Et Hk. unfold create_from_wayland. branch; [done|].
  match goal with E : translate_dmabuf_fd _ _ _ _ _ _ = Ok _ |- _ =>
    apply (translate_dmabuf_new (set_extra st object_id obj (XParams (MkParams (dmabuf p) [])))) in E as (Hi & Hg & Hn);
    [|by apply wf_set_extra] end.
  match type of Hn with forall t', _ -> wf (with_transl (with_glob _ ?g) _) =>
    assert (Hw1 : wf (with_transl (with_glob (set_extra st object_id obj (XParams (MkParams (dmabuf p) []))) g)
                        (FromWayland x (y ++ [a0.1])))) by (apply Hn; intros r; cbn; rewrite Et; cbn; set_solver) end.
  repeat match goal with E : emit _ _ _ _ ?s = Ok _ |- _ => apply emit_good in E as [? ?]; [|done] end.
  apply Hk; [split; [done|]|].
  - etrans; [exact Hg|]. etrans; eassumption.
  - auto.
Qed.

Section GpuArms.
Context (msg : bytes) (st : St) (id : Z) (obj : WpObject).
Context (Hw : wf st) (Ht : typed (map (glob st)) obj) (Hl : 8 <= zlen msg).
#[local] Set Default Proof Using "All".

Lemma import_timeline_wf : post keeps (arm_import_timeline msg st).
Proof.
  unfold arm_import_timeline. wf_arm. apply wf_wrote.
  match goal with E : match _ with FromChannel _ _ => _ | FromWayland _ _ => _ end = Ok ?r |- _ =>
    assert (Hr : wf r.2 /\ is_kind (map (glob r.2)) r.1 KTimeline) end.
  { destruct (transl st) as [[|rid x] y|[|fd x] y] eqn:Et; try done.
    - match goal with E : _ = Ok _ |- _ => apply bind_Ok in E as (s & Es%get_sfd_Ok & E') end.
      destruct s as [| | |t]; try done. injection E' as <-. cbn [fst snd].
      destruct (wf_sfd st rid (TimelineFd t) (TimelineFd (MkTimeline (timeline_rid t) (timeline_only_here t)
        (semaphore t) v (timeline_releases t) (timeline_export_fd t)))) as [Hw1 Hg]; [done..|exact (so_sfds _ _ Hw _ _ Es)|].
      split; [by apply (wf_moved (set_sfd st rid _))|]. apply Hg. by apply kind_found in Es.
    - match goal with E : _ = Ok _ |- _ => apply bind_Ok in E as (v' & (Hk & _ & Ev)%translate_timeline_new & [= <-]) end; [|done].
      split; [|done]. apply Ev. intros r. rewrite Et. cbn. set_solver. }
  destruct Hr. by apply wf_insert.
Qed.
Lemma set_point_wf m acq : post keeps (arm_set_point m acq msg st obj).
Proof.
  unfold arm_set_point. wf_arm. use_extra. apply wf_wrote, wf_set_extra; [done|].
  repeat match goal with E : objects _ !! _ = Some ?o, Ex : extra ?o = _ |- _ =>
    apply (so_objects _ _ Hw) in E; eapply typed_extra in E; [|exact Ex]; clear Ex; cbn in E end.
  match goal with E : _ /\ _ /\ points_ok _ _, Ek : _ /\ is_kind _ _ KTimeline |- _ =>
    destruct E as (? & ? & Hac & Hre), Ek as [_ Hk] end.
  split_and!; [done|done|]. split; cbn; destruct acq; intros p Hp; try (by apply Hac); try (by apply Hre); by injection Hp as <-.
Qed.
Lemma modifier_wf : post keeps (arm_dmabuf_modifier msg st id obj).
Proof.
  unfold arm_dmabuf_modifier. wf_arm; try (use_extra; wf_go; fail).
  use_extra. match goal with E : foldM _ _ _ = Ok _ |- _ => apply foldM_good in E as [? _]; [done|apply write_modifier_good|] end.
  wf_go.
Qed.
Lemma params_add_wf : post keeps (arm_params_add msg st id obj).
Proof.
  unfold arm_params_add. wf_arm. use_extra. apply wf_set_extra; [|done]. apply wf_taken; [done|].
  match goal with E : transl _ = _ |- _ => by rewrite E end.
Qed.
Lemma create_immed_wf : post keeps (arm_create_immed msg st id obj).
Proof.
  unfold arm_create_immed. wf_arm; use_extra.
  - apply create_channel_wf; [done..|]. intros rid st' [] ?. by apply new_buffer_wf.
  - apply create_wayland_wf; [done..|]. intros rid st' [] ?. by apply new_buffer_wf.
Qed.
Lemma params_create_wf : post keeps (arm_params_create msg st id obj).
Proof.
  unfold arm_params_create. wf_arm; use_extra.
  - apply create_channel_wf; [done..|]. intros rid st' [] ?. apply wf_set_extra; [done|].
    split; [done|]. cbn. by intros ? [= <-].
  - apply create_wayland_wf; [done..|]. intros rid st' [] ?. apply wf_set_extra; [done|].
    split; [done|]. cbn. by intros ? [= <-].
Qed.
Lemma params_failed_wf : post keeps (arm_params_failed msg st id obj).
Proof. unfold arm_params_failed. wf_arm. use_extra. wf_go. Qed.
Lemma params_created_wf : post keeps (arm_params_created msg st id obj).
Proof.
  unfold arm_params_created. wf_arm. use_extra.
  match goal with E : map (glob ?s) !! _ = Some (DmabufFd ?d) |- post _ (new_buffer ?r ?i (set_sfd _ _ (DmabufFd ?e))) =>
    destruct (wf_sfd s r (DmabufFd d) (DmabufFd e)) as [? Hg]; [|done|done| |] end.
  - wf_go.
  - match goal with E : map (glob ?s) !! _ = Some (DmabufFd ?d) |- _ => exact (so_sfds _ _ Hw _ _ E) end.
  - apply new_buffer_wf; [done|]. apply Hg. match goal with E : map (glob ?s) !! _ = Some (DmabufFd ?d) |- _ =>
      by apply kind_found in E end.
Qed.
Lemma format_table_wf : post keeps (arm_format_table msg st id obj).
Proof.
  unfold arm_format_table. branch; unfold keeps; cbn [snd]; use_extra;
    match goal with E : load_table _ _ = Ok _ |- _ => apply load_table_good in E as [Hs Hg]; [cbn in Hs, Hg|done] end; [done|].
  apply wf_set_extra; [done|]. eapply typed_grows; [exact Hg|]. done.
Qed.
Lemma main_device_wf : post keeps (arm_main_device msg st id obj).
Proof. unfold arm_main_device. wf_arm; use_extra; wf_go. Qed.
Lemma tranche_flags_wf : post keeps (arm_tranche_flags msg st id obj).
Proof. unfold arm_tranche_flags. wf_arm; use_extra; wf_go. Qed.
Lemma tranche_target_wf : post keeps (arm_tranche_target_device msg st id obj).
Proof. unfold arm_tranche_target_device. wf_arm; use_extra; wf_go. Qed.
Lemma tranche_formats_wf : post keeps (arm_tranche_formats msg st id obj).
Proof. unfold arm_tranche_formats. wf_arm; use_extra; wf_go. Qed.
Lemma tranche_done_wf : post keeps (arm_tranche_done msg st id obj).
Proof. unfold arm_tranche_done. wf_arm; use_extra; wf_go. Qed.
Lemma feedback_done_wf : post keeps (arm_feedback_done msg st id obj).
Proof.
  unfold arm_feedback_done. destruct (extra obj) as [| | | | | |f| | | | | | | |] eqn:Ex; try done.
  eapply typed_extra in Ex; [|exact Ht]. apply post_bind. intros [st1 f1] E1.
  eapply feedback_process_good in E1 as [[Hw1 Hg1] Ht1]; [|done..]. cbn [fst snd] in *. cbv zeta.
  set (st2 := set_extra st1 id obj (XFeedback f1)). assert (Hw2 : wf st2) by by apply wf_set_extra.
  apply post_bind. intros sp _. apply post_check; [done|]. intros _. destruct Ht1 as [Ho Hq].
  apply post_bind. intros st3 [Hw3 Hg3]%send_table_good; [|done|exact Hq].
  branch. match goal with E : emit _ _ _ _ _ = Ok ?s, E' : foldM _ ?s _ = Ok ?s', E'' : emit _ _ _ _ ?s' = Ok _ |- _ =>
    apply emit_good in E as [? _]; [|done]; apply foldM_good in E' as [? _]; [|apply send_tranche_good|done];
    apply emit_good in E'' as [? _]; [|done] end.
  apply wf_set_extra; [done|]. by split.
Qed.
Lemma session_device_wf : post keeps (arm_session_dmabuf_device msg st id obj).
Proof. unfold arm_session_dmabuf_device. wf_arm; use_extra; wf_go. Qed.
Lemma session_dformat_wf : post keeps (arm_session_dmabuf_format msg st id obj).
Proof. unfold arm_session_dmabuf_format. wf_arm; use_extra; wf_go. Qed.
Lemma session_done_wf : post keeps (arm_session_done msg st id obj).
Proof.
  unfold arm_session_done. destruct (extra obj) as [| | | | | | | | |s| | | | |] eqn:Ex; try done.
  eapply typed_extra in Ex; [|exact Ht]. apply post_bind. intros st1 E1.
  assert (Hw1 : wf st1) by (destruct (session_device s); minvs; [by apply wf_glob|done]). clear E1.
  apply post_bind. intros sp _. apply post_check; [done|]. intros _. apply post_bind. intros [st2 l] E2.
  assert (Hw2 : wf st2).
  { destruct (session_device s); [|by injection E2 as <-]. minvs.
    match goal with E : emit _ _ _ _ _ = Ok ?s, E' : foldM _ ?s _ = Ok ?s' |- _ =>
      apply emit_good in E as [? _]; [|done]; apply foldM_good in E' as [? _]; [|apply session_format_good|done] end.
    destruct (on_display_side _); [by apply wf_glob|done]. }
  branch. match goal with E : emit _ _ _ _ _ = Ok _ |- _ => apply emit_good in E as [? _]; [|done] end. by apply wf_set_extra.
Qed.
Lemma create_frame_wf : post keeps (arm_create_frame msg st id obj).
Proof. unfold arm_create_frame. wf_arm; use_extra; wf_go. Qed.
Lemma session_destroy_wf : post keeps (arm_session_destroy msg st id obj).
Proof.
  unfold arm_session_destroy. wf_arm. use_extra.
  match goal with E : foldM _ _ _ = Ok _ |- _ => apply foldM_good in E as [? _]; [done|apply orphan_frame_good|wf_go] end.
Qed.
Lemma target_ok i b : target_buffer (glob st) i = Ok b -> buffer_ok (map (glob st)) b.1 b.2.
Proof.
  unfold target_buffer. destruct (i =? 0); [done|]. destruct (objects (glob st) !! i) as [o|] eqn:Eo; [|done].
  apply (so_objects _ _ Hw) in Eo. destruct (extra o) eqn:Ex; try done. intros [= <-].
  eapply typed_extra in Eo; [|exact Ex]. by destruct Eo.
Qed.
Lemma screencopy_copy_wf m : post keeps (arm_screencopy_copy m msg st id obj).
Proof.
  unfold arm_screencopy_copy. wf_arm. use_extra. match goal with E : target_buffer _ _ = Ok ?b |- _ => apply target_ok in E; destruct b end.
  apply wf_set_extra; [done|]. by split.
Qed.
Lemma attach_buffer_wf : post keeps (arm_attach_buffer msg st id obj).
Proof.
  unfold arm_attach_buffer. wf_arm. use_extra. match goal with E : target_buffer _ _ = Ok ?b |- _ => apply target_ok in E; destruct b end.
  apply wf_set_extra; [done|]. by split.
Qed.
Lemma frame_destroy_wf : post keeps (arm_capture_frame_destroy msg st id obj).
Proof.
  unfold arm_capture_frame_destroy. wf_arm; use_extra; try wf_go.
  match goal with E : unwrap (objects (glob ?s) !! ?i) = Ok ?o, Ex : extra ?o = _ |- _ =>
    assert (Hw' : wf s) by wf_go; destruct (objects (glob s) !! i) as [o'|] eqn:Eo; [|done]; injection E as ->;
    apply (so_objects _ _ Hw') in Eo; eapply typed_extra in Eo; [|exact Ex] end.
  exact Eo.
Qed.
Lemma screencopy_ready_wf : post keeps (arm_screencopy_ready msg st id obj).
Proof.
  unfold arm_screencopy_ready. wf_arm. use_extra.
  match goal with E : emit _ _ _ _ _ = Ok _, E' : ready_effect _ _ _ = Ok _ |- _ =>
    apply emit_good in E as [? _]; [|done]; apply ready_effect_good in E' as [? _]; [|done] end.
  by apply wf_set_extra.
Qed.
Lemma capture_ready_wf : post keeps (arm_capture_ready msg st id obj).
Proof.
  unfold arm_capture_ready. wf_arm. use_extra.
  match goal with E' : ready_effect _ _ _ = Ok _ |- _ => apply ready_effect_good in E' as [? _]; [|done] end.
  by apply wf_set_extra.
Qed.
Lemma screencopy_failed_wf : post keeps (arm_screencopy_failed msg st id obj).
Proof. unfold arm_screencopy_failed. wf_arm; use_extra; wf_go. Qed.
Lemma capture_failed_wf : post keeps (arm_capture_failed msg st id obj).
Proof. unfold arm_capture_failed. wf_arm; use_extra; wf_go. Qed.
Lemma presentation_time_wf : post keeps (arm_presentation_time msg st id).
Proof.
  unfold arm_presentation_time. wf_arm. match goal with E : emit _ _ _ _ _ = Ok _ |- _ => by apply emit_good in E as [? _] end.
Qed.
End GpuArms.

Create HintDb arms.
#[local] Hint Resolve create_pool_wf create_buffer_wf pool_resize_wf surface_destroy_wf surface_attach_wf
  set_buffer_scale_wf set_buffer_transform_wf commit_wf viewport_destroy_wf set_destination_wf set_source_wf
  gamma_size_wf transfer_wf add_icon_wf registry_global_wf registry_bind_wf import_timeline_wf set_point_wf
  modifier_wf params_add_wf create_immed_wf params_create_wf params_failed_wf params_created_wf format_table_wf
  main_device_wf tranche_flags_wf tranche_target_wf tranche_formats_wf tranche_done_wf feedback_done_wf
  session_device_wf session_dformat_wf session_done_wf create_frame_wf session_destroy_wf screencopy_copy_wf
  attach_buffer_wf frame_destroy_wf screencopy_ready_wf capture_ready_wf screencopy_failed_wf capture_failed_wf
  presentation_time_wf default_wf : arms.
Lemma dispatch_wf t id meth is_req msg st object_id obj :
  wf st -> typed (map (glob st)) obj -> 8 <= zlen msg ->
  post keeps (dispatch t id meth is_req msg st object_id obj).
Proof.
  intros Hw Ht Hl. unfold dispatch.
  repeat match goal with |- post _ (if ?b then _ else _) => destruct b end.
  all: try (eauto 2 with arms; fail).
  all: try match goal with |- post _ (arm_damage _ _ _ _ _ _) =>
    by apply damage_wf; [done..|]; intros r b [] ?; split; [constructor; cbn; rewrite ?Forall_app, ?Forall_singleton|] end.
  all: open_arm; wf_hyps; unfold keeps; cbn [snd]; first [by apply fixed_file_wf | by apply new_first_wf | wf_go; fail].
Qed.

(** C6: processing a message keeps the state of the connection well typed, whatever the message
    is and whether it is finished or not: the extra data of every object belongs to its
    interface; every surface has seven damage batches with valid rectangles, scales and
    viewports; a buffer with a layout is in a file and one without is a DMABUF; timeline points
    are on timelines; gamma ramps fit in 32 bits; and every number an object or a queue holds is
    tracked, under its own number, which is never given twice. *)
Theorem process_keeps_types msg st p st' :
  wf st -> process_way_msg msg st = Ok (p, st') -> wf st'.
Proof.
  intros Hw E. change st' with (p, st').2. change (keeps (p, st')). revert E. apply post_use.
  apply process_cases; [by apply unknown_wf|].
  intros obj id meth is_req oid Hobj _ _ Hl. apply (so_objects _ _ Hw) in Hobj. by apply dispatch_wf.
Qed.
End Props.

Lemma wf_initial display g d : objects g = setup_object_map -> map g = ∅ ->
  max_local_id g = (if display : bool then -1 else 1) -> queue_rids d = [] -> state_ok g d.
Proof.
  intros E1 E2 E3 E4. constructor.
  - rewrite E1, E2. unfold setup_object_map. by apply map_Forall_singleton.
  - by rewrite E4.
  - rewrite E2. apply map_Forall_empty.
  - rewrite E2. apply map_Forall_empty.
  - rewrite E3. by destruct display.
Qed.

Lemma process_keeps_types_witness : exists st',
  demo_process demo_sync demo_roomy = Ok (Done, st') /\ wf st'.
Proof.
  destruct (demo_process demo_sync demo_roomy) as [[[| |] st']| |] eqn:E; try (vm_compute in E; discriminate E).
  exists st'. split; [done|].
  apply (@process_keeps_types demo_sys demo_gpu merge_sort_by demo_sync demo_roomy Done st'); [|exact E].
  by apply (wf_initial false).
Defined.
