(* ===== verification/TrackingSpace.v ===== *)
(** * The space of a message

    Why a message is not finished, for every message; and that what a message writes and what it
    leaves of the output buffer make up the buffer. *)
From Stdlib Require Import ZArith Lia.
From stdpp Require Import gmap.
From S2P Require Import Prelude Util Damage Wire Protocol ProtocolCorrect Mirror Kernel Formats Geometry GeometryCorrect Time Tasks TrackState.
From S2P Require Import Arms GpuArms Tracking TrackingCorrect TrackingSafe.
Local Open Scope Z_scope.
Import Util.Arith.

(** ** Why a message is not finished *)
(** The space asked for is not there, and neither queue nor buffer changed; or a file has tasks
    left, and nothing changed. *)
Definition asks (st : St) (r : ProcMsg * St) : Prop :=
  match r.1 with
  | Done => True
  | NeedsSpace sp => space_le sp (remaining_space st) = false /\ transl r.2 = transl st /\ dst r.2 = dst st /\ out r.2 = out st
  | WaitFor rid => r.2 = st /\ exists s, map (glob st) !! rid = Some s /\ 0 < tasks_left s
  end.
Lemma retry_asks st r : retry_ok st r -> asks st r.
Proof. destruct r as [[| |] st']; cbn; [done|by intros [-> ?]|by intros [-> ?]]. Qed.
Lemma post_impl {A} (P Q : A -> Prop) r : (forall a, P a -> Q a) -> post P r -> post Q r.
Proof. destruct r; cbn; auto. Qed.

Section Props.
Context `{Sys, Gpu, SortUnstable}.

(** A check in a state that only the tables distinguish from [st]. *)
Lemma asks_check st st' n f k : transl st' = transl st -> dst st' = dst st -> out st' = out st ->
  post (asks st) k -> post (asks st) (check_space st' n f k).
Proof.
  intros Et Ed Eo Hk. apply post_check; [|by intros _]. intros Hs. split_and!; try done.
  unfold remaining_space in *. by rewrite Et, Ed in Hs.
Qed.
Lemma registry_global_asks msg st object_id obj : post (asks st) (arm_registry_global msg st object_id obj).
Proof.
  unfold arm_registry_global. apply post_bind. intros a _.
  destruct a as [|[name| | | |] [|[| | |[intf|]|] [|[ver| | | |] [|]]]]; try exact I.
  apply post_bind. intros ver' _. destruct (existsb _ _); [exact I|].
  apply post_bind. intros [d st1] Hd. assert (E1 : transl st1 = transl st /\ dst st1 = dst st /\ out st1 = out st).
  { destruct (String.eqb _ _) in Hd; minvs; done. }
  cbn [fst snd]. clear Hd. destruct d; [exact I|].
  apply post_bind. intros [[dr st2] obj2] Hs. assert (E2 : transl st2 = transl st /\ dst st2 = dst st /\ out st2 = out st).
  { destruct (String.eqb _ _) in Hs; [|minvs; simplify_eq; done]. unfold syncobj_global in Hs.
    destruct (dmabuf_device _); minvs; done. }
  destruct dr; [exact I|]. destruct E2 as (? & ? & ?).
  apply post_bind. intros replay _. apply post_bind. intros one _. apply post_bind. intros sp _.
  apply asks_check; [done..|]. apply post_bind. intros w _. clear Hs. cbv zeta. destruct (String.eqb _ _); [|exact I].
  apply post_bind. intros t _. cbv zeta. apply post_bind. done.
Qed.
Lemma registry_bind_asks msg st meth is_req id : post (asks st) (arm_registry_bind msg st meth is_req id).
Proof.
  unfold arm_registry_bind. apply post_bind. intros a _.
  destruct a as [|[| | | |] [|[| | |[name|]|] [|[version| | | |] [|[| |oid| |] [|]]]]]; try exact I.
  destruct (String.eqb _ _); [|eapply post_impl; [apply retry_asks|apply default_retry]].
  cbv zeta. apply post_bind. intros d _. apply post_bind. intros d' _. destruct (is_unavailable d'); [exact I|].
  apply asks_check; [done..|]. branch; done.
Qed.
Lemma modifier_asks msg st object_id obj : post (asks st) (arm_dmabuf_modifier msg st object_id obj).
Proof.
  unfold arm_dmabuf_modifier. apply post_bind. intros a _.
  destruct a as [|[format| | | |] [|[hi| | | |] [|[lo| | | |] [|]]]]; try exact I. cbv zeta.
  destruct (on_display_side _).
  - apply post_bind. intros ok _. destruct (negb ok); [exact I|]. apply asks_check; [done..|]. branch; done.
  - destruct (extra obj); try exact I. destruct (decide _); [exact I|]. apply post_bind. intros mods _. apply post_bind. intros one _.
    apply post_bind. intros sp _. apply asks_check; [done..|]. branch; done.
Qed.
Lemma create_immed_asks msg st object_id obj : post (asks st) (arm_create_immed msg st object_id obj).
Proof.
  unfold arm_create_immed. destruct (extra obj) as [| | | | | | |p| | | | | | |]; try exact I. apply post_bind. intros a _.
  destruct a as [|[| |bid| |] [|[|w| | |] [|[|h| | |] [|[f| | | |] [|[fl| | | |] [|]]]]]]; try exact I.
  destruct (_ || _); [exact I|]. destruct (negb _); [exact I|]. destruct (transl st) as [x y|x y] eqn:Et.
  - unfold create_from_channel. destruct x as [|rid x]; [exact I|]. apply post_bind. intros s _. destruct s as [| |d|]; try exact I. cbv zeta.
    apply post_bind. intros len _. apply asks_check; [done..|]. branch. unfold new_buffer. branch. done.
  - unfold create_from_wayland. apply post_bind. intros len _. apply asks_check; [done..|]. branch. unfold new_buffer. branch. done.
Qed.
Lemma feedback_process_io st f r : feedback_process st f = Ok r -> dst r.1 = dst st /\ out r.1 = out st.
Proof.
  unfold feedback_process. destruct (processed f); [by intros [= <-]|]. intros E.
  apply bind_Ok in E as (f1 & _ & E). apply bind_Ok in E as ([t f2] & _ & E).
  destruct (decide _); [by injection E as <-|]. minvs. done.
Qed.
Lemma feedback_done_asks msg st object_id obj : post (asks st) (arm_feedback_done msg st object_id obj).
Proof.
  unfold arm_feedback_done. destruct (extra obj) as [| | | | | |f| | | | | | | |]; try exact I.
  apply post_bind. intros [st1 f1] E1. pose proof (feedback_process_transl _ _ _ E1). apply feedback_process_io in E1 as [? ?]. cbn [fst] in *. cbv zeta.
  apply post_bind. intros sp _. apply asks_check; [done..|]. branch. done.
Qed.
Lemma session_done_asks msg st object_id obj : post (asks st) (arm_session_done msg st object_id obj).
Proof.
  unfold arm_session_done. destruct (extra obj) as [| | | | | | | | |s| | | | |]; try exact I.
  apply post_bind. intros st1 E1. assert (T1 : transl st1 = transl st /\ dst st1 = dst st /\ out st1 = out st) by (destruct (session_device s); minvs; done).
  destruct T1 as (? & ? & ?). apply post_bind. intros sp _. apply asks_check; [done..|]. branch; done.
Qed.

Lemma is_msg_eq m t id : is_msg m t id = true -> g_intf m = t /\ g_id m = id.
Proof.
  unfold is_msg. intros [Hi Hm]%andb_true_iff. apply bool_decide_eq_true in Hi. split; [done|].
  destruct (g_id m), id; try done; f_equal; lia.
Qed.
Lemma dispatch_asks t id meth is_req msg st object_id obj : post (asks st) (dispatch t id meth is_req msg st object_id obj).
Proof.
  destruct (decide (Forall (fun m => is_msg m t id = false) early_effects)) as [He|He].
  { eapply post_impl; [apply retry_asks|by apply dispatch_retry]. }
  apply not_Forall_Exists in He; [|apply _]. rewrite Exists_exists in He. destruct He as (m & Hin & Hm).
  apply not_false_is_true, is_msg_eq in Hm as [<- <-].
  unfold early_effects in Hin. repeat (apply elem_of_cons in Hin as [->|Hin]); [..|by apply not_elem_of_nil in Hin].
  all: cbv [dispatch]; repeat match goal with |- context [is_msg ?a ?b ?c] => let v := eval vm_compute in (is_msg a b c) in change (is_msg a b c) with v end.
  all: cbv iota; first [apply registry_global_asks | apply registry_bind_asks | apply modifier_asks
    | apply create_immed_asks | apply feedback_done_asks | apply session_done_asks].
Qed.
Lemma process_asks msg st r : process_way_msg msg st = Ok r -> asks st r.
Proof.
  apply post_use. apply process_cases; [eapply post_impl; [apply retry_asks|apply unknown_retry]|].
  intros. apply dispatch_asks.
Qed.
End Props.

(** ** The buffer *)
(** Bytes were appended to the output and taken from the rest of the buffer, as many. *)
Definition fills (st st' : St) : Prop :=
  exists w, out st' = out st ++ w /\ zlen w + zlen (dst st') = zlen (dst st).
Lemma fills_same st st' : out st' = out st -> dst st' = dst st -> fills st st'.
Proof. intros Eo Ed. exists []. rewrite Eo, Ed, app_nil_r. done. Qed.
Lemma fills_trans a b c : fills a b -> fills b c -> fills a c.
Proof. intros (w1 & E1 & L1) (w2 & E2 & L2). exists (w1 ++ w2). rewrite E2, E1, app_assoc, zlen_app. split; [done|lia]. Qed.
Lemma fills_io st st' : same_io st st' -> fills st st'.
Proof. intros (? & ? & ?). by apply fills_same. Qed.
Lemma fills_wrote st w : zlen w.1 + zlen w.2 = zlen (dst st) -> fills st (wrote st w).
Proof. intros E. by exists w.1. Qed.

Lemma set_range_len {A} (l : list A) a b src l' : set_range l a b src = Ok l' ->
  zlen l' = zlen l /\ 0 <= a <= b /\ b <= zlen l /\ zlen src = b - a.
Proof. intros E. minvs. rewrite zlen_splice by lia. lia. Qed.
Lemma get_range_len {A} (l : list A) a b s : get_range l a b = Ok s -> zlen s = b - a /\ 0 <= a <= b /\ b <= zlen l.
Proof. intros E. minvs. rewrite zlen_slice by lia. lia. Qed.
Ltac lens := unfold get_from in *; cbv zeta in *; repeat match goal with
  | E : (_ ≫= _) = Ok _ |- _ => apply bind_Ok in E as (? & ? & E)
  | E : set_range _ _ _ _ = Ok _ |- _ => apply set_range_len in E
  | E : get_range _ _ _ = Ok _ |- _ => apply get_range_len in E
  | E : Ok ?a = Ok ?w |- _ => assert (w = a) as -> by congruence; clear E
  end; unfold fst, snd; rewrite ?zlen_app; lia.
Lemma put_fits t b w : put t b = Ok w -> zlen w.1 + zlen w.2 = zlen t.
Proof. unfold put. intros E. lens. Qed.
Lemma header_fits t a b c d w : write_header t a b c d = Ok w -> zlen w.1 + zlen w.2 = zlen t.
Proof. unfold write_header. intros E. lens. Qed.
Lemma padded_fits t n s e w : put_padded t n s e = Ok w -> zlen w.1 + zlen w.2 = zlen t.
Proof. unfold put_padded. intros E. lens. Qed.
Lemma arg_fits t a w : write_arg t a = Ok w -> zlen w.1 + zlen w.2 = zlen t.
Proof.
  destruct a as [v|v|v|s|b]; cbn [write_arg]; try apply put_fits; [|apply padded_fits].
  destruct s; cbn [write_string]; [|apply put_fits]. intros (n & _ & E)%bind_Ok. by apply padded_fits in E.
Qed.
Lemma args_fit args : forall t w, write_args t args = Ok w -> zlen w.1 + zlen w.2 = zlen t.
Proof.
  induction args as [|a args IH]; intros t w; cbn [write_args]; [by intros [= <-]|].
  intros (x & Ex%arg_fits & E)%bind_Ok. apply bind_Ok in E as (y & Ey%IH & [= <-]). cbn [fst snd]. rewrite zlen_app. lia.
Qed.
Lemma write_msg_fits m d id tag args w : write_msg m d id tag args = Ok w -> zlen w.1 + zlen w.2 = zlen d.
Proof.
  unfold write_msg. intros (l & _ & E)%bind_Ok. apply bind_Ok in E as (h & Eh%header_fits & E).
  apply bind_Ok in E as (x & Ex%args_fit & [= <-]). cbn [fst snd]. rewrite zlen_app. lia.
Qed.

Lemma emit_fills m id tag args st st' : emit m id tag args st = Ok st' -> fills st st'.
Proof. intros (w & Ew%write_msg_fits & [= <-])%bind_Ok. by apply fills_wrote. Qed.
Lemma copy_msg_fills msg st st' : copy_msg msg st = Ok st' -> fills st st'.
Proof. intros (w & Ew%put_fits & [= <-])%bind_Ok. by apply fills_wrote. Qed.
Lemma copy_tag_fills msg st fc st' : copy_msg_tag_fd msg st fc = Ok st' -> fills st st'.
Proof.
  unfold copy_msg_tag_fd. intros (d & E1 & E)%bind_Ok. apply bind_Ok in E as (hb & E2 & E). cbv zeta in E. destruct (fc && _); [done|].
  apply bind_Ok in E as (d' & E3 & E). apply bind_Ok in E as (w & E4 & E). apply bind_Ok in E as (rest & E5 & [= <-]).
  apply fills_wrote. lens.
Qed.
Lemma foldM_fills {A} (f : St -> A -> res St) l : (forall s a s', f s a = Ok s' -> fills s s') ->
  forall s s', foldM f s l = Ok s' -> fills s s'.
Proof.
  intros Hf. induction l as [|a l IH]; cbn [foldM]; intros s s'; [intros [= <-]; by apply fills_same|].
  intros (s1 & E1%Hf & E%IH)%bind_Ok. by eapply fills_trans.
Qed.
Lemma replay_fills object_id intf st nv st' : replay_one object_id intf st nv = Ok st' -> fills st st'.
Proof. intros (w & Ew%write_msg_fits & [= <-])%bind_Ok. by apply fills_wrote. Qed.
Lemma write_plane_fills id st p st' : write_plane id st p = Ok st' -> fills st st'.
Proof. unfold write_plane. destruct (split_u64 _). apply emit_fills. Qed.
Lemma write_modifier_fills id f st p st' : write_modifier id f st p = Ok st' -> fills st st'.
Proof. unfold write_modifier. destruct (split_u64 _). apply emit_fills. Qed.
Lemma advertise_all_fills (l : list (Z * Z)) : forall st, fills st (foldl (fun st f => advertise f.1 [f.2] st) st l).
Proof.
  induction l as [|f l IH]; intros st; [by apply fills_same|]. cbn [foldl]. eapply fills_trans; [|apply IH]. by apply fills_same.
Qed.
Lemma send_tranche_fills `{Gpu} id dev st t st' : send_tranche id dev st t = Ok st' -> fills st st'.
Proof.
  unfold send_tranche. intros (s1 & E1%emit_fills & E)%bind_Ok. apply bind_Ok in E as (s2 & E2%emit_fills & E).
  apply bind_Ok in E as (s3 & E3%emit_fills & E4%emit_fills). eapply fills_trans; [apply advertise_all_fills|].
  eapply fills_trans; [exact E1|]. eapply fills_trans; [exact E2|]. by eapply fills_trans.
Qed.
Lemma session_format_fills `{Gpu} id st f st' : session_format id st f = Ok st' -> fills st st'.
Proof.
  unfold session_format. intros (mods & _ & E)%bind_Ok. destruct mods; [injection E as <-; by apply fills_same|].
  apply emit_fills in E. eapply fills_trans; [|exact E]. by apply fills_same.
Qed.
Lemma send_table_fills object_id f st st' : send_table object_id f st = Ok st' -> fills st st'.
Proof.
  unfold send_table. destruct (queued_format_table f) as [[rid sz]|]; [|intros [= <-]; by apply fills_same].
  intros (s1 & E1%emit_fills & [= <-])%bind_Ok. eapply fills_trans; [exact E1|]. by apply fills_same.
Qed.
Lemma load_table_fills `{Sys} `{Gpu} st n r : load_table st n = Ok r -> fills st r.2.
Proof.
  unfold load_table. destruct (transl st) as [[|rid x] y|[|fd x] y] eqn:Et; try done.
  - intros ([] & _ & E)%bind_Ok; [injection E as <-; by apply fills_same|].
    apply bind_Ok in E as (s & _ & E). destruct s; try done. destruct (negb _); [done|]. minvs. by apply fills_same.
  - intros E. minvs. by apply fills_same.
Qed.

(** ** Every message *)
Lemma feedback_process_fills `{Sys, Gpu, SortUnstable} st f r : feedback_process st f = Ok r -> fills st r.1.
Proof. intros [? ?]%feedback_process_io. by apply fills_same. Qed.

Ltac fill_hyps := repeat match goal with
  | E : copy_msg _ _ = Ok _ |- _ => apply copy_msg_fills in E
  | E : insert_new_object _ _ _ = Ok _ |- _ => apply insert_new_object_Ok in E as [? E]
  | E : copy_msg_tag_fd _ _ _ = Ok _ |- _ => apply copy_tag_fills in E
  | E : emit _ _ _ _ _ = Ok _ |- _ => apply emit_fills in E
  | E : write_msg _ _ _ _ _ = Ok _ |- _ => apply write_msg_fits in E
  | E : put _ _ = Ok _ |- _ => apply put_fits in E
  | E : foldM (write_plane _) _ _ = Ok _ |- _ => apply (foldM_fills _ _ (write_plane_fills _)) in E
  | E : foldM (write_modifier _ _) _ _ = Ok _ |- _ => apply (foldM_fills _ _ (write_modifier_fills _ _)) in E
  | E : foldM (send_tranche _ _) _ _ = Ok _ |- _ => apply (foldM_fills _ _ (send_tranche_fills _ _)) in E
  | E : foldM (session_format _) _ _ = Ok _ |- _ => apply (foldM_fills _ _ (session_format_fills _)) in E
  | E : foldM (orphan_frame _) _ _ = Ok _ |- _ => apply (foldM_io _ _ (orphan_frame_io _)), fills_io in E
  | E : feedback_process _ _ = Ok _ |- _ => apply feedback_process_fills in E
  | E : send_table _ _ _ = Ok _ |- _ => apply send_table_fills in E
  | E : load_table _ _ = Ok _ |- _ => apply load_table_fills in E
  | E : upd_viewport_surface _ _ _ = Ok _ |- _ => apply viewport_surface_io, fills_io in E
  | E : register_generic_new_ids _ _ _ = Ok _ |- _ => apply register_io, fills_io in E
  | E : commit_display _ _ = Ok _ |- _ => apply commit_display_io, fills_io in E
  | E : commit_application _ _ = Ok _ |- _ => apply commit_application_io, fills_io in E
  | E : ready_effect _ _ _ = Ok _ |- _ => apply ready_effect_io, fills_io in E
  | E : match transl ?st with _ => _ end = Ok _ |- _ =>
      let Et := fresh "Et" in destruct (transl st) as [[|] ?|[|] ?] eqn:Et; minvs; try done
  | E : (if ?b then _ else _) = Ok _ |- _ => destruct b; minvs; try done
  | E : match ?s with FileFd _ _ _ => _ | PipeFd _ => _ | DmabufFd _ => _ | TimelineFd _ => _ end = Ok _ |- _ =>
      destruct s; minvs; try done
  | E : match session_device ?s with Some _ => _ | None => _ end = Ok _ |- _ =>
      destruct (session_device s); minvs; try done
  end; subst; cbn [fst snd] in *.
Ltac chain := first
  [ by apply fills_same
  | match goal with E : zlen ?w.1 + _ = _ |- fills _ _ => exists w.1; split; [reflexivity|exact E] end
  | match goal with F : fills ?a ?b |- fills ?s ?t =>
      apply (fills_trans s b t); [apply (fills_trans s a b); [clear F; chain|exact F]|by apply fills_same] end ].
Definition filled (st : St) (r : ProcMsg * St) : Prop := fills st r.2.
Ltac fill := try (match goal with |- post _ _ => apply post_Ok end); unfold filled; fill_hyps; cbn [snd]; chain.

Section Fills.
Context `{Sys, Gpu, SortUnstable}.
Lemma fixed_file_fills msg st sz : post (filled st) (fixed_file msg st sz).
Proof.
  unfold fixed_file. apply post_bind. intros [w st'] E. unfold translate_or_wait_for_fixed_file in E. cbn [fst snd].
  destruct (transl st) as [[|rid x] y|[|fd x] y] eqn:Et; try done; minvs.
  - case_match; simplify_eq; [fill|]. branch. fill.
  - simplify_eq. branch. fill.
Qed.
Lemma default_fills msg st meth is_req id : post (filled st) (default_proc_way_msg msg st meth is_req id).
Proof.
  unfold default_proc_way_msg. branch; [fill|].
  match goal with E : (if ?b then _ else _) = Ok _ |- _ => destruct b end; try case_match; minvs; fill.
Qed.
Lemma unknown_fills msg st : post (filled st) (proc_unknown_way_msg msg st).
Proof. unfold proc_unknown_way_msg. branch; fill. Qed.
Lemma new_first_fills m t x msg st : post (filled st) (arm_new_first m t x msg st).
Proof. open_arm; fill. Qed.
Lemma new_buffer_fills rid id st0 st : fills st0 st -> post (filled st0) (new_buffer rid id st).
Proof. intros F. open_arm. fill. Qed.
Lemma registry_global_fills msg st object_id obj : post (filled st) (arm_registry_global msg st object_id obj).
Proof.
  unfold arm_registry_global. apply post_bind. intros a _.
  destruct a as [|[name| | | |] [|[| | |[intf|]|] [|[ver| | | |] [|]]]]; try exact I.
  apply post_bind. intros ver' _. destruct (existsb _ _); [fill|].
  apply post_bind. intros [d st1] Hd. assert (E1 : fills st st1).
  { destruct (String.eqb _ _) in Hd; minvs; by apply fills_same. }
  cbn [fst snd]. clear Hd. destruct d; [fill|].
  apply post_bind. intros [[dr st2] obj2] Hs. assert (E2 : fills st st2).
  { destruct (String.eqb _ _) in Hs; [|minvs; simplify_eq; done]. unfold syncobj_global in Hs.
    destruct (dmabuf_device _); minvs; chain. }
  clear Hs. destruct dr; [fill|].
  apply post_bind. intros replay _. apply post_bind. intros one _. apply post_bind. intros sp _.
  apply post_check; intros _; [fill|]. apply post_bind. intros w Ew%write_msg_fits. cbv zeta.
  assert (E3 : fills st (wrote st2 w)) by (eapply fills_trans; [exact E2|by apply fills_wrote]).
  destruct (String.eqb _ _); [|apply post_Ok; fill].
  apply post_bind. intros t _. cbv zeta. apply post_bind. intros st3 E4.
  destruct t; [|injection E4 as <-; fill]. apply (foldM_fills _ _ (replay_fills _ _)) in E4. fill.
Qed.

Lemma create_channel_fills msg st object_id id x y k :
  (forall rid st', fills st st' -> post (filled st) (k rid st')) ->
  post (filled st) (create_from_channel msg st object_id id x y k).
Proof.
  intros Hk. unfold create_from_channel. destruct x as [|rid x]; [done|].
  apply post_bind. intros s _. destruct s as [| |d|]; try done. cbv zeta.
  set (st1 := match id with Some _ => _ | None => st end).
  assert (E1 : fills st st1) by (destruct id; by apply fills_same). clearbody st1.
  apply post_bind. intros len _. apply post_check; [intros _; fill|]. intros _. branch. fill_hyps. apply Hk. chain.
Qed.
Lemma create_wayland_fills m args st object_id obj p w h f id x y k :
  (forall rid st', fills st st' -> post (filled st) (k rid st')) ->
  post (filled st) (create_from_wayland m args st object_id obj p w h f id x y k).
Proof. intros Hk. unfold create_from_wayland. branch; [fill|]. fill_hyps. apply Hk. chain. Qed.
Lemma session_done_fills msg st object_id obj : post (filled st) (arm_session_done msg st object_id obj).
Proof.
  unfold arm_session_done. destruct (extra obj) as [| | | | | | | | |s| | | | |]; try done.
  apply post_bind. intros st1 E1. assert (T1 : fills st st1) by (destruct (session_device s); minvs; by apply fills_same).
  clear E1. apply post_bind. intros sp _. apply post_check; [intros _; fill|]. intros _.
  apply post_bind. intros [st2 l] E2. assert (T2 : fills st1 st2).
  { destruct (session_device s); [|injection E2 as <-; chain]. minvs. fill_hyps. destruct (on_display_side _); chain. }
  clear E2. branch. fill.
Qed.
Lemma dispatch_fills t id meth is_req msg st object_id obj : post (filled st) (dispatch t id meth is_req msg st object_id obj).
Proof.
  unfold dispatch.
  repeat match goal with |- post _ (if ?b then _ else _) => destruct b end.
  all: try apply default_fills.
  all: try apply registry_global_fills.
  all: try apply session_done_fills.
  all: open_arm; try first [apply default_fills | apply fixed_file_fills | apply new_first_fills | fill].
  all: try (apply new_buffer_fills; fill_hyps; chain).
  all: first [apply create_channel_fills | apply create_wayland_fills]; intros; first [by apply new_buffer_fills | open_arm; fill | apply post_Ok; fill].
Qed.
Lemma process_fills msg st r : process_way_msg msg st = Ok r -> fills st r.2.
Proof.
  change (fills st r.2) with (filled st r). apply post_use. apply process_cases; [apply unknown_fills|].
  intros. apply dispatch_fills.
Qed.

(** C19: no message writes outside its buffer: what a message writes and what it leaves of the
    buffer make up the buffer, so the amount the main loop adds to the length of the output is the
    amount written; and a message that is not finished has left the buffer and the queue of
    descriptors as they were, and either asks for more space than there is or waits for a file
    that has tasks left. *)
Theorem process_uses_buffer msg st p st' : process_way_msg msg st = Ok (p, st') ->
  (exists w, out st' = out st ++ w /\ zlen w + zlen (dst st') = zlen (dst st)) /\ asks st (p, st').
Proof. intros E. split; [exact (process_fills _ _ _ E)|exact (process_asks _ _ _ E)]. Qed.
End Fills.
Lemma process_uses_buffer_witness : exists st' w,
  demo_process demo_sync demo_roomy = Ok (Done, st') /\ out st' = out demo_roomy ++ w /\
  zlen w + zlen (dst st') = zlen (dst demo_roomy).
Proof.
  destruct (demo_process demo_sync demo_roomy) as [[[| |] st']| |] eqn:E; try (vm_compute in E; discriminate E).
  destruct (@process_uses_buffer demo_sys demo_gpu merge_sort_by demo_sync demo_roomy Done st' E) as [(w & ? & ?) _].
  by exists st', w.
Defined.
