(* ===== verification/Sockets.v ===== *)
(** * [src/mainloop.rs]: the Wayland socket

    [read_from_socket] appends what [recvmsg] delivers to [WaylandInputRing];
    [write_to_socket] hands the data of [TransferWayland] and the descriptors of the queued
    [ShadowFd]s to [sendmsg], at most sixteen at a time, and drops the descriptors that were
    sent; [write_bytes] writes a plain message. The system calls are arguments, functions of
    what is offered to them; the models also return the bytes and descriptors taken, which the
    theorems are about. *)
From Stdlib Require Import ZArith Lia.
From stdpp Require Import gmap.
From S2P Require Import Prelude Util Tasks Channel TrackState.
Local Open Scope Z_scope.
Import Util.Arith.

(** ** Data *)
Record WaylandInputRing := MkInput { in_data : bytes; in_len : Z; in_fds : list Z }.
(** [tw_fds]: the [Rid]s of the queued [ShadowFd]s *)
Record TransferWayland := MkTW { tw_data : bytes; tw_start : Z; tw_len : Z; tw_fds : list Z }.

Definition has_from_chan_output (buf : TransferWayland) : bool := 0 <? tw_len buf.

(** ** [read_from_socket] *)
Inductive ControlMessage := ScmRights (fds : list Z) | OtherControl.
(** The bytes, and the control messages if they could be decoded. *)
Inductive recvmsg_ret :=
| Received (data : bytes) (cmsgs : option (list ControlMessage))
| RECONNRESET | REINTR | REAGAIN | REOTHER.

(** The descriptors of a control message; [-1] stands for one that did not fit. *)
Fixpoint push_fds (fds tfds : list Z) : res (list Z) :=
  match tfds with
  | [] => Ok fds
  | f :: tfds => if f =? -1 then Err "Received too many file descriptors" else push_fds (fds ++ [f]) tfds
  end.
Definition push_cmsg (fds : list Z) (c : ControlMessage) : res (list Z) :=
  match c with ScmRights tfds => push_fds fds tfds | OtherControl => Ok fds end.

(** Returns whether the connection closed. *)
Definition read_from_socket (buf : WaylandInputRing) (recvmsg : Z -> recvmsg_ret) :
  res (bool * WaylandInputRing) :=
  if in_len buf =? zlen (in_data buf) then Panic else
  space ← get_from (in_data buf) (in_len buf);
  match recvmsg (zlen space) with
  | Received data cmsgs =>
      d ← set_range (in_data buf) (in_len buf) (in_len buf + zlen data) data;
      cs ← ok_or "Failed to get cmsgs" cmsgs;
      fds ← foldM push_cmsg (in_fds buf) cs;
      Ok (zlen data =? 0, MkInput d (in_len buf + zlen data) fds)
  | RECONNRESET => Ok (true, buf)
  | REINTR | REAGAIN => Ok (false, buf)
  | REOTHER => Err "Error reading from socket"
  end.

(** ** [write_to_socket] *)
Definition MAX_SENDMSG_FDS : Z := 16.
(** How many descriptors a [ShadowFd] stands for, and these descriptors. *)
Definition n_exports (s : ShadowFd) : Z :=
  match s with DmabufFd d => zlen (export_planes d) | _ => 1 end.
Definition exports (s : ShadowFd) : res (list Z) :=
  match s with
  | FileFd fd _ _ => Ok [fd]
  | PipeFd p => fd ← unwrap (pipe_export_fd p); Ok [fd]
  | TimelineFd t => fd ← unwrap (timeline_export_fd t); Ok [fd]
  | DmabufFd d => Ok (List.map plane_fd (export_planes d))
  end.

(** Collect descriptors while they fit; returns them, and whether some were left out. *)
Fixpoint gather_fds (m : gmap Z ShadowFd) (raw_fds : list Z) (fds : list Z) : res (list Z * bool) :=
  match fds with
  | [] => Ok (raw_fds, false)
  | r :: fds =>
      s ← unwrap (m !! r);
      if MAX_SENDMSG_FDS <? zlen raw_fds + n_exports s then Ok (raw_fds, true) else
      e ← exports s;
      gather_fds m (raw_fds ++ e) fds
  end.

(** What is left of a [ShadowFd] whose descriptors were sent. *)
Definition drop_exports (s : ShadowFd) : ShadowFd :=
  match s with
  | FileFd _ _ _ => s
  | PipeFd p => PipeFd (MkPipe (pipe_rid p) (pipe_only_here p) (pipe_buf p) (program_closed p)
                          (channel_closed p) (pipe_fd p) None)
  | TimelineFd t => TimelineFd (MkTimeline (timeline_rid t) (timeline_only_here t) (semaphore t)
                                  (timeline_wayland_id t) (timeline_releases t) None)
  | DmabufFd d => DmabufFd (MkDmabuf (dmabuf_rid d) (dmabuf_only_here d) (buf d) (mirror d) (drm_format d)
                              (drm_modifier d) (dmabuf_damage d) (view_row_stride d) (first_damage d) []
                              (using_implicit_sync d) (acquires d) (releases d) (dmabuf_pending d)
                              (debug_wayland_id d) (video_decode d) (video_encode d))
  end.

(** The [while nfds_sent > 0] loop; each round takes an entry of the queue. *)
Fixpoint pop_sent (m : gmap Z ShadowFd) (fds : list Z) (nfds_sent : Z) : res (gmap Z ShadowFd * list Z) :=
  if nfds_sent <=? 0 then Ok (m, fds) else
  match fds with
  | [] => Panic
  | r :: fds =>
      s ← unwrap (m !! r);
      n ← usize (nfds_sent - n_exports s);
      pop_sent (<[r := drop_exports s]> m) fds n
  end.

Inductive sendmsg_ret := Sent (n : Z) | SEINTR | SEAGAIN | SECONNRESET | SEPIPE | SEOTHER.

(** What one call did: whether the connection closed, the bytes and descriptors sent. *)
Record sent_now := MkSent { sent_closed : bool; sent_bytes : bytes; sent_fds : list Z }.

Definition write_to_socket (m : gmap Z ShadowFd) (buf : TransferWayland)
    (sendmsg : bytes -> list Z -> sendmsg_ret) : res (sent_now * gmap Z ShadowFd * TransferWayland) :=
  assert_ (0 <? tw_len buf);;
  g ← gather_fds m [] (tw_fds buf);
  let '(raw_fds, trunc) := g in
  let nbytes_sent := if (trunc : bool) then 1 else tw_len buf in
  iov ← get_range (tw_data buf) (tw_start buf) (tw_start buf + nbytes_sent);
  match sendmsg iov raw_fds with
  | Sent s =>
      len ← usize (tw_len buf - s);
      let start := if len =? 0 then 0 else tw_start buf + s in
      r ← pop_sent m (tw_fds buf) (zlen raw_fds);
      Ok (MkSent false (take (Z.to_nat s) iov) raw_fds, r.1, MkTW (tw_data buf) start len r.2)
  | SEINTR | SEAGAIN => Ok (MkSent false [] [], m, buf)
  | SECONNRESET | SEPIPE => Ok (MkSent true [] [], m, buf)
  | SEOTHER => Err "Error writing to socket"
  end.

(** ** [write_bytes]: whether the peer is gone, and how much was written *)
Definition write_bytes (data : bytes) (writev : Z -> writev_ret) : res (bool * Z) :=
  match writev (zlen data) with
  | Wrote len => Ok (false, len)
  | WEPIPE | WECONNRESET => Ok (true, 0)
  | WEINTR | WEAGAIN => Ok (false, 0)
  | WEOTHER => Err "Error writing to socket"
  end.

(** The bytes still to be sent, and the descriptors of a queue of [Rid]s. *)
Definition payload (buf : TransferWayland) : bytes :=
  slice (tw_data buf) (tw_start buf) (tw_start buf + tw_len buf).
Fixpoint fds_of (m : gmap Z ShadowFd) (l : list Z) : list Z :=
  match l with
  | [] => []
  | r :: l => match m !! r with
              | Some s => match exports s with Ok e => e | _ => [] end
              | None => []
              end ++ fds_of m l
  end.
(** Each queued file still has its descriptors, at most four. *)
Definition exportable (m : gmap Z ShadowFd) (r : Z) : Prop :=
  exists s e, m !! r = Some s /\ exports s = Ok e /\ 1 <= zlen e <= 4.
(** No file is queued twice, and there are at most four for each byte. *)
Record sendable (m : gmap Z ShadowFd) (buf : TransferWayland) : Prop := {
  sd_range : 0 <= tw_start buf /\ 0 <= tw_len buf /\ tw_start buf + tw_len buf <= zlen (tw_data buf);
  sd_usize : zlen (tw_data buf) < 2 ^ 63;
  sd_nodup : NoDup (tw_fds buf);
  sd_exports : Forall (exportable m) (tw_fds buf);
  sd_enough : zlen (tw_fds buf) <= 4 * tw_len buf }.

(** ** One call *)
Lemma n_exports_spec s e : exports s = Ok e -> n_exports s = zlen e.
Proof.
  destruct s as [fd f p|p|d|t]; cbn.
  - by intros [= <-].
  - destruct (pipe_export_fd p); [by intros [= <-]|done].
  - intros [= <-]. unfold zlen. by rewrite length_map.
  - destruct (timeline_export_fd t); [by intros [= <-]|done].
Qed.

(** The descriptors collected are those of a prefix of the queue; a prefix is left out only if at least four
    entries are taken. *)
Lemma gather_fds_ok m fds : Forall (exportable m) fds -> forall raw, zlen raw <= 16 ->
  exists k (trunc : bool), (k <= length fds)%nat /\
    gather_fds m raw fds = Ok (raw ++ fds_of m (take k fds), trunc) /\
    zlen (raw ++ fds_of m (take k fds)) <= 16 /\
    (if trunc then (16 < zlen raw + 4 * (Z.of_nat k + 1)) else k = length fds).
Proof.
  induction 1 as [|r fds (s & e & Es & Ee & Hn) _ IH]; intros raw Hr.
  - exists 0%nat, false. cbn. rewrite app_nil_r. auto.
  - cbn [gather_fds]. rewrite Es. cbn [unwrap mbind res_bind].
    rewrite (n_exports_spec _ _ Ee). unfold MAX_SENDMSG_FDS.
    destruct (Z.ltb_spec 16 (zlen raw + zlen e)).
    + exists 0%nat, true. cbn. rewrite app_nil_r. split_and!; [lia|done|done|lia].
    + rewrite Ee. cbn [mbind res_bind].
      destruct (IH (raw ++ e)) as (k & tr & Hk & E & Hz & Htr); [zlia|].
      exists (S k), tr. cbn [length take fds_of]. rewrite Es, Ee, E, app_assoc.
      split_and!; [lia|done|done|]. destruct tr; [|lia]. rewrite zlen_app in Htr. lia.
Qed.

Lemma fds_of_frame m r s fds : r ∉ fds -> fds_of (<[r := s]> m) fds = fds_of m fds.
Proof.
  induction fds as [|x fds IH]; [done|]. rewrite not_elem_of_cons. intros [? ?]. cbn.
  rewrite lookup_insert_ne by done. by rewrite IH.
Qed.
Lemma exportable_frame m r s x : r <> x -> exportable m x -> exportable (<[r := s]> m) x.
Proof. intros Hne (s' & e & ? & ? & ?). exists s', e. by rewrite lookup_insert_ne. Qed.

(** Dropping the descriptors of a prefix leaves the rest of the queue as it was. *)
Lemma pop_sent_ok fds : forall m k, NoDup fds -> Forall (exportable m) fds -> (k <= length fds)%nat ->
  zlen (fds_of m (take k fds)) < 2 ^ 63 ->
  exists m', pop_sent m fds (zlen (fds_of m (take k fds))) = Ok (m', drop k fds) /\
    Forall (exportable m') (drop k fds) /\ fds_of m' (drop k fds) = fds_of m (drop k fds) /\
    (forall r, r ∉ take k fds -> m' !! r = m !! r).
Proof.
  induction fds as [|r fds IH]; intros m k Hnd Hex Hk Hz.
  - destruct k; [|cbn in Hk; lia]. exists m. done.
  - destruct k as [|k].
    { exists m. done. }
    apply NoDup_cons in Hnd as [Hr Hnd]. apply Forall_cons in Hex as [(s & e & Es & Ee & Hn) Hex].
    cbn [take fds_of] in *. rewrite Es, Ee in *. cbn [pop_sent drop]. rewrite zlen_app in *. zlen_pos.
    replace (zlen e + zlen (fds_of m (take k fds)) <=? 0) with false by lia.
    rewrite Es. cbn [unwrap mbind res_bind]. rewrite (n_exports_spec _ _ Ee).
    rewrite chk_in by (unfold uN; lia). cbn [mbind res_bind].
    assert (Hex' : Forall (exportable (<[r := drop_exports s]> m)) fds).
    { rewrite Forall_forall in *. intros x Hx. apply exportable_frame; [by intros ->|auto]. }
    assert (Ht : r ∉ take k fds) by (intros Hx; apply Hr; rewrite <- (take_drop k fds); apply elem_of_app; by left).
    destruct (IH (<[r := drop_exports s]> m) k) as (m' & E & Hm' & Hf & Hfr); [done|done|cbn in Hk; lia| |].
    { rewrite fds_of_frame by done. lia. }
    rewrite fds_of_frame in E by done.
    exists m'. replace (zlen e + _ - zlen e) with (zlen (fds_of m (take k fds))) by lia.
    split_and!; [done|done| |].
    + rewrite Hf. apply fds_of_frame. intros Hx. apply Hr. rewrite <- (take_drop k fds). apply elem_of_app. by right.
    + intros x Hx. apply not_elem_of_cons in Hx as [? ?]. rewrite Hfr by done. by rewrite lookup_insert_ne.
Qed.

Definition sendmsg_ok (f : bytes -> list Z -> sendmsg_ret) : Prop :=
  forall b fds n, 0 < zlen b -> f b fds = Sent n -> 1 <= n <= zlen b.

(** Whatever the kernel answers, a call sends a prefix of the bytes and a prefix of the descriptors and keeps
    the rest; the bytes after the first leave only with the last descriptor. *)
Definition sent_in_order (m : gmap Z ShadowFd) (buf : TransferWayland) (now : bytes * list Z)
    (m' : gmap Z ShadowFd) (buf' : TransferWayland) : Prop :=
  payload buf = now.1 ++ payload buf' /\ tw_len buf = zlen now.1 + tw_len buf' /\
  fds_of m (tw_fds buf) = now.2 ++ fds_of m' (tw_fds buf') /\
  (forall r, r ∉ tw_fds buf -> m' !! r = m !! r) /\
  (exists k, tw_fds buf' = drop k (tw_fds buf)) /\ sendable m' buf'.

Lemma take_slice {A} (l : list A) a n k : 0 <= a -> 0 <= k <= n -> a + n <= zlen l ->
  take (Z.to_nat k) (slice l a (a + n)) = slice l a (a + k).
Proof.
  intros. pose proof (zlen_slice l a (a + k)). rewrite (slice_split l a (a + k) (a + n)) by lia.
  rewrite take_app_length'; [done|]. unfold zlen in *. lia.
Qed.

Lemma write_ok m buf f : sendable m buf -> 0 < tw_len buf -> sendmsg_ok f ->
  exists offered raw, 0 < zlen offered <= tw_len buf /\
  match f offered raw with
  | Sent n => exists m' buf',
      write_to_socket m buf f = Ok (MkSent false (take (Z.to_nat n) offered) raw, m', buf') /\
      sent_in_order m buf (take (Z.to_nat n) offered, raw) m' buf' /\
      (1 < n -> tw_fds buf' = []) /\ zlen (take (Z.to_nat n) offered) = n
  | SEINTR | SEAGAIN => write_to_socket m buf f = Ok (MkSent false [] [], m, buf)
  | SECONNRESET | SEPIPE => write_to_socket m buf f = Ok (MkSent true [] [], m, buf)
  | SEOTHER => write_to_socket m buf f = Err "Error writing to socket"
  end.
Proof.
  intros [Hr Hu Hnd Hex Hen] Hl Hf. unfold write_to_socket. rewrite assert_true by lia. cbn [mbind res_bind].
  destruct (gather_fds_ok m (tw_fds buf) Hex []) as (k & tr & Hk & -> & Hz & Htr); [zlia|].
  cbn [mbind res_bind app] in *. change (zlen (@nil Z)) with 0 in Htr.
  set (n0 := if tr then 1 else tw_len buf). assert (Hn0 : 1 <= n0 <= tw_len buf) by (unfold n0; destruct tr; lia).
  rewrite get_range_ok by lia. cbn [mbind res_bind]. set (iov := slice _ _ _) in *.
  assert (Hiov : zlen iov = n0) by (unfold iov; rewrite zlen_slice; lia).
  exists iov, (fds_of m (take k (tw_fds buf))). split; [lia|].
  destruct (f _ _) as [n| | | | |] eqn:Ef; try done.
  apply Hf in Ef; [|lia]. rewrite Hiov in Ef. rewrite chk_in by (unfold uN; lia). cbn [mbind res_bind].
  destruct (pop_sent_ok (tw_fds buf) m k Hnd Hex Hk) as (m' & -> & Hm' & Hfd & Hfr); [lia|].
  cbn [mbind res_bind fst snd]. eexists _, _. split; [done|].
  assert (Htk : zlen (take (Z.to_nat n) iov) = n) by (unfold zlen in *; rewrite length_take; lia).
  assert (Hdr : tr = false -> drop k (tw_fds buf) = []) by (intros ->; rewrite Htr; apply drop_all).
  split; [|split; [|done]].
  2:{ intros Hn. cbn [tw_fds]. apply Hdr. unfold n0 in *. destruct tr; [lia|done]. }
  unfold sent_in_order; cbn [fst snd tw_fds tw_len]. rewrite Htk, Hfd. split_and!.
  - unfold payload; cbn [tw_data tw_start tw_len].
    rewrite (slice_split _ _ (tw_start buf + n)) by lia. f_equal.
    + unfold iov. by rewrite take_slice by lia.
    + destruct (Z.eqb_spec (tw_len buf - n) 0); [by rewrite !slice_nil by lia|]. f_equal; lia.
  - lia.
  - rewrite <- (take_drop k (tw_fds buf)) at 1. generalize (drop k (tw_fds buf)), (take k (tw_fds buf)).
    intros l2 l1. clear. induction l1 as [|x l1 IH]; [done|]. cbn. by rewrite IH, app_assoc.
  - intros r Hx. apply Hfr. intros Hy. apply Hx. rewrite <- (take_drop k (tw_fds buf)). apply elem_of_app. by left.
  - eauto.
  - constructor; cbn [tw_fds tw_len tw_data tw_start].
    + destruct (Z.eqb_spec (tw_len buf - n) 0); lia.
    + done.
    + rewrite <- (take_drop k (tw_fds buf)) in Hnd. by apply NoDup_app in Hnd as (_ & _ & ?).
    + done.
    + destruct tr; [|rewrite Hdr by done; zlia]. unfold zlen in *. rewrite length_drop. lia.
Qed.

(** ** Writing until the queue is empty *)
(** The calls the main loop makes while there is output, one per answer of the kernel; they stop
    when the connection closes. *)
Fixpoint flush (m : gmap Z ShadowFd) (buf : TransferWayland) (answers : list (bytes -> list Z -> sendmsg_ret)) :
  res (bytes * list Z * gmap Z ShadowFd * TransferWayland) :=
  match answers with
  | [] => Ok ([], [], m, buf)
  | f :: answers =>
      if negb (has_from_chan_output buf) then Ok ([], [], m, buf) else
      r ← write_to_socket m buf f;
      let '(now, m, buf) := r in
      if sent_closed now then Ok ([], [], m, buf) else
      r ← flush m buf answers;
      let '(b, fds, m, buf) := r in
      Ok (sent_bytes now ++ b, sent_fds now ++ fds, m, buf)
  end.

(** The peer stays, and the kernel answers as documented. *)
Definition open_answer (f : bytes -> list Z -> sendmsg_ret) : Prop :=
  sendmsg_ok f /\ forall b fds, match f b fds with Sent _ | SEINTR | SEAGAIN => True | _ => False end.
(** At least [n] of the answers take something. *)
Inductive accepting : nat -> list (bytes -> list Z -> sendmsg_ret) -> Prop :=
| accepting_nil : accepting 0 []
| accepting_any n f l : accepting n l -> accepting n (f :: l)
| accepting_some n f l : (forall b fds, exists k, f b fds = Sent k) -> accepting n l -> accepting (S n) (f :: l).

Lemma sent_nothing m buf : sendable m buf -> sent_in_order m buf ([], []) m buf.
Proof. intros. unfold sent_in_order. split_and!; try done. exists 0%nat. by rewrite drop_0. Qed.
Lemma sent_trans m buf x m1 buf1 y m2 buf2 :
  sent_in_order m buf x m1 buf1 -> sent_in_order m1 buf1 y m2 buf2 ->
  sent_in_order m buf (x.1 ++ y.1, x.2 ++ y.2) m2 buf2.
Proof.
  intros (P1 & L1 & F1 & R1 & (k1 & K1) & S1) (P2 & L2 & F2 & R2 & (k2 & K2) & S2).
  unfold sent_in_order. cbn [fst snd]. rewrite zlen_app. split_and!.
  - by rewrite P1, P2, app_assoc.
  - lia.
  - by rewrite F1, F2, app_assoc.
  - intros r Hr. rewrite R2, R1; [done|done|]. rewrite K1. intros Hy. apply Hr.
    rewrite <- (take_drop k1 (tw_fds buf)). apply elem_of_app. by right.
  - exists (k1 + k2)%nat. by rewrite K2, K1, drop_drop.
  - done.
Qed.

Lemma flush_ok answers : forall m buf, sendable m buf -> Forall open_answer answers ->
  exists b fds m' buf', flush m buf answers = Ok (b, fds, m', buf') /\ sent_in_order m buf (b, fds) m' buf' /\
    forall n, accepting n answers -> tw_len buf' <= Z.max 0 (tw_len buf - Z.of_nat n).
Proof.
  induction answers as [|f answers IH]; intros m buf Hs Ha.
  - eexists _, _, _, _. split; [done|]. split; [by apply sent_nothing|]. inversion 1. lia.
  - apply Forall_cons in Ha as [[Hf Ho] Ha]. cbn [flush]. unfold has_from_chan_output.
    destruct (Z.ltb_spec 0 (tw_len buf)) as [Hl|Hl]; cbn [negb].
    2:{ eexists _, _, _, _. split; [done|]. split; [by apply sent_nothing|]. lia. }
    destruct (write_ok m buf f Hs Hl Hf) as (off & raw & Hoff & Hw). specialize (Ho off raw).
    destruct (f off raw) as [n| | | | |] eqn:Ef; try done.
    + destruct Hw as (m1 & buf1 & -> & H1 & _ & Hn). pose proof H1 as (_ & L1 & _ & _ & _ & Hs1). cbn [fst] in L1.
      destruct (IH m1 buf1 Hs1 Ha) as (b & fds & m2 & buf2 & E & H2 & Hacc). cbn [mbind res_bind sent_closed]. rewrite E.
      eexists _, _, _, _. split; [done|]. split; [exact (sent_trans _ _ _ _ _ _ _ _ H1 H2)|].
      apply Hf in Ef; [|lia]. pose proof (sd_range _ _ Hs1). intros j Hj. inversion Hj as [|? ? ? Hj'|? ? ? ? Hj']; subst.
      * apply Hacc in Hj'. lia.
      * apply Hacc in Hj'. lia.
    + destruct (IH m buf Hs Ha) as (b & fds & m2 & buf2 & E & H2 & Hacc). rewrite Hw. cbn [mbind res_bind sent_closed]. rewrite E.
      eexists _, _, _, _. split; [done|]. split; [done|]. intros j Hj. inversion Hj as [|? ? ? Hj'|? ? ? Hk Hj']; subst; [auto|].
      destruct (Hk off raw) as [? Hk']. by rewrite Ef in Hk'.
    + destruct (IH m buf Hs Ha) as (b & fds & m2 & buf2 & E & H2 & Hacc). rewrite Hw. cbn [mbind res_bind sent_closed]. rewrite E.
      eexists _, _, _, _. split; [done|]. split; [done|]. intros j Hj. inversion Hj as [|? ? ? Hj'|? ? ? Hk Hj']; subst; [auto|].
      destruct (Hk off raw) as [? Hk']. by rewrite Ef in Hk'.
Qed.

(** C14: however [sendmsg] splits the data and however often it is interrupted, [write_to_socket] sends the queued
    bytes and the descriptors of the queued files each once and in order, keeps what was not taken, and never
    leaves descriptors behind the bytes; once as many calls as there were bytes have taken something, the
    program has received everything. *)
Theorem socket_delivers m buf answers n :
  sendable m buf -> Forall open_answer answers -> accepting n answers ->
  exists b fds m' buf', flush m buf answers = Ok (b, fds, m', buf') /\ sent_in_order m buf (b, fds) m' buf' /\
    (tw_len buf <= Z.of_nat n ->
      b = payload buf /\ fds = fds_of m (tw_fds buf) /\ tw_len buf' = 0 /\ tw_fds buf' = []).
Proof.
  intros Hs Ha Hn. destruct (flush_ok answers m buf Hs Ha) as (b & fds & m' & buf' & E & H & Hacc).
  exists b, fds, m', buf'. split; [done|]. split; [done|]. intros Hle. specialize (Hacc n Hn).
  destruct H as (P & L & F & _ & _ & [Hr _ _ _ Hen]). cbn [fst snd] in *. assert (E0 : tw_len buf' = 0) by lia.
  rewrite E0 in Hen. assert (E1 : tw_fds buf' = []) by (apply zlen_zero_nil; zlen_pos; lia).
  rewrite E1, app_nil_r in F. split_and!; try done. rewrite P. unfold payload at 1. rewrite slice_nil by lia. by rewrite app_nil_r.
Qed.

(** Six DMABUFs with four planes each, and eight bytes: two calls are needed, one more is interrupted. *)
Definition demo_planes (k : Z) : ShadowFd :=
  DmabufFd (MkDmabuf k false (VulkanBuf 1 1) None 0 0 (Intervals []) None true
    (List.map (fun i => MkPlane (10 * k + i) i 0 0 0) [0; 1; 2; 3]) false [] ∅ 0 0 false false).
Definition demo_files : gmap Z ShadowFd := list_to_map (List.map (fun k => (k, demo_planes k)) [1; 2; 3; 4; 5; 6]).
Definition demo_out : TransferWayland := MkTW (to_le 4 1 ++ to_le 4 524288) 0 8 [1; 2; 3; 4; 5; 6].
Definition demo_take (k : Z) (b : bytes) (_ : list Z) : sendmsg_ret := Sent (Z.max 1 (Z.min k (zlen b))).
Definition demo_answers : list (bytes -> list Z -> sendmsg_ret) :=
  [demo_take 5; fun _ _ => SEINTR] ++ List.map demo_take [1; 1; 1; 1; 1; 1; 1].
Lemma demo_sendable : sendable demo_files demo_out.
Proof.
  constructor; try (vm_compute; intuition discriminate).
  - cbn. repeat constructor; set_solver.
  - repeat constructor; eexists _, _; (split; [vm_compute; reflexivity|]); (split; [reflexivity|]); unfold zlen; cbn; lia.
Qed.
Lemma demo_answers_open : Forall open_answer demo_answers.
Proof.
  assert (H : forall k, open_answer (demo_take k)).
  { intros k. split; [|done]. intros b fds n Hb [= <-]. lia. }
  unfold demo_answers. apply Forall_app. split.
  - apply Forall_cons; split; [apply H|]. apply Forall_singleton. by split.
  - apply Forall_forall. intros f (k & -> & _)%list_elem_of_fmap. apply H.
Qed.
Lemma socket_delivers_witness :
  exists b fds m' buf', flush demo_files demo_out demo_answers = Ok (b, fds, m', buf') /\
    zlen fds = 24 /\ b = payload demo_out /\ tw_fds buf' = [].
Proof.
  destruct (socket_delivers demo_files demo_out demo_answers 8 demo_sendable demo_answers_open) as (b & fds & m' & buf' & E & _ & H).
  { cbn. repeat first [apply accepting_some; [by eexists|] | apply accepting_any]. constructor. }
  exists b, fds, m', buf'. destruct H as (H1 & H2 & _ & H4); [cbn; lia|]. split_and!; [done| |done|done].
  rewrite H2. vm_compute. reflexivity.
Defined.
