(* ===== verification/Sfds.v ===== *)
(** * [src/mainloop.rs]: messages about files, and the updates of files

    [process_sfd_msg] reacts to the messages of the other instance that are not Wayland protocol:
    it creates the local counterpart of a file, hands updates to the worker threads and passes
    pipe data on. [collect_updates] is the other direction: the messages and tasks that announce
    a file and replicate its changes. [poll_pipe] and [poll_timeline] are what the main loop
    does when [poll] reports a pipe or a timeline.

    Parameters: the classes [Refs] (reference counts: whether [Weak::upgrade] and
    [Arc::into_inner] succeed), [SfdSys] and [SfdGpu] (system calls and device). *)
From Stdlib Require Import ZArith Lia.
From stdpp Require Import gmap sorting.
From S2P Require Import Prelude Util Damage Wire Protocol Mirror Kernel Compress ReadBuffer Channel Formats Geometry Time Tasks TrackState.
Local Open Scope Z_scope.
Import Util.Arith Util.Wmsg Util.Options.

(** ** Parameters *)
Class Refs := { upgrade : Z -> bool; exclusive : Z -> bool }.

Class SfdSys := {
  (** [pipe2]: the end to read from and the end to write to *)
  pipe2 : res (Z * Z) }.

Class SfdGpu := {
  vulkan_create_dmabuf : Z -> Z -> Z -> list Z -> bool -> res (list AddDmabufPlane);
  gbm_create_dmabuf : Z -> Z -> Z -> list Z -> res (list AddDmabufPlane);
  setup_video_decode : Z -> res unit;
  (** the semaphore and the descriptor to export *)
  vulkan_create_timeline : Z -> res (Z * Z);
  get_bpp : DmabufImpl -> Z;
  copy_from_dmabuf : DmabufImpl -> option Z -> res bytes;
  supports_binary_semaphore_import : bool;
  (** a file from which semaphores are made, if the kernel supports it *)
  export_sync_file : Z -> res (option Z);
  export_binary_semaphore : Z -> res Z;
  get_current_pt : Z -> res Z;
  get_current_timeline_pt : res Z }.

(** ** Tasks handed to the worker threads *)
Inductive DecompRequest :=
| RequestShm (rid : Z) (t : DecompTask)
| RequestDmabuf (rid : Z) (msg : bytes) (file_size : Z) (compression : Compression) (view_row_stride : option Z).
(** Semaphores and points to wait for before a DMABUF is read. *)
Record ExplicitSyncAcquires := MkAcq { explicit : list (Z * Z); implicit : option Z }.
Inductive ConstructTask :=
| TDiff (t : DiffTask)
| TFillDmabuf (rid region_start region_end : Z) (compression : Compression) (acq : ExplicitSyncAcquires)
| TFillDmabuf2 (rid region_start region_end : Z) (compression : Compression) (read_buf : bytes)
| TDiffDmabuf (t : DiffTask) (acq : ExplicitSyncAcquires)
| TVideoEncode (rid : Z) (acq : ExplicitSyncAcquires)
| TDiffDmabuf2 (t : DiffTask) (read_buf : bytes)
| TVideoDecode (rid : Z) (msg : bytes).
(** The part of [TaskSet] the main thread uses. [w_apply]: the copies to DMABUFs in progress, with the point of the
    device's timeline at which each is done; [w_fill], [w_diff]: tasks that start at such a point. *)
Record Work := MkWork {
  w_construct : list ConstructTask; w_waiting : gmap Z (list ConstructTask); w_decompress : list DecompRequest;
  w_apply : list (Z * Z); w_fill : list (Z * ConstructTask); w_diff : list (Z * ConstructTask) }.
Definition push_decompress (w : Work) (t : DecompRequest) : Work :=
  MkWork (w_construct w) (w_waiting w) (w_decompress w ++ [t]) (w_apply w) (w_fill w) (w_diff w).
Definition set_construct (w : Work) (l : list ConstructTask) : Work :=
  MkWork l (w_waiting w) (w_decompress w) (w_apply w) (w_fill w) (w_diff w).
Definition push_construct (w : Work) (t : ConstructTask) : Work := set_construct w (w_construct w ++ [t]).
Definition set_waiting (w : Work) (m : gmap Z (list ConstructTask)) : Work :=
  MkWork (w_construct w) m (w_decompress w) (w_apply w) (w_fill w) (w_diff w).
Definition push_waiting (w : Work) (rid : Z) (t : ConstructTask) : Work :=
  set_waiting w (<[rid := default [] (w_waiting w !! rid) ++ [t]]> (w_waiting w)).

(** ** Lookup *)
Definition lookup_sfd `{Refs} (g : Globals) (rid : Z) : option ShadowFd :=
  if decide (rid ∈ unmapped g) then None else if upgrade rid then map g !! rid else None.
Definition put_sfd (g : Globals) (rid : Z) (s : ShadowFd) : Globals := set_map g (<[rid := s]> (map g)).
(** A new [ShadowFd] in [map] and [fresh]. *)
Definition announce (g : Globals) (rid : Z) (s : ShadowFd) : Globals :=
  set_fresh (set_unmapped (put_sfd g rid s) (unmapped g ∖ {[ rid ]})) ({[ rid ]} ∪ fresh_rids g).
Definition unmap (g : Globals) (rid : Z) : Globals := set_unmapped g ({[ rid ]} ∪ unmapped g).

(** The live entries of the map, by ascending [Rid]. *)
Definition live_rids `{Refs} (g : Globals) : list Z :=
  List.filter (fun r => match lookup_sfd g r with Some _ => true | None => false end) (merge_sort Z.le (elements (dom (map g)))).

(** [u32::from_le_bytes(msg[a..a + 4])] *)
Definition word (msg : bytes) (a : Z) : res Z := b ← get_range msg a (a + 4); Ok (from_le b).
Definition word_i32 (msg : bytes) (a : Z) : res Z := b ← get_range msg a (a + 4); Ok (from_le_i32 b).
Definition word_u64 (msg : bytes) (a : Z) : res Z := b ← get_range msg a (a + 8); Ok (from_le b).

Definition set_dmabuf_pending (d : ShadowFdDmabuf) (n : Z) : ShadowFdDmabuf :=
  MkDmabuf (dmabuf_rid d) (dmabuf_only_here d) (buf d) (mirror d) (drm_format d) (drm_modifier d)
    (dmabuf_damage d) (view_row_stride d) (first_damage d) (export_planes d) (using_implicit_sync d)
    (acquires d) (releases d) n (debug_wayland_id d) (video_decode d) (video_encode d).
Definition set_dmabuf_mirror (d : ShadowFdDmabuf) (m : option MirrorState) : ShadowFdDmabuf :=
  MkDmabuf (dmabuf_rid d) (dmabuf_only_here d) (buf d) m (drm_format d) (drm_modifier d)
    (dmabuf_damage d) (view_row_stride d) (first_damage d) (export_planes d) (using_implicit_sync d)
    (acquires d) (releases d) (dmabuf_pending d) (debug_wayland_id d) (video_decode d) (video_encode d).
Definition set_dmabuf_releases (d : ShadowFdDmabuf) (r : gmap (Z * Z) Z) : ShadowFdDmabuf :=
  MkDmabuf (dmabuf_rid d) (dmabuf_only_here d) (buf d) (mirror d) (drm_format d) (drm_modifier d)
    (dmabuf_damage d) (view_row_stride d) (first_damage d) (export_planes d) (using_implicit_sync d)
    (acquires d) r (dmabuf_pending d) (debug_wayland_id d) (video_decode d) (video_encode d).

(** ** Releases *)
(** [releases.retain(..)]: the points kept, and the map in which the DMABUFs no longer wait. *)
Fixpoint prune_releases (m : gmap Z ShadowFd) (rels : list (Z * Z)) (current_pt this_timeline : Z) :
  res (list (Z * Z) * gmap Z ShadowFd) :=
  match rels with
  | [] => Ok ([], m)
  | (pt, r) :: rels =>
      if current_pt <? pt then
        x ← prune_releases m rels current_pt this_timeline; Ok ((pt, r) :: x.1, x.2)
      else
        s ← unwrap (m !! r);
        match s with
        | DmabufFd d =>
            unwrap (releases d !! (this_timeline, pt));;
            let d := set_dmabuf_releases d (delete (this_timeline, pt) (releases d)) in
            prune_releases (<[r := DmabufFd d]> m) rels current_pt this_timeline
        | _ => Panic
        end
  end.
Definition set_timeline_releases (t : ShadowFdTimeline) (l : list (Z * Z)) : ShadowFdTimeline :=
  MkTimeline (timeline_rid t) (timeline_only_here t) (semaphore t) (timeline_wayland_id t) l (timeline_export_fd t).
(** Prune the releases of timeline [rid]. *)
Definition prune_timeline (g : Globals) (rid : Z) (t : ShadowFdTimeline) (current_pt : Z) :
  res (ShadowFdTimeline * Globals) :=
  x ← prune_releases (map g) (timeline_releases t) current_pt (timeline_rid t);
  let t := set_timeline_releases t x.1 in
  Ok (t, set_map g (<[rid := TimelineFd t]> x.2)).

(** ** [process_sfd_msg] *)
Section Messages.
Context `{Sys, Gpu, Refs, SfdSys, SfdGpu}.
(** [glob.opts.compression] *)
Context (compression : Compression).

Definition open_file (msg : bytes) (remote_id : Z) (g : Globals) : res Globals :=
  size ← word_i32 msg 8;
  local_fd ← memfd_create;
  ftruncate local_fd size;;
  mirror ← Mirror.new (wrap 64 size);
  mapping ← ExternalMapping_new mmap local_fd (wrap 64 size) false;
  let f := MkFile remote_id false (wrap 64 size) (wrap 64 size) false (Intervals [])
             (Some (MkCore mirror mapping)) in
  Ok (announce g remote_id (FileFd local_fd f 0)).

Definition extend_file (msg : bytes) (remote_id : Z) (g : Globals) : res Globals :=
  size ← word_i32 msg 8;
  new_size ← (if size <? 0 then Err "Invalid size" else Ok size);
  s ← ok_or "RID does not exist" (lookup_sfd g remote_id);
  match s with
  | FileFd fd f pending =>
      if new_size <? buffer_size f then Err "ExtendFile would shrink size" else
      if buffer_size f =? new_size then Ok g else
      if readonly f then Err "Tried to apply ExtendFile to read-only file" else
      ftruncate fd new_size;;
      if negb (exclusive remote_id) then Err "ExtendFile invoked without exclusive access to ShadowFd" else
      c ← update_core_for_new_size fd new_size (core f);
      let f := MkFile (Tasks.remote_id f) (only_here f) new_size new_size (readonly f) (damage f) c in
      Ok (put_sfd g remote_id (FileFd fd f pending))
  | _ => Err "Applying ExtendFile to non-File ShadowFd"
  end.

(** [BufferDiff] and [BufferFill]: queue the decompression, and count it as pending. *)
Definition apply_dmabuf (view : bytes) (remote_id : Z) (d : ShadowFdDmabuf) (g : Globals) (w : Work) :
  res (Globals * Work) :=
  n ← u64 (dmabuf_pending d + 1);
  let d := set_dmabuf_pending d n in
  let nominal := nominal_size (buf d) (view_row_stride d) in
  match buf d with
  | VulkanBuf _ _ =>
      Ok (put_sfd g remote_id (DmabufFd d),
          push_decompress w (RequestDmabuf remote_id view nominal compression (view_row_stride d)))
  | GbmBuf _ _ =>
      m ← match mirror d with Some m => Ok m | None => Mirror.new nominal end;
      Ok (put_sfd g remote_id (DmabufFd (set_dmabuf_mirror d (Some m))),
          push_decompress w (RequestShm remote_id (MkDecomp None view nominal compression (TMirrorOnly true))))
  end.
Definition apply_file (view : bytes) (remote_id fd : Z) (f : ShadowFdFile) (pending : Z) (g : Globals) (w : Work) :
  res (Globals * Work) :=
  n ← u64 (pending + 1);
  unwrap (core f);;
  Ok (put_sfd g remote_id (FileFd fd f n),
      push_decompress w (RequestShm remote_id (MkDecomp None view (buffer_size f) compression (TFile (readonly f))))).
Definition apply_buffer (is_diff : bool) (view : bytes) (remote_id : Z) (g : Globals) (w : Work) :
  res (Globals * Work) :=
  s ← ok_or "RID not in map" (lookup_sfd g remote_id);
  match s with
  | DmabufFd d => apply_dmabuf view remote_id d g w
  | FileFd fd f pending =>
      if is_diff && readonly f then Err "Applying BufferDiff to readonly ShadowFd" else
      apply_file view remote_id fd f pending g w
  | _ => Err "Applying BufferDiff or BufferFill to non-File ShadowFd"
  end.

(** The modifiers to choose from for a new DMABUF; the device is asked last. *)
Definition modifier_choice (g : Globals) (format : Z) : res (list Z) :=
  match screencopy_restrictions g !! format with
  | Some l => Ok l
  | None => match advertised_modifiers g !! format with
            | Some l => Ok l
            | None => dmabuf_dev_modifier_list (dmabuf_device g) format
            end
  end.
Definition new_dmabuf (remote_id : Z) (b : DmabufImpl) (m : option MirrorState) (format modifier stride : Z)
    (planes : list AddDmabufPlane) (decode : bool) : ShadowFd :=
  DmabufFd (MkDmabuf remote_id false b m format modifier (Intervals []) (Some stride) true planes false [] ∅ 0 0
              decode false).

Definition open_dmabuf (msg : bytes) (remote_id : Z) (g : Globals) : res Globals :=
  width ← word msg 12;
  height ← word msg 16;
  format ← word msg 20;
  slice ← get_range msg 12 76;
  stride ← dmabuf_slice_get_first_stride slice;
  mods ← modifier_choice g format;
  r ← match dmabuf_device g with
      | Unknown | Unavailable | VulkanSetup => Err "Received OpenDMABUF too early"
      | Vulkan => p ← vulkan_create_dmabuf width height format mods false; Ok (VulkanBuf width height, p)
      | Gbm => p ← gbm_create_dmabuf width height format (gbm_supported_modifiers format); Ok (GbmBuf width height, p)
      end;
  m ← Mirror.new (nominal_size r.1 (Some stride));
  p0 ← index r.2 0;
  Ok (announce g remote_id (new_dmabuf remote_id r.1 (Some m) format (plane_modifier p0) stride r.2 false)).

(** [VideoFormat]: H264, VP9 and AV1 *)
Definition video_format_of (flags : Z) : option Z :=
  let v := Z.land flags 255 in if (0 <=? v) && (v <=? 2) then Some v else None.
Definition open_dmavid (msg : bytes) (remote_id : Z) (g : Globals) : res Globals :=
  vid_flags ← word msg 12;
  width ← word msg 16;
  height ← word msg 20;
  format ← word msg 24;
  slice ← get_range msg 12 76;
  stride ← dmabuf_slice_get_first_stride slice;
  vid_type ← ok_or "Unidentified video format" (video_format_of vid_flags);
  match dmabuf_device g with
  | Vulkan =>
      if negb (supports_video_format vid_type format width height) then Err "Video format is not supported" else
      mods ← modifier_choice g format;
      planes ← vulkan_create_dmabuf width height format mods true;
      p0 ← index planes 0;
      setup_video_decode vid_type;;
      Ok (announce g remote_id
            (new_dmabuf remote_id (VulkanBuf width height) None format (plane_modifier p0) stride planes true))
  | _ => Err "Received OpenDMAVidDstV2 before Vulkan device was set up"
  end.
Definition video_packet (view : bytes) (remote_id : Z) (g : Globals) (w : Work) : res (Globals * Work) :=
  s ← ok_or "RID not in map" (lookup_sfd g remote_id);
  match s with
  | DmabufFd d =>
      if negb (video_decode d) then Err "Applying DMAVid to non-DMABUF video-decode-type ShadowFd" else
      match dmabuf_device g with
      | Vulkan =>
          n ← u64 (dmabuf_pending d + 1);
          Ok (put_sfd g remote_id (DmabufFd (set_dmabuf_pending d n)), push_construct w (TVideoDecode remote_id view))
      | _ => Panic
      end
  | _ => Err "Applying DMAVid to non-DMABUF ShadowFd"
  end.

Definition open_timeline (msg : bytes) (remote_id : Z) (g : Globals) : res Globals :=
  match dmabuf_device g with
  | Vulkan =>
      start_pt ← word_u64 msg 8;
      r ← vulkan_create_timeline start_pt;
      Ok (announce g remote_id (TimelineFd (MkTimeline remote_id false r.1 0 [] (Some r.2))))
  | _ => Err "Received OpenTimeline before Vulkan device was set up"
  end.
Definition signal_timeline (msg : bytes) (remote_id : Z) (g : Globals) : res Globals :=
  s ← ok_or "RID not in map" (lookup_sfd g remote_id);
  match s with
  | TimelineFd t =>
      if on_display_side g then Err "Received SignalTimeline on compositor side" else
      pt ← word_u64 msg 8;
      x ← prune_timeline g remote_id t pt;
      signal_timeline_pt (semaphore t) pt;;
      Ok x.2
  | _ => Err "Applying SignalTimeline to non-timeline ShadowFd"
  end.

Definition open_pipe (typ : WmsgType) (remote_id : Z) (g : Globals) : res Globals :=
  r ← pipe2;
  let '(pipe_r, pipe_w) := r in
  let ir := bool_decide (typ = OpenIRPipe) in
  let '(local_pipe, export_pipe) := if ir then (pipe_r, pipe_w) else (pipe_w, pipe_r) in
  let p := MkPipe remote_id false (if bool_decide (typ = OpenIWPipe) then ReadFromChannel [] else ReadFromWayland [])
             false false local_pipe (Some export_pipe) in
  let g := set_pipes g (pipes g ++ [remote_id]) in
  Ok (announce g remote_id (PipeFd p)).

Definition set_pipe_buf (p : ShadowFdPipe) (b : ShadowFdPipeBuffer) : ShadowFdPipe :=
  MkPipe (pipe_rid p) (pipe_only_here p) b (program_closed p) (channel_closed p) (pipe_fd p) (pipe_export_fd p).
Definition set_channel_closed (p : ShadowFdPipe) : ShadowFdPipe :=
  MkPipe (pipe_rid p) (pipe_only_here p) (pipe_buf p) (program_closed p) true (pipe_fd p) (pipe_export_fd p).
Definition set_program_closed (p : ShadowFdPipe) : ShadowFdPipe :=
  MkPipe (pipe_rid p) (pipe_only_here p) (pipe_buf p) true (channel_closed p) (pipe_fd p) (pipe_export_fd p).
Definition pipe_transfer (msg : bytes) (remote_id : Z) (g : Globals) : res Globals :=
  match lookup_sfd g remote_id with
  | None => Ok g
  | Some (PipeFd p) =>
      if program_closed p then Ok g else
      add ← get_from msg 8;
      match pipe_buf p with
      | ReadFromChannel x => Ok (put_sfd g remote_id (PipeFd (set_pipe_buf p (ReadFromChannel (x ++ add)))))
      | ReadFromWayland _ => Err "Applying PipeTransfer to pipe ShadowFd not reading from channel"
      end
  | Some _ => Err "Applying PipeTransfer to non-Pipe ShadowFd"
  end.

(** The position of the pipe in [pipes] is found by the [Rid] stored in the pipe. *)
Fixpoint remove_pipe (g : Globals) (rid : Z) (l : list Z) : res (list Z) :=
  match l with
  | [] => Panic
  | r :: l =>
      s ← get_sfd g r;
      let r' := match s with
                | FileFd _ f _ => Tasks.remote_id f | PipeFd p => pipe_rid p
                | DmabufFd d => dmabuf_rid d | TimelineFd t => timeline_rid t
                end in
      if r' =? rid then Ok l else l ← remove_pipe g rid l; Ok (r :: l)
  end.
Definition delete_pipe (g : Globals) (rid : Z) : res Globals :=
  l ← remove_pipe g rid (pipes g);
  Ok (unmap (set_pipes g l) rid).
Definition pipe_shutdown (typ : WmsgType) (remote_id : Z) (g : Globals) : res Globals :=
  match lookup_sfd g remote_id with
  | None => Ok g
  | Some (PipeFd p) =>
      match pipe_buf p with
      | ReadFromChannel v =>
          if negb (bool_decide (typ = PipeShutdownW))
          then Err "Did not receive (remote) write shutdown when reading from channel" else
          let g := put_sfd g remote_id (PipeFd (set_channel_closed p)) in
          if 0 <? zlen v then Ok g else delete_pipe g remote_id
      | ReadFromWayland _ =>
          if negb (bool_decide (typ = PipeShutdownR))
          then Err "Did not receive (remote) read shutdown when writing to channel" else
          delete_pipe (put_sfd g remote_id (PipeFd (set_channel_closed p))) remote_id
      end
  | Some _ => Err "Applying PipeTransfer to non-Pipe ShadowFd"
  end.

Definition process_sfd_msg (typ : WmsgType) (length : Z) (view : bytes) (g : Globals) (w : Work) :
  res (Globals * Work) :=
  msg ← get_range view 0 length;
  if zlen msg <? 8 then Err "message to shadowfd is too short" else
  remote_id ← word_i32 msg 4;
  let same (r : res Globals) := g ← r; Ok (g, w) in
  match typ with
  | OpenFile => same (open_file msg remote_id g)
  | ExtendFile => same (extend_file msg remote_id g)
  | BufferDiff => apply_buffer true view remote_id g w
  | BufferFill => apply_buffer false view remote_id g w
  | OpenDMABUF => same (open_dmabuf msg remote_id g)
  | OpenDMAVidDstV2 => same (open_dmavid msg remote_id g)
  | SendDMAVidPacket => video_packet view remote_id g w
  | OpenTimeline => same (open_timeline msg remote_id g)
  | SignalTimeline => same (signal_timeline msg remote_id g)
  | OpenIRPipe | OpenIWPipe => same (open_pipe typ remote_id g)
  | PipeTransfer => same (pipe_transfer msg remote_id g)
  | PipeShutdownR | PipeShutdownW => same (pipe_shutdown typ remote_id g)
  | _ => Panic
  end.
End Messages.

(** ** [collect_updates] *)
Definition cat2x4 (a b : bytes) : bytes := a ++ b.
(** Count and push a task; one that must wait for its DMABUF goes to [waiting_for_implicit_acquire]. *)
Definition push_task (must_poll : bool) (rid : Z) (q : TransferQueue) (w : Work) (t : ConstructTask) :
  res (TransferQueue * Work) :=
  n ← u64 (expected_recvd_msgs q + 1);
  let q := MkQ (protocol_data q) (protocol_len q) (protocol_header_added q) (protocol_rids q) (last_ack q)
             (needs_new_ack q) (ack_msg_cur q) (ack_msg_nxt q) (ack_nwritten q) (other_messages q) n
             (nbytes_written q) in
  Ok (q, if must_poll then push_waiting w rid t else push_construct w t).
Definition push_tasks (must_poll : bool) (rid : Z) (q : TransferQueue) (w : Work) (l : list ConstructTask) :
  res (TransferQueue * Work) :=
  foldM (fun x t => push_task must_poll rid x.1 x.2 t) (q, w) l.

Section Updates.
Context `{L : CompLib} `{Gpu, SfdGpu}.
Context (compression : Compression).

Definition update_file (fd : Z) (f : ShadowFdFile) (pending : Z) (q : TransferQueue) (w : Work) :
  res (bool * ShadowFd * TransferQueue * Work) :=
  r ← collect_file f (other_messages q) compression;
  let '(f, msgs, tasks) := r in
  x ← push_tasks false (remote_id f) (set_messages q msgs) w (List.map TDiff tasks);
  Ok (true, FileFd fd f pending, x.1, x.2).

Definition damaged (d : ShadowFdDmabuf) (size : Z) : res (list (Z * Z)) :=
  e ← align size 64;
  Ok match dmabuf_damage d with Everything => [(0, e)] | Intervals x => x end.
(** [data.acquires.drain(..)]: the semaphores and points. *)
Definition drain_acquires (m : gmap Z ShadowFd) (l : list (Z * Z)) : res (list (Z * Z)) :=
  foldM (fun acc a =>
    s ← unwrap (m !! a.2);
    match s with TimelineFd t => Ok (acc ++ [(semaphore t, a.1)]) | _ => Panic end) [] l.
Definition dmabuf_setup_implicit_sync (d : ShadowFdDmabuf) : res (option Z * bool) :=
  if using_implicit_sync d then
    match buf d with
    | VulkanBuf _ _ =>
        if negb supports_binary_semaphore_import then Ok (None, true) else
        f ← export_sync_file (dmabuf_rid d);
        Ok match f with Some f => (Some f, false) | None => (None, true) end
    | GbmBuf _ _ => Ok (None, false)
    end
  else Ok (None, false).
Definition implicit_semaphore (f : option Z) : res (option Z) :=
  match f with Some f => s ← export_binary_semaphore f; Ok (Some s) | None => Ok None end.
(** What an update leaves: announced, no damage, nothing to wait for. *)
Definition updated (d : ShadowFdDmabuf) (m : option MirrorState) (first : bool) : ShadowFdDmabuf :=
  MkDmabuf (dmabuf_rid d) (dmabuf_only_here d) (buf d) m (drm_format d) (drm_modifier d)
    (Intervals []) (view_row_stride d) first (export_planes d) false
    [] (releases d) (dmabuf_pending d) (debug_wayland_id d) (video_decode d) (video_encode d).
Definition announced (d : ShadowFdDmabuf) : ShadowFdDmabuf :=
  MkDmabuf (dmabuf_rid d) false (buf d) (mirror d) (drm_format d) (drm_modifier d)
    (dmabuf_damage d) (view_row_stride d) (first_damage d) (export_planes d) (using_implicit_sync d)
    (acquires d) (releases d) (dmabuf_pending d) (debug_wayland_id d) (video_decode d) (video_encode d).

Definition announce_dmabuf (d : ShadowFdDmabuf) (q : TransferQueue) : res (ShadowFdDmabuf * TransferQueue) :=
  if negb (dmabuf_only_here d) then Ok (d, q) else
  let '(width, height) := impl_size (buf d) in
  slice ← dmabuf_slice_make_ideal (drm_format d) width height (get_bpp (buf d));
  let size := nominal_size (buf d) (view_row_stride d) in
  msg ← (if video_encode d then
           f ← unwrap video_format;
           h ← build_wmsg_header OpenDMAVidDstV2 (16 + zlen slice);
           Ok (cat4x4 (to_le 4 h) (to_le 4 (dmabuf_rid d)) (to_le 4 (wrap 32 size)) (to_le 4 (Z.land 255 f)))
         else
           h ← build_wmsg_header OpenDMABUF (12 + zlen slice);
           Ok (cat3x4 (to_le 4 h) (to_le 4 (dmabuf_rid d)) (to_le 4 (wrap 32 size))));
  Ok (announced d, push_message (push_message q msg) slice).

(** The tasks that send the whole buffer. *)
Definition fill_task (d : ShadowFdDmabuf) (size nshards : Z) (copied : bytes) (acq : list (Z * Z))
    (sync : option Z) (i : Z) : res ConstructTask :=
  let div_len := wrap 32 (size / 64) in
  s ← split_interval 0 div_len nshards i;
  start ← u32 (64 * s);
  e ← split_interval 0 div_len nshards (i + 1);
  end_ ← u32 (64 * e);
  end_ ← (if i =? nshards - 1 then u32 (end_ + wrap 32 (size mod 64)) else Ok end_);
  match buf d with
  | VulkanBuf _ _ =>
      sem ← implicit_semaphore sync;
      Ok (TFillDmabuf (dmabuf_rid d) start end_ compression (MkAcq acq sem))
  | GbmBuf _ _ =>
      part ← get_range copied start end_;
      Ok (TFillDmabuf2 (dmabuf_rid d) start end_ compression part)
  end.
Definition fill_tasks (d : ShadowFdDmabuf) (size : Z) (copied : bytes) (acq : list (Z * Z)) (sync : option Z) :
  res (list ConstructTask) :=
  nshards ← ceildiv (wrap 32 (size / 64)) (DIFF_CHUNKSIZE / 64);
  foldM (fun l i => t ← fill_task d size nshards copied acq sync i; Ok (l ++ [t])) [] (range nshards).
(** The tasks that compare the damaged parts with the mirror. *)
Definition diff_tasks (d : ShadowFdDmabuf) (size : Z) (intervals : list (Z * Z)) (acq : list (Z * Z))
    (sync : option Z) : res (list ConstructTask) :=
  r ← split_damage intervals size;
  tasks ← part_tasks (dmabuf_rid d) r.1 (zlen r.2) compression 0 r.2;
  foldM (fun l t =>
    match buf d with
    | VulkanBuf _ _ =>
        sem ← implicit_semaphore sync;
        unwrap (mirror d);;
        Ok (l ++ [TDiffDmabuf t (MkAcq acq sem)])
    | GbmBuf _ _ => Panic
    end) [] tasks.

Definition update_dmabuf (m : gmap Z ShadowFd) (d : ShadowFdDmabuf) (q : TransferQueue) (w : Work) :
  res (bool * ShadowFd * TransferQueue * Work) :=
  (if video_encode d then match buf d with VulkanBuf _ _ => Ok tt | GbmBuf _ _ => Panic end else Ok tt);;
  a ← announce_dmabuf d q;
  let '(d, q) := a in
  let size := nominal_size (buf d) (view_row_stride d) in
  intervals ← damaged d size;
  if zlen intervals =? 0 then Ok (true, DmabufFd d, q, w) else
  acq ← drain_acquires m (acquires d);
  s ← dmabuf_setup_implicit_sync d;
  let '(sync, must_poll) := s in
  if video_encode d then
    sem ← implicit_semaphore sync;
    x ← push_task must_poll (dmabuf_rid d) q w (TVideoEncode (dmabuf_rid d) (MkAcq acq sem));
    Ok (true, DmabufFd (updated d (mirror d) (first_damage d)), x.1, x.2)
  else
    copied ← match buf d with
             | GbmBuf _ _ => copy_from_dmabuf (buf d) (view_row_stride d)
             | VulkanBuf _ _ => Ok []
             end;
    if first_damage d || negb (zlen copied =? 0) then
      mir ← match mirror d with Some m => Ok m | None => Mirror.new size end;
      tasks ← fill_tasks d size copied acq sync;
      x ← push_tasks must_poll (dmabuf_rid d) q w tasks;
      Ok (true, DmabufFd (updated d (Some mir) false), x.1, x.2)
    else
      tasks ← diff_tasks d size intervals acq sync;
      x ← push_tasks must_poll (dmabuf_rid d) q w tasks;
      Ok (true, DmabufFd (updated d (mirror d) false), x.1, x.2).

Definition update_timeline (t : ShadowFdTimeline) (q : TransferQueue) : res (ShadowFdTimeline * TransferQueue) :=
  if negb (timeline_only_here t) then Ok (t, q) else
  h ← build_wmsg_header OpenTimeline 16;
  let msg := cat4x4 (to_le 4 h) (to_le 4 (timeline_rid t)) (to_le 4 0) (to_le 4 0) in
  Ok (MkTimeline (timeline_rid t) false (semaphore t) (timeline_wayland_id t) (timeline_releases t)
        (timeline_export_fd t), push_message q msg).

Definition reads_channel (p : ShadowFdPipe) : bool :=
  match pipe_buf p with ReadFromChannel _ => true | ReadFromWayland _ => false end.
Definition pipe_msg (typ : WmsgType) (p : ShadowFdPipe) (len : Z) : res bytes :=
  h ← build_wmsg_header typ len; Ok (cat2x4 (to_le 4 h) (to_le 4 (pipe_rid p))).
Definition set_pipe_only_here (p : ShadowFdPipe) (b : bool) : ShadowFdPipe :=
  MkPipe (pipe_rid p) b (pipe_buf p) (program_closed p) (channel_closed p) (pipe_fd p) (pipe_export_fd p).
(** Whether to keep the pipe, the pipe, and the messages to push. *)
Definition update_pipe (p : ShadowFdPipe) : res (bool * ShadowFdPipe * list bytes) :=
  a ← (if pipe_only_here p then
         m ← pipe_msg (if reads_channel p then OpenIRPipe else OpenIWPipe) p 8;
         Ok (set_pipe_only_here p false, [m])
       else Ok (p, []));
  let '(p, msgs) := a in
  b ← match pipe_buf p with
      | ReadFromWayland data =>
          if 0 <? zlen data then
            h ← pipe_msg PipeTransfer p (8 + zlen data);
            n ← align4 (zlen data);
            let pad := n - zlen data in
            Ok (set_pipe_buf p (ReadFromWayland []),
                msgs ++ [h; data] ++ (if 0 <? pad then [zeros pad] else []))
          else Ok (p, msgs)
      | ReadFromChannel _ => Ok (p, msgs)
      end;
  let '(p, msgs) := b in
  if program_closed p then
    m ← pipe_msg (if reads_channel p then PipeShutdownR else PipeShutdownW) p 8;
    Ok (false, p, msgs ++ [m])
  else Ok (true, p, msgs).

(** Returns whether to keep the file. *)
Definition collect_updates (m : gmap Z ShadowFd) (s : ShadowFd) (q : TransferQueue) (w : Work) :
  res (bool * ShadowFd * TransferQueue * Work) :=
  match s with
  | FileFd fd f pending => update_file fd f pending q w
  | DmabufFd d => update_dmabuf m d q w
  | TimelineFd t => x ← update_timeline t q; Ok (true, TimelineFd x.1, x.2, w)
  | PipeFd p =>
      x ← update_pipe p;
      let '(keep, p, msgs) := x in
      Ok (keep, PipeFd p, set_messages q (other_messages q ++ msgs), w)
  end.
End Updates.

(** ** Polling pipes and timelines *)
Record PollFlags := MkFlags { POLLIN : bool; POLLOUT : bool; POLLHUP : bool; POLLERR : bool }.
(** What [poll] reported for a pipe, and what a [read] or [writev] would give. *)
Record PipeEvent := MkEvent { ev_flags : PollFlags; ev_read : Z -> readv_ret; ev_write : Z -> writev_ret }.

(** [ShadowFdPipeBuffer::ReadFromWayland] holds at most this much. *)
Definition PIPE_BUFFER : Z := 4096.
Definition has_pfd (p : ShadowFdPipe) : bool :=
  match pipe_buf p with
  | ReadFromWayland data => zlen data <? PIPE_BUFFER
  | ReadFromChannel v => 0 <? zlen v
  end.
(** Whether the pipe is polled at all. *)
Definition is_polled (p : ShadowFdPipe) : bool := negb (program_closed p) && has_pfd p.

(** One round for a polled pipe: whether to keep it, the pipe, and the bytes given to the program. *)
Definition poll_pipe (p : ShadowFdPipe) (e : PipeEvent) : res (bool * ShadowFdPipe * bytes) :=
  let gone := POLLHUP (ev_flags e) || POLLERR (ev_flags e) in
  match pipe_buf p with
  | ReadFromWayland data =>
      if POLLIN (ev_flags e) then
        match ev_read e (PIPE_BUFFER - zlen data) with
        | Read d => if zlen d =? 0 then Ok (true, set_program_closed p, [])
                    else Ok (true, set_pipe_buf p (ReadFromWayland (data ++ d)), [])
        | EINTR | EAGAIN => Ok (true, p, [])
        | ECONNRESET | EOTHER => Err "Failed to read from pipe"
        end
      else if gone then Ok (true, set_program_closed p, []) else Ok (true, p, [])
  | ReadFromChannel v =>
      if POLLOUT (ev_flags e) then
        match ev_write e (zlen v) with
        | Wrote len =>
            rest ← get_from v len;
            Ok (negb ((zlen rest =? 0) && channel_closed p), set_pipe_buf p (ReadFromChannel rest),
                take (Z.to_nat len) v)
        | WEPIPE | WECONNRESET => Ok (true, set_program_closed p, [])
        | WEINTR | WEAGAIN => Ok (true, p, [])
        | WEOTHER => Err "Failed to write to pipe"
        end
      else if gone then Ok (true, set_program_closed p, []) else Ok (true, p, [])
  end.

(** [util::retain_err]: keep what [f] accepts; the last error is returned at the end. *)
Fixpoint retain_err {A S} (f : S -> A -> res (bool * S)) (l : list A) (s : S) : res (list A * S) :=
  match l with
  | [] => Ok ([], s)
  | y :: l =>
      match f s y with
      | Ok (b, s) => r ← retain_err f l s; Ok (if b then y :: r.1 else r.1, r.2)
      | Err e => match retain_err f l s with Ok _ => Err e | r => r end
      | Panic => Panic
      end
  end.

(** The state of the loop over [pipes]: the events of the pipes that were polled, in order, and
    what the programs were given, for the theorems. *)
Record PollState := MkPoll { p_glob : Globals; p_events : list PipeEvent; p_log : list (Z * bytes) }.
Definition poll_pipe_at (st : PollState) (rid : Z) : res (bool * PollState) :=
  s ← get_sfd (p_glob st) rid;
  match s with
  | PipeFd p =>
      if negb (is_polled p) then Ok (true, st) else
      match p_events st with
      | [] => Panic
      | e :: evs =>
          r ← poll_pipe p e;
          Ok (r.1.1, MkPoll (put_sfd (p_glob st) rid (PipeFd r.1.2)) evs (p_log st ++ [(rid, r.2)]))
      end
  | _ => Panic
  end.
Definition poll_pipes (g : Globals) (evs : list PipeEvent) : res (Globals * list (Z * bytes)) :=
  r ← retain_err poll_pipe_at (pipes g) (MkPoll g evs []);
  Ok (set_pipes (p_glob r.2) r.1, p_log r.2).

Section Timelines.
Context `{Refs, SfdGpu}.
Definition min_pt (l : list (Z * Z)) : option Z :=
  match l with [] => None | x :: l => Some (foldr (fun y m => Z.min y.1 m) x.1 l) end.
(** The timelines to wait for, on the display side, with the first point of each. *)
Definition polled_timelines (g : Globals) : list (Z * Z) :=
  if negb (on_display_side g) then [] else
  omap (fun r => match lookup_sfd g r with
                 | Some (TimelineFd t) => option_map (pair r) (min_pt (timeline_releases t))
                 | _ => None
                 end) (live_rids g).

Inductive eventfd_ret := Counted (n : Z) | VEINTR | VEAGAIN | VEOTHER.
(** The answer of [poll] and of a [read] for a timeline. *)
Definition poll_timeline (g : Globals) (q : TransferQueue) (tl : Z * Z) (pollin : bool) (read : eventfd_ret) :
  res (Globals * TransferQueue) :=
  s ← get_sfd g tl.1;
  match s with
  | TimelineFd t =>
      if negb pollin then Ok (g, q) else
      match read with
      | Counted n =>
          assert_ (n =? 8);;
          current ← get_current_pt (semaphore t);
          if current <? tl.2 then Ok (g, q) else
          x ← prune_timeline g tl.1 t current;
          match min_pt (timeline_releases x.1) with Some m => assert_ (tl.2 <? m) | None => Ok tt end;;
          h ← build_wmsg_header SignalTimeline 16;
          Ok (x.2, push_message q (to_le 4 h ++ to_le 4 (timeline_rid t) ++ to_le 8 current))
      | VEINTR | VEAGAIN => Ok (g, q)
      | VEOTHER => Err "Failed to read from eventfd"
      end
  | _ => Ok (g, q)
  end.
Fixpoint poll_timelines (g : Globals) (q : TransferQueue) (l : list (Z * Z)) (answers : list (bool * eventfd_ret)) :
  res (Globals * TransferQueue) :=
  match l, answers with
  | [], _ => Ok (g, q)
  | tl :: l, a :: answers => x ← poll_timeline g q tl a.1 a.2; poll_timelines x.1 x.2 l answers
  | _ :: _, [] => Panic
  end.

(** The DMABUFs that may now be read: their tasks can be started. *)
Definition release_waiting (w : Work) (rid : Z) : Work :=
  match w_waiting w !! rid with
  | Some tasks => set_waiting (set_construct w (w_construct w ++ tasks)) (delete rid (w_waiting w))
  | None => w
  end.
End Timelines.
