(* ===== verification/SfdsCorrect.v ===== *)
(** * Pipes end to end

    A program writes to a pipe on one side, and a program on the other side reads the same bytes,
    in order, and the end of the stream after all of them. The system has the source pipe, whose
    messages come from [update_pipe], the messages on their way, and the connection state of the
    receiving side, which [process_sfd_msg] and [poll_pipes] change; other traffic interleaves. *)
From Stdlib Require Import ZArith Lia.
From stdpp Require Import gmap sorting.
From S2P Require Import Prelude Util Damage Wire Protocol Mirror Kernel Compress ReadBuffer Channel Formats Geometry Time Tasks TrackState TrackingCorrect Sfds.
Local Open Scope Z_scope.
Import Util.Arith Util.Wmsg Util.Options.

(** ** Messages of a pipe *)
Definition header_of (m : bytes) : option (Z * WmsgType) := parse_wmsg_header (from_le (slice m 0 4)).
(** Messages that [process_channel] hands to [process_sfd_msg]. *)
Definition is_sfd_type (t : WmsgType) : bool :=
  match t with Protocol | InjectRIDs | AckNblocks | Restart | Close | Version => false | _ => true end.
Definition ours (rid : Z) (m : bytes) : bool :=
  match header_of m with
  | Some (len, typ) => is_sfd_type typ && (8 <=? len) && (from_le_i32 (slice m 4 8) =? rid)
  | None => false
  end.

Definition simple_msg (typ : WmsgType) (rid : Z) (d pad : bytes) : bytes :=
  to_le 4 ((8 + zlen d) * 32 + wmsg_code typ) ++ to_le 4 rid ++ d ++ pad.
Inductive item := IOpen | IData (d : bytes) | IEnd.
(** The message that says [it] about pipe [rid]. *)
Inductive says (rid : Z) : bytes -> item -> Prop :=
| says_open : says rid (simple_msg OpenIWPipe rid [] []) IOpen
| says_data d pad : 0 < zlen d <= PIPE_BUFFER -> zlen (d ++ pad) mod 4 = 0 -> zlen pad < 4 ->
    says rid (simple_msg PipeTransfer rid d pad) (IData d)
| says_end : says rid (simple_msg PipeShutdownW rid [] []) IEnd.

Section Msg.
Context (typ : WmsgType) (rid : Z) (d pad : bytes).
Lemma simple_header : zlen d <= PIPE_BUFFER -> header_of (simple_msg typ rid d pad) = Some (8 + zlen d, typ).
Proof.
  intros Hd.  unfold header_of, simple_msg. rewrite slice_app_l by (rewrite ?zlen_to_le4; lia).
  replace (slice _ 0 4) with (to_le 4 ((8 + zlen d) * 32 + wmsg_code typ)) by (symmetry; apply (slice_all (to_le 4 _))).
  unfold PIPE_BUFFER in Hd. pose proof (wmsg_code_range typ). zlen_pos.
  rewrite from_to_le4 by (unfold uN; lia). rewrite parse_build; [done|]. unfold uN. lia.
Qed.
Lemma simple_rid : slice (simple_msg typ rid d pad) 4 8 = to_le 4 rid.
Proof.
  unfold simple_msg. apply (slice_app_mid (to_le 4 _) (to_le 4 rid)); by rewrite ?zlen_to_le4.
Qed.
Lemma simple_ours : iN 32 rid -> zlen d <= PIPE_BUFFER -> is_sfd_type typ = true -> ours rid (simple_msg typ rid d pad) = true.
Proof.
  intros Hrid Hd Ht. unfold ours. rewrite simple_header, Ht, simple_rid, from_to_le_i32 by done. zlen_pos. cbn [andb]. lia.
Qed.
Lemma zlen_simple : zlen (simple_msg typ rid d pad) = 8 + zlen d + zlen pad.
Proof. unfold simple_msg. rewrite !zlen_app, !zlen_to_le4. lia. Qed.
Lemma simple_body : slice (simple_msg typ rid d pad) 0 (8 + zlen d) = to_le 4 ((8 + zlen d) * 32 + wmsg_code typ) ++ to_le 4 rid ++ d.
Proof.
  unfold simple_msg. rewrite !app_assoc. rewrite slice_app_l by zlia. rewrite <- !app_assoc.
  replace (8 + zlen d) with (zlen (to_le 4 ((8 + zlen d) * 32 + wmsg_code typ) ++ to_le 4 rid ++ d)) at 2 by (rewrite !zlen_app, !zlen_to_le4; lia).
  apply slice_all.
Qed.
End Msg.

Lemma simple_whole typ rid d pad : zlen d <= PIPE_BUFFER -> zlen (d ++ pad) mod 4 = 0 -> zlen pad < 4 ->
  whole (simple_msg typ rid d pad).
Proof.
  intros Hd Hm Hp. pose proof (wmsg_code_range typ). unfold whole, get_message_padded_len. unfold PIPE_BUFFER in Hd.
  pose proof (zlen_simple typ rid d pad). zlen_pos. rewrite get_range_ok by lia. cbn [mbind res_bind].
  change (0 + 4) with 4. change (parse_wmsg_header _) with (header_of (simple_msg typ rid d pad)).
  rewrite simple_header by (unfold PIPE_BUFFER; lia). cbn [ok_or mbind res_bind fst]. zlen_pos.
  replace (8 + zlen d <? 4) with false by lia. rewrite align4_ok by lia. f_equal. rewrite zlen_simple.
  rewrite zlen_app in Hm. unfold div_ceil. Z.div_mod_to_equations; lia.
Qed.
Lemma says_whole rid m it : says rid m it -> whole m.
Proof. destruct 1; (apply simple_whole; [unfold PIPE_BUFFER in *; zlia|done..]). Qed.
Lemma says_ours rid m it : iN 32 rid -> says rid m it -> ours rid m = true.
Proof. intros ?. destruct 1; (apply simple_ours; [done|unfold PIPE_BUFFER in *; zlia|done]). Qed.

(** What [update_pipe] announces, as items. *)
Definition update_items (p : ShadowFdPipe) (data : bytes) : list item :=
  (if pipe_only_here p then [IOpen] else []) ++ (if 0 <? zlen data then [IData data] else []) ++
  (if program_closed p then [IEnd] else []).
Lemma pipe_msg_ok typ p n : 8 <= n <= 8 + PIPE_BUFFER ->
  pipe_msg typ p n = Ok (to_le 4 (n * 32 + wmsg_code typ) ++ to_le 4 (pipe_rid p)).
Proof.
  unfold PIPE_BUFFER. intros. unfold pipe_msg. rewrite build_wmsg_header_ok by (unfold uN; lia). done.
Qed.
Lemma framed_msgs ms : Forall whole ms -> framed (concat ms) ms [].
Proof.
  induction 1 as [|m ms Hm _ IH]; cbn [concat].
  - constructor. left. done.
  - by constructor.
Qed.
Definition sent_pipe (p : ShadowFdPipe) : ShadowFdPipe := set_pipe_buf (set_pipe_only_here p false) (ReadFromWayland []).
Lemma update_pipe_says p data : pipe_buf p = ReadFromWayland data -> zlen data <= PIPE_BUFFER ->
  exists msgs ms, update_pipe p = Ok (negb (program_closed p), sent_pipe p, msgs) /\
    concat msgs = concat ms /\ Forall2 (says (pipe_rid p)) ms (update_items p data).
Proof.
  intros Hb Hd. zlen_pos. assert (Hp : PIPE_BUFFER = 4096) by done.
  destruct p as [rid only pb pc cc fd ex]. cbn in *. subst pb.
  assert (E0 : zlen data = 0 -> data = []) by apply zlen_zero_nil.
  pose (pad := zeros (4 * div_ceil (zlen data) 4 - zlen data)).
  assert (Hpad : zlen pad = 4 * div_ceil (zlen data) 4 - zlen data).
  { unfold pad, zeros. rewrite zlen_replicate. unfold div_ceil. Z.div_mod_to_equations; lia. }
  exists ((if only then [simple_msg OpenIWPipe rid [] []] else []) ++
     (if 0 <? zlen data then [to_le 4 ((8 + zlen data) * 32 + wmsg_code PipeTransfer) ++ to_le 4 rid; data] ++
        (if 0 <? zlen pad then [pad] else []) else []) ++
     (if pc then [simple_msg PipeShutdownW rid [] []] else [])),
    ((if only then [simple_msg OpenIWPipe rid [] []] else []) ++
     (if 0 <? zlen data then [simple_msg PipeTransfer rid data pad] else []) ++
     (if pc then [simple_msg PipeShutdownW rid [] []] else [])).
  split; [|split].
  - unfold update_pipe, reads_channel, sent_pipe, simple_msg. cbn [pipe_only_here pipe_buf].
    destruct only; rewrite ?pipe_msg_ok by lia; cbn [mbind res_bind set_pipe_only_here pipe_buf pipe_rid pipe_only_here program_closed channel_closed pipe_fd pipe_export_fd].
    all: destruct (Z.ltb_spec 0 (zlen data)); rewrite ?pipe_msg_ok by lia; cbn [mbind res_bind]; rewrite ?align4_ok by lia;
      cbn [mbind res_bind set_pipe_buf program_closed pipe_buf pipe_rid]; rewrite <- ?Hpad;
      try (rewrite E0 by lia); destruct pc; rewrite ?pipe_msg_ok by lia; cbn [mbind res_bind negb];
      try (replace (zlen pad) with (4 * div_ceil (zlen data) 4 - zlen data)); fold pad; cbn [program_closed set_pipe_only_here]; rewrite ?app_nil_r, ?app_assoc; try done.
  - rewrite !concat_app. f_equal. f_equal. destruct (Z.ltb_spec 0 (zlen data)); [|done]. cbn [app concat].
    unfold simple_msg. destruct (Z.ltb_spec 0 (zlen pad)); cbn [concat]; rewrite ?app_nil_r, <- ?app_assoc; [done|].
    rewrite (zlen_zero_nil pad) by zlia. by rewrite !app_nil_r.
  - unfold update_items. cbn [pipe_only_here program_closed pipe_rid]. apply Forall2_app; [destruct only; repeat constructor|].
    apply Forall2_app; [|destruct pc; repeat constructor].
    destruct (Z.ltb_spec 0 (zlen data)); [|constructor]. repeat constructor; [lia|lia| |]; rewrite ?zlen_app, Hpad;
      unfold div_ceil; Z.div_mod_to_equations; lia.
Qed.

(** ** The receiving side *)
Definition named (g : Globals) : Prop :=
  Forall (fun r => exists p, map g !! r = Some (PipeFd p) /\ pipe_rid p = r) (pipes g).
(** [rid] is in the list of pipes once. *)
Definition listed (g : Globals) (rid : Z) : Prop :=
  exists l1 l2, pipes g = l1 ++ (rid :: l2) /\ (rid ∉ l1) /\ (rid ∉ l2).
Definition sink_pipe (g : Globals) (rid : Z) (p : ShadowFdPipe) (v : bytes) : Prop :=
  map g !! rid = Some (PipeFd p) /\ pipe_rid p = rid /\ pipe_buf p = ReadFromChannel v /\ listed g rid /\ (rid ∉ unmapped g).

Section Receive.
Context `{Sys, Gpu, Refs, SfdSys, SfdGpu} (compression : Compression).
(** What [process_channel] does with a message about a file. *)
Definition receive_msg (m : bytes) (g : Globals) (w : Work) : res (Globals * Work) :=
  match header_of m with
  | Some (len, typ) => process_sfd_msg compression typ len m g w
  | None => Err "Failed to parse wmsg header"
  end.

Lemma receive_simple typ rid d pad g w : iN 32 rid -> zlen d <= PIPE_BUFFER ->
  receive_msg (simple_msg typ rid d pad) g w =
  let msg := to_le 4 ((8 + zlen d) * 32 + wmsg_code typ) ++ to_le 4 rid ++ d in
  let same (r : res Globals) := g ← r; Ok (g, w) in
  match typ with
  | OpenFile => same (open_file msg rid g)
  | ExtendFile => same (extend_file msg rid g)
  | BufferDiff => apply_buffer compression true (simple_msg typ rid d pad) rid g w
  | BufferFill => apply_buffer compression false (simple_msg typ rid d pad) rid g w
  | OpenDMABUF => same (open_dmabuf msg rid g)
  | OpenDMAVidDstV2 => same (open_dmavid msg rid g)
  | SendDMAVidPacket => video_packet (simple_msg typ rid d pad) rid g w
  | OpenTimeline => same (open_timeline msg rid g)
  | SignalTimeline => same (signal_timeline msg rid g)
  | OpenIRPipe | OpenIWPipe => same (open_pipe typ rid g)
  | PipeTransfer => same (pipe_transfer msg rid g)
  | PipeShutdownR | PipeShutdownW => same (pipe_shutdown typ rid g)
  | _ => Panic
  end.
Proof.
  intros Hr Hd. unfold receive_msg. rewrite simple_header by done. unfold process_sfd_msg.
  pose proof (zlen_simple typ rid d pad). zlen_pos. rewrite get_range_ok by lia. cbn [mbind res_bind].
  rewrite simple_body. set (msg := _ ++ _ ++ d).
  assert (Hm : zlen msg = 8 + zlen d) by (unfold msg; rewrite !zlen_app, !zlen_to_le4; lia).
  replace (zlen msg <? 8) with false by lia. unfold word_i32. rewrite get_range_ok by lia. cbn [mbind res_bind].
  replace (slice msg 4 (4 + 4)) with (to_le 4 rid)
    by (symmetry; apply (slice_app_mid (to_le 4 _) (to_le 4 rid)); by rewrite ?zlen_to_le4).
  by rewrite from_to_le_i32.
Qed.

Lemma remove_listed g rid p l1 l2 : map g !! rid = Some (PipeFd p) -> pipe_rid p = rid -> rid ∉ l1 ->
  Forall (fun r => exists p, map g !! r = Some (PipeFd p) /\ pipe_rid p = r) l1 ->
  remove_pipe g rid (l1 ++ (rid :: l2)) = Ok (l1 ++ l2).
Proof.
  intros Hm Hp Hn. induction l1 as [|r l1 IH]; intros Hall; cbn [app remove_pipe].
  - unfold get_sfd. rewrite Hm. cbn [unwrap mbind res_bind]. by rewrite Hp, Z.eqb_refl.
  - apply Forall_cons in Hall as [(p' & Hm' & Hp') Hall]. apply not_elem_of_cons in Hn as [Hne Hn].
    unfold get_sfd. rewrite Hm'. cbn [unwrap mbind res_bind]. rewrite Hp'.
    replace (r =? rid) with false by lia. by rewrite IH.
Qed.
Lemma delete_listed g rid p : map g !! rid = Some (PipeFd p) -> pipe_rid p = rid -> listed g rid -> named g ->
  exists l, delete_pipe g rid = Ok (unmap (set_pipes g l) rid) /\ (rid ∉ l) /\ (forall r, r ∈ l -> r ∈ pipes g).
Proof.
  intros Hm Hp (l1 & l2 & El & N1 & N2) Hnm. unfold delete_pipe. rewrite El. exists (l1 ++ l2).
  unfold named in Hnm. rewrite El in Hnm. apply Forall_app in Hnm as [Hnm _].
  rewrite (remove_listed g rid p) by done. split; [done|]. split; [set_solver|]. set_solver.
Qed.

Lemma receive_open rid g w r x : iN 32 rid -> rid ∉ pipes g -> pipe2 = Ok (r, x) ->
  exists g' p, receive_msg (simple_msg OpenIWPipe rid [] []) g w = Ok (g', w) /\ sink_pipe g' rid p [] /\
    program_closed p = false /\ channel_closed p = false /\ (named g -> named g').
Proof.
  intros Hr Hn Hp. zlen_pos. rewrite receive_simple by (done || (unfold PIPE_BUFFER; zlia)). cbv zeta.
  unfold open_pipe. rewrite Hp. cbn [mbind res_bind]. rewrite bool_decide_eq_false_2 by done. rewrite bool_decide_eq_true_2 by done.
  eexists _, (MkPipe rid false (ReadFromChannel []) false false x (Some r)). split; [done|]. split; [|split; [done|split; [done|]]].
  - unfold sink_pipe, announce, put_sfd, listed. cbn. rewrite lookup_insert_eq. split_and!; try done; [|set_solver].
    exists (pipes g), []. split; [done|]. split; [done|]. set_solver.
  - unfold named. cbn. intros Hnm. apply Forall_app. split.
    + unfold named in Hnm. rewrite Forall_forall in *. intros y Hy. destruct (Hnm y Hy) as (p & Ey & ?).
      exists p. rewrite lookup_insert_ne; [done|]. by intros <-.
    + apply Forall_singleton. eexists. by rewrite lookup_insert_eq.
Qed.

Lemma named_put g rid p p' : named g -> map g !! rid = Some (PipeFd p) -> pipe_rid p = rid -> pipe_rid p' = rid ->
  named (put_sfd g rid (PipeFd p')).
Proof.
  unfold named. intros Hnm Hm Hp Hp'. eapply Forall_impl; [exact Hnm|]. intros r (q & Hq & Eq). cbn.
  destruct (decide (rid = r)) as [->|Hne]; [exists p'; by rewrite lookup_insert_eq|].
  exists q. by rewrite lookup_insert_ne.
Qed.
Lemma named_sub g l : named g -> (forall r, r ∈ l -> r ∈ pipes g) -> named (set_pipes g l).
Proof. unfold named. rewrite !Forall_forall. cbn. auto. Qed.

Lemma lookup_listed g rid p v : (rid ∈ pipes g -> upgrade rid = true) -> sink_pipe g rid p v ->
  lookup_sfd g rid = Some (PipeFd p).
Proof.
  intros Hu (Hm & _ & _ & (l1 & l2 & El & _) & Hun). unfold lookup_sfd. rewrite decide_False by done.
  rewrite Hu; [done|]. rewrite El. set_solver.
Qed.

(** Data is appended, or ignored if nobody reads it. *)
Lemma receive_data rid d pad g w p v : iN 32 rid -> zlen d <= PIPE_BUFFER ->
  (rid ∈ pipes g -> upgrade rid = true) -> sink_pipe g rid p v -> named g ->
  exists g' p' v', receive_msg (simple_msg PipeTransfer rid d pad) g w = Ok (g', w) /\ sink_pipe g' rid p' v' /\ named g' /\
    program_closed p' = program_closed p /\ channel_closed p' = channel_closed p /\
    (program_closed p = false -> v' = v ++ d).
Proof.
  intros Hr Hd Hu Hs Hnm. rewrite receive_simple by done. cbv zeta. unfold pipe_transfer.
  rewrite (lookup_listed _ _ _ _ Hu Hs). pose proof Hs as (Hm & Hp & Hb & Hl & Hun).
  destruct (program_closed p) eqn:Ec.
  { cbn [mbind res_bind]. exists g, p, v. by split_and!. }
  set (msg := _ ++ _). assert (Hz : zlen msg = 8 + zlen d) by (unfold msg; rewrite !zlen_app, !zlen_to_le4; lia).
  unfold get_from. zlen_pos. rewrite get_range_ok by lia. cbn [mbind res_bind]. rewrite Hb.
  assert (Es : slice msg 8 (zlen msg) = d).
  { unfold msg. rewrite app_assoc. rewrite zlen_app. replace 8 with (zlen (to_le 4 ((8 + zlen d) * 32 + wmsg_code PipeTransfer) ++ to_le 4 rid)) at 4
      by (rewrite zlen_app, !zlen_to_le4; lia). apply slice_app_tail. }
  rewrite Es. cbn [mbind res_bind]. eexists _, (set_pipe_buf p (ReadFromChannel (v ++ d))), (v ++ d). split; [done|].
  split; [|split_and!; try done; by eapply named_put].
  unfold sink_pipe. cbn. rewrite lookup_insert_eq. by split_and!.
Qed.

(** The end of the stream deletes the pipe, or is noted until the data has been written. *)
Lemma receive_end rid g w p v : iN 32 rid ->
  (rid ∈ pipes g -> upgrade rid = true) -> sink_pipe g rid p v -> named g ->
  exists g', receive_msg (simple_msg PipeShutdownW rid [] []) g w = Ok (g', w) /\ named g' /\
    if 0 <? zlen v then sink_pipe g' rid (set_channel_closed p) v
    else (rid ∉ pipes g') /\ rid ∈ unmapped g' /\ map g' !! rid = Some (PipeFd (set_channel_closed p)).
Proof.
  intros Hr Hu Hs Hnm. rewrite receive_simple by (done || (unfold PIPE_BUFFER; zlia)). cbv zeta. unfold pipe_shutdown.
  rewrite (lookup_listed _ _ _ _ Hu Hs). pose proof Hs as (Hm & Hp & Hb & Hl & Hun). rewrite Hb.
  rewrite bool_decide_eq_true_2 by done. cbn [negb].
  set (g1 := put_sfd g rid _). assert (Eg1 : map g1 !! rid = Some (PipeFd (set_channel_closed p)))
    by (unfold g1; cbn; by rewrite lookup_insert_eq).
  assert (Hn1 : named g1) by by eapply named_put.
  destruct (Z.ltb_spec 0 (zlen v)).
  - cbn [mbind res_bind]. exists g1. split; [done|]. split; [done|]. unfold sink_pipe. by split_and!.
  - destruct (delete_listed g1 rid (set_channel_closed p) Eg1 Hp Hl Hn1) as (l & -> & Hl' & Hsub). cbn [mbind res_bind].
    eexists. split; [done|]. split; [by apply (named_sub g1)|]. split; [done|]. split; [cbn; set_solver|done].
Qed.
End Receive.

(** ** Polling *)
Definition log_of (rid : Z) (log : list (Z * bytes)) : bytes :=
  concat (List.map snd (List.filter (fun x => x.1 =? rid) log)).
Lemma log_of_app rid l1 l2 : log_of rid (l1 ++ l2) = log_of rid l1 ++ log_of rid l2.
Proof. unfold log_of. by rewrite List.filter_app, map_app, concat_app. Qed.

#[local] Arguments log_of : simpl never.

(** [st'] differs from [st] only at pipes of [l], which keep their names. *)
Record polled (l : list Z) (st st' : PollState) : Prop := {
  po_frame : forall r, r ∉ l -> map (p_glob st') !! r = map (p_glob st) !! r /\ log_of r (p_log st') = log_of r (p_log st);
  po_named : forall r p, map (p_glob st) !! r = Some (PipeFd p) -> exists p', map (p_glob st') !! r = Some (PipeFd p') /\ pipe_rid p' = pipe_rid p;
  po_rest : unmapped (p_glob st') = unmapped (p_glob st) /\ pipes (p_glob st') = pipes (p_glob st);
  po_events : forall e, e ∈ p_events st' -> e ∈ p_events st }.
Lemma polled_refl l st : polled l st st.
Proof. constructor; eauto. Qed.
Lemma polled_trans l1 l2 a b c : polled l1 a b -> polled l2 b c -> polled (l1 ++ l2) a c.
Proof.
  intros [F1 N1 [R1 R1'] E1] [F2 N2 [R2 R2'] E2]. constructor.
  - intros r Hr. apply not_elem_of_app in Hr as [? ?]. destruct (F1 r), (F2 r); [done..|]. split; congruence.
  - intros r p Hr. destruct (N1 _ _ Hr) as (p1 & Hp1 & E). destruct (N2 _ _ Hp1) as (p2 & Hp2 & E'). exists p2. split; [done|congruence].
  - split; congruence.
  - auto.
Qed.

Lemma poll_pipe_rid p e keep p' out : poll_pipe p e = Ok (keep, p', out) -> pipe_rid p' = pipe_rid p.
Proof. unfold poll_pipe. repeat case_match; intros; minvs; simplify_eq; done. Qed.
Lemma poll_at_cases st r b st' : poll_pipe_at st r = Ok (b, st') ->
  polled [r] st st' /\
  exists p, map (p_glob st) !! r = Some (PipeFd p) /\
    ((is_polled p = false /\ b = true /\ st' = st) \/
     (is_polled p = true /\ exists e p' out, e ∈ p_events st /\ poll_pipe p e = Ok (b, p', out) /\
        map (p_glob st') !! r = Some (PipeFd p') /\ p_log st' = p_log st ++ [(r, out)])).
Proof.
  unfold poll_pipe_at, get_sfd. intros (s & Es & E)%bind_Ok. destruct (map (p_glob st) !! r) as [s'|] eqn:Em; [|done].
  injection Es as ->. destruct s as [|p| |]; try done. destruct (is_polled p) eqn:Ep; cbn [negb] in E.
  2:{ injection E as <- <-. split; [apply polled_refl|]. exists p. split; [done|]. by left. }
  destruct (p_events st) as [|e evs] eqn:Ee; [done|]. apply bind_Ok in E as ([[keep p'] out] & Epp & [= <- <-]).
  cbn [fst snd]. split.
  - constructor; cbn.
    + intros x Hx. rewrite lookup_insert_ne by set_solver. split; [done|]. rewrite log_of_app. unfold log_of at 2. cbn.
      replace (r =? x) with false by (apply not_elem_of_cons in Hx as [? _]; lia). cbn. by rewrite app_nil_r.
    + intros x q Hx. destruct (decide (r = x)) as [->|Hne].
      * rewrite lookup_insert_eq. simplify_eq. exists p'. split; [done|]. by eapply poll_pipe_rid.
      * rewrite lookup_insert_ne by done. eauto.
    + done.
    + rewrite Ee. set_solver.
  - exists p. split; [done|]. right. split; [done|]. exists e, p', out. split_and!; [set_solver|done| |done]. cbn. by rewrite lookup_insert_eq.
Qed.

Lemma retain_polled l : forall st l' st', retain_err poll_pipe_at l st = Ok (l', st') ->
  polled l st st' /\ forall r, r ∈ l' -> r ∈ l.
Proof.
  induction l as [|r l IH]; intros st l' st' E; cbn [retain_err] in E.
  - injection E as <- <-. split; [apply polled_refl|done].
  - destruct (poll_pipe_at st r) as [[b s1]|e|] eqn:E1; [| |done].
    + apply bind_Ok in E as ([l1 s2] & E2 & [= <- <-]). apply poll_at_cases in E1 as [P1 _]. apply IH in E2 as [P2 S2].
      cbn [fst snd]. split; [exact (polled_trans [r] l _ _ _ P1 P2)|]. intros x. destruct b; set_solver.
    + by destruct (retain_err poll_pipe_at l st).
Qed.
Lemma retain_app {A S} (f : S -> A -> res (bool * S)) l1 l2 : forall s l' s',
  retain_err f (l1 ++ l2) s = Ok (l', s') -> exists k1 s1 k2,
    retain_err f l1 s = Ok (k1, s1) /\ retain_err f l2 s1 = Ok (k2, s') /\ l' = k1 ++ k2.
Proof.
  induction l1 as [|x l1 IH]; intros s l' s' E; cbn [app retain_err] in E.
  - by exists [], s, l'.
  - cbn [retain_err]. destruct (f s x) as [[b s1]|e|]; [| |done].
    + apply bind_Ok in E as ([l3 s3] & E2 & [= <- <-]). apply IH in E2 as (k1 & s4 & k2 & -> & E4 & ->). cbn [mbind res_bind fst snd].
      eexists _, s4, k2. split; [done|]. split; [done|]. by destruct b.
    + by destruct (retain_err f (l1 ++ l2) s).
Qed.

Lemma retain_concat {A S} (f : S -> A -> res (bool * S)) l1 l2 : forall s k1 s1, retain_err f l1 s = Ok (k1, s1) ->
  retain_err f (l1 ++ l2) s = (r ← retain_err f l2 s1; Ok (k1 ++ r.1, r.2)).
Proof.
  induction l1 as [|x l1 IH]; intros s k1 s1 E; cbn [app retain_err] in *.
  - injection E as <- <-. by destruct (retain_err f l2 s) as [[]| |].
  - destruct (f s x) as [[b s2]|e|]; [| |done].
    + apply bind_Ok in E as ([l3 s3] & E2 & [= <- <-]). rewrite (IH _ _ _ E2). cbn [fst snd].
      destruct (retain_err f l2 s3) as [[]| |]; [|done..]. by destruct b.
    + by destruct (retain_err f l1 s).
Qed.
Lemma poll_unlisted g evs g' log rid : rid ∉ pipes g -> named g -> poll_pipes g evs = Ok (g', log) ->
  map g' !! rid = map g !! rid /\ (rid ∉ pipes g') /\ unmapped g' = unmapped g /\ log_of rid log = [] /\ named g'.
Proof.
  unfold poll_pipes. intros Hr Hnm ([l st] & E & [= <- <-])%bind_Ok. cbn [fst snd].
  apply retain_polled in E as [[F N [Ru Rp] _] S]. cbn in *. destruct (F rid Hr) as [? El]. cbn in El.
  split_and!; [done|auto|done|done|]. unfold named in *. rewrite Forall_forall in *. cbn. intros r Hin.
  destruct (Hnm r) as (p & Hp & Ep); [by apply S|]. destruct (N _ _ Hp) as (p' & ? & ?). exists p'. split; [done|congruence].
Qed.

Lemma poll_listed g evs g' log rid p v : sink_pipe g rid p v -> named g -> poll_pipes g evs = Ok (g', log) ->
  named g' /\ unmapped g' = unmapped g /\
  ((is_polled p = false /\ sink_pipe g' rid p v /\ log_of rid log = []) \/
   (is_polled p = true /\ exists e keep p', e ∈ evs /\ poll_pipe p e = Ok (keep, p', log_of rid log) /\
      map g' !! rid = Some (PipeFd p') /\ if keep then listed g' rid else rid ∉ pipes g')).
Proof.
  unfold poll_pipes. intros (Hm & Hp & Hb & (l1 & l2 & El & N1 & N2) & Hun) Hnm ([l st] & E & [= <- <-])%bind_Ok. cbn [fst snd] in *.
  rewrite El in E. apply retain_app in E as (k1 & s1 & k2 & E1 & E2 & ->). cbn [retain_err] in E2.
  destruct (poll_pipe_at s1 rid) as [[b s2]|e|] eqn:Ea; [| |done].
  2:{ by destruct (retain_err poll_pipe_at l2 s1). }
  apply bind_Ok in E2 as ([k3 s3] & E3 & [= <- <-]). cbn [fst snd] in *.
  apply retain_polled in E1 as [P1 S1], E3 as [P3 S3]. apply poll_at_cases in Ea as [P2 (q & Hq & Hcase)].
  pose proof (po_frame _ _ _ P1 rid N1) as [M1 L1]. pose proof (po_frame _ _ _ P3 rid N2) as [M3 L3]. cbn in M1, L1.
  rewrite M1, Hm in Hq. injection Hq as <-.
  assert (Hsub : forall r, r ∈ k1 ++ (if b then rid :: k3 else k3) -> r ∈ pipes g).
  { rewrite El. intros r. destruct b; set_solver. }
  pose proof (polled_trans _ _ _ _ _ P1 (polled_trans _ _ _ _ _ P2 P3)) as [_ N [Ru Rp] Ev]. cbn in Ru, Rp, N.
  split; [|split; [done|]].
  { unfold named in *. rewrite Forall_forall in *. cbn. intros r Hin.
    destruct (Hnm r) as (p0 & Hp0 & Ep); [by apply Hsub|]. destruct (N _ _ Hp0) as (p' & ? & ?). exists p'. split; [done|congruence]. }
  assert (Hlist : forall g0, listed (set_pipes g0 (k1 ++ rid :: k3)) rid).
  { intros g0. exists k1, k3. split; [done|]. set_solver. }
  destruct Hcase as [(Hpo & -> & ->)|(Hpo & e & p' & out & He & Epp & Em & Elog)].
  - left. split; [done|]. split; [|rewrite L3, L1; done].
    unfold sink_pipe. cbn. rewrite M3, M1. split_and!; [done..|apply Hlist|by rewrite Ru].
  - right. split; [done|]. exists e, b, p'. split; [by apply (po_events _ _ _ P1) in He|].
    assert (Eo : log_of rid (p_log s3) = out).
    { rewrite L3, Elog, log_of_app, L1. unfold log_of at 2. cbn. rewrite Z.eqb_refl. cbn. by rewrite app_nil_r. }
    rewrite Eo. split; [done|]. cbn. split; [congruence|]. destruct b; [apply Hlist|]. cbn. set_solver.
Qed.

(** ** The two ends of a pipe *)
(** [got]: all that was read from the writing program; [given]: all that was written to the reading one. *)
Record net := MkNet {
  src : ShadowFdPipe; src_live : bool; wire : list bytes; snk : Globals; got : bytes; given : bytes }.

(** The bytes a round takes from the program. *)
Definition read_now (p : ShadowFdPipe) (e : PipeEvent) : bytes :=
  match pipe_buf p with
  | ReadFromWayland data => if POLLIN (ev_flags e) then bytes_of (ev_read e (PIPE_BUFFER - zlen data)) else []
  | ReadFromChannel _ => []
  end.
(** Other activity on the receiving side: this pipe is as before. *)
Definition unrelated (rid : Z) (g g' : Globals) : Prop :=
  map g' !! rid = map g !! rid /\ (rid ∈ unmapped g' <-> rid ∈ unmapped g) /\
  (listed g rid -> listed g' rid) /\ (rid ∉ pipes g -> rid ∉ pipes g') /\ (named g -> named g').
(** The reading program closed its end. *)
Definition reader_gone (rid : Z) (g : Globals) : Prop :=
  exists p, map g !! rid = Some (PipeFd p) /\ program_closed p = true.

(** The data still to be delivered: in the pipe of the reader, on the way, in the pipe of the writer. *)
Definition sink_buf (rid : Z) (g : Globals) : bytes :=
  match map g !! rid with
  | Some (PipeFd p) => match pipe_buf p with ReadFromChannel v => v | ReadFromWayland _ => [] end
  | _ => []
  end.
Definition msg_data (m : bytes) : bytes :=
  match header_of m with Some (len, PipeTransfer) => slice m 8 len | _ => [] end.
Definition wire_data (rid : Z) (wr : list bytes) : bytes := concat (List.map msg_data (List.filter (ours rid) wr)).
Definition src_data (p : ShadowFdPipe) : bytes :=
  match pipe_buf p with ReadFromWayland d => d | ReadFromChannel _ => [] end.
Definition undelivered (rid : Z) (s : net) : bytes := sink_buf rid (snk s) ++ wire_data rid (wire s) ++ src_data (src s).

Section Net.
Context `{Sys, Gpu, SfdSys, SfdGpu} (compression : Compression) (rid : Z).

Inductive net_step : net -> net -> Prop :=
| n_read p l wr g gt gv e p' :
    is_polled p = true -> readv_ok (ev_read e) -> poll_pipe p e = Ok (true, p', []) -> l = true ->
    net_step (MkNet p l wr g gt gv) (MkNet p' l wr g (gt ++ read_now p e) gv)
| n_update p wr g gt gv keep p' msgs ms :
    update_pipe p = Ok (keep, p', msgs) -> framed (concat msgs) ms [] ->
    net_step (MkNet p true wr g gt gv) (MkNet p' keep (wr ++ ms) g gt gv)
| n_receive p l m wr g gt gv g' w w' (R : Refs) :
    ours rid m = true -> (rid ∈ pipes g -> upgrade rid = true) ->
    receive_msg compression m g w = Ok (g', w') ->
    net_step (MkNet p l (m :: wr) g gt gv) (MkNet p l wr g' gt gv)
| n_poll p l wr g gt gv evs g' log :
    Forall (fun e => writev_ok (ev_write e)) evs -> poll_pipes g evs = Ok (g', log) ->
    net_step (MkNet p l wr g gt gv) (MkNet p l wr g' gt (gv ++ log_of rid log))
| n_shutdown p l wr g gt gv g' :
    (* [process_wayland_1] removes a pipe whose [update_pipe] asks for it, after sending [PipeShutdownR] *)
    reader_gone rid g -> delete_pipe g rid = Ok g' ->
    net_step (MkNet p l wr g gt gv) (MkNet p l wr g' gt gv)
| n_reset p l wr g gt gv :
    (* that message deletes the source *)
    reader_gone rid g -> net_step (MkNet p l wr g gt gv) (MkNet p false wr g gt gv)
| n_other_send p l wr g gt gv m :
    ours rid m = false -> net_step (MkNet p l wr g gt gv) (MkNet p l (wr ++ [m]) g gt gv)
| n_other_receive p l m wr g gt gv g' :
    ours rid m = false -> unrelated rid g g' ->
    net_step (MkNet p l (m :: wr) g gt gv) (MkNet p l wr g' gt gv)
| n_other p l wr g gt gv g' :
    unrelated rid g g' -> net_step (MkNet p l wr g gt gv) (MkNet p l wr g' gt gv).

(** The start of a pipe. [net_asked] is what happens when a program passes a descriptor that it will read the
    data of the other program from ([Receive] requests, [Send] events): the instance next to it makes a pipe
    that reads from the channel ([translate_pipe_fd]) and announces it ([update_pipe]); it then writes nothing to it
    until data comes, and other activity goes on; the message, an [OpenIRPipe], makes the pipe of the other instance, whose
    writing end goes to the writing program. [net_new] is the direction in which the writing side makes the pipe, not
    yet announced, which the code provides for with [OpenIWPipe]. *)
Inductive net_start : net -> Prop :=
| net_asked (R : Refs) fd ga0 ga1 p p' msgs m ga gb w gb' w' source wr :
    translate_pipe_fd ga0 fd true = Ok (rid, ga1) -> (rid ∉ pipes ga0) -> (rid ∉ unmapped ga0) -> named ga0 ->
    map ga1 !! rid = Some (PipeFd p) -> update_pipe p = Ok (true, p', msgs) -> framed (concat msgs) [m] [] ->
    unrelated rid (put_sfd ga1 rid (PipeFd p')) ga ->
    receive_msg compression m gb w = Ok (gb', w') -> map gb' !! rid = Some (PipeFd source) ->
    Forall (fun m => ours rid m = false) wr -> net_start (MkNet source true wr ga [] [])
| net_new fd ex g wr : map g !! rid = None -> (rid ∉ pipes g) -> named g -> Forall (fun m => ours rid m = false) wr ->
    net_start (MkNet (MkPipe rid true (ReadFromWayland []) false false fd ex) true wr g [] []).
Inductive net_reach : net -> Prop :=
| reach_start s : net_start s -> net_reach s
| reach_step s s' : net_reach s -> net_step s s' -> net_reach s'.

(** *** The invariant *)
Definition mine (wr : list bytes) : list bytes := List.filter (ours rid) wr.
(** The messages of this pipe on their way. *)
Definition coming (wr : list bytes) (its : list item) : Prop := Forall2 (says rid) (mine wr) its.
Definition stream (ds : list bytes) (ended : bool) : list item := List.map IData ds ++ (if ended then [IEnd] else []).

(** The stages of a pipe, with the unsent data of the source. *)
Inductive stage (only live : bool) (wr : list bytes) (g : Globals) (data gt gv : bytes) : Prop :=
| st_new : only = true -> live = true -> coming wr [] -> map g !! rid = None -> (rid ∉ pipes g) -> gt = data -> gv = [] ->
    stage only live wr g data gt gv
| st_opening ds : only = false -> coming wr (IOpen :: stream ds (negb live)) -> map g !! rid = None -> (rid ∉ pipes g) ->
    gt = concat ds ++ data -> gv = [] -> stage only live wr g data gt gv
| st_open ds p v : only = false -> coming wr (stream ds (negb live)) -> sink_pipe g rid p v ->
    program_closed p = false -> channel_closed p = false -> gt = gv ++ v ++ concat ds ++ data ->
    stage only live wr g data gt gv
| st_closing p v : only = false -> live = false -> coming wr [] -> sink_pipe g rid p v -> program_closed p = false ->
    channel_closed p = true -> v <> [] -> gt = gv ++ v -> stage only live wr g data gt gv
| st_done : only = false -> live = false -> coming wr [] -> (rid ∉ pipes g) -> ~ reader_gone rid g ->
    sink_buf rid g = [] -> gt = gv ->
    stage only live wr g data gt gv
| st_broken ds ended : only = false -> (live = true -> ended = false) -> coming wr (stream ds ended) ->
    (exists p v, sink_pipe g rid p v /\ program_closed p = true) \/ (reader_gone rid g /\ (rid ∉ pipes g) /\ rid ∈ unmapped g) ->
    gv `prefix_of` gt -> stage only live wr g data gt gv.
Record net_inv (s : net) : Prop := {
  ni_src : pipe_rid (src s) = rid /\ exists data, pipe_buf (src s) = ReadFromWayland data /\ zlen data <= PIPE_BUFFER /\
     (src_live s = false -> ~ reader_gone rid (snk s) -> data = []) /\
     stage (pipe_only_here (src s)) (src_live s) (wire s) (snk s) data (got s) (given s);
  ni_named : named (snk s) }.

(** *** Helpers *)
Lemma mine_app wr ms : mine (wr ++ ms) = mine wr ++ mine ms.
Proof. apply List.filter_app. Qed.
Lemma coming_other wr m its : ours rid m = false -> coming (wr ++ [m]) its <-> coming wr its.
Proof. intros E. unfold coming. rewrite mine_app. unfold mine at 2. cbn. rewrite E. by rewrite app_nil_r. Qed.
Lemma coming_skip wr m its : ours rid m = false -> coming (m :: wr) its <-> coming wr its.
Proof. intros E. unfold coming, mine. cbn. by rewrite E. Qed.
Lemma coming_head wr m its : ours rid m = true -> coming (m :: wr) its ->
  exists it its', its = it :: its' /\ says rid m it /\ coming wr its'.
Proof. intros E. unfold coming, mine. cbn. rewrite E. inversion 1; subst. eauto. Qed.
Lemma coming_send wr ms its its' : iN 32 rid -> coming wr its -> Forall2 (says rid) ms its' -> coming (wr ++ ms) (its ++ its').
Proof.
  intros Hr Hc Hs. unfold coming. rewrite mine_app. apply Forall2_app; [done|].
  replace (mine ms) with ms; [done|]. clear Hc. unfold mine. induction Hs as [|m it ms its' Hm _ IH]; [done|].
  cbn. rewrite (says_ours _ _ _ Hr Hm). by f_equal.
Qed.
Lemma stream_app ds d pc (b : bool) :
  stream ds false ++ (if b then [IData d] else []) ++ (if pc : bool then [IEnd] else []) = stream (ds ++ if b then [d] else []) pc.
Proof. unfold stream. rewrite app_nil_r, map_app, <- app_assoc. by destruct b. Qed.

Lemma framed_says ms ms' its : iN 32 rid -> framed (concat ms') ms [] -> Forall2 (says rid) ms' its -> ms = ms'.
Proof.
  intros Hr Hf Hs. apply (framed_det (concat ms') _ [] _ []); [done|]. apply framed_msgs.
  clear Hf. induction Hs as [|m it l its' Hm _ IH]; constructor; [by eapply says_whole|done].
Qed.

Lemma unrelated_sink g g' p v : unrelated rid g g' -> sink_pipe g rid p v -> sink_pipe g' rid p v.
Proof.
  intros (Hm & Hu & Hl & _) (? & ? & ? & ? & Hun). unfold sink_pipe. rewrite Hm. split_and!; try done; [auto|]. by rewrite Hu.
Qed.
Lemma unrelated_gone g g' : unrelated rid g g' -> (reader_gone rid g' <-> reader_gone rid g).
Proof. intros (Hm & _). unfold reader_gone. by rewrite Hm. Qed.
Lemma sink_not_gone g p v : sink_pipe g rid p v -> program_closed p = false -> ~ reader_gone rid g.
Proof. intros (Hm & _) Hp (q & Hq & Hc). congruence. Qed.
Lemma absent_not_gone g : map g !! rid = None -> ~ reader_gone rid g.
Proof. intros Hm (q & Hq & _). congruence. Qed.
(** Activity elsewhere keeps the stage. *)
Lemma stage_unrelated only live wr wr' g g' data gt gv :
  unrelated rid g g' -> (forall its, coming wr its -> coming wr' its) ->
  stage only live wr g data gt gv -> stage only live wr' g' data gt gv.
Proof.
  intros Hu Hw Hs. pose proof Hu as (Hm & Hun & Hl & Hnp & _). pose proof (unrelated_gone _ _ Hu) as Hg.
  destruct Hs as [? ? ? Em|ds ? ? Em|ds p v ? ? Hsp|p v ? ? ? Hsp|? ? ? ? Hng Hbf|ds ended ? ? ? Hbr].
  - eapply st_new; eauto. congruence.
  - eapply st_opening; eauto. congruence.
  - eapply st_open; eauto. by eapply unrelated_sink.
  - eapply st_closing; eauto. by eapply unrelated_sink.
  - eapply st_done; eauto; [by rewrite Hg|]. unfold sink_buf. by rewrite Hm.
  - eapply st_broken; eauto. destruct Hbr as [(p & v & Hsp & Hc)|(Hgo & ? & ?)].
    + left. exists p, v. split; [by eapply unrelated_sink|done].
    + right. rewrite Hg, Hun. auto.
Qed.

(** *** The steps *)
Lemma read_source p data e p' : pipe_buf p = ReadFromWayland data -> zlen data <= PIPE_BUFFER -> is_polled p = true ->
  readv_ok (ev_read e) -> poll_pipe p e = Ok (true, p', []) ->
  pipe_rid p' = pipe_rid p /\ pipe_only_here p' = pipe_only_here p /\
  pipe_buf p' = ReadFromWayland (data ++ read_now p e) /\ zlen (data ++ read_now p e) <= PIPE_BUFFER.
Proof.
  intros Hb Hd Hp Hr. unfold poll_pipe, read_now. rewrite Hb. unfold is_polled, has_pfd in Hp. rewrite Hb in Hp.
  destruct (POLLIN (ev_flags e)).
  - destruct (ev_read e (PIPE_BUFFER - zlen data)) as [d| | | |] eqn:Er; cbn [bytes_of].
    + apply Hr in Er; [|lia]. intros E. rewrite zlen_app. split_and!; try lia; destruct (Z.eqb_spec (zlen d) 0); simplify_eq; try done.
      cbn. rewrite Hb. rewrite (zlen_zero_nil d) by done. by rewrite app_nil_r.
    + done.
    + intros [= <-]. by rewrite app_nil_r.
    + intros [= <-]. by rewrite app_nil_r.
    + done.
  - rewrite app_nil_r. destruct (_ || _); intros [= <-]; by cbn.
Qed.
Lemma stage_read only wr g data gt gv d : stage only true wr g data gt gv -> stage only true wr g (data ++ d) (gt ++ d) gv.
Proof.
  destruct 1.
  - eapply st_new; eauto. by subst.
  - eapply st_opening; eauto. subst. by rewrite <- app_assoc.
  - eapply st_open; eauto. subst. by rewrite <- !app_assoc.
  - done.
  - done.
  - eapply st_broken; eauto. by apply prefix_app_r.
Qed.

Lemma stage_update p wr g data gt gv ms : iN 32 rid -> pipe_rid p = rid ->
  Forall2 (says rid) ms (update_items p data) -> stage (pipe_only_here p) true wr g data gt gv ->
  stage false (negb (program_closed p)) (wr ++ ms) g [] gt gv.
Proof.
  intros Hr Hp Hs. unfold update_items in Hs. set (b := 0 <? zlen data) in *.
  assert (Hc : concat (if b then [data] else []) = data).
  { unfold b. destruct (Z.ltb_spec 0 (zlen data)); cbn; [by rewrite app_nil_r|]. symmetry. apply zlen_zero_nil. zlen_pos. lia. }
  destruct 1 as [Eo ? Hco|ds Eo Hco|ds p0 v Eo Hco|? ? ? Hl|? Hl|ds ended Eo Hen Hco]; try done.
  - rewrite Eo in Hs. eapply (st_opening _ _ _ _ _ _ _ (if b then [data] else [])); try done.
    + rewrite negb_involutive. pose proof (coming_send _ _ _ _ Hr Hco Hs) as Hcs.
      change ([] ++ ([IOpen] ++ ?x)) with (IOpen :: x) in Hcs. pose proof (stream_app [] data (program_closed p) b) as Est.
      cbn [app] in Est. unfold stream in Est at 1. cbn in Est. rewrite Est in Hcs. exact Hcs.
    + by rewrite Hc, app_nil_r.
  - rewrite Eo in Hs. eapply (st_opening _ _ _ _ _ _ _ (ds ++ if b then [data] else [])); try done.
    + rewrite negb_involutive. pose proof (coming_send _ _ _ _ Hr Hco Hs) as Hcs. cbn [app negb] in Hcs.
      rewrite stream_app in Hcs. exact Hcs.
    + rewrite concat_app, Hc, app_nil_r. done.
  - rewrite Eo in Hs. eapply (st_open _ _ _ _ _ _ _ (ds ++ if b then [data] else [])); try done.
    + rewrite negb_involutive. pose proof (coming_send _ _ _ _ Hr Hco Hs) as Hcs. cbn [app negb] in Hcs.
      rewrite stream_app in Hcs. exact Hcs.
    + rewrite concat_app, Hc, app_nil_r. done.
  - rewrite Eo in Hs. rewrite Hen in Hco by done. eapply (st_broken _ _ _ _ _ _ _ (ds ++ if b then [data] else []) (program_closed p)); try done.
    + by destruct (program_closed p).
    + pose proof (coming_send _ _ _ _ Hr Hco Hs) as Hcs. cbn [app] in Hcs. rewrite stream_app in Hcs. exact Hcs.
Qed.

Lemma gone_of_sink g p v : sink_pipe g rid p v -> program_closed p = true -> reader_gone rid g.
Proof. intros (Hm & _) Hc. by exists p. Qed.
(** A message for a pipe that is no longer in the map is ignored. *)
Lemma receive_unmapped (R : Refs) m it g w : iN 32 rid -> says rid m it -> it <> IOpen -> rid ∈ unmapped g ->
  receive_msg compression m g w = Ok (g, w).
Proof.
  intros Hr Hs Hno Hun. destruct Hs as [|d pad Hd ? ?|]; [done| |]; rewrite receive_simple by (done || (unfold PIPE_BUFFER in *; zlia)).
  - cbv zeta. unfold pipe_transfer, lookup_sfd. by rewrite decide_True by done.
  - cbv zeta. unfold pipe_shutdown, lookup_sfd. by rewrite decide_True by done.
Qed.

Lemma neither (A B : Prop) : ~ A -> ~ B -> (A <-> B).
Proof. tauto. Qed.
Lemma both (A B : Prop) : A -> B -> (A <-> B).
Proof. tauto. Qed.
Lemma stage_receive (R : Refs) only live m wr g data gt gv g' w w' :
  iN 32 rid -> ours rid m = true -> (rid ∈ pipes g -> upgrade rid = true) -> named g ->
  (live = false -> ~ reader_gone rid g -> data = []) ->
  receive_msg compression m g w = Ok (g', w') -> stage only live (m :: wr) g data gt gv ->
  stage only live wr g' data gt gv /\ named g' /\ (reader_gone rid g <-> reader_gone rid g').
Proof.
  intros Hr Ho Hu Hnm Hdata E Hst.
  destruct Hst as [? ? Hco|ds ? Hco Hm Hnp|ds p v ? Hco Hsp Hpc Hcc Hgt|? ? ? ? Hco|? ? Hco|ds ended ? Hen Hco Hbr Hpre];
    apply (coming_head _ _ _ Ho) in Hco as (it & its & Ei & Hs & Hco'); try done.
  - injection Ei as <- <-. inversion Hs; subst m.
    assert (Hp2 : exists r x, pipe2 = Ok (r, x)).
    { rewrite receive_simple in E by (done || (unfold PIPE_BUFFER; zlia)). cbv zeta in E. unfold open_pipe in E.
      destruct pipe2 as [[r x]| |]; try done. by exists r, x. }
    destruct Hp2 as (r & x & Hp2). destruct (receive_open compression rid g w r x Hr Hnp Hp2) as (g1 & p & E1 & Hsp & ? & ? & Hnm').
    rewrite E1 in E. injection E as <- <-. split_and!; [|auto|by apply neither; [apply absent_not_gone|apply (sink_not_gone _ p [])]].
    eapply st_open; try done. subst. done.
  - destruct ds as [|d ds]; cbn in Ei.
    + destruct live; cbn in Ei; [done|]. injection Ei as <- <-. inversion Hs; subst m.
      destruct (receive_end compression rid g w p v Hr Hu Hsp Hnm) as (g1 & E1 & Hnm' & Hc). rewrite E1 in E. injection E as <- <-.
      pose proof (sink_not_gone _ _ _ Hsp Hpc) as Hng. specialize (Hdata eq_refl Hng). subst data.
      rewrite !app_nil_r in Hgt.
      destruct (Z.ltb_spec 0 (zlen v)).
      * split_and!; [|done|apply neither; [done|by eapply sink_not_gone]]. eapply st_closing; try done. intros ->. done.
      * destruct Hc as (? & ? & Hm'). assert (Hng' : ~ reader_gone rid g1).
        { intros (q & Hq & Hqc). rewrite Hm' in Hq. injection Hq as <-. cbn in Hqc. congruence. }
        split_and!; [|done|by apply neither]. eapply st_done; try done.
        { unfold sink_buf. rewrite Hm'. cbn. destruct Hsp as (_ & _ & -> & _). apply zlen_zero_nil. zlia. }
        rewrite Hgt, (zlen_zero_nil v) by zlia. by rewrite app_nil_r.
    + injection Ei as <- <-. inversion Hs as [|d' pad Hd ? ? Em Ed|]; subst m d'.
      destruct (receive_data compression rid d pad g w p v Hr) as (g1 & p1 & v1 & E1 & Hsp' & Hnm' & Ep & Ec & Ev); [lia|done..|].
      rewrite E1 in E. injection E as <- <-. rewrite Ev in Hsp' by done. split_and!; [|done|apply neither; [by eapply sink_not_gone|eapply sink_not_gone; [exact Hsp'|congruence]]].
      eapply (st_open _ _ _ _ _ _ _ ds); try done; [by rewrite Ep|by rewrite Ec|]. rewrite Hgt. cbn. by rewrite <- !app_assoc.
  - assert (Hno : it <> IOpen) by (destruct ds, ended; cbn in Ei; congruence).
    assert (Hst' : exists ds' ended', its = stream ds' ended' /\ (live = true -> ended' = false)).
    { destruct ds as [|d ds]; cbn in Ei; [destruct ended; [|done]; injection Ei as <- <-; by exists [], false|].
      injection Ei as <- <-. by exists ds, ended. }
    destruct Hst' as (ds' & ended' & -> & Hen').
    destruct Hbr as [(p & v & Hsp & Hc)|(Hg & Hnp & Hun)].
    2:{ rewrite (receive_unmapped _ _ _ _ _ Hr Hs Hno Hun) in E. injection E as <- <-. split_and!; try done.
        eapply (st_broken _ _ _ _ _ _ _ ds' ended'); try done. by right. }
    inversion Hs as [|d pad Hd ? ? Em Ed|Em Ed]; subst m it; [done| |].
    + destruct (receive_data compression rid d pad g w p v Hr) as (g1 & p1 & v1 & E1 & Hsp' & Hnm' & Ep & Ec & Ev); [lia|done..|].
      rewrite E1 in E. injection E as <- <-. rewrite Hc in Ep. split_and!; [|done|by apply both; eapply gone_of_sink].
      eapply (st_broken _ _ _ _ _ _ _ ds' ended'); try done. left. by exists p1, v1.
    + destruct (receive_end compression rid g w p v Hr Hu Hsp Hnm) as (g1 & E1 & Hnm' & Hcase). rewrite E1 in E. injection E as <- <-.
      destruct (Z.ltb_spec 0 (zlen v)).
      * split_and!; [|done|by apply both; eapply gone_of_sink].
        eapply (st_broken _ _ _ _ _ _ _ ds' ended'); try done. left. by exists (set_channel_closed p), v.
      * destruct Hcase as (? & ? & Hm'). assert (reader_gone rid g1) by (by exists (set_channel_closed p)).
        split_and!; [|done|by apply both; [eapply gone_of_sink|]]. eapply (st_broken _ _ _ _ _ _ _ ds' ended'); try done. by right.
Qed.

(** A round of writing hands over a prefix of the data, or finds that the program is gone. *)
Lemma poll_sink_cases p v e keep p' out : pipe_buf p = ReadFromChannel v -> is_polled p = true ->
  writev_ok (ev_write e) -> poll_pipe p e = Ok (keep, p', out) ->
  (exists v', v = out ++ v' /\ p' = set_pipe_buf p (ReadFromChannel v') /\ keep = negb ((zlen v' =? 0) && channel_closed p)) \/
  (p' = set_program_closed p /\ out = [] /\ keep = true).
Proof.
  intros Hb Hp Hw. unfold poll_pipe. rewrite Hb. unfold is_polled, has_pfd in Hp. rewrite Hb in Hp.
  assert (Hstay : (true, p, [] : bytes) = (keep, p', out) -> exists v', v = out ++ v' /\ p' = set_pipe_buf p (ReadFromChannel v') /\
     keep = negb ((zlen v' =? 0) && channel_closed p)).
  { intros [= <- <- <-]. exists v. split; [done|]. split; [destruct p; cbn in *; by subst|]. replace (zlen v =? 0) with false by lia. done. }
  destruct (POLLOUT (ev_flags e)).
  - destruct (ev_write e (zlen v)) as [n| | | | |] eqn:Ew; intros E; simplify_eq; try (by right); try (left; by apply Hstay).
    apply Hw in Ew. unfold get_from in E. rewrite get_range_ok in E by lia. injection E as <- <- <-. left.
    exists (slice v n (zlen v)). split_and!; [|done|done]. rewrite <- (slice_all v) at 1. rewrite (slice_split v 0 n (zlen v)) by lia.
    f_equal. rewrite <- (take_drop (Z.to_nat n) v) at 1. unfold slice. cbn. rewrite Z.sub_0_r. rewrite drop_0.
    rewrite take_app_length'; [done|]. rewrite length_take. unfold zlen in *. lia.
  - destruct (_ || _); intros E; simplify_eq; [by right|left; by apply Hstay].
Qed.

Lemma not_polled_closed p : program_closed p = true -> is_polled p = false.
Proof. unfold is_polled. by intros ->. Qed.
Lemma sink_put_keep g g' p p' v v' : sink_pipe g rid p v -> map g' !! rid = Some (PipeFd p') -> listed g' rid ->
  unmapped g' = unmapped g -> pipe_rid p' = pipe_rid p -> pipe_buf p' = ReadFromChannel v' -> sink_pipe g' rid p' v'.
Proof. intros (? & ? & ? & ? & ?) ? ? Hu ? ?. unfold sink_pipe. rewrite Hu. split_and!; congruence. Qed.

Lemma stage_poll only live wr g data gt gv evs g' log :
  Forall (fun e => writev_ok (ev_write e)) evs -> named g -> poll_pipes g evs = Ok (g', log) ->
  (live = false -> ~ reader_gone rid g -> data = []) ->
  stage only live wr g data gt gv ->
  stage only live wr g' data gt (gv ++ log_of rid log) /\ named g' /\ (reader_gone rid g -> reader_gone rid g').
Proof.
  intros Hw Hnm E Hdata Hst.
  assert (Hout : rid ∉ pipes g -> unrelated rid g g' /\ named g' /\ log_of rid log = []).
  { intros Hnp. destruct (poll_unlisted _ _ _ _ _ Hnp Hnm E) as (Hm & ? & Hu & ? & ?). split_and!; try done.
    unfold unrelated. rewrite Hu. split_and!; try done. intros (l1 & l2 & El & _). rewrite El in Hnp. set_solver. }
  assert (Hquiet : rid ∉ pipes g -> stage only live wr g' data gt (gv ++ log_of rid log) /\ named g' /\ (reader_gone rid g -> reader_gone rid g')).
  { intros Hnp. destruct (Hout Hnp) as (Hu & ? & ->). rewrite app_nil_r. split_and!; [by eapply stage_unrelated; [exact Hu|..]|done|].
    by rewrite (unrelated_gone _ _ Hu). }
  destruct Hst as [? ? ? ? Hnp|ds ? ? ? Hnp|ds p v Eo Hco Hsp Hpc Hcc Hgt|p v Eo El Hco Hsp Hpc Hcc Hv Hgt|? ? ? Hnp|ds ended Eo Hen Hco Hbr Hpre].
  - by apply Hquiet.
  - by apply Hquiet.
  - clear Hout Hquiet. destruct (poll_listed _ _ _ _ _ _ _ Hsp Hnm E) as (Hnm' & Hu & [(_ & Hsp' & ->)|(Hpo & e & keep & p' & He & Epp & Hm' & Hk)]).
    { rewrite app_nil_r. split_and!; [by eapply st_open|done|by intros []%(sink_not_gone _ _ _ Hsp)]. }
    rewrite Forall_forall in Hw. pose proof Hsp as (_ & _ & Hb & _).
    destruct (poll_sink_cases _ _ _ _ _ _ Hb Hpo (Hw _ He) Epp) as [(v' & Ev & -> & ->)|(-> & Eout & ->)].
    + rewrite Hcc, andb_false_r in Hk. cbn in Hk. split_and!; [|done|by intros []%(sink_not_gone _ _ _ Hsp)].
      eapply (st_open _ _ _ _ _ _ _ ds); [done|done|by apply (sink_put_keep g g' p _ v)|done|done|]. rewrite Hgt, Ev. by rewrite <- !app_assoc.
    + rewrite Eout, app_nil_r. split_and!; [|done|by intros []%(sink_not_gone _ _ _ Hsp)].
      eapply (st_broken _ _ _ _ _ _ _ ds (negb live)); try done; [by intros ->| |rewrite Hgt; by apply prefix_app_r].
      left. exists (set_program_closed p), v. split; [by apply (sink_put_keep g g' p _ v)|done].
  - clear Hout Hquiet. destruct (poll_listed _ _ _ _ _ _ _ Hsp Hnm E) as (Hnm' & Hu & [(_ & Hsp' & ->)|(Hpo & e & keep & p' & He & Epp & Hm' & Hk)]).
    { rewrite app_nil_r. split_and!; [by eapply st_closing|done|by intros []%(sink_not_gone _ _ _ Hsp)]. }
    rewrite Forall_forall in Hw. pose proof Hsp as (_ & _ & Hb & _).
    destruct (poll_sink_cases _ _ _ _ _ _ Hb Hpo (Hw _ He) Epp) as [(v' & Ev & -> & ->)|(-> & Eout & ->)].
    + rewrite Hcc, andb_true_r in Hk. split_and!; [|done|by intros []%(sink_not_gone _ _ _ Hsp)].
      destruct (Z.eqb_spec (zlen v') 0) as [Ez|Ez]; cbn in Hk.
      * apply zlen_zero_nil in Ez. subst v'. rewrite app_nil_r in Ev. eapply st_done; try done; [|by unfold sink_buf; rewrite Hm'|by rewrite Hgt, Ev].
        intros (q & Hq & Hqc). rewrite Hm' in Hq. injection Hq as <-. cbn in Hqc. congruence.
      * eapply st_closing; [done|done|done|by apply (sink_put_keep g g' p _ v)|done|done| |rewrite Hgt, Ev; by rewrite <- !app_assoc]. by intros ->.
    + rewrite Eout, app_nil_r. split_and!; [|done|by intros []%(sink_not_gone _ _ _ Hsp)].
      eapply (st_broken _ _ _ _ _ _ _ [] false); try done; [|rewrite Hgt; by apply prefix_app_r].
      left. exists (set_program_closed p), v. split; [by apply (sink_put_keep g g' p _ v)|done].
  - by apply Hquiet.
  - destruct Hbr as [(p & v & Hsp & Hc)|(Hg & Hnp & Hun)]; [|by apply Hquiet].
    destruct (poll_listed _ _ _ _ _ _ _ Hsp Hnm E) as (Hnm' & Hu & [(_ & Hsp' & ->)|(Hpo & _)]).
    2:{ by rewrite not_polled_closed in Hpo. }
    rewrite app_nil_r. split_and!; [|done|intros _; by eapply gone_of_sink].
    eapply (st_broken _ _ _ _ _ _ _ ds ended); try done. left. by exists p, v.
Qed.

Lemma remove_pipe_in g l l' : remove_pipe g rid l = Ok l' ->
  Forall (fun r => exists p, map g !! r = Some (PipeFd p) /\ pipe_rid p = r) l -> rid ∈ l.
Proof.
  revert l'. induction l as [|r l IH]; intros l' E Hall; [done|]. apply Forall_cons in Hall as [(p & Hm & Hp) Hall].
  cbn [remove_pipe] in E. unfold get_sfd in E. rewrite Hm in E. cbn [unwrap mbind res_bind] in E. rewrite Hp in E.
  destruct (Z.eqb_spec r rid) as [->|]; [set_solver|]. apply bind_Ok in E as (l1 & E & _). apply IH in E; [set_solver|done].
Qed.
Lemma stage_shutdown only live wr g data gt gv g' : named g -> reader_gone rid g -> delete_pipe g rid = Ok g' ->
  stage only live wr g data gt gv -> stage only live wr g' data gt gv /\ named g' /\ reader_gone rid g'.
Proof.
  intros Hnm Hg E Hst.
  destruct Hst as [? ? ? Hm|ds ? ? Hm|ds p v Eo Hco Hsp Hpc|p v Eo El Hco Hsp Hpc|? ? ? ? Hng|ds ended Eo Hen Hco Hbr Hpre].
  - by apply absent_not_gone in Hm.
  - by apply absent_not_gone in Hm.
  - by apply (sink_not_gone _ _ _ Hsp) in Hg.
  - by apply (sink_not_gone _ _ _ Hsp) in Hg.
  - done.
  - destruct Hbr as [(p & v & (Hm & Hp & Hb & Hl & Hun) & Hc)|(_ & Hnp & _)].
    + destruct (delete_listed g rid p Hm Hp Hl Hnm) as (l & E' & Hl' & Hsub). rewrite E' in E. injection E as <-.
      split_and!; [|by apply (named_sub g)|done]. eapply (st_broken _ _ _ _ _ _ _ ds ended); try done. right.
      split; [done|]. split; [done|]. cbn. set_solver.
    + unfold delete_pipe in E. apply bind_Ok in E as (l & E & _). apply remove_pipe_in in E; done.
Qed.

Lemma stage_reset only live wr g data gt gv : reader_gone rid g -> stage only live wr g data gt gv ->
  stage only false wr g data gt gv.
Proof.
  intros Hg [? ? ? Hm|ds ? ? Hm|ds p v Eo Hco Hsp Hpc|p v Eo El Hco Hsp Hpc|? ? ? ? Hng|ds ended Eo Hen Hco Hbr Hpre].
  - by apply absent_not_gone in Hm.
  - by apply absent_not_gone in Hm.
  - by apply (sink_not_gone _ _ _ Hsp) in Hg.
  - by apply (sink_not_gone _ _ _ Hsp) in Hg.
  - done.
  - by eapply (st_broken _ _ _ _ _ _ _ ds ended).
Qed.

Lemma net_inv_step s s' : iN 32 rid -> net_inv s -> net_step s s' -> net_inv s'.
Proof.
  intros Hr [[Hrid (data & Hb & Hz & Hd & Hst)] Hnm] Hs. destruct Hs; cbn in *.
  - subst l. destruct (read_source _ _ _ _ Hb Hz H3 H4 H5) as (E1 & E2 & E3 & E4). split; [|done]. cbn.
    split; [congruence|]. exists (data ++ read_now p e). split_and!; [done|done|done|]. rewrite E2. by apply stage_read.
  - destruct (update_pipe_says p data Hb Hz) as (msgs' & ms' & E & Ec & Hsays). rewrite E in H3. injection H3 as <- <- <-.
    rewrite Ec in H4. rewrite Hrid in Hsays. rewrite (framed_says _ _ _ Hr H4 Hsays). split; [|done]. cbn. split; [done|].
    exists []. split_and!; [done|unfold PIPE_BUFFER; zlia|done|]. by eapply stage_update.
  - destruct (stage_receive R _ _ _ _ _ _ _ _ _ _ _ Hr H3 H4 Hnm Hd H5 Hst) as (Hst' & Hnm' & Hgo).
    split; [|done]. cbn. split; [done|]. exists data. split_and!; [done|done| |done]. intros El Hng. apply Hd; [done|tauto].
  - destruct (stage_poll _ _ _ _ _ _ _ _ _ _ H3 Hnm H4 Hd Hst) as (Hst' & Hnm' & Hgo).
    split; [|done]. cbn. split; [done|]. exists data. split_and!; [done|done| |done]. intros El Hng. apply Hd; [done|tauto].
  - destruct (stage_shutdown _ _ _ _ _ _ _ _ Hnm H3 H4 Hst) as (Hst' & Hnm' & Hgo).
    split; [|done]. cbn. split; [done|]. exists data. by split_and!.
  - split; [|done]. cbn. split; [done|]. exists data. split_and!; [done|done|done|by eapply stage_reset].
  - split; [|done]. cbn. split; [done|]. exists data. split_and!; [done|done|done|].
    eapply stage_unrelated; [|intros its Hc; by apply coming_other|exact Hst]. by unfold unrelated.
  - split; [|by apply H4]. cbn. split; [done|]. exists data. split_and!; [done|done| |].
    + by rewrite (unrelated_gone _ _ H4).
    + eapply stage_unrelated; [exact H4| |exact Hst]. intros its Hc. by apply (coming_skip _ _ _ H3).
  - split; [|by apply H3]. cbn. split; [done|]. exists data. split_and!; [done|done| |].
    + by rewrite (unrelated_gone _ _ H3).
    + by eapply stage_unrelated.
Qed.
Lemma coming_none wr : Forall (fun m => ours rid m = false) wr -> coming wr [].
Proof.
  intros Hwr. unfold coming. replace (mine wr) with (@nil bytes); [constructor|]. unfold mine.
  induction Hwr as [|m wr E _ IH]; [done|]. cbn. by rewrite E.
Qed.
(** The sink of a pipe that was asked for, announced. *)
Lemma asked_sink fd ga0 ga1 p p' msgs : translate_pipe_fd ga0 fd true = Ok (rid, ga1) -> (rid ∉ pipes ga0) -> (rid ∉ unmapped ga0) ->
  named ga0 -> map ga1 !! rid = Some (PipeFd p) -> update_pipe p = Ok (true, p', msgs) ->
  sink_pipe (put_sfd ga1 rid (PipeFd p')) rid p' [] /\ program_closed p' = false /\ channel_closed p' = false /\
  named (put_sfd ga1 rid (PipeFd p')) /\ msgs = [simple_msg OpenIRPipe rid [] []].
Proof.
  intros Et Hnp Hun Hnm Hm Eu. unfold translate_pipe_fd in Et. apply bind_Ok in Et as ([v g] & Ea & E).
  unfold allocate_rid in Ea. cbv zeta in Ea. apply bind_Ok in Ea as (n & _ & [= <- <-]). injection E as Er <-. cbn in Hm.
  rewrite Er, lookup_insert_eq in Hm. injection Hm as <-.
  unfold update_pipe in Eu. cbn [pipe_only_here reads_channel pipe_buf] in Eu. rewrite pipe_msg_ok in Eu by (unfold PIPE_BUFFER; lia).
  cbn in Eu. injection Eu as <- <-. split; [|split; [done|split; [done|split]]].
  - unfold sink_pipe. cbn. rewrite lookup_insert_eq. split_and!; try done. exists (pipes ga0), []. rewrite Er. split; [done|]. set_solver.
  - unfold named in *. cbn. rewrite Er. apply Forall_app. split; [|apply Forall_singleton; eexists; by rewrite lookup_insert_eq].
    rewrite Forall_forall in *. intros y Hy. destruct (Hnm y Hy) as (q & Eq & ?). exists q.
    rewrite !lookup_insert_ne by (intros <-; done). done.
  - unfold simple_msg. by rewrite !app_nil_r.
Qed.
Lemma net_inv_start s : iN 32 rid -> net_start s -> net_inv s.
Proof.
  intros Hr. destruct 1 as [R fd ga0 ga1 p p' msgs m ga gb w gb' w' source wr Et Hnp Hun Hnm Hm Eu Hf Ho Er Hs Hwr|fd ex g wr Hm Hnp Hnm Hwr].
  - destruct (asked_sink _ _ _ _ _ _ Et Hnp Hun Hnm Hm Eu) as (Hsp & Hpc & Hcc & Hn1 & ->).
    assert (m = simple_msg OpenIRPipe rid [] []) as ->.
    { assert (Hw : whole (simple_msg OpenIRPipe rid [] [])) by (apply simple_whole; done).
      destruct (framed_det _ _ _ _ _ Hf (framed_msgs [simple_msg OpenIRPipe rid [] []] (Forall_cons_2 _ _ _ Hw (Forall_nil_2 _)))) as [[= ->] _]. done. }
    rewrite receive_simple in Er by (done || (unfold PIPE_BUFFER; zlia)). cbv zeta in Er. unfold open_pipe in Er.
    apply bind_Ok in Er as (g2 & Eo & [= <- <-]). apply bind_Ok in Eo as ([r x] & _ & [= <-]). cbn in Hs.
    rewrite lookup_insert_eq in Hs. injection Hs as <-. split; [|by apply Ho]. cbn. split; [done|]. exists [].
    split_and!; [done|unfold PIPE_BUFFER; zlia|done|].
    eapply (st_open _ _ _ _ _ _ _ [] p' []); try done; [by apply coming_none|by eapply unrelated_sink].
  - split; [|done]. cbn. split; [done|]. exists [].
    split_and!; [done|unfold PIPE_BUFFER; zlia|done|]. eapply st_new; try done. by apply coming_none.
Qed.
Lemma net_reach_inv s : iN 32 rid -> net_reach s -> net_inv s.
Proof. intros Hr. induction 1; [by apply net_inv_start|by eapply net_inv_step]. Qed.

(** *** What reaches the reader *)
Lemma says_msg_data m it : says rid m it -> msg_data m = match it with IData d => d | _ => [] end.
Proof.
  destruct 1 as [|d pad Hd|]; unfold msg_data.
  - by rewrite simple_header by (unfold PIPE_BUFFER; zlia).
  - rewrite simple_header by lia. unfold simple_msg. rewrite app_assoc.
    apply slice_app_mid; rewrite ?zlen_app, ?zlen_to_le4; lia.
  - by rewrite simple_header by (unfold PIPE_BUFFER; zlia).
Qed.
Definition item_data (it : item) : bytes := match it with IData d => d | _ => [] end.
Lemma coming_data wr its : coming wr its -> wire_data rid wr = concat (List.map item_data its).
Proof.
  unfold coming, mine, wire_data. induction 1 as [|m it ms its Hm _ IH]; [done|]. cbn. rewrite IH. f_equal.
  by rewrite (says_msg_data _ _ Hm).
Qed.
Lemma stream_data ds ended : concat (List.map item_data (stream ds ended)) = concat ds.
Proof.
  unfold stream. rewrite map_app, concat_app, map_map.
  replace (List.map (fun x => item_data (IData x)) ds) with ds by (symmetry; apply map_id).
  destruct ended; cbn; by rewrite app_nil_r.
Qed.
Lemma sink_buf_pipe g p v : sink_pipe g rid p v -> sink_buf rid g = v.
Proof. intros (Hm & _ & Hb & _). unfold sink_buf. by rewrite Hm, Hb. Qed.

Lemma inv_delivered s : net_inv s ->
  given s `prefix_of` got s /\
  (~ reader_gone rid (snk s) -> got s = given s ++ undelivered rid s) /\
  (is_Some (map (snk s) !! rid) -> rid ∉ pipes (snk s) -> ~ reader_gone rid (snk s) ->
     src_live s = false /\ given s = got s).
Proof.
  intros [[Hrid (data & Hb & Hz & Hd & Hst)] Hnm]. unfold undelivered, src_data. rewrite Hb.
  destruct Hst as [Eo El Hco Hm Hnp Egt Egv|ds Eo Hco Hm Hnp Egt Egv|ds p v Eo Hco Hsp Hpc Hcc Hgt|p v Eo El Hco Hsp Hpc Hcc Hv Hgt|Eo El Hco Hnp Hng Hbf Hgt|ds ended Eo Hen Hco Hbr Hpre];
    pose proof (coming_data _ _ Hco) as Hwd; cbn [List.map concat item_data] in Hwd; rewrite ?stream_data in Hwd; cbn [app] in Hwd.
  - rewrite Egv, Hwd. unfold sink_buf. rewrite Hm. split_and!; [by apply prefix_nil|done|intros []; congruence].
  - rewrite Egv, Hwd. unfold sink_buf. rewrite Hm. split_and!; [by apply prefix_nil|done|intros []; congruence].
  - rewrite Hwd, (sink_buf_pipe _ _ _ Hsp). split_and!; [rewrite Hgt; by apply prefix_app_r|done|].
    intros _ Hnp. destruct Hsp as (_ & _ & _ & (l1 & l2 & El & _) & _). rewrite El in Hnp. set_solver.
  - rewrite Hwd, (sink_buf_pipe _ _ _ Hsp). split_and!; [rewrite Hgt; by apply prefix_app_r| |].
    + intros Hng. rewrite Hd by done. by rewrite !app_nil_r.
    + intros _ Hnp. destruct Hsp as (_ & _ & _ & (l1 & l2 & El' & _) & _). rewrite El' in Hnp. set_solver.
  - rewrite Hwd, Hbf. split_and!; [by rewrite Hgt| |done].
    intros _. rewrite Hd by done. cbn. by rewrite app_nil_r.
  - assert (Hg : reader_gone rid (snk s)).
    { destruct Hbr as [(p & v & Hsp & Hc)|(Hg & _)]; [by eapply gone_of_sink|done]. }
    by split_and!.
Qed.

(** C10: a pipe between two programs is a FIFO across the two instances, whether the reading side asks for it
    ([OpenIRPipe], as all messages do) or the writing side makes it ([OpenIWPipe]). Whatever messages interleave and however
    the kernel splits reads and writes, what the reading program is given is a prefix of what the writing
    program wrote; while the reader stays, the rest is exactly the data in the two pipe buffers and the
    messages on their way; and when the receiving side closes its end, all of it has been given. *)
Theorem pipe_is_fifo s : iN 32 rid -> net_reach s ->
  given s `prefix_of` got s /\
  (~ reader_gone rid (snk s) -> got s = given s ++ undelivered rid s) /\
  (is_Some (map (snk s) !! rid) -> rid ∉ pipes (snk s) -> ~ reader_gone rid (snk s) ->
     src_live s = false /\ given s = got s).
Proof. intros Hr Hs. apply inv_delivered. by apply net_reach_inv. Qed.

(** *** The stream ends *)
Inductive progress : net -> net -> Prop :=
| p_update p wr g gt gv keep p' msgs ms :
    update_pipe p = Ok (keep, p', msgs) -> framed (concat msgs) ms [] ->
    progress (MkNet p true wr g gt gv) (MkNet p' keep (wr ++ ms) g gt gv)
| p_receive p l m wr g gt gv g' w w' (R : Refs) :
    ours rid m = true -> (rid ∈ pipes g -> upgrade rid = true) -> receive_msg compression m g w = Ok (g', w') ->
    progress (MkNet p l (m :: wr) g gt gv) (MkNet p l wr g' gt gv)
| p_other_receive p l m wr g gt gv g' : ours rid m = false -> unrelated rid g g' ->
    progress (MkNet p l (m :: wr) g gt gv) (MkNet p l wr g' gt gv)
| p_poll p l wr g gt gv evs g' log :
    Forall (fun e => writev_ok (ev_write e)) evs -> poll_pipes g evs = Ok (g', log) -> log_of rid log <> [] ->
    progress (MkNet p l wr g gt gv) (MkNet p l wr g' gt (gv ++ log_of rid log)).
Lemma progress_step s s' : progress s s' -> net_step s s'.
Proof. destruct 1; [by eapply n_update|by eapply n_receive|by eapply n_other_receive|by eapply n_poll]. Qed.

Definition finished (s : net) : Prop := src_live s = false /\ (rid ∉ pipes (snk s)) /\ given s = got s.
Definition wire_weight (wr : list bytes) : Z := foldr (fun m n => 1 + (if ours rid m then 2 * zlen m else 0) + n) 0 wr.
Definition weight (s : net) : Z :=
  (if src_live s then 80 + 3 * zlen (src_data (src s)) else 0) + wire_weight (wire s) + zlen (sink_buf rid (snk s)).
Lemma wire_weight_app l1 l2 : wire_weight (l1 ++ l2) = wire_weight l1 + wire_weight l2.
Proof. unfold wire_weight. induction l1 as [|m l1 IH]; [done|]. cbn [app foldr]. rewrite IH. lia. Qed.
Lemma wire_weight_pos wr : 0 <= wire_weight wr.
Proof. unfold wire_weight. induction wr as [|m wr IH]; [done|]. cbn [foldr]. zlen_pos. case_match; lia. Qed.
Lemma weight_pos s : 0 <= weight s.
Proof. unfold weight. pose proof (wire_weight_pos (wire s)). zlen_pos. case_match; lia. Qed.

Lemma zlen_slice_le {A} (l : list A) a b : zlen (slice l a b) <= zlen l.
Proof. unfold slice, zlen. rewrite length_take, length_drop. lia. Qed.
Lemma msg_data_le m : zlen (msg_data m) <= zlen m.
Proof. unfold msg_data. repeat case_match; try (apply zlen_slice_le); zlia. Qed.

Lemma says_weight m it : says rid m it -> zlen m <= 11 + zlen (item_data it).
Proof. destruct 1; rewrite zlen_simple; cbn [item_data]; zlia. Qed.
Lemma update_weight p data ms : Forall2 (says rid) ms (update_items p data) -> wire_weight ms <= 69 + 2 * zlen data.
Proof.
  assert (Hw : forall its, Forall2 (says rid) ms its -> wire_weight ms <= 23 * zlen its + 2 * zlen (concat (List.map item_data its))).
  { intros its. unfold wire_weight. induction 1 as [|m it ms its Hm _ IH]; [done|]. apply says_weight in Hm.
    cbn [foldr List.map concat]. rewrite zlen_cons, zlen_app. zlen_pos. case_match; lia. }
  intros Hs%Hw. unfold update_items in Hs. revert Hs. zlen_pos.
  destruct (pipe_only_here p), (Z.ltb_spec 0 (zlen data)), (program_closed p); cbn [app List.map item_data concat]; autorewrite with zlen; lia.
Qed.

(** The reader is found gone only in a round that gives it nothing. *)
Lemma poll_gone g evs g' log : Forall (fun e => writev_ok (ev_write e)) evs -> named g -> poll_pipes g evs = Ok (g', log) ->
  (exists p v, sink_pipe g rid p v) -> reader_gone rid g' -> reader_gone rid g \/ log_of rid log = [].
Proof.
  intros Hw Hnm E (p & v & Hsp) Hg.
  destruct (poll_listed _ _ _ _ _ _ _ Hsp Hnm E) as (_ & _ & [(_ & _ & ->)|(Hpo & e & keep & p' & He & Epp & Hm' & _)]); [by right|].
  rewrite Forall_forall in Hw. pose proof Hsp as (Hm & _ & Hb & _).
  destruct (poll_sink_cases _ _ _ _ _ _ Hb Hpo (Hw _ He) Epp) as [(v' & Ev & -> & ->)|(-> & -> & _)]; [|by right].
  left. destruct Hg as (q & Hq & Hc). rewrite Hm' in Hq. injection Hq as <-. by exists p.
Qed.

(** The writer has closed its end, or the source is gone already; the reader stays. *)
Definition closing (s : net) : Prop :=
  (src_live s = true -> program_closed (src s) = true) /\ ~ reader_gone rid (snk s).
Lemma inv_sink s : net_inv s -> rid ∈ pipes (snk s) -> exists p v, sink_pipe (snk s) rid p v.
Proof.
  intros [[_ (data & _ & _ & _ & Hst)] _] Hin.
  destruct Hst as [| |ds p v ? ? Hsp|p v ? ? ? Hsp| |? ? ? ? ? [(p & v & Hsp & _)|(_ & ? & _)]]; try done; eauto.
Qed.
Lemma progress_closing s s' : iN 32 rid -> net_inv s -> closing s -> progress s s' -> closing s'.
Proof.
  intros Hr Hi [Hp Hg] Hs. unfold closing in *. pose proof Hi as [[Hrid (data & Hb & Hz & Hd & Hst)] Hnm].
  destruct Hs as [p wr g gt gv keep p' msgs ms E Hf|p l m wr g gt gv g' w w' R Ho Hu E|p l m wr g gt gv g' Ho Hu|p l wr g gt gv evs g' log Hw E Hlog]; cbn in *.
  - split; [|done]. destruct (update_pipe_says p data Hb Hz) as (msgs' & ms' & E' & _ & _). rewrite E' in E. injection E as <- <- <-.
    rewrite Hp by done. done.
  - split; [done|]. destruct (stage_receive R _ _ _ _ _ _ _ _ _ _ _ Hr Ho Hu Hnm Hd E Hst) as (_ & _ & <-). done.
  - split; [done|]. by rewrite (unrelated_gone _ _ Hu).
  - split; [done|]. intros Hg'. destruct (decide (rid ∈ pipes g)) as [Hin|Hnin].
    + destruct (poll_gone _ _ _ _ Hw Hnm E (inv_sink _ Hi Hin) Hg'); done.
    + destruct (poll_unlisted _ _ _ _ _ Hnin Hnm E) as (_ & _ & _ & El & _). done.
Qed.

Lemma progress_weight s s' : iN 32 rid -> net_inv s -> closing s -> progress s s' -> weight s' < weight s.
Proof.
  intros Hr Hi Hc Hs. pose proof (progress_closing _ _ Hr Hi Hc Hs) as Hc'.
  pose proof (net_inv_step _ _ Hr Hi (progress_step _ _ Hs)) as Hi'.
  destruct Hc as [Hp Hg], Hc' as [_ Hg'].
  destruct (inv_delivered _ Hi) as (_ & Hd & _), (inv_delivered _ Hi') as (_ & Hd' & _).
  specialize (Hd Hg). specialize (Hd' Hg'). pose proof Hi as [[Hrid (data & Hb & Hz & _)] _]. unfold undelivered in Hd, Hd'. unfold weight.
  destruct Hs as [p wr g gt gv keep p' msgs ms E Hf|p l m wr g gt gv g' w w' R Ho Hu E|p l m wr g gt gv g' Ho Hu|p l wr g gt gv evs g' log Hw E Hlog]; cbn [src src_live wire snk got given] in *.
  - destruct (update_pipe_says p data Hb Hz) as (msgs' & ms' & E' & Ec & Hsays). rewrite E' in E. injection E as <- <- <-.
    rewrite Hp by done. rewrite Ec in Hf. rewrite Hrid in Hsays. rewrite (framed_says _ _ _ Hr Hf Hsays).
    rewrite wire_weight_app. apply update_weight in Hsays. unfold src_data. rewrite Hb. zlen_pos. cbn [negb]. lia.
  - rewrite Hd in Hd'. apply app_inv_head in Hd'. apply (f_equal zlen) in Hd'. unfold wire_data, wire_weight in *. cbn [List.filter foldr] in *.
    rewrite Ho in *. cbn [List.map concat] in Hd'. rewrite !zlen_app in Hd'. pose proof (msg_data_le m). zlen_pos. lia.
  - destruct Hu as (Hm & _). unfold sink_buf. rewrite Hm. unfold wire_weight. cbn [foldr]. rewrite Ho. lia.
  - rewrite Hd, <- app_assoc in Hd'. apply app_inv_head in Hd'. apply (f_equal zlen) in Hd'. rewrite !zlen_app in Hd'.
    assert (0 < zlen (log_of rid log)) by (destruct (log_of rid log); [done|zlia]). lia.
Qed.

(** *** No state short of the end is stuck *)
Definition quiet : PipeEvent := MkEvent (MkFlags false false false false) (fun _ => EAGAIN) (fun _ => WEAGAIN).
Definition accept : PipeEvent := MkEvent (MkFlags false true false false) (fun _ => EAGAIN)
  (fun t => if 0 <=? t then Wrote t else WEAGAIN).
Lemma put_same g r s : map g !! r = Some s -> put_sfd g r s = g.
Proof. intros E. unfold put_sfd, set_map. rewrite insert_id by done. by destruct g. Qed.
Lemma poll_quiet p : poll_pipe p quiet = Ok (true, p, []).
Proof. unfold poll_pipe. by destruct (pipe_buf p). Qed.
Lemma retain_quiet g l : Forall (fun r => exists p, map g !! r = Some (PipeFd p) /\ pipe_rid p = r) l ->
  exists n, forall rest log, exists log',
    retain_err poll_pipe_at l (MkPoll g (replicate n quiet ++ rest) log) = Ok (l, MkPoll g rest log').
Proof.
  induction 1 as [|r l (p & Hm & _) _ (n & IH)]; [exists 0%nat; intros rest log; by exists log|].
  exists (if is_polled p then S n else n). intros rest log. cbn [retain_err]. unfold poll_pipe_at at 1, get_sfd. cbn [p_glob p_events p_log].
  rewrite Hm. cbn [unwrap mbind res_bind]. destruct (is_polled p); cbn [negb].
  - cbn [replicate app]. rewrite poll_quiet. cbn [mbind res_bind fst snd]. rewrite (put_same _ _ _ Hm).
    destruct (IH rest (log ++ [(r, [])])) as (log' & ->). by exists log'.
  - destruct (IH rest log) as (log' & ->). by exists log'.
Qed.
Lemma poll_accept p v : pipe_buf p = ReadFromChannel v ->
  poll_pipe p accept = Ok (negb (channel_closed p), set_pipe_buf p (ReadFromChannel []), v).
Proof.
  intros Hb. unfold poll_pipe. rewrite Hb. cbn [ev_flags accept POLLOUT ev_write]. unfold get_from. zlen_pos.
  replace (0 <=? zlen v) with true by lia. rewrite get_range_ok by lia. cbn [mbind res_bind]. rewrite slice_nil by lia. cbn [andb zlen length Z.of_nat Z.eqb].
  do 3 f_equal. rewrite firstn_all2; [done|]. unfold zlen. lia.
Qed.
Lemma poll_possible g p v : named g -> sink_pipe g rid p v -> is_polled p = true -> v <> [] ->
  exists evs g' log, Forall (fun e => writev_ok (ev_write e)) evs /\ poll_pipes g evs = Ok (g', log) /\ log_of rid log <> [].
Proof.
  intros Hnm Hsp Hpo Hv. pose proof Hsp as (Hm & Hp & Hb & (l1 & l2 & El & N1 & N2) & Hun).
  pose proof Hnm as Hnm0. unfold named in Hnm0. rewrite El in Hnm0. apply Forall_app in Hnm0 as [A1 A2]. apply Forall_cons in A2 as [_ A2].
  destruct (retain_quiet g l1 A1) as (n1 & Q1).
  set (g2 := put_sfd g rid (PipeFd (set_pipe_buf p (ReadFromChannel [])))).
  assert (A2' : Forall (fun r => exists p, map g2 !! r = Some (PipeFd p) /\ pipe_rid p = r) l2).
  { rewrite Forall_forall in *. intros r Hin. destruct (A2 r Hin) as (q & ? & ?). exists q. split; [|done]. unfold g2. cbn.
    rewrite lookup_insert_ne; [done|]. by intros ->. }
  destruct (retain_quiet g2 l2 A2') as (n2 & Q2).
  set (evs := replicate n1 quiet ++ accept :: replicate n2 quiet ++ []).
  assert (Hev : Forall (fun e => writev_ok (ev_write e)) evs).
  { unfold evs. rewrite app_nil_r. apply Forall_app. split; [by apply Forall_replicate|]. apply Forall_cons.
    split; [|by apply Forall_replicate]. intros t k. cbn. case_match; intros [= <-]. lia. }
  destruct (Q1 (accept :: replicate n2 quiet ++ []) []) as (log1 & E1).
  destruct (Q2 [] (log1 ++ [(rid, v)])) as (log2 & E2).
  assert (E : exists k, retain_err poll_pipe_at (l1 ++ (rid :: l2)) (MkPoll g evs []) = Ok (k, MkPoll g2 [] log2)).
  { unfold evs. clear - E1 E2 Hm Hpo Hb. eexists. rewrite (retain_concat _ _ _ _ _ _ E1). cbn [retain_err].
    unfold poll_pipe_at at 1, get_sfd. cbn [p_glob p_events p_log]. rewrite Hm. cbn [unwrap mbind res_bind]. rewrite Hpo. cbn [negb].
    rewrite (poll_accept _ _ Hb). cbn [mbind res_bind fst snd]. fold g2. rewrite E2. cbn [mbind res_bind fst snd]. done. }
  destruct E as (k & E). exists evs, (set_pipes g2 k), log2. split; [done|].
  assert (Epp : poll_pipes g evs = Ok (set_pipes g2 k, log2)) by (unfold poll_pipes; rewrite El, E; done). split; [done|].
  destruct (poll_listed _ _ _ _ _ _ _ Hsp Hnm Epp) as (_ & _ & [(Hnp & _)|(_ & e & keep & p' & He & Ep & Hm' & _)]); [congruence|].
  rewrite Forall_forall in Hev. destruct (poll_sink_cases _ _ _ _ _ _ Hb Hpo (Hev _ He) Ep) as [(v' & Ev & E' & _)|(E' & _ & _)].
  - cbn in Hm'. rewrite lookup_insert_eq in Hm'. injection Hm' as Hm'. rewrite E' in Hm'. injection Hm' as Hm'.
    intros Hn. rewrite Hn in Ev. cbn in Ev. congruence.
  - cbn in Hm'. rewrite lookup_insert_eq in Hm'. injection Hm' as Hm'. rewrite E' in Hm'. apply (f_equal pipe_buf) in Hm'. cbn in Hm'. rewrite Hb in Hm'.
    injection Hm' as Hm'. congruence.
Qed.

Definition all_held : Refs := {| upgrade _ := true; exclusive _ := true |}.
Definition no_work : Work := MkWork [] ∅ [] [] [] [].
Lemma receive_possible only live m wr g data gt gv r x : iN 32 rid -> pipe2 = Ok (r, x) -> named g -> ours rid m = true ->
  ~ reader_gone rid g -> stage only live (m :: wr) g data gt gv ->
  exists g' w', @receive_msg _ _ all_held _ _ compression m g no_work = Ok (g', w').
Proof.
  intros Hr Hp2 Hnm Ho Hng Hst.
  destruct Hst as [? ? Hco|ds ? Hco Hm Hnp|ds p v ? Hco Hsp Hpc Hcc Hgt|? ? ? ? Hco|? ? Hco|ds ended ? Hen Hco Hbr Hpre];
    apply (coming_head _ _ _ Ho) in Hco as (it & its & Ei & Hs & Hco'); try done.
  - injection Ei as <- <-. inversion Hs; subst m.
    destruct (@receive_open _ _ all_held _ _ compression rid g no_work r x Hr Hnp Hp2) as (g1 & p & E1 & _). eauto.
  - destruct ds as [|d ds]; cbn in Ei.
    + destruct live; cbn in Ei; [done|]. injection Ei as <- <-. inversion Hs; subst m.
      destruct (@receive_end _ _ all_held _ _ compression rid g no_work p v Hr) as (g1 & E1 & _); [done..|]. eauto.
    + injection Ei as <- <-. inversion Hs as [|d' pad Hd ? ? Em Ed|]; subst m d'.
      destruct (@receive_data _ _ all_held _ _ compression rid d pad g no_work p v Hr) as (g1 & p1 & v1 & E1 & _); [lia|done..|]. eauto.
  - exfalso. apply Hng. destruct Hbr as [(p & v & Hsp & Hc)|(? & _)]; [by eapply gone_of_sink|done].
Qed.
Lemma not_stuck s r x : iN 32 rid -> pipe2 = Ok (r, x) -> net_inv s -> closing s -> finished s \/ exists s', progress s s'.
Proof.
  intros Hr Hp2 Hi [Hp Hg]. pose proof Hi as [[Hrid (data & Hb & Hz & Hd & Hst)] Hnm]. destruct s as [p live wr g gt gv]. cbn in *.
  destruct live.
  { right. destruct (update_pipe_says p data Hb Hz) as (msgs & ms & E & Ec & Hs). eexists. eapply p_update; [exact E|].
    rewrite Ec. apply framed_msgs. clear -Hs. induction Hs as [|m it l its Hm _ IH]; constructor; [by eapply says_whole|done]. }
  destruct wr as [|m wr].
  - unfold finished. cbn. assert (Hne : forall its, coming [] its -> its = []) by (intros its Hc; unfold coming in Hc; by inversion Hc).
    destruct Hst as [| ds ? Hco|ds q v ? Hco|q v ? ? Hco Hsp Hpc ? Hv Hgt| |ds ended ? ? ? Hbr]; try done.
    + by apply Hne in Hco.
    + apply Hne in Hco. by destruct ds.
    + right. assert (Hpo : is_polled q = true).
      { unfold is_polled, has_pfd. rewrite Hpc. destruct Hsp as (_ & _ & -> & _). cbn [negb andb]. destruct v; [done|]. zlia. }
      destruct (poll_possible g q v Hnm Hsp Hpo Hv) as (evs & g' & log & ? & ? & ?). eexists. by eapply p_poll.
    + by left.
    + exfalso. apply Hg. destruct Hbr as [(q & v & Hsp & Hc)|(? & _)]; [by eapply gone_of_sink|done].
  - right. destruct (ours rid m) eqn:Ho.
    + destruct (receive_possible _ _ _ _ _ _ _ _ _ _ Hr Hp2 Hnm Ho Hg Hst) as (g' & w' & E).
      eexists. eapply (p_receive _ _ _ _ _ _ _ _ _ _ all_held); [done|done|exact E].
    + eexists. eapply p_other_receive; [done|]. by unfold unrelated.
Qed.

(** C15: for a pipe announced by [OpenIRPipe] or by [OpenIWPipe], as in [net_start]: once the writing program has
    closed the pipe, and as long as the reader stays, the stream ends: sending
    what is buffered, receiving what is on its way and writing what was received cannot go on forever, and
    whatever order these steps are taken in, they stop only when every byte has been given to the reader and
    the receiving side has closed its end. *)
Theorem pipe_closes s r x : iN 32 rid -> pipe2 = Ok (r, x) -> net_reach s -> closing s ->
  Acc (fun b a => progress a b) s /\
  forall s', rtc progress s s' -> finished s' \/ exists s'', progress s' s''.
Proof.
  intros Hr Hp2 Hs Hc. apply (net_reach_inv _ Hr) in Hs. split.
  - remember (Z.to_nat (weight s)) as n eqn:En. revert s Hs Hc En. induction n as [n IH] using lt_wf_ind. intros s Hs Hc En.
    constructor. intros s' Hp. pose proof (progress_weight _ _ Hr Hs Hc Hp). pose proof (weight_pos s').
    apply (IH (Z.to_nat (weight s'))); [lia|by eapply net_inv_step, progress_step|by eapply progress_closing|done].
  - intros s' Hrt. assert (Hinv : net_inv s' /\ closing s').
    { induction Hrt as [s|s s1 s2 Hp1 _ IH]; [done|]. apply IH; [by eapply net_inv_step, progress_step|by eapply progress_closing]. }
    destruct Hinv. by eapply not_stuck.
Qed.
End Net.

(** ** A run *)
Definition demo_pipes : SfdSys := {| pipe2 := Ok (8, 9) |}.
Definition demo_devices : SfdGpu :=
  {| vulkan_create_dmabuf _ _ _ _ _ := Ok [MkPlane 20 0 0 0 0]; gbm_create_dmabuf _ _ _ _ := Err "gbm";
     setup_video_decode _ := Ok tt; vulkan_create_timeline _ := Ok (30, 31); get_bpp _ := 4;
     copy_from_dmabuf _ _ := Ok []; supports_binary_semaphore_import := false; export_sync_file _ := Ok None;
     export_binary_semaphore _ := Ok 0; get_current_pt _ := Ok 0; get_current_timeline_pt := Ok 0 |}.
(** Another pipe is open where a program asks for data; the other program writes two bytes and closes. *)
Definition demo_before : Globals :=
  set_pipes (demo_glob true Unknown setup_object_map
    {[ 4 := PipeFd (MkPipe 4 false (ReadFromWayland []) false false 5 None) ]}) [4].
Definition demo_asked : Globals := match translate_pipe_fd demo_before 7 true with Ok x => x.2 | _ => demo_before end.
Definition demo_sink : Globals := put_sfd demo_asked (-1) (PipeFd (MkPipe (-1) false (ReadFromChannel []) false false 7 None)).
Definition demo_receive (m : bytes) (g : Globals) : Globals :=
  match @receive_msg demo_sys demo_gpu all_held demo_pipes demo_devices CompNone m g no_work with Ok (g, _) => g | _ => g end.
Definition demo_other : Globals := demo_glob false Unknown setup_object_map ∅.
Definition demo_new : ShadowFdPipe := MkPipe (-1) false (ReadFromWayland []) false false 8 (Some 9).
Definition demo_hi : PipeEvent :=
  MkEvent (MkFlags true false true false) (fun t => Read (take (Z.to_nat t) [Byte.x68; Byte.x69])) (fun _ => WEAGAIN).
Definition demo_eof : PipeEvent := MkEvent (MkFlags true false true false) (fun t => Read []) (fun _ => WEAGAIN).
Definition demo_read : ShadowFdPipe := set_pipe_buf demo_new (ReadFromWayland [Byte.x68; Byte.x69]).
Definition demo_closed : ShadowFdPipe := set_program_closed demo_read.
Definition demo_wire : list bytes :=
  [simple_msg PipeTransfer (-1) [Byte.x68; Byte.x69] (zeros 2); simple_msg PipeShutdownW (-1) [] []].
Definition demo_snk : Globals := demo_receive (simple_msg PipeTransfer (-1) [Byte.x68; Byte.x69] (zeros 2)) demo_sink.
Definition demo_poll : Globals * list (Z * bytes) :=
  match poll_pipes demo_snk [quiet; accept] with Ok x => x | _ => (demo_sink, []) end.
Abbreviation demo_reach := (@net_reach demo_sys demo_gpu demo_pipes demo_devices CompNone (-1)).
Abbreviation demo_step := (@net_step demo_sys demo_gpu demo_pipes demo_devices CompNone (-1)).

Lemma demo_started : demo_reach (MkNet demo_new true [] demo_sink [] []).
Proof.
  apply reach_start. apply (net_asked CompNone (-1) all_held 7 demo_before demo_asked
    (MkPipe (-1) true (ReadFromChannel []) false false 7 None) (MkPipe (-1) false (ReadFromChannel []) false false 7 None)
    [simple_msg OpenIRPipe (-1) [] []] (simple_msg OpenIRPipe (-1) [] []) demo_sink demo_other no_work
    (demo_receive (simple_msg OpenIRPipe (-1) [] []) demo_other) no_work).
  - vm_compute; reflexivity.
  - vm_compute. set_solver.
  - vm_compute. set_solver.
  - apply Forall_singleton. eexists. split; [vm_compute; reflexivity|done].
  - vm_compute; reflexivity.
  - vm_compute; reflexivity.
  - apply framed_msgs. constructor; [|constructor]. vm_compute; reflexivity.
  - by unfold unrelated.
  - vm_compute; reflexivity.
  - vm_compute; reflexivity.
  - constructor.
Qed.
Lemma demo_written : demo_reach (MkNet demo_closed true [] demo_sink [Byte.x68; Byte.x69] []).
Proof.
  assert (H : demo_reach (MkNet demo_read true [] demo_sink [Byte.x68; Byte.x69] [])).
  { eapply reach_step; [exact demo_started|].
    apply (n_read _ (-1) demo_new true [] demo_sink [] [] demo_hi demo_read); [done| |done|done].
    intros t d Ht [= <-]. unfold zlen. rewrite length_take. cbn. lia. }
  eapply reach_step; [exact H|].
  apply (n_read _ (-1) demo_read true [] demo_sink [Byte.x68; Byte.x69] [] demo_eof demo_closed); [done| |done|done].
  intros t d Ht [= <-]. zlia.
Qed.
Lemma demo_sent : demo_reach (MkNet (sent_pipe demo_closed) false demo_wire demo_sink [Byte.x68; Byte.x69] []).
Proof.
  eapply reach_step; [exact demo_written|]. apply (n_update _ (-1) demo_closed [] _ _ _ false _
    [to_le 4 (10 * 32 + wmsg_code PipeTransfer) ++ to_le 4 (-1); [Byte.x68; Byte.x69]; zeros 2;
     simple_msg PipeShutdownW (-1) [] []] demo_wire); [vm_compute; reflexivity|].
  replace (concat _) with (concat demo_wire) by (vm_compute; reflexivity). apply framed_msgs.
  unfold demo_wire. constructor; [|constructor; [|constructor]]; vm_compute; reflexivity.
Qed.
Lemma pipe_is_fifo_witness : exists s, demo_reach s /\ given s = [Byte.x68; Byte.x69] /\ given s = got s /\ src_live s = false.
Proof.
  pose proof demo_sent as H0. unfold demo_wire in H0.
  eapply reach_step in H0; [|eapply (n_receive CompNone (-1) _ _ _ _ _ _ _ demo_snk no_work no_work all_held); [vm_compute; reflexivity|done|vm_compute; reflexivity]].
  eapply reach_step in H0; [|eapply (n_poll CompNone (-1) _ _ _ _ _ _ [quiet; accept] demo_poll.1 demo_poll.2); [|vm_compute; reflexivity]].
  2:{ constructor; [done|]. constructor; [|constructor]. intros t k; cbn; case_match; intros [= <-]; lia. }
  eapply reach_step in H0; [|eapply (n_receive CompNone (-1) _ _ _ _ _ _ _ (demo_receive (simple_msg PipeShutdownW (-1) [] []) demo_poll.1) no_work no_work all_held); [vm_compute; reflexivity|done|vm_compute; reflexivity]].
  eexists. split; [exact H0|]. split; [vm_compute; reflexivity|].
  destruct (@pipe_is_fifo demo_sys demo_gpu demo_pipes demo_devices CompNone (-1) _ ltac:(unfold iN; lia) H0) as (_ & _ & H).
  destruct H as [H1 H2]; [eexists; vm_compute; reflexivity| | |done].
  { cbn [snk]. replace (pipes _) with [4] by (vm_compute; reflexivity). apply not_elem_of_cons. split; [done|apply not_elem_of_nil]. }
  intros (q & Hq & Hc). vm_compute in Hq. injection Hq as <-. done.
Defined.
Lemma pipe_closes_witness :
  let s := MkNet demo_closed true [] demo_sink [Byte.x68; Byte.x69] [] in
  Acc (fun b a => @progress demo_sys demo_gpu demo_pipes demo_devices CompNone (-1) a b) s /\ ~ finished (-1) s.
Proof.
  cbv zeta. split; [|by intros (? & _)].
  apply (@pipe_closes demo_sys demo_gpu demo_pipes demo_devices CompNone (-1) _ 8 9); [unfold iN; lia|done|exact demo_written|].
  split; [done|]. intros (q & Hq & Hc). vm_compute in Hq. injection Hq as <-. done.
Defined.
