(* ===== verification/Loop.v ===== *)
(** * [src/mainloop.rs]: the main loop

    [FromChannel] and [FromWayland] hold the buffers of the two directions. [process_channel]
    consumes the messages of the other instance, [process_wayland_1] those of the program and the
    updates of all files; [loop_inner] polls, moves data, and processes what is complete, until
    both directions are off; then queued output and a last message are written.

    A round of [loop_inner] is [loop_round], a function of what the system calls answer and of
    what the worker threads sent ([Round]). Of the threads, the events of the Vulkan timeline are
    an answer too. *)
From Stdlib Require Import ZArith Lia.
From stdpp Require Import gmap sorting.
From S2P Require Import Prelude Util Damage Wire Protocol Mirror Kernel Compress ReadBuffer Formats Geometry Time Tasks TrackState.
From S2P Require Import Arms GpuArms Tracking Channel Sockets Sfds.
Local Open Scope Z_scope.
Import Util.Arith Util.Wmsg Util.Options.

(** ** State *)
Inductive DirectionState := On | Drain | Off.
#[export] Instance DirectionState_eq_dec : EqDecision DirectionState.
Proof. solve_decision. Defined.

Record FromChan := MkFC {
  fc_state : DirectionState; fc_input : ReadBuffer; next_msg : option bytes; rid_queue : list Z;
  fc_output : TransferWayland; waiting_for : option Z; message_counter : Z }.
Record FromWay := MkFW { fw_state : DirectionState; fw_input : WaylandInputRing; fw_output : TransferQueue }.

Definition set_fc_state (c : FromChan) (s : DirectionState) : FromChan :=
  MkFC s (fc_input c) (next_msg c) (rid_queue c) (fc_output c) (waiting_for c) (message_counter c).
Definition set_next (c : FromChan) (i : ReadBuffer) (m : option bytes) : FromChan :=
  MkFC (fc_state c) i m (rid_queue c) (fc_output c) (waiting_for c) (message_counter c).
Definition set_rids (c : FromChan) (l : list Z) : FromChan :=
  MkFC (fc_state c) (fc_input c) (next_msg c) l (fc_output c) (waiting_for c) (message_counter c).
Definition set_fc_output (c : FromChan) (o : TransferWayland) : FromChan :=
  MkFC (fc_state c) (fc_input c) (next_msg c) (rid_queue c) o (waiting_for c) (message_counter c).
Definition set_waiting_for (c : FromChan) (w : option Z) : FromChan :=
  MkFC (fc_state c) (fc_input c) (next_msg c) (rid_queue c) (fc_output c) w (message_counter c).
Definition set_counter (c : FromChan) (n : Z) : FromChan :=
  MkFC (fc_state c) (fc_input c) (next_msg c) (rid_queue c) (fc_output c) (waiting_for c) n.

(** ** [process_channel] *)
Section Channel.
Context `{Sys, Gpu, SortUnstable, Refs, SfdSys, SfdGpu}.
Context (compression : Compression).

(** How the loop over the Wayland messages of a [Protocol] message ended. *)
Inductive Stop := AllDone | Waits (rid : Z) | Full.
Definition buffer_st (g : Globals) (t : TranslationInfo) (data : bytes) (len : Z) : res St :=
  d ← get_from data len; Ok (MkSt g t [] d).

(** Each round takes a message of at least eight bytes; [region] is what is left. *)
Fixpoint protocol_loop (fuel : nat) (region : bytes) (g : Globals) (c : FromChan) :
  res (Stop * bytes * Globals * FromChan) :=
  match fuel with
  | O => Panic
  | S fuel =>
      if zlen region =? 0 then Ok (AllDone, region, g, c) else
      if zlen region <? 8 then Err "Truncated Wayland message inside Protocol message" else
      hb ← get_range region 4 8;
      let length := Z.shiftr (from_le hb) 16 in
      if (length <? 8) || negb (length mod 4 =? 0) || (zlen region <? length)
      then Err "invalid Wayland message: bad length field" else
      waymsg ← get_range region 0 length;
      tail ← get_from region length;
      let o := fc_output c in
      st ← buffer_st g (FromChannel (rid_queue c) (tw_fds o)) (tw_data o) (tw_len o);
      r ← process_way_msg waymsg st;
      let '(ret, st') := r in
      let data := take (Z.to_nat (tw_len o)) (tw_data o) ++ out st' ++ dst st' in
      let '(rids, fds) := match transl st' with FromChannel x y | FromWayland x y => (x, y) end in
      match ret with
      | Done =>
          n ← usize (zlen (dst st) - zlen (dst st'));
          len ← usize (tw_len o + n);
          protocol_loop fuel tail (glob st') (set_fc_output (set_rids c rids) (MkTW data (tw_start o) len fds))
      | WaitFor rid =>
          Ok (Waits rid, region, glob st', set_fc_output (set_rids c rids) (MkTW data (tw_start o) (tw_len o) fds))
      | NeedsSpace (nbytes, nfds) =>
          if (zlen data <? nbytes) || (MAX_OUTGOING_FDS <? nfds)
          then Err "Failed to send message(s): not enough space" else
          Ok (Full, region, glob st', set_fc_output (set_rids c rids) (MkTW data (tw_start o) (tw_len o) fds))
      end
  end.

(** A [Protocol] message: [None] if it was consumed, else what is left of it, a message again. *)
Definition process_protocol (view msg : bytes) (g : Globals) (c : FromChan) :
  res (option bytes * Globals * FromChan) :=
  assert_ (tw_start (fc_output c) =? 0);;
  region ← get_from msg 4;
  r ← protocol_loop (S (length region)) region g c;
  let '(stop, rest, g, c) := r in
  let c := match stop with Waits rid => set_waiting_for c (Some rid) | _ => c end in
  let unproc := zlen rest in
  if 0 <? unproc then
    let trail_length := unproc + 4 in
    skip ← usize (zlen msg - trail_length);
    h ← build_wmsg_header Protocol trail_length;
    view ← set_range view skip (skip + 4) (to_le 4 h);
    n ← usize (message_counter c - 1);
    view ← advance view skip;
    Ok (Some view, g, set_counter c n)
  else Ok (None, g, c).

Definition check_version (data : bytes) (is_first : bool) (g : Globals) : res Globals :=
  b ← get_range data 4 8;
  let version := from_le b in
  if WAYPIPE_PROTOCOL_VERSION <? version then Err "waypipe client replied with larger protocol version" else
  if version <? MIN_PROTOCOL_VERSION then Err "waypipe client requested too small of a version" else
  if negb is_first then Err "Version message must be the first sent by waypipe-client" else
  if on_display_side g then Err "waypipe-server should not send Version message" else
  Ok (set_version g version (has_first_message g)).

Fixpoint inject_rids (fuel : nat) (msg : bytes) (i : Z) (g : Globals) (c : FromChan) : res (Globals * FromChan) :=
  match fuel with
  | O => Ok (g, c)
  | S fuel =>
      b ← get_range msg (4 + 4 * i) (8 + 4 * i);
      let rid := from_le_i32 b in
      if decide (rid ∈ fresh_rids g)
      then inject_rids fuel msg (i + 1) (set_fresh g (fresh_rids g ∖ {[ rid ]})) (set_rids c (rid_queue c ++ [rid]))
      else Err "Injecting RID which has no matching created ShadowFd"
  end.

(** One message; [true] if the next one is to be taken. *)
Definition process_one (view : bytes) (g : Globals) (c : FromChan) (w : Work) :
  res (bool * Globals * FromChan * Work) :=
  hb ← get_range view 0 4;
  lt ← ok_or "Failed to parse wmsg header" (parse_wmsg_header (from_le hb));
  let '(length, typ) := lt in
  c ← match typ with
      | Close | AckNblocks | Restart => Ok c
      | _ => n ← usize (message_counter c + 1); Ok (set_counter c n)
      end;
  msg ← get_range view 0 length;
  let is_first := negb (has_first_message g) in
  let g := set_version g (wire_version g) true in
  match typ with
  | Version => g ← check_version view is_first g; Ok (true, g, c, w)
  | InjectRIDs =>
      if negb (length mod 4 =? 0) then Err "InjectRIDs length not divisible by four" else
      nnew ← usize (length - 4);
      r ← inject_rids (Z.to_nat (nnew / 4)) msg 0 g c;
      Ok (true, r.1, r.2, w)
  | Protocol =>
      r ← process_protocol view msg g c;
      let '(rest, g, c) := r in
      match rest with
      | Some v => Ok (false, g, set_next c (fc_input c) (Some v), w)
      | None => Ok (true, g, c, w)
      end
  | AckNblocks => if 16 <? wire_version g then Err "Received AckNBlocks message" else Ok (true, g, c, w)
  | Restart => Err "Unsupported Restart message"
  | Close => Ok (true, set_received_close g, c, w)
  | _ =>
      r ← process_sfd_msg compression typ length view g w;
      Ok (true, r.1, set_next c (fc_input c) None, r.2)
  end.

(** Each round takes a message from the queue. *)
Fixpoint channel_loop (fuel : nat) (g : Globals) (c : FromChan) (w : Work) : res (Globals * FromChan * Work) :=
  match fuel with
  | O => Panic
  | S fuel =>
      match next_msg c with
      | None => Ok (g, c, w)
      | Some view =>
          r ← process_one view g c w;
          let '(more, g, c, w) := r in
          if (more : bool) then
            let '(m, i) := pop_next_msg (fc_input c) in
            channel_loop fuel g (set_next c i m) w
          else Ok (g, c, w)
      end
  end.
Definition process_channel (g : Globals) (c : FromChan) (w : Work) : res (Globals * FromChan * Work) :=
  channel_loop (S (S (length (msg_queue (fc_input c))))) g c w.
End Channel.

(** [read_from_channel]: whether the channel closed. *)
Definition read_from_channel (c : FromChan) (readv : Z -> readv_ret) : res (bool * FromChan) :=
  r ← read_more (fc_input c) readv;
  let '(eof, _, i) := r in
  match next_msg c with
  | Some m => Ok (eof, set_next c i (Some m))
  | None => let '(m, i) := pop_next_msg i in Ok (eof, set_next c i m)
  end.

(** ** [process_wayland_1] *)
Section Wayland.
Context `{L : CompLib} `{Sys, Gpu, SortUnstable, Refs, SfdSys, SfdGpu}.
Context (compression : Compression).

(** Each round takes a complete message; returns how much was read. *)
Fixpoint wayland_loop (fuel : nat) (max_len : Z) (region : bytes) (nread : Z) (g : Globals) (fds : list Z)
    (q : TransferQueue) : res (Z * Globals * list Z * TransferQueue) :=
  match fuel with
  | O => Panic
  | S fuel =>
      if zlen region <? 8 then Ok (nread, g, fds, q) else
      hb ← get_range region 4 8;
      let length := Z.shiftr (from_le hb) 16 in
      if (length <? 8) || negb (length mod 4 =? 0) then Err "invalid Wayland message: bad length field" else
      if max_len <=? length then Err "Message is longer than receive buffer" else
      if zlen region <? length then Ok (nread, g, fds, q) else
      msg ← get_range region 0 length;
      tail ← get_from region length;
      st ← buffer_st g (FromWayland fds (protocol_rids q)) (protocol_data q) (protocol_len q);
      r ← process_way_msg msg st;
      let '(ret, st') := r in
      let data := take (Z.to_nat (protocol_len q)) (protocol_data q) ++ out st' ++ dst st' in
      let '(fds, rids) := match transl st' with FromChannel x y | FromWayland x y => (x, y) end in
      match ret with
      | Done =>
          n ← usize (zlen (dst st) - zlen (dst st'));
          len ← usize (protocol_len q + n);
          wayland_loop fuel max_len tail (nread + length) (glob st') fds (set_protocol q data len rids)
      | WaitFor _ => Panic
      | NeedsSpace (nbytes, nfds) =>
          if (zlen data <? nbytes) || (MAX_OUTGOING_FDS <? nfds)
          then Err "Failed to send message(s): not enough space" else
          Ok (nread, glob st', fds, set_protocol q data (protocol_len q) rids)
      end
  end.

(** The updates of every file that is still referenced; collects the [Rid]s to drop. *)
Definition collect_at (x : Globals * TransferQueue * Work * list Z) (rid : Z) :
  res (Globals * TransferQueue * Work * list Z) :=
  let '(g, q, w, drop_list) := x in
  match lookup_sfd g rid with
  | None => Ok x
  | Some s =>
      r ← collect_updates compression (map g) s q w;
      let '(keep, s, q, w) := r in
      Ok (put_sfd g rid s, q, w, if (keep : bool) then drop_list else drop_list ++ [rid])
  end.
Definition sfd_rid (s : ShadowFd) : Z :=
  match s with
  | FileFd _ f _ => Tasks.remote_id f | PipeFd p => pipe_rid p
  | DmabufFd d => dmabuf_rid d | TimelineFd t => timeline_rid t
  end.
Definition drop_pipes (g : Globals) (drop_list : list Z) : res Globals :=
  keep ← foldM (fun l r => s ← get_sfd g r; Ok (if existsb (Z.eqb (sfd_rid s)) drop_list then l else l ++ [r]))
           [] (pipes g);
  Ok (foldl unmap (set_pipes g keep) drop_list).

Definition process_wayland_1 (g : Globals) (fw : FromWay) (w : Work) : res (Globals * FromWay * Work) :=
  let i := fw_input fw in
  region ← get_range (in_data i) 0 (in_len i);
  r ← wayland_loop (S (length region)) (zlen (in_data i)) region 0 g (in_fds i) (fw_output fw);
  let '(nread, g, fds, q) := r in
  len ← usize (in_len i - nread);
  rest ← get_range (in_data i) nread (nread + len);
  data ← set_range (in_data i) 0 len rest;
  x ← foldM collect_at (g, q, w, []) (live_rids g);
  let '(g, q, w, drop_list) := x in
  g ← drop_pipes g drop_list;
  Ok (g, MkFW (fw_state fw) (MkInput data len fds) q, w).

(** ** [process_vulkan_updates] *)
Definition pending_tasks (s : ShadowFd) : option Z :=
  match s with FileFd _ _ p => Some p | DmabufFd d => Some (dmabuf_pending d) | _ => None end.
Definition apply_completed (current : Z) (g : Globals) (x : Z * Z) : res (bool * Globals) :=
  if current <? x.1 then Ok (true, g) else
  s ← ok_or "ShadowFd no longer in map" (lookup_sfd g x.2);
  match s with
  | DmabufFd d =>
      n ← ok_or "Task miscount" (checked 64 (dmabuf_pending d - 1));
      let d := set_dmabuf_pending d n in
      if (n =? 0) && negb (zlen (acquires d) =? 0) then
        assert_ (on_display_side g);;
        signal_timeline_acquires g (acquires d);;
        Ok (false, put_sfd g x.2 (DmabufFd (set_acquires d [])))
      else Ok (false, put_sfd g x.2 (DmabufFd d))
  | _ => Panic
  end.
(** The tasks whose point was reached, from the last to the first, and the others. *)
Definition ready_tasks (current : Z) (l : list (Z * ConstructTask)) : list ConstructTask * list (Z * ConstructTask) :=
  (List.map snd (rev (List.filter (fun x => x.1 <=? current) l)), List.filter (fun x => negb (x.1 <=? current)) l).
Definition process_vulkan_updates (g : Globals) (c : FromChan) (w : Work) : res (Globals * FromChan * Work) :=
  match dmabuf_device g with
  | Vulkan =>
      current ← get_current_timeline_pt;
      r ← retain_err (apply_completed current) (w_apply w) g;
      let g := r.2 in
      c ← match waiting_for c with
          | Some rid =>
              s ← unwrap (lookup_sfd g rid);
              Ok match s with
                 | DmabufFd d => if dmabuf_pending d =? 0 then set_waiting_for c None else c
                 | _ => c
                 end
          | None => Ok c
          end;
      let f := ready_tasks current (w_fill w) in
      let d := ready_tasks current (w_diff w) in
      Ok (g, c, MkWork (w_construct w ++ f.1 ++ d.1) (w_waiting w) (w_decompress w) r.1 f.2 d.2)
  | _ => Panic
  end.
End Wayland.

(** ** What can be processed *)
Definition pipe_has_news (s : ShadowFd) : bool :=
  match s with
  | PipeFd p => program_closed p || match pipe_buf p with ReadFromWayland d => 0 <? zlen d | ReadFromChannel _ => false end
  | _ => false
  end.
Definition is_from_way_processable (i : WaylandInputRing) (g : Globals) : res bool :=
  news ← foldM (fun b r => if (b : bool) then Ok true else s ← get_sfd g r; Ok (pipe_has_news s)) false (pipes g);
  if (news : bool) then Ok true else
  if in_len i <? 8 then Ok false else
  hb ← get_range (in_data i) 4 8;
  let length := Z.shiftr (from_le hb) 16 in
  Ok ((wrap 32 (zlen (in_data i)) <=? length) || (length <=? in_len i)).
Definition is_from_chan_processable (c : FromChan) : bool :=
  match next_msg c with Some _ => true | None => false end.

(** ** Results of the worker threads *)
Definition TaskResult : Type := res TaskOutput.

Definition dec_pending (s : ShadowFd) : res ShadowFd :=
  match s with
  | FileFd fd f p => n ← unwrap (checked 64 (p - 1)); Ok (FileFd fd f n)
  | DmabufFd d => n ← unwrap (checked 64 (dmabuf_pending d - 1)); Ok (DmabufFd (set_dmabuf_pending d n))
  | _ => Panic
  end.
Definition is_active (s : DirectionState) : bool := match s with Off => false | _ => true end.

Section Results.
Context `{Refs}.
Definition take_result (x : Globals * FromChan * FromWay) (msg : TaskResult) : res (Globals * FromChan * FromWay) :=
  let '(g, c, fw) := x in
  r ← match msg with
      | Ok (OutMsg vec) =>
          n ← unwrap (checked 64 (expected_recvd_msgs (fw_output fw) - 1));
          let q := set_expected (fw_output fw) n in
          Ok (g, MkFW (fw_state fw) (fw_input fw)
                   (if is_active (fw_state fw) && negb (zlen vec =? 0) then push_message q vec else q))
      | Ok (ApplyDone rid) =>
          if decide (rid ∈ unmapped g) then Err "Completed apply for RID that no longer exists" else
          match map g !! rid with
          | None => Err "Completed apply for RID that no longer exists"
          | Some s => assert_ (upgrade rid);; s ← dec_pending s; Ok (put_sfd g rid s, fw)
          end
      | Ok MirrorApply | Ok (DmabufApplyOp _ _) => Panic
      | Err e => Err e
      | Panic => Panic
      end;
  let '(g, fw) := r in
  match waiting_for c with
  | None => Ok (g, c, fw)
  | Some rid =>
      s ← unwrap (lookup_sfd g rid);
      n ← unwrap (pending_tasks s);
      Ok (g, if n =? 0 then set_waiting_for c None else c, fw)
  end.
Definition take_results (x : Globals * FromChan * FromWay) (msgs : list TaskResult) : res (Globals * FromChan * FromWay) :=
  foldM take_result x msgs.
End Results.

(** ** A round of [loop_inner] *)
Record Loop := MkLoop { l_glob : Globals; l_chan : FromChan; l_way : FromWay; l_work : Work }.

(** Reading the self-pipe or an [eventfd]; nothing happened, or the read was interrupted: [WNothing]. *)
Inductive wake_ret := WNothing | WReady | WFailed.
(** The answers of a round. *)
Record Round := MkRound {
  r_sigint : bool; r_wake : wake_ret;
  r_prog : PollFlags; r_recvmsg : Z -> recvmsg_ret; r_sendmsg : bytes -> list Z -> sendmsg_ret;
  r_chan : PollFlags; r_readv : Z -> readv_ret; r_writev : Z -> writev_ret;
  r_vulkan : wake_ret; r_pipes : list PipeEvent; r_timelines : list (bool * eventfd_ret);
  r_dmabufs : list bool; r_results : list TaskResult }.

(** What is asked of [poll] for the two sockets. *)
Record Wanted := MkWanted { read_chan : bool; write_chan : bool; read_way : bool; write_way : bool }.
Definition wanted (s : Loop) : res Wanted :=
  let c := l_chan s in
  let fw := l_way s in
  proc_way ← is_from_way_processable (fw_input fw) (l_glob s);
  Ok (MkWanted
    (negb (is_from_chan_processable c) && bool_decide (fc_state c = On) && negb (has_from_chan_output (fc_output c)))
    (has_from_way_output (fw_output fw) && is_active (fw_state fw))
    (negb proc_way && bool_decide (fw_state fw = On) && negb (has_from_way_output (fw_output fw))
       && negb (has_pending_compute_tasks (fw_output fw)))
    (has_from_chan_output (fc_output c) && is_active (fc_state c))).
(** Whether the round must not wait for an event. *)
Definition work_to_do_now (s : Loop) : res bool :=
  let c := l_chan s in
  let fw := l_way s in
  proc_way ← is_from_way_processable (fw_input fw) (l_glob s);
  w ← wanted s;
  let work_way := proc_way && negb (has_pending_compute_tasks (fw_output fw)) && is_active (fw_state fw) in
  let work_chan := is_from_chan_processable c && match waiting_for c with None => true | Some _ => false end
                   && is_active (fc_state c) in
  Ok ((work_way && negb (write_chan w)) || (work_chan && negb (write_way w))).

(** Reading from and writing to the program, and whether either end is closed. *)
Definition io_prog (s : Loop) (w : Wanted) (r : Round) : res (bool * bool * Loop) :=
  if negb (read_way w || write_way w) then Ok (false, false, s) else
  let fw := l_way s in
  x ← (if read_way w && POLLIN (r_prog r) then read_from_socket (fw_input fw) (r_recvmsg r)
       else Ok (false, fw_input fw));
  let '(read_eof, i) := x in
  y ← (if write_way w && POLLOUT (r_prog r) then
         y ← write_to_socket (map (l_glob s)) (fc_output (l_chan s)) (r_sendmsg r);
         let '(now, m, o) := y in
         Ok (sent_closed now, set_map (l_glob s) m, set_fc_output (l_chan s) o)
       else Ok (false, l_glob s, l_chan s));
  let '(write_eof, g, c) := y in
  Ok (read_eof, write_eof || POLLHUP (r_prog r),
      MkLoop g c (MkFW (fw_state fw) i (fw_output fw)) (l_work s)).
Definition io_chan (s : Loop) (w : Wanted) (r : Round) : res (bool * bool * Loop) :=
  if negb (read_chan w || write_chan w) then Ok (false, false, s) else
  let fw := l_way s in
  x ← (if read_chan w && POLLIN (r_chan r) then read_from_channel (l_chan s) (r_readv r)
       else Ok (false, l_chan s));
  let '(read_eof, c) := x in
  y ← (if write_chan w && POLLOUT (r_chan r) then
         y ← write_to_channel (fw_output fw) (r_writev r);
         let '(closed, _, q) := y in Ok (closed, q)
       else Ok (false, fw_output fw));
  let '(write_eof, q) := y in
  Ok (read_eof, write_eof || POLLHUP (r_chan r),
      MkLoop (l_glob s) c (MkFW (fw_state fw) (fw_input fw) q) (l_work s)).

Definition to_drain (s : DirectionState) : DirectionState := match s with Off => Off | _ => Drain end.
(** No more data reaches a program or channel that is closed; what was read from it is still sent. *)
Definition process_eofs (s : Loop) (prog_read prog_write chan_read chan_write : bool) : Loop :=
  let fc := if prog_read || prog_write then Off else fc_state (l_chan s) in
  let fw := if chan_read || chan_write then Off else fw_state (l_way s) in
  let fw := if prog_read then to_drain fw else fw in
  let fc := if chan_read then to_drain fc else fc in
  MkLoop (l_glob s) (set_fc_state (l_chan s) fc) (MkFW fw (fw_input (l_way s)) (fw_output (l_way s))) (l_work s).

Section Round.
Context `{L : CompLib} `{Sys, Gpu, SortUnstable, Refs, SfdSys, SfdGpu}.
Context (compression : Compression).

(** The DMABUFs that tasks wait for, in order; only those handled by Vulkan can be. *)
Definition polled_dmabufs (s : Loop) : res (list Z) :=
  foldM (fun l r =>
    match lookup_sfd (l_glob s) r with
    | None => Ok l
    | Some (DmabufFd d) => match buf d with VulkanBuf _ _ => Ok (l ++ [r]) | GbmBuf _ _ => Panic end
    | Some _ => Panic
    end) [] (merge_sort Z.le (elements (dom (w_waiting (l_work s))))).
Fixpoint poll_dmabufs (w : Work) (l : list Z) (ready : list bool) : res Work :=
  match l, ready with
  | [], _ => Ok w
  | r :: l, b :: ready => poll_dmabufs (if (b : bool) then release_waiting w r else w) l ready
  | _ :: _, [] => Panic
  end.

(** The first point of the device's timeline that something depends on, and whether there is one. *)
Definition first_pt (w : Work) : Z :=
  let lowest (l : list Z) := foldr Z.min (2 ^ 64 - 1) l in
  Z.min (Z.min (Z.min (2 ^ 64 - 1) (lowest (w_apply w).*1)) (lowest (w_fill w).*1)) (lowest (w_diff w).*1).
Definition has_timeline_waits (s : Loop) : bool :=
  match dmabuf_device (l_glob s) with
  | Vulkan => first_pt (l_work s) <? 2 ^ 64 - 1
  | _ => false
  end.

(** Pipes, timelines and DMABUFs, and the events of the devices and of the worker threads. *)
Definition process_events (s : Loop) (vulkan_polled : bool) (timelines : list (Z * Z)) (dmabufs : list Z) (r : Round) :
  res Loop :=
  timeline_update ← match r_vulkan r with
                    | WNothing => Ok false
                    | WReady => Ok vulkan_polled
                    | WFailed => if vulkan_polled then Err "Failed to read from eventfd" else Ok false
                    end;
  p ← poll_pipes (l_glob s) (r_pipes r);
  t ← poll_timelines p.1 (fw_output (l_way s)) timelines (r_timelines r);
  let fw := MkFW (fw_state (l_way s)) (fw_input (l_way s)) t.2 in
  w ← poll_dmabufs (l_work s) dmabufs (r_dmabufs r);
  v ← (if (timeline_update : bool) then process_vulkan_updates t.1 (l_chan s) w else Ok (t.1, l_chan s, w));
  let '(g, c, w) := v in
  x ← match r_wake r with
      | WReady => take_results (g, c, fw) (r_results r)
      | _ => Ok (g, c, fw)
      end;
  let '(g, c, fw) := x in
  Ok (MkLoop g c fw w).

(** Process what is complete, if there is room for the result. *)
Definition process_way_input (s : Loop) : res Loop :=
  if negb (is_active (fw_state (l_way s))) then Ok s else
  proc ← is_from_way_processable (fw_input (l_way s)) (l_glob s);
  let q := fw_output (l_way s) in
  x ← (if (proc : bool) && negb (has_from_way_output q) && negb (has_pending_compute_tasks q)
       then process_wayland_1 compression (l_glob s) (l_way s) (l_work s)
       else Ok (l_glob s, l_way s, l_work s));
  let '(g, fw, w) := x in
  q ← (if negb (has_pending_compute_tasks (fw_output fw)) then process_wayland_2 (fw_output fw) else Ok (fw_output fw));
  Ok (MkLoop g (l_chan s) (MkFW (fw_state fw) (fw_input fw) q) w).
Definition process_chan_input (s : Loop) : res Loop :=
  let c := l_chan s in
  if is_from_chan_processable c && is_active (fc_state c)
     && match waiting_for c with None => true | Some _ => false end && negb (has_from_chan_output (fc_output c)) then
    x ← process_channel compression (l_glob s) c (l_work s);
    let '(g, c, w) := x in Ok (MkLoop g c (l_way s) w)
  else Ok s.
Definition inject_ack (s : Loop) : res Loop :=
  if bool_decide (fw_state (l_way s) = On) && bool_decide (fc_state (l_chan s) = On) && (wire_version (l_glob s) <=? 16) then
    q ← queue_ack (fw_output (l_way s)) (wrap 32 (message_counter (l_chan s)));
    Ok (MkLoop (l_glob s) (l_chan s) (MkFW (fw_state (l_way s)) (fw_input (l_way s)) q) (l_work s))
  else Ok s.
(** [glob.map.retain(..)] *)
Definition cleanup (g : Globals) : Globals :=
  set_unmapped g (unmapped g ∪ list_to_set (List.filter (fun r => negb (upgrade r)) (elements (dom (map g))))).
Definition finish_drain (s : Loop) : res Loop :=
  let c := l_chan s in
  let fw := l_way s in
  proc ← is_from_way_processable (fw_input fw) (l_glob s);
  let c := if bool_decide (fc_state c = Drain) && negb (is_from_chan_processable c)
              && negb (has_from_chan_output (fc_output c)) then set_fc_state c Off else c in
  let fw := if bool_decide (fw_state fw = Drain) && negb proc && negb (has_from_way_output (fw_output fw))
            then MkFW Off (fw_input fw) (fw_output fw) else fw in
  Ok (MkLoop (l_glob s) c fw (l_work s)).

(** [None] when the process was interrupted. *)
Definition loop_round (s : Loop) (r : Round) : res (option Loop) :=
  w ← wanted s;
  let vulkan_polled := has_timeline_waits s in
  let timelines := polled_timelines (l_glob s) in
  dmabufs ← polled_dmabufs s;
  if r_sigint r then Ok None else
  (match r_wake r with WFailed => Err "Failed to read from self-pipe" | _ => Ok tt end);;
  p ← io_prog s w r;
  let '(prog_read, prog_write, s) := p in
  c ← io_chan s w r;
  let '(chan_read, chan_write, s) := c in
  let s := process_eofs s prog_read prog_write chan_read chan_write in
  s ← process_events s vulkan_polled timelines dmabufs r;
  s ← process_way_input s;
  s ← process_chan_input s;
  s ← inject_ack s;
  s ← finish_drain (MkLoop (cleanup (l_glob s)) (l_chan s) (l_way s) (l_work s));
  Ok (Some s).
Definition running (s : Loop) : bool := is_active (fc_state (l_chan s)) || is_active (fw_state (l_way s)).

(** [loop_inner], as long as there are answers. *)
Fixpoint loop_inner (s : Loop) (rounds : list Round) : res Loop :=
  match rounds with
  | [] => Ok s
  | r :: rounds =>
      if negb (running s) then Ok s else
      x ← loop_round s r;
      match x with None => Ok s | Some s => loop_inner s rounds end
  end.
End Round.

(** ** The end: remaining output, and a last message *)
Definition str_bytes (s : string) : bytes := String.list_byte_of_string s.
Definition error_event (err : bytes) : res bytes :=
  let args := [AObj 1; AUint 0; AString (Some err)] in
  l ← length_msg evt_wl_display_error args;
  w ← write_msg evt_wl_display_error (zeros l) 1 false args;
  Ok (w.1 ++ w.2).
Definition end_message (error : option bytes) (send_close_msg : bool) : res bytes :=
  e ← match error with
      | Some msg =>
          let err := str_bytes "waypipe-client internal error: " ++ msg in
          l ← length_msg evt_wl_display_error [AObj 1; AUint 0; AString (Some err)];
          h ← build_wmsg_header Protocol (4 + l);
          assert_ ((4 + l) mod 4 =? 0);;
          ev ← error_event err;
          Ok (to_le 4 h ++ ev)
      | None => Ok []
      end;
  if send_close_msg then h ← build_wmsg_header Close 8; Ok (e ++ to_le 4 h ++ to_le 4 0) else Ok e.

(** An answer of [poll], and of the write that may follow. *)
Record EndAnswer (A : Type) := MkEnd { e_sigint : bool; e_flags : PollFlags; e_write : Z -> writev_ret; e_send : A }.
Arguments MkEnd {_}. Arguments e_sigint {_}. Arguments e_flags {_}. Arguments e_write {_}. Arguments e_send {_}.

(** Returns what was written to the channel, and the queue. *)
Fixpoint end_loop (answers : list (EndAnswer unit)) (q : TransferQueue) (endmsg : bytes) (nwritten : Z) :
  res (bytes * TransferQueue) :=
  match answers with
  | [] => Ok ([], q)
  | a :: answers =>
      if negb (has_from_way_output q || (nwritten <? zlen endmsg)) then Ok ([], q) else
      if e_sigint a then Ok ([], q) else
      r ← (if POLLOUT (e_flags a) then
             if has_from_way_output q then
               x ← write_to_channel q (e_write a);
               let '(closed, b, q) := x in Ok (closed, b, q, nwritten)
             else
               rest ← get_from endmsg nwritten;
               x ← write_bytes rest (e_write a);
               Ok (x.1, take (Z.to_nat x.2) rest, q, nwritten + x.2)
           else Ok (false, [], q, nwritten));
      let '(eof, b, q, nwritten) := r in
      if eof || POLLHUP (e_flags a) then Ok (b, q) else
      r ← end_loop answers q endmsg nwritten;
      Ok (b ++ r.1, r.2)
  end.
Definition loop_end_to_channel (answers : list (EndAnswer unit)) (error : option bytes) (fw : FromWay) (send_close_msg : bool) :
  res (bytes * TransferQueue) :=
  endmsg ← end_message error send_close_msg;
  q ← process_wayland_2 (fw_output fw);
  end_loop answers q endmsg 0.

Fixpoint error_loop (answers : list (EndAnswer (bytes -> list Z -> sendmsg_ret))) (m : gmap Z ShadowFd)
    (o : TransferWayland) (errmsg : bytes) (nwritten : Z) : res (bytes * list Z * gmap Z ShadowFd * TransferWayland) :=
  match answers with
  | [] => Ok ([], [], m, o)
  | a :: answers =>
      if negb (has_from_chan_output o || (nwritten <? zlen errmsg)) then Ok ([], [], m, o) else
      if e_sigint a then Ok ([], [], m, o) else
      r ← (if POLLOUT (e_flags a) then
             if has_from_chan_output o then
               x ← write_to_socket m o (e_send a);
               let '(now, m, o) := x in Ok (sent_closed now, sent_bytes now, sent_fds now, m, o, nwritten)
             else
               rest ← get_from errmsg nwritten;
               x ← write_bytes rest (e_write a);
               Ok (x.1, take (Z.to_nat x.2) rest, [], m, o, nwritten + x.2)
           else Ok (false, [], [], m, o, nwritten));
      let '(eof, b, fds, m, o, nwritten) := r in
      if eof || POLLHUP (e_flags a) then Ok (b, fds, m, o) else
      r ← error_loop answers m o errmsg nwritten;
      let '(b', fds', m, o) := r in
      Ok (b ++ b', fds ++ fds', m, o)
  end.
Definition loop_error_to_wayland (answers : list (EndAnswer (bytes -> list Z -> sendmsg_ret))) (error : bytes)
    (m : gmap Z ShadowFd) (c : FromChan) : res (bytes * list Z * gmap Z ShadowFd * TransferWayland) :=
  errmsg ← error_event (str_bytes "waypipe-server internal error: " ++ error);
  error_loop answers m (fc_output c) errmsg 0.

(** ** [main_interface_loop]: the state at the start *)
Definition initial_loop (display no_gpu : bool) (title_prefix : bytes) (init_wire_version : Z) : res Loop :=
  i ← ReadBuffer.new;
  let c := MkFC On i None [] (MkTW (zeros 4096) 0 0 []) None 0 in
  q ← (if MIN_PROTOCOL_VERSION <? init_wire_version then
         h ← build_wmsg_header Version 8;
         Ok (push_message (new_queue (zeros 4096)) (cat2x4 (to_le 4 h) (to_le 4 init_wire_version)))
       else Ok (new_queue (zeros 4096)));
  let fw := MkFW On (MkInput (zeros 4096) 0 []) q in
  let g := MkGlobals display setup_object_map ∅ [] (if display then -1 else 1) 1 None title_prefix no_gpu
             (if no_gpu then Unavailable else Unknown) ∅ ∅ ∅ ∅ init_wire_version false false in
  Ok (MkLoop g c fw (MkWork [] ∅ [] [] [] [])).
