(* ===== verification/LoopCorrect.v ===== *)
(** * The main loop: nothing is lost, and no round is wasted

    [process_channel] and [process_wayland_1] consume whole Wayland messages in order and keep
    the rest; with room for the result they always get ahead, so the loop does not spin; a
    direction that waits for a file stops waiting when the file's tasks are done. *)
From Stdlib Require Import ZArith Lia.
From stdpp Require Import gmap sorting.
From S2P Require Import Prelude Util Damage Wire Protocol ProtocolCorrect Mirror Kernel Compress ReadBuffer Formats Geometry GeometryCorrect Time Tasks TrackState.
From S2P Require Import Arms GpuArms Tracking TrackingCorrect TrackingSafe TrackingTyped TrackingSpace Channel Sockets Sfds SfdsCorrect Loop.
Local Open Scope Z_scope.
Import Util.Arith Util.Wmsg Util.Options.

(** Both sides of an equation that start with the same step. *)
Ltac same_step := match goal with |- (?m ≫= _) = (?m ≫= _) => let E := fresh "Es" in destruct m eqn:E; cbn [mbind res_bind]; [|reflexivity..] end.
Lemma get_from_Ok {A} (l : list A) a s : get_from l a = Ok s -> 0 <= a <= zlen l /\ s = drop (Z.to_nat a) l.
Proof.
  unfold get_from. intros E. minvs. split; [lia|]. unfold slice, zlen in *. apply firstn_all2. rewrite length_drop. lia.
Qed.
Lemma split_at {A} (l : list A) n : 0 <= n <= zlen l -> l = slice l 0 n ++ drop (Z.to_nat n) l /\ zlen (slice l 0 n) = n
  /\ zlen (drop (Z.to_nat n) l) = zlen l - n.
Proof.
  intros. unfold slice. rewrite drop_0, Z.sub_0_r, take_drop. unfold zlen in *. rewrite length_take, length_drop. split_and!; [done|lia..].
Qed.

Lemma parse_len_bound h len t : uN 32 h -> parse_wmsg_header h = Some (len, t) -> 0 <= len < 2 ^ 27.
Proof.
  unfold parse_wmsg_header, uN. intros Hh. destruct (wmsg_of_code _); [|done]. intros [= <- _].
  rewrite Z.shiftr_div_pow2 by lia. split; [apply Z.div_pos; lia|]. apply Z.div_lt_upper_bound; lia.
Qed.

(** ** Whole messages in order *)
(** A Wayland message: its length is the one its header gives. *)
Definition way_msg (m : bytes) : Prop := 8 <= zlen m /\ zlen m mod 4 = 0 /\ Z.shiftr (from_le (slice m 4 8)) 16 = zlen m.
Definition incoming (t : TranslationInfo) : list Z := match t with FromChannel x _ | FromWayland x _ => x end.

Section Runs.
Context `{Sys, Gpu, SortUnstable}.
(** [handles side g ins outs ms w g' ins' outs']: the messages [ms] are processed one after the
    other, each completely and each with some space to write to; [w] is what they write, [ins]
    are the descriptors they may take and [outs] those they queue. *)
Inductive handles (side : list Z -> list Z -> TranslationInfo) :
  Globals -> list Z -> list Z -> list bytes -> bytes -> Globals -> list Z -> list Z -> Prop :=
| handles_nil g ins outs : handles side g ins outs [] [] g ins outs
| handles_cons g ins outs m room st' ms w g' ins' outs' :
    way_msg m -> process_way_msg m (MkSt g (side ins outs) [] room) = Ok (Done, st') ->
    handles side (glob st') (incoming (transl st')) (outgoing (transl st')) ms w g' ins' outs' ->
    handles side g ins outs (m :: ms) (out st' ++ w) g' ins' outs'.
Lemma handles_app side g ins outs ms w g1 ins1 outs1 ms' w' g2 ins2 outs2 :
  handles side g ins outs ms w g1 ins1 outs1 -> handles side g1 ins1 outs1 ms' w' g2 ins2 outs2 ->
  handles side g ins outs (ms ++ ms') (w ++ w') g2 ins2 outs2.
Proof. induction 1; intros Hr; [done|]. rewrite <- app_comm_cons, <- app_assoc. econstructor; eauto. Qed.

(** What stopped the processing before the message at the front of [rest]: it asks for more space
    than [room] and the queue of descriptors have, or waits for a file with tasks left. *)
Definition stuck (side : list Z -> list Z -> TranslationInfo) (g : Globals) (ins outs : list Z) (room : bytes) (rest : bytes)
    (p : ProcMsg) (g' : Globals) : Prop :=
  exists m tail st', rest = m ++ tail /\ way_msg m /\ p <> Done /\ g' = glob st' /\
    process_way_msg m (MkSt g (side ins outs) [] room) = Ok (p, st').

Definition is_done (p : ProcMsg) : bool := match p with Done => true | _ => false end.
(** A buffer whose first [len] bytes are used, after a message. *)
Lemma buffer_after g t m p st' data len : 0 <= len <= zlen data ->
  process_way_msg m (MkSt g t [] (drop (Z.to_nat len) data)) = Ok (p, st') ->
  let data' := take (Z.to_nat len) data ++ out st' ++ dst st' in
  zlen data' = zlen data /\ 0 <= zlen (out st') <= zlen data - len /\
  zlen (out st') = zlen (drop (Z.to_nat len) data) - zlen (dst st') /\
  take (Z.to_nat (len + zlen (out st'))) data' = take (Z.to_nat len) data ++ out st' /\
  (is_done p = false -> data' = data /\ transl st' = t).
Proof.
  intros Hl E. pose proof (process_asks _ _ _ E) as Ha. apply process_fills in E as (w & Eo & El). cbn [snd out dst app] in *. subst w.
  unfold asks in Ha. cbn [fst snd transl dst out] in Ha. pose proof (zlen_nonneg (out st')). pose proof (zlen_nonneg (dst st')).
  assert (E1 : zlen (take (Z.to_nat len) data) = len) by (unfold zlen in *; rewrite length_take; lia).
  assert (E2 : zlen (drop (Z.to_nat len) data) = zlen data - len) by (unfold zlen in *; rewrite length_drop; lia).
  cbv zeta. rewrite !zlen_app. split; [lia|]. split; [lia|]. split; [lia|]. split.
  - rewrite app_assoc. rewrite take_app_length'; [done|]. rewrite length_app. unfold zlen in *. lia.
  - intros Hp. destruct p; [done|destruct Ha as (_ & Ht & Hd & Ho)|destruct Ha as [-> _]]; cbn [out dst transl app] in *;
      rewrite ?Ho, ?Hd; cbn [app]; by rewrite take_drop.
Qed.
(** More space than is left, but no more than there can be: some is used. *)
Lemma needs_room g t data len nb nf : 0 <= len <= zlen data ->
  space_le (nb, nf) (remaining_space (MkSt g t [] (drop (Z.to_nat len) data))) = false ->
  (zlen data <? nb) || (MAX_OUTGOING_FDS <? nf) = false -> 0 < len \/ outgoing t <> [].
Proof.
  intros Hl Hs Hw. destruct (Z.ltb_spec 0 len) as [?|?]; [by left|right]. intros Ef.
  assert (zlen (drop (Z.to_nat len) data) = zlen data - len) by (unfold zlen in *; rewrite length_drop; lia).
  unfold space_le, remaining_space in Hs. cbn [fst snd transl dst] in Hs.
  destruct t; cbn [outgoing] in Ef; rewrite Ef, zlen_nil in Hs; lia.
Qed.
End Runs.

(** ** A [Protocol] message *)
Definition queued (c : FromChan) : bytes := take (Z.to_nat (tw_len (fc_output c))) (tw_data (fc_output c)).
Definition chan_room (c : FromChan) : bytes := drop (Z.to_nat (tw_len (fc_output c))) (tw_data (fc_output c)).
Definition chan_fds (c : FromChan) : list Z := tw_fds (fc_output c).
(** The output is being filled, not sent. *)
Definition filling (c : FromChan) : Prop := tw_start (fc_output c) = 0 /\ 0 <= tw_len (fc_output c) <= zlen (tw_data (fc_output c)).
(** The same but for the output and the queue of [Rid]s. *)
Definition same_chan (c c' : FromChan) : Prop :=
  fc_state c' = fc_state c /\ fc_input c' = fc_input c /\ next_msg c' = next_msg c /\ waiting_for c' = waiting_for c /\
  message_counter c' = message_counter c /\ zlen (tw_data (fc_output c')) = zlen (tw_data (fc_output c)).

Section Chan.
Context `{Sys, Gpu, SortUnstable}.
Lemma protocol_loop_fuel f1 : forall f2 region g c, (length region < f1)%nat -> (length region < f2)%nat ->
  protocol_loop f1 region g c = protocol_loop f2 region g c.
Proof.
  induction f1 as [|f1 IH]; intros [|f2] region g c H3 H4; [lia..|]. cbn [protocol_loop].
  destruct (_ =? 0); [done|]. destruct (_ <? 8); [done|]. same_step. destruct (_ || _) eqn:Eb; [done|].
  same_step. same_step. same_step. same_step.
  match goal with r : ProcMsg * St |- _ => destruct r as [ret st'] end. destruct (transl st') as [rids fds|rids fds]; destruct ret; try done; same_step; same_step.
  all: apply get_from_Ok in Es1 as [? ->]; apply IH; rewrite length_drop; unfold zlen in *; lia.
Qed.

Definition after (c : FromChan) (st' : St) (n : Z) : FromChan :=
  set_fc_output (set_rids c (incoming (transl st')))
    (MkTW (queued c ++ out st' ++ dst st') (tw_start (fc_output c)) (tw_len (fc_output c) + n) (outgoing (transl st'))).
Lemma same_chan_refl c : same_chan c c.
Proof. by unfold same_chan. Qed.
Lemma same_chan_trans a b c : same_chan a b -> same_chan b c -> same_chan a c.
Proof. unfold same_chan. intros. destruct_and!. split_and!; congruence. Qed.
(** Nothing was written, or all of it. *)
Lemma after_ok g c st' m p : filling c ->
  process_way_msg m (MkSt g (FromChannel (rid_queue c) (chan_fds c)) [] (chan_room c)) = Ok (p, st') ->
  let c' := after c st' (if is_done p then zlen (out st') else 0) in
  filling c' /\ same_chan c c' /\ queued c' = queued c ++ (if is_done p then out st' else []) /\
  (is_done p = false -> chan_room c' = chan_room c).
Proof.
  intros [Hs Hl] Ep. destruct (buffer_after _ _ _ _ _ _ _ Hl Ep) as (E1 & E2 & E3 & E4 & E5). cbv zeta.
  unfold after, filling, same_chan, queued, chan_room in *. cbn [fc_output set_fc_output tw_data tw_start tw_len fc_state fc_input next_msg waiting_for message_counter set_rids].
  destruct (is_done p).
  - rewrite E4. split_and!; try done; lia.
  - destruct E5 as [-> _]; [done|]. rewrite Z.add_0_r, app_nil_r. split_and!; try done; lia.
Qed.

Definition stop_reason (g : Globals) (rest : bytes) (g' : Globals) (c' : FromChan) (stop : Stop) : Prop :=
  let stopped p := stuck FromChannel g (rid_queue c') (chan_fds c') (chan_room c') rest p g' in
  match stop with
  | AllDone => rest = [] /\ g' = g
  | Waits rid => stopped (WaitFor rid) /\ exists s, map g' !! rid = Some s /\ 0 < tasks_left s
  | Full => (exists sp, stopped (NeedsSpace sp)) /\ (0 < tw_len (fc_output c') \/ chan_fds c' <> [])
  end.
Lemma stopped_ok g c region n p st' : way_msg (slice region 0 n) -> region = slice region 0 n ++ drop (Z.to_nat n) region ->
  process_way_msg (slice region 0 n) (MkSt g (FromChannel (rid_queue c) (chan_fds c)) [] (chan_room c)) = Ok (p, st') ->
  is_done p = false -> transl st' = FromChannel (rid_queue c) (chan_fds c) -> filling c ->
  let c' := after c st' 0 in
  rid_queue c' = rid_queue c /\ chan_fds c' = chan_fds c /\ queued c' = queued c /\ filling c' /\ same_chan c c' /\
  stuck FromChannel g (rid_queue c') (chan_fds c') (chan_room c') region p (glob st').
Proof.
  intros Hm Er Ep Hd Ht Hf. destruct (after_ok _ _ _ _ _ Hf Ep) as (F1 & F2 & F3 & F4). rewrite Hd in *. cbv zeta in *.
  specialize (F4 eq_refl). rewrite app_nil_r in F3. unfold stuck. rewrite F4.
  assert (rid_queue (after c st' 0) = rid_queue c /\ chan_fds (after c st' 0) = chan_fds c) as [-> ->].
  { unfold after, chan_fds. cbn. by rewrite Ht. }
  split_and!; try done. exists (slice region 0 n), (drop (Z.to_nat n) region), st'. split_and!; try done. by intros ->.
Qed.
Lemma protocol_loop_spec fuel : forall region g c stop rest g' c', filling c ->
  protocol_loop fuel region g c = Ok (stop, rest, g', c') ->
  exists ms w gd, region = concat ms ++ rest /\
    handles FromChannel g (rid_queue c) (chan_fds c) ms w gd (rid_queue c') (chan_fds c') /\
    queued c' = queued c ++ w /\ filling c' /\ same_chan c c' /\ stop_reason gd rest g' c' stop.
Proof.
  induction fuel as [|fuel IH]; intros region g c stop rest g' c' Hf; [done|]. cbn [protocol_loop].
  destruct (Z.eqb_spec (zlen region) 0) as [Hz|Hz].
  { intros [= <- <- <- <-]. apply zlen_zero_nil in Hz. subst. exists [], [], g. rewrite !app_nil_r.
    split_and!; [done|apply handles_nil|done|done|apply same_chan_refl|by split]. }
  destruct (Z.ltb_spec (zlen region) 8); [done|]. intros (hb & Eh & E)%bind_Ok. cbv zeta in E.
  apply get_range_Ok in Eh as (_ & _ & ->). set (n := Z.shiftr _ 16) in *.
  destruct (_ || _) eqn:Eb; [done|]. apply bind_Ok in E as (m & Em & E). apply get_range_Ok in Em as (_ & _ & ->).
  apply bind_Ok in E as (tail & Et & E). apply get_from_Ok in Et as [Hn ->].
  destruct (split_at region n Hn) as (Er & El & El').
  assert (Hm : way_msg (slice region 0 n)).
  { unfold way_msg. rewrite El. split_and!; [lia..|]. rewrite slice_slice by lia. done. }
  apply bind_Ok in E as (st & Es & E). unfold buffer_st in Es. apply bind_Ok in Es as (d & Ed & [= <-]).
  apply get_from_Ok in Ed as [_ ->]. apply bind_Ok in E as ([p st'] & Ep & E).
  change (process_way_msg (slice region 0 n) (MkSt g (FromChannel (rid_queue c) (chan_fds c)) [] (chan_room c)) = Ok (p, st')) in Ep.
  destruct (after_ok _ _ _ _ _ Hf Ep) as (F1 & F2 & F3 & F4). destruct (buffer_after _ _ _ _ _ _ _ (proj2 Hf) Ep) as (R1 & R2 & R3 & _).
  pose proof (process_asks _ _ _ Ep) as Ha. unfold asks in Ha. cbn [fst snd] in Ha.
  assert (T : match transl st' with FromChannel x y | FromWayland x y => (x, y) end = (incoming (transl st'), outgoing (transl st')))
    by by destruct (transl st').
  rewrite T in E. destruct p as [|[nb nf]|rid]; cbn [is_done] in *.
  - apply bind_Ok in E as (k & Ek & E). apply chk_Ok in Ek as [-> _]. apply bind_Ok in E as (l & Ek & E). apply chk_Ok in Ek as [-> _].
    cbn [dst] in E. fold (chan_room c) in E. fold (chan_room c) in R3. rewrite <- R3 in E. apply (IH _ _ (after c st' (zlen (out st')))) in E; [|done].
    destruct E as (ms & w & gd & E1 & E2 & E3 & E4 & E5 & E6). exists (slice region 0 n :: ms), (out st' ++ w), gd.
    split_and!; [|by econstructor| |done|by eapply same_chan_trans|done].
    + cbn [concat]. rewrite <- app_assoc, <- E1. exact Er.
    + rewrite E3, F3. by rewrite app_assoc.
  - destruct (_ || _) eqn:Ew in E; [done|]. destruct Ha as (Hsp & Ht & _). rewrite Ht in *. cbn [incoming outgoing] in *.
    assert (Hfull : 0 < tw_len (fc_output c) \/ chan_fds c <> []).
    { cbv zeta in R1. rewrite R1 in Ew. by apply (needs_room _ _ _ _ _ _ (proj2 Hf) Hsp Ew). }
    destruct (stopped_ok _ _ _ _ _ _ Hm Er Ep eq_refl Ht Hf) as (Ht1 & Ht2 & Ht3 & Ht4 & Ht5 & Ht6).
    injection E as <- <- <- E4. assert (c' = after c st' 0) as -> by (rewrite <- E4; unfold after; by rewrite Ht, Z.add_0_r). clear E4.
    exists [], [], g. rewrite Ht1, Ht2, Ht3, app_nil_r in *. split_and!; try done; [apply handles_nil|].
    split; [by exists (nb, nf); rewrite Ht1, Ht2|by rewrite Ht2; cbn; rewrite Z.add_0_r].
  - destruct Ha as [-> (s & Es & Hl)]. destruct (stopped_ok _ _ _ _ _ _ Hm Er Ep eq_refl eq_refl Hf) as (Ht1 & Ht2 & Ht3 & Ht4 & Ht5 & Ht6).
    injection E as <- <- <- E4. match type of Ht1 with rid_queue ?x = _ => assert (c' = x) as -> by (rewrite <- E4; unfold after; by rewrite Z.add_0_r) end.
    clear E4. exists [], [], g. rewrite Ht1, Ht2, Ht3, app_nil_r in *. split_and!; try done; [apply handles_nil|].
    split; [by rewrite Ht1, Ht2|by exists s].
Qed.

(** What is left of a [Protocol] message is a [Protocol] message with the rest as its body. *)
Lemma protocol_rest view len rest k h view' v : 4 <= len <= zlen view -> len < 2 ^ 27 -> 0 < zlen rest ->
  slice view 4 len = k ++ rest ->
  build_wmsg_header Protocol (zlen rest + 4) = Ok h ->
  set_range view (len - (zlen rest + 4)) (len - (zlen rest + 4) + 4) (to_le 4 h) = Ok view' ->
  advance view' (len - (zlen rest + 4)) = Ok v ->
  header_of v = Some (zlen rest + 4, Protocol) /\ slice v 4 (zlen rest + 4) = rest /\ zlen v = zlen view - zlen k.
Proof.
  intros Hl Hv Hr Eb Eh Es Ea.
  assert (Ek : zlen k + zlen rest = len - 4) by (rewrite <- zlen_app, <- Eb, zlen_slice; lia). pose proof (zlen_nonneg k).
  replace (len - (zlen rest + 4)) with (zlen k) in * by lia.
  apply set_range_Ok in Es as (_ & _ & _ & ->). unfold advance in Ea. apply bind_Ok in Ea as (_ & Ha1%assert_Ok & Ea). apply bind_Ok in Ea as (_ & Ha2%assert_Ok & Ea).
  assert (v = drop (Z.to_nat (zlen k)) (splice view (zlen k) (to_le 4 h))) as -> by congruence. clear Ea.
  rewrite build_wmsg_header_ok in Eh by (unfold uN; lia).
  set (hd := (zlen rest + 4) * 32 + wmsg_code Protocol) in *. assert (h = hd) as -> by congruence. clear Eh.
  assert (Hh : uN 32 hd) by (unfold uN, hd; pose proof (wmsg_code_range Protocol); lia).
  assert (Ev : drop (Z.to_nat (zlen k)) (splice view (zlen k) (to_le 4 hd)) = to_le 4 hd ++ drop (Z.to_nat (zlen k + 4)) view).
  { unfold splice. rewrite drop_app_length' by (rewrite length_take; unfold zlen in *; lia). f_equal. f_equal.
    change (length (to_le 4 hd)) with 4%nat. lia. }
  rewrite Ev. rewrite zlen_app, zlen_to_le4. unfold header_of. rewrite slice_app_l by (rewrite ?zlen_to_le4; lia).
  change (slice (to_le 4 hd) 0 4) with (to_le 4 hd).
  rewrite from_to_le4 by done. split; [apply parse_build; unfold uN; lia|]. split.
  - rewrite slice_app_r by (rewrite zlen_to_le4; lia). rewrite zlen_to_le4. 
    replace rest with (slice (slice view 4 len) (zlen k) (len - 4)) at 2.
    2: { rewrite Eb. replace (len - 4) with (zlen k + zlen rest) by lia. apply slice_app_tail. }
    rewrite slice_slice by lia. unfold slice. rewrite drop_drop. f_equal; [lia|]. f_equal. lia.
  - unfold zlen in *. rewrite length_drop. lia.
Qed.

(** The output holds something, or a file that tasks are left for is waited for. *)
Definition waits (g : Globals) (c : FromChan) : Prop :=
  exists rid s, waiting_for c = Some rid /\ map g !! rid = Some s /\ 0 < tasks_left s.
Definition has_output (c : FromChan) : Prop := 0 < tw_len (fc_output c) \/ chan_fds c <> [].

Lemma process_protocol_spec view len g c o g' c' : 4 <= len <= zlen view -> len < 2 ^ 27 -> filling c ->
  process_protocol view (slice view 0 len) g c = Ok (o, g', c') ->
  exists ms rest w gd, slice view 4 len = concat ms ++ rest /\
    handles FromChannel g (rid_queue c) (chan_fds c) ms w gd (rid_queue c') (chan_fds c') /\
    queued c' = queued c ++ w /\ filling c' /\
    fc_input c' = fc_input c /\ next_msg c' = next_msg c /\ (o <> None \/ waiting_for c' = waiting_for c) /\
    match o with
    | None => rest = [] /\ g' = gd
    | Some v => header_of v = Some (zlen rest + 4, Protocol) /\ slice v 4 (zlen rest + 4) = rest /\ rest <> [] /\
        zlen v = zlen view - zlen (concat ms) /\
        (exists p, stuck FromChannel gd (rid_queue c') (chan_fds c') (chan_room c') rest p g') /\
        (waits g' c' \/ has_output c')
    end.
Proof.
  intros Hl Hb Hf E. unfold process_protocol in E. apply bind_Ok in E as (_ & _ & E). apply bind_Ok in E as (region & Er & E).
  apply get_from_Ok in Er as [_ Er]. assert (Eg : region = slice view 4 len).
  { rewrite Er. unfold slice. rewrite drop_0, Z.sub_0_r. change (Z.to_nat 4) with 4%nat. rewrite skipn_firstn_comm. f_equal. lia. }
  clear Er. apply bind_Ok in E as ([[[stop rest] g1] c1] & El & E). apply protocol_loop_spec in El; [|done].
  destruct El as (ms & w & gd & E1 & E2 & E3 & E4 & (_ & Ei & En & Ew & _) & E6). rewrite Eg in E1. cbv zeta in E.
  exists ms, rest, w, gd. destruct (Z.ltb_spec 0 (zlen rest)) as [Hr|Hr].
  - apply bind_Ok in E as (skip & Ek & E). apply chk_Ok in Ek as [-> _]. apply bind_Ok in E as (h & Eh & E).
    apply bind_Ok in E as (view' & Es & E). apply bind_Ok in E as (n & En' & E). apply bind_Ok in E as (v & Ea & E).
    injection E as <- <- <-. rewrite zlen_slice in * by lia. rewrite Z.sub_0_r in *.
    destruct (protocol_rest _ _ _ _ _ _ _ Hl Hb Hr E1 Eh Es Ea) as (P1 & P2 & P3).
    destruct stop as [|rid|]; [by destruct E6 as [-> _]|..].
    + destruct E6 as [Hst (s & Hs & Ht)]. split_and!; try done; try (by left); [by intros ->|by eexists|left; by exists rid, s].
    + destruct E6 as [[sp Hst] Ho]. split_and!; try done; try (by left); [by intros ->|by eexists|by right].
  - injection E as <- <- <-. assert (Hn : rest = []) by (apply zlen_zero_nil; zlia).
    destruct stop as [|rid|]; cbn [stop_reason] in E6; unfold stuck in E6.
    + destruct E6 as [_ ->]. split_and!; try done. by right.
    + destruct E6 as [(m & tl & st' & Em & [Hm _] & _) _]. rewrite Hn in Em. apply (f_equal zlen) in Em. rewrite zlen_app in Em. zlia.
    + destruct E6 as [(sp & m & tl & st' & Em & [Hm _] & _) _]. rewrite Hn in Em. apply (f_equal zlen) in Em. rewrite zlen_app in Em. zlia.
Qed.
Lemma handles_silent side g ins outs ms w g' ins' outs' : handles side g ins outs ms w g' ins' outs' ->
  zlen (concat ms) = 0 -> ms = [] /\ w = [] /\ g' = g /\ ins' = ins /\ outs' = outs.
Proof.
  destruct 1 as [|? ? ? m ? ? ms ? ? ? ? [Hm _] _ _]; [done|]. cbn [concat]. rewrite zlen_app. zlia.
Qed.
Lemma has_output_same c c' : filling c -> filling c' -> queued c' = queued c -> chan_fds c' = chan_fds c -> has_output c' -> has_output c.
Proof.
  intros [_ H3] [_ H4] Eq Ef [Hl|Hl]; [left|right; by rewrite <- Ef].
  assert (forall x, filling x -> zlen (queued x) = tw_len (fc_output x)) as Q.
  { intros x [_ Hx]. unfold queued, zlen in *. rewrite length_take. lia. }
  unfold queued in *. apply (f_equal zlen) in Eq. unfold zlen in *. rewrite !length_take in Eq. lia.
Qed.

Lemma inject_rids_chan fuel : forall msg i g c r, inject_rids fuel msg i g c = Ok r -> exists l, r.2 = set_rids c l.
Proof.
  induction fuel as [|fuel IH]; intros msg i g c r; cbn [inject_rids]; [intros [= <-]; exists (rid_queue c); by destruct c|].
  intros (b & _ & E)%bind_Ok. cbv zeta in E. destruct (decide _); [|done]. apply IH in E as [l ->]. by exists l.
Qed.

Context `{Refs, SfdSys, SfdGpu}.
Lemma process_one_spec comp view g c w more g' c' w' : filling c ->
  process_one comp view g c w = Ok (more, g', c', w') ->
  4 <= zlen view /\ filling c' /\ fc_input c' = fc_input c /\
  if more then waiting_for c' = waiting_for c
  else (waits g' c' \/ has_output c') /\
       exists v, next_msg c' = Some v /\ zlen v <= zlen view /\ (zlen v = zlen view -> has_output c' -> has_output c).
Proof.
  intros Hf E. unfold process_one in E. apply bind_Ok in E as (hb & Ehb & E). apply get_range_Ok in Ehb as (_ & Hv & ->).
  apply bind_Ok in E as ([len typ] & Eh & E). apply bind_Ok in E as (c1 & Ec1 & E).
  assert (Hc1 : filling c1 /\ fc_input c1 = fc_input c /\ waiting_for c1 = waiting_for c /\ has_output c1 = has_output c).
  { destruct typ; try (injection Ec1 as <-; done); apply bind_Ok in Ec1 as (n & _ & [= <-]); done. }
  clear Ec1. destruct Hc1 as (F1 & F2 & F3 & F4). apply bind_Ok in E as (msg & Em & E). apply get_range_Ok in Em as (Hl & Hl' & ->). cbv zeta in E.
  assert (Hh : parse_wmsg_header (from_le (slice view 0 4)) = Some (len, typ)) by (destruct (parse_wmsg_header _); [by injection Eh as ->|done]).
  split; [done|]. destruct typ.
  1: { apply bind_Ok in E as ([[rest g1] c2] & Ep & E).
    assert (Hlen : 4 <= len).
    { unfold process_protocol in Ep. apply bind_Ok in Ep as (_ & _ & Ep). apply bind_Ok in Ep as (rg & Ep & _).
      apply get_from_Ok in Ep as [Hr _]. rewrite zlen_slice in Hr by lia. lia. }
    assert (Hlen2 : len < 2 ^ 27) by (eapply parse_len_bound; [|exact Hh]; apply from_le_u32; rewrite zlen_slice; lia).
    apply process_protocol_spec in Ep; [|lia|done|done].
    destruct Ep as (ms & rest' & wr & gd & P1 & P2 & P3 & P4 & P5 & P6 & P7 & P8). destruct rest as [v|]; injection E as <- <- <- <-.
    - split; [done|]. split; [by rewrite <- F2|]. destruct P8 as (_ & _ & _ & Hz & _ & Hw). split; [exact Hw|].
      exists v. pose proof (zlen_nonneg (concat ms)). split; [done|]. split; [lia|]. intros Hq Ho. rewrite <- F4.
      apply handles_silent in P2 as (_ & -> & _ & _ & Hfd); [|lia]. rewrite app_nil_r in P3. by apply (has_output_same _ _ F1 P4 P3 Hfd).
    - split; [done|]. split; [congruence|]. destruct P7; [done|congruence]. }
  all: try (apply bind_Ok in E as (? & _ & E)); repeat (match type of E with (if ?b then _ else _) = _ => destruct b; [try done|try done] end);
    try (apply bind_Ok in E as (? & ? & E)); try (apply bind_Ok in E as (? & ? & E)); try done; try injection E as <- <- <- <-; try done.
  match goal with Hi : inject_rids _ _ _ _ _ = Ok _ |- _ => apply inject_rids_chan in Hi as [l ->] end. done.
Qed.

(** ** No round is wasted *)
(** The messages not processed yet, and their length. *)
Definition unread (c : FromChan) : list bytes := option_list (next_msg c) ++ msg_queue (fc_input c).
Definition backlog (c : FromChan) : Z := zlen (concat (unread c)).
(** [next_msg] is taken from the queue as soon as there is one. *)
Definition taken (c : FromChan) : Prop := next_msg c = None -> msg_queue (fc_input c) = [].

Lemma channel_loop_spec comp fuel : forall g c w g' c' w', filling c -> taken c -> waiting_for c = None ->
  channel_loop comp fuel g c w = Ok (g', c', w') ->
  filling c' /\ taken c' /\ (unread c' = [] \/ waits g' c' \/ has_output c') /\ backlog c' <= backlog c /\
  (next_msg c <> None -> backlog c' < backlog c \/ waits g' c' \/ has_output c).
Proof.
  induction fuel as [|fuel IH]; intros g c w g' c' w' Hf Ht Hw; [done|]. cbn [channel_loop].
  destruct (next_msg c) as [view|] eqn:En.
  2: { intros [= <- <- <-]. split; [done|]. split; [done|]. split; [left; unfold unread; rewrite En; by apply Ht|]. split; [lia|done]. }
  intros ([[[more g1] c1] w1] & E1 & E)%bind_Ok. destruct (process_one_spec _ _ _ _ _ _ _ _ _ Hf E1) as (Hv & F1 & Ei & Em).
  assert (Eb : backlog c = zlen view + zlen (concat (msg_queue (fc_input c)))).
  { unfold backlog, unread. rewrite En. cbn [option_list app concat]. apply zlen_app. }
  destruct more.
  - unfold pop_next_msg in E. rewrite Ei in E. destruct (msg_queue (fc_input c)) as [|m q] eqn:Eq.
    + apply IH in E; [|done|by intros _; cbn; rewrite Eq|by cbn; rewrite Em]. destruct E as (P1 & P2 & P3 & P4 & _).
      split; [done|]. split; [done|]. split; [done|]. unfold backlog at 2, unread at 1 in P4. cbn in P4. rewrite Eq in P4. 
      rewrite Eb. split; [zlia|]. left. zlia.
    + apply IH in E; [|done|done|by cbn; rewrite Em]. destruct E as (P1 & P2 & P3 & P4 & _).
      split; [done|]. split; [done|]. split; [done|]. unfold backlog at 2, unread at 1 in P4. cbn in P4. cbn in Eb.
      split; [zlia|]. left. zlia.
  - injection E as <- <- <-. destruct Em as (Hb & v & Hn & Hz & Hs). split; [done|]. split; [unfold taken; by rewrite Hn|]. split; [by right|].
    assert (Ev : backlog c1 = zlen v + zlen (concat (msg_queue (fc_input c)))).
    { unfold backlog, unread. rewrite Hn, Ei. cbn [option_list app concat]. apply zlen_app. }
    split; [lia|]. intros _. destruct (decide (zlen v = zlen view)) as [Hq|Hq]; [|left; lia].
    destruct Hb as [Hb|Hb]; [by right; left|right; right; auto].
Qed.
Lemma channel_loop_fuel comp f1 : forall f2 g c w, filling c -> (length (unread c) < f1)%nat -> (length (unread c) < f2)%nat ->
  channel_loop comp f1 g c w = channel_loop comp f2 g c w.
Proof.
  induction f1 as [|f1 IH]; intros [|f2] g c w Hf H5 H6; [lia..|]. cbn [channel_loop].
  destruct (next_msg c) as [v|] eqn:En; [|done]. same_step. destruct a as [[[more g1] c1] w1]. destruct more; [|done].
  destruct (process_one_spec _ _ _ _ _ _ _ _ _ Hf Es) as (_ & F1 & Ei & _).
  unfold pop_next_msg. rewrite Ei. unfold unread in *. rewrite En in *. cbn [option_list app length] in *.
  destruct (msg_queue (fc_input c)) as [|m q] eqn:Eq; (apply IH; [done|..]); cbn in *; rewrite ?Eq; cbn; lia.
Qed.
End Chan.

(** ** The messages of the program *)
Definition written (q : TransferQueue) : bytes := take (Z.to_nat (protocol_len q)) (protocol_data q).
Definition fits (q : TransferQueue) : Prop := 0 <= protocol_len q <= zlen (protocol_data q).
(** No complete message: a part of a header, or of what the header announces. *)
Definition partial (rest : bytes) : Prop := zlen rest < 8 \/ zlen rest < Z.shiftr (from_le (slice rest 4 8)) 16.
(** The same but for the Wayland messages. *)
Definition same_queue (q q' : TransferQueue) : Prop := q' = set_protocol q (protocol_data q') (protocol_len q') (protocol_rids q').

Section Way.
Context `{L : CompLib} `{Sys, Gpu, SortUnstable, Refs, SfdSys, SfdGpu}.
Lemma wayland_loop_fuel f1 : forall f2 max region nread g fds q, (length region < f1)%nat -> (length region < f2)%nat ->
  wayland_loop f1 max region nread g fds q = wayland_loop f2 max region nread g fds q.
Proof.
  induction f1 as [|f1 IH]; intros [|f2] max region nread g fds q Hl1 Hl2; [lia..|]. cbn [wayland_loop].
  destruct (_ <? 8); [done|]. same_step. destruct (_ || _) eqn:Eb; [done|]. destruct (max <=? _); [done|]. destruct (zlen region <? _) eqn:Ez; [done|].
  same_step. same_step. same_step. same_step.
  match goal with r : ProcMsg * St |- _ => destruct r as [ret st'] end.
  destruct (transl st') as [rids x|rids x]; destruct ret; try done; same_step; same_step.
  all: apply get_from_Ok in Es1 as [? ->]; apply IH; rewrite length_drop; unfold zlen in *; lia.
Qed.
(** [nread' - nread] bytes of [region] were processed, to the state given. *)
Definition way_read (region : bytes) (nread : Z) (g : Globals) (fds : list Z) (q : TransferQueue)
    (nread' : Z) (g' : Globals) (fds' : list Z) (q' : TransferQueue) : Prop :=
  exists ms rest w gd, region = concat ms ++ rest /\ nread' = nread + zlen (concat ms) /\
    handles FromWayland g fds (protocol_rids q) ms w gd fds' (protocol_rids q') /\
    written q' = written q ++ w /\ same_queue q q' /\
    ((partial rest /\ g' = gd) \/
     ((exists sp, stuck FromWayland gd fds' (protocol_rids q') (drop (Z.to_nat (protocol_len q')) (protocol_data q')) rest (NeedsSpace sp) g') /\
      (0 < protocol_len q' \/ protocol_rids q' <> []))).
Lemma way_read_stop region nread g fds q : partial region -> way_read region nread g fds q nread g fds q.
Proof.
  intros Hp. exists [], region, [], g. rewrite app_nil_r.
  split_and!; [done|cbn [concat]; zlia|apply handles_nil|done|by destruct q|by left].
Qed.
Lemma way_read_next m tail g fds q room st' nread nread' g' fds' q' :
  way_msg m -> process_way_msg m (MkSt g (FromWayland fds (protocol_rids q)) [] room) = Ok (Done, st') ->
  let q1 := set_protocol q (take (Z.to_nat (protocol_len q)) (protocol_data q) ++ out st' ++ dst st')
              (protocol_len q + zlen (out st')) (outgoing (transl st')) in
  written q1 = written q ++ out st' ->
  way_read tail (nread + zlen m) (glob st') (incoming (transl st')) q1 nread' g' fds' q' ->
  way_read (m ++ tail) nread g fds q nread' g' fds' q'.
Proof.
  intros Hm Ep q1 Hw (ms & rest & w & gd & E1 & E2 & E3 & E4 & E6 & E7). exists (m :: ms), rest, (out st' ++ w), gd.
  cbn [concat]. split_and!; [by rewrite <- app_assoc, <- E1|rewrite zlen_app; lia|by econstructor| |exact E6|exact E7].
  by rewrite E4, Hw, app_assoc.
Qed.
Lemma wayland_loop_spec fuel : forall max region nread g fds q nread' g' fds' q', fits q ->
  wayland_loop fuel max region nread g fds q = Ok (nread', g', fds', q') ->
  way_read region nread g fds q nread' g' fds' q' /\ fits q'.
Proof.
  induction fuel as [|fuel IH]; intros max region nread g fds q nread' g' fds' q' Hf; [done|]. cbn [wayland_loop].
  destruct (Z.ltb_spec (zlen region) 8); [intros [= <- <- <- <-]; split; [apply way_read_stop; by left|done]|]. intros (hb & Eh & E)%bind_Ok. cbv zeta in E.
  apply get_range_Ok in Eh as (_ & _ & ->). set (n := Z.shiftr _ 16) in *.
  destruct (_ || _) eqn:Eb; [done|]. destruct (max <=? n); [done|]. destruct (Z.ltb_spec (zlen region) n); [injection E as <- <- <- <-; split; [apply way_read_stop; by right|done]|].
  apply bind_Ok in E as (m & Em & E). apply get_range_Ok in Em as (_ & _ & ->).
  apply bind_Ok in E as (tail & Et & E). apply get_from_Ok in Et as [Hn ->].
  destruct (split_at region n Hn) as (Er & El & El').
  assert (Hm : way_msg (slice region 0 n)).
  { unfold way_msg. rewrite El. split_and!; [lia..|]. rewrite slice_slice by lia. done. }
  apply bind_Ok in E as (st & Es & E). unfold buffer_st in Es. apply bind_Ok in Es as (d & Ed & [= <-]).
  apply get_from_Ok in Ed as [_ ->]. apply bind_Ok in E as ([p st'] & Ep & E).
  destruct (buffer_after _ _ _ _ _ _ _ Hf Ep) as (R1 & R2 & R3 & R4 & R5). cbv zeta in *.
  pose proof (process_asks _ _ _ Ep) as Ha. unfold asks in Ha. cbn [fst snd] in Ha.
  assert (T : match transl st' with FromChannel x y | FromWayland x y => (x, y) end = (incoming (transl st'), outgoing (transl st')))
    by by destruct (transl st').
  rewrite T in E. destruct p as [|[nb nf]|rid]; cbn [is_done] in *; [| |done].
  - apply bind_Ok in E as (k & Ek & E). apply chk_Ok in Ek as [-> _]. apply bind_Ok in E as (l & Ek & E). apply chk_Ok in Ek as [-> _].
    cbn [dst] in E. rewrite <- R3 in E. apply IH in E as [E ?]; [|unfold fits in *; cbn [set_protocol protocol_len protocol_data]; lia]. split; [|done]. rewrite Er.
    apply (way_read_next _ _ _ _ _ _ _ _ _ _ _ _ Hm Ep); [exact R4|by rewrite El].
  - destruct (_ || _) eqn:Ew in E; [done|]. rewrite R1 in Ew. destruct Ha as (Hsp & _). pose proof (needs_room _ _ _ _ _ _ Hf Hsp Ew) as Hr.
    destruct R5 as [Rd Rt]; [done|]. rewrite Rd, Rt in E. cbn [incoming outgoing] in E. injection E as <- <- <- <-.
    assert (Eq : set_protocol q (protocol_data q) (protocol_len q) (protocol_rids q) = q) by by destruct q.
    rewrite Eq. split; [|done]. exists [], region, [], g. rewrite app_nil_r.
    split_and!; [done|cbn [concat]; zlia|apply handles_nil|done|by destruct q|]. right. split; [|done].
    exists (nb, nf), (slice region 0 n), (drop (Z.to_nat n) region), st'. by split_and!.
Qed.

(** Updates of files add messages and tasks; the Wayland messages stay. *)
Definition keeps (q q' : TransferQueue) : Prop := exists msgs n, q' = set_expected (set_messages q msgs) n.
Lemma keeps_refl q : keeps q q.
Proof. exists (other_messages q), (expected_recvd_msgs q). by destruct q. Qed.
Lemma keeps_trans q1 q2 q3 : keeps q1 q2 -> keeps q2 q3 -> keeps q1 q3.
Proof. intros (m1 & n1 & ->) (m2 & n2 & ->). by exists m2, n2. Qed.
Lemma keeps_messages q l : keeps q (set_messages q l).
Proof. exists l, (expected_recvd_msgs q). by destruct q. Qed.
Lemma push_tasks_keeps mp rid l : forall q w x, push_tasks mp rid q w l = Ok x -> keeps q x.1.
Proof.
  induction l as [|t l IH]; intros q w x; [intros [= <-]; apply keeps_refl|]. unfold push_tasks. cbn [foldM].
  intros ([q1 w1] & E1 & E)%bind_Ok. apply IH in E. eapply keeps_trans; [|exact E].
  unfold push_task in E1. apply bind_Ok in E1 as (n & _ & [= <- _]). exists (other_messages q), n. done.
Qed.
Lemma push_task_keeps mp rid q w t x : push_task mp rid q w t = Ok x -> keeps q x.1.
Proof. intros E. apply (push_tasks_keeps mp rid [t] q w). unfold push_tasks. cbn [foldM fst snd]. by rewrite E. Qed.
Lemma update_dmabuf_keeps comp m d q w r : update_dmabuf comp m d q w = Ok r -> keeps q r.1.2.
Proof.
  unfold update_dmabuf. intros (_ & _ & E)%bind_Ok. apply bind_Ok in E as ([d1 q1] & E1 & E).
  assert (K : keeps q q1).
  { unfold announce_dmabuf in E1. destruct (negb _); [injection E1 as <- <-; apply keeps_refl|].
    destruct (impl_size _). apply bind_Ok in E1 as (? & _ & E1). cbv zeta in E1. apply bind_Ok in E1 as (? & _ & [= _ <-]).
    eapply keeps_trans; apply keeps_messages. }
  clear E1. cbv zeta in E. apply bind_Ok in E as (iv & _ & E). destruct (_ =? 0); [by injection E as <-|].
  apply bind_Ok in E as (acq & _ & E). apply bind_Ok in E as ([sync mp] & _ & E). destruct (video_encode d1).
  - apply bind_Ok in E as (sem & _ & E). apply bind_Ok in E as (x & Ex%push_task_keeps & [= <-]). by eapply keeps_trans.
  - apply bind_Ok in E as (cp & _ & E). destruct (_ || _).
    + apply bind_Ok in E as (mir & _ & E). apply bind_Ok in E as (ts & _ & E).
      apply bind_Ok in E as (x & Ex%push_tasks_keeps & [= <-]). by eapply keeps_trans.
    + apply bind_Ok in E as (ts & _ & E). apply bind_Ok in E as (x & Ex%push_tasks_keeps & [= <-]). by eapply keeps_trans.
Qed.
Lemma collect_keeps comp m s q w r : collect_updates comp m s q w = Ok r -> keeps q r.1.2.
Proof.
  destruct s as [fd f p|p|d|t]; cbn [collect_updates].
  - unfold update_file. intros ([[f1 msgs] ts] & _ & E)%bind_Ok. apply bind_Ok in E as (x & Ex%push_tasks_keeps & [= <-]).
    eapply keeps_trans; [apply keeps_messages|exact Ex].
  - intros ([[k p1] msgs] & _ & [= <-])%bind_Ok. apply keeps_messages.
  - apply update_dmabuf_keeps.
  - intros ([t1 q1] & E & [= <-])%bind_Ok. unfold update_timeline in E. destruct (negb _); [injection E as <- <-; apply keeps_refl|].
    apply bind_Ok in E as (h & _ & E). cbv zeta in E. injection E as _ <-. apply keeps_messages.
Qed.
Lemma collect_all_keeps comp l : forall x y, foldM (collect_at comp) x l = Ok y -> keeps x.1.1.2 y.1.1.2.
Proof.
  induction l as [|rid l IH]; intros [[[g q] w] dl] y; cbn [foldM]; [intros [= <-]; apply keeps_refl|].
  intros (x1 & E1 & E%IH)%bind_Ok. eapply keeps_trans; [|exact E]. unfold collect_at in E1.
  destruct (lookup_sfd g rid) as [s|]; [|injection E1 as <-; apply keeps_refl].
  apply bind_Ok in E1 as ([[[k s1] q1] w1] & Ec%collect_keeps & [= <-]). exact Ec.
Qed.

Lemma process_wayland_1_spec comp g fw w g' fw' w' : fits (fw_output fw) ->
  process_wayland_1 comp g fw w = Ok (g', fw', w') ->
  exists g1 q1, fits q1 /\ keeps q1 (fw_output fw') /\
    way_read (slice (in_data (fw_input fw)) 0 (in_len (fw_input fw))) 0 g (in_fds (fw_input fw)) (fw_output fw)
      (in_len (fw_input fw) - in_len (fw_input fw')) g1 (in_fds (fw_input fw')) q1 /\
    0 <= in_len (fw_input fw') <= in_len (fw_input fw) /\
    slice (in_data (fw_input fw')) 0 (in_len (fw_input fw')) =
      drop (Z.to_nat (in_len (fw_input fw) - in_len (fw_input fw'))) (slice (in_data (fw_input fw)) 0 (in_len (fw_input fw))) /\
    zlen (in_data (fw_input fw')) = zlen (in_data (fw_input fw)).
Proof.
  intros Hf E. unfold process_wayland_1 in E. cbv zeta in E. apply bind_Ok in E as (region & Er & E).
  apply get_range_Ok in Er as (Hr1 & Hr2 & ->). apply bind_Ok in E as ([[[nread g1] fds] q1] & El & E).
  apply wayland_loop_spec in El as [Hr Hq]; [|done]. apply bind_Ok in E as (len & Ek & E). apply chk_Ok in Ek as [-> Hlen].
  apply bind_Ok in E as (rest & Es & E). apply get_range_Ok in Es as (Hn & Hn' & ->).
  apply bind_Ok in E as (data & Ed & E). apply set_range_Ok in Ed as (_ & Hd1 & Hd2 & ->).
  apply bind_Ok in E as ([[[g2 q2] w2] dl] & Ec & E). apply collect_all_keeps in Ec. cbn [fst snd] in Ec.
  apply bind_Ok in E as (g3 & _ & [= <- <- <-]). exists g1, q1. cbn [fw_output fw_input in_data in_len in_fds].
  split; [done|]. split; [done|]. unfold uN in Hlen.
  replace (in_len (fw_input fw) - (in_len (fw_input fw) - nread)) with nread by lia. split; [exact Hr|]. split; [lia|]. split.
  - rewrite splice_slices by (rewrite ?Hd2; lia). rewrite (slice_nil _ 0 0) by lia. cbn [app].
    rewrite slice_app_l by (rewrite ?Hd2; lia). rewrite slice_slice by lia. unfold slice. rewrite drop_0, skipn_firstn_comm. f_equal; [lia|f_equal; lia].
  - rewrite zlen_splice by (rewrite ?Hd2; lia). done.
Qed.
End Way.

(** ** The properties *)
Section Claims.
Context `{L : CompLib} `{Sys, Gpu, SortUnstable, Refs, SfdSys, SfdGpu}.

(** C8: the Wayland messages of a [Protocol] message reach the program whole, once and in order:
    what one pass handles is a sequence of complete messages at the front of the body, their
    translations are appended to the output, and what is left, if anything, is kept as a
    [Protocol] message whose body is the rest; the pass stopped there because the next message
    asks for more space than the output has left or waits for a file with tasks left. *)
Theorem protocol_in_order view len msg g c o g' c' :
  header_of view = Some (len, Protocol) -> get_range view 0 len = Ok msg -> filling c ->
  process_protocol view msg g c = Ok (o, g', c') ->
  exists ms rest w gd,
    slice view 4 len = concat ms ++ rest /\ queued c' = queued c ++ w /\
    handles FromChannel g (rid_queue c) (chan_fds c) ms w gd (rid_queue c') (chan_fds c') /\
    match o with
    | None => rest = [] /\ g' = gd
    | Some v => header_of v = Some (zlen rest + 4, Protocol) /\ slice v 4 (zlen rest + 4) = rest /\ rest <> [] /\
        (exists p, stuck FromChannel gd (rid_queue c') (chan_fds c') (chan_room c') rest p g') /\
        (waits g' c' \/ has_output c')
    end.
Proof.
  intros Hh (Hl1 & Hl2 & ->)%get_range_Ok Hf E.
  assert (Hlen : 4 <= len).
  { unfold process_protocol in E. apply bind_Ok in E as (_ & _ & E). apply bind_Ok in E as (rg & E & _).
    apply get_from_Ok in E as [Hr _]. rewrite zlen_slice in Hr; lia. }
  apply process_protocol_spec in E; [|lia| |done].
  - destruct E as (ms & rest & w & gd & E1 & E2 & E3 & _ & _ & _ & _ & E8). exists ms, rest, w, gd. split_and!; try done.
    destruct o; [|done]. by destruct_and! E8.
  - unfold header_of in Hh. apply (parse_len_bound (from_le (slice view 0 4)) _ Protocol); [|exact Hh].
    apply from_le_u32. rewrite zlen_slice; lia.
Qed.

(** C11: processing the messages of the channel gets ahead and never spins: afterwards there is no
    message left, or the program has output to take, or a file with tasks left is waited for;
    and unless such a wait began, fewer bytes are unread than before when the output was empty. *)
Theorem channel_gets_ahead comp g c w g' c' w' :
  filling c -> taken c -> waiting_for c = None -> process_channel comp g c w = Ok (g', c', w') ->
  (unread c' = [] \/ waits g' c' \/ has_output c') /\ backlog c' <= backlog c /\
  (next_msg c <> None -> ~ has_output c -> backlog c' < backlog c \/ waits g' c').
Proof.
  intros Hf Ht Hw E. destruct (channel_loop_spec _ _ _ _ _ _ _ _ Hf Ht Hw E) as (_ & _ & E1 & E2 & E3).
  split; [done|]. split; [done|]. intros Hn Ho. destruct (E3 Hn) as [?|[?|?]]; auto. done.
Qed.

(** C9: the program's messages are taken from its socket whole, once and in order: what
    [process_wayland_1] handles is a sequence of complete messages at the front of the data
    received, their translations are appended to the protocol data of the queue, and the rest is
    moved to the front of the buffer; it is only part of a message, or its first message asks for
    more space than is left while there is something to send. *)
Theorem wayland_in_order comp g fw w g' fw' w' :
  fits (fw_output fw) -> process_wayland_1 comp g fw w = Ok (g', fw', w') ->
  exists ms rest bs gd g1,
    slice (in_data (fw_input fw)) 0 (in_len (fw_input fw)) = concat ms ++ rest /\
    slice (in_data (fw_input fw')) 0 (in_len (fw_input fw')) = rest /\
    handles FromWayland g (in_fds (fw_input fw)) (protocol_rids (fw_output fw)) ms bs gd
      (in_fds (fw_input fw')) (protocol_rids (fw_output fw')) /\
    written (fw_output fw') = written (fw_output fw) ++ bs /\
    ((partial rest /\ g1 = gd) \/
     ((exists sp, stuck FromWayland gd (in_fds (fw_input fw')) (protocol_rids (fw_output fw'))
         (drop (Z.to_nat (protocol_len (fw_output fw'))) (protocol_data (fw_output fw'))) rest (NeedsSpace sp) g1) /\
      (0 < protocol_len (fw_output fw') \/ protocol_rids (fw_output fw') <> []))).
Proof.
  intros Hf E. apply process_wayland_1_spec in E as (g1 & q1 & Hq & (msgs & n & Ek) & Hr & Hl & Hs & _); [|done].
  destruct Hr as (ms & rest & bs & gd & E1 & E2 & E3 & E4 & _ & E6). rewrite Ek. cbn [set_expected set_messages protocol_len protocol_data protocol_rids] in *.
  exists ms, rest, bs, gd, g1. split; [done|]. split; [|by split_and!].
  rewrite Hs, E1, E2. rewrite drop_app_length'; [done|unfold zlen; lia].
Qed.

(** C18: the loops of the two directions end: each round takes a message, so any larger bound than
    the one used gives the same result. *)
Theorem loops_terminate comp :
  (forall region g c n, (length region < n)%nat -> protocol_loop n region g c = protocol_loop (S (length region)) region g c) /\
  (forall g c w n, filling c -> (S (length (msg_queue (fc_input c))) < n)%nat -> channel_loop comp n g c w = process_channel comp g c w) /\
  (forall max region nread g fds q n, (length region < n)%nat ->
    wayland_loop n max region nread g fds q = wayland_loop (S (length region)) max region nread g fds q).
Proof.
  split; [|split]; intros.
  - apply protocol_loop_fuel; lia.
  - unfold process_channel. assert (length (unread c) <= S (length (msg_queue (fc_input c))))%nat.
    { unfold unread. rewrite length_app. destruct (next_msg c); cbn; lia. }
    apply channel_loop_fuel; [done|lia..].
  - apply wayland_loop_fuel; lia.
Qed.
End Claims.

(** ** Concrete runs *)
(** Two requests in a [Protocol] message, and room for one. *)
Definition demo_view : bytes := to_le 4 (28 * 32) ++ demo_sync ++ demo_msg 1 0 [3].
Definition demo_input : ReadBuffer := MkRB None (MkChunk 1048576 []) 0 0 [].
Definition demo_chan : FromChan := MkFC On demo_input (Some demo_view) [] (MkTW (zeros 12) 0 0 []) None 1.
Definition demo_display : Globals := demo_glob true Unknown setup_object_map ∅.
Lemma demo_filling : filling demo_chan.
Proof. by vm_compute. Qed.
Lemma protocol_in_order_witness : exists v g' c' ms rest,
  @process_protocol demo_sys demo_gpu merge_sort_by demo_view demo_view demo_display demo_chan = Ok (Some v, g', c') /\
  slice demo_view 4 28 = concat ms ++ rest /\ slice v 4 (zlen rest + 4) = rest /\ rest <> [].
Proof.
  destruct (@process_protocol demo_sys demo_gpu merge_sort_by demo_view demo_view demo_display demo_chan) as [[[[v|] g'] c']| |] eqn:E;
    try (vm_compute in E; discriminate E).
  destruct (@protocol_in_order demo_sys demo_gpu merge_sort_by demo_view 28 demo_view _ _ _ _ _
    ltac:(by vm_compute) ltac:(by vm_compute) demo_filling E) as (ms & rest & w & gd & E1 & _ & _ & _ & E2 & E3 & _).
  by exists v, g', c', ms, rest.
Defined.
Lemma channel_gets_ahead_witness : exists g' c' w',
  @process_channel demo_sys demo_gpu merge_sort_by all_held demo_pipes demo_devices CompNone demo_display demo_chan no_work = Ok (g', c', w') /\
  (backlog c' < backlog demo_chan \/ waits g' c').
Proof.
  destruct (@process_channel demo_sys demo_gpu merge_sort_by all_held demo_pipes demo_devices CompNone demo_display demo_chan no_work)
    as [[[g' c'] w']| |] eqn:E; try (vm_compute in E; discriminate E).
  exists g', c', w'. split; [done|].
  destruct (@channel_gets_ahead demo_sys demo_gpu merge_sort_by all_held demo_pipes demo_devices CompNone _ _ _ _ _ _
    demo_filling ltac:(by vm_compute) eq_refl E) as (_ & _ & Hb). apply Hb; [done|]. intros [Ho|Ho]; [vm_compute in Ho|]; done.
Defined.

(** A request and the start of another in the buffer of the program's socket. *)
Definition demo_ring : WaylandInputRing := MkInput (demo_sync ++ take 6 demo_sync ++ zeros 14) 18 [].
Definition demo_way : FromWay := MkFW On demo_ring (new_queue (zeros 32)).
Lemma demo_fits : fits (fw_output demo_way).
Proof. by vm_compute. Qed.
Lemma wayland_in_order_witness : exists g' fw' w' ms rest,
  @process_wayland_1 stored demo_sys demo_gpu merge_sort_by all_held demo_devices CompNone
    (demo_glob false Unknown setup_object_map ∅) demo_way no_work = Ok (g', fw', w') /\
  demo_sync ++ take 6 demo_sync = concat ms ++ rest /\ slice (in_data (fw_input fw')) 0 (in_len (fw_input fw')) = rest.
Proof.
  destruct (@process_wayland_1 stored demo_sys demo_gpu merge_sort_by all_held demo_devices CompNone
    (demo_glob false Unknown setup_object_map ∅) demo_way no_work) as [[[g' fw'] w']| |] eqn:E; try (vm_compute in E; discriminate E).
  destruct (@wayland_in_order stored demo_sys demo_gpu merge_sort_by all_held demo_devices CompNone _ _ _ _ _ _ demo_fits E)
    as (ms & rest & bs & gd & g1 & E1 & E2 & _). exists g', fw', w', ms, rest. split; [done|]. split; [etransitivity; [|exact E1]; by vm_compute|done].
Defined.
Lemma loops_terminate_witness : @channel_loop demo_sys demo_gpu merge_sort_by all_held demo_pipes demo_devices CompNone 9 demo_display demo_chan no_work =
  @process_channel demo_sys demo_gpu merge_sort_by all_held demo_pipes demo_devices CompNone demo_display demo_chan no_work.
Proof.
  apply (@loops_terminate demo_sys demo_gpu merge_sort_by all_held demo_pipes demo_devices CompNone); [exact demo_filling|].
  vm_compute; lia.
Defined.
