(* ===== verification/LoopEnd.v ===== *)
(** * The main loop: results of tasks, and the end

    Results of the worker threads are counted exactly, and a direction that waits for a file goes
    on when the last of its tasks is done; directions only close; what is queued at the end is
    written before the last message. *)
From Stdlib Require Import ZArith Lia.
From stdpp Require Import gmap sorting.
From S2P Require Import Prelude Util Damage Wire Protocol ProtocolCorrect Mirror Kernel Compress ReadBuffer Formats Geometry GeometryCorrect Time Tasks TrackState.
From S2P Require Import Arms GpuArms Tracking TrackingCorrect TrackingSafe TrackingTyped TrackingSpace Channel Sockets Sfds SfdsCorrect Loop LoopCorrect.
Local Open Scope Z_scope.
Import Util.Arith Util.Wmsg Util.Options.

(** ** Results of tasks *)
(** How many of the results say that data was applied to [rid]; the messages of the others. *)
Definition applied (rid : Z) (l : list TaskOutput) : Z :=
  zlen (List.filter (fun o => match o with ApplyDone r => r =? rid | _ => false end) l).
Definition messages (l : list TaskOutput) : list bytes :=
  omap (fun o => match o with OutMsg m => Some m | _ => None end) l.
Definition is_answer (o : TaskOutput) : bool := match o with OutMsg _ | ApplyDone _ => true | _ => false end.

Section Results.
Context `{Refs}.
Definition tasks_of (g : Globals) (rid : Z) : option Z := s ← lookup_sfd g rid; pending_tasks s.
(** Every result was asked for: as many messages are expected, and every file has as many tasks left. *)
Record asked (g : Globals) (q : TransferQueue) (l : list TaskOutput) : Prop := {
  as_kind : forallb is_answer l = true;
  as_msgs : zlen (messages l) <= expected_recvd_msgs q < 2 ^ 64;
  as_applied : forall rid, 0 < applied rid l -> exists n, tasks_of g rid = Some n /\ applied rid l <= n < 2 ^ 64 }.
(** A file that is waited for has tasks left. *)
Definition wait_ok (g : Globals) (c : FromChan) : Prop :=
  forall rid, waiting_for c = Some rid -> exists n, tasks_of g rid = Some n /\ 0 < n.

Lemma dec_pending_ok s n : pending_tasks s = Some n -> 0 < n < 2 ^ 64 ->
  exists s', dec_pending s = Ok s' /\ pending_tasks s' = Some (n - 1).
Proof.
  intros Hp Hn. destruct s as [fd f p|p|d|t]; cbn in Hp; try done; injection Hp as <-; cbn [dec_pending];
    rewrite checked_in by (unfold uN; lia); cbn [unwrap mbind res_bind]; eexists; done.
Qed.
Lemma applied_cons rid o l : applied rid (o :: l) = applied rid l + match o with ApplyDone r => if r =? rid then 1 else 0 | _ => 0 end.
Proof. unfold applied. cbn [List.filter]. destruct o as [|m|r|]; try lia. destruct (r =? rid); rewrite ?zlen_cons; lia. Qed.
Lemma applied_nonneg rid l : 0 <= applied rid l.
Proof. unfold applied. apply zlen_nonneg. Qed.
Lemma pending_put g rid s n r : lookup_sfd g rid = Some s -> forall s', pending_tasks s' = Some n ->
  tasks_of (put_sfd g rid s') r = if r =? rid then Some n else tasks_of g r.
Proof.
  intros Hl s' Hp. unfold tasks_of, lookup_sfd, put_sfd in *. cbn [unmapped map set_map].
  destruct (Z.eqb_spec r rid) as [->|Hr].
  - destruct (decide _); [done|]. destruct (upgrade rid); [|done]. by rewrite lookup_insert_eq.
  - destruct (decide _); [done|]. destruct (upgrade r); [|done]. by rewrite lookup_insert_ne.
Qed.

(** One result. *)
Definition after_result (q : TransferQueue) (active : bool) (o : TaskOutput) : TransferQueue :=
  match o with
  | OutMsg m => let q := set_expected q (expected_recvd_msgs q - 1) in
              if active && negb (zlen m =? 0) then push_message q m else q
  | _ => q
  end.
(** The wait is over when no task is left. *)
Definition waited (g : Globals) (c : FromChan) : FromChan :=
  match waiting_for c with
  | Some rid => if bool_decide (tasks_of g rid = Some 0) then set_waiting_for c None else c
  | None => c
  end.
Lemma waited_ok g c (fw : FromWay) : (forall rid, waiting_for c = Some rid -> exists n, tasks_of g rid = Some n /\ 0 <= n) ->
  (match waiting_for c with
   | None => Ok (g, c, fw)
   | Some rid =>
       s ← unwrap (lookup_sfd g rid);
       n ← unwrap (pending_tasks s);
       Ok (g, if n =? 0 then set_waiting_for c None else c, fw)
   end) = Ok (g, waited g c, fw) /\ wait_ok g (waited g c).
Proof.
  intros Hw. unfold waited, wait_ok. destruct (waiting_for c) as [rid|] eqn:Ew; [|by rewrite Ew].
  destruct (Hw rid eq_refl) as (n & Hn & Hp). rewrite Hn. unfold tasks_of in Hn. destruct (lookup_sfd g rid) as [s|] eqn:Es; [|done].
  cbn in Hn. cbn [unwrap mbind res_bind]. rewrite Hn. cbn [unwrap mbind res_bind].
  destruct (Z.eqb_spec n 0) as [->|Hz]; [by rewrite bool_decide_eq_true_2|]. rewrite bool_decide_eq_false_2 by congruence.
  split; [done|]. rewrite Ew. intros ? [= <-]. exists n. unfold tasks_of. rewrite Es. cbn. split; [done|lia].
Qed.
Lemma take_result_ok g c fw o l : asked g (fw_output fw) (o :: l) -> wait_ok g c -> exists g',
  take_result (g, c, fw) (Ok o) =
    Ok (g', waited g' c, MkFW (fw_state fw) (fw_input fw) (after_result (fw_output fw) (is_active (fw_state fw)) o)) /\
  asked g' (after_result (fw_output fw) (is_active (fw_state fw)) o) l /\ wait_ok g' (waited g' c) /\
  (forall rid n, tasks_of g rid = Some n -> tasks_of g' rid = Some (n - applied rid [o])).
Proof.
  intros [Hk Hm Ha] Hw. cbn [forallb] in Hk. apply andb_true_iff in Hk as [Ho Hk]. destruct o as [|m|r|]; try done.
  - exists g. cbn [take_result after_result]. unfold messages in Hm. cbn [omap list_omap] in Hm. rewrite zlen_cons in Hm. fold (messages l) in Hm.
    pose proof (zlen_nonneg (messages l)). rewrite checked_in by (unfold uN; lia). cbn [unwrap mbind res_bind].
    destruct (waited_ok g c (MkFW (fw_state fw) (fw_input fw) (after_result (fw_output fw) (is_active (fw_state fw)) (OutMsg m)))) as [E1 E2].
    { intros rid Hr. destruct (Hw rid Hr) as (n & ? & ?). exists n. split; [done|lia]. }
    split; [exact E1|]. split; [|split; [exact E2|intros; rewrite applied_cons; cbn; rewrite Z.add_0_r; unfold applied; cbn; by rewrite Z.sub_0_r]].
    split; [done| |].
    + destruct (_ && _); cbn; lia.
    + intros rid Hr. destruct (Ha rid) as (n & Hn & Hl); [rewrite applied_cons; lia|]. rewrite applied_cons in Hl. exists n. split; [done|lia].
  - destruct fw as [fs fi fo]. cbn [fw_state fw_input fw_output] in *. assert (Hr : applied r (ApplyDone r :: l) = applied r l + 1) by (rewrite applied_cons, Z.eqb_refl; lia). pose proof (applied_nonneg r l).
    destruct (Ha r) as (n & Hn & Hl); [lia|]. unfold tasks_of in Hn. destruct (lookup_sfd g r) as [s|] eqn:Es; [|done]. cbn in Hn.
    destruct (dec_pending_ok s n Hn) as (s' & Ed & Hp); [lia|]. exists (put_sfd g r s'). cbn [take_result after_result].
    pose proof Es as Es'. unfold lookup_sfd in Es'. destruct (decide _); [done|]. destruct (upgrade r); [|done]. rewrite Es'.
    cbn [assert_ mbind res_bind]. rewrite Ed. cbn [mbind res_bind].
    assert (Hput : forall rid k, tasks_of g rid = Some k -> tasks_of (put_sfd g r s') rid = Some (k - applied rid [ApplyDone r])).
    { intros rid k Hk'. rewrite (pending_put _ _ _ _ _ Es _ Hp), applied_cons, (Z.eqb_sym r). unfold applied. cbn [List.filter]. rewrite zlen_nil.
      destruct (Z.eqb_spec rid r) as [->|]; [|f_equal; rewrite Hk'; f_equal; lia]. unfold tasks_of in Hk'. rewrite Es in Hk'. cbn in Hk'. f_equal. simplify_eq. lia. }
    destruct (waited_ok (put_sfd g r s') c (MkFW fs fi fo)) as [E1 E2].
    { intros rid Hw'. destruct (Hw rid Hw') as (k & Hk' & Hk0). exists (k - applied rid [ApplyDone r]). split; [by apply Hput|].
      rewrite applied_cons. change (applied rid []) with 0. destruct (r =? rid); lia. }
    split; [exact E1|]. split; [|by split]. split; [done|done|].
    intros rid Hr'. destruct (Ha rid) as (k & Hk' & Hl'); [rewrite applied_cons; destruct (r =? rid); lia|].
    exists (k - applied rid [ApplyDone r]). split; [by apply Hput|]. rewrite applied_cons in Hl' |- *. change (applied rid []) with 0.
    destruct (r =? rid); lia.
Qed.

(** The queue after the results: fewer messages expected, and those that came pushed in order. *)
Lemma after_results_queue active l : forall q, expected_recvd_msgs (foldl (fun q o => after_result q active o) q l) = expected_recvd_msgs q - zlen (messages l) /\
  other_messages (foldl (fun q o => after_result q active o) q l) =
    other_messages q ++ (if active : bool then List.filter (fun m => negb (zlen m =? 0)) (messages l) else []).
Proof.
  induction l as [|o l IH]; intros q; cbn [foldl]; [change (messages []) with (@nil bytes); rewrite zlen_nil; destruct active; cbn [List.filter]; rewrite app_nil_r; split; done || lia|].
  destruct (IH (after_result q active o)) as [-> ->]. destruct o as [|m|r|]; cbn [after_result messages omap list_omap]; try done.
  fold (messages l). rewrite zlen_cons. destruct active; cbn [andb List.filter]; [|cbn; split; [lia|done]].
  destruct (negb _); cbn; rewrite <- ?app_assoc; split; done || lia.
Qed.
Lemma take_results_ok l : forall g c fw, asked g (fw_output fw) l -> wait_ok g c ->
  exists g' c', take_results (g, c, fw) (List.map Ok l) = Ok (g', c', MkFW (fw_state fw) (fw_input fw)
      (foldl (fun q o => after_result q (is_active (fw_state fw)) o) (fw_output fw) l)) /\
    (forall rid n, tasks_of g rid = Some n -> tasks_of g' rid = Some (n - applied rid l)) /\ wait_ok g' c' /\
    (waiting_for c' = waiting_for c \/ waiting_for c' = None) /\
    (forall rid, waiting_for c = Some rid -> waiting_for c' = None -> tasks_of g' rid = Some 0).
Proof.
  induction l as [|o l IH]; intros g c fw Ha Hw; cbn [List.map foldl].
  - exists g, c. split; [by destruct fw|]. split; [intros; change (applied rid []) with 0; by rewrite Z.sub_0_r|]. split; [done|]. split; [by left|].
    intros rid E1 E2. congruence.
  - destruct (take_result_ok _ _ _ _ _ Ha Hw) as (g1 & E1 & Ha1 & Hw1 & Hp1).
    destruct (IH g1 (waited g1 c) (MkFW (fw_state fw) (fw_input fw) (after_result (fw_output fw) (is_active (fw_state fw)) o)) Ha1 Hw1) as (g' & c' & E2 & Hp2 & Hw2 & Hc & He). exists g', c'.
    split. { unfold take_results. cbn [foldM]. rewrite E1. exact E2. }
    split. { intros rid n Hn. rewrite (Hp2 _ _ (Hp1 _ _ Hn)). f_equal. rewrite (applied_cons rid o l), (applied_cons rid o []). change (applied rid []) with 0. lia. }
    split; [done|]. unfold waited in Hc, He. destruct (waiting_for c) as [rid|] eqn:Ew.
    + destruct (bool_decide_reflect (tasks_of g1 rid = Some 0)) as [H0|H0]; cbn [waiting_for set_waiting_for] in Hc.
      * split; [right; by destruct Hc|]. intros ? [= <-] _. rewrite (Hp2 _ _ H0). f_equal. pose proof (applied_nonneg rid l).
        destruct (decide (applied rid l = 0)) as [->|Hn]; [done|]. destruct (as_applied _ _ _ Ha1 rid) as (n & ? & ?); [lia|]. simplify_eq. lia.
      * rewrite Ew in Hc. split; [done|]. intros ? [= <-]. by apply He.
    + rewrite Ew in Hc. split; [done|done].
Qed.

(** C12: the results of the worker threads are counted exactly: when each was asked for, all are
    taken; the messages are pushed in order (unless the direction is closed), no more are expected
    than have not come, each file has as many tasks fewer as were reported done, and a direction
    that waits for a file goes on exactly when no task of the file is left. *)
Theorem results_end_waiting l g c fw : asked g (fw_output fw) l -> wait_ok g c ->
  exists g' c' fw', take_results (g, c, fw) (List.map Ok l) = Ok (g', c', fw') /\
    expected_recvd_msgs (fw_output fw') = expected_recvd_msgs (fw_output fw) - zlen (messages l) /\
    other_messages (fw_output fw') = other_messages (fw_output fw) ++
      (if is_active (fw_state fw) then List.filter (fun m => negb (zlen m =? 0)) (messages l) else []) /\
    (forall rid n, tasks_of g rid = Some n -> tasks_of g' rid = Some (n - applied rid l)) /\
    (forall rid, waiting_for c = Some rid -> waiting_for c' = None <-> tasks_of g rid = Some (applied rid l)).
Proof.
  intros Ha Hw. destruct (take_results_ok l g c fw Ha Hw) as (g' & c' & E & Hp & Hw' & Hc & He). eexists g', c', _.
  split; [exact E|]. cbn [fw_output]. destruct (after_results_queue (is_active (fw_state fw)) l (fw_output fw)) as [-> ->].
  split; [done|]. split; [done|]. split; [exact Hp|]. intros rid Hr. destruct (Hw rid Hr) as (n & Hn & _). split; intros E0.
  - specialize (He rid Hr E0). rewrite (Hp _ _ Hn) in He. rewrite Hn. f_equal. injection He as He. lia.
  - destruct Hc as [Hc|Hc]; [|done]. rewrite Hr in Hc. destruct (Hw' rid Hc) as (k & Hk & Hk0).
    rewrite (Hp _ _ E0) in Hk. injection Hk as <-. lia.
Qed.
End Results.

(** ** Directions only close *)
Definition rank (s : DirectionState) : Z := match s with On => 0 | Drain => 1 | Off => 2 end.
(** A later state: draining is not undone, and what is closed stays closed. *)
Definition closes (s s' : DirectionState) : Prop := rank s <= rank s'.
Definition later (s s' : Loop) : Prop :=
  closes (fc_state (l_chan s)) (fc_state (l_chan s')) /\ closes (fw_state (l_way s)) (fw_state (l_way s')).
Lemma later_trans a b c : later a b -> later b c -> later a c.
Proof. unfold later, closes. intros [? ?] [? ?]. lia. Qed.
Lemma later_same s s' : fc_state (l_chan s') = fc_state (l_chan s) -> fw_state (l_way s') = fw_state (l_way s) -> later s s'.
Proof. unfold later, closes. intros -> ->. lia. Qed.

Section States.
Context `{L : CompLib} `{Sys, Gpu, SortUnstable, Refs, SfdSys, SfdGpu}.
Lemma protocol_loop_state fuel : forall region g c r, protocol_loop fuel region g c = Ok r -> fc_state r.2 = fc_state c.
Proof.
  induction fuel as [|fuel IH]; intros region g c r; [done|]. cbn [protocol_loop]. destruct (_ =? 0); [by intros [= <-]|].
  destruct (_ <? 8); [done|]. intros (hb & _ & E)%bind_Ok. cbv zeta in E. destruct (_ || _); [done|].
  apply bind_Ok in E as (m & _ & E). apply bind_Ok in E as (tail & _ & E). apply bind_Ok in E as (st & _ & E).
  apply bind_Ok in E as ([p st'] & _ & E). destruct (match transl st' with FromChannel x y | FromWayland x y => (x, y) end) as [rids fds].
  destruct p as [|[nb nf]|rid].
  - apply bind_Ok in E as (k & _ & E). apply bind_Ok in E as (l & _ & E). by apply IH in E.
  - destruct (_ || _); [done|]. by injection E as <-.
  - by injection E as <-.
Qed.
Lemma process_protocol_state view msg g c r : process_protocol view msg g c = Ok r -> fc_state r.2 = fc_state c.
Proof.
  unfold process_protocol. intros (_ & _ & E)%bind_Ok. apply bind_Ok in E as (region & _ & E).
  apply bind_Ok in E as ([[[stop rest] g1] c1] & El%protocol_loop_state & E). cbv zeta in E. cbn [snd] in El.
  destruct (_ <? _); [|injection E as <-; by destruct stop].
  apply bind_Ok in E as (k & _ & E). apply bind_Ok in E as (h & _ & E). apply bind_Ok in E as (v & _ & E).
  apply bind_Ok in E as (n & _ & E). apply bind_Ok in E as (v' & _ & [= <-]). by destruct stop.
Qed.
Lemma process_one_state comp view g c w r : process_one comp view g c w = Ok r -> fc_state r.1.2 = fc_state c.
Proof.
  intros E. unfold process_one in E. apply bind_Ok in E as (hb & _ & E). apply bind_Ok in E as ([len typ] & _ & E).
  apply bind_Ok in E as (c1 & Ec1 & E).
  assert (Hc1 : fc_state c1 = fc_state c) by (destruct typ; try (by injection Ec1 as <-); by apply bind_Ok in Ec1 as (n & _ & [= <-])).
  clear Ec1. apply bind_Ok in E as (msg & _ & E). cbv zeta in E. rewrite <- Hc1. destruct typ.
  1: { apply bind_Ok in E as ([[rest g1] c2] & Ep%process_protocol_state & E). by destruct rest; injection E as <-. }
  all: try (apply bind_Ok in E as (? & _ & E)); repeat (match type of E with (if ?b then _ else _) = _ => destruct b; [try done|try done] end);
    try (apply bind_Ok in E as (? & ? & E)); try (apply bind_Ok in E as (? & ? & E)); try done; try injection E as <-; try done.
  match goal with Hi : inject_rids _ _ _ _ _ = Ok _ |- _ => apply inject_rids_chan in Hi as [l Hl]; cbn; by rewrite Hl end.
Qed.
Lemma channel_loop_state comp fuel : forall g c w r, channel_loop comp fuel g c w = Ok r -> fc_state r.1.2 = fc_state c.
Proof.
  induction fuel as [|fuel IH]; intros g c w r; [done|]. cbn [channel_loop]. destruct (next_msg c); [|by intros [= <-]].
  intros ([[[more g1] c1] w1] & E1%process_one_state & E)%bind_Ok. cbn [fst snd] in E1. destruct more; [|by injection E as <-].
  destruct (pop_next_msg (fc_input c1)) as [m i]. apply IH in E. by rewrite E.
Qed.
Lemma take_results_state l : forall x y, take_results x l = Ok y ->
  fc_state y.1.2 = fc_state x.1.2 /\ fw_state y.2 = fw_state x.2.
Proof.
  induction l as [|o l IH]; intros [[g c] fw] y; [by intros [= <-]|]. unfold take_results. cbn [foldM].
  intros ([[g1 c1] fw1] & E1 & E)%bind_Ok. apply IH in E. cbn [fst snd] in *. destruct E as [-> ->].
  cbn [take_result] in E1. apply bind_Ok in E1 as ([g2 fw2] & E2 & E1).
  assert (Hf : fw_state fw2 = fw_state fw).
  { destruct o as [[|m|r|]| |]; try done; [apply bind_Ok in E2 as (n & _ & E2); by injection E2 as _ <-|].
    destruct (decide _); [done|]. destruct (map g !! r); [|done]. apply bind_Ok in E2 as (_ & _ & E2). by apply bind_Ok in E2 as (s1 & _ & [= _ <-]). }
  destruct (waiting_for c); [|by injection E1 as _ <- <-]. apply bind_Ok in E1 as (s & _ & E1). apply bind_Ok in E1 as (n & _ & E1).
  injection E1 as _ <- <-. split; [by destruct (n =? 0)|done].
Qed.
Lemma vulkan_state g c w r : process_vulkan_updates g c w = Ok r -> fc_state r.1.2 = fc_state c.
Proof.
  unfold process_vulkan_updates. destruct (dmabuf_device g); try done. intros (cur & _ & E)%bind_Ok. apply bind_Ok in E as (x & _ & E).
  cbv zeta in E. apply bind_Ok in E as (c1 & Ec & [= <-]). cbn [fst snd]. destruct (waiting_for c); [|by injection Ec as <-].
  apply bind_Ok in Ec as (s & _ & Ec). injection Ec as <-. destruct s; try done. by destruct (_ =? 0).
Qed.
End States.

Section Round.
Context `{L : CompLib} `{Sys, Gpu, SortUnstable, Refs, SfdSys, SfdGpu}.
Lemma io_prog_state s w r x : io_prog s w r = Ok x -> fc_state (l_chan x.2) = fc_state (l_chan s) /\ fw_state (l_way x.2) = fw_state (l_way s).
Proof.
  unfold io_prog. destruct (negb _); [by intros [= <-]|]. cbv zeta. intros ([re i] & _ & E)%bind_Ok.
  apply bind_Ok in E as ([[we g] c] & Ey & [= <-]). cbn. split; [|done]. destruct (_ && _); [|by injection Ey as _ _ <-].
  apply bind_Ok in Ey as ([[now m] o] & _ & [= _ _ <-]). done.
Qed.
Lemma io_chan_state s w r x : io_chan s w r = Ok x -> fc_state (l_chan x.2) = fc_state (l_chan s) /\ fw_state (l_way x.2) = fw_state (l_way s).
Proof.
  unfold io_chan. destruct (negb _); [by intros [= <-]|]. cbv zeta. intros ([re c] & Ec & E)%bind_Ok.
  apply bind_Ok in E as ([we q] & _ & [= <-]). cbn. split; [|done]. destruct (_ && _); [|by injection Ec as _ <-].
  unfold read_from_channel in Ec. apply bind_Ok in Ec as ([[eof ?] i] & _ & Ec). destruct (next_msg _); [by injection Ec as _ <-|].
  destruct (pop_next_msg i). by injection Ec as _ <-.
Qed.
Lemma eofs_later s a b c d : later s (process_eofs s a b c d).
Proof. unfold later, closes, process_eofs. cbn. destruct (fc_state (l_chan s)), (fw_state (l_way s)), a, b, c, d; cbn; lia. Qed.
Lemma events_state s v t d r s' : process_events s v t d r = Ok s' ->
  fc_state (l_chan s') = fc_state (l_chan s) /\ fw_state (l_way s') = fw_state (l_way s).
Proof.
  unfold process_events. intros (tu & _ & E)%bind_Ok. apply bind_Ok in E as (p & _ & E). apply bind_Ok in E as (t1 & _ & E). cbv zeta in E.
  apply bind_Ok in E as (w & _ & E). apply bind_Ok in E as ([[g c] w1] & Ev & E). apply bind_Ok in E as ([[g2 c2] fw2] & Ex & [= <-]). cbn [l_chan l_way].
  assert (Hc : fc_state c = fc_state (l_chan s)) by (destruct tu; [by apply vulkan_state in Ev|by injection Ev as _ <- _]).
  destruct (r_wake r); [by injection Ex as _ <- <-| |by injection Ex as _ <- <-]. apply take_results_state in Ex. cbn [fst snd fw_state] in Ex. by rewrite <- Hc.
Qed.
Lemma wayland_1_state comp g fw w r : process_wayland_1 comp g fw w = Ok r -> fw_state r.1.2 = fw_state fw.
Proof.
  unfold process_wayland_1. cbv zeta. intros (rg & _ & E)%bind_Ok. apply bind_Ok in E as ([[[n g1] fds] q] & _ & E).
  apply bind_Ok in E as (len & _ & E). apply bind_Ok in E as (rest & _ & E). apply bind_Ok in E as (data & _ & E).
  apply bind_Ok in E as ([[[g2 q2] w2] dl] & _ & E). apply bind_Ok in E as (g3 & _ & [= <-]). done.
Qed.
Lemma way_input_state comp s s' : process_way_input comp s = Ok s' -> l_chan s' = l_chan s /\ fw_state (l_way s') = fw_state (l_way s).
Proof.
  unfold process_way_input. destruct (negb _); [by intros [= <-]|]. intros (proc & _ & E)%bind_Ok. cbv zeta in E.
  apply bind_Ok in E as ([[g fw] w] & Ex & E). apply bind_Ok in E as (q & _ & [= <-]). cbn [l_chan l_way fw_state]. split; [done|].
  destruct (_ && _); [exact (wayland_1_state _ _ _ _ _ Ex)|by injection Ex as _ <- _].
Qed.
Lemma chan_input_state comp s s' : process_chan_input comp s = Ok s' -> fc_state (l_chan s') = fc_state (l_chan s) /\ l_way s' = l_way s.
Proof.
  unfold process_chan_input. cbv zeta. destruct (_ && _); [|by intros [= <-]].
  intros ([[g c] w] & Ex & [= <-])%bind_Ok. cbn. split; [|done]. unfold process_channel in Ex. apply channel_loop_state in Ex. exact Ex.
Qed.
Lemma ack_state s s' : inject_ack s = Ok s' -> l_chan s' = l_chan s /\ fw_state (l_way s') = fw_state (l_way s).
Proof. unfold inject_ack. destruct (_ && _); [|by intros [= <-]]. intros (q & _ & [= <-])%bind_Ok. done. Qed.
Lemma finish_later s s' : finish_drain s = Ok s' -> later s s'.
Proof.
  unfold finish_drain. cbv zeta. intros (p & _ & [= <-])%bind_Ok. unfold later, closes. cbn [l_chan l_way].
  destruct (fc_state (l_chan s)) eqn:E1, (fw_state (l_way s)) eqn:E2; repeat case_match; cbn; rewrite ?E1, ?E2; cbn; lia.
Qed.
Lemma finish_drains s s' : finish_drain s = Ok s' ->
  (fc_state (l_chan s') = Drain -> fc_state (l_chan s) = Drain) /\ (fw_state (l_way s') = Drain -> fw_state (l_way s) = Drain).
Proof.
  unfold finish_drain. cbv zeta. intros (p & _ & [= <-])%bind_Ok. cbn [l_chan l_way]. split; repeat case_match; cbn; done.
Qed.

(** What a round makes of the states: it reads and writes, reacts to what ended, and may finish draining. *)
Lemma round_states comp s r s' : loop_round comp s r = Ok (Some s') -> exists w a b s1 c e s2 s7,
  wanted s = Ok w /\ io_prog s w r = Ok (a, b, s1) /\ io_chan s1 w r = Ok (c, e, s2) /\
  fc_state (l_chan s7) = fc_state (l_chan (process_eofs s2 a b c e)) /\
  fw_state (l_way s7) = fw_state (l_way (process_eofs s2 a b c e)) /\ finish_drain s7 = Ok s'.
Proof.
  unfold loop_round. intros (w & Ew & E)%bind_Ok. cbv zeta in E. apply bind_Ok in E as (d & _ & E). destruct (r_sigint r); [done|].
  apply bind_Ok in E as (_ & _ & E). apply bind_Ok in E as ([[a b] s1] & E1 & E).
  apply bind_Ok in E as ([[c e] s2] & E2 & E). apply bind_Ok in E as (s3 & E3 & E).
  apply bind_Ok in E as (s4 & E4 & E). apply bind_Ok in E as (s5 & E5 & E).
  apply bind_Ok in E as (s6 & E6 & E). apply bind_Ok in E as (s7 & E7 & E8). assert (s7 = s') as -> by congruence. clear E8.
  apply events_state in E3. apply way_input_state in E4 as [E4 E4'].
  apply chan_input_state in E5 as [E5 E5']. apply ack_state in E6 as [E6 E6'].
  exists w, a, b, s1, c, e, s2. eexists. split; [done|]. split; [done|]. split; [done|]. split; [|split; [|exact E7]]; cbn [l_chan l_way].
  - rewrite E6, E5, E4. apply E3.
  - rewrite E6', E5', E4'. apply E3.
Qed.
Lemma round_later comp s r s' : loop_round comp s r = Ok (Some s') -> later s s'.
Proof.
  intros (w & a & b & s1 & c & e & s2 & s7 & _ & E1%io_prog_state & E2%io_chan_state & F1 & F2 & E7%finish_later)%round_states. cbn [snd] in *.
  eapply later_trans; [|exact E7]. eapply later_trans; [apply later_same; [apply E1|apply E1]|].
  eapply later_trans; [apply later_same; [apply E2|apply E2]|]. eapply later_trans; [apply (eofs_later s2 a b c e)|].
  by apply later_same.
Qed.

(** The end of the input: no bytes, or a reset. *)
Definition prog_ended (r : Round) : Prop :=
  exists t, r_recvmsg r t = RECONNRESET \/ exists cmsgs, r_recvmsg r t = Received [] cmsgs.
Definition chan_ended (r : Round) : Prop := exists t, r_readv r t = ECONNRESET \/ r_readv r t = Read [].
Lemma read_inner_ended total readv x : read_inner total readv = Ok (true, x) -> exists t, readv t = ECONNRESET \/ readv t = Read [].
Proof.
  unfold read_inner. intros (_ & _ & E)%bind_Ok. destruct (readv total) as [d| | | |] eqn:Er; try done; [|by exists total; left].
  exists total. right. injection E as E _. by rewrite (zlen_zero_nil d) in Er by lia.
Qed.
Lemma read_more_ended i readv x i' : read_more i readv = Ok (true, x, i') -> exists t, readv t = ECONNRESET \/ readv t = Read [].
Proof.
  assert (Ho : forall b y, read_with_old b readv = Ok (true, x, y) -> exists t, readv t = ECONNRESET \/ readv t = Read []).
  { intros b y. unfold read_with_old. intros E. do 6 (apply bind_Ok in E as (? & _ & E); cbv zeta in E).
    apply bind_Ok in E as ([eof data] & Er & E). destruct (_ <? _); [injection E as -> _ _; by eapply read_inner_ended|].
    apply bind_Ok in E as (? & _ & E). apply bind_Ok in E as (? & _ & E). injection E as -> _ _. by eapply read_inner_ended. }
  assert (Hc : forall b y, read_current b readv = Ok (true, x, y) -> exists t, readv t = ECONNRESET \/ readv t = Read []).
  { intros b y. unfold read_current. intros E. do 4 (apply bind_Ok in E as (? & _ & E)).
    apply bind_Ok in E as ([eof data] & Er & E). apply bind_Ok in E as (? & _ & E). injection E as -> _ _. by eapply read_inner_ended. }
  unfold read_more. destruct (ReadBuffer.old i); [by apply Ho|]. intros (av & _ & E)%bind_Ok. cbv zeta in E. destruct (4 <=? av).
  - apply bind_Ok in E as (ml & _ & E). destruct (_ <? _).
    + apply bind_Ok in E as (? & _ & E). apply bind_Ok in E as (? & _ & E). by eapply Hc.
    + destruct (_ <=? _); [apply bind_Ok in E as (? & _ & E); by eapply Ho|by eapply Hc].
  - apply bind_Ok in E as (? & _ & E). destruct (_ <=? _); [apply bind_Ok in E as (? & _ & E); by eapply Hc|by eapply Hc].
Qed.
Lemma io_prog_ended s w r b s1 : io_prog s w r = Ok (true, b, s1) -> prog_ended r.
Proof.
  unfold io_prog. destruct (negb _); [done|]. cbv zeta. intros ([eof i] & Ex & E)%bind_Ok.
  apply bind_Ok in E as ([[we g] c] & _ & [= -> _ _]). destruct (_ && _); [|done]. unfold read_from_socket in Ex.
  destruct (_ =? _); [done|]. apply bind_Ok in Ex as (space & _ & Ex). exists (zlen space).
  destruct (r_recvmsg r (zlen space)) as [d cm| | | |]; try done; [|by left]. right. exists cm.
  apply bind_Ok in Ex as (? & _ & Ex). apply bind_Ok in Ex as (? & _ & Ex). apply bind_Ok in Ex as (? & _ & [= Ez _]).
  by rewrite (zlen_zero_nil d) by lia.
Qed.
Lemma io_chan_ended s w r b s1 : io_chan s w r = Ok (true, b, s1) -> chan_ended r.
Proof.
  unfold io_chan. destruct (negb _); [done|]. cbv zeta. intros ([eof c] & Ex & E)%bind_Ok.
  apply bind_Ok in E as ([we q] & _ & [= -> _ _]). destruct (_ && _); [|done]. unfold read_from_channel in Ex.
  apply bind_Ok in Ex as ([[eof n] i] & Er & Ex). assert (eof = true) as ->; [|by eapply read_more_ended].
  destruct (next_msg (l_chan s)); [by injection Ex as -> _|]. destruct (pop_next_msg i). by injection Ex as -> _.
Qed.
Lemma round_drains comp s r s' : loop_round comp s r = Ok (Some s') ->
  (fw_state (l_way s) = On -> fw_state (l_way s') = Drain -> prog_ended r) /\
  (fc_state (l_chan s) = On -> fc_state (l_chan s') = Drain -> chan_ended r).
Proof.
  intros (w & a & b & s1 & c & e & s2 & s7 & _ & E1 & E2 & F1 & F2 & [G1 G2]%finish_drains)%round_states.
  pose proof (io_prog_state _ _ _ _ E1) as [P1 P2]. pose proof (io_chan_state _ _ _ _ E2) as [Q1 Q2]. cbn [snd] in *.
  unfold process_eofs in F1, F2. cbn in F1, F2. rewrite Q1, P1 in F1. rewrite Q2, P2 in F2. split.
  - intros Hs Hd%G2. rewrite F2, Hs in Hd. destruct a; [by eapply io_prog_ended|]. by destruct (c || e).
  - intros Hs Hd%G1. rewrite F1, Hs in Hd. destruct c; [by eapply io_chan_ended|]. by destruct (a || b).
Qed.
Lemma loop_later comp rounds : forall s s', loop_inner comp s rounds = Ok s' -> later s s'.
Proof.
  induction rounds as [|r rounds IH]; intros s s'; cbn [loop_inner]; [intros [= <-]; by apply later_same|].
  destruct (negb _); [intros [= <-]; by apply later_same|]. intros (x & E1 & E)%bind_Ok.
  destruct x as [s1|]; [|injection E as <-; by apply later_same]. apply round_later in E1. apply IH in E. by eapply later_trans.
Qed.

(** C17: a direction of the connection only closes: it is on, then drains, then is off, over any
    number of rounds. It starts to drain in a round whose read reported the end of the input (no bytes, or a
    reset), so all of the input was read by then; while it drains nothing is read for it, contrary to the comment of
    [DirectionState], which says that remaining input is; and once it is off nothing is written. *)
Theorem directions_only_close comp rounds s s' : loop_inner comp s rounds = Ok s' ->
  closes (fc_state (l_chan s)) (fc_state (l_chan s')) /\ closes (fw_state (l_way s)) (fw_state (l_way s')) /\
  (forall w, wanted s' = Ok w ->
     (fc_state (l_chan s) <> On -> read_chan w = false) /\ (fc_state (l_chan s) = Off -> write_way w = false) /\
     (fw_state (l_way s) <> On -> read_way w = false) /\ (fw_state (l_way s) = Off -> write_chan w = false)) /\
  (forall r s1, loop_round comp s' r = Ok (Some s1) ->
     (fw_state (l_way s') = On -> fw_state (l_way s1) = Drain -> prog_ended r) /\
     (fc_state (l_chan s') = On -> fc_state (l_chan s1) = Drain -> chan_ended r)).
Proof.
  intros [Hc Hf]%loop_later. split; [done|]. split; [done|]. split; [|intros r s1; apply round_drains].
  unfold closes in *. intros w (p & _ & [= <-])%bind_Ok.
  cbn [read_chan read_way write_chan write_way].
  destruct (fc_state (l_chan s)) eqn:E1, (fc_state (l_chan s')) eqn:E2; cbn in Hc; try lia;
    destruct (fw_state (l_way s)) eqn:E3, (fw_state (l_way s')) eqn:E4; cbn in Hf; try lia; cbn [is_active];
    rewrite ?andb_false_r, ?(bool_decide_eq_false_2 (Drain = On)), ?(bool_decide_eq_false_2 (Off = On)), ?andb_false_r by done; done.
Qed.
End Round.

(** ** The end: what is queued, then the last message *)
Definition no_empty (q : TransferQueue) : Prop := Forall (fun m => m <> []) (other_messages q).
(** [poll] reports that the channel can be written to, and some of it is taken. *)
Definition willing (a : EndAnswer unit) : Prop :=
  e_sigint a = false /\ POLLOUT (e_flags a) = true /\ POLLHUP (e_flags a) = false /\ writev_ok (e_write a) /\
  forall t, 0 < t -> exists n, e_write a t = Wrote n /\ 0 < n.

Lemma output_unsent q : queue_ok q -> header_ready q -> no_empty q -> has_from_way_output q = (0 <? zlen (unsent q)).
Proof.
  intros Hq Hr Hn. unfold has_from_way_output. destruct (qo_noack _ Hq) as [-> ->]. rewrite send_protocol_header by done.
  destruct (qo_written _ Hq) as [Hw Ht]. unfold unsent, total, protocol_part in *.
  assert (Hz : zlen (drop (Z.to_nat (nbytes_written q)) (concat (other_messages q) ++
    (if protocol_header_added q then take (Z.to_nat (protocol_len q)) (protocol_data q) else []))) =
    zlen (concat (other_messages q) ++ (if protocol_header_added q then take (Z.to_nat (protocol_len q)) (protocol_data q) else [])) - nbytes_written q).
  { destruct Ht as [Ht|[-> ->]]; [|done]. unfold zlen in *. rewrite length_drop. lia. }
  rewrite Hz. destruct (other_messages q) as [|m l] eqn:Em; cbn [negb orb].
  - destruct (protocol_header_added q) eqn:Eh; cbn [concat app andb orb].
    + destruct (qo_header _ Hq Eh) as (? & _). destruct (qo_proto _ Hq) as (? & ? & _).
      cbn [concat app] in Ht. assert (zlen (take (Z.to_nat (protocol_len q)) (protocol_data q)) = protocol_len q) by (unfold zlen in *; rewrite length_take; lia).
      destruct Ht as [Ht|[? Ht]]; [lia|rewrite Ht, zlen_nil in *; lia].
    + cbn [concat app] in Ht. change (zlen []) with 0 in *. destruct Ht; lia.
  - unfold no_empty in Hn. rewrite Em in Hn. apply Forall_cons in Hn as [Hn _]. destruct Ht as [Ht|[_ Ht]]; [lia|].
    cbn [concat] in Ht. apply app_eq_nil in Ht as [Ht _]. by apply app_eq_nil in Ht as [-> _].
Qed.
Lemma write_keeps_ready q writev closed w q' : queue_ok q -> header_ready q -> no_empty q ->
  write_to_channel q writev = Ok (closed, w, q') -> header_ready q' /\ no_empty q'.
Proof.
  intros Hq Hr Hn. unfold write_to_channel. intros (_ & _ & E)%bind_Ok. destruct (_ && _); [by injection E as _ _ <-|].
  apply bind_Ok in E as (_ & _ & E). apply bind_Ok in E as ([[iovs inj] partial] & _ & E). cbv zeta in E.
  destruct (writev _) as [n| | | | |]; try done; [|by injection E as _ _ <-..]. injection E as _ _ <-.
  unfold header_ready, no_empty, account, send_protocol in *. cbn [protocol_len expected_recvd_msgs protocol_header_added other_messages].
  split; [|by case_match; [constructor|]]. destruct (_ =? net_len q); cbn [andb]; [|done].
  destruct (0 <? protocol_len q) eqn:E1, (expected_recvd_msgs q =? 0) eqn:E2; cbn [andb] in *; rewrite ?E1; intros Hx; (discriminate Hx || auto).
Qed.
(** Writing when something is to be written takes some of it. *)
Lemma write_progress q writev closed w q' n : queue_ok q -> header_ready q -> 0 < zlen (unsent q) ->
  writev (zlen (unsent q)) = Wrote n -> writev_ok writev -> 0 < n -> write_to_channel q writev = Ok (closed, w, q') -> closed = false /\ 0 < zlen w.
Proof.
  intros Hq Hr Hz Hn Hv Hp E. unfold write_to_channel in E. apply bind_Ok in E as (_ & _ & E).
  destruct (net_len_total q Hq Hr) as [Hnet _]. destruct (qo_noack _ Hq) as [E1 E2]. rewrite E1, E2 in E.
  assert (Hnz : net_len q <> 0).
  { rewrite Hnet. intros H0. apply zlen_zero_nil in H0. unfold unsent in Hz. rewrite H0 in Hz. unfold zlen in Hz. rewrite length_drop in Hz. cbn [length] in Hz. lia. }
  rewrite (proj2 (Z.eqb_neq _ _) Hnz) in E. cbn [andb] in E. apply bind_Ok in E as (_ & _ & E).
  destruct (gather_noack q Hq Hr) as (iovs & partial & Eg & Ec & _). rewrite Eg in E. cbn [mbind res_bind] in E. rewrite Ec, Hn in E.
  injection E as <- <- _. split; [done|]. apply Hv in Hn. unfold zlen in *. rewrite length_take. lia.
Qed.
Lemma end_loop_delivers endmsg answers : Forall willing answers -> forall q nwritten,
  queue_ok q -> header_ready q -> no_empty q -> 0 <= nwritten <= zlen endmsg ->
  zlen (unsent q) + (zlen endmsg - nwritten) <= zlen answers ->
  exists q', end_loop answers q endmsg nwritten = Ok (unsent q ++ drop (Z.to_nat nwritten) endmsg, q') /\ unsent q' = [].
Proof.
  induction 1 as [|a answers (Hs & Ho & Hh & Hv & Ha) _ IH]; intros q nw Hq Hr Hn Hw Hl.
  - change (zlen []) with 0 in Hl. zlen_pos. exists q. cbn [end_loop]. rewrite (zlen_zero_nil (unsent q)) by lia.
    split; [|done]. f_equal. f_equal. cbn [app]. rewrite drop_ge; [done|]. unfold zlen in *. lia.
  - cbn [end_loop]. rewrite (output_unsent q) by done. zlen_pos. rewrite zlen_cons in Hl.
    assert (Hu : zlen (unsent q) = 0 -> unsent q = []) by apply zlen_zero_nil.
    destruct (Z.ltb_spec 0 (zlen (unsent q))) as [Hz|Hz]; cbn [orb negb].
    + rewrite Hs, Ho. pose proof (write_noack q (e_write a) Hq Hr Hv) as Hwr. destruct (Ha _ Hz) as (n & Hn1 & Hn2).
      destruct (write_to_channel q (e_write a)) as [[[closed w] q1]| |] eqn:Ew; [|by rewrite Hwr in Hn1|done]. destruct Hwr as [Hq1 Hsplit].
      destruct (write_keeps_ready _ _ _ _ _ Hq Hr Hn Ew) as [Hr1 Hn1']. cbn [mbind res_bind].
      assert (closed = false /\ 0 < zlen w) as [-> Hlw] by exact (write_progress _ _ _ _ _ _ Hq Hr Hz Hn1 Hv Hn2 Ew).
      assert (Hz1 : zlen (unsent q) = zlen w + zlen (unsent q1)) by by rewrite Hsplit, zlen_app.
      rewrite Hh. cbn [orb]. destruct (IH q1 nw) as (q' & -> & Hq'); [done..|lia|].
      exists q'. split; [|done]. cbn [mbind res_bind fst snd]. by rewrite Hsplit, app_assoc.
    + rewrite Hu by lia. destruct (Z.ltb_spec nw (zlen endmsg)); cbn [negb].
      * rewrite Hs, Ho. rewrite get_from_ok by lia. cbn [mbind res_bind]. 
        assert (Hd : zlen (drop (Z.to_nat nw) endmsg) = zlen endmsg - nw) by (unfold zlen in *; rewrite length_drop; lia).
        destruct (Ha (zlen (drop (Z.to_nat nw) endmsg))) as (n & En & Hn0); [lia|]. pose proof (Hv _ _ En) as Hb.
        unfold write_bytes. rewrite En. cbn [mbind res_bind fst snd]. rewrite Hh. cbn [orb].
        destruct (IH q (nw + n)) as (q' & -> & Hq'); [done..|lia|rewrite (Hu ltac:(lia)), zlen_nil; lia|].
        exists q'. split; [|done]. cbn [mbind res_bind fst snd app]. rewrite (Hu ltac:(lia)). cbn [app]. f_equal. f_equal.
        replace (Z.to_nat (nw + n)) with (Z.to_nat nw + Z.to_nat n)%nat by lia. by rewrite <- drop_drop, take_drop.
      * exists q. split; [|by apply Hu; lia]. rewrite drop_ge by (unfold zlen in *; lia). done.
Qed.
Lemma process_2_ready q q' : expected_recvd_msgs q = 0 -> no_empty q -> process_wayland_2 q = Ok q' -> header_ready q' /\ no_empty q'.
Proof.
  intros He Hn. unfold process_wayland_2. intros (q1 & E1 & E)%bind_Ok.
  assert (H1 : expected_recvd_msgs q1 = 0 /\ no_empty q1).
  { destruct (protocol_rids q); [by injection E1 as <-|]. apply bind_Ok in E1 as (v & Ev & [= <-]). split; [done|].
    unfold rid_message in Ev. apply bind_Ok in Ev as (h & _ & [= <-]). apply Forall_app. split; [done|]. by constructor. }
  destruct H1 as [He1 Hn1]. destruct (_ && _) eqn:Eb.
  - apply bind_Ok in E as (v & Ev & [= <-]). unfold header_ready, no_empty. cbn. split; [done|]. apply Forall_app. split; [done|].
    unfold protocol_header in Ev. apply bind_Ok in Ev as (h & _ & [= <-]). by constructor.
  - injection E as <-. split; [|done]. unfold header_ready, send_protocol. intros Hs.
    destruct (protocol_header_added q1); [done|]. cbn [negb] in Eb. lia.
Qed.
Lemma header_built t len h : build_wmsg_header t len = Ok h -> uN 27 len /\ h = len * 32 + wmsg_code t.
Proof.
  intros E. assert (Hl : uN 27 len).
  { unfold uN. destruct (Z.ltb_spec len 0) as [Hn|Hn].
    - unfold build_wmsg_header, checked, in_U in E. replace (0 <=? len) with false in E by lia. done.
    - destruct (Z.ltb_spec len (2 ^ 27)); [lia|]. by rewrite build_wmsg_header_too_long in E. }
  split; [done|]. rewrite build_wmsg_header_ok in E by done. congruence.
Qed.
(** The last bytes are whole messages: the error, if any, and [Close]. *)
Lemma end_message_whole error close em : end_message error close = Ok em -> exists ms, em = concat ms /\ Forall whole ms.
Proof.
  unfold end_message. intros (e & Ee & E)%bind_Ok.
  assert (He : exists ms, e = concat ms /\ Forall whole ms).
  { destruct error as [msg|]; [|injection Ee as <-; by exists []].
    cbv zeta in Ee. apply bind_Ok in Ee as (l & El & Ee). apply bind_Ok in Ee as (h & Eh & Ee). apply bind_Ok in Ee as (_ & Hm%assert_Ok & Ee).
    apply bind_Ok in Ee as (ev & Ev & Ee). exists [e]. split; [cbn; by rewrite app_nil_r|]. constructor; [|constructor].
    unfold error_event in Ev. cbv zeta in Ev. rewrite El in Ev. cbn [mbind res_bind] in Ev. apply bind_Ok in Ev as (w & Ew & Ev).
    apply write_msg_fits in Ew. assert (Hz : zlen ev = zlen (zeros l)) by (assert (ev = w.1 ++ w.2) as -> by congruence; by rewrite zlen_app).
    apply header_built in Eh as [Hl ->]. assert (e = to_le 4 ((4 + l) * 32 + wmsg_code Protocol) ++ ev) as -> by congruence.
    assert (0 <= l). { unfold length_msg in El. cbn [foldM mbind res_bind] in El. apply bind_Ok in El as (v & [-> Hv]%chk_Ok & [= <-]). apply Hv. }
    apply whole_message; [done|lia|lia|]. rewrite Hz. unfold zeros. rewrite zlen_replicate. lia. }
  destruct He as (ms & -> & Hms). destruct close; [|injection E as <-; by exists ms].
  apply bind_Ok in E as (h & Eh & E). apply header_built in Eh as [Hl ->].
  exists (ms ++ [to_le 4 (8 * 32 + wmsg_code Close) ++ to_le 4 0]). split.
  - rewrite concat_app. cbn [concat]. rewrite app_nil_r. congruence.
  - apply Forall_app. split; [done|]. constructor; [|constructor]. by apply whole_message.
Qed.

(** C16: nothing queued is lost when a connection without acknowledgements (wire version above 16) ends: if no
    task is awaited and the channel takes data, however little at a time, the bytes written are the rest of the queued
    messages, in whatever parts they were pushed, the pending [InjectRIDs] and [Protocol] messages, and then the
    last messages, whole: the error that ended the connection, and [Close]. *)
Theorem shutdown_delivers answers error fw close em ms :
  queue_ok (fw_output fw) -> no_empty (fw_output fw) -> expected_recvd_msgs (fw_output fw) = 0 ->
  end_message error close = Ok em -> wayland_2_messages (fw_output fw) = Ok ms -> Forall willing answers ->
  zlen (unsent (fw_output fw)) + zlen (concat ms) + zlen em <= zlen answers ->
  exists q' last, loop_end_to_channel answers error fw close = Ok (unsent (fw_output fw) ++ concat ms ++ em, q') /\
    unsent q' = [] /\ em = concat last /\ Forall whole (ms ++ last).
Proof.
  intros Hq Hn He Em E2 Ha Hl. destruct (process_wayland_2_ok _ Hq He) as (q1 & ms' & E1 & E2' & Hq1 & Hms & Hu).
  assert (ms' = ms) as -> by congruence. destruct (process_2_ready _ _ He Hn E1) as [Hr1 Hn1].
  destruct (end_message_whole _ _ _ Em) as (last & El & Hlast).
  destruct (end_loop_delivers em answers Ha q1 0) as (q' & Eq & Hq'); [done..|pose proof (zlen_nonneg em); lia|rewrite Hu, zlen_app; lia|].
  exists q', last. split; [|split; [done|split; [done|by apply Forall_app]]].
  unfold loop_end_to_channel. rewrite Em. cbn [mbind res_bind]. rewrite E1. cbn [mbind res_bind]. rewrite Eq, Hu, <- app_assoc. done.
Qed.

(** ** Concrete runs *)
(** A file with two tasks left, which is waited for, and a message that is expected. *)
Definition busy_glob : Globals :=
  demo_glob true Unknown setup_object_map {[ 5 := FileFd 9 (MkFile 5 false 64 64 false (Intervals []) None) 2 ]}.
Definition busy_chan : FromChan := set_waiting_for demo_chan (Some 5).
Definition busy_way : FromWay := MkFW On demo_ring (set_expected (new_queue (zeros 32)) 1).
Definition busy_results : list TaskOutput := [ApplyDone 5; OutMsg (to_le 4 7); ApplyDone 5].
Lemma results_end_waiting_witness : exists g' c' fw',
  @take_results all_held (busy_glob, busy_chan, busy_way) (List.map Ok busy_results) = Ok (g', c', fw') /\
  other_messages (fw_output fw') = [to_le 4 7] /\ waiting_for c' = None.
Proof.
  destruct (@results_end_waiting all_held busy_results busy_glob busy_chan busy_way) as (g' & c' & fw' & E & _ & Em & _ & Ew).
  - split; [done|by vm_compute|]. intros rid. unfold applied, busy_results. cbn [List.filter].
    destruct (Z.eqb_spec 5 rid) as [<-|]; [|intros Hp; by vm_compute in Hp].
    intros _. exists 2. by vm_compute.
  - intros rid [= <-]. exists 2. by vm_compute.
  - exists g', c', fw'. split; [done|]. split; [rewrite Em; by vm_compute|]. by apply (Ew 5).
Defined.

(** A round in which the program closed its socket: what it sent is drained, nothing more is sent to it. *)
Definition no_flags : PollFlags := MkFlags false false false false.
Definition eof_round : Round :=
  MkRound false WNothing (MkFlags true false false false) (fun _ => Received [] (Some [])) (fun _ _ => SEAGAIN)
    no_flags (fun _ => EAGAIN) (fun _ => WEAGAIN) WNothing [] [] [] [].
Definition idle_loop : Loop :=
  MkLoop (demo_glob false Unknown setup_object_map ∅) (MkFC On demo_input None [] (MkTW (zeros 12) 0 0 []) None 0)
    (MkFW On (MkInput (zeros 32) 0 []) (new_queue (zeros 32))) no_work.
Definition demo_loop_inner : Loop -> list Round -> res Loop :=
  @loop_inner stored demo_sys demo_gpu merge_sort_by all_held demo_pipes demo_devices CompNone.
Lemma directions_only_close_witness : exists s', demo_loop_inner idle_loop [eof_round] = Ok s' /\
  fw_state (l_way s') = Off /\ closes (fw_state (l_way idle_loop)) (fw_state (l_way s')).
Proof.
  destruct (demo_loop_inner idle_loop [eof_round]) as [s'| |] eqn:E; try (vm_compute in E; discriminate E).
  destruct (@directions_only_close stored demo_sys demo_gpu merge_sort_by all_held demo_pipes demo_devices CompNone _ _ _ E) as (_ & Hc & _).
  exists s'. split; [done|]. split; [|done]. vm_compute in E. by injection E as <-.
Defined.

(** A request not yet sent when the connection ends; the channel takes a byte at a time. *)
Definition last_way : FromWay := MkFW Off (MkInput [] 0 []) (set_protocol (new_queue []) demo_sync 12 []).
Definition one_byte : EndAnswer unit :=
  MkEnd false (MkFlags false true false false) (fun t => if t <=? 0 then WEAGAIN else Wrote 1) tt.
Lemma one_byte_willing : willing one_byte.
Proof.
  split_and!; try done; cbn.
  - intros t n. destruct (Z.leb_spec t 0); [done|]. intros [= <-]. lia.
  - intros t Ht. exists 1. by replace (t <=? 0) with false by lia.
Qed.
Definition last_close : bytes := to_le 4 (8 * 32 + 18) ++ to_le 4 0.
Definition last_protocol : bytes := to_le 4 (16 * 32) ++ demo_sync.
Lemma shutdown_delivers_witness : exists q',
  loop_end_to_channel (replicate 24 one_byte) None last_way true =
    Ok (unsent (fw_output last_way) ++ concat [last_protocol] ++ last_close, q') /\ unsent q' = [].
Proof.
  destruct (shutdown_delivers (replicate 24 one_byte) None last_way true last_close [last_protocol]) as (q' & last & E & Hu & _).
  - split; [done|by vm_compute|done|by vm_compute|split; [done|right; done]|by vm_compute].
  - by apply Forall_nil.
  - done.
  - by vm_compute.
  - by vm_compute.
  - apply Forall_replicate, one_byte_willing.
  - by vm_compute.
  - exists q'. split; [exact E|exact Hu].
Defined.

(** ** What goes wrong *)
(** A channel that takes all it is offered. *)
Definition all_taken : EndAnswer unit := MkEnd false (MkFlags false true false false) (fun t => Wrote t) tt.

(** All that is queued is protocol data whose tasks are running. *)
Record only_awaited (q : TransferQueue) : Prop := {
  oa_len : 0 < protocol_len q < 2 ^ 26 /\ protocol_len q mod 4 = 0;
  oa_tasks : 0 < expected_recvd_msgs q;
  oa_header : protocol_header_added q = false;
  oa_rids : protocol_rids q = [];
  oa_msgs : other_messages q = [];
  oa_written : nbytes_written q = 0;
  oa_acks : needs_new_ack q = false /\ ack_nwritten q = 0;
}.
Lemma awaited_no_output q : only_awaited q -> has_from_way_output q = false.
Proof.
  intros [Hl Ht _ _ Hm _ [Hn Ha]]. unfold has_from_way_output, send_protocol. rewrite Hm, Hn, Ha.
  replace (expected_recvd_msgs q =? 0) with false by lia. by rewrite !andb_false_r.
Qed.
(** The header is added, and written alone. *)
Lemma awaited_header q : only_awaited q -> exists q1 q2,
  process_wayland_2 q = Ok q1 /\ has_from_way_output q1 = true /\
  write_to_channel q1 (fun t => Wrote t) = Ok (false, to_le 4 ((protocol_len q + 4) * 32 + wmsg_code Protocol), q2) /\
  has_from_way_output q2 = false /\ protocol_len q2 = protocol_len q /\ protocol_header_added q2 = true.
Proof.
  intros [[Hl _] Ht Hh Hr Hm Hw [Hn Ha]]. destruct q; cbn in *; subst. unfold process_wayland_2, protocol_header. cbn.
  replace (0 <? protocol_len) with true by lia. cbn. rewrite build_wmsg_header_ok by (unfold uN; lia). cbn.
  set (h := to_le 4 _). eexists _, _. split; [done|]. split; [done|].
  unfold write_to_channel, net_len, gather, account, has_from_way_output, send_protocol. cbn -[h take].
  replace (expected_recvd_msgs =? 0) with false by lia. rewrite !andb_false_r.
  assert (Eh : zlen h = 4) by apply zlen_to_le4.
  assert (Ec : collect_message None (MkC 0 [] false 0) h = MkC 0 [h] false 0).
  { unfold collect_message, inject. cbn [c_nwritten c_iovs c_injected c_partial]. by rewrite Eh. }
  cbn -[h take collect_message]. rewrite Ec. cbn -[h take]. rewrite app_nil_r, Eh. cbn -[h take].
  rewrite take_ge by (unfold zlen in Eh; lia). split; [done|].
  assert (En : forall q0, other_messages q0 = [h] -> Channel.expected_recvd_msgs q0 = expected_recvd_msgs -> net_len q0 = 4).
  { intros q0 E1 E2. unfold net_len, send_protocol. rewrite E1, E2. replace (expected_recvd_msgs =? 0) with false by lia.
    rewrite andb_false_r. cbn -[h]. by rewrite Eh. }
  rewrite !En by done. cbn. replace (expected_recvd_msgs =? 0) with false by lia. by rewrite !andb_false_r.
Qed.
Lemma end_loop_stops answers q em n : has_from_way_output q = false -> zlen em <= n -> end_loop answers q em n = Ok ([], q).
Proof. intros Ho Hn. destruct answers; [done|]. cbn [end_loop]. rewrite Ho. by replace (n <? zlen em) with false by lia. Qed.
(** The header goes out alone, and the last messages follow it. *)
Lemma drain_drops_protocol s error close em answers : fw_state (l_way s) = Drain -> only_awaited (fw_output (l_way s)) ->
  is_from_way_processable (fw_input (l_way s)) (l_glob s) = Ok false -> end_message error close = Ok em ->
  exists s' h q', finish_drain s = Ok s' /\ fw_state (l_way s') = Off /\ l_way s' = MkFW Off (fw_input (l_way s)) (fw_output (l_way s)) /\
    protocol_header (protocol_len (fw_output (l_way s))) = Ok h /\
    loop_end_to_channel (all_taken :: all_taken :: answers) error (l_way s') close = Ok (h ++ em, q') /\
    protocol_len q' = protocol_len (fw_output (l_way s)) /\
    (zlen em < protocol_len (fw_output (l_way s)) -> framed (h ++ em) [] (h ++ em)).
Proof.
  intros Hd Hq Hp Em. set (q := fw_output (l_way s)) in *. destruct (oa_len _ Hq) as [Hl H4].
  destruct (awaited_header _ Hq) as (q1 & q2 & E1 & O1 & E2 & O2 & P2 & _). set (h := to_le 4 _) in E2.
  assert (Hh : protocol_header (protocol_len q) = Ok h).
  { unfold protocol_header. by rewrite build_wmsg_header_ok by (unfold uN; lia). }
  unfold finish_drain. rewrite Hp. cbn [mbind res_bind]. rewrite (bool_decide_eq_true_2 (fw_state (l_way s) = Drain)) by done.
  fold q. rewrite (awaited_no_output _ Hq). cbn [andb negb].
  eexists _, h, q2. split; [done|]. cbn [l_way fw_state fw_output]. split_and!; [done|done|exact Hh| |exact P2|].
  - unfold loop_end_to_channel. rewrite Em. cbn [mbind res_bind fw_output]. fold q. rewrite E1. cbn [mbind res_bind end_loop].
    rewrite O1. cbn [orb negb e_sigint e_flags e_write all_taken POLLOUT POLLHUP]. rewrite E2. cbn [mbind res_bind orb].
    rewrite O2. cbn [orb]. zlen_pos. destruct (Z.ltb_spec 0 (zlen em)); cbn [negb mbind res_bind fst snd].
    + rewrite get_from_ok by lia. cbn [mbind res_bind]. unfold write_bytes. rewrite drop_0. cbn [mbind res_bind fst snd orb].
      rewrite (end_loop_stops answers) by (done || lia). cbn [mbind res_bind fst snd]. rewrite app_nil_r.
      rewrite take_ge by (unfold zlen; lia). done.
    + by rewrite (zlen_zero_nil em) by lia.
  - intros He. constructor. right. assert (Eh : zlen h = 4) by apply zlen_to_le4.
    assert (W : whole (h ++ zeros (protocol_len q))).
    { apply whole_message; [unfold uN; lia|Z.div_mod_to_equations; lia|lia|rewrite zlen_zeros; lia]. }
    unfold whole in W. rewrite padded_len_app in W by lia. rewrite padded_len_app by lia. eexists. split; [exact W|].
    rewrite !zlen_app, zlen_zeros; lia.
Qed.
Lemma early_dmabuf_panics `{Sys, Gpu, Refs, SfdSys, SfdGpu} compression msg g w format : 76 <= zlen msg -> word msg 20 = Ok format ->
  dmabuf_device g = Unknown -> screencopy_restrictions g !! format = None -> advertised_modifiers g !! format = None ->
  process_sfd_msg compression OpenDMABUF (zlen msg) msg g w = Panic.
Proof.
  intros Hl Hf Hd Hs Ha. unfold process_sfd_msg. rewrite get_range_ok, slice_all by lia. cbn [mbind res_bind].
  replace (zlen msg <? 8) with false by lia. unfold open_dmabuf, word_i32, dmabuf_slice_get_first_stride.
  rewrite Hf. unfold word. rewrite !get_range_ok by lia. cbn [mbind res_bind].
  rewrite get_range_ok by (rewrite ?zlen_slice; lia). cbn [mbind res_bind].
  unfold modifier_choice. by rewrite Hs, Ha, Hd.
Qed.


(** The program closed its socket while a task for its last request was running. *)
Definition draining : Loop :=
  MkLoop (demo_glob false Unknown setup_object_map ∅) (MkFC On demo_input None [] (MkTW (zeros 12) 0 0 []) None 0)
    (MkFW Drain (MkInput (zeros 32) 0 []) (set_expected (set_protocol (new_queue []) demo_sync 12 []) 1)) no_work.
Definition open_dmabuf_msg : bytes :=
  to_le 4 (76 * 32 + 4) ++ to_le 4 5 ++ to_le 4 64 ++ to_le 4 4 ++ to_le 4 4 ++ to_le 4 875713112 ++ zeros 52.
(** Two by two pixels. *)
Definition small_dmabuf : ShadowFdDmabuf :=
  MkDmabuf 5 false (GbmBuf 2 2) None 875713112 0 Everything (Some 8) true [] false [] ∅ 0 0 false false.
