(* ===== verification/Defects.v ===== *)
(** * Exchanges that go wrong

    Some states that valid exchanges lead to are handled badly by [process_way_msg], whatever else the state holds:
    requests that are refused, panics, and events that are lost. *)
From Stdlib Require Import ZArith Lia.
From stdpp Require Import gmap sorting.
From S2P Require Import Prelude Util Damage Wire Protocol Mirror Kernel Compress Formats Geometry Time Tasks TrackState.
From S2P Require Import Arms GpuArms Tracking TrackingCorrect TrackingSafe Channel Sockets Sfds SfdsCorrect Loop LoopCorrect.
Local Open Scope Z_scope.
Import Util.Arith Util.Options.

Definition is_request (m : Msg) : bool := match g_id m with Request _ => true | Event _ => false end.
(** The bytes [msg] call [m] on the object [id], whose state is [x]. *)
Record calls (m : Msg) (msg : bytes) (st : St) (id : Z) (x : WpExtra) : Prop := {
  ca_len : 8 <= zlen msg < 2 ^ 16;
  ca_id : from_le (slice msg 0 4) = id;
  ca_word : from_le (slice msg 4 8) = zlen msg * 2 ^ 16 + code (g_id m);
  ca_obj : objects (glob st) !! id = Some (MkObject (g_intf m) x);
  ca_dir : Bool.eqb (on_display_side (glob st)) (from_channel st) = is_request m;
  ca_fds : bounded st;
}.
(** The table has the message. *)
Definition listed (m : Msg) (meth : WaylandMethod) : Prop :=
  (exists d, intf_data (g_intf m) = Ok d /\ lookup_method d (g_id m) = Some meth) /\ 0 <= code (g_id m) <= 255.

Section Defects.
Context `{L : CompLib} `{Sys, Gpu, SortUnstable, Refs, SfdSys, SfdGpu}.

Lemma calls_dispatch m meth msg st id x : listed m meth -> calls m msg st id x ->
  process_way_msg msg st = dispatch (g_intf m) (g_id m) meth (is_request m) msg st id (MkObject (g_intf m) x).
Proof.
  intros [(d & Ed & Em) Hc] [Hl Hi Hw Ho Hd Hb]. unfold process_way_msg. rewrite !get_range_ok by lia. cbn [mbind res_bind].
  rewrite Hi, Hw, Ho. replace (Z.shiftr _ 16) with (zlen msg) by (rewrite Z.shiftr_div_pow2 by lia; Z.div_mod_to_equations; lia).
  rewrite Z.eqb_refl. cbn [assert_ mbind res_bind obj_type]. rewrite Ed. cbn [mbind res_bind].
  replace (Z.land _ _) with (code (g_id m)).
  2: { change (Z.shiftl 1 11 - 1) with (Z.ones 11). rewrite Z.land_ones by lia. Z.div_mod_to_equations; lia. }
  rewrite Hd. replace (if is_request m then _ else _) with (g_id m) by (unfold is_request; by destruct (g_id m)).
  rewrite Em, assert_true by lia. cbn [mbind res_bind]. rewrite chk_in by by apply bounded_space. done.
Qed.

Ltac call m Hc := let Hm := fresh in
  assert (Hm : exists meth, listed m meth) by (eexists; split; [eexists; split; vm_compute; reflexivity|by vm_compute]);
  destruct Hm as [? Hm]; rewrite (calls_dispatch m _ _ _ _ _ Hm Hc); clear Hm.

Lemma check_room st n k r : 0 <= n <= zlen (dst st) -> bounded st -> check_space st n 0 k = r <-> k = r.
Proof.
  intros Hn Hb%bounded_space. unfold check_space, space_le. cbn [fst snd remaining_space] in *.
  unfold uN in Hb. by replace (_ && _) with true by lia.
Qed.
Lemma copy_msg_room msg st : zlen msg <= zlen (dst st) -> copy_msg msg st = Ok (wrote st (msg, drop (length msg) (dst st))).
Proof. intros Hd. unfold copy_msg. by rewrite put_ok. Qed.

(** ** The exchanges *)
Lemma viewport_refused msg st id sid o : calls req_wp_viewport_destroy msg st id (XViewport (Some sid)) ->
  zlen msg <= zlen (dst st) -> sid <> id -> objects (glob st) !! sid = Some o -> (forall s, extra o <> XSurface s) ->
  process_way_msg msg st = Err surface_type.
Proof.
  intros Hc Hd Hne Ho Hx. call req_wp_viewport_destroy Hc.
  change (dispatch _ _ _ _ _ _ _ _) with (arm_viewport_destroy msg st id (MkObject I.WpViewport (XViewport (Some sid)))).
  unfold arm_viewport_destroy. apply check_room; [pose proof (ca_len _ _ _ _ _ Hc); lia|apply (ca_fds _ _ _ _ _ Hc)|].
  rewrite copy_msg_room by done. cbn [mbind res_bind extra]. unfold upd_viewport_surface, set_extra, upd_objects. cbn.
  rewrite lookup_insert_ne, Ho by done. destruct (extra o); try done. by destruct (Hx s).
Qed.
Lemma frame_panics msg st id f sid : calls req_ext_image_copy_capture_frame_v1_destroy msg st id (XCaptureFrame f) ->
  zlen msg <= zlen (dst st) -> capture_session f = Some sid -> objects (glob st) !! sid = None -> process_way_msg msg st = Panic.
Proof.
  intros Hc Hd Hs Ho. assert (sid <> id) by (pose proof (ca_obj _ _ _ _ _ Hc); congruence).
  call req_ext_image_copy_capture_frame_v1_destroy Hc.
  change (dispatch _ _ _ _ _ _ _ _) with (arm_capture_frame_destroy msg st id (MkObject I.ExtImageCopyCaptureFrameV1 (XCaptureFrame f))).
  unfold arm_capture_frame_destroy. apply check_room; [pose proof (ca_len _ _ _ _ _ Hc); lia|apply (ca_fds _ _ _ _ _ Hc)|].
  rewrite copy_msg_room by done. cbn [mbind res_bind extra]. rewrite Hs. cbn. rewrite lookup_insert_ne, Ho by done. done.
Qed.
Lemma resize_waits msg st id rid fd f n : calls req_wl_shm_pool_resize msg st id (XShmPool rid) ->
  zlen msg <= zlen (dst st) -> map (glob st) !! rid = Some (FileFd fd f n) -> 0 < n ->
  process_way_msg msg st = Ok (WaitFor rid, st).
Proof.
  intros Hc Hd Hm Hn. call req_wl_shm_pool_resize Hc.
  change (dispatch _ _ _ _ _ _ _ _) with (arm_pool_resize msg st (MkObject I.WlShmPool (XShmPool rid))).
  unfold arm_pool_resize. apply check_room; [pose proof (ca_len _ _ _ _ _ Hc); lia|apply (ca_fds _ _ _ _ _ Hc)|].
  cbn [extra]. unfold file_has_pending_apply_tasks, get_sfd. rewrite Hm. cbn. by replace (0 <? n) with true by lia.
Qed.
Lemma modifiers_lost msg st id seen format hi lo mods :
  calls evt_zwp_linux_dmabuf_v1_modifier msg st id (XDmabuf seen) ->
  parse_msg evt_zwp_linux_dmabuf_v1_modifier msg = Ok [AUint format; AUint hi; AUint lo] ->
  on_display_side (glob st) = false -> format ∉ seen -> dmabuf_dev_modifier_list (dmabuf_device (glob st)) format = Ok mods ->
  zlen (dst st) < zlen mods * 20 < 2 ^ 64 ->
  exists st1, process_way_msg msg st = Ok (NeedsSpace (zlen mods * 20, 0), st1) /\
    objects (glob st1) !! id = Some (MkObject I.ZwpLinuxDmabufV1 (XDmabuf ({[format]} ∪ seen))) /\ out st1 = out st.
Proof.
  intros Hc Hp Hs Hf Hm Hd. call evt_zwp_linux_dmabuf_v1_modifier Hc.
  change (dispatch _ _ _ _ _ _ _ _) with (arm_dmabuf_modifier msg st id (MkObject I.ZwpLinuxDmabufV1 (XDmabuf seen))).
  unfold arm_dmabuf_modifier. rewrite Hp. cbn [mbind res_bind]. cbv zeta. rewrite Hs. cbn [extra]. rewrite decide_False by done.
  set (st1 := set_extra _ _ _ _). change (dmabuf_device (glob st1)) with (dmabuf_device (glob st)). rewrite Hm. cbn [mbind res_bind].
  change (length_fixed _) with (Ok 20). cbn [mbind res_bind]. zlen_pos. rewrite chk_in by (unfold uN; lia). cbn [mbind res_bind].
  unfold check_space, space_le. cbn [fst snd remaining_space]. change (dst st1) with (dst st).
  replace (zlen mods * 20 <=? zlen (dst st)) with false by lia. cbn [andb]. exists st1.
  split; [done|]. split; [|done]. apply lookup_insert_eq.
Qed.
Lemma seen_not_sent msg st id seen format hi lo :
  calls evt_zwp_linux_dmabuf_v1_modifier msg st id (XDmabuf seen) ->
  parse_msg evt_zwp_linux_dmabuf_v1_modifier msg = Ok [AUint format; AUint hi; AUint lo] ->
  on_display_side (glob st) = false -> format ∈ seen -> process_way_msg msg st = Ok (Done, st).
Proof.
  intros Hc Hp Hs Hf. call evt_zwp_linux_dmabuf_v1_modifier Hc.
  change (dispatch _ _ _ _ _ _ _ _) with (arm_dmabuf_modifier msg st id (MkObject I.ZwpLinuxDmabufV1 (XDmabuf seen))).
  unfold arm_dmabuf_modifier. rewrite Hp. cbn [mbind res_bind]. cbv zeta. rewrite Hs. cbn [extra]. by rewrite decide_True.
Qed.

Lemma no_values_table f : Forall (fun t => values t = []) (tranches f) ->
  exists ts, process_dmabuf_feedback f = Ok ([], set_tranches f ts).
Proof.
  intros Hv. unfold process_dmabuf_feedback. assert (E : List.concat (List.map values (tranches f)) = []).
  { induction Hv as [|t l Ht _ IH]; [done|]. cbn. by rewrite Ht. }
  rewrite E. cbn. assert (Hm : exists ts, mapM_res (tranche_indices []) (tranches f) = Ok ts).
  { clear E. induction Hv as [|t l Ht _ [ts IH]]; [by exists []|]. cbn [mapM_res].
    assert (Et : tranche_indices [] t = Ok (MkTranche (flags t) (values t) [] (device t))) by (unfold tranche_indices; by rewrite Ht).
    rewrite Et. cbn [mbind res_bind]. rewrite IH. by eexists. }
  destruct Hm as [ts ->]. cbn. by exists ts.
Qed.
Lemma no_format_panics msg st id f fd : calls evt_zwp_linux_dmabuf_feedback_v1_done msg st id (XFeedback f) ->
  on_display_side (glob st) = true -> processed f = false -> output_format_table f <> Some [] ->
  Forall (fun t => values t = []) (tranches f) -> memfd_create = Ok fd -> process_way_msg msg st = Panic.
Proof.
  intros Hc Hs Hp Ho Hv Hfd. call evt_zwp_linux_dmabuf_feedback_v1_done Hc.
  change (dispatch _ _ _ _ _ _ _ _) with (arm_feedback_done msg st id (MkObject I.ZwpLinuxDmabufFeedbackV1 (XFeedback f))).
  unfold arm_feedback_done, feedback_process. cbn [extra]. rewrite Hp, Hs. cbn [mbind res_bind].
  destruct (no_values_table f Hv) as [ts ->]. cbn [mbind res_bind]. rewrite decide_False by done. rewrite Hfd. done.
Qed.

Lemma limit_version_ok intf v : exists v', limit_version intf v = Ok v'.
Proof.
  unfold limit_version. destruct (List.find _ limited) as [i|] eqn:E; [|by eexists].
  apply find_some in E as [_ E]. destruct (intf_data i) as [d| |]; [|done..]. by eexists.
Qed.
Lemma syncobj_stored msg st id replay name version : calls evt_wl_registry_global msg st id (XRegistry replay) ->
  parse_msg evt_wl_registry_global msg = Ok [AUint name; AString (Some (String.list_byte_of_string SYNCOBJ)); AUint version] ->
  dmabuf_device (glob st) = Unknown -> zlen (dst st) < zlen msg ->
  exists v, process_way_msg msg st = Ok (NeedsSpace (zlen msg, 0),
    upd_objects st <[id := MkObject I.WlRegistry (XRegistry (replay ++ [(name, v)]))]>).
Proof.
  intros Hc Hp Hu Hd. pose proof (ca_len _ _ _ _ _ Hc) as Hl. call evt_wl_registry_global Hc.
  change (dispatch _ _ _ _ _ _ _ _) with (arm_registry_global msg st id (MkObject I.WlRegistry (XRegistry replay))).
  unfold arm_registry_global. rewrite Hp. cbn [mbind res_bind]. cbv zeta.
  change (name_of_bytes _) with SYNCOBJ. destruct (limit_version_ok SYNCOBJ version) as [v ->]. cbn [mbind res_bind].
  change (existsb _ _) with false. change (String.eqb SYNCOBJ DMABUF) with false. change (String.eqb SYNCOBJ SYNCOBJ) with true.
  cbn [mbind res_bind fst snd]. unfold syncobj_global. rewrite Hu. cbn [replay_of extra mbind res_bind obj_type].
  destruct (length_msg evt_wl_registry_global _) as [one| |] eqn:E1; [|vm_compute in E1; discriminate E1..]. cbn [mbind res_bind].
  replace (zlen msg + one * zlen _) with (zlen msg) by (change (zlen (@nil (Z * Z))) with 0; lia).
  rewrite (chk_in 64 (zlen msg)) by (unfold uN; lia). cbn [mbind res_bind].
  unfold check_space, space_le. cbn [fst snd remaining_space]. change (dst (upd_objects st _)) with (dst st).
  replace (zlen msg <=? zlen (dst st)) with false by lia. exists v. done.
Qed.

(** The loop that reads from the application does not expect to wait. *)
Lemma resize_panics compression g fw w msg tail id rid fd f n : let i := fw_input fw in let q := fw_output fw in
  let st := MkSt g (FromWayland (in_fds i) (protocol_rids q)) [] (drop (Z.to_nat (protocol_len q)) (protocol_data q)) in
  calls req_wl_shm_pool_resize msg st id (XShmPool rid) -> map g !! rid = Some (FileFd fd f n) -> 0 < n ->
  get_range (in_data i) 0 (in_len i) = Ok (msg ++ tail) -> zlen msg mod 4 = 0 -> zlen msg < zlen (in_data i) ->
  0 <= protocol_len q -> protocol_len q + zlen msg <= zlen (protocol_data q) ->
  process_wayland_1 compression g fw w = Panic.
Proof.
  intros i q st Hc Hm Hn Hr Hmod Hl Hq Hd. unfold process_wayland_1. fold i. rewrite Hr. cbn [mbind res_bind].
  pose proof (ca_len _ _ _ _ _ Hc) as Hlen. cbn [wayland_loop]. rewrite zlen_app. pose proof (zlen_nonneg tail).
  replace (_ <? 8) with false by lia.
  rewrite get_range_ok by (rewrite ?zlen_app; lia). cbn [mbind res_bind]. rewrite slice_app_l by lia. rewrite (ca_word _ _ _ _ _ Hc).
  replace (Z.shiftr _ 16) with (zlen msg).
  2: { rewrite Z.shiftr_div_pow2 by lia. change (code (g_id req_wl_shm_pool_resize)) with 2. Z.div_mod_to_equations; lia. }
  replace (zlen msg <? 8) with false by lia. rewrite Hmod. cbn [orb negb Z.eqb].
  replace (zlen (in_data i) <=? zlen msg) with false by lia. replace (_ <? zlen msg) with false by lia.
  rewrite get_range_ok by (rewrite ?zlen_app; lia). cbn [mbind res_bind]. rewrite slice_app_l, slice_all by lia.
  rewrite get_from_ok by (rewrite ?zlen_app; lia). cbn [mbind res_bind]. fold q. unfold buffer_st.
  rewrite get_from_ok by lia. cbn [mbind res_bind]. fold st.
  rewrite (resize_waits msg st id rid fd f n); [done|done| |done|done].
  cbn [dst st]. unfold zlen in *. rewrite length_drop. lia.
Qed.

End Defects.

(** ** Runs *)
(** The client makes a surface 4 and a viewport 5 for it, and destroys the surface; the display frees its id, and the
    client gives it to a callback. *)
Definition viewport_objects : gmap Z WpObject :=
  <[2 := MkObject I.WlCompositor XNone]> (<[3 := MkObject I.WpViewporter XNone]> setup_object_map).
Definition viewport_run : res St :=
  st ← demo_run [demo_msg 2 0 [4]; demo_msg 3 1 [5; 4]; demo_msg 4 0 []]
         (MkSt (demo_glob false Unknown viewport_objects ∅) (FromWayland [] []) [] demo_room);
  st ← demo_run [demo_msg 1 1 [4]] (with_transl st (FromChannel [] []));
  demo_run [demo_msg 1 0 [4]] (with_transl st (FromWayland [] [])).
(** The client makes a capture session 3 and a frame 5 of it, and destroys the session; the display frees its id. *)
Definition capture_run : res St :=
  st ← demo_run [demo_msg 2 0 [3; 4; 0]; demo_msg 3 0 [5]; demo_msg 3 1 []]
         (MkSt (demo_glob false Unknown
                  (<[2 := MkObject I.ExtImageCopyCaptureManagerV1 XNone]> setup_object_map) ∅)
            (FromWayland [] []) [] demo_room);
  st ← demo_run [demo_msg 1 1 [3]] (with_transl st (FromChannel [] []));
  Ok (with_transl st (FromWayland [] [])).
(** A pool whose file has a task left, and the request to resize it. *)
Definition resize_msg : bytes := demo_msg 2 2 [128].
Definition resize_glob : Globals :=
  demo_glob false Unknown (<[2 := MkObject I.WlShmPool (XShmPool 1)]> setup_object_map)
    {[ 1 := FileFd 9 (MkFile 1 false 64 64 false (Intervals []) None) 1 ]}.
Definition resize_way : FromWay := MkFW On (MkInput (resize_msg ++ zeros 20) 12 []) (new_queue (zeros 32)).
Definition modifier_state (seen : gset Z) (room : bytes) : St :=
  MkSt (demo_glob false Vulkan (<[2 := MkObject I.ZwpLinuxDmabufV1 (XDmabuf seen)]> setup_object_map) ∅)
    (FromChannel [] []) [] room.
Definition modifier_msg : bytes := demo_msg 2 1 [1; 0; 0].
Definition syncobj_msg : bytes :=
  match write_msg evt_wl_registry_global demo_room 2 false
          [AUint 7; AString (Some (String.list_byte_of_string SYNCOBJ)); AUint 1] with Ok w => w.1 | _ => [] end.
Definition registry_state (replay : list (Z * Z)) (room : bytes) : St :=
  MkSt (demo_glob false Unknown (<[2 := MkObject I.WlRegistry (XRegistry replay)]> setup_object_map) ∅)
    (FromChannel [] []) [] room.
(** Feedback of which no format is supported: table index 0, and the end of the tranche. *)
Definition feedback_state : St :=
  MkSt (demo_glob true Vulkan (<[2 := MkObject I.ZwpLinuxDmabufFeedbackV1 (XFeedback
          (MkFeedback (Some [(9, 0)]) None None [] no_tranche false None))]> setup_object_map) ∅)
    (FromWayland [] []) [] demo_room.
Definition feedback_run : res St :=
  demo_run [to_le 4 2 ++ to_le 4 (Z.shiftl 16 16 + 5) ++ to_le 4 2 ++ to_le 4 0; demo_msg 2 3 []] feedback_state.

Ltac calls_now := split; vm_compute; done.
