(* ===== verification/WaitThread.v ===== *)
(** * [src/mainloop.rs]: the thread that waits for the Vulkan timeline

    Where the main timeline semaphore of the device cannot be polled, [vulkan_wait_thread] waits for the point
    that [loop_inner] asks for and writes eight bytes to a pipe that the loop polls. The two share
    [VulkanWaitThreadInner], under a mutex, with a condition variable.

    A [step] is a critical section of either side, with what comes before the next one. [System]
    adds the pipe, where each of the two is, the value of the semaphore and the points asked for. The
    answers of [write] and of the device are those that their manuals allow: a pipe that is empty
    has room, and a wait succeeds only when the point was reached. *)

From S2P Require Import Prelude Util.
From stdpp Require Import relations.
Local Open Scope Z_scope.

(** ** The shared state and the thread *)
Record VulkanWaitThreadInner := MkInner {
  pending_read : bool; target_sequence_point : option Z; stop : bool; error : option string }.

(** What [write] returns; [WFails] is any other error. *)
Inductive write_ret := Written | WEINTR | WEAGAIN | WEPIPE | WFails.
(** The pipe afterwards, and whether the other end is still there; [None] while it is interrupted. *)
Fixpoint wakeup_fd (answers : list write_ret) (val pipe : bytes) : option (res (bool * bytes)) :=
  match answers with
  | [] => None
  | Written :: _ => Some (Ok (true, pipe ++ val))
  | WEINTR :: answers => wakeup_fd answers val pipe
  | WEAGAIN :: _ => Some (Ok (true, pipe))
  | WEPIPE :: _ => Some (Ok (false, pipe))
  | WFails :: _ => Some Panic
  end.

(** Where the thread is: in [notify.wait], or notified (or not yet started); in [wait_for_timeline_pt], or after
    it; at its end. *)
Inductive Waiter := Sleeps | Notified | Waits (pt : Z) | Waited (r : res bool) | Gone.
(** The head of the loop. *)
Definition next_wait (i : VulkanWaitThreadInner) : Waiter :=
  if stop i then Gone else
  match target_sequence_point i with
  | None => Sleeps
  | Some pt => Waits pt
  end.
Definition long_zero : bytes := replicate 8 Byte.x00.
Arguments long_zero : simpl never.
(** The rest of the body, after the wait. *)
Definition after_wait (answers : list write_ret) (r : res bool) (i : VulkanWaitThreadInner) (pipe : bytes) :
  option (res (VulkanWaitThreadInner * bytes * Waiter)) :=
  let go_on (i : VulkanWaitThreadInner) (pipe : bytes) :=
    match r with
    | Err e => Some (Ok (MkInner (pending_read i) (target_sequence_point i) (stop i) (Some e), pipe, Gone))
    | Ok true =>
        let i := MkInner (pending_read i) None (stop i) (error i) in Some (Ok (i, pipe, next_wait i))
    | Ok false => Some (Ok (i, pipe, next_wait i))
    | Panic => Some Panic
    end in
  if pending_read i then go_on i pipe else
  match wakeup_fd answers long_zero pipe with
  | None => None
  | Some (Ok (true, pipe)) => go_on (MkInner true (target_sequence_point i) (stop i) (error i)) pipe
  | Some (Ok (false, pipe)) => Some (Ok (i, pipe, Gone))
  | Some _ => Some Panic
  end.

(** ** The main loop's part *)
Definition new_inner (first_pt : Z) : VulkanWaitThreadInner := MkInner false (Some first_pt) false None.
Definition request (first_pt : Z) (i : VulkanWaitThreadInner) : VulkanWaitThreadInner :=
  MkInner (pending_read i) (Some first_pt) (stop i) (error i).
(** [notify_all] *)
Definition notify (w : Waiter) : Waiter := match w with Sleeps => Notified | w => w end.
(** [read] of eight bytes, of a pipe that polls as readable. *)
Definition read_wakeup (pipe : bytes) : res bytes :=
  assert_ (zlen (take 8 pipe) =? 8);; Ok (drop 8 pipe).
(** After it: an error of the thread is returned. *)
Definition after_read (i : VulkanWaitThreadInner) : option string * VulkanWaitThreadInner :=
  (error i, MkInner false (target_sequence_point i) (stop i) None).
(** [Drop] of [VulkanWaitThreadShutdown] *)
Definition shutdown (i : VulkanWaitThreadInner) : VulkanWaitThreadInner :=
  MkInner (pending_read i) (target_sequence_point i) true (error i).

(** ** Both together *)

(** The loop works, polls the pipe among others, has read from it, has left with an error or otherwise (and has
    closed the pipe), or has asked the thread to stop. [Crashed]: the assertion failed. *)
Inductive Main := Works | Polls (pt : Z) | HasRead | Left (e : option string) | Stopped | Crashed.
Record System := MkSystem {
  inner : VulkanWaitThreadInner; pipe : bytes; waiter : Waiter; main : Main; now : Z; asked : list Z }.

(** What the kernel may answer to a write. *)
Definition reader (m : Main) : bool := match m with Left _ | Stopped | Crashed => false | _ => true end.
Definition allowed (pipe : bytes) (m : Main) (a : write_ret) : Prop :=
  match a with
  | Written => reader m = true
  | WEINTR => True
  | WEAGAIN => reader m = true /\ pipe <> []
  | WEPIPE => reader m = false
  | WFails => False
  end.

Inductive thread_step : System -> System -> Prop :=
| step_notified i p m n l : thread_step (MkSystem i p Notified m n l) (MkSystem i p (next_wait i) m n l)
| step_reached i p pt m n l : pt <= n -> thread_step (MkSystem i p (Waits pt) m n l) (MkSystem i p (Waited (Ok true)) m n l)
| step_timeout i p pt m n l : thread_step (MkSystem i p (Waits pt) m n l) (MkSystem i p (Waited (Ok false)) m n l)
| step_failed i p pt e m n l : thread_step (MkSystem i p (Waits pt) m n l) (MkSystem i p (Waited (Err e)) m n l)
| step_waited answers i p r m n l i' p' w' :
    Forall (allowed p m) answers -> after_wait answers r i p = Some (Ok (i', p', w')) ->
    thread_step (MkSystem i p (Waited r) m n l) (MkSystem i' p' w' m n l).

Inductive step : System -> System -> Prop :=
| step_thread s s' : thread_step s s' -> step s s'
| step_spurious i p m n l : step (MkSystem i p Sleeps m n l) (MkSystem i p Notified m n l)
| step_device i p w m n n' l : n <= n' -> step (MkSystem i p w m n l) (MkSystem i p w m n' l)
| step_request i p w n l pt :
    step (MkSystem i p w Works n l) (MkSystem (request pt i) p (notify w) (Polls pt) n (pt :: l))
| step_other i p w pt n l : step (MkSystem i p w (Polls pt) n l) (MkSystem i p w Works n l)
| step_read i p w pt n l : p <> [] -> step (MkSystem i p w (Polls pt) n l)
    match read_wakeup p with
    | Ok p' => MkSystem i p' w HasRead n l
    | _ => MkSystem i p w Crashed n l
    end
| step_after i p w n l : step (MkSystem i p w HasRead n l)
    (MkSystem (after_read i).2 p w (match (after_read i).1 with Some e => Left (Some e) | None => Works end) n l)
| step_leave i p w n l : step (MkSystem i p w Works n l) (MkSystem i p w (Left None) n l)
| step_shutdown i p w e n l : step (MkSystem i p w (Left e) n l) (MkSystem (shutdown i) p (notify w) Stopped n l).

(** The thread is made for the first point, and the loop polls. *)
Definition start (pt n : Z) : System := MkSystem (new_inner pt) [] Notified (Polls pt) n [pt].

(** ** What holds in between *)
Record ok (s : System) : Prop := {
  ok_pipe : pipe s = [] \/ pipe s = long_zero;
  ok_pending : pipe s <> [] -> pending_read (inner s) = true;
  ok_read : pending_read (inner s) = true -> main s = Works \/ (exists pt, main s = Polls pt) -> pipe s <> [];
  ok_empty : main s = HasRead -> pipe s = [] /\ pending_read (inner s) = true;
  ok_main : main s <> Crashed;
  ok_stop : stop (inner s) = true -> main s = Stopped;
  ok_stopped : main s = Stopped -> stop (inner s) = true;
  ok_sleeps : waiter s = Sleeps -> target_sequence_point (inner s) = None /\ stop (inner s) = false;
  ok_served : forall pt, main s = Polls pt -> target_sequence_point (inner s) = None -> pending_read (inner s) = true;
  ok_error : error (inner s) <> None -> waiter s = Gone /\ (reader (main s) = true -> pending_read (inner s) = true);
  ok_gone : waiter s = Gone -> reader (main s) = true -> error (inner s) <> None;
  ok_asked : forall pt, target_sequence_point (inner s) = Some pt \/ waiter s = Waits pt -> pt ∈ asked s;
  ok_result : waiter s <> Waited Panic }.

Lemma ok_start pt n : ok (start pt n).
Proof. split; cbn; try done; try (by left). - intros q [[= ->]|[=]]. set_solver. Qed.

(** On an empty pipe, a write succeeds or finds the other end closed. *)
Lemma wakeup_ok answers val m r : Forall (allowed [] m) answers -> wakeup_fd answers val [] = Some r ->
  r = Ok (reader m, if reader m then val else []).
Proof.
  intros Ha Hw. induction Ha as [|a l Ha _ IH]; [done|].
  destruct a; cbn in Ha, Hw; try (injection Hw as <-; by rewrite Ha); [by apply IH|by destruct Ha|done].
Qed.

(** The end of the body: the pipe has the eight bytes, unless the other end is closed. *)
Definition settled (i : VulkanWaitThreadInner) (r : res bool) : VulkanWaitThreadInner :=
  MkInner true (match r with Ok true => None | _ => target_sequence_point i end) (stop i)
    (match r with Err e => Some e | _ => error i end).
Lemma waited_spec answers r i p m i' p' w' : Forall (allowed p m) answers -> r <> Panic ->
  (p <> [] -> pending_read i = true) -> after_wait answers r i p = Some (Ok (i', p', w')) ->
  (pending_read i = true \/ reader m = true) /\ i' = settled i r /\
    p' = (if pending_read i then p else long_zero) /\ w' = (match r with Err _ => Gone | _ => next_wait i' end) \/
  pending_read i = false /\ reader m = false /\ i' = i /\ p' = p /\ w' = Gone.
Proof.
  intros Ha Hr Hp Hw. unfold after_wait in Hw. destruct (pending_read i) eqn:Epr.
  - left. split; [by left|]. unfold settled. destruct r as [[]| |]; try done; destruct i; cbn in *; by simplify_eq.
  - destruct p as [|b p]; [|specialize (Hp ltac:(done)); congruence].
    destruct (wakeup_fd answers long_zero []) as [x|] eqn:Ew; [|done].
    rewrite (wakeup_ok _ _ _ _ Ha Ew) in Hw. destruct (reader m).
    + left. split; [by right|]. unfold settled. destruct r as [[]| |]; try done; cbn in *; by simplify_eq.
    + right. by simplify_eq.
Qed.

Lemma next_wait_cases i : next_wait i = Gone /\ stop i = true \/
  next_wait i = Sleeps /\ stop i = false /\ target_sequence_point i = None \/
  exists pt, next_wait i = Waits pt /\ stop i = false /\ target_sequence_point i = Some pt.
Proof. unfold next_wait. destruct (stop i); [by left|]. destruct (target_sequence_point i); [right; right|right; left]; eauto. Qed.

Lemma ok_thread s s' : ok s -> thread_step s s' -> ok s'.
Proof.
  intros O T. destruct T as [i p m n l|i p pt m n l Hn|i p pt m n l|i p pt e m n l|answers i p r m n l i' p' w' Ha Hw];
    destruct O as [O1 O2 O3 O4 O5 O6 O7 O8 O9 O10 O11 O12 O13]; cbn in *.
  - destruct (next_wait_cases i) as [[-> Hs]|[(-> & Hs & Ht)|(pt & -> & Hs & Ht)]]; split; cbn; try done; naive_solver.
  - split; cbn; try done; naive_solver.
  - split; cbn; try done; naive_solver.
  - split; cbn; try done; naive_solver.
  - destruct (waited_spec _ _ _ _ _ _ _ _ Ha (fun E => O13 (f_equal Waited E)) O2 Hw) as [(Hor & -> & -> & ->)|(E1 & E2 & -> & -> & ->)].
    + assert (He : error i = None) by (destruct (error i); [destruct O10 as [[=] _]; done|done]).
      assert (Hx : pending_read i = false -> m <> HasRead) by naive_solver congruence.
      unfold settled in *. rewrite He. set (t := match r with Ok true => None | _ => _ end) in *.
      assert (Ht : t = None \/ t = target_sequence_point i) by (unfold t; destruct r as [[]| |]; auto).
      set (w := match r with Err _ => Gone | _ => _ end).
      assert (Hg : match r with Err _ => w = Gone | _ => (w = Gone /\ stop i = true) \/ (w = Sleeps /\ t = None /\ stop i = false) \/
                                              exists pt, w = Waits pt /\ t = Some pt end).
      { unfold w. destruct (next_wait_cases (MkInner true t (stop i) (match r with Err e => Some e | _ => None end)))
          as [[-> ?]|[(-> & ? & ?)|(? & -> & ? & ?)]], r; cbn in *; eauto 10. }
      clearbody w t. clear Ha Hw Hor. split; cbn; try done.
      * destruct (pending_read i); [done|by right].
      * intros _ Hm. destruct (pending_read i); [by apply O3|done].
      * intros ->. destruct (O4 eq_refl) as [-> ->]. done.
      * clear -Hg. intros ->. destruct r; naive_solver.
      * clear -Hg O13. destruct r; naive_solver.
      * clear -Hg O6. intros -> Hm. destruct r; [|done|]; destruct Hg as [[_ Hs]|[([=] & _)|(? & [=] & _)]]; rewrite (O6 Hs) in Hm; done.
      * clear -Hg Ht O12. intros pt Hpt. apply O12. left. destruct r; naive_solver.
      * clear -Hg. intros ->. destruct r; naive_solver.
    + split; cbn; try done; [intros He; split; congruence|congruence|].
      intros pt [Ht|[=]]. apply O12. by left.
Qed.

Lemma ok_step s s' : ok s -> step s s' -> ok s'.
Proof.
  intros O T. destruct T as [s s' T|i p m n l|i p w m n n' l Hn|i p w n l pt|i p w pt n l|i p w pt n l Hp|i p w n l|i p w n l|i p w e n l];
    [by eapply ok_thread| | | | | | | |]; destruct O as [O1 O2 O3 O4 O5 O6 O7 O8 O9 O10 O11 O12 O13]; cbn in *.
  - split; cbn; try done; naive_solver.
  - split; cbn; try done; naive_solver.
  - assert (Hw : notify w <> Sleeps) by (by destruct w).
    split; cbn; try done.
    + intros Hpr _. apply O3; auto.
    + intros Hs. by apply O6 in Hs.
    + intros He. destruct (O10 He) as [-> ?]. done.
    + intros Hg _. apply O11; [by destruct w|done].
    + intros q [[= ->]|Hq]; [set_solver|]. apply list_elem_of_further, O12. right. by destruct w.
    + by destruct w.
  - split; cbn; try done; naive_solver.
  - destruct O1 as [O1 | O1]; rewrite O1 in *; [done|]. cbn. pose proof (O2 Hp). split; cbn; try done; naive_solver.
  - destruct (O4 eq_refl) as [-> Hpr].
    destruct (error i) as [e|] eqn:Ee; split; cbn; try done; try naive_solver. 
  - split; cbn; try done; naive_solver.
  - assert (Hw : notify w <> Sleeps) by (by destruct w).
    split; cbn; try done.
    + intros Hpr [?|[? ?]]; done.
    + intros He. destruct (O10 He) as [-> ?]. done.
    + intros q [Hq|Hq]; apply O12; [by left|right]. by destruct w.
    + by destruct w.
Qed.

Lemma ok_reachable pt n s : rtc step (start pt n) s -> ok s.
Proof. intros R. refine (rtc_ind_r (R := step) ok (start pt n) _ _ s R); [apply ok_start|]. intros y z _ T O. by eapply ok_step. Qed.

(** ** The thread gets on *)

(** The steps of the thread until it has waited. *)
Definition lag (w : Waiter) : nat := match w with Notified => 3 | Waits _ => 2 | Waited _ => 1 | _ => 0 end.

Lemma blocked s q : ok s -> main s = Polls q -> pipe s = [] ->
  pending_read (inner s) = false /\ stop (inner s) = false /\
  exists pt, target_sequence_point (inner s) = Some pt /\ pt ∈ asked s.
Proof.
  intros O Hm Hp. assert (Hr : pending_read (inner s) = false).
  { destruct (pending_read (inner s)) eqn:E; [|done]. exfalso. eapply (ok_read _ O); eauto. }
  split; [done|]. split.
  { destruct (stop (inner s)) eqn:E; [|done]. apply (ok_stop _ O) in E. congruence. }
  destruct (target_sequence_point (inner s)) as [pt|] eqn:E.
  - exists pt. split; [done|]. apply (ok_asked _ O). by left.
  - pose proof (ok_served _ O _ Hm E). congruence.
Qed.
Lemma blocked_waiter s q : ok s -> main s = Polls q -> pipe s = [] ->
  waiter s = Notified \/ (exists r, waiter s = Waited r) \/ exists pt, waiter s = Waits pt /\ pt ∈ asked s.
Proof.
  intros O Hm Hp. destruct (blocked s q O Hm Hp) as (Hr & Hs & pt & Ht & _).
  destruct (waiter s) as [| |p|r|] eqn:E; eauto.
  - destruct (ok_sleeps _ O E). congruence.
  - right; right. exists p. split; [done|]. apply (ok_asked _ O). by right.
  - assert (He : error (inner s) <> None) by (apply (ok_gone _ O E); by rewrite Hm).
    destruct (ok_error _ O He) as [_ Hx]. rewrite Hm in Hx. specialize (Hx eq_refl). congruence.
Qed.

Lemma thread_main s s' : thread_step s s' -> main s' = main s.
Proof. by destruct 1. Qed.
Lemma thread_wakes s s' q : ok s -> main s = Polls q -> thread_step s s' ->
  pipe s' = long_zero \/ pipe s = [] /\ pipe s' = [] /\ lag (waiter s) = S (lag (waiter s')).
Proof.
  intros O Hm T. destruct (ok_pipe _ (ok_thread _ _ O T)) as [Hp'|Hp']; [right|by left].
  assert (Hk : pipe s = [] -> exists pt, next_wait (inner s) = Waits pt).
  { intros Hp. destruct (blocked s q O Hm Hp) as (_ & Hs & pt & Ht & _). exists pt. unfold next_wait. by rewrite Hs, Ht. }
  destruct T as [i p m n l| | | |answers i p r m n l i' p' w' Ha Hw]; cbn in *; try done.
  - destruct (Hk Hp') as [pt ->]. done.
  - exfalso. destruct (waited_spec _ _ _ _ _ _ _ _ Ha (fun E => ok_result _ O (f_equal Waited E)) (ok_pending _ O) Hw)
      as [(_ & _ & E & _)|(_ & Hr & _)]; [|by rewrite Hm in Hr].
    cbn in E. rewrite Hp' in E. destruct (pending_read i) eqn:Epr; [|done].
    eapply (ok_read _ O); cbn; eauto.
Qed.
Lemma thread_wakes_n k s s' q : ok s -> main s = Polls q -> nsteps thread_step k s s' ->
  (pipe s = [] -> (lag (waiter s) <= k)%nat) -> pipe s' = long_zero.
Proof.
  intros O Hm N Hl. induction N as [s|k s s1 s2 T _ IH].
  - destruct (ok_pipe _ O) as [Hp|Hp]; [|done]. specialize (Hl Hp).
    destruct (blocked_waiter s q O Hm Hp) as [E|[[r E]|(pt & E & _)]]; rewrite E in Hl; cbn in Hl; lia.
  - apply IH; [by eapply ok_thread|by rewrite (thread_main _ _ T)|].
    intros Hp. destruct (thread_wakes _ _ _ O Hm T) as [E|(E & _ & El)]; [by rewrite Hp in E|]. specialize (Hl E). lia.
Qed.

(** When it is asked to stop, it ends. *)
Lemma thread_stops s s' : ok s -> main s = Stopped -> thread_step s s' ->
  waiter s' = Gone \/ (exists pt, waiter s = Waits pt) /\ exists r, waiter s' = Waited r.
Proof.
  intros O Hm T. pose proof (ok_stopped _ O Hm) as Hs.
  assert (Hn : forall i, stop i = true -> next_wait i = Gone) by (intros i; unfold next_wait; by intros ->).
  destruct T as [i p m n l| | | |answers i p r m n l i' p' w' Ha Hw]; cbn in *; eauto.
  left. destruct (waited_spec _ _ _ _ _ _ _ _ Ha (fun E => ok_result _ O (f_equal Waited E)) (ok_pending _ O) Hw)
    as [(_ & -> & _ & ->)|(_ & _ & _ & _ & ->)]; [|done]. rewrite Hn by done. by destruct r.
Qed.
Lemma gone_no_step s s' : waiter s = Gone -> ~ thread_step s s'.
Proof. intros E T. by destruct T. Qed.
Lemma thread_can s : ok s -> waiter s <> Sleeps -> waiter s = Gone \/ exists s', thread_step s s'.
Proof.
  intros O Hs. destruct s as [i p w m n l]; cbn in *. destruct w as [| |pt|r|]; [done| | | |by left]; right.
  - eexists. apply step_notified.
  - eexists. apply step_timeout.
  - pose proof (ok_result _ O) as Hr. cbn in Hr.
    assert (exists a i' p' w', Forall (allowed p m) [a] /\ after_wait [a] r i p = Some (Ok (i', p', w'))) as (a & i' & p' & w' & ? & ?).
    { destruct (reader m) eqn:Er; [exists Written|exists WEPIPE]; unfold after_wait; cbn;
        destruct (pending_read i), r as [[]| |]; try done; repeat eexists; by constructor. }
    eexists. by eapply step_waited.
Qed.

(** C13: the thread that waits for the Vulkan timeline never loses a wakeup. In every state reached from
    its start, by whatever interleaving of the thread, the main loop and the device: the read of the
    loop gets its eight bytes; while the loop polls an empty pipe, the thread is there, gets on or waits in the device for a
    point the loop has asked for, and as soon as it has made three steps the loop can read; if the thread
    has ended while the loop polls, the loop finds the pipe readable and returns the thread's error; once the loop has asked
    it to stop, the thread is not asleep and ends after at most two more steps. *)
Theorem wakeups_not_lost pt0 n s : rtc step (start pt0 n) s ->
  main s <> Crashed /\
  (forall q, main s = Polls q -> pipe s = [] ->
     (((waiter s = Notified \/ exists r, waiter s = Waited r) /\ exists s', thread_step s s') \/
      exists pt, waiter s = Waits pt /\ pt ∈ asked s) /\
     forall k s', (3 <= k)%nat -> nsteps thread_step k s s' -> pipe s' = long_zero) /\
  (forall q, main s = Polls q -> waiter s = Gone ->
     exists e s', error (inner s) = Some e /\ nsteps step 2 s s' /\ main s' = Left (Some e)) /\
  (main s = Stopped -> (waiter s = Gone \/ exists s', thread_step s s') /\
     forall k s', nsteps thread_step k s s' -> (k <= 2)%nat).
Proof.
  intros R. pose proof (ok_reachable _ _ _ R) as O. split; [by apply ok_main|]. split_and!.
  - intros q Hm Hp. split.
    + destruct (blocked_waiter s q O Hm Hp) as [E|[[r E]|E]]; [left|left|by right]; (split; [eauto|]).
      all: destruct (thread_can s O) as [?|?]; [congruence|congruence|done].
    + intros k s' Hk N. eapply thread_wakes_n; [done..|]. intros _.
      enough (lag (waiter s) <= 3)%nat by lia. destruct (waiter s); cbn; lia.
  - intros q Hm Hg. assert (He : error (inner s) <> None) by (apply (ok_gone _ O Hg); by rewrite Hm).
    destruct (ok_error _ O He) as [_ Hpr]. rewrite Hm in Hpr. specialize (Hpr eq_refl).
    assert (Hp : pipe s = long_zero) by (destruct (ok_pipe _ O) as [Hp|Hp]; [|done]; exfalso; eapply (ok_read _ O); eauto).
    destruct (error (inner s)) as [e|] eqn:E; [|done]. destruct s as [i p w m n' l]; cbn in *; subst.
    exists e. eexists. split; [done|]. split.
    + eapply nsteps_l; [by apply step_read|]. cbn. apply nsteps_once, step_after.
    + cbn. by rewrite E.
  - intros Hm. split.
    + apply thread_can; [done|]. intros E. destruct (ok_sleeps _ O E) as [_ Hs]. pose proof (ok_stopped _ O Hm). congruence.
    + intros k s' N. destruct N as [|k s s1 s2 T1 N]; [lia|]. destruct N as [|k s1 s2 s3 T2 N]; [lia|].
      destruct N as [|k s2 s3 s4 T3 N]; [lia|]. exfalso.
      assert (O1 : ok s1) by (by eapply ok_thread). assert (Hm1 : main s1 = Stopped) by (by rewrite (thread_main _ _ T1)).
      destruct (thread_stops _ _ O Hm T1) as [E|[_ [r E]]]; [by eapply gone_no_step|].
      destruct (thread_stops _ _ O1 Hm1 T2) as [E2|[[pt E2] _]]; [by eapply gone_no_step|congruence].
Qed.
Lemma wakeups_not_lost_witness :
  let s := MkSystem (new_inner 5) [] (Waits 5) (Polls 5) 4 [5] in
  rtc step (start 5 4) s /\ waiter s = Waits 5 /\
  (forall k s2, (3 <= k)%nat -> nsteps thread_step k s s2 -> pipe s2 = long_zero) /\ 5 ∈ asked s.
Proof.
  cbn zeta. match goal with |- ?R /\ _ => assert (H : R) by (apply rtc_once, step_thread, step_notified) end.
  split; [exact H|]. destruct (wakeups_not_lost 5 4 _ H) as (_ & P & _). destruct (P 5 eq_refl eq_refl) as [[[[[=]|[r [=]]] _]|(pt & [= <-] & A)] W].
  split; [reflexivity|]. split; [exact W|exact A].
Defined.
