(* ===== verification/Applied.v ===== *)
(** * [src/mainloop.rs]: what an application task writes

    [run_apply_task] changes a file and its mirror only inside the region of its task, and what
    it writes there depends on the task alone, not on the bytes it finds. Tasks with disjoint
    regions, and tasks for different files, therefore commute. *)
From Stdlib Require Import ZArith Lia.
From stdpp Require Import gmap sets list.
From S2P Require Import Prelude Util Kernel KernelCorrect Mirror Compress Tasks.
Local Open Scope Z_scope.
Import Util.Wmsg Util.Options.

(** ** Sequences of writes *)
Abbreviation write := (Z * bytes)%type.
Definition patch_all (m : bytes) (ws : list write) : bytes := foldl (fun m w => splice m w.1 w.2) m ws.
(** The writes are inside [lo..hi] and inside a buffer of [n] bytes. *)
Definition within (lo hi n : Z) (ws : list write) : Prop :=
  Forall (fun w => 0 <= w.1 /\ lo <= w.1 /\ w.1 + zlen w.2 <= hi /\ w.1 + zlen w.2 <= n) ws.
Definition shift (s : Z) (ws : list write) : list write := map (fun w => (w.1 - s, w.2)) ws.

Lemma patch_all_cons m w ws : patch_all m (w :: ws) = patch_all (splice m w.1 w.2) ws.
Proof. done. Qed.
Lemma patch_all_len lo hi ws : forall m, within lo hi (zlen m) ws -> zlen (patch_all m ws) = zlen m.
Proof.
  induction ws as [|w ws IH]; intros m Hw; [done|]. apply Forall_cons_1 in Hw as [(H1 & _ & _ & H2) Hw].
  rewrite patch_all_cons. assert (E : zlen (splice m w.1 w.2) = zlen m) by (apply zlen_splice; lia).
  rewrite IH by by rewrite E. done.
Qed.

Lemma splice_comm {A} (m u v : list A) a b : 0 <= a -> 0 <= b -> a + zlen u <= zlen m -> b + zlen v <= zlen m ->
  a + zlen u <= b \/ b + zlen v <= a -> splice (splice m a u) b v = splice (splice m b v) a u.
Proof.
  intros Ha Hb Hu Hv Hd. zlen_pos. apply list_eq. intros k.
  rewrite !lookup_splice by (rewrite ?zlen_splice; lia).
  destruct ((b <=? _) && _) eqn:E1; destruct ((a <=? _) && _) eqn:E2; try done. lia.
Qed.
Lemma patch_all_splice lo hi lo' hi' ws u b : forall m, within lo hi (zlen m) ws ->
  0 <= b -> lo' <= b -> b + zlen u <= hi' -> b + zlen u <= zlen m -> hi <= lo' \/ hi' <= lo ->
  patch_all (splice m b u) ws = splice (patch_all m ws) b u.
Proof.
  induction ws as [|w ws IH]; intros m Hw Hb Hlo Hhi Hm Hd; [done|].
  apply Forall_cons_1 in Hw as [(H1 & H2 & H3 & H4) Hw]. rewrite !patch_all_cons. zlen_pos.
  rewrite splice_comm by lia. apply IH; rewrite ?zlen_splice by lia; try done.
Qed.
Lemma patch_all_comm lo hi lo' hi' ws ws' : forall m, within lo hi (zlen m) ws -> within lo' hi' (zlen m) ws' ->
  hi <= lo' \/ hi' <= lo -> patch_all (patch_all m ws') ws = patch_all (patch_all m ws) ws'.
Proof.
  induction ws' as [|w ws' IH]; intros m Hw Hw' Hd; [done|].
  pose proof Hw' as [(H1 & H2 & H3 & H4) Hr]%Forall_cons_1. rewrite !patch_all_cons.
  assert (E : zlen (splice m w.1 w.2) = zlen m) by (apply zlen_splice; lia).
  rewrite IH; [|by rewrite E|by rewrite E|done]. f_equal.
  apply (patch_all_splice lo hi lo' hi'); [done|lia..].
Qed.

(** Writing through a borrowed slice is writing to the region behind it. *)
Lemma splice_slice {A} (m u : list A) s e p : 0 <= s <= p -> p + zlen u <= e -> e <= zlen m ->
  splice m s (splice (slice m s e) (p - s) u) = splice m p u.
Proof.
  intros Hs Hp He. zlen_pos. assert (El : zlen (slice m s e) = e - s) by (apply zlen_slice; lia).
  apply list_eq. intros k. assert (E2 : zlen (splice (slice m s e) (p - s) u) = e - s) by (rewrite zlen_splice; lia).
  rewrite !lookup_splice by lia. rewrite E2. destruct ((s <=? _) && _) eqn:E.
  - replace (Z.of_nat (Z.to_nat (Z.of_nat k - s))) with (Z.of_nat k - s) by lia.
    replace ((p - s <=? _) && _) with ((p <=? Z.of_nat k) && (Z.of_nat k <? p + zlen u)) by lia.
    destruct ((p <=? _) && _) eqn:E3; [f_equal; lia|]. rewrite lookup_slice by lia. f_equal. lia.
  - by replace (_ && _) with false by lia.
Qed.
Lemma splice_splice_same {A} (m u v : list A) s : 0 <= s -> s + zlen u <= zlen m -> zlen v = zlen u ->
  splice (splice m s u) s v = splice m s v.
Proof.
  intros. apply list_eq. intros k. rewrite !lookup_splice by (rewrite ?zlen_splice; lia).
  replace (s + zlen v) with (s + zlen u) by lia. by destruct ((s <=? _) && _).
Qed.
Lemma slice_splice_same {A} (m v : list A) s e : 0 <= s <= e -> e <= zlen m -> zlen v = e - s ->
  slice (splice m s v) s e = v.
Proof.
  intros. assert (zlen (splice m s v) = zlen m) by (apply zlen_splice; lia).
  apply list_eq. intros k. destruct (decide (Z.of_nat k < e - s)).
  - rewrite lookup_slice, lookup_splice by lia. rewrite Z2Nat.id by lia.
    replace ((s <=? _) && _) with true by (symmetry; apply andb_true_iff; lia). f_equal. lia.
  - rewrite !lookup_ge_None_2; [done| |]; enough (zlen v = e - s /\ zlen (slice (splice m s v) s e) = e - s) by (unfold zlen in *; lia).
    all: split; [done|]; apply zlen_slice; lia.
Qed.
Lemma patch_all_slice s e ws : forall m, within s e (zlen m) ws -> 0 <= s <= e -> e <= zlen m ->
  splice m s (patch_all (slice m s e) (shift s ws)) = patch_all m ws.
Proof.
  intros m Hw Hs He. assert (El : forall m : bytes, e <= zlen m -> zlen (slice m s e) = e - s) by (intros; apply zlen_slice; lia).
  revert m Hw He. induction ws as [|w ws IH]; intros m Hw He; cbn [shift map].
  - cbn. rewrite splice_slices by (rewrite ?El; lia). rewrite El by lia. replace (s + (e - s)) with e by lia.
    symmetry. by apply slice_decomp.
  - apply Forall_cons_1 in Hw as [(H1 & H2 & H3 & H4) Hw]. rewrite !patch_all_cons. cbn [fst snd]. zlen_pos.
    set (m1 := splice m w.1 w.2). assert (E1 : zlen m1 = zlen m) by (apply zlen_splice; lia).
    assert (Es : zlen (splice (slice m s e) (w.1 - s) w.2) = e - s) by (rewrite zlen_splice by (rewrite ?El by lia; lia); apply El; lia).
    assert (E2 : slice m1 s e = splice (slice m s e) (w.1 - s) w.2).
    { unfold m1. rewrite <- (splice_slice m w.2 s e w.1) by lia. apply slice_splice_same; lia. }
    rewrite <- (IH m1); [|by rewrite E1|lia]. rewrite E2. set (v := patch_all _ _).
    assert (Ev : zlen v = e - s).
    { unfold v. rewrite <- E2. transitivity (zlen (slice m1 s e)); [|apply El; lia].
      apply (patch_all_len 0 (e - s)). rewrite El by lia. unfold shift. apply Forall_map.
      eapply Forall_impl; [exact Hw|]. cbn. lia. }
    unfold m1. rewrite <- (splice_slice m w.2 s e w.1) by lia. rewrite splice_splice_same by lia. done.
Qed.

(** ** Mirrors *)
Definition granted (m : MirrorState) (s e : Z) : Prop :=
  0 <= s < e /\ e <= zlen (region m) /\ e <= region_size m /\
  existsb (fun sp => nonempty_range_overlap sp (s, e)) (elements (ranges m)) = false.
Definition set_region (m : MirrorState) (r : bytes) : MirrorState := MkMirror r (region_size m) (ranges m).

Lemma with_range_Ok {A} m s e err (f : bytes -> res (A * bytes)) y m' :
  with_range m s e err f = Ok (y, m') <->
  granted m s e /\ exists v', f (slice (region m) s e) = Ok (y, v') /\ zlen v' = e - s /\
    m' = set_region m (splice (region m) s v').
Proof.
  unfold with_range, get_mut_range, granted. destruct (Z.leb_spec e s); [split; [done|lia]|].
  destruct (existsb _ _) eqn:Ex; [split; [done|naive_solver]|]. cbn [region_size].
  destruct (Z.ltb_spec (region_size m) e); [split; [done|lia]|].
  assert (Hx : (s, e) ∉ ranges m).
  { intros Hin%elem_of_elements%list_elem_of_In. apply not_true_iff_false in Ex. apply Ex, existsb_exists.
    exists (s, e). split; [done|]. unfold nonempty_range_overlap. cbn. lia. }
  assert (Hr : ({[(s, e)]} ∪ ranges m) ∖ {[(s, e)]} = ranges m) by (apply leibniz_equiv; set_solver).
  unfold read_range, write_range, drop_range. cbn [region region_size ranges fst snd]. split.
  - intros Hg. minvs. cbn [fst snd region region_size ranges] in *.
    destruct x0 as [y' v']. cbn [fst snd] in *. split; [lia|]. exists v'. rewrite Hr. by split_and!.
  - intros ((Hs & He & _) & v' & Hf & Hl & ->). rewrite get_range_ok by lia. cbn [mbind res_bind]. rewrite Hf.
    cbn [mbind res_bind fst snd]. rewrite set_range_ok by lia. cbn. by rewrite Hr.
Qed.

(** ** Applying a diff *)
Lemma patch_shift_len s e n ws v : within s e n ws -> zlen v = e - s -> zlen (patch_all v (shift s ws)) = zlen v.
Proof.
  intros Hw Hv. apply (patch_all_len 0 (zlen v)). unfold shift. apply Forall_map.
  eapply Forall_impl; [exact Hw|]. cbn. lia.
Qed.
Lemma patch_all_snoc m ws w : patch_all m (ws ++ [w]) = splice (patch_all m ws) w.1 w.2.
Proof. unfold patch_all. by rewrite foldl_app. Qed.
Lemma patch_shift_snoc s v ws p u : patch_all v (shift s (ws ++ [(p, u)])) = splice (patch_all v (shift s ws)) (p - s) u.
Proof. unfold shift. rewrite map_app. apply patch_all_snoc. Qed.
Lemma read_u32_nonneg d p n : Apply.read_u32 d p = Ok n -> 0 <= n.
Proof. unfold Apply.read_u32. intros H. minvs. apply (from_le_u32 (slice d p (p + 4))). rewrite zlen_slice; lia. Qed.

Lemma within_cons lo hi n w ws : 0 <= w.1 -> lo <= w.1 -> w.1 + zlen w.2 <= hi -> w.1 + zlen w.2 <= n ->
  within lo hi n ws -> within lo hi n (w :: ws).
Proof. intros. by constructor. Qed.

(** What a diff writes depends on the diff and on the lengths of the buffers only. *)
Lemma apply_one_local fuel d nb s be : forall pos v v', 0 <= s ->
  Apply.apply_one_loop fuel d nb s be pos v = Ok v' ->
  exists ws, within s (s + zlen v) (s + zlen v) ws /\
    forall v2, zlen v2 = zlen v -> Apply.apply_one_loop fuel d nb s be pos v2 = Ok (patch_all v2 (shift s ws)).
Proof.
  induction fuel as [|fuel IH]; intros pos v v' Hs; [done|]. cbn [Apply.apply_one_loop].
  destruct (4 * nb <=? pos); [intros _; exists []; split; [constructor|done]|].
  intros (st & Est & H)%bind_Ok. apply bind_Ok in H as (en & Een & H). rewrite Est, Een. cbn [mbind res_bind].
  destruct (_ || _); [done|]. cbv zeta in *.
  apply bind_Ok in H as (a & [-> Ha]%chk_Ok & H). apply bind_Ok in H as (b & [-> Hb]%chk_Ok & H).
  apply bind_Ok in H as (src & Esrc & H). apply bind_Ok in H as (v1 & (H1 & H2 & H3 & ->)%set_range_Ok & H).
  rewrite (chk_in 64 (st * 4 - s)), (chk_in 64 (en * 4 - s)), Esrc by done. cbn [mbind res_bind].
  apply IH in H as (ws & Hw & Hrun); [|done]. rewrite zlen_splice in * by lia.
  exists ((st * 4, src) :: ws). split; [apply within_cons; cbn; try done; lia|]. intros v2 E2.
  rewrite set_range_ok by lia. cbn [mbind res_bind shift map fst snd]. rewrite patch_all_cons. cbn [fst snd].
  apply Hrun. rewrite zlen_splice by lia. done.
Qed.

Lemma apply_one_diff_local d nt s v v' : 0 <= s -> Apply.apply_diff_one d nt s v = Ok v' ->
  exists ws, within s (s + zlen v) (s + zlen v) ws /\
    forall v2, zlen v2 = zlen v -> Apply.apply_diff_one d nt s v2 = Ok (patch_all v2 (shift s ws)).
Proof.
  intros Hs. unfold Apply.apply_diff_one. intros (bl & Ebl & H)%bind_Ok. rewrite Ebl. cbn [mbind res_bind].
  apply bind_Ok in H as (u & Eu & H). rewrite Eu. cbn [mbind res_bind]. cbv zeta in *.
  apply bind_Ok in H as (be & Ebe & H). apply bind_Ok in H as (v1 & E1 & H).
  destruct (apply_one_local _ _ _ _ _ _ _ _ Hs E1) as (ws & Hw & Hrun).
  assert (Ev : zlen v1 = zlen v).
  { rewrite Hrun in E1 by done. injection E1 as <-. eapply patch_shift_len; [exact Hw|lia]. }
  destruct (0 <? nt) eqn:Ent.
  - apply bind_Ok in H as (o & [-> Ho]%chk_Ok & H). apply bind_Ok in H as (src & Esrc & H).
    apply set_range_Ok in H as (H1 & H2 & H3 & ->). exists (ws ++ [(s + (zlen v - nt), src)]). split.
    + apply Forall_app. split; [done|]. apply within_cons; cbn; try lia. constructor.
    + intros v2 E2. rewrite E2, Ebe. cbn [mbind res_bind]. rewrite Hrun by done. cbn [mbind res_bind].
      rewrite chk_in by done. cbn [mbind res_bind]. rewrite Esrc. cbn [mbind res_bind].
      assert (Ep : zlen (patch_all v2 (shift s ws)) = zlen v2).
      { eapply patch_shift_len; [exact Hw|lia]. }
      rewrite set_range_ok by lia. rewrite patch_shift_snoc. do 2 f_equal. lia.
  - exists ws. split; [done|]. intros v2 E2. rewrite E2, Ebe. cbn [mbind res_bind]. by rewrite Hrun by done.
Qed.

Lemma apply_loop_local fuel d nb s be : forall pos fd v r, 0 <= s -> be = zlen fd / 4 ->
  Apply.apply_loop fuel d nb s be pos fd v = Ok r ->
  exists ws, within s (s + zlen v) (zlen fd) ws /\
    forall fd2 v2, zlen fd2 = zlen fd -> zlen v2 = zlen v ->
      Apply.apply_loop fuel d nb s be pos fd2 v2 = Ok (patch_all fd2 ws, patch_all v2 (shift s ws)).
Proof.
  induction fuel as [|fuel IH]; intros pos fd v r Hs Hbe; [done|]. cbn [Apply.apply_loop].
  destruct (4 * nb <=? pos); [intros _; exists []; split; [constructor|done]|].
  intros (st & Est & H)%bind_Ok. apply bind_Ok in H as (en & Een & H). rewrite Est, Een. cbn [mbind res_bind].
  apply read_u32_nonneg in Est. destruct (_ || _) eqn:Eb; [done|]. cbv zeta in *.
  apply bind_Ok in H as (a & [-> Ha]%chk_Ok & H). apply bind_Ok in H as (b & [-> Hb]%chk_Ok & H).
  apply bind_Ok in H as (src & Esrc & H). apply bind_Ok in H as (v1 & (H1 & H2 & H3 & ->)%set_range_Ok & H).
  assert (Hfit : 4 * (st + Z.of_nat (Z.to_nat (en - st))) <= zlen fd) by (Z.div_mod_to_equations; lia).
  rewrite store_words_splice in H by lia. cbn [mbind res_bind] in H.
  rewrite (chk_in 64 (st * 4 - s)), (chk_in 64 (en * 4 - s)), Esrc by done. cbn [mbind res_bind].
  apply IH in H as (ws & Hw & Hrun); [|done|by rewrite zlen_splice by lia]. rewrite !zlen_splice in Hw by lia.
  exists ((4 * st, src) :: ws). split; [apply within_cons; cbn; try done; lia|]. intros fd2 v2 E1 E2.
  rewrite set_range_ok by lia. cbn [mbind res_bind shift map fst snd]. rewrite store_words_splice by lia.
  cbn [mbind res_bind]. rewrite !patch_all_cons. cbn [fst snd]. replace (4 * st - s) with (st * 4 - s) by lia.
  apply Hrun; rewrite !zlen_splice by lia; done.
Qed.

Lemma apply_diff_local d nt s fd v r : 0 <= s -> Apply.apply_diff d nt fd s v = Ok r ->
  exists ws, within s (s + zlen v) (zlen fd) ws /\
    forall fd2 v2, zlen fd2 = zlen fd -> zlen v2 = zlen v ->
      Apply.apply_diff d nt fd2 s v2 = Ok (patch_all fd2 ws, patch_all v2 (shift s ws)).
Proof.
  intros Hs. unfold Apply.apply_diff, Mapping.get_u8. intros (bl & Ebl & H)%bind_Ok. rewrite Ebl. cbn [mbind res_bind].
  apply bind_Ok in H as (u & Eu & H). rewrite Eu. cbn [mbind res_bind]. cbv zeta in *. rewrite get_u32_len in H.
  apply bind_Ok in H as ([fd1 v1] & E1 & H).
  destruct (apply_loop_local _ _ _ _ _ _ _ _ _ Hs eq_refl E1) as (ws & Hw & Hrun).
  rewrite Hrun in E1 by done. injection E1 as <- <-.
  assert (El : forall fd2, zlen fd2 = zlen fd -> zlen (patch_all fd2 ws) = zlen fd).
  { intros fd2 E2. rewrite <- E2. rewrite <- E2 in Hw. by eapply patch_all_len. }
  assert (Ev : forall v2, zlen v2 = zlen v -> zlen (patch_all v2 (shift s ws)) = zlen v).
  { intros v2 E2. rewrite <- E2. eapply patch_shift_len; [exact Hw|lia]. }
  destruct (0 <? nt) eqn:Ent.
  - apply bind_Ok in H as (o & [-> Ho]%chk_Ok & H). apply bind_Ok in H as (src & Esrc & H).
    apply bind_Ok in H as (fd3 & (F1 & F2 & F3 & ->)%set_range_Ok & H). apply bind_Ok in H as (mo & [-> Hmo]%chk_Ok & H).
    apply bind_Ok in H as (v3 & (G1 & G2 & G3 & ->)%set_range_Ok & H). rewrite !El, ?Ev in * by done.
    exists (ws ++ [(zlen fd - nt, src)]). split.
    + apply Forall_app. split; [done|]. apply within_cons; cbn; try lia. constructor.
    + intros fd2 v2 E1 E2. rewrite get_u32_len, E1, Hrun by done. cbn [mbind res_bind]. rewrite !El by done.
      rewrite chk_in by done. cbn [mbind res_bind]. rewrite Esrc. cbn [mbind res_bind].
      rewrite set_range_ok by (rewrite ?El by done; lia). cbn [mbind res_bind]. rewrite chk_in by done. cbn [mbind res_bind].
      rewrite set_range_ok by (rewrite ?Ev by done; lia). cbn [mbind res_bind]. by rewrite patch_shift_snoc, patch_all_snoc.
  - exists ws. split; [done|]. intros fd2 v2 E1 E2. rewrite get_u32_len, E1. by rewrite Hrun by done.
Qed.

(** ** The task *)
Section Tasks.
Context {L : CompLib}.

(** The file and mirror with the writes done. *)
Definition written (c : ShadowFdFileCore) (wf wm : list write) : ShadowFdFileCore :=
  MkCore (set_region (mem_mirror c) (patch_all (region (mem_mirror c)) wm)) (patch_all (mapping c) wf).
(** All of a file that decides where and whether a task writes: the lengths, and the borrowed ranges. *)
Record same_shape (c c2 : ShadowFdFileCore) : Prop := {
  sh_file : zlen (mapping c2) = zlen (mapping c);
  sh_region : zlen (region (mem_mirror c2)) = zlen (region (mem_mirror c));
  sh_size : region_size (mem_mirror c2) = region_size (mem_mirror c);
  sh_ranges : ranges (mem_mirror c2) = ranges (mem_mirror c);
}.
(** A fill has as many bytes as its region. *)
Definition exact_fill (a : ApplyTask) : Prop := a_is_diff_type a = false -> zlen (a_data a) = region_end a - region_start a.
(** The task [a] writes [wf] to the file and [wm] to the mirror, whatever they hold. *)
Record effect (a : ApplyTask) (c : ShadowFdFileCore) (o : TaskOutput) (wf wm : list write) : Prop := {
  ef_file : within (region_start a) (region_end a) (zlen (mapping c)) wf;
  ef_mirror : within (region_start a) (region_end a) (zlen (region (mem_mirror c))) wm;
  ef_run c2 : same_shape c c2 -> run_apply_task a c2 = Ok (o, written c2 wf wm);
}.

Lemma granted_shape c c2 s e : same_shape c c2 -> granted (mem_mirror c) s e -> granted (mem_mirror c2) s e.
Proof. intros [_ Hr Hs Hg]. unfold granted. by rewrite Hr, Hs, Hg. Qed.
Lemma written_mirror c wm : written c [] wm = MkCore (set_region (mem_mirror c) (patch_all (region (mem_mirror c)) wm)) (mapping c).
Proof. done. Qed.

(** Borrowing the region and writing [ws] through the slice. *)
Lemma with_range_writes {A} c s e err (f : bytes -> res (A * bytes)) y m' ws :
  with_range (mem_mirror c) s e err f = Ok (y, m') -> (0 <= s -> within s e (s + (e - s)) ws) ->
  forall c2 (f2 : bytes -> res (A * bytes)) y2, same_shape c c2 ->
    f2 (slice (region (mem_mirror c2)) s e) = Ok (y2, patch_all (slice (region (mem_mirror c2)) s e) (shift s ws)) ->
    with_range (mem_mirror c2) s e err f2 = Ok (y2, set_region (mem_mirror c2) (patch_all (region (mem_mirror c2)) ws)).
Proof.
  intros (Hg & v' & _ & _ & _)%with_range_Ok Hw c2 f2 y2 Hs Hf. apply with_range_Ok.
  assert (Hg2 := granted_shape _ _ _ _ Hs Hg). destruct Hg2 as (G1 & G2 & G3 & G4). specialize (Hw ltac:(lia)).
  assert (El : zlen (slice (region (mem_mirror c2)) s e) = e - s) by (apply zlen_slice; lia).
  split; [by apply (granted_shape c)|]. eexists. split; [exact Hf|]. split.
  - rewrite <- El. eapply patch_shift_len; [exact Hw|lia].
  - f_equal. symmetry. apply patch_all_slice; try lia. eapply Forall_impl; [exact Hw|]. cbn. lia.
Qed.

Lemma within_weaken lo hi n n' ws : within lo hi n ws -> hi <= n' -> within lo hi n' ws.
Proof. intros Hw Hn. eapply Forall_impl; [exact Hw|]. cbn. lia. Qed.
Lemma copy_onto_writes src fd s fd' : Mapping.copy_onto_mapping src fd s = Ok fd' ->
  exists ws, within s (s + zlen src) (zlen fd) ws /\
    forall fd2, zlen fd2 = zlen fd -> Mapping.copy_onto_mapping src fd2 s = Ok (patch_all fd2 ws).
Proof.
  unfold Mapping.copy_onto_mapping, Mapping.get_u8. destruct (zlen src =? 0).
  - intros _. exists []. split; [constructor|done].
  - intros (H1 & H2 & H3 & ->)%set_range_Ok. exists [(s, src)]. split; [repeat constructor; cbn; lia|].
    intros fd2 E. by rewrite set_range_ok by lia.
Qed.
Lemma set_all (v : bytes) s e src : zlen v = e - s -> zlen src = e - s ->
  set_range v 0 (zlen v) src = Ok (patch_all v (shift s [(s, src)])).
Proof. intros Hv Hs. zlen_pos. rewrite set_range_ok by lia. cbn. by rewrite Z.sub_diag. Qed.

Lemma shm_diff_effect a skip c o c' : a_target a = TFile skip -> a_is_diff_type a = true ->
  run_apply_task a c = Ok (o, c') -> exists wf wm, effect a c o wf wm.
Proof.
  intros Et Ed E. unfold run_apply_task in E. rewrite Et in E. unfold run_apply_shm in E. rewrite Ed in E.
  apply bind_Ok in E as (c1 & E1 & [= <- <-]). apply bind_Ok in E1 as ([fd m] & Ew & _).
  pose proof Ew as (((Hs & Hse) & He & _) & v' & Hf & _)%with_range_Ok. apply apply_diff_local in Hf as (ws & Hw & Hrun); [|done].
  assert (El : forall r : bytes, zlen r = zlen (region (mem_mirror c)) -> zlen (slice r (region_start a) (region_end a)) = region_end a - region_start a)
    by (intros; apply zlen_slice; lia).
  rewrite El in Hw by done. assert (Hw' : within (region_start a) (region_end a) (zlen (mapping c)) ws).
  { eapply Forall_impl; [exact Hw|]. cbn. lia. }
  exists ws, ws. split; [done|by apply (within_weaken _ _ (zlen (mapping c)))|]. intros c2 Hc2.
  unfold run_apply_task. rewrite Et. unfold run_apply_shm. rewrite Ed.
  rewrite (with_range_writes _ _ _ _ _ _ _ ws Ew) with (y2 := patch_all (mapping c2) ws); [done| |done|].
  - intros _. eapply within_weaken; [exact Hw'|lia].
  - destruct Hc2 as [Hf Hr _ _]. apply Hrun; [done|]. by rewrite !El.
Qed.
Lemma shm_fill_effect a skip c o c' : a_target a = TFile skip -> a_is_diff_type a = false -> exact_fill a ->
  run_apply_task a c = Ok (o, c') -> exists wf wm, effect a c o wf wm.
Proof.
  intros Et Ed Hx E. specialize (Hx Ed). unfold run_apply_task in E. rewrite Et in E. unfold run_apply_shm in E. rewrite Ed in E.
  apply bind_Ok in E as (c1 & E1 & [= <- <-]). apply bind_Ok in E1 as (fd & Ec & E1).
  apply copy_onto_writes in Ec as (wf & Hw & Hrun). replace (region_start a + zlen (a_data a)) with (region_end a) in Hw by lia.
  destruct skip.
  - exists wf, []. split; [done|constructor|]. intros c2 [Hf Hr _ _]. unfold run_apply_task. rewrite Et. unfold run_apply_shm.
    rewrite Ed, Hrun by done. by destruct c2 as [[] ?].
  - apply bind_Ok in E1 as ([[] m] & Ew & _). pose proof Ew as (((Hs & Hse) & He & _) & _)%with_range_Ok.
    assert (Hm : forall n, region_end a <= n -> within (region_start a) (region_end a) n [(region_start a, a_data a)])
      by (intros; repeat constructor; cbn; lia).
    exists wf, [(region_start a, a_data a)]. split; [done|by apply Hm|]. intros c2 Hc2. pose proof Hc2 as [Hf Hr _ _].
    unfold run_apply_task. rewrite Et. unfold run_apply_shm. rewrite Ed, Hrun by done. cbn [mbind res_bind].
    rewrite (with_range_writes _ _ _ _ _ _ _ [(region_start a, a_data a)] Ew) with (y2 := tt); [done|intros; apply Hm; lia|done|].
    rewrite (set_all _ (region_start a) (region_end a)); [done| |done]. apply zlen_slice; lia.
Qed.
Lemma mirror_effect a notify c o c' : a_target a = TMirrorOnly notify -> exact_fill a ->
  run_apply_task a c = Ok (o, c') -> exists wf wm, effect a c o wf wm.
Proof.
  intros Et Hx E. unfold run_apply_task in E. rewrite Et in E. apply bind_Ok in E as ([o1 m1] & E & [= <- <-]).
  unfold run_apply_mirror in E. apply bind_Ok in E as ([[] m] & Ew & [= Eo Em]).
  pose proof Ew as (((Hs & Hse) & He & _) & v' & Hf & _)%with_range_Ok. apply bind_Ok in Hf as (v1 & Hf & _).
  assert (El : forall c2, same_shape c c2 -> zlen (slice (region (mem_mirror c2)) (region_start a) (region_end a)) = region_end a - region_start a)
    by (intros c2 [_ Hr _ _]; apply zlen_slice; lia).
  assert (Hself : same_shape c c) by done.
  assert (Hd : exists ws, within (region_start a) (region_end a) (region_end a) ws /\ forall v2, zlen v2 = region_end a - region_start a ->
    (if a_is_diff_type a then Apply.apply_diff_one (a_data a) (a_ntrailing a) (region_start a) v2
     else set_range v2 0 (zlen v2) (a_data a)) = Ok (patch_all v2 (shift (region_start a) ws))).
  { destruct (a_is_diff_type a) eqn:Ed.
    - apply apply_one_diff_local in Hf as (ws & Hw & Hrun); [|done]. rewrite El in Hw, Hrun by done. exists ws.
      split; [|done]. eapply Forall_impl; [exact Hw|]. cbn. lia.
    - specialize (Hx Ed). exists [(region_start a, a_data a)]. split; [repeat constructor; cbn; lia|].
      intros v2 E2. by apply (set_all _ _ (region_end a)). }
  destruct Hd as (ws & Hw & Hrun). exists [], ws. split; [constructor|by apply (within_weaken _ _ (region_end a))|]. intros c2 Hc2.
  unfold run_apply_task. rewrite Et. unfold run_apply_mirror.
  rewrite (with_range_writes _ _ _ _ _ _ _ ws Ew) with (y2 := tt).
  - cbn. by rewrite Eo.
  - intros _. eapply within_weaken; [exact Hw|lia].
  - done.
  - rewrite Hrun; [done|by apply El].
Qed.
Lemma run_apply_effect a c o c' : exact_fill a -> run_apply_task a c = Ok (o, c') -> exists wf wm, effect a c o wf wm.
Proof.
  intros Hx E. destruct (a_target a) as [skip|notify] eqn:Et; [|by eapply mirror_effect].
  destruct (a_is_diff_type a) eqn:Ed; [by eapply shm_diff_effect|by eapply shm_fill_effect].
Qed.

(** ** The files of a connection, by remote identifier: a task holds a reference to its file. *)
Definition apply_to (files : gmap Z ShadowFdFileCore) (a : ApplyTask) : res (gmap Z ShadowFdFileCore) :=
  c ← unwrap (files !! a_remote_id a);
  r ← run_apply_task a c;
  Ok (<[a_remote_id a := r.2]> files).
Definition apply_all (files : gmap Z ShadowFdFileCore) (l : list ApplyTask) : res (gmap Z ShadowFdFileCore) :=
  foldM apply_to files l.

Lemma apply_to_Ok files a f' : apply_to files a = Ok f' <->
  exists c o c', files !! a_remote_id a = Some c /\ run_apply_task a c = Ok (o, c') /\ f' = <[a_remote_id a := c']> files.
Proof.
  unfold apply_to. split.
  - intros (c & Ec & H)%bind_Ok. apply bind_Ok in H as ([o c'] & Er & [= <-]). exists c, o, c'. split; [|done].
    by destruct (files !! a_remote_id a); [injection Ec as ->|].
  - intros (c & o & c' & -> & Er & ->). cbn. by rewrite Er.
Qed.
Lemma written_shape a c o wf wm : effect a c o wf wm -> same_shape c (written c wf wm).
Proof. intros [Hf Hm _]. split; cbn; [by eapply patch_all_len|by eapply patch_all_len|done|done]. Qed.
Lemma same_shape_sym c c2 : same_shape c c2 -> same_shape c2 c.
Proof. intros []. by split. Qed.

(** Disjoint tasks commute on a file. *)
Lemma run_apply_comm a b c oa ob c1 c2 : exact_fill a -> exact_fill b ->
  region_end a <= region_start b \/ region_end b <= region_start a ->
  run_apply_task a c = Ok (oa, c1) -> run_apply_task b c1 = Ok (ob, c2) ->
  exists c3, run_apply_task b c = Ok (ob, c3) /\ run_apply_task a c3 = Ok (oa, c2).
Proof.
  intros Ha Hb Hd Ea Eb. destruct (run_apply_effect _ _ _ _ Ha Ea) as (wf & wm & He).
  destruct (run_apply_effect _ _ _ _ Hb Eb) as (wf' & wm' & He').
  rewrite (ef_run _ _ _ _ _ He) in Ea by done. injection Ea as <-. pose proof (written_shape _ _ _ _ _ He) as Hs.
  rewrite (ef_run _ _ _ _ _ He') in Eb by done. injection Eb as <-.
  assert (He2 : effect b c ob wf' wm').
  { destruct He' as [Hf Hm Hr]. destruct Hs as [S1 S2 S3 S4]. split; [by rewrite <- S1|by rewrite <- S2|].
    intros x [X1 X2 X3 X4]. apply Hr. split; congruence. }
  exists (written c wf' wm'). split; [by apply (ef_run _ _ _ _ _ He2)|].
  rewrite (ef_run _ _ _ _ _ He) by by eapply written_shape. do 2 f_equal.
  unfold written, set_region. cbn [mem_mirror region mapping region_size ranges].
  destruct He as [Hf Hm _], He2 as [Hf2 Hm2 _]. 
  by rewrite (patch_all_comm _ _ _ _ _ _ _ Hf Hf2 Hd), (patch_all_comm _ _ _ _ _ _ _ Hm Hm2 Hd).
Qed.
(** Tasks for different files, and disjoint ones, commute. *)
Lemma apply_to_comm a b files f1 f2 : exact_fill a -> exact_fill b ->
  region_end a <= region_start b \/ region_end b <= region_start a ->
  apply_to files a = Ok f1 -> apply_to f1 b = Ok f2 -> exists f3, apply_to files b = Ok f3 /\ apply_to f3 a = Ok f2.
Proof.
  intros Ha Hb Hd (c & oa & c1 & Ec & Ea & ->)%apply_to_Ok (c' & ob & c2 & Ec' & Eb & ->)%apply_to_Ok.
  destruct (decide (a_remote_id b = a_remote_id a)) as [Hr|Hr].
  - rewrite Hr, lookup_insert_eq in Ec'. injection Ec' as <-.
    destruct (run_apply_comm _ _ _ _ _ _ _ Ha Hb Hd Ea Eb) as (c3 & E3 & E4).
    exists (<[a_remote_id b := c3]> files). split; apply apply_to_Ok.
    + exists c, ob, c3. by rewrite Hr.
    + exists c3, oa, c2. rewrite Hr, lookup_insert_eq, !insert_insert_eq. done.
  - rewrite lookup_insert_ne in Ec' by done. exists (<[a_remote_id b := c2]> files). split; apply apply_to_Ok.
    + by exists c', ob, c2.
    + exists c, oa, c1. rewrite lookup_insert_ne by done. split_and!; [done..|]. by apply insert_insert_ne.
Qed.

(** The tasks that a decompression makes: what the message claims is checked against the data. *)
Definition made (a : ApplyTask) : Prop := exists task cache cache', run_decomp_task task cache = Ok (a, cache').
Lemma decomp_into_vec_len comp cache src n v cache' : decomp_into_vec comp cache src n = Ok (v, cache') -> zlen v = n.
Proof.
  destruct comp; cbn [decomp_into_vec].
  - intros (u & Hl%assert_Ok & [= <- <-])%bind_Ok. lia.
  - unfold lz4_decompress_to_vec, to_i32. destruct (in_I 32 (zlen src)), (in_I 32 n); cbn; [|intros [=]..].
    destruct (LZ4_decompress_safe _ _) as [w|]; cbn; [|intros [=]]. destruct (Z.eqb_spec (zlen w) n); cbn; [|intros [=]].
    by intros [= <- <-].
  - intros (c & _ & H)%bind_Ok. apply bind_Ok in H as (o & Eo & H). unfold zstd_decompress_to_vec in Eo.
    apply bind_Ok in Eo as (u & _ & [= <-]). apply bind_Ok in H as (w & Ew & [= <- <-]).
    destruct (ZSTD_decompressDCtx _ _) as [x|]; [|done]. destruct (Z.eqb_spec (zlen x) n); [|done]. by injection Ew as ->.
Qed.
Lemma made_exact a : made a -> exact_fill a.
Proof.
  intros (task & cache & cache' & H). unfold run_decomp_task in H. cbv zeta in H.
  apply bind_Ok in H as (h & _ & H). apply bind_Ok in H as ([len t] & _ & H). apply bind_Ok in H as (rb & _ & H).
  destruct (decide (t = BufferDiff)).
  - apply bind_Ok in H as (ds & _ & H). apply bind_Ok in H as (nt & _ & H). unfold decomp_diff in H. minvs.
    destruct x1 as [diff c1]. minvs. done.
  - destruct (decide (t = BufferFill)); [|done]. apply bind_Ok in H as (rs & _ & H). apply bind_Ok in H as (re & _ & H).
    destruct (_ <=? _); [done|]. unfold decomp_fill in H. apply bind_Ok in H as (src & _ & H).
    apply bind_Ok in H as ([fill c1] & Ev%decomp_into_vec_len & H). minvs. by intros _.
Qed.
End Tasks.
