(* ===== verification/Replicate.v ===== *)
(** * Replication of a shared memory file

    The message a diff task produces, decoded and applied on the other side, brings the remote
    file and its mirror to the contents of the local mirror; fill messages bring a read-only
    file across. *)
From Stdlib Require Import ZArith Lia.
From stdpp Require Import gmap sets.
From S2P Require Import Prelude Util Kernel KernelCorrect Mirror Compress Tasks TasksCorrect.
Local Open Scope Z_scope.
Import Util.Wmsg Util.Arith Util.Options.

Lemma splice_slice_id {A} (l : list A) a b : 0 <= a <= b -> b <= zlen l -> splice l a (slice l a b) = l.
Proof.
  intros. assert (E : zlen (slice l a b) = b - a) by (apply zlen_slice; lia).
  rewrite splice_slices by lia. rewrite E. replace (a + (b - a)) with b by lia.
  symmetry. apply slice_decomp; lia.
Qed.

Lemma splice_end {A} (l1 l2 src : list A) a :
  a = zlen l1 -> zlen src = zlen l2 -> splice (l1 ++ l2) a src = l1 ++ src.
Proof.
  intros. pose proof (splice_mid l1 l2 [] src a) as P. rewrite !app_nil_r in P. by apply P.
Qed.
Lemma drop_zlen_app {A} (l1 l2 : list A) : drop (Z.to_nat (zlen l1)) (l1 ++ l2) = l2.
Proof. unfold zlen. by rewrite Nat2Z.id, drop_app_length. Qed.
Lemma take_zlen_app {A} (l1 l2 : list A) : take (Z.to_nat (zlen l1)) (l1 ++ l2) = l1.
Proof. unfold zlen. by rewrite Nat2Z.id, take_app_length. Qed.

(** A mirror with no live range. *)
Definition idle (m : bytes) : MirrorState := MkMirror m (zlen m) ∅.

Lemma with_range_ok {A} (m v : bytes) a b err (f : bytes -> res (A * bytes)) x :
  0 <= a < b -> b <= zlen m -> f (slice m a b) = Ok (x, v) -> zlen v = b - a ->
  with_range (idle m) a b err f = Ok (x, idle (splice m a v)).
Proof.
  intros Hab Hb Hf Hv. unfold with_range, get_mut_range, idle. cbn [ranges region region_size].
  replace (b <=? a) with false by lia. rewrite elements_empty. cbn [existsb].
  replace (zlen m <? b) with false by lia. unfold read_range. cbn [region fst snd].
  rewrite get_range_ok by lia. cbn [mbind res_bind]. rewrite Hf. cbn [mbind res_bind fst snd].
  unfold write_range. cbn [region region_size ranges fst snd].
  rewrite set_range_ok by lia. cbn [mbind res_bind]. unfold drop_range. cbn [region region_size ranges].
  rewrite zlen_splice by lia. do 3 f_equal. set_solver.
Qed.

(** Segments that refresh the intervals of a region refresh them in the whole mirror. *)
Lemma refreshed_region bs (F M : bytes) a b ivs segs :
  zlen F = bs -> zlen M = bs -> 0 <= a < b -> b <= bs -> Forall (interval_ok bs a (b - a)) ivs ->
  Forall (seg_fits a (b - a)) segs ->
  apply_segs a (slice M a b) segs = foldl (refresh F a) (slice M a b) ivs ->
  zlen (apply_segs a (slice M a b) segs) = b - a /\
  splice M a (apply_segs a (slice M a b) segs) = apply_segs 0 M segs /\
  forall k : nat, apply_segs 0 M segs !! k = if in_intervals ivs (Z.of_nat k) then F !! k else M !! k.
Proof.
  intros HF HM Hab Hb Hiv Hfit Happ. set (old := slice M a b) in *.
  assert (Hold : zlen old = b - a) by (unfold old; rewrite zlen_slice; lia). rewrite <- Hold in Hfit.
  assert (Hnew : zlen (apply_segs a old segs) = b - a) by (rewrite apply_segs_len by done; lia).
  assert (Emb : splice M a (apply_segs a old segs) = apply_segs 0 M segs).
  { rewrite (slice_decomp M a b) at 2 by lia. rewrite (apply_segs_embed a);
      [|done|rewrite zlen_slice; lia]. rewrite splice_slices by lia.
    do 3 f_equal. lia. }
  split; [done|]. split; [done|]. intros k. rewrite <- Emb, Happ.
  rewrite lookup_splice by (rewrite ?(eq_sym Happ); lia). rewrite <- Happ, Hnew.
  destruct (_ && _) eqn:Ek.
  - rewrite Happ, refresh_lookup by (rewrite ?HF, ?Hold; done || lia).
    replace (a + Z.of_nat (Z.to_nat (Z.of_nat k - a))) with (Z.of_nat k) by lia.
    rewrite Nat2Z.id. case_match; [done|]. unfold old. rewrite lookup_slice by lia. f_equal. lia.
  - replace (in_intervals _ _) with false; [done|]. symmetry. apply not_true_is_false.
    intros (i & Hin & Hi)%existsb_exists. apply list_elem_of_In in Hin.
    rewrite Forall_forall in Hiv. destruct (Hiv i Hin) as (?&?&?&?&?&?&?). lia.
Qed.

Section Diff.
Context (bs : Z) (F M : bytes) (t : DiffTask).
Context (HF : zlen F = bs) (HM : zlen M = bs) (Hbs : bs < 2 ^ 32) (Ht : task_ok bs t).
#[local] Set Default Proof Using "All".

(** The mirror after the region of the task was compared. *)
Lemma diff_region_ok dst :
  interval_space (d_intervals t) <= zlen dst -> zlen dst < 2 ^ 32 ->
  exists segs junk,
    diff_region t (MkCore (idle M) F) dst =
      Ok (zlen (encode_segs segs), encode_segs segs ++ junk, idle (apply_segs 0 M segs)) /\
    zlen (encode_segs segs ++ junk) = zlen dst /\
    zlen (encode_segs segs) <= interval_space (d_intervals t) /\
    Forall (seg_fits 0 (bs - d_trailing t)) segs /\
    forall k : nat, apply_segs 0 M segs !! k
      = if in_intervals (d_intervals t) (Z.of_nat k) then F !! k else M !! k.
Proof.
  intros Hsp Hd. destruct Ht as [_ Hr [Hs0 _]]. unfold diff_region. cbn [mem_mirror mapping].
  destruct (d_region t) as [[a b]|].
  2: { destruct Hr as [E _]. exists [], dst. rewrite E in *. split; [done|]. split_and!; [done|done|constructor|done]. }
  destruct Hr as (Ha64&Hb64&Hab&Hbt&Hiv). zlen_pos.
  assert (Htr : 0 <= d_trailing t)
    by (destruct Ht as [[->|[? _]] _ _]; lia).
  set (old := slice M a b). assert (Hold : zlen old = b - a) by (unfold old; rewrite zlen_slice; lia).
  destruct (construct_diff_ok F a (d_intervals t) old [] dst) as (segs&junk&E&El&Eb&Hfit&Happ);
    [by rewrite HF, Hold|lia|done|done|]. cbn [app] in E. change (zlen []) with 0 in E. rewrite Hold in Hfit.
  assert (Hfit0 : Forall (seg_fits 0 (bs - d_trailing t)) segs).
  { eapply Forall_impl; [exact Hfit|]. intros s (?&?&?&?&?&?). unfold seg_fits. lia. }
  rewrite !assert_true by lia. cbn [mbind res_bind]. exists segs, junk.
  destruct (refreshed_region bs F M a b (d_intervals t) segs) as (Hnew & Emb & Hk); try done; [lia|].
  rewrite (with_range_ok M (apply_segs a old segs) a b _ _
             (zlen (encode_segs segs), encode_segs segs ++ junk)); [|lia|lia| |done].
  2: { unfold Construct.construct_diff. fold old. rewrite E, <- Happ. cbn [mbind res_bind].
       unfold wrap. rewrite Z.mod_small; [done|]. zlia. }
  fold old in Emb. rewrite Emb. by split_and!.
Qed.

Lemma tail_lookup (M1 : bytes) (k : nat) : zlen M1 = bs -> 0 <= d_trailing t <= bs ->
  splice M1 (bs - d_trailing t) (slice F (bs - d_trailing t) bs) !! k
  = if bs - d_trailing t <=? Z.of_nat k then F !! k else M1 !! k.
Proof.
  intros H1 Htr. rewrite lookup_splice by (rewrite ?zlen_slice; lia). rewrite zlen_slice by lia.
  destruct (_ && _) eqn:E; case_match eqn:E2; try lia.
  - rewrite lookup_slice by lia. f_equal. lia.
  - unfold zlen in *. rewrite !lookup_ge_None_2 by lia. done.
  - done.
Qed.

Lemma diff_trailing_ok (M1 D junk : bytes) :
  zlen M1 = bs -> d_trailing t <= zlen junk -> zlen (D ++ junk) < 2 ^ 32 ->
  exists tail junk',
    diff_trailing t F (idle M1) (zlen D) (D ++ junk) =
      Ok (zlen tail, D ++ tail ++ junk', idle (splice M1 (bs - zlen tail) tail)) /\
    zlen (tail ++ junk') = zlen junk /\
    (tail = [] \/ 0 < zlen tail /\ zlen tail = d_trailing t) /\
    forall k : nat, splice M1 (bs - zlen tail) tail !! k
      = if bs - d_trailing t <=? Z.of_nat k then F !! k else M1 !! k.
Proof.
  intros H1 Hj Hd. unfold diff_trailing, Mapping.get_u8. zlen_pos.
  assert (Htr : 0 <= d_trailing t <= bs).
  { destruct Ht as [[->|[? E]] _ _]; [lia|]. pose proof (Z.mod_le bs 64). lia. }
  destruct (Z.ltb_spec 0 (d_trailing t)) as [Hp|Hp].
  2: { exists [], junk. rewrite splice_nil. split_and!; [done|done|by left|].
       intros k. replace (d_trailing t) with 0 by lia. case_match; [|done].
       unfold zlen in *. by rewrite !lookup_ge_None_2 by lia. }
  rewrite HF. rewrite chk_in by (unfold uN; lia). cbn [mbind res_bind].
  set (T := slice F (bs - d_trailing t) bs). set (R := slice M1 (bs - d_trailing t) bs).
  assert (HT : zlen T = d_trailing t) by (unfold T; rewrite zlen_slice; lia).
  assert (HR : zlen R = d_trailing t) by (unfold R; rewrite zlen_slice; lia).
  set (rest := drop (Z.to_nat (d_trailing t)) junk).
  assert (Hrest : zlen rest = zlen junk - d_trailing t) by (unfold rest; rewrite zlen_drop; lia).
  rewrite (with_range_ok M1 T _ _ _ _
    (if negb (bool_decide (T = R)) then d_trailing t else 0, D ++ T ++ rest)); [|lia|lia| |lia].
  2: { fold R. rewrite get_from_ok by zlia. cbn [mbind res_bind].
       rewrite drop_zlen_app.
       unfold Mapping.copy_tail_if_diff, Mapping.get_u8. rewrite assert_true by lia. cbn [mbind res_bind].
       rewrite HF. rewrite chk_in by (unfold uN; lia). cbn [mbind res_bind].
       replace (bs - d_trailing t + d_trailing t) with bs by lia.
       rewrite get_range_ok by lia. fold T. cbn [mbind res_bind].
       rewrite set_range_ok by lia. cbn [mbind res_bind].
       assert (EJ : splice junk 0 T = T ++ rest).
       { unfold splice. cbn [take app]. change (Z.to_nat 0) with 0%nat.
         rewrite take_0. cbn [app]. unfold rest. do 2 f_equal. unfold zlen in HT. lia. }
       rewrite EJ. rewrite set_range_ok by zlia. cbn [mbind res_bind]. do 3 f_equal.
       by rewrite splice_end by zlia. }
  destruct (bool_decide (T = R)) eqn:EB; cbn [negb].
  - apply bool_decide_eq_true in EB. exists [], (T ++ rest).
    assert (ES : splice M1 (bs - d_trailing t) T = M1)
      by (rewrite EB; apply splice_slice_id; lia).
    rewrite splice_nil, ES. split_and!; [done|zlia|by left|].
    intros k. rewrite <- ES at 1. apply tail_lookup; lia.
  - exists T, rest. rewrite HT. split_and!; [done|zlia|right; lia|].
    intros k. apply tail_lookup; lia.
Qed.

(** [diff_inner] emits segments and changed trailing bytes that turn the old mirror into one
    with the file's data at every byte the task covers. *)
Lemma diff_inner_ok dst :
  interval_space (d_intervals t) + d_trailing t <= zlen dst -> zlen dst < 2 ^ 32 ->
  exists segs tail junk,
    let M' := splice (apply_segs 0 M segs) (bs - zlen tail) tail in
    diff_inner t (MkCore (idle M) F) dst =
      Ok (zlen (encode_segs segs), zlen tail, encode_segs segs ++ tail ++ junk, MkCore (idle M') F) /\
    zlen (encode_segs segs ++ tail ++ junk) = zlen dst /\
    zlen (encode_segs segs ++ tail) <= interval_space (d_intervals t) + d_trailing t /\
    Forall (seg_fits 0 (bs - zlen tail)) segs /\ zlen tail <= bs /\
    forall k : nat, M' !! k = if task_covers bs t (Z.of_nat k) then F !! k else M !! k.
Proof.
  intros Hsp Hd. assert (Htr : 0 <= d_trailing t <= bs).
  { destruct Ht as [[->|[? E]] _ _]; zlen_pos; [lia|]. pose proof (Z.mod_le bs 64). lia. }
  destruct (diff_region_ok dst) as (segs&j1&E1&L1&B1&Hf&Hk1); [lia|done|].
  assert (HM1 : zlen (apply_segs 0 M segs) = bs).
  { rewrite apply_segs_len; [done|]. eapply Forall_impl; [exact Hf|].
    intros s (?&?&?&?&?&?). unfold seg_fits. lia. }
  destruct (diff_trailing_ok _ (encode_segs segs) j1 HM1) as (tail&j2&E2&L2&Ht2&Hk2); [zlia|zlia|].
  exists segs, tail, j2. cbn zeta. unfold diff_inner. rewrite E1. cbn [mbind res_bind mapping].
  rewrite E2. cbn [mbind res_bind].
  assert (zlen tail <= d_trailing t) by (destruct Ht2 as [->|[_ ->]]; [change (zlen []) with 0|]; lia).
  split_and!; [done|zlia|zlia| |lia|].
  - eapply Forall_impl; [exact Hf|]. intros s (?&?&?&?&?&?). unfold seg_fits. lia.
  - intros k. rewrite Hk2, Hk1. unfold task_covers.
    destruct (in_intervals (d_intervals t) (Z.of_nat k)), (bs - d_trailing t <=? Z.of_nat k); done.
Qed.
End Diff.

(** ** The message of a diff task *)
Definition diff_msg (rid diff_len ntrailing : Z) (c : bytes) : bytes :=
  let n := 16 + zlen c in
  (to_le 4 (n * 32 + 6) ++ to_le 4 rid ++ to_le 4 diff_len ++ to_le 4 ntrailing)
  ++ c ++ zeros (4 * div_ceil n 4 - n).

Lemma align4_bounds n : 0 <= n -> n + 4 <= 2 ^ 64 ->
  align4 n = Ok (4 * div_ceil n 4) /\ n <= 4 * div_ceil n 4 <= n + 3.
Proof.
  intros. split; [by apply align4_ok|]. pose proof (div_ceil_mul_ge n 4 ltac:(lia)).
  unfold div_ceil in *. pose proof (Z.mul_div_le (n + 4 - 1) 4). lia.
Qed.

Lemma finish_ok (pre c post : bytes) rid dl tr :
  zlen pre = 16 -> zlen c < 2 ^ 26 -> 4 * div_ceil (16 + zlen c) 4 <= zlen (pre ++ c ++ post) ->
  finish_diff_msg (pre ++ c ++ post) rid (16 + zlen c) dl tr = Ok (diff_msg rid dl tr c).
Proof.
  intros Hpre Hc Hl. pose proof (zlen_nonneg c). unfold finish_diff_msg.
  destruct (align4_bounds (16 + zlen c)) as [-> Hn]; [lia..|]. cbn [mbind res_bind].
  set (n := 4 * div_ceil (16 + zlen c) 4) in *. rewrite assert_true by lia. cbn [mbind res_bind].
  set (p1 := take (Z.to_nat (n - (16 + zlen c))) post).
  assert (Hp1 : zlen p1 = n - (16 + zlen c)).
  { unfold p1, zlen in *. rewrite length_take. rewrite !length_app in Hl. lia. }
  assert (ET : take (Z.to_nat n) (pre ++ c ++ post) = pre ++ c ++ p1).
  { rewrite take_app_ge by (unfold zlen in *; lia). f_equal.
    rewrite take_app_ge by (unfold zlen in *; lia). unfold p1. do 2 f_equal. unfold zlen in *. lia. }
  rewrite ET. rewrite set_range_ok by zlia. cbn [mbind res_bind].
  replace (splice (pre ++ c ++ p1) (16 + zlen c) (zeros (n - (16 + zlen c))))
    with (pre ++ c ++ zeros (n - (16 + zlen c))).
  2: { rewrite !app_assoc, splice_end by zlia. done. }
  rewrite build_wmsg_header_ok by (unfold uN; lia). cbn [mbind res_bind].
  rewrite set_range_ok by (unfold cat4x4; zlia). f_equal. unfold diff_msg, cat4x4. fold n.
  rewrite <- (app_nil_l (pre ++ _)). rewrite splice_mid by zlia. done.
Qed.

Lemma nothing_sent (x y : bytes) : (zlen x =? 0) && (zlen y =? 0) = true <-> x ++ y = [].
Proof.
  split.
  - intros H. by rewrite (zlen_zero_nil x), (zlen_zero_nil y) by lia.
  - by intros [-> ->]%app_eq_nil.
Qed.

(** The message around the bytes of a diff, [x], written to a buffer of its own. *)
Lemma plain_frame rid space dl tr (x junk : bytes) :
  zlen (x ++ junk) = space -> space < 2 ^ 21 ->
  exists buf, set_range (zeros (4 * div_ceil space 4 + 16)) 16 (16 + space) (x ++ junk) = Ok buf /\
    finish_diff_msg buf rid (16 + zlen x) dl tr = Ok (diff_msg rid dl tr x).
Proof.
  intros Hx Hsp. zlen_pos. destruct (align4_bounds space) as [_ Hn]; [zlia|lia|].
  set (n := 4 * div_ceil space 4) in *. rewrite set_range_ok by zlia. eexists. split; [done|].
  replace (splice (zeros (n + 16)) 16 (x ++ junk)) with (zeros 16 ++ x ++ junk ++ zeros (n - space)).
  2: { unfold splice. change (Z.to_nat 16) with 16%nat. unfold zeros at 3 4.
       rewrite take_replicate, drop_replicate, <- !app_assoc.
       unfold zeros. f_equal; [f_equal; lia|]. do 3 f_equal.
       unfold zlen in *. rewrite !length_app in *. lia. }
  rewrite zlen_app in Hx.
  destruct (align4_bounds (16 + zlen x)) as [_ Hn2]; [zlia|zlia|].
  apply finish_ok; [done|zlia|].
  rewrite !zlen_app, !zlen_zeros by lia. pose proof (zlen_nonneg junk) as Hj.
  unfold n, div_ceil in *. clear -Hx Hj. Z.div_mod_to_equations. lia.
Qed.

(** The bytes of a diff read back from a scratch buffer. *)
Lemma scratch_frame (lg x junk : bytes) : zlen (x ++ junk) <= zlen lg ->
  exists lg', set_range lg 0 (zlen (x ++ junk)) (x ++ junk) = Ok lg' /\ get_range lg' 0 (zlen x) = Ok x.
Proof.
  intros Hl. zlen_pos. rewrite set_range_ok by lia. eexists. split; [done|]. rewrite zlen_app in Hl.
  rewrite get_range_ok by (rewrite ?zlen_splice by zlia; zlia). f_equal.
  unfold splice. change (Z.to_nat 0) with 0%nat. rewrite take_0. cbn [app].
  unfold slice. rewrite Z.sub_0_r, drop_0, <- !app_assoc. by rewrite take_zlen_app.
Qed.

Lemma diff_space_ok ivs : forall n,
  Forall (fun i => 0 <= i.1 < i.2 /\ i.2 + 8 < 2 ^ 32) ivs -> 0 <= n ->
  n + interval_space ivs < 2 ^ 32 ->
  foldM (fun n (t : Z * Z) => a ← u32 (8 + t.2); b ← u32 (a - t.1); u32 (n + b)) n ivs
  = Ok (n + interval_space ivs).
Proof.
  induction ivs as [|i ivs IH]; intros n Hf Hn Hs; cbn [foldM interval_space foldr] in *.
  - by rewrite Z.add_0_r.
  - fold (interval_space ivs) in *. apply Forall_cons_1 in Hf as [Hi Hf].
    assert (0 <= interval_space ivs).
    { clear -Hf. induction Hf as [|j l ? _ IH]; cbn; [done|]. fold (interval_space l). lia. }
    rewrite (chk_in 32 (8 + i.2)) by (unfold uN; lia). cbn [mbind res_bind].
    rewrite (chk_in 32 (8 + i.2 - i.1)) by (unfold uN; lia). cbn [mbind res_bind].
    rewrite chk_in by (unfold uN; lia). cbn [mbind res_bind]. rewrite IH by (done || lia). f_equal. lia.
Qed.

Lemma task_intervals_ok bs t : bs < 2 ^ 32 -> task_ok bs t ->
  Forall (fun i => 0 <= i.1 < i.2 /\ i.2 + 8 < 2 ^ 32) (d_intervals t).
Proof.
  intros Hbs [_ Hr _]. destruct (d_region t) as [[a b]|]; [|destruct Hr as [-> _]; constructor].
  destruct Hr as (?&?&?&?&Hf). eapply Forall_impl; [exact Hf|]. intros i (?&?&?&?&?&?&?).
  Z.div_mod_to_equations; lia.
Qed.
Lemma task_trailing_ok bs t : task_ok bs t -> 0 <= d_trailing t < 64.
Proof. intros [[->|[? ->]] _ _]; [lia|]. pose proof (Z.mod_pos_bound bs 64). lia. Qed.

Section Send.
Context {L : CompLib} `{Laws : !CompLibLaws L}.

(** The message around a compressed diff. *)
Lemma compressed_frame comp cc rid dl tr (x : bytes) : compression_wf comp -> zlen x < 2 ^ 21 ->
  exists c nxt cc', comp_into_vec comp cc x 16 4 = Ok (nxt, cc') /\ usize (zlen nxt - 4 - 16) = Ok (zlen c) /\
    finish_diff_msg nxt rid (16 + zlen c) dl tr = Ok (diff_msg rid dl tr c) /\ encodes comp c x.
Proof using Laws.
  intros Hcomp Hx. zlen_pos.
  destruct (comp_into_vec_ok comp cc x 16 4) as (c&cc'&->&Hc); [done|unfold lz4_max_input; lia|lia|lia|].
  pose proof (proj1 Hc) as Hcl.
  assert (zlen x / 2 ^ 7 <= zlen x) by (apply Z.div_le_upper_bound; zlia). zlen_pos.
  eexists c, _, cc'. split; [done|]. replace (zlen (zeros 16 ++ c ++ zeros 4) - 4 - 16) with (zlen c) by zlia.
  rewrite chk_in by (unfold uN; lia). split; [done|].
  destruct (align4_bounds (16 + zlen c)) as [_ Hn2]; [zlia|zlia|].
  split; [|done]. apply finish_ok; [done|lia|zlia].
Qed.

Context (bs : Z) (F M : bytes) (t : DiffTask).
Context (HF : zlen F = bs) (HM : zlen M = bs) (Hbs : bs < 2 ^ 32) (Ht : task_ok bs t).
Context (Hcomp : compression_wf (d_compression t)).
#[local] Set Default Proof Using "All".

(** The outcome of a diff task: what changed, as segments and trailing bytes. *)
Record sent (segs : list seg) (tail out : bytes) : Prop := {
  sn_fits : Forall (seg_fits 0 (bs - zlen tail)) segs;
  sn_tail : zlen tail <= bs;
  sn_len : zlen (encode_segs segs ++ tail) < 2 ^ 21;
  sn_new (k : nat) : splice (apply_segs 0 M segs) (bs - zlen tail) tail !! k
                     = if task_covers bs t (Z.of_nat k) then F !! k else M !! k;
  sn_msg : (encode_segs segs ++ tail = [] /\ out = []) \/
           (encode_segs segs ++ tail <> [] /\ exists c,
              encodes (d_compression t) c (encode_segs segs ++ tail) /\
              out = diff_msg (d_rid t) (zlen (encode_segs segs)) (zlen tail) c);
}.

Let space : Z := interval_space (d_intervals t) + d_trailing t.

Lemma plain_ok : d_compression t = CompNone ->
  exists segs tail out,
    plain_diff_msg t (MkCore (idle M) F) space =
      Ok (out, MkCore (idle (splice (apply_segs 0 M segs) (bs - zlen tail) tail)) F) /\
    sent segs tail out.
Proof.
  intros EC. pose proof (tok_space _ _ Ht) as Hs. pose proof (task_trailing_ok _ _ Ht) as Htr.
  assert (Hsp : 0 <= space < 2 ^ 21) by (unfold space; lia). unfold plain_diff_msg.
  destruct (align4_bounds space) as [-> Hn]; [lia..|]. cbn [mbind res_bind].
  set (n := 4 * div_ceil space 4) in *. rewrite get_range_ok by zlia. cbn [mbind res_bind].
  set (dst := slice _ _ _). assert (Hdst : zlen dst = space) by (unfold dst; rewrite zlen_slice; zlia).
  destruct (diff_inner_ok bs F M t HF HM Hbs Ht dst) as (segs&tail&junk&E&El&Eb&Hf&Htl&Hk);
    [unfold space in Hdst; lia|lia|]. rewrite E. cbn [mbind res_bind].
  rewrite app_assoc in El |- *. rewrite Hdst in El.
  destruct (plain_frame (d_rid t) space (zlen (encode_segs segs)) (zlen tail) _ _ El) as (buf & EB & EF); [lia|].
  unfold n. rewrite EB. cbn [mbind res_bind]. exists segs, tail.
  assert (Hl : zlen (encode_segs segs ++ tail) < 2 ^ 21) by (unfold space in *; lia).
  destruct (_ && _) eqn:E0.
  - exists []. split; [done|]. split; try done. left. split; [|done]. by apply nothing_sent.
  - assert (Hne : encode_segs segs ++ tail <> []) by (rewrite <- nothing_sent; congruence).
    rewrite chk_in by (unfold uN; zlia). cbn [mbind res_bind]. rewrite <- zlen_app, EF.
    eexists. split; [done|]. split; try done. right. split; [done|]. eexists. split; [|done].
    rewrite EC. split; [pose proof (Z.div_pos (zlen (encode_segs segs ++ tail)) (2 ^ 7)); zlia|].
    cbn [decomp_into_vec decomp_into_slice]. rewrite assert_true by lia. cbn. eauto.
Qed.

Lemma compressed_ok cache :
  exists segs tail out cache',
    compressed_diff_msg t cache (MkCore (idle M) F) space =
      Ok (out, cache', MkCore (idle (splice (apply_segs 0 M segs) (bs - zlen tail) tail)) F) /\
    sent segs tail out.
Proof.
  pose proof (tok_space _ _ Ht) as Hs. pose proof (task_trailing_ok _ _ Ht) as Htr.
  assert (Hsp : 0 <= space < 2 ^ 21) by (unfold space; lia). unfold compressed_diff_msg.
  set (lg := large cache ++ zeros (space - zlen (large cache))).
  assert (Hlg : space <= zlen lg).
  { unfold lg. destruct (Z.le_gt_cases (space) (zlen (large cache))); zlia. }
  clearbody lg. rewrite get_range_ok by lia. cbn [mbind res_bind].
  set (dst := slice _ _ _). assert (Hdst : zlen dst = space) by (unfold dst; rewrite zlen_slice; lia).
  destruct (diff_inner_ok bs F M t HF HM Hbs Ht dst) as (segs&tail&junk&E&El&Eb&Hf&Htl&Hk);
    [unfold space in Hdst; lia|lia|]. rewrite E. cbn [mbind res_bind].
  rewrite app_assoc in El |- *. rewrite Hdst in El.
  destruct (scratch_frame lg (encode_segs segs ++ tail) junk) as (lg' & EL & EG); [lia|].
  rewrite <- El, EL. cbn [mbind res_bind].
  assert (Hl : zlen (encode_segs segs ++ tail) < 2 ^ 21) by (unfold space in *; lia).
  exists segs, tail. destruct (_ && _) eqn:E0.
  - eexists [], _. split; [done|]. split; try done. left. split; [|done]. by apply nothing_sent.
  - assert (Hne : encode_segs segs ++ tail <> []) by (rewrite <- nothing_sent; congruence).
    rewrite chk_in by (unfold uN; zlia). cbn [mbind res_bind]. rewrite <- zlen_app, EG. cbn [mbind res_bind].
    destruct (compressed_frame (d_compression t) (comp cache) (d_rid t) (zlen (encode_segs segs)) (zlen tail)
      (encode_segs segs ++ tail)) as (c&nxt&cc&->&EU&EF&Hc); [done..|]. cbn [mbind res_bind].
    rewrite EU. cbn [mbind res_bind]. rewrite EF. cbn [mbind res_bind].
    eexists _, _. split; [done|]. split; try done. right. split; [done|]. eauto.
Qed.

Lemma run_diff_task_ok cache :
  exists segs tail out cache',
    run_diff_task t cache (MkCore (idle M) F) =
      Ok (out, cache', MkCore (idle (splice (apply_segs 0 M segs) (bs - zlen tail) tail)) F) /\
    sent segs tail out.
Proof.
  pose proof (tok_space _ _ Ht) as Hs. pose proof (task_trailing_ok _ _ Ht) as Htr.
  unfold run_diff_task, diff_space.
  rewrite diff_space_ok by (try (eapply task_intervals_ok; done); lia).
  cbn [mbind res_bind]. rewrite Z.add_0_l. rewrite chk_in by (unfold uN; lia). cbn [mbind res_bind].
  fold space. pose proof plain_ok as HP. pose proof (compressed_ok cache) as HC.
  destruct (d_compression t) as [|lvl|lvl]; [|done|done].
  destruct (HP eq_refl) as (segs&tail&out&->&H). exists segs, tail, out, cache. done.
Qed.
End Send.

(** ** Receiving a diff *)
Section Receive.
Context {L : CompLib}.
#[local] Set Default Proof Using "Type".

(** The fields of a message with a four-word header. *)
Lemma msg_fields h rid x y c pad :
  uN 32 h -> uN 32 x -> uN 32 y ->
  let m := (to_le 4 h ++ to_le 4 rid ++ to_le 4 x ++ to_le 4 y) ++ c ++ pad in
  Apply.read_u32 m 0 = Ok h /\ get_range m 4 8 = Ok (to_le 4 rid) /\
  Apply.read_u32 m 8 = Ok x /\ Apply.read_u32 m 12 = Ok y /\
  get_range m 16 (16 + zlen c) = Ok c.
Proof.
  intros Hh Hx Hy m. unfold m. rewrite <- !app_assoc.
  pose proof (zlen_to_le4 h) as L1. pose proof (zlen_to_le4 rid) as L2.
  pose proof (zlen_to_le4 x) as L3. pose proof (zlen_to_le4 y) as L4.
  pose proof (zlen_nonneg c). pose proof (zlen_nonneg pad).
  split_and!.
  - by apply (read_u32_at []).
  - rewrite get_range_ok by (rewrite ?zlen_app; lia). by rewrite slice_app_mid by lia.
  - rewrite (app_assoc (to_le 4 h)). apply read_u32_at; [rewrite zlen_app; lia|done].
  - rewrite (app_assoc (to_le 4 h)), (app_assoc (to_le 4 h ++ _)).
    apply read_u32_at; [rewrite !zlen_app; lia|done].
  - rewrite get_range_ok by (rewrite ?zlen_app; lia). f_equal.
    rewrite (app_assoc (to_le 4 h)), (app_assoc (to_le 4 h ++ _)), (app_assoc (_ ++ to_le 4 x)).
    apply slice_app_mid; rewrite ?zlen_app; lia.
Qed.

(** Decoding a diff message yields the raw diff and a region that contains its changes. *)
Lemma decomp_diff_ok comp rid segs tail c bs seq tgt cache :
  encodes comp c (encode_segs segs ++ tail) -> encode_segs segs ++ tail <> [] ->
  iN 32 rid -> Forall (seg_fits 0 (bs - zlen tail)) segs -> zlen tail <= bs < 2 ^ 32 ->
  zlen (encode_segs segs ++ tail) < 2 ^ 21 ->
  exists a b cache',
    run_decomp_task (MkDecomp (Some seq)
        (diff_msg rid (zlen (encode_segs segs)) (zlen tail) c) bs comp tgt) cache =
      Ok (MkApply seq rid (encode_segs segs ++ tail) true (zlen tail) tgt a b, cache') /\
    0 <= a < b /\ b <= bs /\ (tail = [] \/ a <= bs - zlen tail /\ b = bs) /\
    Forall (inside a b) segs.
Proof.
  intros (Hcl & Hdec & _) Hne Hrid Hf Ht Hl. zlen_pos.
  assert (zlen (encode_segs segs ++ tail) / 2 ^ 7 <= zlen (encode_segs segs ++ tail))
    by (apply Z.div_le_upper_bound; lia).
  assert (Hw : uN 32 ((16 + zlen c) * 32 + 6)) by (unfold uN; lia).
  destruct (compute_diff_span_encode segs tail bs) as (a&b&Esp&Hab&Hb&Htl&Hins); [done|lia|done|lia|].
  destruct (Hdec cache) as [cache' Ed]. exists a, b, cache'. split; [|done].
  unfold run_decomp_task, decomp_diff, diff_msg. cbn [dc_msg dc_sequence dc_file_size dc_compression dc_target].
  destruct (msg_fields ((16 + zlen c) * 32 + 6) rid (zlen (encode_segs segs)) (zlen tail) c
    (zeros (4 * div_ceil (16 + zlen c) 4 - (16 + zlen c)))) as (E1&E2&E3&E4&E5);
    [done|unfold uN; zlia|unfold uN; lia|].
  rewrite E1. cbn [mbind res_bind]. rewrite (parse_build BufferDiff) by (unfold uN; lia).
  cbn [unwrap mbind res_bind]. rewrite E2. cbn [mbind res_bind].
  rewrite from_to_le_i32 by done. rewrite decide_True by done.
  rewrite E3, E4. cbn [mbind res_bind]. rewrite E5. cbn [mbind res_bind].
  rewrite <- zlen_app. rewrite chk_in by (unfold uN; lia). cbn [mbind res_bind]. rewrite Ed.
  cbn [mbind res_bind]. rewrite Esp. done.
Qed.
End Receive.

(** ** Applying a diff *)
Definition update (segs : list seg) (tail R : bytes) : bytes :=
  splice (apply_segs 0 R segs) (zlen R - zlen tail) tail.

Lemma update_region segs tail pre m post :
  Forall (seg_fits (zlen pre) (zlen m)) segs ->
  tail = [] \/ post = [] /\ zlen tail <= zlen m ->
  update segs tail (pre ++ m ++ post)
  = pre ++ splice (apply_segs (zlen pre) m segs) (zlen m - zlen tail) tail ++ post.
Proof.
  intros Hf Ht. unfold update. rewrite (apply_segs_embed (zlen pre)) by done.
  pose proof (apply_segs_len _ _ _ Hf) as Hl. destruct Ht as [->|[-> Ht]]; [by rewrite !splice_nil|].
  rewrite !app_nil_r. zlen_pos. rewrite zlen_app.
  replace (zlen pre + zlen m - zlen tail) with (zlen pre + (zlen m - zlen tail)) by lia.
  apply splice_app_r. lia.
Qed.

Lemma apply_diff_one_tail segs tail base M :
  Forall (seg_fits base (zlen M)) segs -> 0 <= base -> base + zlen M < 2 ^ 64 ->
  zlen (encode_segs segs ++ tail) < 2 ^ 64 -> zlen tail <= zlen M ->
  Apply.apply_diff_one (encode_segs segs ++ tail) (zlen tail) base M
  = Ok (splice (apply_segs base M segs) (zlen M - zlen tail) tail).
Proof.
  intros Hf Hb Hm He Ht. rewrite zlen_app in He. unfold Apply.apply_diff_one. zlen_pos.
  pose proof (encode_segs_len_4 _ _ _ Hf) as H4. pose proof (encode_segs_len_ge _ _ _ Hf) as Hge.
  rewrite zlen_app.
  replace (zlen (encode_segs segs) + zlen tail - zlen tail) with (zlen (encode_segs segs)) by lia.
  rewrite (chk_in 64 (zlen (encode_segs segs))) by (unfold uN; lia). cbn [mbind res_bind].
  rewrite assert_true by lia. cbn [mbind res_bind].
  rewrite (chk_in 64 (base + zlen M)) by (unfold uN; lia). cbn [mbind res_bind].
  pose proof (apply_one_encode base (base + zlen M) segs tail (zlen (encode_segs segs) / 4)
    (S (length (encode_segs segs ++ tail))) [] M Hf) as P. cbn [app] in P.
  change (zlen []) with 0 in P.
  rewrite P; [|Z.div_mod_to_equations; lia|lia|done|lia|unfold zlen in Hge; rewrite length_app; lia].
  cbn [mbind res_bind]. pose proof (apply_segs_len _ _ _ Hf) as Hl.
  assert (E4 : zlen (encode_segs segs) / 4 * 4 = zlen (encode_segs segs))
    by (Z.div_mod_to_equations; lia).
  destruct (Z.ltb_spec 0 (zlen tail)).
  - rewrite chk_in by (unfold uN; lia). cbn [mbind res_bind]. rewrite E4.
    rewrite get_range_ok by (rewrite ?zlen_app; lia). cbn [mbind res_bind].
    rewrite slice_app_tail, Hl. rewrite set_range_ok by lia. done.
  - rewrite (zlen_zero_nil tail) by lia. by rewrite splice_nil.
Qed.

Section ApplyDiff.
Context (R : bytes) (segs : list seg) (tail : bytes) (a b : Z).
Context (HR : zlen R < 2 ^ 32) (Htl : zlen tail <= zlen R).
Context (Hf : Forall (seg_fits 0 (zlen R - zlen tail)) segs).
Context (Hl : zlen (encode_segs segs ++ tail) < 2 ^ 21).
Context (Hab : 0 <= a < b) (Hb : b <= zlen R) (Htail : tail = [] \/ a <= zlen R - zlen tail /\ b = zlen R).
Context (Hins : Forall (inside a b) segs).
#[local] Set Default Proof Using "All".

Lemma region_parts : exists pre m post, R = pre ++ m ++ post /\ zlen pre = a /\ zlen m = b - a /\
  m = slice R a b /\
  Forall (seg_fits (zlen pre) (zlen m)) segs /\ (tail = [] \/ post = [] /\ zlen tail <= zlen m) /\
  (forall v, zlen v = b - a -> splice R a v = pre ++ v ++ post).
Proof.
  exists (slice R 0 a), (slice R a b), (slice R b (zlen R)).
  assert (L1 : zlen (slice R 0 a) = a) by (rewrite zlen_slice; lia).
  assert (L2 : zlen (slice R a b) = b - a) by (rewrite zlen_slice; lia).
  split_and!; [apply slice_decomp; lia|done|done|done| | |].
  - rewrite L1, L2. apply Forall_forall. intros s Hs. rewrite Forall_forall in Hf, Hins.
    destruct (Hf s Hs) as (?&?&?&?&?&?), (Hins s Hs). unfold seg_fits. lia.
  - destruct Htail as [->|[? ->]]; [by left|right]. split; [apply slice_nil; lia|lia].
  - intros v Hv. rewrite splice_slices by lia. do 3 f_equal. lia.
Qed.

Lemma apply_shm_diff_ok seq rid tgt skip :
  run_apply_shm (MkApply seq rid (encode_segs segs ++ tail) true (zlen tail) tgt a b) skip
    (MkCore (idle R) R)
  = Ok (ApplyDone rid, MkCore (idle (update segs tail R)) (update segs tail R)).
Proof.
  destruct region_parts as (pre&m&post&ER&L1&L2&Em&Hf1&Ht1&Hsp).
  unfold run_apply_shm. cbn [a_is_diff_type mem_mirror mapping region_start region_end a_data a_ntrailing].
  set (m' := splice (apply_segs (zlen pre) m segs) (zlen m - zlen tail) tail).
  assert (Hm' : zlen m' = b - a).
  { unfold m'. pose proof (apply_segs_len _ _ _ Hf1). zlen_pos. rewrite zlen_splice; [lia| |].
    - destruct Ht1 as [->|[_ ?]]; [change (zlen []) with 0|]; lia.
    - lia. }
  assert (EU : update segs tail R = pre ++ m' ++ post) by (rewrite ER; by apply update_region).
  rewrite (with_range_ok R m' a b _ _ (pre ++ m' ++ post)); [|lia|done| |done].
  - cbn [mbind res_bind]. by rewrite Hsp, EU by done.
  - rewrite <- Em. rewrite ER at 1. rewrite <- L1. apply apply_diff_encode; [done|lia| |done].
    rewrite <- ER. lia.
Qed.

Lemma apply_mirror_diff_ok seq rid tgt notify :
  run_apply_mirror (MkApply seq rid (encode_segs segs ++ tail) true (zlen tail) tgt a b) notify
    (idle R)
  = Ok (if notify then ApplyDone rid else MirrorApply, idle (update segs tail R)).
Proof.
  destruct region_parts as (pre&m&post&ER&L1&L2&Em&Hf1&Ht1&Hsp).
  unfold run_apply_mirror. cbn [a_is_diff_type region_start region_end a_data a_ntrailing a_remote_id].
  set (m' := splice (apply_segs (zlen pre) m segs) (zlen m - zlen tail) tail).
  assert (Htm : zlen tail <= zlen m) by (destruct Ht1 as [->|[_ ?]]; [change (zlen []) with 0|]; lia).
  assert (Hm' : zlen m' = b - a).
  { unfold m'. pose proof (apply_segs_len _ _ _ Hf1). zlen_pos. rewrite zlen_splice; lia. }
  assert (EU : update segs tail R = pre ++ m' ++ post) by (rewrite ER; by apply update_region).
  rewrite (with_range_ok R m' a b _ _ tt); [|lia|done| |done].
  - cbn [mbind res_bind snd]. by rewrite Hsp, EU by done.
  - rewrite <- Em. rewrite <- L1. rewrite apply_diff_one_tail by (done || lia). done.
Qed.
End ApplyDiff.

(** What the receiving side reports, and which of its copies it updates. *)
Definition apply_report (tgt : DecompTarget) (rid : Z) : TaskOutput :=
  match tgt with
  | TFile _ | TMirrorOnly true => ApplyDone rid
  | TMirrorOnly false => MirrorApply
  end.
Definition apply_effect (tgt : DecompTarget) (old new : bytes) : ShadowFdFileCore :=
  MkCore (idle new) (match tgt with TFile _ => new | TMirrorOnly _ => old end).

Lemma update_nothing base len segs tail R :
  Forall (seg_fits base len) segs -> encode_segs segs ++ tail = [] -> update segs tail R = R.
Proof.
  intros Hf [E ->]%app_eq_nil. pose proof (encode_segs_len_ge _ _ _ Hf) as Hge. rewrite E in Hge.
  change (zlen []) with 0 in Hge.
  assert (segs = []) as -> by (apply zlen_zero_nil; zlen_pos; lia).
  unfold update. by rewrite splice_nil.
Qed.

(** C1: a diff task carries the damage of a file across, end to end: for a task as
    [collect_updates] makes them, [run_diff_task] succeeds with any codec and any cache; the
    mirror takes the file's data exactly at the bytes the task covers; no message means
    nothing changed; and the message, decoded and applied by a receiver whose copies equal the
    old mirror, leaves the receiver's file and mirror equal to the new mirror. *)
Theorem diff_task_replicates {L : CompLib} {Laws : CompLibLaws L} bs (F M : bytes) t cache :
  zlen F = bs -> zlen M = bs -> bs < 2 ^ 32 -> task_ok bs t ->
  compression_wf (d_compression t) -> iN 32 (d_rid t) ->
  exists out cache' M',
    run_diff_task t cache (MkCore (idle M) F) = Ok (out, cache', MkCore (idle M') F) /\
    (forall k : nat, M' !! k = if task_covers bs t (Z.of_nat k) then F !! k else M !! k) /\
    (out = [] -> M' = M) /\
    (out <> [] -> forall seq tgt rcache, exists ap rcache',
       run_decomp_task (MkDecomp (Some seq) out bs (d_compression t) tgt) rcache = Ok (ap, rcache') /\
       a_sequence ap = seq /\
       run_apply_task ap (MkCore (idle M) M)
         = Ok (apply_report tgt (d_rid t), apply_effect tgt M M')).
Proof.
  intros HF HM Hbs Ht Hc Hrid.
  destruct (run_diff_task_ok bs F M t HF HM Hbs Ht Hc cache) as (segs&tail&out&cache'&E&[Hf Htl Hl Hnew Hmsg]).
  exists out, cache', (update segs tail M). unfold update at 1 2. rewrite HM. split; [done|]. split; [done|].
  destruct Hmsg as [[Ee ->]|(Hne & c & Henc & ->)].
  - split; [|done]. intros _. by eapply update_nothing.
  - split; [unfold diff_msg, to_le; by cbn [le_split app]|]. intros _ seq tgt rcache.
    destruct (decomp_diff_ok (d_compression t) (d_rid t) segs tail c bs seq tgt rcache)
      as (a&b&rc&->&Hab&Hb&Htail&Hins); [done..|lia|done|].
    eexists _, rc. split; [done|]. split; [done|]. rewrite <- HM in *.
    unfold run_apply_task. cbn [a_target]. destruct tgt as [skip|notify].
    + by apply apply_shm_diff_ok.
    + cbn [mem_mirror mapping]. rewrite apply_mirror_diff_ok by done. by destruct notify.
Qed.

Definition demo_task : DiffTask := MkDiff 7 (Some (64, 128)) [(64, 128)] 5 (Zstd 1).

Lemma diff_task_replicates_witness :
  exists out cache' M',
    run_diff_task (L := stored) demo_task (MkTC [] (MkCache false false false))
        (MkCore (idle (zeros 133)) (replicate 133 Byte.x01))
      = Ok (out, cache', MkCore (idle M') (replicate 133 Byte.x01)) /\
    (forall k : nat, M' !! k = if task_covers 133 demo_task (Z.of_nat k)
                               then replicate 133 Byte.x01 !! k else zeros 133 !! k) /\
    (out = [] -> M' = zeros 133) /\
    (out <> [] -> forall seq tgt rcache, exists ap rcache',
       run_decomp_task (L := stored) (MkDecomp (Some seq) out 133 (Zstd 1) tgt) rcache
         = Ok (ap, rcache') /\
       a_sequence ap = seq /\
       run_apply_task ap (MkCore (idle (zeros 133)) (zeros 133))
         = Ok (apply_report tgt 7, apply_effect tgt (zeros 133) M')).
Proof.
  apply (diff_task_replicates (L := stored) 133 (replicate 133 Byte.x01) (zeros 133) demo_task);
    [done|done|lia| |unfold compression_wf, iN; cbn; lia|unfold iN; cbn; lia].
  split; [right; done|cbn; repeat constructor; vm_compute; congruence|cbn; lia].
Defined.

(** ** Read-only files *)
Definition fill_msg (rid start end_ : Z) (c : bytes) : list bytes :=
  let n := 16 + zlen c in
  let pad := 4 * div_ceil (zlen c) 4 - zlen c in
  [to_le 4 (n * 32 + 5) ++ to_le 4 rid ++ to_le 4 start ++ to_le 4 end_; c]
  ++ (if 0 <? pad then [zeros pad] else []).

(** A receiver of a read-only file handles one message; it keeps no mirror. *)
Definition receive {L : CompLib} (comp : Compression) (bs : Z) (core : ShadowFdFileCore)
    (msg : bytes) : res ShadowFdFileCore :=
  r ← run_decomp_task (MkDecomp (Some 0) msg bs comp (TFile true)) (MkCache false false false);
  r ← run_apply_task r.1 core;
  Ok r.2.

Section Fill.
Context {L : CompLib} `{Laws : !CompLibLaws L}.
Context (rid bs : Z) (F : bytes) (comp : Compression).
Context (HF : zlen F = bs) (Hbs : 0 < bs < 2 ^ 32) (Hrid : iN 32 rid) (Hcomp : compression_wf comp).
#[local] Set Default Proof Using "All".

Lemma fill_compress_ok x : zlen x <= lz4_max_input ->
  exists c, fill_compress comp x = Ok c /\ encodes comp c x.
Proof.
  intros Hx. destruct (comp_into_vec_ok comp (MkCache true true true) x 0 0)
    as (c&cache&E&H); [done|done|lia|lia|]. exists c. split; [|done].
  destruct allocations as (H1&_&H3). unfold fill_compress, lz4_make_cctx, zstd_make_cctx.
  rewrite H1, H3.
  destruct comp as [|lvl|lvl]; cbn [comp_into_vec get_lz4_cctx get_zstd_cctx lz4_c zstd_c] in E;
    cbn [unwrap mbind res_bind] in *; change (zeros 0) with (@nil byte) in E;
    cbn [app] in E; rewrite ?app_nil_r in E; [congruence|destruct (lz4_compress_to_vec _ _ _ _)
    |destruct (zstd_compress_to_vec _ _ _ _)]; cbn [mbind res_bind] in E; congruence.
Qed.

Lemma concat_fill_msg s e c : exists pad,
  concat (fill_msg rid s e c) =
  (to_le 4 ((16 + zlen c) * 32 + 5) ++ to_le 4 rid ++ to_le 4 s ++ to_le 4 e) ++ c ++ pad.
Proof.
  unfold fill_msg. case_match; cbn [concat app]; [eexists (zeros _)|exists []];
    rewrite ?app_nil_r; by rewrite <- ?app_assoc.
Qed.

(** One shard: the messages pushed, and their effect at the receiver. *)
Lemma fill_piece_ok s e R m0 :
  0 <= s < e -> e <= bs -> e - s <= 2 ^ 19 -> zlen R = bs ->
  exists c, fill_compress comp (slice F s e) = Ok c /\ zlen c < 2 ^ 21 /\
    receive comp bs (MkCore m0 R) (concat (fill_msg rid s e c))
      = Ok (MkCore m0 (splice R s (slice F s e))).
Proof.
  intros Hs He Hes HR. set (x := slice F s e).
  assert (Hx : zlen x = e - s) by (unfold x; rewrite zlen_slice; lia).
  destruct (fill_compress_ok x) as (c&Ec&Hcl&Hdec&_); [unfold lz4_max_input; lia|].
  assert (zlen x / 2 ^ 7 <= zlen x) by (apply Z.div_le_upper_bound; lia).
  assert (Hc : zlen c < 2 ^ 21) by lia. exists c. split; [done|]. split; [done|]. zlen_pos.
  destruct (concat_fill_msg s e c) as [pad ->]. unfold receive, run_decomp_task, decomp_fill.
  cbn [dc_msg dc_sequence dc_file_size dc_compression dc_target].
  destruct (msg_fields ((16 + zlen c) * 32 + 5) rid s e c pad) as (E1&E2&E3&E4&E5);
    [unfold uN; lia..|].
  rewrite E1. cbn [mbind res_bind]. rewrite (parse_build BufferFill) by (unfold uN; lia).
  cbn [unwrap mbind res_bind]. rewrite E2. cbn [mbind res_bind]. rewrite from_to_le_i32 by done.
  rewrite decide_False, decide_True by done. rewrite E3. cbn [mbind res_bind].
  rewrite E4. cbn [mbind res_bind]. replace (e <=? s) with false by lia.
  rewrite E5. cbn [mbind res_bind]. rewrite <- Hx.
  destruct (Hdec (MkCache false false false)) as [ch ->]. cbn [mbind res_bind unwrap fst].
  unfold run_apply_task, run_apply_shm.
  cbn [a_target a_is_diff_type a_data region_start region_end mapping mem_mirror].
  unfold Mapping.copy_onto_mapping, Mapping.get_u8. replace (zlen x =? 0) with false by lia.
  rewrite set_range_ok by lia. done.
Qed.

Let u : Z := bs / 64.
Let n : Z := if (div_ceil u 4096 =? 0) && (0 <? bs mod 64) then 1 else div_ceil u 4096.

Lemma fill_bounds i : 0 <= i < n -> exists a b,
  split_interval 0 u n i = Ok a /\ split_interval 0 u n (i + 1) = Ok b /\
  0 <= a <= b /\ b < 2 ^ 26 /\
  let e := if i =? n - 1 then 64 * b + bs mod 64 else 64 * b in
  64 * a < e /\ e <= bs /\ e - 64 * a <= 2 ^ 19 /\ (i = n - 1 -> e = bs).
Proof.
  intros Hi. assert (Hu : 0 <= u < 2 ^ 26) by (unfold u; Z.div_mod_to_equations; lia).
  assert (Hb : bs = 64 * u + bs mod 64) by (unfold u; apply Z.div_mod; lia).
  pose proof (Z.mod_pos_bound bs 64 ltac:(lia)) as Hm.
  assert (Hn : n = if u =? 0 then 1 else div_ceil u 4096).
  { unfold n. destruct (Z.eqb_spec u 0) as [->|E0].
    - change (div_ceil 0 4096 =? 0) with true. by rewrite (proj2 (Z.ltb_lt _ _)) by lia.
    - destruct (shards_bounds u (div_ceil u 4096)) as [? _]; [lia|done|].
      by replace (div_ceil u 4096 =? 0) with false by lia. }
  clearbody n u. destruct (Z.eqb_spec u 0) as [->|E0].
  - subst n. assert (i = 0) as -> by lia. exists 0, 0. rewrite !split_interval_eq by lia.
    split_and!; try done; cbv beta zeta; change (0 =? 1 - 1) with true; cbv iota; lia.
  - rename Hn into En.
    destruct (shards_bounds u n) as (B1&B2&_); [lia|done|].
    destruct (piece_ok u n ltac:(lia) En i Hi) as (a&b&E1&E2&?&?&?). exists a, b.
    split_and!; [done|done|lia|lia|lia|]. cbn zeta.
    assert (i = n - 1 -> b = u).
    { intros ->. replace (n - 1 + 1) with n in E2 by lia. rewrite split_interval_last in E2 by lia.
      by injection E2. }
    destruct (Z.eqb_spec i (n - 1)); split_and!; lia.
Qed.

Lemma splice_prefix (R : bytes) s e :
  0 <= s <= e -> e <= bs -> zlen R = bs -> slice R 0 s = slice F 0 s ->
  zlen (splice R s (slice F s e)) = bs /\
  slice (splice R s (slice F s e)) 0 e = slice F 0 e.
Proof.
  intros Hs He HR Heq. assert (Hl : zlen (slice F s e) = e - s) by (rewrite zlen_slice; lia).
  split; [rewrite zlen_splice; lia|].
  rewrite splice_slices by lia. rewrite Heq, Hl.
  assert (H0 : zlen (slice F 0 s) = s) by (rewrite zlen_slice; lia).
  rewrite app_assoc. rewrite slice_app_l by (rewrite ?zlen_app; lia).
  rewrite <- slice_split by lia. rewrite slice_slice by lia. f_equal; lia.
Qed.

Lemma fill_loop_ok m : forall k msgs,
  Z.of_nat k + Z.of_nat m = n ->
  exists pieces new,
    foldM (fill_step rid u n (bs mod 64) F comp) msgs (map Z.of_nat (seq k m)) = Ok (msgs ++ new) /\
    concat new = concat pieces /\
    forall R m0 p, zlen R = bs -> slice R 0 p = slice F 0 p ->
      (forall a, Z.of_nat k < n -> split_interval 0 u n (Z.of_nat k) = Ok a -> p = 64 * a) ->
      (Z.of_nat k = n -> p = bs) ->
      foldM (receive comp bs) (MkCore m0 R) pieces = Ok (MkCore m0 F).
Proof.
  induction m as [|m IH]; intros k msgs Hk.
  - exists [], []. rewrite app_nil_r. split; [done|]. split; [done|].
    intros R m0 p HR Heq _ Hp. rewrite Hp in Heq by lia. rewrite <- HR in Heq at 1.
    rewrite <- HF in Heq at 1. rewrite !slice_all in Heq. by rewrite Heq.
  - destruct (fill_bounds (Z.of_nat k) ltac:(lia)) as (a&b&E1&E2&Ha&Hb&He). cbn zeta in He.
    set (e := if Z.of_nat k =? n - 1 then 64 * b + bs mod 64 else 64 * b) in He.
    destruct He as (He1&He2&He3&He4).
    destruct (fill_piece_ok (64 * a) e F (idle []) ltac:(lia) He2 He3 HF) as (c&Ec&Hc&_).
    destruct (IH (S k) (msgs ++ fill_msg rid (64 * a) e c)) as (pieces&new&En&Ecat&Hrest); [lia|].
    exists (concat (fill_msg rid (64 * a) e c) :: pieces), (fill_msg rid (64 * a) e c ++ new).
    assert (ES : fill_step rid u n (bs mod 64) F comp msgs (Z.of_nat k)
                 = Ok (msgs ++ fill_msg rid (64 * a) e c)).
    { unfold fill_step. rewrite E1. cbn [mbind res_bind]. rewrite chk_in by (unfold uN; lia).
      cbn [mbind res_bind]. rewrite E2. cbn [mbind res_bind]. rewrite (chk_in 32 (64 * b)) by (unfold uN; lia).
      cbn [mbind res_bind]. pose proof (Z.mod_pos_bound bs 64 ltac:(lia)) as Hm.
      assert ((if Z.of_nat k =? n - 1 then u32 (64 * b + wrap 32 (bs mod 64)) else Ok (64 * b)) = Ok e) as ->.
      { unfold e, wrap in *. rewrite (Z.mod_small (bs mod 64)) by lia.
        case_match; [rewrite chk_in by (unfold uN; lia)|]; done. }
      cbn [mbind res_bind]. rewrite chk_in by (unfold uN; lia). cbn [mbind res_bind].
      unfold Mapping.copy_from_mapping, Mapping.get_u8. rewrite get_range_ok by lia. cbn [mbind res_bind].
      replace (64 * a + (e - 64 * a)) with e by lia. rewrite Ec. cbn [mbind res_bind]. zlen_pos.
      rewrite build_wmsg_header_ok by (unfold uN; lia). cbn [mbind res_bind].
      rewrite align4_ok by lia. done. }
    cbn [seq map foldM]. rewrite ES. cbn [mbind res_bind]. rewrite En.
    split; [by rewrite <- app_assoc|]. split; [rewrite concat_app, Ecat; done|].
    intros R m0 p HR Heq Hp _. specialize (Hp a ltac:(lia) E1) as ->.
    destruct (fill_piece_ok (64 * a) e R m0 ltac:(lia) He2 He3 HR) as (c'&Ec'&_&Er).
    assert (c' = c) as -> by congruence. cbn [foldM]. rewrite Er. cbn [mbind res_bind].
    destruct (splice_prefix R (64 * a) e ltac:(lia) He2 HR Heq) as [HR' Heq'].
    eapply Hrest; [done|exact Heq'| |].
    + intros a' Hlt. replace (Z.of_nat (S k)) with (Z.of_nat k + 1) by lia. rewrite E2.
      intros [= <-]. unfold e. case_match; lia.
    + intros. apply He4. lia.
Qed.

Lemma fill_transfers_ok msgs : exists pieces new,
  construct_fill_transfers rid bs F msgs comp = Ok (msgs ++ new) /\ concat new = concat pieces /\
  forall R m0, zlen R = bs -> foldM (receive comp bs) (MkCore m0 R) pieces = Ok (MkCore m0 F).
Proof.
  assert (Hu : wrap 32 (bs / 64) = u)
    by (unfold u, wrap; apply Z.mod_small; Z.div_mod_to_equations; lia).
  assert (Hn : 0 < n < 2 ^ 15).
  { assert (Hu2 : u < 2 ^ 26 /\ 0 <= u /\ (u <> 0 \/ 0 < bs mod 64))
      by (unfold u; Z.div_mod_to_equations; lia).
    unfold n. destruct (Z.eq_dec u 0) as [E0|E0].
    - rewrite E0. change (div_ceil 0 4096 =? 0) with true. rewrite (proj2 (Z.ltb_lt _ _)) by lia.
      cbn [andb]. lia.
    - destruct (shards_bounds u (div_ceil u 4096)) as [? _]; [lia|done|].
      by replace (div_ceil u 4096 =? 0) with false by lia. }
  destruct (fill_loop_ok (Z.to_nat n) 0 msgs ltac:(lia)) as (pieces&new&E&Ec&H).
  exists pieces, new. split.
  - unfold construct_fill_transfers. rewrite Hu. unfold ceildiv.
    change (DIFF_CHUNKSIZE / 64) with 4096. change (4096 =? 0) with false. cbn [mbind res_bind].
    exact E.
  - split; [done|]. intros R m0 HR. apply (H R m0 0 HR); [done| |lia].
    intros a _. cbn. rewrite split_interval_first; [intros [= <-]; done|..]; unfold u; try lia;
      Z.div_mod_to_equations; lia.
Qed.
End Fill.

(** C22: a read-only file is transferred whole: [construct_fill_transfers] succeeds with any
    codec, the chunks it appends concatenate to a sequence of fill messages, and a receiver
    that starts with any file of the same size and decodes and applies them in order ends with
    the sender's contents. *)
Theorem fill_transfers_replicate {L : CompLib} {Laws : CompLibLaws L} rid bs (F : bytes) comp msgs :
  zlen F = bs -> 0 < bs < 2 ^ 32 -> iN 32 rid -> compression_wf comp ->
  exists pieces new,
    construct_fill_transfers rid bs F msgs comp = Ok (msgs ++ new) /\ concat new = concat pieces /\
    forall R m0, zlen R = bs -> foldM (receive comp bs) (MkCore m0 R) pieces = Ok (MkCore m0 F).
Proof. intros. by apply fill_transfers_ok. Qed.

Lemma fill_transfers_replicate_witness :
  exists pieces new,
    construct_fill_transfers (L := stored) 9 3 [Byte.x41; Byte.x42; Byte.x43] [] (Lz4 2)
      = Ok ([] ++ new) /\ concat new = concat pieces /\
    forall R m0, zlen R = 3 ->
      foldM (receive (L := stored) (Lz4 2) 3) (MkCore m0 R) pieces
        = Ok (MkCore m0 [Byte.x41; Byte.x42; Byte.x43]).
Proof.
  apply (fill_transfers_replicate (L := stored) 9 3 [Byte.x41; Byte.x42; Byte.x43] (Lz4 2) []);
    [done|lia|unfold iN; lia|unfold compression_wf, iN; lia].
Defined.
