(* ===== verification/Dmabuf.v ===== *)
(** * [src/dmabuf.rs], [src/gbm.rs]: pixel formats, devices and copies of DMABUFs

    What Waypipe itself decides about graphics buffers: which Vulkan format a DRM format is
    imported with and its bytes per pixel; which device and which memory type is used; which
    images can be imported or created; and which parts of an image a copy between image and
    staging buffer touches ([make_copy_regions]), or, with GBM, the copy between mappings of
    different strides ([stride_adjusted_copy]). The calls of Vulkan and GBM are parameters. *)
From Stdlib Require Import ZArith Lia.
From stdpp Require Import sorting.
From S2P Require Import Prelude Util Formats TrackState.
Local Open Scope Z_scope.
Import Util.Arith.

(** ** Formats *)

(** The values of [vk::Format] the source names. *)
Inductive VkFormat :=
| R4G4B4A4_UNORM_PACK16 | B4G4R4A4_UNORM_PACK16 | R5G6B5_UNORM_PACK16 | B5G6R5_UNORM_PACK16
| A1B5G5R5_UNORM_PACK16_KHR | A1R5G5B5_UNORM_PACK16 | B5G5R5A1_UNORM_PACK16 | R5G5B5A1_UNORM_PACK16
| R8_UNORM | R8G8_UNORM | R8G8B8_UNORM | B8G8R8_UNORM | R8G8B8A8_UNORM | B8G8R8A8_UNORM
| A2R10G10B10_UNORM_PACK32 | A2B10G10R10_UNORM_PACK32 | R16_UNORM | R16G16_UNORM
| R16G16B16A16_UNORM | R16G16B16A16_SFLOAT | G8B8G8R8_422_UNORM | B8G8R8G8_422_UNORM
| G8_B8_R8_3PLANE_420_UNORM | G8_B8_R8_3PLANE_422_UNORM | G8_B8_R8_3PLANE_444_UNORM
| G8_B8R8_2PLANE_420_UNORM | G8_B8R8_2PLANE_422_UNORM | G16_B16R16_2PLANE_420_UNORM
| G16_B16_R16_3PLANE_444_UNORM.
#[export] Instance VkFormat_eq_dec : EqDecision VkFormat.
Proof. solve_decision. Defined.

Definition SUPPORTED_FORMAT_LIST : list VkFormat :=
  [R4G4B4A4_UNORM_PACK16; B4G4R4A4_UNORM_PACK16; R5G6B5_UNORM_PACK16; B5G6R5_UNORM_PACK16;
   A1R5G5B5_UNORM_PACK16; B5G5R5A1_UNORM_PACK16; R5G5B5A1_UNORM_PACK16; R8_UNORM; R8G8_UNORM;
   R8G8B8_UNORM; B8G8R8_UNORM; R8G8B8A8_UNORM; B8G8R8A8_UNORM; A2R10G10B10_UNORM_PACK32;
   A2B10G10R10_UNORM_PACK32; R16_UNORM; R16G16_UNORM; R16G16B16A16_UNORM; R16G16B16A16_SFLOAT;
   G8_B8_R8_3PLANE_444_UNORM].

Record FormatLayoutInfo := MkInfo { bpp : Z; nplanes : Z }.

Definition get_vulkan_info (f : VkFormat) : res FormatLayoutInfo :=
  match f with
  | R4G4B4A4_UNORM_PACK16 | B4G4R4A4_UNORM_PACK16 | R5G6B5_UNORM_PACK16 | B5G6R5_UNORM_PACK16
  | A1R5G5B5_UNORM_PACK16 | B5G5R5A1_UNORM_PACK16 | R5G5B5A1_UNORM_PACK16 => Ok (MkInfo 2 1)
  | R8_UNORM => Ok (MkInfo 1 1)
  | R8G8_UNORM => Ok (MkInfo 2 1)
  | R8G8B8_UNORM | B8G8R8_UNORM => Ok (MkInfo 3 1)
  | R8G8B8A8_UNORM | B8G8R8A8_UNORM => Ok (MkInfo 4 1)
  | A2R10G10B10_UNORM_PACK32 | A2B10G10R10_UNORM_PACK32 => Ok (MkInfo 4 1)
  | R16_UNORM => Ok (MkInfo 2 1)
  | R16G16_UNORM => Ok (MkInfo 4 1)
  | R16G16B16A16_UNORM | R16G16B16A16_SFLOAT => Ok (MkInfo 8 1)
  | G8B8G8R8_422_UNORM => Ok (MkInfo 2 1)
  | G8_B8_R8_3PLANE_420_UNORM | G8_B8_R8_3PLANE_422_UNORM | G8_B8_R8_3PLANE_444_UNORM => Ok (MkInfo 2 3)
  | G8_B8R8_2PLANE_420_UNORM | G8_B8R8_2PLANE_422_UNORM | G16_B16R16_2PLANE_420_UNORM => Ok (MkInfo 2 2)
  | G16_B16_R16_3PLANE_444_UNORM => Ok (MkInfo 2 3)
  | A1B5G5R5_UNORM_PACK16_KHR | B8G8R8G8_422_UNORM => Panic
  end.

Definition shm_to_vulkan (f : WlShmFormat) : option VkFormat :=
  match f with
  | R8 => Some R8_UNORM
  | Gr88 => Some R8G8_UNORM
  | Rgb888 => Some B8G8R8_UNORM
  | Bgr888 => Some R8G8B8_UNORM
  | Abgr8888 | Xbgr8888 => Some R8G8B8A8_UNORM
  | Argb8888 | Xrgb8888 => Some B8G8R8A8_UNORM
  | Rgba4444 | Rgbx4444 => Some R4G4B4A4_UNORM_PACK16
  | Bgra4444 | Bgrx4444 => Some B4G4R4A4_UNORM_PACK16
  | Rgb565 => Some R5G6B5_UNORM_PACK16
  | Bgr565 => Some B5G6R5_UNORM_PACK16
  | Abgr1555 | Xbgr1555 => Some A1B5G5R5_UNORM_PACK16_KHR
  | Argb1555 | Xrgb1555 => Some A1R5G5B5_UNORM_PACK16
  | Bgra5551 | Bgrx5551 => Some B5G5R5A1_UNORM_PACK16
  | Rgba5551 | Rgbx5551 => Some R5G5B5A1_UNORM_PACK16
  | Argb2101010 | Xrgb2101010 => Some A2R10G10B10_UNORM_PACK32
  | Abgr2101010 | Xbgr2101010 => Some A2B10G10R10_UNORM_PACK32
  | R16 => Some R16_UNORM
  | Gr1616 => Some R16G16_UNORM
  | Abgr16161616 | Xbgr16161616 => Some R16G16B16A16_UNORM
  | Abgr16161616f | Xbgr16161616f => Some R16G16B16A16_SFLOAT
  | Yuyv => Some G8B8G8R8_422_UNORM
  | Uyvy => Some B8G8R8G8_422_UNORM
  | Yuv420 => Some G8_B8_R8_3PLANE_420_UNORM
  | Yuv422 => Some G8_B8_R8_3PLANE_422_UNORM
  | Yuv444 => Some G8_B8_R8_3PLANE_444_UNORM
  | Nv12 => Some G8_B8R8_2PLANE_420_UNORM
  | Nv16 => Some G8_B8R8_2PLANE_422_UNORM
  | P016 => Some G16_B16R16_2PLANE_420_UNORM
  | Q401 => Some G16_B16_R16_3PLANE_444_UNORM
  | _ => None
  end.

(** The format of a DRM code; the codes 0 and 1 are Wayland's, not DRM's. *)
Definition drm_to_vulkan (drm_format : Z) : option VkFormat :=
  if (drm_format =? 0) || (drm_format =? 1) then None else
  f ← match try_from drm_format with
      | Some f => Some f
      | None =>
          if drm_format =? fourcc "A" "R" "2" "4" then Some Argb8888
          else if drm_format =? fourcc "X" "R" "2" "4" then Some Xrgb8888
          else None
      end;
  shm_to_vulkan f.

(** The single-plane formats GBM buffers may have. *)
Definition get_bpp_if_rgb_planar (fmt : Z) : option Z :=
  if (fmt =? fourcc "A" "R" "2" "4") || (fmt =? fourcc "X" "R" "2" "4") then Some 4 else
  f ← try_from fmt;
  match f with
  | Argb8888 | Xrgb8888 => Some 4
  | Rgb332 | Bgr233 => Some 1
  | Xrgb4444 | Xbgr4444 | Rgbx4444 | Bgrx4444 | Argb4444 | Abgr4444 | Rgba4444 | Bgra4444
  | Xrgb1555 | Xbgr1555 | Rgbx5551 | Bgrx5551 | Argb1555 | Abgr1555 | Rgba5551 | Bgra5551
  | Rgb565 | Bgr565 => Some 2
  | Rgb888 | Bgr888 => Some 3
  | Xbgr8888 | Rgbx8888 | Bgrx8888 | Abgr8888 | Rgba8888 | Bgra8888 | Xrgb2101010
  | Xbgr2101010 | Rgbx1010102 | Bgrx1010102 | Argb2101010 | Abgr2101010 | Rgba1010102
  | Bgra1010102 => Some 4
  | R8 => Some 1
  | R16 | Rg88 | Gr88 => Some 2
  | Rg1616 | Gr1616 => Some 4
  | Xrgb16161616f | Xbgr16161616f | Argb16161616f | Abgr16161616f => Some 8
  | Xrgb16161616 | Xbgr16161616 | Argb16161616 | Abgr16161616 => Some 8
  | _ => None
  end.

Definition GBM_SUPPORTED_FORMATS : list Z :=
  [fourcc "A" "R" "2" "4"; fourcc "X" "R" "2" "4"] ++
  (format_code <$>
    [Rgb332; Bgr233; Xrgb4444; Xbgr4444; Rgbx4444; Bgrx4444; Argb4444; Abgr4444; Rgba4444; Bgra4444;
     Xrgb1555; Xbgr1555; Rgbx5551; Bgrx5551; Argb1555; Abgr1555; Rgba5551; Bgra5551; Rgb565; Bgr565;
     Rgb888; Bgr888; Xbgr8888; Rgbx8888; Bgrx8888; Abgr8888; Rgba8888; Bgra8888; Xrgb2101010;
     Xbgr2101010; Rgbx1010102; Bgrx1010102; Argb2101010; Abgr2101010; Rgba1010102; Bgra1010102; R8;
     R16; Rg88; Gr88; Rg1616; Gr1616; Xrgb16161616f; Xbgr16161616f; Argb16161616f; Abgr16161616f;
     Xrgb16161616; Xbgr16161616; Argb16161616; Abgr16161616]).

(** ** Physical devices *)
Inductive PhysicalDeviceType := DISCRETE_GPU | INTEGRATED_GPU | VIRTUAL_GPU | CPU | OTHER.

Record DeviceInfo := MkDev {
  physdev : Z; render_device_id : Z; primary_device_id : option Z; typ : PhysicalDeviceType;
  hw_enc_h264 : bool; hw_dec_h264 : bool; hw_enc_av1 : bool; hw_dec_av1 : bool;
  dev_timeline_import_export : bool; supports_binary_import : bool }.

Definition device_rank (info : DeviceInfo) : Z :=
  let base_score := match typ info with
                    | DISCRETE_GPU => 0 | INTEGRATED_GPU => 1 | VIRTUAL_GPU => 2 | CPU | OTHER => 3
                    end in
  let hw_enc := hw_enc_h264 info || hw_enc_av1 info in
  let hw_dec := hw_dec_h264 info || hw_dec_av1 info in
  base_score * 4 + Z.b2z (negb hw_enc) + 2 * Z.b2z (negb hw_dec).

Definition pick_device (physdevs : list DeviceInfo) (main_device : option Z) : option DeviceInfo :=
  match main_device with
  | Some d =>
      List.find (fun x => (render_device_id x =? d) || bool_decide (primary_device_id x = Some d)) physdevs
  | None =>
      fold_left (fun best_device x =>
        match best_device with
        | Some cur => if device_rank x <? device_rank cur then Some x else best_device
        | None => Some x
        end) physdevs None
  end.
Definition instance_has_device (physdevs : list DeviceInfo) (main_device : option Z) : bool :=
  bool_decide (is_Some (pick_device physdevs main_device)).
Definition instance_supports_timelines (physdevs : list DeviceInfo) (main_device : option Z) : bool :=
  match pick_device physdevs main_device with Some d => dev_timeline_import_export d | None => false end.

(** Flags of [vk::MemoryPropertyFlags]; [memory_types] are the flags of each type. *)
Definition HOST_VISIBLE : Z := 2.
Definition HOST_CACHED : Z := 8.
Fixpoint memory_type_from (i : Z) (memory_types : list Z) (bitmask flags : Z) : res (option Z) :=
  match memory_types with
  | [] => Ok None
  | t :: rest =>
      if Z.land t flags =? flags then
        assert_ (i <? 32);;
        if negb (Z.land bitmask (Z.shiftl 1 i) =? 0) then Ok (Some i)
        else memory_type_from (i + 1) rest bitmask flags
      else memory_type_from (i + 1) rest bitmask flags
  end.
Definition vulkan_get_memory_type_index (memory_types : list Z) (bitmask flags : Z) : res (option Z) :=
  memory_type_from 0 memory_types bitmask flags.

(** The memory type of a staging buffer: visible to the host, and cached if it is to be read. *)
Definition buffer_memory_type (memory_types : list Z) (memory_type_bits : Z) (read_optimized : bool) : res Z :=
  mem_index ← vulkan_get_memory_type_index memory_types memory_type_bits HOST_VISIBLE;
  match mem_index with
  | None => Err "No acceptable host visible memory type index for buffer"
  | Some mem_index =>
      if read_optimized then
        c ← vulkan_get_memory_type_index memory_types memory_type_bits (Z.lor HOST_VISIBLE HOST_CACHED);
        Ok (default mem_index c)
      else Ok mem_index
  end.

(** ** Images a device can hold

    [formats] of [VulkanDevice]: for each format the modifiers, with the largest size for
    transfers and, if supported, for storing and sampling. *)
Record ModifierData := MkMod {
  plane_count : Z; max_size_transfer : Z * Z; max_size_store_and_sample : option (Z * Z) }.
Abbreviation FormatData := (list (Z * ModifierData)).
Definition Formats_ : Type := VkFormat -> option FormatData.

Definition modifier_position (data : FormatData) (modifier : Z) : option ModifierData :=
  snd <$> List.find (fun m => m.1 =? modifier) data.

Inductive VulkanImageParameterMismatch := FormatMismatch | ModifierMismatch | SizeMismatch (max_size : Z * Z).

Definition image_size_limit (d : ModifierData) (can_store_and_sample : bool) : res (Z * Z) :=
  if can_store_and_sample then unwrap (max_size_store_and_sample d) else Ok (max_size_transfer d).

Definition same_modifier (ps : list AddDmabufPlane) : res Z :=
  p ← unwrap (head ps);
  assert_ (forallb (fun x => plane_modifier x =? plane_modifier p) ps);;
  Ok (plane_modifier p).

Definition image_importable (formats : Formats_) (drm_format width height : Z)
    (ps : list AddDmabufPlane) (can_store_and_sample : bool) : res (unit + VulkanImageParameterMismatch) :=
  modifier ← same_modifier ps;
  match drm_to_vulkan drm_format ≫= formats with
  | None => Ok (inr FormatMismatch)
  | Some data =>
      match modifier_position data modifier with
      | None => Ok (inr ModifierMismatch)
      | Some d =>
          max_size ← image_size_limit d can_store_and_sample;
          if (width <=? max_size.1) && (height <=? max_size.2) then Ok (inl tt)
          else Ok (inr (SizeMismatch max_size))
      end
  end.

Definition device_supports_format (formats : Formats_) (drm_format drm_modifier : Z) : bool :=
  match drm_to_vulkan drm_format ≫= formats with
  | None => false
  | Some data => existsb (fun m => m.1 =? drm_modifier) data
  end.
Definition device_supported_modifiers (formats : Formats_) (drm_format : Z) : list Z :=
  match drm_to_vulkan drm_format ≫= formats with
  | None => []
  | Some data => data.*1
  end.

(** [vulkan_import_dmabuf] up to the first call of Vulkan. *)
Definition import_checks (formats : Formats_) (ps : list AddDmabufPlane) (width height drm_format : Z)
    (can_store_and_sample : bool) : res (VkFormat * FormatLayoutInfo * Z) :=
  vk_format ← ok_or "Did not find matching Vulkan format" (drm_to_vulkan drm_format);
  format_info ← get_vulkan_info vk_format;
  modifier ← same_modifier ps;
  assert_ (bool_decide (merge_sort Z.le (plane_idx <$> ps) = Z.of_nat <$> seq 0 (length ps)));;
  data ← unwrap (formats vk_format);
  d ← unwrap (modifier_position data modifier);
  max_size ← image_size_limit d can_store_and_sample;
  assert_ ((width <=? max_size.1) && (height <=? max_size.2));;
  Ok (vk_format, format_info, modifier).

(** The modifiers [vulkan_create_dmabuf] lets Vulkan choose from. *)
Definition creation_modifiers (data : FormatData) (width height : Z) (modifier_options : list Z)
    (can_store_and_sample : bool) : list Z :=
  flat_map (fun '(v, d) =>
    if negb (existsb (Z.eqb v) modifier_options) then [] else
    match (if can_store_and_sample then max_size_store_and_sample d else Some (max_size_transfer d)) with
    | None => []
    | Some max_size => if (max_size.1 <? width) || (max_size.2 <? height) then [] else [v]
    end) data.
Definition creation_checks (formats : Formats_) (width height drm_format : Z) (modifier_options : list Z)
    (can_store_and_sample : bool) : res (VkFormat * list Z) :=
  vk_format ← ok_or "Did not find matching Vulkan format" (drm_to_vulkan drm_format);
  get_vulkan_info vk_format;;
  data ← unwrap (formats vk_format);
  let mod_options := creation_modifiers data width height modifier_options can_store_and_sample in
  if zlen mod_options =? 0 then Err "No available modifiers for image" else
  Ok (vk_format, mod_options).

(** ** Copies between an image and a staging buffer *)

(** [VulkanDmabuf]: what the copies use of it. *)
Record VulkanDmabuf := MkVkBuf { width : Z; height : Z; vk_format : VkFormat }.
(** [vk::BufferImageCopy]: position in the buffer (bytes) and row length there (texels), corner
    and extent in the image. *)
Record BufferImageCopy := MkCopy {
  buffer_offset : Z; buffer_row_length : Z; image_x : Z; image_y : Z; extent_w : Z; extent_h : Z }.

(** The bytes from texel [pos] to the end of the row. *)
Definition row_rest (row_length pos ubpp : Z) : res Z := a ← u32 (pos * ubpp); u32 (row_length - a).

(** The regions from column [start_pos] of row [start_row] up to column [end_pos] of row
    [end_row]: part of a row, or a part, whole rows and a part. *)
Definition box_regions (row_length ubpp w source_offset start_pos start_row end_pos end_row : Z) :
  res (list BufferImageCopy) :=
  let region offset x y ew eh :=
    MkCopy offset (row_length / ubpp) (swrap 32 x) (swrap 32 y) ew eh in
  if (end_row <? start_row) || ((start_row =? end_row) && (end_pos <=? start_pos)) then Ok [] else
  if start_row =? end_row then
    Ok [region source_offset start_pos start_row (end_pos - start_pos) 1]
  else
    mid ← (if start_pos =? 0 then Ok (start_row, source_offset)
           else
             row ← u32 (start_row + 1);
             r ← row_rest row_length start_pos ubpp;
             o ← u32 (source_offset + r);
             Ok (row, o));
    let '(mid_start, mid_row_start) := mid in
    mid_end ← (if w <=? end_pos then Ok end_row else u32 (end_row - 1));
    after ← u32 (mid_end + 1);
    assert_ (mid_start <=? after);;
    last ← (if end_pos <? w then
              n ← u32 (row_length * (after - mid_start));
              adv2 ← u32 (mid_row_start + n);
              Ok [region adv2 0 end_row end_pos 1]
            else Ok []);
    Ok ((if 0 <? start_pos then [region source_offset start_pos start_row (w - start_pos) 1] else []) ++
        (if mid_start <=? mid_end then [region mid_row_start 0 mid_start w (after - mid_start)] else []) ++
        last).

(** The regions of one segment (position in the buffer, start and end in the linear view). *)
Definition segment_regions (row_length ubpp w : Z) (seg : Z * Z * Z) : res (list BufferImageCopy) :=
  let '(source_offset, start, end_) := seg in
  start_row ← udiv start row_length;
  e ← u32 (end_ - 1);
  end_row ← udiv e row_length;
  assert_ ((start mod row_length) mod ubpp =? 0);;
  assert_ ((end_ mod row_length) mod ubpp =? 0);;
  let start_pos := (start mod row_length) / ubpp in
  end_pos ← u32 (1 + (e mod row_length) / ubpp);
  let end_pos := if w <? end_pos then w else end_pos in
  if w <=? start_pos then
    r ← row_rest row_length start_pos ubpp;
    o ← u32 (source_offset + r);
    row ← u32 (start_row + 1);
    box_regions row_length ubpp w o 0 row end_pos end_row
  else box_regions row_length ubpp w source_offset start_pos start_row end_pos end_row.

Definition make_copy_regions (segments : list (Z * Z * Z)) (format_info : FormatLayoutInfo)
    (view_row_length : option Z) (img : VulkanDmabuf) : res (list BufferImageCopy) :=
  packed ← u32 (width img * bpp format_info);
  let row_length := default packed view_row_length in
  assert_ (packed <=? row_length);;
  assert_ (row_length mod bpp format_info =? 0);;
  foldM (fun regions seg =>
    r ← segment_regions row_length (bpp format_info) (width img) seg;
    Ok (regions ++ r)) [] segments.

Definition vulkan_nominal_size (img : VulkanDmabuf) (view_row_length : option Z) : res Z :=
  format_info ← get_vulkan_info (vk_format img);
  match view_row_length with
  | Some r => usize (height img * r)
  | None => n ← usize (width img * height img); usize (n * bpp format_info)
  end.
Definition vulkan_get_bpp (img : VulkanDmabuf) : res Z :=
  format_info ← get_vulkan_info (vk_format img); Ok (bpp format_info).

(** ** GBM *)
Definition LINEAR_MODIFIER : Z := 0.
Definition INVALID_MODIFIER : Z := 0x00ffffffffffffff.
Definition MAX_DIMENSION : Z := 16384.
Definition GBM_BO_USE_RENDERING : Z := 4.
Definition GBM_BO_USE_LINEAR : Z := 16.

(** [GBMDmabuf]: what the copies use of it. *)
Record GBMDmabuf := MkGbmBuf { gbm_width : Z; gbm_height : Z; gbm_format : Z }.

Definition import_flags (modifier : Z) : res Z :=
  if modifier =? LINEAR_MODIFIER then Ok (Z.lor GBM_BO_USE_LINEAR GBM_BO_USE_RENDERING)
  else if modifier =? INVALID_MODIFIER then Ok GBM_BO_USE_RENDERING
  else Err "Importing is only supported with invalid/unspecified or linear modifier".

(** The functions of libgbm: the import of a buffer ([gbm_bo_import], with descriptor, size,
    stride, format and flags), its creation with descriptor and stride ([gbm_bo_create],
    [gbm_bo_get_fd], [gbm_bo_get_stride]), and whether a format can be used with flags. *)
Class GbmLib := {
  gbm_bo_import : Z -> Z -> Z -> Z -> Z -> Z -> bool;
  gbm_bo_create : Z -> Z -> Z -> Z -> bool;
  gbm_bo_get_fd : Z;
  gbm_bo_get_stride : Z;
  gbm_device_is_format_supported : Z -> Z -> Z }.

Definition import_gbm `{GbmLib} (ps : list AddDmabufPlane) (width height drm_format : Z) : res GBMDmabuf :=
  if (MAX_DIMENSION <? width) || (MAX_DIMENSION <? height) then Err "DMABUF size to import is too large" else
  match ps with
  | [plane] =>
      if negb (plane_idx plane =? 0) then Err "Incorrect plane index" else
      if negb (plane_offset plane =? 0) then Err "Expected zero offset for gbm import" else
      flags ← import_flags (plane_modifier plane);
      if gbm_bo_import (plane_fd plane) width height (plane_stride plane) drm_format flags
      then Ok (MkGbmBuf width height drm_format)
      else Err "Failed to import DMABUF"
  | _ => Err "Received DMABUF planes when single plane expected"
  end.

Definition creation_modifier (modifier_options : list Z) : res (Z * Z) :=
  if existsb (Z.eqb LINEAR_MODIFIER) modifier_options
  then Ok (Z.lor GBM_BO_USE_RENDERING GBM_BO_USE_LINEAR, LINEAR_MODIFIER)
  else if existsb (Z.eqb INVALID_MODIFIER) modifier_options
  then Ok (GBM_BO_USE_RENDERING, INVALID_MODIFIER)
  else Err "Unsupported DMABUF modifier options".

Definition create_gbm `{GbmLib} (width height format : Z) (modifier_options : list Z) :
  res (GBMDmabuf * list AddDmabufPlane) :=
  if (MAX_DIMENSION <? width) || (MAX_DIMENSION <? height) then Err "DMABUF size to create is too large" else
  r ← creation_modifier modifier_options;
  let '(flags, actual_mod) := r in
  if bool_decide (get_bpp_if_rgb_planar format = None) then Err "Unsupported DMABUF format or modifier" else
  if negb (gbm_bo_create width height format flags) then Err "Failed to create DMABUF" else
  if gbm_bo_get_fd =? -1 then Err "Failed to export DMABUF" else
  Ok (MkGbmBuf width height format, [MkPlane gbm_bo_get_fd 0 0 gbm_bo_get_stride actual_mod]).

(** The entry of [gbm_build_modifier_table] for a format, and what is looked up. *)
Definition gbm_modifiers_of `{GbmLib} (format : Z) : list Z :=
  (if gbm_device_is_format_supported format GBM_BO_USE_RENDERING =? 1 then [INVALID_MODIFIER] else []) ++
  (if gbm_device_is_format_supported format (Z.lor GBM_BO_USE_RENDERING GBM_BO_USE_LINEAR) =? 1
   then [LINEAR_MODIFIER] else []).
Definition gbm_build_modifier_table `{GbmLib} : list (Z * list Z) :=
  flat_map (fun f => match gbm_modifiers_of f with [] => [] | mods => [(f, mods)] end) GBM_SUPPORTED_FORMATS.
Definition gbm_table_lookup `{GbmLib} (format : Z) : list Z :=
  match List.find (fun e => e.1 =? format) gbm_build_modifier_table with Some e => e.2 | None => [] end.

Definition copy_row (dst_stride : Z) (src : bytes) (src_stride common : Z) (dst : bytes) (row : Z) : res bytes :=
  d ← u32 (dst_stride * row);
  d2 ← u32 (d + common);
  s ← u32 (src_stride * row);
  s2 ← u32 (s + common);
  v ← get_range src s s2;
  set_range dst d d2 v.
Definition stride_adjusted_copy (dst : bytes) (dst_stride : Z) (src : bytes) (src_stride height : Z) : res bytes :=
  let common := Z.min dst_stride src_stride in
  foldM (copy_row dst_stride src src_stride common) dst (Z.of_nat <$> seq 0 (Z.to_nat height)).

Definition data_stride (buf : GBMDmabuf) (view_row_stride : option Z) : res Z :=
  b ← unwrap (get_bpp_if_rgb_planar (gbm_format buf));
  packed ← unwrap (checked 32 (gbm_width buf * b));
  Ok (default packed view_row_stride).
Definition mapped_length (map_stride : Z) (buf : GBMDmabuf) : res Z :=
  n ← unwrap (checked 32 (map_stride * gbm_height buf));
  assert_ (n <=? isize_max);;
  Ok n.

(** [gbm_bo_map] gives the buffer as a mapping with a stride of its own, or fails; the mapping
    has at least [mapped_length] bytes. *)
Definition gbm_copy_from (mapping : option (bytes * Z)) (buf : GBMDmabuf) (view_row_stride : option Z)
    (data : bytes) : res bytes :=
  stride ← data_stride buf view_row_stride;
  m ← ok_or "Failed to map dmabuf with gbm" mapping;
  let '(map_data, map_stride) := m in
  n ← mapped_length map_stride buf;
  stride_adjusted_copy data stride (take (Z.to_nat n) map_data) map_stride (gbm_height buf).
Definition gbm_copy_onto (mapping : option (bytes * Z)) (buf : GBMDmabuf) (view_row_stride : option Z)
    (data : bytes) : res bytes :=
  stride ← data_stride buf view_row_stride;
  m ← ok_or "Failed to map dmabuf with gbm" mapping;
  let '(map_data, map_stride) := m in
  n ← mapped_length map_stride buf;
  stride_adjusted_copy (take (Z.to_nat n) map_data) map_stride data stride (gbm_height buf).

Definition gbm_nominal_size (buf : GBMDmabuf) (view_row_length : option Z) : res Z :=
  match view_row_length with
  | Some r => u32 (gbm_height buf * r)
  | None =>
      b ← unwrap (get_bpp_if_rgb_planar (gbm_format buf));
      n ← u32 (gbm_width buf * gbm_height buf);
      u32 (n * b)
  end.
