(* ===== verification/DmabufCorrect.v ===== *)
(** * Correctness of the copies of DMABUFs

    A copy between an image and a staging buffer moves exactly the texels of the damaged
    segments, to and from the places where the linear view has them ([segment_regions_exact],
    [make_copy_regions_exact]); copies through GBM mappings of different strides keep the rows. *)
From Stdlib Require Import ZArith Lia.
From S2P Require Import Prelude Util Formats TrackState Dmabuf.
Local Open Scope Z_scope.
Import Util.Arith.

(** ** Texels of a linear view

    A view has rows of [q] texels of [b] bytes, of which the first [w] are in the image. *)

(** A region copies texel [(x, y)] of the image to and from byte [pos] of the buffer. This is how
    Vulkan addresses the buffer of [vkCmdCopyBufferToImage] and [vkCmdCopyImageToBuffer]. *)
Definition addresses (b : Z) (r : BufferImageCopy) (x y pos : Z) : Prop :=
  image_x r <= x < image_x r + extent_w r /\ image_y r <= y < image_y r + extent_h r /\
  pos = buffer_offset r + ((y - image_y r) * buffer_row_length r + (x - image_x r)) * b.

(** What Vulkan requires of a region of an image of [w] by [h] texels. *)
Definition region_valid (w h b : Z) (r : BufferImageCopy) : Prop :=
  0 <= image_x r /\ 0 < extent_w r /\ image_x r + extent_w r <= w /\
  0 <= image_y r /\ 0 < extent_h r /\ image_y r + extent_h r <= h /\
  w <= buffer_row_length r /\ buffer_offset r mod b = 0.

Lemma texel_order q y x r s :
  0 <= x < q -> 0 <= s <= q -> (y * q + x < r * q + s <-> y < r \/ y = r /\ x < s).
Proof. nia. Qed.

(** Regions one below the other. *)
Definition below (r r' : BufferImageCopy) : Prop := image_y r + extent_h r <= image_y r'.

(** No texel and no byte of the buffer is in both regions. *)
Definition apart (b : Z) (r r' : BufferImageCopy) : Prop :=
  forall x y pos x' y' pos', addresses b r x y pos -> addresses b r' x' y' pos' ->
    (x <> x' \/ y <> y') /\ (pos + b <= pos' \/ pos' + b <= pos).

(** The texels of the view from row [sr], column [sp] up to row [er], column [ep]. *)
Definition between (sr sp er ep x y : Z) : Prop :=
  (sr < y \/ y = sr /\ sp <= x) /\ (y < er \/ y = er /\ x < ep).

Lemma aligned_split a b q : 0 < b -> 0 < q -> 0 <= a -> (a mod (q * b)) mod b = 0 ->
  exists r p, a = (r * q + p) * b /\ 0 <= r /\ 0 <= p < q /\ a / (q * b) = r /\ (a mod (q * b)) / b = p.
Proof.
  intros Hb Hq Ha Hm. set (m := a mod (q * b)) in *.
  pose proof (Z.mod_pos_bound a (q * b) ltac:(nia)). fold m in H.
  pose proof (Z.div_mod a (q * b) ltac:(nia)) as Hd. fold m in Hd.
  pose proof (Z.div_mod m b ltac:(lia)) as Hd2. rewrite Hm in Hd2.
  exists (a / (q * b)), (m / b). assert (0 <= a / (q * b)) by (apply Z.div_pos; nia).
  assert (0 <= m / b) by (apply Z.div_pos; lia). assert (m / b < q) by nia.
  split; [rewrite Hd at 1; rewrite Hd2 at 1; ring|]. done.
Qed.

(** The end of a segment, in terms of its last byte. *)
Lemma aligned_end e b q : 0 < b -> 0 < q -> 0 < e -> (e mod (q * b)) mod b = 0 ->
  exists r p, e = (r * q + p) * b /\ 0 <= r /\ 0 < p <= q /\ (e - 1) / (q * b) = r /\
    1 + ((e - 1) mod (q * b)) / b = p.
Proof.
  intros Hb Hq He Hm. destruct (aligned_split e b q) as (r & p & E & Hr & Hp & _); try lia.
  assert (exists r' p', e = (r' * q + p') * b /\ 0 <= r' /\ 0 < p' <= q) as (r' & p' & E' & Hr' & Hp').
  { destruct (decide (p = 0)) as [->|]; [|exists r, p; lia].
    exists (r - 1), q. split; [rewrite E; ring|]. split; [|lia]. nia. }
  exists r', p'. split; [done|]. split; [done|]. split; [done|].
  assert (Hem : e - 1 = (q * b) * r' + (p' * b - 1)) by (rewrite E'; ring).
  assert (0 <= p' * b - 1 < q * b) by nia.
  split; [symmetry; by apply (Z.div_unique _ _ _ (p' * b - 1)); [left|]|].
  rewrite <- (Z.mod_unique (e - 1) (q * b) r' (p' * b - 1)); [|by left|done].
  rewrite <- (Z.div_unique (p' * b - 1) b (p' - 1) (b - 1)); lia.
Qed.

Lemma swrap_small z : 0 <= z < 2 ^ 31 -> swrap 32 z = z.
Proof. intros. apply swrap_id; [lia|]. unfold iN. lia. Qed.

(** ** The regions of a segment *)
Section Segment.
#[local] Set Default Proof Using "All".
Context (b q w h so start end_ : Z).
Context (Hb : 0 < b) (Hw : 0 < w <= q) (Hw31 : w < 2 ^ 31) (Hh : h < 2 ^ 31) (Hso : 0 <= so).
Context (Hse : 0 <= start < end_) (Hend : end_ <= h * (q * b)).
Context (Hfit : so + (end_ - start) + q * b < 2 ^ 32) (Hview : h * (q * b) < 2 ^ 32).
Context (Hs : start mod b = 0) (He : end_ mod b = 0).

(** The regions cover the texels of the view that start inside the segment, each at its
    distance from the start of the segment. *)
Definition covers_segment (rs : list BufferImageCopy) : Prop :=
  Forall (fun r => 0 <= image_x r /\ 0 < extent_w r /\ image_x r + extent_w r <= w /\
                   0 <= image_y r /\ 0 < extent_h r /\ image_y r + extent_h r <= h /\
                   buffer_row_length r = q /\ (so mod b = 0 -> buffer_offset r mod b = 0)) rs /\
  ForallOrdPairs below rs /\
  forall x y pos, 0 <= x < w -> 0 <= y ->
    (Exists (fun r => addresses b r x y pos) rs <->
     start <= (y * q + x) * b < end_ /\ pos = so + ((y * q + x) * b - start)).

Lemma view_mod a : a mod b = 0 -> (a mod (q * b)) mod b = 0.
Proof.
  intros Ha. rewrite Z.mul_comm, Z.rem_mul_r by lia.
  rewrite (Z.mul_comm b), Z.mod_add by lia. by rewrite Z.mod_mod by lia.
Qed.

Lemma segment_bounds : exists sr sp er ep,
  start = (sr * q + sp) * b /\ end_ = (er * q + ep) * b /\
  0 <= sr /\ 0 <= sp < q /\ 0 <= er < h /\ 0 < ep <= q /\ sr * q + sp < er * q + ep /\
  start / (q * b) = sr /\ (start mod (q * b)) / b = sp /\
  (end_ - 1) / (q * b) = er /\ 1 + ((end_ - 1) mod (q * b)) / b = ep.
Proof.
  destruct (aligned_split start b q) as (sr & sp & Es & ? & ? & ? & ?); try lia; [by apply view_mod|].
  destruct (aligned_end end_ b q) as (er & ep & Ee & ? & ? & ? & ?); try lia; [by apply view_mod|].
  exists sr, sp, er, ep. assert (sr * q + sp < er * q + ep) by nia.
  assert (er * q + ep <= h * q) by (apply (Z.mul_le_mono_pos_r _ _ b); lia). assert (er < h) by nia.
  repeat (split; [done || lia|]). done.
Qed.

(** A position in the view, compared with the ends of the segment. *)
Lemma covered_iff sr sp er ep x y :
  start = (sr * q + sp) * b -> end_ = (er * q + ep) * b ->
  0 <= sp < q -> 0 < ep <= q -> 0 <= x < w ->
  (start <= (y * q + x) * b < end_ <-> between sr sp er ep x y).
Proof.
  intros -> -> Hsp Hep Hx. unfold between.
  rewrite <- (texel_order q y x er ep) by lia.
  pose proof (texel_order q y x sr sp ltac:(lia) ltac:(lia)). nia.
Qed.


Abbreviation valid_from o := (fun r => 0 <= image_x r /\ 0 < extent_w r /\ image_x r + extent_w r <= w /\
  0 <= image_y r /\ 0 < extent_h r /\ image_y r + extent_h r <= h /\
  buffer_row_length r = q /\ (o mod b = 0 -> buffer_offset r mod b = 0)).

Lemma offset_mod o k : o mod b = 0 -> (o + k * b) mod b = 0.
Proof. intros. by rewrite Z.mod_add by lia. Qed.

Lemma box_covers sr sp er ep o :
  0 <= sp < w -> 0 < ep <= w -> 0 <= sr <= h -> 0 <= er < h -> 0 <= o ->
  o + ((er * q + ep) - (sr * q + sp)) * b < 2 ^ 32 ->
  exists rs, box_regions (q * b) b w o sp sr ep er = Ok rs /\ Forall (valid_from o) rs /\ ForallOrdPairs below rs /\
    forall x y pos, 0 <= x < w -> 0 <= y ->
      (Exists (fun r => addresses b r x y pos) rs <->
       between sr sp er ep x y /\ pos = o + ((y * q + x) - (sr * q + sp)) * b).
Proof.
  intros Hsp Hep Hsr Her Ho Hlim. unfold box_regions. rewrite Z.div_mul by lia. cbv zeta.
  destruct ((er <? sr) || ((sr =? er) && (ep <=? sp))) eqn:E1.
  { exists []. split; [done|]. split; [constructor|]. split; [constructor|]. intros x y pos Hx Hy. rewrite Exists_nil.
    unfold between. lia. }
  destruct (sr =? er) eqn:E2.
  { rewrite !swrap_small by lia. eexists. split; [done|]. split.
    - apply Forall_singleton. cbn. lia.
    - split; [by repeat constructor|]. intros x y pos Hx Hy. rewrite Exists_cons, Exists_nil. unfold addresses, between; cbn.
      split; [intros [?|[]]|intros [? ?]; left]; nia. }
  assert (Hlt : sr < er) by lia. assert (0 < q * b) by nia. assert (sp * b < q * b) by nia.
  assert (Hm : exists ms mo, (if sp =? 0 then Ok (sr, o)
            else row ← u32 (sr + 1); r ← row_rest (q * b) sp b; o0 ← u32 (o + r); Ok (row, o0)) = Ok (ms, mo) /\
          ms = (if sp =? 0 then sr else sr + 1) /\ mo = o + (ms * q - (sr * q + sp)) * b).
  { unfold row_rest. destruct (sp =? 0) eqn:E3.
    - do 2 eexists. split; [done|]. split; [done|]. nia.
    - rewrite (chk_in 32 (sr + 1)), (chk_in 32 (sp * b)) by (unfold uN; nia). cbn [mbind res_bind].
      rewrite (chk_in 32 (q * b - sp * b)) by (unfold uN; nia). cbn [mbind res_bind].
      rewrite chk_in by (unfold uN; nia). cbn [mbind res_bind].
      do 2 eexists. split; [done|]. split; [done|]. ring. }
  destruct Hm as (ms & mo & -> & Hms & Hmo). cbn [mbind res_bind].
  assert (Hme : (if w <=? ep then Ok er else u32 (er - 1)) = Ok (if w <=? ep then er else er - 1)).
  { destruct (w <=? ep); [done|]. by rewrite chk_in by (unfold uN; lia). }
  rewrite Hme. cbn [mbind res_bind]. set (me := if w <=? ep then er else er - 1).
  assert (Hme2 : me = if w <=? ep then er else er - 1) by done. clearbody me. clear Hme.
  assert (sr <= ms <= me + 1) by (destruct (sp =? 0), (w <=? ep); lia).
  rewrite (chk_in 32 (me + 1)) by (unfold uN; destruct (w <=? ep); lia). cbn [mbind res_bind].
  rewrite assert_true by lia. cbn [mbind res_bind].
  assert (Hlast : exists l, (if ep <? w then
        n ← u32 (q * b * (me + 1 - ms)); adv2 ← u32 (mo + n);
        Ok [MkCopy adv2 q (swrap 32 0) (swrap 32 er) ep 1] else Ok []) = Ok l /\
      l = if ep <? w then [MkCopy (mo + q * b * (er - ms)) q 0 er ep 1] else []).
  { destruct (ep <? w) eqn:E4; [|by eexists].
    assert (Hme1 : me + 1 = er) by (destruct (w <=? ep) eqn:?; lia). rewrite Hme1 in *.
    assert (0 <= mo) by (destruct (sp =? 0) eqn:?; nia).
    assert (0 <= ep * b) by nia.
    assert (mo + q * b * (er - ms) + ep * b < 2 ^ 32) by (rewrite Hmo; lia).
    assert (0 <= q * b * (er - ms)) by (apply Z.mul_nonneg_nonneg; lia).
    rewrite chk_in by (unfold uN; lia). cbn [mbind res_bind].
    rewrite chk_in by (unfold uN; lia). cbn [mbind res_bind].
    rewrite !swrap_small by lia. by eexists. }
  destruct Hlast as (l & -> & ->). cbn [mbind res_bind]. rewrite !swrap_small by (destruct (sp =? 0); lia).
  eexists. split; [done|].
  split.
  - apply Forall_app. split; [|apply Forall_app; split].
    + destruct (0 <? sp) eqn:?; [|constructor]. apply Forall_singleton. cbn. lia.
    + destruct (ms <=? me) eqn:?; [|constructor]. apply Forall_singleton. cbn. rewrite Hmo.
      repeat split; try (destruct (w <=? ep); lia). intros. by apply offset_mod.
    + destruct (ep <? w) eqn:?; [|constructor]. apply Forall_singleton. cbn.
      replace (mo + q * b * (er - ms)) with (o + (er * q - (sr * q + sp)) * b) by (rewrite Hmo; ring).
      repeat split; try lia. intros. by apply offset_mod.
  - split.
    { destruct (0 <? sp) eqn:?, (ms <=? me) eqn:?, (ep <? w) eqn:?; cbn [app];
        repeat (constructor; try (unfold below; cbn; destruct (sp =? 0) eqn:?, (w <=? ep) eqn:?; lia)). }
    intros x y pos Hx Hy. rewrite !Exists_app. unfold between.
    assert (He1 : forall (c : bool) r, Exists (fun r => addresses b r x y pos) (if c then [r] else []) <->
              c = true /\ addresses b r x y pos).
    { intros [] r; rewrite ?Exists_cons, ?Exists_nil; naive_solver. }
    rewrite !He1. unfold addresses; cbn [image_x image_y extent_w extent_h buffer_offset buffer_row_length].
    set (P := o + (y * q + x - (sr * q + sp)) * b).
    replace (o + ((y - sr) * q + (x - sp)) * b) with P by (unfold P; ring).
    replace (mo + ((y - ms) * q + (x - 0)) * b) with P by (unfold P; rewrite Hmo; ring).
    replace (mo + q * b * (er - ms) + ((y - er) * q + (x - 0)) * b) with P by (unfold P; rewrite Hmo; ring).
    clearbody P. clear Hmo Hlim He1. destruct (sp =? 0) eqn:?, (w <=? ep) eqn:?; lia.
Qed.

(** The regions of a segment, whose start may be in the padding of a row. *)
Lemma segment_covers : exists rs,
  segment_regions (q * b) b w (so, start, end_) = Ok rs /\ covers_segment rs.
Proof.
  destruct segment_bounds as (sr & sp & er & ep & Es & Ee & ? & Hsp & Her & Hep & Hlt & E1 & E2 & E3 & E4).
  assert (0 < q * b) by (apply Z.mul_pos_pos; lia). unfold segment_regions, udiv.
  replace (q * b =? 0) with false by lia. cbn [mbind res_bind].
  rewrite (chk_in 32 (end_ - 1)) by (unfold uN; lia). cbn [mbind res_bind].
  rewrite !assert_true by (rewrite view_mod by done; done). cbn [mbind res_bind].
  rewrite E1, E2, E3, E4. assert (q <= q * b) by nia. rewrite (chk_in 32 ep) by (unfold uN; lia). cbn [mbind res_bind].
  set (ep' := if w <? ep then w else ep).
  assert (Hep' : 0 < ep' <= w /\ forall x, 0 <= x < w -> (x < ep' <-> x < ep)).
  { unfold ep'. destruct (w <? ep) eqn:?; (split; [lia|intros; lia]). }
  assert (Hep2 : ep' <= ep) by (unfold ep'; destruct (w <? ep) eqn:?; lia).
  clearbody ep'. destruct Hep' as [Hep' Hx'].
  assert (end_ - start = ((er * q + ep) - (sr * q + sp)) * b) by (rewrite Es, Ee; ring).
  assert (0 <= (ep - ep') * b) by (apply Z.mul_nonneg_nonneg; lia).
  assert (Hgo : forall sr' sp' o, o = so + ((sr' * q + sp') - (sr * q + sp)) * b ->
    0 <= sp' < w -> 0 <= sr' <= h -> 0 <= o ->
    (forall x y, 0 <= x < w -> (sr' < y \/ y = sr' /\ sp' <= x) <-> (sr < y \/ y = sr /\ sp <= x)) ->
    exists rs, box_regions (q * b) b w o sp' sr' ep' er = Ok rs /\ covers_segment rs).
  { intros sr' sp' o Eo Hsp' Hsr' Ho Heq.
    destruct (box_covers sr' sp' er ep' o) as (rs & -> & Hv & Hb2 & Hc); try done.
    { rewrite Eo. lia. }
    exists rs. split; [done|]. split.
    - eapply Forall_impl; [exact Hv|]. cbn. intros r Hr. repeat split; try apply Hr.
      intros. apply Hr. rewrite Eo. by apply offset_mod.
    - split; [done|]. intros x y pos Hx Hy. rewrite Hc by done. rewrite (covered_iff sr sp er ep) by done.
      unfold between. rewrite Heq, Hx' by done. rewrite Eo.
      assert ((y * q + x) * b - start = (y * q + x - (sr * q + sp)) * b) as -> by (rewrite Es; ring).
      split; (intros [? ->]; split; [done|ring]). }
  assert (sr <= er).
  { destruct (Z.le_gt_cases sr er); [done|].
    assert ((er + 1) * q <= sr * q) by (apply Z.mul_le_mono_nonneg_r; lia). lia. }
  destruct (w <=? sp) eqn:E5; [|apply Hgo; [ring|lia|lia|done|naive_solver]].
  assert (sp * b < q * b) by (apply Zmult_lt_compat_r; lia). assert (0 <= sp * b) by (apply Z.mul_nonneg_nonneg; lia).
  unfold row_rest.
  rewrite (chk_in 32 (sp * b)) by (unfold uN; lia). cbn [mbind res_bind].
  rewrite (chk_in 32 (q * b - sp * b)) by (unfold uN; lia). cbn [mbind res_bind].
  rewrite (chk_in 32 (so + _)) by (unfold uN; lia). cbn [mbind res_bind].
  rewrite chk_in by (unfold uN; lia). cbn [mbind res_bind].
  apply Hgo; [ring|lia|lia|lia|intros; lia].
Qed.
End Segment.

(** ** Copies of a list of segments *)

(** A segment of the linear view with rows of [R] bytes, and room for its data in a buffer. *)
Definition segment_ok (b h R : Z) (s : Z * Z * Z) : Prop :=
  0 <= s.1.1 /\ 0 <= s.1.2 < s.2 /\ s.2 <= h * R /\ s.1.1 + (s.2 - s.1.2) + R < 2 ^ 32 /\
  s.1.2 mod b = 0 /\ s.2 mod b = 0.
(** Byte [p] of the view is in the segment, at byte [pos] of the buffer. *)
Definition segment_has (s : Z * Z * Z) (p pos : Z) : Prop :=
  s.1.2 <= p < s.2 /\ pos = s.1.1 + (p - s.1.2).
Definition copy_view (img : VulkanDmabuf) (info : FormatLayoutInfo) (view : option Z) (R : Z) : Prop :=
  0 < bpp info /\ 0 < width img < 2 ^ 31 /\ height img < 2 ^ 31 /\ uN 32 (width img * bpp info) /\
  R = default (width img * bpp info) view /\ width img * bpp info <= R /\ R mod bpp info = 0 /\
  height img * R < 2 ^ 32.

(** Segments that share no byte, neither of the view nor of the buffer. *)
Definition segments_apart (s s' : Z * Z * Z) : Prop :=
  (s.2 <= s'.1.2 \/ s'.2 <= s.1.2) /\
  (s.1.1 + (s.2 - s.1.2) <= s'.1.1 \/ s'.1.1 + (s'.2 - s'.1.2) <= s.1.1).

Lemma ForallOrdPairs_app {A} (P : A -> A -> Prop) l1 l2 :
  ForallOrdPairs P l1 -> ForallOrdPairs P l2 -> Forall (fun x => Forall (P x) l2) l1 ->
  ForallOrdPairs P (l1 ++ l2).
Proof.
  induction 1 as [|x l1 Hx H1 IH]; intros H2 Hc; cbn; [done|]. apply Forall_cons in Hc as [Hc1 Hc2].
  constructor; [by apply Forall_app|by apply IH].
Qed.

Lemma Exists_elem {A} (P : A -> Prop) x l : x ∈ l -> P x -> Exists P l.
Proof. intros. apply Exists_exists. eauto. Qed.

(** The texels a valid region of a segment addresses are texels of the image in the segment. *)
Lemma region_in_segment b q w h o s e rs r x y pos :
  covers_segment b q w h o s e rs -> r ∈ rs -> addresses b r x y pos ->
  0 <= x < w /\ 0 <= y < h /\ s <= (y * q + x) * b < e /\ pos = o + ((y * q + x) * b - s).
Proof.
  intros (Hv & _ & Hc) Hr Ha. rewrite Forall_forall in Hv. specialize (Hv r Hr).
  assert (Hxy : 0 <= x < w /\ 0 <= y < h) by (destruct Ha as (? & ? & _); lia).
  split; [lia|]. split; [lia|]. apply Hc; [lia|lia|]. by apply (Exists_elem _ r).
Qed.

Lemma texel_apart q b w x y x' y' : 0 < b -> 0 < w <= q -> 0 <= x < w -> 0 <= x' < w -> x <> x' \/ y <> y' ->
  (y * q + x) * b + b <= (y' * q + x') * b \/ (y' * q + x') * b + b <= (y * q + x) * b.
Proof.
  intros Hb Hq Hx Hx' Hne. assert (y * q + x <> y' * q + x').
  { destruct (Z.lt_trichotomy y y') as [|[->|]]; nia. }
  destruct (Z.lt_ge_cases (y * q + x) (y' * q + x')); [left|right]; nia.
Qed.

Lemma segment_pairs b q w h o s e rs : 0 < b -> 0 < w <= q ->
  covers_segment b q w h o s e rs -> ForallOrdPairs (apart b) rs.
Proof.
  intros Hb Hq Hcov.
  assert (Hl : forall l, (forall r, r ∈ l -> r ∈ rs) -> ForallOrdPairs below l -> ForallOrdPairs (apart b) l).
  { intros l Hsub. induction 1 as [|r l Hr Hl IH]; [constructor|]. constructor.
    - rewrite Forall_forall in Hr |- *. intros r' Hr' x y pos x' y' pos' Ha Ha'. specialize (Hr r' Hr').
      pose proof Ha as (_ & Hy & _). pose proof Ha' as (_ & Hy' & _). unfold below in Hr.
      destruct (region_in_segment _ _ _ _ _ _ _ _ _ _ _ _ Hcov (Hsub r (list_elem_of_here _ _)) Ha) as (? & ? & ? & ->).
      destruct (region_in_segment _ _ _ _ _ _ _ _ _ _ _ _ Hcov (Hsub r' (list_elem_of_further _ _ _ Hr')) Ha')
        as (? & ? & ? & ->).
      assert (Hne : x <> x' \/ y <> y') by lia. split; [done|].
      destruct (texel_apart q b w x y x' y'); lia.
    - apply IH. intros r' Hr'. apply Hsub. by apply list_elem_of_further. }
  apply Hl; [done|]. apply Hcov.
Qed.

(** The regions of several segments: each covers its segment, and no two regions meet. *)
Lemma regions_loop img b R segments : forall acc,
  0 < b -> 0 < width img < 2 ^ 31 -> height img < 2 ^ 31 -> width img * b <= R -> R mod b = 0 ->
  height img * R < 2 ^ 32 -> Forall (segment_ok b (height img) R) segments ->
  exists rs, foldM (fun regions seg => r ← segment_regions R b (width img) seg; Ok (regions ++ r)) acc segments
      = Ok (acc ++ rs) /\
    (Forall (fun s => s.1.1 mod b = 0) segments -> Forall (region_valid (width img) (height img) b) rs) /\
    (forall r x y pos, r ∈ rs -> addresses b r x y pos ->
       0 <= x < width img /\ 0 <= y < height img /\ Exists (fun s => segment_has s (y * R + x * b) pos) segments) /\
    (ForallOrdPairs segments_apart segments -> ForallOrdPairs (apart b) rs) /\
    forall x y pos, 0 <= x < width img -> 0 <= y ->
      (Exists (fun r => addresses b r x y pos) rs <-> Exists (fun s => segment_has s (y * R + x * b) pos) segments).
Proof.
  induction segments as [|[[o s] e] segments IH]; intros acc Hb Hw Hh HwR HR Hview Hs; cbn [foldM].
  { exists []. rewrite app_nil_r. split; [done|]. split; [constructor|]. split; [by intros ???? ?%not_elem_of_nil|].
    split; [constructor|]. intros. by rewrite !Exists_nil. }
  apply Forall_cons in Hs as [(Ho & Hse & He & Hfit & Hsm & Hem) Hs]. cbn [fst snd] in *.
  pose proof (Z.div_mod R b ltac:(lia)) as Hq. set (q := R / b) in *.
  assert (ER : R = q * b) by lia. clearbody q. clear Hq. subst R. assert (Hwq : width img <= q) by nia.
  destruct (segment_covers b q (width img) (height img) o s e) as (r & -> & Hcov); try lia.
  cbn [mbind res_bind]. destruct (IH (acc ++ r) Hb Hw Hh HwR HR Hview Hs) as (rs & -> & Hv' & Hin & Hap & Hc').
  assert (Hlin : forall x y, y * (q * b) + x * b = (y * q + x) * b) by (intros; ring).
  exists (r ++ rs). rewrite app_assoc. split; [done|]. split_and!.
  - intros [Hm Hms]%Forall_cons. apply Forall_app. split; [|by apply Hv'].
    destruct Hcov as (Hv & _ & _). eapply Forall_impl; [exact Hv|]. cbn [fst snd] in *.
    intros x (?&?&?&?&?&?&?&?). unfold region_valid. repeat split; auto; lia.
  - intros r1 x y pos [Hr|Hr]%elem_of_app Ha.
    + destruct (region_in_segment _ _ _ _ _ _ _ _ _ _ _ _ Hcov Hr Ha) as (? & ? & ? & ->).
      split; [lia|]. split; [lia|]. apply Exists_cons. left. unfold segment_has. cbn [fst snd]. by rewrite Hlin.
    + destruct (Hin r1 x y pos Hr Ha) as (? & ? & ?). split; [lia|]. split; [lia|]. apply Exists_cons. by right.
  - intros Hsa. inversion Hsa as [|? ? Hsa1 Hsa2]; subst. apply ForallOrdPairs_app.
    + eapply segment_pairs; [done| |exact Hcov]. lia.
    + by apply Hap.
    + apply Forall_forall. intros r1 Hr1. apply Forall_forall. intros r2 Hr2 x y pos x' y' pos' Ha Ha'.
      destruct (region_in_segment _ _ _ _ _ _ _ _ _ _ _ _ Hcov Hr1 Ha) as (? & ? & ? & ->).
      destruct (Hin r2 x' y' pos' Hr2 Ha') as (? & ? & ([[o' s'] e'] & Hs' & Hh')%Exists_exists).
      rewrite Forall_forall in Hsa1. specialize (Hsa1 _ Hs'). rewrite Forall_forall in Hs. specialize (Hs _ Hs').
      destruct Hh' as [Hp ->]. destruct Hs as (_ & _ & _ & _ & Hsm' & Hem'). unfold segments_apart in Hsa1.
      cbn [fst snd] in *. rewrite Hlin in *. destruct Hsa1 as [Hd1 Hd2].
      assert (Hmul : forall t u, t mod b = 0 -> (u * b < t -> u * b + b <= t)).
      { intros t u Ht Hlt. pose proof (Z.div_mod t b ltac:(lia)) as E. rewrite Ht in E.
        assert (u < t / b) by nia. nia. }
      split.
      * destruct (decide (x = x' /\ y = y')) as [[<- <-]|]; [lia|]. lia.
      * pose proof (Hmul e (y * q + x) Hem). pose proof (Hmul e' (y' * q + x') Hem'). lia.
  - intros x y pos Hx Hy. destruct Hcov as (_ & _ & Hc). rewrite Exists_app, Exists_cons, Hc, Hc' by done.
    unfold segment_has at 2. cbn [fst snd]. by rewrite Hlin.
Qed.

(** C24: copying segments between an image and a buffer: for segments of whole texels inside the
    linear view, [make_copy_regions] never panics; its regions are valid for Vulkan (inside the
    image, aligned in the buffer when the segments are, and without overlap when the segments
    have none); and they move texel [(x, y)] to or from byte [pos] of the buffer exactly if a
    segment contains the texel's bytes of the view and has them at [pos]. Padding of the view is
    never touched. *)
Theorem make_copy_regions_exact img info view R segments :
  copy_view img info view R -> Forall (segment_ok (bpp info) (height img) R) segments ->
  exists rs, make_copy_regions segments info view img = Ok rs /\
    (Forall (fun s => s.1.1 mod bpp info = 0) segments ->
     Forall (region_valid (width img) (height img) (bpp info)) rs) /\
    (ForallOrdPairs segments_apart segments -> ForallOrdPairs (apart (bpp info)) rs) /\
    forall x y pos, 0 <= x < width img -> 0 <= y ->
      (Exists (fun r => addresses (bpp info) r x y pos) rs <->
       Exists (fun s => segment_has s (y * R + x * bpp info) pos) segments).
Proof.
  intros (Hb & Hw & Hh & Hu & -> & HwR & HR & Hview) Hs. unfold make_copy_regions.
  rewrite chk_in by done. cbn [mbind res_bind]. rewrite !assert_true by lia. cbn [mbind res_bind].
  destruct (regions_loop img (bpp info) _ segments [] Hb Hw Hh HwR HR Hview Hs) as (rs & -> & ? & ? & ? & ?).
  by exists rs.
Qed.

Lemma make_copy_regions_exact_witness :
  copy_view (MkVkBuf 5 4 B8G8R8A8_UNORM) (MkInfo 4 1) (Some 24) 24 /\
  make_copy_regions [(0, 20, 56); (36, 68, 96)] (MkInfo 4 1) (Some 24) (MkVkBuf 5 4 B8G8R8A8_UNORM) =
    Ok [MkCopy 4 6 0 1 5 1; MkCopy 28 6 0 2 2 1; MkCopy 40 6 0 3 5 1] /\
  Exists (fun r => addresses 4 r 1 2 32)
    [MkCopy 4 6 0 1 5 1; MkCopy 28 6 0 2 2 1; MkCopy 40 6 0 3 5 1].
Proof.
  assert (Hv : copy_view (MkVkBuf 5 4 B8G8R8A8_UNORM) (MkInfo 4 1) (Some 24) 24).
  { unfold copy_view, uN. repeat split; vm_compute; congruence. }
  split; [done|].
  destruct (make_copy_regions_exact (MkVkBuf 5 4 B8G8R8A8_UNORM) (MkInfo 4 1) (Some 24) 24
    [(0, 20, 56); (36, 68, 96)]) as (rs & E & _ & _ & Hc); [done| |].
  { assert (H1 : segment_ok 4 4 24 (0, 20, 56)) by (unfold segment_ok; cbn [fst snd]; split_and!; (lia || reflexivity)).
    assert (H2 : segment_ok 4 4 24 (36, 68, 96)) by (unfold segment_ok; cbn [fst snd]; split_and!; (lia || reflexivity)).
    apply Forall_cons; split; [exact H1|]. apply Forall_cons; split; [exact H2|]. apply Forall_nil. exact I. }
  assert (E2 : make_copy_regions [(0, 20, 56); (36, 68, 96)] (MkInfo 4 1) (Some 24) (MkVkBuf 5 4 B8G8R8A8_UNORM) =
    Ok [MkCopy 4 6 0 1 5 1; MkCopy 28 6 0 2 2 1; MkCopy 40 6 0 3 5 1]) by (vm_compute; reflexivity).
  rewrite E2 in E. injection E as <-. split; [done|]. apply Hc; [cbn; lia|lia|].
  apply Exists_cons. left. unfold segment_has. cbn. lia.
Defined.

(** ** Copies through GBM *)

(** The value at place [j] of the destination after the first [k] rows were copied. *)
Definition strided (dst : bytes) (ds : Z) (src : bytes) (ss common k : Z) (j : nat) : option byte :=
  if (Z.of_nat j / ds <? k) && (Z.of_nat j mod ds <? common)
  then src !! Z.to_nat (ss * (Z.of_nat j / ds) + Z.of_nat j mod ds) else dst !! j.

Section Strides.
#[local] Set Default Proof Using "All".
Context (dst src : bytes) (ds ss h : Z).
Context (Hds : 0 < ds) (Hss : 0 < ss).
Context (Hd : h * ds <= zlen dst) (Hs : h * ss <= zlen src) (Hd32 : h * ds < 2 ^ 32) (Hs32 : h * ss < 2 ^ 32).

Lemma place_row j r c : 0 <= c < ds -> j = ds * r + c -> j / ds = r /\ j mod ds = c.
Proof.
  intros Hc ->. split.
  - symmetry. by apply (Z.div_unique_pos _ ds r c).
  - symmetry. by apply (Z.mod_unique_pos _ ds r c).
Qed.

Lemma copy_rows m : forall k cur, Z.of_nat (k + m) <= h ->
  zlen cur = zlen dst -> (forall j, cur !! j = strided dst ds src ss (Z.min ds ss) (Z.of_nat k) j) ->
  exists out, foldM (copy_row ds src ss (Z.min ds ss)) cur (Z.of_nat <$> seq k m) = Ok out /\
    zlen out = zlen dst /\ forall j, out !! j = strided dst ds src ss (Z.min ds ss) (Z.of_nat (k + m)) j.
Proof.
  induction m as [|m IH]; intros k cur Hk Hl Hj; cbn [seq fmap list_fmap foldM].
  { exists cur. by rewrite Nat.add_0_r. }
  set (r := Z.of_nat k) in *. set (c := Z.min ds ss) in *.
  assert (Hc : 0 < c <= ds /\ c <= ss) by (unfold c; lia).
  assert (0 <= r) by lia. assert (r + 1 <= h) by lia.
  assert (0 <= ds * r) by nia. assert (ds * r + ds <= h * ds) by nia.
  assert (0 <= ss * r) by nia. assert (ss * r + ss <= h * ss) by nia.
  unfold copy_row at 2. rewrite (chk_in 32 (ds * r)) by (unfold uN; lia). cbn [mbind res_bind].
  rewrite (chk_in 32 (ds * r + c)) by (unfold uN; lia). cbn [mbind res_bind].
  rewrite (chk_in 32 (ss * r)) by (unfold uN; lia). cbn [mbind res_bind].
  rewrite (chk_in 32 (ss * r + c)) by (unfold uN; lia). cbn [mbind res_bind].
  rewrite get_range_ok by lia. cbn [mbind res_bind].
  assert (Hv : zlen (slice src (ss * r) (ss * r + c)) = c) by (rewrite zlen_slice; lia).
  rewrite set_range_ok by lia. cbn [mbind res_bind].
  destruct (IH (S k) (splice cur (ds * r) (slice src (ss * r) (ss * r + c)))) as (out & -> & Ho & Hout).
  - lia.
  - rewrite zlen_splice; lia.
  - intros j. rewrite lookup_splice by lia. rewrite Hv. unfold strided.
    replace (Z.of_nat (S k)) with (r + 1) by lia.
    pose proof (Z.div_mod (Z.of_nat j) ds ltac:(lia)). pose proof (Z.mod_pos_bound (Z.of_nat j) ds Hds).
    destruct ((ds * r <=? Z.of_nat j) && (Z.of_nat j <? ds * r + c)) eqn:E.
    + destruct (place_row (Z.of_nat j) r (Z.of_nat j - ds * r)) as [E1 E2]; [lia|lia|].
      rewrite lookup_slice by lia. rewrite E1, E2.
      replace ((r <? r + 1) && (Z.of_nat j - ds * r <? c)) with true by lia. f_equal. lia.
    + rewrite Hj. unfold strided.
      destruct (Z.of_nat j mod ds <? c) eqn:E3; [|by rewrite !andb_false_r].
      rewrite !andb_true_r. destruct (decide (Z.of_nat j / ds = r)) as [E4|E4]; [exfalso; rewrite E4 in *; lia|].
      by replace (Z.of_nat j / ds <? r + 1) with (Z.of_nat j / ds <? r) by lia.
  - exists out. by rewrite Nat.add_succ_r.
Qed.

Lemma stride_copy_ok : 0 <= h -> exists out, stride_adjusted_copy dst ds src ss h = Ok out /\
  zlen out = zlen dst /\ forall j, out !! j = strided dst ds src ss (Z.min ds ss) h j.
Proof.
  intros Hh. unfold stride_adjusted_copy.
  destruct (copy_rows (Z.to_nat h) 0 dst) as (out & -> & ? & Ho); [lia|done| |].
  - intros j. unfold strided. pose proof (Z.div_pos (Z.of_nat j) ds ltac:(lia) Hds).
    by rewrite (proj2 (Z.ltb_ge (Z.of_nat j / ds) (Z.of_nat 0))).
  - exists out. cbn [Nat.add] in Ho. rewrite Z2Nat.id in Ho by lia. done.
Qed.

(** What was copied, by row and column. *)
Lemma strided_at (out : bytes) r c : (forall j, out !! j = strided dst ds src ss (Z.min ds ss) h j) ->
  0 <= r < h -> 0 <= c < Z.min ds ss -> out !! Z.to_nat (ds * r + c) = src !! Z.to_nat (ss * r + c).
Proof.
  intros Ho Hr Hc. rewrite Ho. unfold strided. rewrite Z2Nat.id by nia.
  destruct (place_row (ds * r + c) r c) as [-> ->]; [lia|done|].
  by replace ((r <? h) && (c <? Z.min ds ss)) with true by lia.
Qed.
End Strides.

(** C25: GBM buffers are replicated: what [copy_from_dmabuf] reads from a mapping of one buffer and
    [copy_onto_dmabuf] writes to a mapping of another of the same size and format, each with its
    own stride, and any nominal stride of the data in between, gives every pixel byte of the first
    to the second; neither panics, and the sizes of data and mapping stay. *)
Theorem gbm_copies_pixels buf b view ds (data m1 m2 : bytes) s1 s2 :
  get_bpp_if_rgb_planar (gbm_format buf) = Some b ->
  let row := gbm_width buf * b in
  ds = default row view -> 0 < row -> row <= ds /\ row <= s1 /\ row <= s2 -> 0 <= gbm_height buf ->
  Forall (fun s => s < 2 ^ 32 /\ gbm_height buf * s < 2 ^ 32) [ds; s1; s2] ->
  zlen data = gbm_height buf * ds -> gbm_height buf * s1 <= zlen m1 -> gbm_height buf * s2 <= zlen m2 ->
  exists data' m2', gbm_copy_from (Some (m1, s1)) buf view data = Ok data' /\ zlen data' = zlen data /\
    gbm_copy_onto (Some (m2, s2)) buf view data' = Ok m2' /\ zlen m2' = gbm_height buf * s2 /\
    forall y x, 0 <= y < gbm_height buf -> 0 <= x < row ->
      m2' !! Z.to_nat (s2 * y + x) = m1 !! Z.to_nat (s1 * y + x).
Proof.
  intros Hb row Eds Hrow (Hr1 & Hr2 & Hr3) Hh Hlim Hdata Hm1 Hm2.
  apply Forall_cons in Hlim as [[L1 L1'] Hlim]. apply Forall_cons in Hlim as [[L2 L2'] Hlim].
  apply Forall_cons in Hlim as [[L3 L3'] _].
  assert (Hstride : data_stride buf view = Ok ds).
  { unfold data_stride. rewrite Hb. cbn [unwrap mbind res_bind]. rewrite checked_in by (unfold uN; lia).
    cbn [unwrap mbind res_bind]. by rewrite Eds. }
  assert (Hmap : forall s, 0 < s -> gbm_height buf * s < 2 ^ 32 -> mapped_length s buf = Ok (gbm_height buf * s)).
  { intros s Hs H. unfold mapped_length. rewrite (Z.mul_comm s). rewrite checked_in by (unfold uN; nia).
    cbn [unwrap mbind res_bind]. by rewrite assert_true by (unfold isize_max; lia). }
  assert (Htake : forall (m : bytes) s, 0 < s -> gbm_height buf * s <= zlen m ->
            zlen (take (Z.to_nat (gbm_height buf * s)) m) = gbm_height buf * s).
  { intros m s Hs H. unfold zlen in *. rewrite length_take. nia. }
  unfold gbm_copy_from, gbm_copy_onto. rewrite Hstride. cbn [ok_or mbind res_bind].
  rewrite !Hmap by lia. cbn [mbind res_bind].
  destruct (stride_copy_ok data (take (Z.to_nat (gbm_height buf * s1)) m1) ds s1 (gbm_height buf))
    as (d' & -> & Hl & Hd); try lia; [rewrite Htake; lia|].
  exists d'. destruct (stride_copy_ok (take (Z.to_nat (gbm_height buf * s2)) m2) d' s2 ds (gbm_height buf))
    as (m' & -> & Hl' & Hm'); try lia; [rewrite Htake; lia|].
  exists m'. rewrite Htake in Hl' by lia. split_and!; try done. intros y x Hy Hx.
  transitivity (d' !! Z.to_nat (ds * y + x)).
  { eapply (strided_at _ d' s2 ds (gbm_height buf)); [..|exact Hm'|done|lia]; rewrite ?Htake; lia. }
  transitivity (take (Z.to_nat (gbm_height buf * s1)) m1 !! Z.to_nat (s1 * y + x)).
  { eapply (strided_at _ _ ds s1 (gbm_height buf)); [..|exact Hd|done|lia]; rewrite ?Htake; lia. }
  rewrite lookup_take_lt; [done|]. assert (s1 * y + x < gbm_height buf * s1) by nia. nia.
Qed.

Lemma gbm_copies_pixels_witness :
  exists data' m2', gbm_copy_from (Some (Byte.x01 :: replicate 23 Byte.x02, 12)) (MkGbmBuf 2 2 (fourcc "X" "R" "2" "4"))
      None (replicate 16 Byte.x00) = Ok data' /\ zlen data' = 16 /\
    gbm_copy_onto (Some (replicate 40 Byte.x00, 20)) (MkGbmBuf 2 2 (fourcc "X" "R" "2" "4")) None data' = Ok m2' /\
    m2' !! 0%nat = Some Byte.x01.
Proof.
  assert (G : Forall (fun s => s < 2 ^ 32 /\ 2 * s < 2 ^ 32) [8; 12; 20]).
  { apply Forall_cons; split; [lia|]. apply Forall_cons; split; [lia|]. apply Forall_cons; split; [lia|].
    apply Forall_nil. exact I. }
  assert (R : 8 <= 8 /\ 8 <= 12 /\ 8 <= 20) by lia.
  assert (L1 : 2 * 12 <= zlen (Byte.x01 :: replicate 23 Byte.x02)) by (vm_compute; congruence).
  assert (L2 : 2 * 20 <= zlen (replicate 40 Byte.x00)) by (vm_compute; congruence).
  destruct (gbm_copies_pixels (MkGbmBuf 2 2 (fourcc "X" "R" "2" "4")) 4 None 8 (replicate 16 Byte.x00)
    (Byte.x01 :: replicate 23 Byte.x02) (replicate 40 Byte.x00) 12 20 eq_refl eq_refl eq_refl R
    ltac:(cbn; lia) G eq_refl L1 L2) as (d & m & H1 & H2 & H3 & H4 & H5).
  exists d, m. split; [exact H1|]. split; [exact H2|]. split; [exact H3|].
  exact (H5 0 0 ltac:(cbn; lia) ltac:(cbn; lia)).
Defined.
