(* ===== verification/DmabufTasks.v ===== *)
(** * [src/mainloop.rs]: the tasks that replicate DMABUFs, and the copies of [src/dmabuf.rs]

    A sender copies damaged parts of an image to a staging buffer ([run_diff_dmabuf_task],
    [run_fill_dmabuf_task]) and, when the copy is done, makes a message of it
    ([run_diff_dmabuf_task_2], [run_dmabuf_fill_task_2]). A receiver decodes a message into a
    staging buffer and copies it onto the image at once, or, if the changes do not cover whole
    pixels, through the mirror ([run_decomp_dmabuf], [run_apply_dmabuf]). Video packets are
    passed to and from the codec ([run_encode_task], [run_decode_task]).

    Parameters: the classes [Cpu] and [VkLib]; the latter has the calls of Vulkan the copies use. The contents of an image
    are its pixels row by row. A copy takes place as a whole when it is submitted; that the
    second task of a pair starts after the copy is done is the business of the main loop, which
    waits for the point of the timeline that the first returns. *)
From Stdlib Require Import ZArith Lia.
From S2P Require Import Prelude Util Formats Kernel Avx2 Mirror Compress Tasks TrackState Dmabuf.
Local Open Scope Z_scope.
Import Util.Wmsg Util.Arith Util.Options Kernel.Construct Kernel.Apply.

Class VkLib := {
  create_command_pool : res unit;
  (** the memory of a new staging buffer, for a length and whether it is to be read *)
  create_buffer : Z -> bool -> res bytes;
  allocate_command_buffers : res unit;
  begin_command_buffer : res unit;
  end_command_buffer : res unit;
  queue_submit : res unit;
  invalidate_mapped_memory_ranges : res unit;
  flush_mapped_memory_ranges : res unit;
  (** the copies, for pixels of some bytes and an image of some width; the last argument is
      written to *)
  cmd_copy_image_to_buffer : Z -> Z -> list BufferImageCopy -> bytes -> bytes -> bytes;
  cmd_copy_buffer_to_image : Z -> Z -> list BufferImageCopy -> bytes -> bytes -> bytes }.

(** ** Staging buffers *)
Record VulkanBuffer := MkVkBuffer { data : bytes; reader_count : Z; has_writer : bool }.

Definition vulkan_get_buffer `{VkLib} (nom_len : Z) (read_optimized : bool) : res VulkanBuffer :=
  d ← create_buffer nom_len read_optimized; Ok (MkVkBuffer d 0 false).
Definition prepare_read `{VkLib} : res unit := invalidate_mapped_memory_ranges.
Definition complete_write `{VkLib} : res unit := flush_mapped_memory_ranges.
(** A view counts as a reader or as the writer until it is dropped. *)
Definition get_read_view (b : VulkanBuffer) : res VulkanBuffer :=
  assert_ (negb (has_writer b));; Ok (MkVkBuffer (data b) (reader_count b + 1) (has_writer b)).
Definition drop_read_view (b : VulkanBuffer) : res VulkanBuffer :=
  n ← usize (reader_count b - 1); Ok (MkVkBuffer (data b) n (has_writer b)).
Definition get_write_view (b : VulkanBuffer) : res VulkanBuffer :=
  assert_ (reader_count b =? 0);; Ok (MkVkBuffer (data b) (reader_count b) true).
Definition drop_write_view (b : VulkanBuffer) (written : bytes) : VulkanBuffer :=
  MkVkBuffer written (reader_count b) false.

(** ** Copies *)
Inductive ImageLayout := UNDEFINED | GENERAL.
Record Image := MkImage { texels : bytes; image_layout : ImageLayout }.
(** [last_semaphore_value] of the queue: the point of the timeline reached when all work
    submitted is done. *)
Definition Queue : Type := Z.
Definition submit `{VkLib} (q : Queue) : res (Z * Queue) :=
  pt ← u64 (q + 1); queue_submit;; Ok (pt, pt).

Definition start_copy_segments_from_dmabuf `{VkLib} (img : VulkanDmabuf) (im : Image) (copy : VulkanBuffer)
    (segments : list (Z * Z * Z)) (view_row_length : option Z) (q : Queue) : res (Z * Image * VulkanBuffer * Queue) :=
  format_info ← get_vulkan_info (vk_format img);
  allocate_command_buffers;;
  begin_command_buffer;;
  regions ← make_copy_regions segments format_info view_row_length img;
  let d := match regions with
           | [] => data copy
           | _ => cmd_copy_image_to_buffer (bpp format_info) (width img) regions (texels im) (data copy)
           end in
  end_command_buffer;;
  s ← submit q;
  Ok (s.1, MkImage (texels im) GENERAL, MkVkBuffer d (reader_count copy) (has_writer copy), s.2).

Definition start_copy_segments_onto_dmabuf `{VkLib} (img : VulkanDmabuf) (im : Image) (copy : VulkanBuffer)
    (segments : list (Z * Z * Z)) (view_row_length : option Z) (q : Queue) : res (Z * Image * Queue) :=
  format_info ← get_vulkan_info (vk_format img);
  allocate_command_buffers;;
  begin_command_buffer;;
  regions ← make_copy_regions segments format_info view_row_length img;
  let t := match regions with
           | [] => texels im
           | _ => cmd_copy_buffer_to_image (bpp format_info) (width img) regions (data copy) (texels im)
           end in
  end_command_buffer;;
  s ← submit q;
  Ok (s.1, MkImage t GENERAL, s.2).

(** ** Worker threads *)

(** [ThreadCache]: the buffers and contexts of the shared memory tasks, whether there is a command
    pool, and the points at which the copies kept alive are done. *)
Record DmabufCache := MkDC { dc_cache : ThreadCache; cmd_pool : bool; copy_ops : list Z; decode_ops : list Z }.
Definition set_comp (c : DmabufCache) (comp : ThreadCacheComp) : DmabufCache :=
  MkDC (MkTC (large (dc_cache c)) comp) (cmd_pool c) (copy_ops c) (decode_ops c).
Definition get_cmd_pool `{VkLib} (c : DmabufCache) : res DmabufCache :=
  if cmd_pool c then Ok c else create_command_pool;; Ok (MkDC (dc_cache c) true (copy_ops c) (decode_ops c)).
Definition push_copy_op (c : DmabufCache) (pt : Z) : DmabufCache :=
  MkDC (dc_cache c) (cmd_pool c) (copy_ops c ++ [pt]) (decode_ops c).

Inductive ReadDmabufResult := VulkanResult (b : VulkanBuffer) | ShmResult (v : bytes).
Definition read_result `{VkLib} (r : ReadDmabufResult) : res bytes :=
  match r with
  | VulkanResult b => prepare_read;; b ← get_read_view b; Ok (data b)
  | ShmResult v => Ok v
  end.

(** *** Filling *)
Record FillDmabufTask := MkFill {
  f_rid : Z; f_compression : Compression; f_region_start : Z; f_region_end : Z; f_view_row_stride : option Z }.
Record FillDmabufTask2 := MkFill2 {
  f2_rid : Z; f2_compression : Compression; f2_region_start : Z; f2_region_end : Z; f2_wait_until : Z;
  f2_read_buf : ReadDmabufResult }.

Section Send.
Context `{CompLib, VkLib, Cpu}.

Definition run_fill_dmabuf_task (task : FillDmabufTask) (img : VulkanDmabuf) (im : Image) (cache : DmabufCache)
    (q : Queue) : res (FillDmabufTask2 * Image * DmabufCache * Queue) :=
  cache ← get_cmd_pool cache;
  space ← u32 (f_region_end task - f_region_start task);
  read_buf ← vulkan_get_buffer space true;
  r ← start_copy_segments_from_dmabuf img im read_buf [(0, f_region_start task, f_region_end task)]
        (f_view_row_stride task) q;
  let '(pt, im, read_buf, q) := r in
  Ok (MkFill2 (f_rid task) (f_compression task) (f_region_start task) (f_region_end task) pt
        (VulkanResult read_buf), im, push_copy_op cache pt, q).

Definition run_dmabuf_fill_task_2 (task : FillDmabufTask2) (mirror : option MirrorState) (cache : DmabufCache) :
  res (TaskOutput * option MirrorState * DmabufCache) :=
  data ← read_result (f2_read_buf task);
  mirror ← match mirror with
           | Some mir =>
               r ← with_range mir (f2_region_start task) (f2_region_end task) "failed to acquire mirror range"
                     (fun v => v ← set_range v 0 (zlen v) data; Ok (tt, v));
               Ok (Some r.2)
           | None => Ok None
           end;
  r ← comp_into_vec (f2_compression task) (comp (dc_cache cache)) data 16 4;
  let '(msg, comp) := r in
  msg_len ← usize (zlen msg - 4);
  n ← align4 msg_len;
  let msg := take (Z.to_nat n) msg in
  h ← build_wmsg_header BufferFill msg_len;
  msg ← set_range msg 0 16 (cat4x4 (to_le 4 h) (to_le 4 (f2_rid task)) (to_le 4 (f2_region_start task))
                              (to_le 4 (f2_region_end task)));
  Ok (OutMsg msg, mirror, set_comp cache comp).

(** *** Diffs *)

(** Segments that put the intervals one after the other in the buffer; the next free place. *)
Definition push_segment (st : list (Z * Z * Z) * Z) (intv : Z * Z) : res (list (Z * Z * Z) * Z) :=
  let '(segments, start) := st in
  n ← u32 (intv.2 - intv.1);
  next ← u32 (start + n);
  Ok (segments ++ [(start, intv.1, intv.2)], next).

Record DiffDmabufTask2 := MkDiff2 { d2_task : DiffTask; d2_wait_until : Z; d2_nominal_size : Z; d2_read_buf : ReadDmabufResult }.

Definition run_diff_dmabuf_task (task : DiffTask) (view_row_stride : option Z) (img : VulkanDmabuf) (im : Image)
    (cache : DmabufCache) (q : Queue) : res (DiffDmabufTask2 * Image * DmabufCache * Queue) :=
  st ← foldM push_segment ([], 0) (d_intervals task);
  let '(segments, start) := st in
  nom_len ← vulkan_nominal_size img view_row_stride;
  segments ← (if 0 <? d_trailing task then
                s ← u32 (wrap 32 nom_len - d_trailing task);
                Ok (segments ++ [(start, s, wrap 32 nom_len)])
              else Ok segments);
  cache ← get_cmd_pool cache;
  buf_len ← u32 (start + d_trailing task);
  read_buf ← vulkan_get_buffer buf_len true;
  r ← start_copy_segments_from_dmabuf img im read_buf segments view_row_stride q;
  let '(pt, im, read_buf, q) := r in
  Ok (MkDiff2 task pt nom_len (VulkanResult read_buf), im, push_copy_op cache pt, q).

(** The diff of one interval: [start] is where its data is in the buffer; [dst_done] is what was
    written of [dst], [dst_view] the rest of it. *)
Definition diff_interval (region_start : Z) (data : bytes) (st : Z * Z * bytes * bytes * bytes) (intv : Z * Z) :
  res (Z * Z * bytes * bytes * bytes) :=
  let '(start, diff_len, dst_done, dst_view, mirror) := st in
  intv_len ← u32 (intv.2 - intv.1);
  a ← u32 (intv.1 - region_start);
  b ← u32 (intv.2 - region_start);
  mirr_range ← get_range mirror a b;
  target ← get_range data start (start + intv_len);
  r ← construct_diff_segment_two dst_view target mirr_range intv.1 32;
  let '(diff_segment_len, dst_view, mirr_range) := r in
  mirror ← set_range mirror a b mirr_range;
  dst_rest ← get_from dst_view diff_segment_len;
  diff_len ← u32 (diff_len + diff_segment_len);
  Ok (start + intv_len, diff_len, dst_done ++ take (Z.to_nat diff_segment_len) dst_view, dst_rest, mirror).

Definition diff_dmabuf_region (task : DiffTask) (data dst : bytes) (mirror : MirrorState) :
  res (Z * bytes * bytes * MirrorState) :=
  match d_region task with
  | Some (region_start, region_end) =>
      assert_ (region_start mod 64 =? 0);;
      assert_ (region_end mod 64 =? 0);;
      with_range mirror region_start region_end "Failed to acquire mirror for diff" (fun m =>
        r ← foldM (diff_interval region_start data) (0, 0, [], dst, m) (d_intervals task);
        let '(start, diff_len, dst_done, dst_view, m) := r in
        assert_ (start + d_trailing task =? zlen data);;
        Ok ((diff_len, dst_done, dst_view), m))
  | None => Ok ((0, [], dst), mirror)
  end.

Definition diff_dmabuf_trailing (task : DiffTask) (img_len : Z) (data dst_view : bytes) (mirror : MirrorState) :
  res (Z * bytes * MirrorState) :=
  if 0 <? d_trailing task then
    start ← usize (img_len - d_trailing task);
    with_range mirror start img_len "Failed to acquire trailing mirror" (fun m =>
      s ← usize (zlen data - d_trailing task);
      tail_segment ← get_from data s;
      assert_ (zlen tail_segment =? zlen m);;
      if bool_decide (tail_segment = m) then Ok ((0, dst_view), m) else
      dst_view ← set_range dst_view 0 (d_trailing task) tail_segment;
      Ok ((d_trailing task, dst_view), tail_segment))
  else Ok ((0, dst_view), mirror).

Definition diff_dmabuf_inner (task : DiffDmabufTask2) (dst : bytes) (mirror : MirrorState) :
  res (Z * Z * bytes * MirrorState) :=
  data ← read_result (d2_read_buf task);
  r ← diff_dmabuf_region (d2_task task) data dst mirror;
  let '(diff_len, dst_done, dst_view, mirror) := r in
  r ← diff_dmabuf_trailing (d2_task task) (d2_nominal_size task) data dst_view mirror;
  let '(ntrailing, dst_view, mirror) := r in
  Ok (diff_len, ntrailing, dst_done ++ dst_view, mirror).

Definition plain_dmabuf_msg (task : DiffDmabufTask2) (mirror : MirrorState) (space : Z) : res (bytes * MirrorState) :=
  n ← align4 space;
  let buf := zeros (n + 16) in
  dst ← get_range buf 16 (16 + space);
  r ← diff_dmabuf_inner task dst mirror;
  let '(diff_len, ntrailing, dst, mirror) := r in
  buf ← set_range buf 16 (16 + space) dst;
  if (diff_len =? 0) && (ntrailing =? 0) then Ok ([], mirror) else
  raw_len ← u32 (diff_len + ntrailing);
  msg ← finish_diff_msg buf (d_rid (d2_task task)) (16 + raw_len) diff_len ntrailing;
  Ok (msg, mirror).

Definition compressed_dmabuf_msg (task : DiffDmabufTask2) (mirror : MirrorState) (cache : DmabufCache) (space : Z) :
  res (bytes * MirrorState * DmabufCache) :=
  let lg := large (dc_cache cache) ++ zeros (space - zlen (large (dc_cache cache))) in
  let with_large c := MkDC (MkTC c (comp (dc_cache cache))) (cmd_pool cache) (copy_ops cache) (decode_ops cache) in
  dst ← get_range lg 0 space;
  r ← diff_dmabuf_inner task dst mirror;
  let '(diff_len, ntrailing, dst, mirror) := r in
  lg ← set_range lg 0 space dst;
  if (diff_len =? 0) && (ntrailing =? 0) then Ok ([], mirror, with_large lg) else
  raw_len ← u32 (diff_len + ntrailing);
  src ← get_range lg 0 raw_len;
  r ← comp_into_vec (d_compression (d2_task task)) (comp (dc_cache cache)) src 16 4;
  let '(nxt, comp) := r in
  sz ← usize (zlen nxt - 4 - 16);
  msg ← finish_diff_msg nxt (d_rid (d2_task task)) (16 + sz) diff_len ntrailing;
  Ok (msg, mirror, set_comp (with_large lg) comp).

Definition run_diff_dmabuf_task_2 (task : DiffDmabufTask2) (mirror : MirrorState) (cache : DmabufCache) :
  res (TaskOutput * MirrorState * DmabufCache) :=
  diffspace ← diff_space (d_intervals (d2_task task));
  space ← u32 (diffspace + d_trailing (d2_task task));
  match d_compression (d2_task task) with
  | CompNone => r ← plain_dmabuf_msg task mirror space; Ok (OutMsg r.1, r.2, cache)
  | Lz4 _ | Zstd _ =>
      r ← compressed_dmabuf_msg task mirror cache space;
      let '(msg, mirror, cache) := r in Ok (OutMsg msg, mirror, cache)
  end.
End Send.

(** ** Receiving *)

(** [ApplyTask] with the target [ApplyTaskTarget::Dmabuf]: the region may be wider than the part
    that changes. *)
Record DmabufApply := MkDA {
  da_sequence : Z; da_remote_id : Z; da_data : bytes; da_is_diff_type : bool; da_ntrailing : Z;
  orig_start : Z; orig_end : Z; da_region_start : Z; da_region_end : Z }.
(** What a decompression gives: a copy in progress, with the mirror yet to be updated; or a task
    to apply. *)
Inductive DecompReturn :=
| ReturnDmabuf (copy_id remote_id : Z) (apply_task : option ApplyTask)
| ReturnApply (t : DmabufApply).

Definition is_segment_texel_aligned (start end_ bpp : Z) : res bool :=
  a ← umod start bpp; b ← umod end_ bpp; Ok ((a =? 0) && (b =? 0)).

(** The segments of a diff: each is copied from just after its header. [misaligned]: some
    segment does not cover whole pixels. *)
Fixpoint diff_segments (fuel : nat) (diff : bytes) (diff_size b pos : Z) (segments : list (Z * Z * Z))
    (misaligned : bool) : res (list (Z * Z * Z) * bool) :=
  match fuel with
  | O => Panic
  | S fuel =>
      if pos + 8 <=? diff_size then
        span_start ← read_u32 diff pos;
        span_end ← read_u32 diff (pos + 4);
        s ← u32 (4 * span_start);
        sm ← umod s b;
        mis ← (if sm =? 0 then e ← u32 (4 * span_end); em ← umod e b; Ok (negb (em =? 0)) else Ok true);
        let misaligned := misaligned || (mis : bool) in
        let pos := pos + 8 in
        e ← u32 (4 * span_end);
        len ← u32 (span_end - span_start);
        diff_segments fuel diff diff_size b (pos + len * 4) (segments ++ [(wrap 32 pos, s, e)]) misaligned
      else assert_ (pos =? diff_size);; Ok (segments, misaligned)
  end.

Section Receive.
Context `{CompLib, VkLib}.

(** [has_mirror]: whether the DMABUF has one. *)
Definition decomp_dmabuf_diff (msg : bytes) (sequence : option Z) (compression : Compression) (file_size : Z)
    (view_row_stride : option Z) (has_mirror : bool) (len remote_id diff_size ntrailing : Z) (img : VulkanDmabuf)
    (im : Image) (cache : DmabufCache) (q : Queue) : res (DecompReturn * Image * DmabufCache * Queue) :=
  decomp_len ← u32 (diff_size + ntrailing);
  write_buf ← vulkan_get_buffer decomp_len true;
  write_buf ← get_write_view write_buf;
  src ← get_range msg 16 len;
  r ← decomp_into_slice compression (comp (dc_cache cache)) src (zlen (data write_buf));
  let '(written, comp) := r in
  let cache := set_comp cache comp in
  let write_buf := drop_write_view write_buf written in
  complete_write;;
  write_buf ← get_read_view write_buf;
  sp ← compute_diff_span (data write_buf) ntrailing file_size;
  b ← vulkan_get_bpp img;
  segs ← diff_segments (S (length (data write_buf))) (data write_buf) diff_size b 0 [] false;
  let '(segments, misaligned) := segs in
  segments ← (if 0 <? ntrailing then
                s ← u32 (wrap 32 file_size - ntrailing);
                Ok (segments ++ [(diff_size, s, wrap 32 file_size)])
              else Ok segments);
  if negb misaligned then
    cache ← get_cmd_pool cache;
    c ← start_copy_segments_onto_dmabuf img im write_buf segments view_row_stride q;
    let '(copy_id, im, q) := c in
    let cache := push_copy_op cache copy_id in
    apply_task ← (if has_mirror then
                    seq ← unwrap sequence;
                    Ok (Some (MkApply seq remote_id (data write_buf) true ntrailing (TMirrorOnly false) sp.1 sp.2))
                  else Ok None);
    Ok (ReturnDmabuf copy_id remote_id apply_task, im, cache, q)
  else
    r ← decomp_into_vec compression comp src decomp_len;
    let '(diff, comp) := r in
    ext_end ← align sp.2 b;
    seq ← unwrap sequence;
    Ok (ReturnApply (MkDA seq remote_id diff true ntrailing sp.1 sp.2 (b * (sp.1 / b)) ext_end), im,
        set_comp cache comp, q).

Definition decomp_dmabuf_fill (msg : bytes) (sequence : option Z) (compression : Compression)
    (view_row_stride : option Z) (has_mirror : bool) (len remote_id region_start region_end : Z) (img : VulkanDmabuf)
    (im : Image) (cache : DmabufCache) (q : Queue) : res (DecompReturn * Image * DmabufCache * Queue) :=
  if region_end <=? region_start then Err "Invalid region" else
  let reg_len := region_end - region_start in
  b ← vulkan_get_bpp img;
  al ← is_segment_texel_aligned region_start region_end b;
  if (al : bool) then
    write_buf ← vulkan_get_buffer reg_len true;
    write_buf ← get_write_view write_buf;
    src ← get_range msg 16 len;
    r ← decomp_into_slice compression (comp (dc_cache cache)) src (zlen (data write_buf));
    let '(written, comp) := r in
    let cache := set_comp cache comp in
    let write_buf := drop_write_view write_buf written in
    complete_write;;
    cache ← get_cmd_pool cache;
    c ← start_copy_segments_onto_dmabuf img im write_buf [(0, region_start, region_end)] view_row_stride q;
    let '(copy_id, im, q) := c in
    let cache := push_copy_op cache copy_id in
    mir_task ← (if has_mirror then
                  write_buf ← get_read_view write_buf;
                  seq ← unwrap sequence;
                  Ok (Some (MkApply seq remote_id (data write_buf) false 0 (TMirrorOnly false) region_start region_end))
                else Ok None);
    Ok (ReturnDmabuf copy_id remote_id mir_task, im, cache, q)
  else
    src ← get_range msg 16 len;
    r ← decomp_into_vec compression (comp (dc_cache cache)) src reg_len;
    let '(fill, comp) := r in
    ext_end ← align region_end b;
    seq ← unwrap sequence;
    Ok (ReturnApply (MkDA seq remote_id fill false 0 region_start region_end (b * (region_start / b)) ext_end), im,
        set_comp cache comp, q).

(** [run_decomp_task] with the target [DecompTarget::Dmabuf]. *)
Definition run_decomp_dmabuf (msg : bytes) (sequence : option Z) (compression : Compression) (file_size : Z)
    (view_row_stride : option Z) (has_mirror : bool) (img : VulkanDmabuf) (im : Image) (cache : DmabufCache)
    (q : Queue) : res (DecompReturn * Image * DmabufCache * Queue) :=
  header ← read_u32 msg 0;
  lt ← unwrap (parse_wmsg_header header);
  let '(len, t) := lt in
  ridb ← get_range msg 4 8;
  let remote_id := from_le_i32 ridb in
  if decide (t = BufferDiff) then
    diff_size ← read_u32 msg 8;
    ntrailing ← read_u32 msg 12;
    decomp_dmabuf_diff msg sequence compression file_size view_row_stride has_mirror len remote_id diff_size
      ntrailing img im cache q
  else if decide (t = BufferFill) then
    region_start ← read_u32 msg 8;
    region_end ← read_u32 msg 12;
    decomp_dmabuf_fill msg sequence compression view_row_stride has_mirror len remote_id region_start region_end
      img im cache q
  else Panic.

(** A diff is applied to the mirror's part that changes. *)
Definition apply_to_part (task : DmabufApply) (v : bytes) : res bytes :=
  let a := orig_start task - da_region_start task in
  let e := orig_end task - da_region_start task in
  part ← get_range v a e;
  part ← apply_diff_one (da_data task) (da_ntrailing task) (orig_start task) part;
  set_range v a e part.
(** The data of a fill, within the old contents of the region. *)
Definition fill_part (task : DmabufApply) (v : bytes) : res bytes :=
  set_range v (orig_start task - da_region_start task) (orig_end task - da_region_start task) (da_data task).

(** [run_apply_task] with the target [ApplyTaskTarget::Dmabuf]. *)
Definition run_apply_dmabuf (task : DmabufApply) (view_row_stride : option Z) (mirror : option MirrorState)
    (img : VulkanDmabuf) (im : Image) (cache : DmabufCache) (q : Queue) :
  res (TaskOutput * MirrorState * Image * DmabufCache * Queue) :=
  assert_ ((da_region_start task <=? orig_start task) && (orig_start task <=? orig_end task) &&
           (orig_end task <=? da_region_end task));;
  mirror ← unwrap mirror;
  r ← with_range mirror (da_region_start task) (da_region_end task) "Failed to get mirror segment" (fun v =>
        v ← (if da_is_diff_type task then apply_to_part task v else Ok v);
        let write_len := da_region_end task - da_region_start task in
        write_buf ← vulkan_get_buffer write_len false;
        write_buf ← get_write_view write_buf;
        v ← (if da_is_diff_type task then Ok v else fill_part task v);
        written ← set_range (data write_buf) 0 (zlen (data write_buf)) v;
        let write_buf := drop_write_view write_buf written in
        complete_write;;
        cache ← get_cmd_pool cache;
        c ← start_copy_segments_onto_dmabuf img im write_buf
              [(0, wrap 32 (da_region_start task), wrap 32 (da_region_end task))] view_row_stride q;
        Ok ((c, cache), v));
  let '((copy_id, im, q), cache, mirror) := r in
  Ok (DmabufApplyOp copy_id (da_remote_id task), mirror, im, push_copy_op cache copy_id, q).
End Receive.

(** ** Video *)

(** The codec: [start_dmavid_encode] gives a packet, [start_dmavid_apply] the point at which the
    decoded picture is in the image. *)
Class Codec := { start_dmavid_encode : Z -> res bytes; start_dmavid_apply : Z -> bytes -> res Z }.

Definition run_encode_task `{VkLib, Codec} (remote_id : Z) (cache : DmabufCache) : res (TaskOutput * DmabufCache) :=
  cache ← get_cmd_pool cache;
  packet ← start_dmavid_encode remote_id;
  n ← align4 (zlen packet);
  let npadding := n - zlen packet in
  h ← build_wmsg_header SendDMAVidPacket (8 + zlen packet);
  Ok (OutMsg ((to_le 4 h ++ to_le 4 remote_id) ++ packet ++ (if 0 <? npadding then zeros npadding else [])), cache).

Definition run_decode_task `{VkLib, Codec} (remote_id : Z) (msg : bytes) (cache : DmabufCache) :
  res (TaskOutput * DmabufCache) :=
  cache ← get_cmd_pool cache;
  header ← read_u32 msg 0;
  lt ← unwrap (parse_wmsg_header header);
  let '(len, _) := lt in
  packet ← get_range msg 8 len;
  completion_point ← start_dmavid_apply remote_id packet;
  Ok (DmabufApplyOp completion_point remote_id,
      MkDC (dc_cache cache) (cmd_pool cache) (copy_ops cache) (decode_ops cache ++ [completion_point])).
