(* ===== verification/DmabufReplicate.v ===== *)
(** * Replication of a DMABUF

    What the tasks for DMABUFs do end to end: the message of a fill or diff task, made from the
    pixels of one image, gives the receiver's image the same pixels. The copies of Vulkan are
    known by their documented addressing ([VkLaws]); [soft] is an implementation that has it. *)
From Stdlib Require Import ZArith Lia.
From S2P Require Import Prelude Util Formats Kernel KernelCorrect Mirror Compress Tasks TasksCorrect Replicate TrackState Dmabuf DmabufCorrect DmabufTasks.
Local Open Scope Z_scope.
Import Util.Wmsg Util.Arith Util.Options.

(** ** Vulkan's copies *)

(** What Vulkan requires of the regions of a copy: valid for an image of [w] by [h] pixels of [b]
    bytes, without overlap, and inside a buffer of [n] bytes. *)
Definition regions_fit (b w h n : Z) (rs : list BufferImageCopy) : Prop :=
  Forall (region_valid w h b) rs /\ ForallOrdPairs (apart b) rs /\
  forall r x y pos, r ∈ rs -> addresses b r x y pos -> 0 <= pos /\ pos + b <= n.

(** The documented effect of the copies, byte by byte; what no region addresses stays. *)
Class VkLaws (L : VkLib) : Prop := {
  copy_out_len b w h rs im buf : 0 < b -> zlen im = w * h * b -> regions_fit b w h (zlen buf) rs ->
    zlen (cmd_copy_image_to_buffer b w rs im buf) = zlen buf;
  copy_out_at b w h rs im buf r x y pos k : 0 < b -> zlen im = w * h * b -> regions_fit b w h (zlen buf) rs ->
    r ∈ rs -> addresses b r x y pos -> 0 <= k < b ->
    cmd_copy_image_to_buffer b w rs im buf !! Z.to_nat (pos + k) = im !! Z.to_nat ((y * w + x) * b + k);
  copy_in_len b w h rs im buf : 0 < b -> zlen im = w * h * b -> regions_fit b w h (zlen buf) rs ->
    zlen (cmd_copy_buffer_to_image b w rs buf im) = zlen im;
  copy_in_at b w h rs im buf r x y pos k : 0 < b -> zlen im = w * h * b -> regions_fit b w h (zlen buf) rs ->
    r ∈ rs -> addresses b r x y pos -> 0 <= k < b ->
    cmd_copy_buffer_to_image b w rs buf im !! Z.to_nat ((y * w + x) * b + k) = buf !! Z.to_nat (pos + k);
  copy_in_other b w h rs im buf (p : nat) : 0 < b -> zlen im = w * h * b -> regions_fit b w h (zlen buf) rs ->
    (forall r x y pos, r ∈ rs -> addresses b r x y pos ->
       ~ ((y * w + x) * b <= Z.of_nat p < (y * w + x) * b + b)) ->
    cmd_copy_buffer_to_image b w rs buf im !! p = im !! p;
}.
(** The calls succeed. *)
Class VkWorks (L : VkLib) : Prop := {
  pool_works : create_command_pool = Ok tt;
  record_works : allocate_command_buffers = Ok tt /\ begin_command_buffer = Ok tt /\ end_command_buffer = Ok tt;
  submit_works : queue_submit = Ok tt;
  memory_works : invalidate_mapped_memory_ranges = Ok tt /\ flush_mapped_memory_ranges = Ok tt;
  buffer_works n ro : 0 < n -> exists m, create_buffer n ro = Ok m /\ zlen m = n;
}.

Lemma list_eq_z (l1 l2 : bytes) : zlen l1 = zlen l2 ->
  (forall p, 0 <= p < zlen l1 -> l1 !! Z.to_nat p = l2 !! Z.to_nat p) -> l1 = l2.
Proof.
  intros Hl Hp. apply list_eq. intros i. destruct (decide (Z.of_nat i < zlen l1)) as [Hi|Hi].
  - specialize (Hp (Z.of_nat i) ltac:(lia)). by rewrite !Nat2Z.id in Hp.
  - unfold zlen in *. by rewrite !lookup_ge_None_2 by lia.
Qed.

Lemma splice_whole (l x : bytes) : zlen x = zlen l -> splice l 0 x = x.
Proof.
  intros E. rewrite <- (app_nil_r x) at 2. rewrite <- (app_nil_l (x ++ [])), <- (app_nil_l l), <- (app_nil_r l).
  by rewrite splice_mid by zlia.
Qed.

(** ** Copies of a densely packed view *)
Lemma small_code {L : CompLib} comp c x : encodes comp c x -> zlen x <= 2 ^ 21 -> zlen c < 2 ^ 23.
Proof.
  intros (Hc & _) Hx. zlen_pos. assert (zlen x / 2 ^ 7 <= zlen x) by (apply Z.div_le_upper_bound; lia). lia.
Qed.

Lemma pool_ok {V : VkLib} {VW : VkWorks V} c : exists c', get_cmd_pool c = Ok c' /\ dc_cache c' = dc_cache c.
Proof. unfold get_cmd_pool. rewrite pool_works. destruct (cmd_pool c); eauto. Qed.

Section Packed.
Context {V : VkLib} `{VL : !VkLaws V} `{VW : !VkWorks V}.
Context (img : VulkanDmabuf) (info : FormatLayoutInfo) (view : option Z).
Context (Hinfo : get_vulkan_info (vk_format img) = Ok info).
Context (Hview : copy_view img info view (width img * bpp info)).
#[local] Set Default Proof Using "All".
Let b := bpp info.
Let w := width img.
Let h := height img.
Let n := w * h * b.

(** Segments inside the image, with room in a buffer of [len] bytes. *)
Definition segments_fit (len : Z) (segs : list (Z * Z * Z)) : Prop :=
  Forall (segment_ok b h (w * b)) segs /\ Forall (fun s => s.1.1 mod b = 0) segs /\
  ForallOrdPairs segments_apart segs /\ Forall (fun s => s.1.1 + (s.2 - s.1.2) <= len) segs.

Lemma view_facts : 0 < b /\ 0 < w < 2 ^ 31 /\ h < 2 ^ 31 /\ h * (w * b) < 2 ^ 32.
Proof. destruct Hview as (?&?&?&?&?&?&?&?). unfold b, w, h. lia. Qed.

(** A byte of the view, by pixel. *)
Lemma byte_of_view p : 0 <= p -> exists x y k, p = (y * w + x) * b + k /\ 0 <= x < w /\ 0 <= y /\ 0 <= k < b.
Proof.
  destruct view_facts as (Hb & Hw & _). intros Hp.
  exists (p / b mod w), (p / b / w), (p mod b).
  pose proof (Z.div_mod p b ltac:(lia)). pose proof (Z.div_mod (p / b) w ltac:(lia)).
  pose proof (Z.mod_pos_bound p b Hb). pose proof (Z.mod_pos_bound (p / b) w ltac:(lia)).
  assert (0 <= p / b) by (apply Z.div_pos; lia). assert (0 <= p / b / w) by (apply Z.div_pos; lia).
  split; [|lia]. rewrite (Z.mul_comm (p / b / w)). rewrite <- H0. lia.
Qed.

(** A segment of whole pixels contains a pixel entirely or not at all. *)
Lemma pixel_in_segment s x y k : segment_ok b h (w * b) s -> 0 <= k < b ->
  (s.1.2 <= (y * w + x) * b + k < s.2 <-> s.1.2 <= y * (w * b) + x * b < s.2).
Proof.
  intros (_ & _ & _ & _ & Hs & He) Hk. destruct view_facts as (Hb & _).
  replace (y * (w * b) + x * b) with ((y * w + x) * b) by ring. generalize (y * w + x) as t. intros t.
  assert (exists d1, s.1.2 = d1 * b) as [d1 ->].
  { exists (s.1.2 / b). pose proof (Z.div_mod s.1.2 b ltac:(lia)). lia. }
  assert (exists d2, s.2 = d2 * b) as [d2 ->].
  { exists (s.2 / b). pose proof (Z.div_mod s.2 b ltac:(lia)). lia. }
  assert (d1 * b <= t * b + k <-> d1 <= t) by nia. assert (t * b + k < d2 * b <-> t < d2) by nia.
  assert (d1 * b <= t * b <-> d1 <= t) by nia. assert (t * b < d2 * b <-> t < d2) by nia. lia.
Qed.

(** The regions of such segments can be copied, and address what the segments have. *)
Lemma packed_regions segs len : segments_fit len segs ->
  exists rs, make_copy_regions segs info view img = Ok rs /\ regions_fit b w h len rs /\
    (forall r x y pos, r ∈ rs -> addresses b r x y pos ->
       0 <= x < w /\ 0 <= y < h /\ Exists (fun s => segment_has s (y * (w * b) + x * b) pos) segs) /\
    (forall x y pos, 0 <= x < w -> 0 <= y -> Exists (fun s => segment_has s (y * (w * b) + x * b) pos) segs ->
       exists r, r ∈ rs /\ addresses b r x y pos).
Proof.
  intros (Hok & Hal & Hap & Hlen). pose proof Hview as (Hb & Hw & Hh & Hu & ER & HwR & HR & Hv32).
  unfold make_copy_regions. rewrite chk_in by done. cbn [mbind res_bind]. rewrite <- ER.
  rewrite !assert_true by lia. cbn [mbind res_bind].
  destruct (regions_loop img (bpp info) _ segs [] Hb Hw Hh HwR HR Hv32 Hok) as (rs & -> & Hvalid & Hin & Hpairs & Hcov).
  exists rs. split; [done|]. split; [|split; [exact Hin|]].
  - split; [by apply Hvalid|]. split; [by apply Hpairs|]. intros r x y pos Hr Ha.
    destruct (Hin r x y pos Hr Ha) as (? & ? & (s & Hs & Hp & ->)%Exists_exists).
    rewrite Forall_forall in Hok, Hlen. specialize (Hok s Hs). specialize (Hlen s Hs). cbn in Hlen.
    pose proof (proj2 (pixel_in_segment s x y (b - 1) Hok ltac:(unfold b; lia)) Hp) as Hlast.
    destruct Hok as (? & _). unfold b, w, h in *. lia.
  - intros x y pos Hx Hy Hs. apply (Hcov x y pos Hx Hy) in Hs. apply Exists_exists in Hs as (r & ? & ?). eauto.
Qed.

Lemma submit_ok q : 0 <= q -> q + 1 < 2 ^ 64 -> submit q = Ok (q + 1, q + 1).
Proof. intros. unfold submit. rewrite chk_in by (unfold uN; lia). cbn [mbind res_bind]. by rewrite submit_works. Qed.

(** Reading: every byte of a segment reaches its place in the buffer. *)
Lemma copy_from_ok segs (I : bytes) lay buf q : segments_fit (zlen (data buf)) segs -> zlen I = n ->
  0 <= q -> q + 1 < 2 ^ 64 ->
  exists d, start_copy_segments_from_dmabuf img (MkImage I lay) buf segs view q =
      Ok (q + 1, MkImage I GENERAL, MkVkBuffer d (reader_count buf) (has_writer buf), q + 1) /\
    zlen d = zlen (data buf) /\
    forall s p, s ∈ segs -> s.1.2 <= p < s.2 -> d !! Z.to_nat (s.1.1 + (p - s.1.2)) = I !! Z.to_nat p.
Proof.
  intros Hfit HI Hq Hq2. destruct (packed_regions segs _ Hfit) as (rs & E & Hrs & Hin & Hcov).
  destruct record_works as (E1 & E2 & E3). unfold start_copy_segments_from_dmabuf.
  rewrite Hinfo, E1, E2. cbn [mbind res_bind]. rewrite E. cbn [mbind res_bind]. rewrite E3, submit_ok by done.
  cbn [mbind res_bind fst snd texels].
  destruct view_facts as (Hb & Hw & Hh & Hv).
  set (d := match rs with [] => data buf | _ => _ end). exists d. split; [done|].
  assert (Hd : rs = [] /\ d = data buf \/ d = cmd_copy_image_to_buffer b w rs I (data buf)).
  { unfold d. destruct rs; [by left|by right]. }
  clearbody d. split.
  - destruct Hd as [[_ ->]| ->]; [done|]. by apply (copy_out_len b w h).
  - intros s p Hs Hp. destruct Hfit as (Hok & _). rewrite Forall_forall in Hok. specialize (Hok s Hs).
    pose proof Hok as (Ho & Hse & _).
    destruct (byte_of_view p ltac:(lia)) as (x & y & k & -> & Hx & Hy & Hk).
    apply (pixel_in_segment s x y k Hok Hk) in Hp.
    destruct (Hcov x y (s.1.1 + (y * (w * b) + x * b - s.1.2)) Hx Hy) as (r & Hr & Ha).
    { apply Exists_exists. exists s. split; [done|]. by split. }
    destruct Hd as [[-> _]| ->]; [by apply not_elem_of_nil in Hr|].
    rewrite <- (copy_out_at b w h rs I (data buf) r x y _ k Hb HI Hrs Hr Ha Hk). do 2 f_equal. lia.
Qed.

(** Writing: every byte of a segment reaches its place in the image; the others stay. *)
Lemma copy_onto_ok segs (I : bytes) lay buf q : segments_fit (zlen (data buf)) segs -> zlen I = n ->
  0 <= q -> q + 1 < 2 ^ 64 ->
  exists I', start_copy_segments_onto_dmabuf img (MkImage I lay) buf segs view q =
      Ok (q + 1, MkImage I' GENERAL, q + 1) /\ zlen I' = n /\
    (forall s p, s ∈ segs -> s.1.2 <= p < s.2 -> I' !! Z.to_nat p = data buf !! Z.to_nat (s.1.1 + (p - s.1.2))) /\
    (forall p, 0 <= p -> (forall s, s ∈ segs -> ~ s.1.2 <= p < s.2) -> I' !! Z.to_nat p = I !! Z.to_nat p).
Proof.
  intros Hfit HI Hq Hq2. destruct (packed_regions segs _ Hfit) as (rs & E & Hrs & Hin & Hcov).
  destruct record_works as (E1 & E2 & E3). unfold start_copy_segments_onto_dmabuf.
  rewrite Hinfo, E1, E2. cbn [mbind res_bind]. rewrite E. cbn [mbind res_bind]. rewrite E3, submit_ok by done.
  cbn [mbind res_bind fst snd texels].
  destruct view_facts as (Hb & Hw & Hh & Hv).
  set (d := match rs with [] => I | _ => _ end). exists d. split; [done|].
  assert (Hd : rs = [] /\ d = I \/ d = cmd_copy_buffer_to_image b w rs (data buf) I).
  { unfold d. destruct rs; [by left|by right]. }
  clearbody d. destruct Hfit as (Hok & _). rewrite Forall_forall in Hok. split_and!.
  - destruct Hd as [[_ ->]| ->]; [done|]. rewrite <- HI. by apply (copy_in_len b w h).
  - intros s p Hs Hp. specialize (Hok s Hs). pose proof Hok as (Ho & Hse & _).
    destruct (byte_of_view p ltac:(lia)) as (x & y & k & -> & Hx & Hy & Hk).
    apply (pixel_in_segment s x y k Hok Hk) in Hp.
    destruct (Hcov x y (s.1.1 + (y * (w * b) + x * b - s.1.2)) Hx Hy) as (r & Hr & Ha).
    { apply Exists_exists. exists s. split; [done|]. by split. }
    destruct Hd as [[-> _]| ->]; [by apply not_elem_of_nil in Hr|].
    rewrite (copy_in_at b w h rs I (data buf) r x y _ k Hb HI Hrs Hr Ha Hk). do 2 f_equal. lia.
  - intros p Hp Hno. destruct Hd as [[_ ->]| ->]; [done|].
    apply (copy_in_other b w h rs I (data buf) _ Hb HI Hrs). intros r x y pos Hr Ha Hin2.
    rewrite Z2Nat.id in Hin2 by done.
    destruct (Hin r x y pos Hr Ha) as (Hx & Hy & (s & Hs & Hps & _)%Exists_exists).
    apply (Hno s Hs). replace p with ((y * w + x) * b + (p - (y * w + x) * b)) by lia.
    apply (pixel_in_segment s x y _ (Hok s Hs)); [lia|done].
Qed.

(** *** Filling *)
Context (Hroom : n + w * b < 2 ^ 32).

Lemma one_segment s e : 0 <= s < e -> e <= n -> s mod b = 0 -> e mod b = 0 -> segments_fit (e - s) [(0, s, e)].
Proof.
  intros Hs He Hsm Hem. destruct view_facts as (Hb & Hw & Hh & Hv). unfold n in *.
  split; [|split; [|split]]; [| |by repeat constructor|]; apply Forall_singleton; unfold segment_ok; cbn [fst snd].
  - rewrite Z.add_0_l. split_and!; try done; lia.
  - apply Z.mod_0_l. lia.
  - lia.
Qed.

Lemma copy_onto_one s e (x J : bytes) lay q :
  zlen x = e - s -> 0 <= s < e -> e <= n -> s mod b = 0 -> e mod b = 0 -> zlen J = n -> 0 <= q -> q + 1 < 2 ^ 64 ->
  start_copy_segments_onto_dmabuf img (MkImage J lay) (MkVkBuffer x 0 false) [(0, s, e)] view q
  = Ok (q + 1, MkImage (splice J s x) GENERAL, q + 1).
Proof.
  intros Hx Hs He Hsm Hem HJ Hq Hq2.
  destruct (copy_onto_ok [(0, s, e)] J lay (MkVkBuffer x 0 false) q) as (J' & -> & HJ' & Hin & Hout); try done.
  { cbn [data]. rewrite Hx. by apply one_segment. }
  do 3 f_equal. f_equal. apply list_eq_z; [rewrite zlen_splice; lia|]. intros p Hp. rewrite lookup_splice by lia.
  rewrite Z2Nat.id by lia. destruct ((s <=? p) && (p <? s + zlen x)) eqn:E.
  - rewrite (Hin (0, s, e) p (list_elem_of_here _ _)) by (cbn [fst snd]; lia). cbn [fst snd data]. f_equal; lia.
  - apply Hout; [lia|]. intros s' ->%list_elem_of_singleton. cbn [fst snd]. lia.
Qed.

Lemma fill_read rid comp s e (I : bytes) lay cache q :
  0 <= s < e -> e <= n -> s mod b = 0 -> e mod b = 0 -> zlen I = n -> 0 <= q -> q + 1 < 2 ^ 64 ->
  exists cache', run_fill_dmabuf_task (MkFill rid comp s e view) img (MkImage I lay) cache q =
      Ok (MkFill2 rid comp s e (q + 1) (VulkanResult (MkVkBuffer (slice I s e) 0 false)),
          MkImage I GENERAL, cache', q + 1) /\ dc_cache cache' = dc_cache cache.
Proof.
  intros Hs He Hsm Hem HI Hq Hq2. unfold run_fill_dmabuf_task.
  cbn [f_region_start f_region_end f_view_row_stride f_rid f_compression].
  destruct (pool_ok cache) as (c' & -> & Hc). cbn [mbind res_bind].
  assert (0 < w * b) by (destruct view_facts; nia).
  rewrite chk_in by (unfold uN; lia). cbn [mbind res_bind]. unfold vulkan_get_buffer.
  destruct (buffer_works (e - s) true ltac:(lia)) as (m & -> & Hm). cbn [mbind res_bind].
  destruct (copy_from_ok [(0, s, e)] I lay (MkVkBuffer m 0 false) q) as (d & -> & Hd & Hat); try done.
  { cbn [data]. rewrite Hm. by apply one_segment. }
  cbn [mbind res_bind reader_count has_writer data] in *.
  assert (d = slice I s e) as ->.
  { apply list_eq_z; [rewrite zlen_slice; lia|]. intros p Hp.
    specialize (Hat (0, s, e) (s + p) (list_elem_of_here _ _)). cbn [fst snd] in Hat.
    rewrite lookup_slice by lia. rewrite Z2Nat.id by lia. rewrite <- Hat by lia. f_equal. lia. }
  eexists. split; [done|]. done.
Qed.

Context {L : CompLib} `{Laws : !CompLibLaws L}.

Definition fill_bytes (rid s e : Z) (c : bytes) : bytes :=
  (to_le 4 ((16 + zlen c) * 32 + 5) ++ to_le 4 rid ++ to_le 4 s ++ to_le 4 e) ++ c ++
  zeros (4 * div_ceil (16 + zlen c) 4 - (16 + zlen c)).

(** The message of a fill, whether read by Vulkan or by GBM. *)
Lemma fill_message rid comp s e pt r (x M : bytes) cache :
  read_result r = Ok x -> zlen x = e - s -> 0 <= s < e -> e <= zlen M -> e - s <= 2 ^ 21 -> compression_wf comp ->
  exists c cache', run_dmabuf_fill_task_2 (MkFill2 rid comp s e pt r) (Some (idle M)) cache =
      Ok (OutMsg (fill_bytes rid s e c), Some (idle (splice M s x)), cache') /\ encodes comp c x.
Proof.
  intros Hr Hx Hs He Hes Hcomp. unfold run_dmabuf_fill_task_2.
  cbn [f2_read_buf f2_region_start f2_region_end f2_compression f2_rid]. rewrite Hr. cbn [mbind res_bind].
  rewrite (with_range_ok M x s e _ _ tt); [|lia|lia| |lia].
  2: { assert (Hl : zlen (slice M s e) = e - s) by (rewrite zlen_slice; lia).
       rewrite set_range_ok by lia. cbn [mbind res_bind]. by rewrite splice_whole by lia. }
  cbn [mbind res_bind snd].
  destruct (comp_into_vec_ok comp (Tasks.comp (dc_cache cache)) x 16 4) as (c & cc & -> & Hc);
    [done|unfold lz4_max_input; lia|lia|lia|]. cbn [mbind res_bind].
  pose proof (small_code _ _ _ Hc ltac:(lia)) as Hcl. zlen_pos.
  assert (E1 : zlen (zeros 16 ++ c ++ zeros 4) - 4 = 16 + zlen c) by zlia. rewrite E1.
  rewrite chk_in by (unfold uN; lia). cbn [mbind res_bind].
  destruct (align4_bounds (16 + zlen c)) as [-> Hn]; [lia..|]. cbn [mbind res_bind].
  set (k := 4 * div_ceil (16 + zlen c) 4) in *.
  assert (ET : take (Z.to_nat k) (zeros 16 ++ c ++ zeros 4) = zeros 16 ++ c ++ zeros (k - (16 + zlen c))).
  { rewrite take_app_ge by (unfold zeros; rewrite length_replicate; lia). f_equal.
    unfold zeros at 1. rewrite length_replicate.
    rewrite take_app_ge by (unfold zlen in *; lia). f_equal. unfold zeros. rewrite take_replicate. f_equal.
    unfold zlen in *. lia. }
  rewrite ET. rewrite build_wmsg_header_ok by (unfold uN; lia). cbn [mbind res_bind].
  rewrite set_range_ok by (unfold cat4x4; zlia). cbn [mbind res_bind].
  eexists c, _. split; [|done]. by do 4 f_equal.
Qed.

(** The receiver copies a fill of whole pixels onto the image at once. *)
Lemma fill_receive rid comp s e (x J c : bytes) lay seq fs cache q :
  encodes comp c x -> zlen x = e - s -> 0 <= s < e -> e <= n -> e - s <= 2 ^ 21 -> s mod b = 0 -> e mod b = 0 ->
  iN 32 rid -> zlen J = n -> 0 <= q -> q + 1 < 2 ^ 64 ->
  exists cache', run_decomp_dmabuf (fill_bytes rid s e c) (Some seq) comp fs view true img (MkImage J lay) cache q =
    Ok (ReturnDmabuf (q + 1) rid (Some (MkApply seq rid x false 0 (TMirrorOnly false) s e)),
        MkImage (splice J s x) GENERAL, cache', q + 1).
Proof.
  intros Hc Hx Hs He Hes Hsm Hem Hrid HJ Hq Hq2. pose proof (small_code _ _ _ Hc ltac:(lia)) as Hcl.
  destruct view_facts as (Hb & _). assert (0 < w * b) by (destruct view_facts; nia).
  destruct Hc as (_ & _ & Hdec). unfold run_decomp_dmabuf, decomp_dmabuf_fill, fill_bytes. zlen_pos.
  destruct (msg_fields ((16 + zlen c) * 32 + 5) rid s e c (zeros (4 * div_ceil (16 + zlen c) 4 - (16 + zlen c))))
    as (E1 & E2 & E3 & E4 & E5); [unfold uN; lia..|].
  rewrite E1. cbn [mbind res_bind]. rewrite (parse_build BufferFill) by (unfold uN; lia).
  cbn [unwrap mbind res_bind]. rewrite E2. cbn [mbind res_bind]. rewrite from_to_le_i32 by done.
  rewrite decide_False, decide_True by done. rewrite E3. cbn [mbind res_bind]. rewrite E4. cbn [mbind res_bind].
  replace (e <=? s) with false by lia. unfold vulkan_get_bpp. rewrite Hinfo. cbn [mbind res_bind].
  unfold is_segment_texel_aligned, umod. fold b. replace (b =? 0) with false by lia. cbn [mbind res_bind].
  rewrite Hsm, Hem, Z.eqb_refl. cbn [andb]. unfold vulkan_get_buffer.
  destruct (buffer_works (e - s) true ltac:(lia)) as (m & -> & Hm). cbn [mbind res_bind].
  unfold get_write_view. cbn [reader_count data has_writer]. rewrite Z.eqb_refl. cbn [assert_ mbind res_bind].
  rewrite E5. cbn [mbind res_bind data]. rewrite Hm, <- Hx.
  destruct (Hdec (Tasks.comp (dc_cache cache))) as (cc & ->). cbn [mbind res_bind].
  unfold complete_write. rewrite (proj2 memory_works). cbn [mbind res_bind drop_write_view].
  destruct (pool_ok (set_comp cache cc)) as (c' & -> & _). cbn [mbind res_bind].
  unfold drop_write_view. cbn [reader_count].
  rewrite copy_onto_one by done. cbn [mbind res_bind]. unfold get_read_view.
  cbn [has_writer negb assert_ mbind res_bind unwrap data]. by eexists.
Qed.

(** The task left for the receiver's mirror. *)
Lemma fill_mirror rid s e seq (x M : bytes) : zlen x = e - s -> 0 <= s < e -> e <= zlen M ->
  run_apply_mirror (MkApply seq rid x false 0 (TMirrorOnly false) s e) false (idle M)
  = Ok (MirrorApply, idle (splice M s x)).
Proof.
  intros Hx Hs He. unfold run_apply_mirror. cbn [region_start region_end a_is_diff_type a_data].
  rewrite (with_range_ok M x s e _ _ tt); [done|lia|lia| |lia].
  assert (Hl : zlen (slice M s e) = e - s) by (rewrite zlen_slice; lia).
  rewrite set_range_ok by lia. cbn [mbind res_bind]. by rewrite splice_whole by lia.
Qed.
End Packed.

(** ** An implementation of the copies *)

(** Byte [p] of the buffer, by region: the byte of the image it is copied from. *)
Definition buffer_source (b w p : Z) (r : BufferImageCopy) : option Z :=
  let t := (p - buffer_offset r) / b in
  let x := t mod buffer_row_length r in
  let y := t / buffer_row_length r in
  if (buffer_offset r <=? p) && (x <? extent_w r) && (y <? extent_h r)
  then Some (((image_y r + y) * w + (image_x r + x)) * b + (p - buffer_offset r) mod b) else None.
(** Byte [p] of the image, by region: the byte of the buffer it is copied from. *)
Definition image_source (b w p : Z) (r : BufferImageCopy) : option Z :=
  let x := p / b mod w in
  let y := p / b / w in
  if (image_x r <=? x) && (x <? image_x r + extent_w r) && (image_y r <=? y) && (y <? image_y r + extent_h r)
  then Some (buffer_offset r + ((y - image_y r) * buffer_row_length r + (x - image_x r)) * b + p mod b) else None.
Fixpoint first_source (f : BufferImageCopy -> option Z) (rs : list BufferImageCopy) : option Z :=
  match rs with
  | [] => None
  | r :: rs => match f r with Some z => Some z | None => first_source f rs end
  end.
(** Each byte of [to] that has a source is overwritten by it. *)
Definition gather (source : Z -> option Z) (from to : bytes) : bytes :=
  imap (fun p old => match source (Z.of_nat p) with
                     | Some z => default old (from !! Z.to_nat z)
                     | None => old
                     end) to.

#[export] Instance soft : VkLib := {
  create_command_pool := Ok tt;
  create_buffer n _ := Ok (zeros n);
  allocate_command_buffers := Ok tt;
  begin_command_buffer := Ok tt;
  end_command_buffer := Ok tt;
  queue_submit := Ok tt;
  invalidate_mapped_memory_ranges := Ok tt;
  flush_mapped_memory_ranges := Ok tt;
  cmd_copy_image_to_buffer b w rs im buf := gather (fun p => first_source (buffer_source b w p) rs) im buf;
  cmd_copy_buffer_to_image b w rs buf im := gather (fun p => first_source (image_source b w p) rs) buf im }.

Lemma zlen_gather f (from to : bytes) : zlen (gather f from to) = zlen to.
Proof. unfold zlen, gather. by rewrite length_imap. Qed.

Lemma gather_at f (from to : bytes) p z : 0 <= p < zlen to -> f p = Some z -> 0 <= z < zlen from ->
  gather f from to !! Z.to_nat p = from !! Z.to_nat z.
Proof.
  intros Hp Hf Hz. unfold gather. rewrite list_lookup_imap.
  destruct (lookup_lt_is_Some_2 to (Z.to_nat p)) as [v ->]; [unfold zlen in *; lia|]. cbn.
  rewrite Z2Nat.id, Hf by lia.
  destruct (lookup_lt_is_Some_2 from (Z.to_nat z)) as [u ->]; [unfold zlen in *; lia|]. done.
Qed.
Lemma gather_none f (from to : bytes) (p : nat) : f (Z.of_nat p) = None -> gather f from to !! p = to !! p.
Proof. intros Hf. unfold gather. rewrite list_lookup_imap, Hf. by destruct (to !! p). Qed.

(** Of regions that are apart, only one has a source for a byte. *)
Lemma first_source_is (f : BufferImageCopy -> option Z) (P : BufferImageCopy -> BufferImageCopy -> Prop) rs r z :
  ForallOrdPairs P rs -> r ∈ rs -> f r = Some z -> (forall r' z', P r' r -> f r' = Some z' -> False) ->
  first_source f rs = Some z.
Proof.
  intros Hp Hr Hz Hno. induction Hp as [|r0 rs Hall Hp IH]; [by apply not_elem_of_nil in Hr|].
  cbn. apply elem_of_cons in Hr as [-> |Hr]; [by rewrite Hz|].
  destruct (f r0) eqn:E; [|by apply IH]. exfalso. rewrite Forall_forall in Hall. eauto.
Qed.
Lemma first_source_none f rs : (forall r, r ∈ rs -> f r = None) -> first_source f rs = None.
Proof.
  induction rs as [|r rs IH]; intros Hn; [done|]. cbn. rewrite (Hn r) by apply list_elem_of_here.
  apply IH. intros r' Hr'. apply Hn. by apply list_elem_of_further.
Qed.

Section Soft.
Context (b w h : Z) (Hb : 0 < b).
#[local] Set Default Proof Using "All".

Lemma digits q k d : 0 <= k < d -> (q * d + k) / d = q /\ (q * d + k) mod d = k.
Proof.
  intros Hk. split.
  - symmetry. apply (Z.div_unique (q * d + k) d q k); lia.
  - symmetry. apply (Z.mod_unique (q * d + k) d q k); lia.
Qed.

Lemma buffer_source_of r x y pos k : region_valid w h b r -> addresses b r x y pos -> 0 <= k < b ->
  buffer_source b w (pos + k) r = Some ((y * w + x) * b + k).
Proof.
  intros (Hx0 & Hw0 & Hxw & Hy0 & Hh0 & Hyh & Hrl & _) (Hx & Hy & ->) Hk. unfold buffer_source.
  set (dy := y - image_y r). set (dx := x - image_x r).
  replace (_ + k - buffer_offset r) with ((dy * buffer_row_length r + dx) * b + k) by (unfold dy, dx; lia).
  destruct (digits (dy * buffer_row_length r + dx) k b Hk) as [-> ->].
  destruct (digits dy dx (buffer_row_length r)) as [-> ->]; [unfold dx; lia|].
  assert (0 <= dy * buffer_row_length r) by (apply Z.mul_nonneg_nonneg; unfold dy; lia).
  assert (0 <= (dy * buffer_row_length r + dx) * b) by (apply Z.mul_nonneg_nonneg; unfold dx in *; lia).
  replace (_ && _) with true by (unfold dx, dy in *; lia). f_equal. unfold dx, dy. ring.
Qed.
Lemma buffer_source_inv r p z : region_valid w h b r -> buffer_source b w p r = Some z ->
  exists x y pos k, addresses b r x y pos /\ 0 <= k < b /\ p = pos + k.
Proof.
  intros (Hx0 & Hw0 & Hxw & Hy0 & Hh0 & Hyh & Hrl & _). unfold buffer_source.
  set (t := (p - buffer_offset r) / b).
  destruct (_ && _) eqn:E; [|done]. intros _.
  pose proof (Z.div_mod (p - buffer_offset r) b ltac:(lia)) as D1. fold t in D1.
  pose proof (Z.div_mod t (buffer_row_length r) ltac:(lia)) as D2.
  pose proof (Z.mod_pos_bound (p - buffer_offset r) b Hb). pose proof (Z.mod_pos_bound t (buffer_row_length r) ltac:(lia)).
  assert (0 <= t) by (apply Z.div_pos; lia). assert (0 <= t / buffer_row_length r) by (apply Z.div_pos; lia).
  exists (image_x r + t mod buffer_row_length r), (image_y r + t / buffer_row_length r), (buffer_offset r + t * b),
    ((p - buffer_offset r) mod b). split; [|lia].
  split; [lia|]. split; [lia|]. rewrite D2 at 1. f_equal. f_equal. lia.
Qed.
Lemma image_source_of r x y pos k : 0 <= x < w -> addresses b r x y pos -> 0 <= k < b ->
  image_source b w ((y * w + x) * b + k) r = Some (pos + k).
Proof.
  intros Hxw (Hx & Hy & ->) Hk. unfold image_source.
  destruct (digits (y * w + x) k b Hk) as [-> ->]. destruct (digits y x w Hxw) as [-> ->].
  by replace (_ && _) with true by lia.
Qed.
Lemma image_source_inv r p z : 0 < w -> image_source b w p r = Some z ->
  exists x y pos k, addresses b r x y pos /\ 0 <= k < b /\ 0 <= x < w /\ p = (y * w + x) * b + k.
Proof.
  intros Hw. unfold image_source. destruct (_ && _) eqn:E; [|done]. intros _.
  exists (p / b mod w), (p / b / w), (buffer_offset r + ((p / b / w - image_y r) * buffer_row_length r +
    (p / b mod w - image_x r)) * b), (p mod b).
  pose proof (Z.div_mod p b ltac:(lia)) as D1. pose proof (Z.div_mod (p / b) w ltac:(lia)) as D2.
  split; [unfold addresses; lia|]. split; [by apply Z.mod_pos_bound|]. split; [by apply Z.mod_pos_bound|].
  rewrite (Z.mul_comm (p / b / w)), <- D2. lia.
Qed.

Lemma texel_inside r x y pos k : region_valid w h b r -> addresses b r x y pos -> 0 <= k < b ->
  0 <= x < w /\ 0 <= y < h /\ 0 <= (y * w + x) * b + k < w * h * b.
Proof.
  intros (Hx0 & Hw0 & Hxw & Hy0 & Hh0 & Hyh & _) (Hx & Hy & _) Hk. split; [lia|]. split; [lia|].
  assert (0 <= y * w) by (apply Z.mul_nonneg_nonneg; lia).
  assert (0 <= (y * w + x) * b) by (apply Z.mul_nonneg_nonneg; lia).
  assert (y * w <= (h - 1) * w) by (apply Z.mul_le_mono_nonneg_r; lia).
  assert ((y * w + x) * b <= (h * w - 1) * b) by (apply Z.mul_le_mono_nonneg_r; lia). lia.
Qed.

Lemma soft_out n rs r x y pos k : regions_fit b w h n rs -> r ∈ rs -> addresses b r x y pos -> 0 <= k < b ->
  first_source (buffer_source b w (pos + k)) rs = Some ((y * w + x) * b + k).
Proof.
  intros (Hv & Hp & _) Hr Ha Hk. rewrite Forall_forall in Hv.
  assert (Hpv : ForallOrdPairs (fun r1 r2 => region_valid w h b r1 /\ apart b r1 r2) rs).
  { clear Hr. induction Hp as [|r0 rs' Hall Hp IH]; [constructor|]. constructor.
    - eapply Forall_impl; [exact Hall|]. intros r2 ?. split; [|done]. apply Hv, list_elem_of_here.
    - apply IH. intros r2 ?. by apply Hv, list_elem_of_further. }
  apply (first_source_is _ _ _ r _ Hpv Hr); [by apply buffer_source_of; [apply Hv|..]|].
  intros r' z' (Hv' & Hap) Hz'. destruct (buffer_source_inv _ _ _ Hv' Hz') as (x' & y' & pos' & k' & Ha' & Hk' & E).
  destruct (Hap _ _ _ _ _ _ Ha' Ha). lia.
Qed.
Lemma soft_in n rs r x y pos k : regions_fit b w h n rs -> r ∈ rs -> addresses b r x y pos -> 0 <= k < b ->
  first_source (image_source b w ((y * w + x) * b + k)) rs = Some (pos + k).
Proof.
  intros (Hv & Hp & _) Hr Ha Hk. rewrite Forall_forall in Hv.
  destruct (texel_inside r x y pos k (Hv r Hr) Ha Hk) as (Hx & _).
  apply (first_source_is _ _ _ r _ Hp Hr); [by apply image_source_of|].
  intros r' z' Hap Hz'. destruct (image_source_inv _ _ _ ltac:(lia) Hz') as (x' & y' & pos' & k' & Ha' & Hk' & Hx' & E).
  destruct (Hap _ _ _ _ _ _ Ha' Ha) as [Hne _].
  destruct (digits (y * w + x) k b Hk) as [D _]. destruct (digits (y' * w + x') k' b Hk') as [D' _].
  rewrite E, D' in D. destruct (digits y x w Hx) as [D1 D2]. destruct (digits y' x' w Hx') as [D1' D2'].
  rewrite D in D1', D2'. lia.
Qed.
End Soft.

#[export] Instance soft_laws : VkLaws soft.
Proof.
  constructor; intros b w h; cbn [cmd_copy_image_to_buffer cmd_copy_buffer_to_image soft].
  - intros. apply zlen_gather.
  - intros rs im buf r x y pos k Hb Him Hfit Hr Ha Hk. pose proof Hfit as (Hv & _ & Hbuf).
    rewrite Forall_forall in Hv. destruct (Hbuf _ _ _ _ Hr Ha).
    destruct (texel_inside b w h Hb _ _ _ _ _ (Hv r Hr) Ha Hk) as (_ & _ & Ht).
    apply gather_at; [lia|by eapply soft_out|lia].
  - intros. apply zlen_gather.
  - intros rs im buf r x y pos k Hb Him Hfit Hr Ha Hk. pose proof Hfit as (Hv & _ & Hbuf).
    rewrite Forall_forall in Hv. destruct (Hbuf _ _ _ _ Hr Ha).
    destruct (texel_inside b w h Hb _ _ _ _ _ (Hv r Hr) Ha Hk) as (_ & _ & Ht).
    apply gather_at; [lia|by eapply soft_in|lia].
  - intros rs im buf p Hb Him Hfit Hno. apply gather_none, first_source_none. intros r Hr.
    destruct (image_source b w (Z.of_nat p) r) eqn:E; [|done]. exfalso. destruct Hfit as (Hv & _).
    rewrite Forall_forall in Hv. destruct (Hv r Hr) as (?&?&?&_).
    destruct (image_source_inv b w h Hb _ _ _ ltac:(lia) E) as (x & y & pos & k & Ha & Hk & _ & Ep).
    apply (Hno r x y pos Hr Ha). lia.
Qed.
#[export] Instance soft_works : VkWorks soft.
Proof.
  constructor; try done. intros n ro Hn. exists (zeros n). split; [done|]. zlia.
Qed.

(** ** A fill carries the pixels across *)

(** C23: filling part of a DMABUF works end to end, for any compression: for a view without
    padding and a region of whole pixels, [run_fill_dmabuf_task] reads the region of the
    sender's image; [run_dmabuf_fill_task_2] puts it into the sender's mirror and makes a message;
    the receiver's [run_decomp_dmabuf] copies it onto its image at once, exactly to this region;
    and the task that it leaves gives the receiver's mirror the same bytes. *)
Theorem dmabuf_fill_replicates {V : VkLib} {VL : VkLaws V} {VW : VkWorks V} {L : CompLib} {Laws : CompLibLaws L}
    img info view rid comp s e (I J MS MR : bytes) lay lay' seq fs cache rcache q rq :
  get_vulkan_info (vk_format img) = Ok info -> copy_view img info view (width img * bpp info) ->
  let n := width img * height img * bpp info in
  n + width img * bpp info < 2 ^ 32 -> zlen I = n -> zlen J = n -> e <= zlen MS -> e <= zlen MR ->
  0 <= s < e -> e <= n -> e - s <= 2 ^ 21 -> s mod bpp info = 0 -> e mod bpp info = 0 ->
  iN 32 rid -> compression_wf comp -> 0 <= q -> q + 1 < 2 ^ 64 -> 0 <= rq -> rq + 1 < 2 ^ 64 ->
  let x := slice I s e in
  exists task2 c1 m c2 apply rc,
    run_fill_dmabuf_task (MkFill rid comp s e view) img (MkImage I lay) cache q
      = Ok (task2, MkImage I GENERAL, c1, q + 1) /\
    run_dmabuf_fill_task_2 task2 (Some (idle MS)) c1 = Ok (OutMsg m, Some (idle (splice MS s x)), c2) /\
    run_decomp_dmabuf m (Some seq) comp fs view true img (MkImage J lay') rcache rq
      = Ok (ReturnDmabuf (rq + 1) rid (Some apply), MkImage (splice J s x) GENERAL, rc, rq + 1) /\
    run_apply_mirror apply false (idle MR) = Ok (MirrorApply, idle (splice MR s x)).
Proof.
  intros Hinfo Hview n Hroom HI HJ HMS HMR Hs He Hes Hsm Hem Hrid Hcomp Hq Hq2 Hrq Hrq2 x.
  assert (Hx : zlen x = e - s) by (unfold x; rewrite zlen_slice; lia).
  destruct (fill_read img info view Hinfo Hview Hroom rid comp s e I lay cache q) as (c1 & E1 & _); try done.
  set (r := VulkanResult (MkVkBuffer x 0 false)).
  assert (Er : read_result r = Ok x) by (unfold r, read_result, prepare_read; by rewrite (proj1 memory_works)).
  destruct (fill_message img info view Hinfo Hview Hroom rid comp s e (q + 1) r x MS c1 Er Hx Hs HMS Hes Hcomp)
    as (c & c2 & E2 & Hc).
  destruct (fill_receive img info view Hinfo Hview Hroom rid comp s e x J c lay' seq fs rcache rq) as (rc & E3); try done.
  eexists _, c1, _, c2, _, rc. split; [exact E1|]. split; [exact E2|]. split; [exact E3|].
  by apply (fill_mirror img info view Hinfo Hview Hroom).
Qed.

(** Two rows of a 2 by 3 image of four-byte pixels, uncompressed. *)
Lemma dmabuf_fill_replicates_witness :
  let img := MkVkBuf 2 3 B8G8R8A8_UNORM in
  exists task2 c1 m c2 apply rc,
    run_fill_dmabuf_task (MkFill 5 CompNone 8 24 None) img (MkImage (replicate 24 Byte.x41) UNDEFINED)
        (MkDC (MkTC [] (MkCache false false false)) false [] []) 0 = Ok (task2, MkImage (replicate 24 Byte.x41) GENERAL, c1, 1) /\
    run_dmabuf_fill_task_2 (H := stored) task2 (Some (idle (zeros 24))) c1
      = Ok (OutMsg m, Some (idle (zeros 8 ++ replicate 16 Byte.x41)), c2) /\
    run_decomp_dmabuf (H := stored) m (Some 9) CompNone 24 None true img (MkImage (zeros 24) GENERAL)
        (MkDC (MkTC [] (MkCache false false false)) true [] []) 3
      = Ok (ReturnDmabuf 4 5 (Some apply), MkImage (zeros 8 ++ replicate 16 Byte.x41) GENERAL, rc, 4) /\
    run_apply_mirror apply false (idle (zeros 24)) = Ok (MirrorApply, idle (zeros 8 ++ replicate 16 Byte.x41)).
Proof.
  apply (dmabuf_fill_replicates (L := stored) (MkVkBuf 2 3 B8G8R8A8_UNORM) (MkInfo 4 1) None 5 CompNone 8 24
    (replicate 24 Byte.x41) (zeros 24) (zeros 24) (zeros 24) UNDEFINED GENERAL 9 24
    (MkDC (MkTC [] (MkCache false false false)) false [] []) (MkDC (MkTC [] (MkCache false false false)) true [] []) 0 3);
    vm_compute; intuition congruence.
Defined.
