(* ===== verification/DmabufDiff.v ===== *)
(** * Diffs of a DMABUF

    End to end for the tasks [run_diff_dmabuf_task] and [run_diff_dmabuf_task_2]: their message
    turns the receiver's image into the sender's at every byte the task covers, whether the
    receiver copies the segments of the diff onto its image or goes through its mirror. *)
From Stdlib Require Import ZArith Lia.
From S2P Require Import Prelude Util Formats Kernel KernelCorrect Avx2 Mirror Compress Tasks TasksCorrect Replicate TrackState Dmabuf DmabufCorrect DmabufTasks DmabufReplicate.
Local Open Scope Z_scope.
Import Util.Wmsg Util.Arith Util.Options.

(** ** Segments in order *)

(** Segments one after the other, from byte [lo] up to byte [hi]. *)
Fixpoint chain (lo : Z) (segs : list seg) (hi : Z) : Prop :=
  match segs with
  | [] => lo <= hi
  | s :: segs => lo <= 4 * s.1 /\ 0 < zlen s.2 /\ chain (4 * s.1 + zlen s.2) segs hi
  end.

Lemma chain_weaken segs : forall lo lo' hi hi', chain lo segs hi -> lo' <= lo -> hi <= hi' -> chain lo' segs hi'.
Proof.
  induction segs as [|s segs IH]; cbn; intros lo lo' hi hi' H ? ?; [lia|].
  destruct H as (?&?&H). split_and!; [lia|lia|]. eapply IH; [exact H|lia..].
Qed.
Lemma chain_app s1 : forall lo mid s2 hi, chain lo s1 mid -> chain mid s2 hi -> chain lo (s1 ++ s2) hi.
Proof.
  induction s1 as [|s s1 IH]; cbn; intros lo mid s2 hi H1 H2; [eapply chain_weaken; [exact H2|lia..]|].
  destruct H1 as (?&?&H1). split_and!; eauto.
Qed.
Lemma chain_inside segs : forall lo hi, chain lo segs hi -> Forall (inside lo hi) segs /\ lo <= hi.
Proof.
  induction segs as [|s segs IH]; cbn; intros lo hi H; [by split; [constructor|]|].
  destruct H as (?&?&H). destruct (IH _ _ H) as [Hf Hl]. split; [|lia]. constructor; [unfold inside; lia|].
  eapply Forall_impl; [exact Hf|]. intros x [? ?]. unfold inside. lia.
Qed.
Lemma patch_chain p old segs new : patch p old segs new -> chain (4 * p) segs (4 * p + zlen old).
Proof.
  induction 1 as [p|p x old segs new Hx Hp IH|p r d old segs new Hr Hd Hpos Hp IH]; cbn.
  - change (zlen []) with 0. lia.
  - eapply chain_weaken; [exact IH|pose proof (zlen_nonneg x)|]; rewrite ?zlen_app; Z.div_mod_to_equations; lia.
  - split_and!; [lia|done|]. eapply chain_weaken; [exact IH|..]; rewrite ?zlen_app; Z.div_mod_to_equations; lia.
Qed.

(** ** Comparing *)

(** What the first task reads: the intervals, one after the other. *)
Definition gathered (I : bytes) (ivs : list (Z * Z)) : bytes := concat ((fun i => slice I i.1 i.2) <$> ivs).

Lemma diff_one_interval {C : Cpu} (I X T pre rest ref : bytes) base i :
  interval_ok (zlen I) base (zlen ref) i -> 0 <= base -> base + zlen ref < 2 ^ 32 ->
  8 + (i.2 - i.1) <= zlen rest -> zlen (pre ++ rest) < 2 ^ 32 - 1 ->
  exists segs junk,
    diff_interval base (X ++ slice I i.1 i.2 ++ T) (zlen X, zlen pre, pre, rest, ref) i
      = Ok (zlen (X ++ slice I i.1 i.2), zlen (pre ++ encode_segs segs), pre ++ encode_segs segs, junk,
            refresh I base ref i) /\
    zlen (encode_segs segs ++ junk) = zlen rest /\ zlen (encode_segs segs) <= 8 + (i.2 - i.1) /\
    patch (i.1 / 4) (slice ref (i.1 - base) (i.2 - base)) segs (slice I i.1 i.2).
Proof.
  intros (H1&H2&H3&H4&H5&H6&H7) Hb Href Hsp Hlen. zlen_pos. pose proof (zlen_nonneg T). pose proof (zlen_nonneg X).
  assert (Lt : zlen (slice I i.1 i.2) = i.2 - i.1) by (rewrite zlen_slice; lia).
  assert (Lr : zlen (slice ref (i.1 - base) (i.2 - base)) = i.2 - i.1) by (rewrite zlen_slice; lia).
  rewrite zlen_app in Hlen.
  destruct (diff_two_ok rest (slice I i.1 i.2) (slice ref (i.1 - base) (i.2 - base)) i.1 32)
    as (segs & junk & E & El & Eb & Hp); [lia|Z.div_mod_to_equations; lia..|].
  exists segs, junk. unfold diff_interval.
  rewrite (chk_in 32 (i.2 - i.1)) by (unfold uN; lia). cbn [mbind res_bind].
  rewrite (chk_in 32 (i.1 - base)) by (unfold uN; lia). cbn [mbind res_bind].
  rewrite (chk_in 32 (i.2 - base)) by (unfold uN; lia). cbn [mbind res_bind].
  rewrite (get_range_ok ref) by lia. cbn [mbind res_bind].
  rewrite get_range_ok by (rewrite ?zlen_app; lia). cbn [mbind res_bind]. rewrite slice_app_mid by lia.
  rewrite E. cbn [mbind res_bind]. rewrite set_range_ok by lia. cbn [mbind res_bind].
  rewrite zlen_app in El. rewrite get_from_ok by zlia. cbn [mbind res_bind]. rewrite drop_zlen_app.
  rewrite chk_in by (unfold uN; zlia). cbn [mbind res_bind].
  rewrite take_zlen_app, !zlen_app, Lt.
  split; [done|]. split_and!; [lia|lia|done].
Qed.

Lemma diff_intervals_ok {C : Cpu} (I T : bytes) base ivs : forall (X pre rest ref : bytes) lo,
  Forall (interval_ok (zlen I) base (zlen ref)) ivs -> ascending lo ivs -> 0 <= base -> base + zlen ref < 2 ^ 32 ->
  lo <= base + zlen ref -> interval_space ivs <= zlen rest -> zlen (pre ++ rest) < 2 ^ 32 - 1 ->
  exists segs junk,
    foldM (diff_interval base (X ++ gathered I ivs ++ T)) (zlen X, zlen pre, pre, rest, ref) ivs
      = Ok (zlen (X ++ gathered I ivs), zlen (pre ++ encode_segs segs), pre ++ encode_segs segs, junk,
            foldl (refresh I base) ref ivs) /\
    zlen (encode_segs segs ++ junk) = zlen rest /\ zlen (encode_segs segs) <= interval_space ivs /\
    Forall (seg_fits base (zlen ref)) segs /\ apply_segs base ref segs = foldl (refresh I base) ref ivs /\
    chain lo segs (base + zlen ref).
Proof.
  induction ivs as [|i ivs IH]; intros X pre rest ref lo Hf Hasc Hb Href Hlo Hsp Hlen;
    cbn [foldM foldl interval_space foldr] in *.
  - exists [], rest. cbn. by rewrite !app_nil_r.
  - apply Forall_cons_1 in Hf as [Hi Hf]. pose proof Hi as (H1&H2&H3&H4&H5&H6&H7). destruct Hasc as (Hlo1&_&Hasc).
    fold (interval_space ivs) in *.
    assert (0 <= interval_space ivs).
    { clear -Hf. induction Hf as [|j l (?&?&?&?&?) _ IH]; cbn; [done|]. fold (interval_space l). lia. }
    change (gathered I (i :: ivs)) with (slice I i.1 i.2 ++ gathered I ivs). rewrite <- (app_assoc (slice I i.1 i.2)).
    destruct (diff_one_interval I X (gathered I ivs ++ T) pre rest ref base i) as (s1 & j1 & -> & L1 & B1 & P1);
      [done|done|done|lia|done|]. cbn [mbind res_bind].
    destruct (IH (X ++ slice I i.1 i.2) (pre ++ encode_segs s1) j1 (refresh I base ref i) i.2)
      as (s2&j2&E2&L2&B2&F2&A2&C2);
      [by rewrite refresh_len|done|done|by rewrite refresh_len|rewrite refresh_len by done; lia|zlia|zlia|].
    rewrite <- !app_assoc in E2. rewrite E2.
    exists (s1 ++ s2), j2. rewrite encode_segs_app, <- !app_assoc.
    rewrite refresh_len in F2, C2 by done.
    assert (F1 : Forall (seg_fits base (zlen ref)) s1).
    { eapply patch_fits; [done|rewrite ?zlen_slice; Z.div_mod_to_equations; lia..]. }
    split_and!; try done; [zlia|zlia|by apply Forall_app| |].
    + unfold apply_segs in *. rewrite foldl_app, <- A2. f_equal.
      rewrite (slice_decomp ref (i.1 - base) (i.2 - base)) at 1 by lia.
      etransitivity; [eapply patch_apply; [done|rewrite zlen_slice; Z.div_mod_to_equations; lia]|].
      unfold refresh. rewrite splice_slices by (rewrite ?zlen_slice; lia).
      do 3 f_equal. rewrite zlen_slice; lia.
    + eapply chain_app; [|exact C2]. eapply chain_weaken; [exact (patch_chain _ _ _ _ P1)|..];
        rewrite ?zlen_slice by lia; Z.div_mod_to_equations; lia.
Qed.

(** ** The tasks of the sender *)

(** The segments of the first task: the intervals one after the other in the buffer, from [o] on. *)
Fixpoint laid (o : Z) (ivs : list (Z * Z)) : list (Z * Z * Z) :=
  match ivs with
  | [] => []
  | i :: ivs => (o, i.1, i.2) :: laid (o + (i.2 - i.1)) ivs
  end.
(** The intervals of a task on [n] bytes, the trailing bytes among them. *)
Definition all_intervals (n : Z) (t : DiffTask) : list (Z * Z) :=
  d_intervals t ++ (if 0 <? d_trailing t then [(n - d_trailing t, n)] else []).

Lemma laid_app l1 l2 : forall o, laid o (l1 ++ l2) = laid o l1 ++ laid (o + total l1) l2.
Proof.
  induction l1 as [|i l1 IH]; intros o; cbn [laid app total foldr]; [by rewrite Z.add_0_r|].
  fold (total l1). rewrite IH. do 3 f_equal. lia.
Qed.
Lemma total_nonneg l lo : ascending lo l -> 0 <= total l.
Proof.
  revert lo; induction l as [|i l IH]; intros lo; [done|]. intros (?&?&H). cbn [total foldr]. fold (total l).
  specialize (IH _ H). lia.
Qed.
Lemma gathered_app I l1 l2 : gathered I (l1 ++ l2) = gathered I l1 ++ gathered I l2.
Proof. unfold gathered. by rewrite fmap_app, concat_app. Qed.
Lemma gathered_len I l : forall lo, ascending lo l -> 0 <= lo -> Forall (fun i => i.2 <= zlen I) l ->
  zlen (gathered I l) = total l.
Proof.
  induction l as [|i l IH]; intros lo; [done|]. intros (?&?&H) ? Hf. apply Forall_cons in Hf as [? Hf].
  change (gathered I (i :: l)) with (slice I i.1 i.2 ++ gathered I l). cbn [total foldr]. fold (total l).
  rewrite zlen_app, zlen_slice, (IH i.2) by (done || lia). lia.
Qed.
Lemma ascending_snoc l x y : forall lo, ascending lo l -> Forall (fun i => i.2 <= x) l -> lo <= x -> x < y ->
  ascending lo (l ++ [(x, y)]).
Proof.
  induction l as [|i l IH]; intros lo; cbn [app ascending]; [cbn; lia|]. intros (?&?&H) Hf ? ?.
  apply Forall_cons in Hf as [? Hf]. split_and!; [done|done|]. by apply IH.
Qed.

Lemma push_segments_ok ivs : forall acc o lo,
  ascending lo ivs -> 0 <= lo -> Forall (fun i => i.2 < 2 ^ 32) ivs -> 0 <= o -> o + total ivs < 2 ^ 32 ->
  foldM push_segment (acc, o) ivs = Ok (acc ++ laid o ivs, o + total ivs).
Proof.
  induction ivs as [|i ivs IH]; intros acc o lo Ha Hlo Hf Ho Hn; cbn [foldM laid total foldr] in *.
  { by rewrite app_nil_r, Z.add_0_r. }
  fold (total ivs) in *. destruct Ha as (?&?&Ha). apply Forall_cons in Hf as [? Hf].
  pose proof (total_nonneg _ _ Ha).
  assert (push_segment (acc, o) i = Ok (acc ++ [(o, i.1, i.2)], o + (i.2 - i.1))) as ->.
  { unfold push_segment. rewrite (chk_in 32 (i.2 - i.1)) by (unfold uN; lia). cbn [mbind res_bind].
    by rewrite chk_in by (unfold uN; lia). }
  cbn [mbind res_bind].
  rewrite (IH _ _ i.2) by (done || lia). rewrite <- app_assoc. do 2 f_equal. lia.
Qed.

Lemma laid_content (I : bytes) ivs : forall o lo (d : bytes),
  (forall s p, s ∈ laid o ivs -> s.1.2 <= p < s.2 -> d !! Z.to_nat (s.1.1 + (p - s.1.2)) = I !! Z.to_nat p) ->
  ascending lo ivs -> 0 <= lo -> Forall (fun i => i.2 <= zlen I) ivs -> 0 <= o -> zlen d = o + total ivs ->
  drop (Z.to_nat o) d = gathered I ivs.
Proof.
  induction ivs as [|i ivs IH]; intros o lo d Hd Ha Hlo Hf Ho Hl; cbn [laid total foldr] in *.
  { rewrite drop_ge by (unfold zlen in Hl; lia). done. }
  fold (total ivs) in *. destruct Ha as (?&?&Ha). apply Forall_cons in Hf as [? Hf].
  pose proof (total_nonneg _ _ Ha). change (gathered I (i :: ivs)) with (slice I i.1 i.2 ++ gathered I ivs).
  rewrite <- (IH (o + (i.2 - i.1)) i.2 d); [|intros; apply Hd; [by apply list_elem_of_further|done]|done|lia|done|lia|lia].
  assert (E : slice I i.1 i.2 = slice d o (o + (i.2 - i.1))).
  { apply list_eq_z; rewrite ?zlen_slice by lia; [lia|]. intros p Hp. rewrite !lookup_slice by lia.
    specialize (Hd (o, i.1, i.2) (i.1 + p) (list_elem_of_here _ _)). cbn [fst snd] in Hd.
    rewrite Z2Nat.id by lia. rewrite <- Hd by lia. f_equal. lia. }
  rewrite E. unfold slice. rewrite Z2Nat.inj_add by lia. rewrite <- (drop_drop d).
  replace (Z.to_nat (o + (i.2 - i.1) - o)) with (Z.to_nat (i.2 - i.1)) by lia. by rewrite take_drop.
Qed.

Section Task.
Context {C : Cpu} {V : VkLib} `{VL : !VkLaws V} `{VW : !VkWorks V}.
Context {L : CompLib} `{Laws : !CompLibLaws L}.
Context (img : VulkanDmabuf) (info : FormatLayoutInfo) (view : option Z).
Context (Hinfo : get_vulkan_info (vk_format img) = Ok info).
Context (Hview : copy_view img info view (width img * bpp info)).
Let b := bpp info.
Let w := width img.
Let h := height img.
Let n := w * h * b.
Context (Hroom : n + w * b < 2 ^ 32) (Hb8 : 8 mod b = 0) (Hh : 0 < h).
#[local] Set Default Proof Using "All".

Lemma b_pos : 0 < b /\ 0 < w /\ 0 < w * b /\ 0 < n.
Proof.
  destruct Hview as (?&?&_). unfold n, b, w. split_and!; [lia|lia|apply Z.mul_pos_pos; lia|].
  apply Z.mul_pos_pos; [apply Z.mul_pos_pos|]; lia.
Qed.
Lemma mod_b_8 x : x mod 8 = 0 -> x mod b = 0.
Proof.
  intros H. pose proof b_pos as (Hb & _). apply Z.mod_divide in H, Hb8; try lia. apply Z.mod_divide; [lia|].
  by transitivity 8.
Qed.
Lemma mod_b_64 x : x mod 64 = 0 -> x mod b = 0.
Proof. intros H. apply mod_b_8. Z.div_mod_to_equations. lia. Qed.
Lemma mod_b_n : n mod b = 0.
Proof. pose proof b_pos as (Hb & _). unfold n. apply Z.mod_mul. lia. Qed.
Lemma mod_b_add x y : x mod b = 0 -> y mod b = 0 -> (x + y) mod b = 0.
Proof. pose proof b_pos as (Hb & _). intros Hx Hy. rewrite Z.add_mod, Hx, Hy by lia. apply Z.mod_0_l. lia. Qed.
Lemma mod_b_sub x y : x mod b = 0 -> y mod b = 0 -> (x - y) mod b = 0.
Proof. pose proof b_pos as (Hb & _). intros Hx Hy. rewrite Zminus_mod, Hx, Hy. apply Z.mod_0_l. lia. Qed.

(** Intervals of whole pixels inside the image can be read at once. *)
Lemma laid_fit ivs : forall o lo,
  ascending lo ivs -> 0 <= o <= lo -> o mod b = 0 ->
  Forall (fun i => i.2 <= n /\ i.1 mod b = 0 /\ i.2 mod b = 0) ivs ->
  segments_fit img info (o + total ivs) (laid o ivs) /\ Forall (fun s => lo <= s.1.2 /\ o <= s.1.1) (laid o ivs).
Proof.
  induction ivs as [|i ivs IH]; intros o lo Ha Ho Hm Hf; cbn [laid].
  { split; [|constructor]. split_and!; constructor. }
  destruct Ha as (?&?&Ha). apply Forall_cons in Hf as [(?&?&?) Hf]. pose proof (total_nonneg _ _ Ha).
  destruct (IH (o + (i.2 - i.1)) i.2) as ((F1 & F2 & F3 & F4) & F5); [done|lia| |done|].
  { apply mod_b_add; [done|]. by apply mod_b_sub. }
  assert (Eh : h * (w * b) = n) by (unfold n; ring).
  cbn [total foldr]. fold (total ivs). replace (o + (i.2 - i.1 + total ivs)) with (o + (i.2 - i.1) + total ivs) by lia.
  split; [split_and!|].
  - constructor; [|done]. unfold segment_ok. fold b h w. cbn [fst snd]. rewrite Eh. split_and!; try done; lia.
  - constructor; done.
  - constructor; [|done]. eapply Forall_impl; [exact F5|]. intros s [? ?]. unfold segments_apart. cbn [fst snd]. lia.
  - constructor; [cbn [fst snd]; lia|]. eapply Forall_impl; [exact F4|]. cbn. lia.
  - constructor; [cbn [fst snd]; lia|]. eapply Forall_impl; [exact F5|]. intros s [? ?]. cbn. lia.
Qed.

Context (t : DiffTask) (Ht : task_ok n t) (Hasc : ascending 0 (d_intervals t)).

Lemma trailing_range : 0 <= d_trailing t < 64 /\ d_trailing t <= n /\ (n - d_trailing t) mod b = 0.
Proof.
  pose proof (task_trailing_ok _ _ Ht) as H. split; [done|].
  pose proof b_pos as (?&?&_&?).
  destruct Ht as [[->|[? E]] _ _].
  - rewrite Z.sub_0_r. split; [lia|apply mod_b_n].
  - pose proof (Z.mod_le n 64). split; [lia|]. apply mod_b_64. rewrite E. Z.div_mod_to_equations. lia.
Qed.

Lemma intervals_inside : Forall (fun i => i.2 <= n - d_trailing t /\ i.1 mod 64 = 0 /\ i.2 mod 64 = 0) (d_intervals t).
Proof.
  destruct Ht as [_ Hr _]. destruct (d_region t) as [[x y]|]; [|destruct Hr as [-> _]; constructor].
  destruct Hr as (?&?&?&?&Hiv). eapply Forall_impl; [exact Hiv|]. intros i (?&?&?&?&?&?&?). lia.
Qed.
Lemma all_intervals_ok : ascending 0 (all_intervals n t) /\
  Forall (fun i => i.2 <= n /\ i.1 mod b = 0 /\ i.2 mod b = 0) (all_intervals n t) /\
  total (all_intervals n t) = total (d_intervals t) + d_trailing t /\ 0 <= total (d_intervals t) <= 2 ^ 20.
Proof.
  pose proof trailing_range as (?&?&?). pose proof intervals_inside as Hin. unfold all_intervals.
  assert (Hs : 0 <= total (d_intervals t) <= 2 ^ 20).
  { split; [by eapply total_nonneg|]. etransitivity; [|apply (tok_space _ _ Ht)].
    generalize (d_intervals t). intros l. induction l as [|i l IH]; [done|].
    cbn [total foldr interval_space]. fold (total l) (interval_space l). lia. }
  assert (Hf : Forall (fun i => i.2 <= n /\ i.1 mod b = 0 /\ i.2 mod b = 0) (d_intervals t)).
  { eapply Forall_impl; [exact Hin|]. intros i (?&?&?). split_and!; [lia|by apply mod_b_64..]. }
  rewrite total_app. destruct (Z.ltb_spec 0 (d_trailing t)); cbn [total foldr fst snd].
  - split_and!; [|apply Forall_app; split; [done|]|lia..].
    + apply ascending_snoc; [done| |lia|lia]. eapply Forall_impl; [exact Hin|]. intros i (?&_). lia.
    + constructor; [|constructor]. cbn [fst snd]. split_and!; [lia|done|apply mod_b_n].
  - rewrite app_nil_r. split_and!; [done|done|lia..].
Qed.

Context (I : bytes) (HI : zlen I = n) (Hne : 0 < total (d_intervals t) + d_trailing t).
Let T : bytes := slice I (n - d_trailing t) n.

Lemma all_gathered : gathered I (all_intervals n t) = gathered I (d_intervals t) ++ T.
Proof.
  unfold all_intervals. rewrite gathered_app. f_equal. unfold T.
  destruct (Z.ltb_spec 0 (d_trailing t)); [cbn; by rewrite app_nil_r|]. cbn. symmetry. apply slice_nil. lia.
Qed.

(** The first task reads the intervals and the trailing bytes. *)
Lemma diff_read lay cache q : 0 <= q -> q + 1 < 2 ^ 64 ->
  exists cache', run_diff_dmabuf_task t view img (MkImage I lay) cache q =
    Ok (MkDiff2 t (q + 1) n (VulkanResult (MkVkBuffer (gathered I (d_intervals t) ++ T) 0 false)),
        MkImage I GENERAL, cache', q + 1).
Proof.
  intros Hq Hq2. pose proof all_intervals_ok as (Ha & Hf & Hn & Hs). pose proof trailing_range as (Htr & Htn & _).
  pose proof b_pos as (Hb & Hw & Hwb). pose proof intervals_inside as Hin. unfold run_diff_dmabuf_task.
  rewrite (push_segments_ok _ [] 0 0); [|done|lia| |lia|lia].
  2: { eapply Forall_impl; [exact Hin|]. intros i (?&_). lia. }
  cbn [mbind res_bind app].
  assert (vulkan_nominal_size img view = Ok n) as ->.
  { destruct Hview as (?&?&?&?&E&?&?&?). unfold vulkan_nominal_size. rewrite Hinfo. cbn [mbind res_bind].
    fold b w h. fold b w in E. assert (w * h <= n) by (unfold n; apply Z.le_mul_diag_r; nia).
    destruct view as [r|]; cbn in E; [subst r|rewrite (chk_in 64 (w * h)) by (unfold uN; nia); cbn [mbind res_bind]; fold n];
      rewrite chk_in by (unfold uN, n in *; lia); [f_equal; unfold n; ring|done]. }
  cbn [mbind res_bind]. unfold wrap. rewrite Z.mod_small by lia.
  assert (EQ : (if 0 <? d_trailing t then
                  s ← u32 (n - d_trailing t); Ok (laid 0 (d_intervals t) ++ [(total (d_intervals t), s, n)])
                else Ok (laid 0 (d_intervals t))) = Ok (laid 0 (all_intervals n t))).
  { unfold all_intervals. rewrite laid_app. destruct (Z.ltb_spec 0 (d_trailing t)); [|by rewrite app_nil_r].
    rewrite chk_in by (unfold uN; lia). done. }
  rewrite !Z.add_0_l, EQ. cbn [mbind res_bind]. clear EQ.
  destruct (pool_ok cache) as (c' & -> & _). cbn [mbind res_bind].
  rewrite chk_in by (unfold uN; lia). cbn [mbind res_bind]. unfold vulkan_get_buffer.
  destruct (buffer_works (total (d_intervals t) + d_trailing t) true Hne) as (m & -> & Hm). cbn [mbind res_bind].
  pose proof b_pos as Hbp. destruct (laid_fit (all_intervals n t) 0 0) as [Hfit _]; [done|lia|apply Z.mod_0_l; lia|done|].
  destruct (copy_from_ok img info view Hinfo Hview (laid 0 (all_intervals n t)) I lay (MkVkBuffer m 0 false) q)
    as (d & -> & Hd & Hat); [by cbn [data]; rewrite Hm, <- Hn|done..|].
  cbn [mbind res_bind reader_count has_writer data] in *.
  assert (d = gathered I (d_intervals t) ++ T) as ->; [|by eexists].
  rewrite <- all_gathered, <- (drop_0 d). apply (laid_content I (all_intervals n t) 0 0 d); try done; [|lia].
  rewrite HI. eapply Forall_impl; [exact Hf|]. by intros i (?&_).
Qed.

(** Comparing what was read with the mirror. *)
Context (M : bytes) (HM : zlen M = n).
Let data : bytes := gathered I (d_intervals t) ++ T.

Lemma n_small : n < 2 ^ 32.
Proof. pose proof b_pos. lia. Qed.
Lemma read_len : zlen (gathered I (d_intervals t)) = total (d_intervals t).
Proof.
  apply (gathered_len _ _ 0); [done|lia|]. eapply Forall_impl; [exact intervals_inside|].
  pose proof trailing_range. intros i (?&_). lia.
Qed.
Lemma T_len : zlen T = d_trailing t.
Proof. pose proof trailing_range as (?&?&_). unfold T. rewrite zlen_slice; lia. Qed.

Lemma diff_dmabuf_region_ok dst : interval_space (d_intervals t) <= zlen dst -> zlen dst < 2 ^ 32 - 1 ->
  exists segs junk,
    diff_dmabuf_region t data dst (idle M) =
      Ok (zlen (encode_segs segs), encode_segs segs, junk, idle (apply_segs 0 M segs)) /\
    zlen (encode_segs segs ++ junk) = zlen dst /\ zlen (encode_segs segs) <= interval_space (d_intervals t) /\
    Forall (seg_fits 0 (n - d_trailing t)) segs /\ chain 0 segs (n - d_trailing t) /\
    forall k : nat, apply_segs 0 M segs !! k = if in_intervals (d_intervals t) (Z.of_nat k) then I !! k else M !! k.
Proof.
  intros Hsp Hd. pose proof trailing_range as (Htr & Htn & _). pose proof n_small. pose proof T_len as HT.
  destruct Ht as [_ Hr [Hs0 _]]. unfold diff_dmabuf_region. destruct (d_region t) as [[a e]|].
  2: { destruct Hr as [E _]. exists [], dst. rewrite E in *. split; [done|]. split_and!; [done|done|constructor| |done].
       cbn. lia. }
  destruct Hr as (Ha64&Hb64&Hab&Hbt&Hiv). set (old := slice M a e).
  assert (Hold : zlen old = e - a) by (unfold old; rewrite zlen_slice; lia).
  destruct (diff_intervals_ok I T a (d_intervals t) [] [] dst old 0) as (segs&junk&E&El&Eb&Hfit&Happ&Hch);
    [by rewrite HI, Hold|done|lia|lia|lia|done|done|]. cbn [app] in E. change (zlen []) with 0 in E. rewrite Hold in Hfit, Hch.
  rewrite !assert_true by lia. cbn [mbind res_bind]. exists segs, junk.
  destruct (refreshed_region n I M a e (d_intervals t) segs) as (Hnew & Emb & Hk); try done; [lia|].
  rewrite (with_range_ok M (apply_segs a old segs) a e _ _ (zlen (encode_segs segs), encode_segs segs, junk));
    [|lia|lia| |done].
  2: { fold old. unfold data. rewrite E, <- Happ. cbn [mbind res_bind]. rewrite zlen_app, assert_true by lia. done. }
  fold old in Emb. rewrite Emb. split_and!; try done.
  - eapply Forall_impl; [exact Hfit|]. intros s (?&?&?&?&?&?). unfold seg_fits. lia.
  - eapply chain_weaken; [exact Hch|lia..].
Qed.

Lemma diff_dmabuf_trailing_ok (M1 junk : bytes) : zlen M1 = n -> d_trailing t <= zlen junk ->
  exists tail junk',
    diff_dmabuf_trailing t n data junk (idle M1)
      = Ok (zlen tail, tail ++ junk', idle (splice M1 (n - zlen tail) tail)) /\
    zlen (tail ++ junk') = zlen junk /\ (tail = [] \/ 0 < zlen tail /\ zlen tail = d_trailing t) /\
    forall k : nat, splice M1 (n - zlen tail) tail !! k
      = if n - d_trailing t <=? Z.of_nat k then I !! k else M1 !! k.
Proof.
  intros H1 Hj. pose proof trailing_range as (Htr & Htn & _). pose proof n_small as Hn32. pose proof T_len as HT.
  pose proof (tail_lookup n I M t HI HM Hn32 Ht M1) as Hlook. fold T in Hlook.
  unfold diff_dmabuf_trailing. destruct (Z.ltb_spec 0 (d_trailing t)) as [Hp|Hp].
  2: { exists [], junk. rewrite splice_nil. split_and!; [done|done|by left|].
       intros k. replace (d_trailing t) with 0 by lia. case_match; [|done].
       unfold zlen in *. by rewrite !lookup_ge_None_2 by lia. }
  rewrite (chk_in 64 (n - d_trailing t)) by (unfold uN; lia). cbn [mbind res_bind].
  set (R := slice M1 (n - d_trailing t) n).
  assert (HR : zlen R = d_trailing t) by (unfold R; rewrite zlen_slice; lia).
  set (rest := drop (Z.to_nat (d_trailing t)) junk).
  pose proof (zlen_nonneg (gathered I (d_intervals t))).
  assert (Hs : zlen data - d_trailing t = zlen (gathered I (d_intervals t))) by (unfold data; rewrite zlen_app; lia).
  assert (Hsmall : zlen (gathered I (d_intervals t)) < 2 ^ 64)
    by (rewrite read_len; pose proof all_intervals_ok; lia).
  rewrite (with_range_ok M1 T _ _ _ _
    (if bool_decide (T = R) then (0, junk) else (d_trailing t, T ++ rest))); [|lia|lia| |lia].
  2: { fold R. rewrite Hs. rewrite chk_in by (unfold uN; lia). cbn [mbind res_bind].
       rewrite get_from_ok by (unfold data; rewrite zlen_app; lia). cbn [mbind res_bind].
       unfold data. rewrite drop_zlen_app. rewrite assert_true by lia. cbn [mbind res_bind].
       case_bool_decide as EB; [by rewrite EB|]. rewrite set_range_ok by lia. cbn [mbind res_bind].
       do 3 f_equal. unfold splice. change (Z.to_nat 0) with 0%nat. rewrite take_0. cbn [app]. unfold rest.
       do 2 f_equal. unfold zlen in HT. lia. }
  case_bool_decide as EB.
  - exists [], junk.
    assert (ES : splice M1 (n - d_trailing t) T = M1) by (rewrite EB; apply splice_slice_id; lia).
    rewrite splice_nil, ES. split_and!; [done|done|by left|].
    intros k. rewrite <- ES at 1. apply Hlook; lia.
  - exists T, rest. rewrite HT. split_and!; [done| |right; lia|].
    + unfold rest. rewrite zlen_app, zlen_drop; lia.
    + intros k. apply Hlook; lia.
Qed.

(** What a diff of the image says: segments in order, and the trailing bytes or none of them. *)
Definition in_order (segs : list seg) (tail : bytes) : Prop :=
  chain 0 segs (n - zlen tail) /\ (tail = [] \/ 0 < zlen tail /\ zlen tail = n mod 64).
Let space : Z := interval_space (d_intervals t) + d_trailing t.
Let new_mirror (segs : list seg) (tail : bytes) : bytes := splice (apply_segs 0 M segs) (n - zlen tail) tail.

Lemma diff_dmabuf_inner_ok r pt dst : read_result r = Ok data -> space <= zlen dst -> zlen dst < 2 ^ 32 - 1 ->
  exists segs tail junk,
    diff_dmabuf_inner (MkDiff2 t pt n r) dst (idle M) =
      Ok (zlen (encode_segs segs), zlen tail, (encode_segs segs ++ tail) ++ junk, idle (new_mirror segs tail)) /\
    zlen ((encode_segs segs ++ tail) ++ junk) = zlen dst /\ zlen (encode_segs segs ++ tail) <= space /\
    Forall (seg_fits 0 (n - zlen tail)) segs /\ zlen tail <= n /\ in_order segs tail /\
    forall k : nat, new_mirror segs tail !! k = if task_covers n t (Z.of_nat k) then I !! k else M !! k.
Proof.
  intros Hr Hsp Hd. pose proof trailing_range as (Htr & Htn & _). unfold space in *.
  destruct (diff_dmabuf_region_ok dst) as (segs&j1&E1&L1&B1&Hf&Hc&Hk1); [lia|done|].
  assert (HM1 : zlen (apply_segs 0 M segs) = n).
  { rewrite apply_segs_len; [done|]. eapply Forall_impl; [exact Hf|].
    intros s (?&?&?&?&?&?). unfold seg_fits. lia. }
  rewrite zlen_app in L1.
  destruct (diff_dmabuf_trailing_ok _ j1 HM1) as (tail&j2&E2&L2&Ht2&Hk2); [lia|].
  exists segs, tail, j2. unfold diff_dmabuf_inner. cbn [d2_read_buf d2_task d2_nominal_size].
  rewrite Hr. cbn [mbind res_bind]. rewrite E1. cbn [mbind res_bind]. rewrite E2. cbn [mbind res_bind].
  assert (zlen tail <= d_trailing t) by (destruct Ht2 as [->|[_ ->]]; [change (zlen []) with 0|]; lia).
  rewrite zlen_app in L2. rewrite <- app_assoc, !zlen_app.
  split_and!; [done|lia|lia| |lia| |].
  - eapply Forall_impl; [exact Hf|]. intros s (?&?&?&?&?&?). unfold seg_fits. lia.
  - split; [eapply chain_weaken; [exact Hc|lia..]|]. destruct Ht2 as [->|[? E]]; [by left|right].
    split; [done|]. rewrite E. destruct Ht as [[?|[_ ?]] _ _]; lia.
  - intros k. unfold new_mirror. rewrite Hk2, Hk1. unfold task_covers.
    destruct (in_intervals (d_intervals t) (Z.of_nat k)), (n - d_trailing t <=? Z.of_nat k); done.
Qed.

Context (Hcomp : compression_wf (d_compression t)).

Lemma plain_dmabuf_ok r pt : read_result r = Ok data -> d_compression t = CompNone ->
  exists segs tail out,
    plain_dmabuf_msg (MkDiff2 t pt n r) (idle M) space = Ok (out, idle (new_mirror segs tail)) /\
    sent n I M t segs tail out /\ in_order segs tail.
Proof.
  intros Hr EC. pose proof (tok_space _ _ Ht) as Hs. pose proof (task_trailing_ok _ _ Ht) as Htr.
  assert (Hsp : 0 <= space < 2 ^ 21) by (unfold space; lia). unfold plain_dmabuf_msg.
  destruct (align4_bounds space) as [-> Hn]; [lia..|]. cbn [mbind res_bind].
  rewrite get_range_ok by zlia. cbn [mbind res_bind].
  set (dst := slice _ _ _). assert (Hdst : zlen dst = space) by (unfold dst; rewrite zlen_slice; zlia).
  destruct (diff_dmabuf_inner_ok r pt dst) as (segs&tail&junk&E&El&Eb&Hf&Htl&Ho&Hk); [done|lia|lia|].
  rewrite E. cbn [mbind res_bind]. rewrite Hdst in El.
  destruct (plain_frame (d_rid t) space (zlen (encode_segs segs)) (zlen tail) _ _ El) as (buf & EB & EF); [lia|].
  rewrite EB. cbn [mbind res_bind d2_task]. exists segs, tail.
  assert (Hl : zlen (encode_segs segs ++ tail) < 2 ^ 21) by lia.
  destruct (_ && _) eqn:E0.
  - exists []. split; [done|]. split; [|done]. split; try done. left. split; [|done]. by apply nothing_sent in E0.
  - assert (Hne' : encode_segs segs ++ tail <> []) by (rewrite <- nothing_sent; congruence).
    pose proof (zlen_nonneg (encode_segs segs)). pose proof (zlen_nonneg tail).
    rewrite chk_in by (unfold uN; rewrite zlen_app in Hl; lia). cbn [mbind res_bind]. rewrite <- zlen_app, EF.
    eexists. split; [done|]. split; [|done]. split; try done. right. split; [done|]. eexists. split; [|done].
    rewrite EC. split; [pose proof (Z.div_pos (zlen (encode_segs segs ++ tail)) (2 ^ 7)); zlia|].
    cbn [decomp_into_vec decomp_into_slice]. rewrite assert_true by lia. cbn. eauto.
Qed.

Lemma compressed_dmabuf_ok r pt cache : read_result r = Ok data ->
  exists segs tail out cache',
    compressed_dmabuf_msg (MkDiff2 t pt n r) (idle M) cache space = Ok (out, idle (new_mirror segs tail), cache') /\
    sent n I M t segs tail out /\ in_order segs tail.
Proof.
  intros Hr. pose proof (tok_space _ _ Ht) as Hs. pose proof (task_trailing_ok _ _ Ht) as Htr.
  assert (Hsp : 0 <= space < 2 ^ 21) by (unfold space; lia). unfold compressed_dmabuf_msg.
  set (lg := large (dc_cache cache) ++ zeros (space - zlen (large (dc_cache cache)))).
  assert (Hlg : space <= zlen lg).
  { unfold lg. destruct (Z.le_gt_cases space (zlen (large (dc_cache cache)))); zlia. }
  clearbody lg. rewrite get_range_ok by lia. cbn [mbind res_bind].
  set (dst := slice _ _ _). assert (Hdst : zlen dst = space) by (unfold dst; rewrite zlen_slice; lia).
  destruct (diff_dmabuf_inner_ok r pt dst) as (segs&tail&junk&E&El&Eb&Hf&Htl&Ho&Hk); [done|lia|lia|].
  rewrite E. cbn [mbind res_bind]. rewrite Hdst in El.
  destruct (scratch_frame lg (encode_segs segs ++ tail) junk) as (lg' & EL & EG); [lia|].
  rewrite El in EL. rewrite EL. cbn [mbind res_bind d2_task].
  assert (Hl : zlen (encode_segs segs ++ tail) < 2 ^ 21) by lia.
  exists segs, tail. destruct (_ && _) eqn:E0.
  - eexists [], _. split; [done|]. split; [|done]. split; try done. left. split; [|done]. by apply nothing_sent in E0.
  - assert (Hne' : encode_segs segs ++ tail <> []) by (rewrite <- nothing_sent; congruence).
    pose proof (zlen_nonneg (encode_segs segs)). pose proof (zlen_nonneg tail).
    rewrite chk_in by (unfold uN; rewrite zlen_app in Hl; lia). cbn [mbind res_bind]. rewrite <- zlen_app, EG.
    cbn [mbind res_bind].
    destruct (compressed_frame (d_compression t) (comp (dc_cache cache)) (d_rid t) (zlen (encode_segs segs)) (zlen tail)
      (encode_segs segs ++ tail)) as (c&nxt&cc&->&EU&EF&Hc); [done..|]. cbn [mbind res_bind].
    rewrite EU. cbn [mbind res_bind]. rewrite EF. cbn [mbind res_bind].
    eexists _, _. split; [done|]. split; [|done]. split; try done. right. split; [done|]. eauto.
Qed.

Lemma diff_send r pt cache : read_result r = Ok data ->
  exists segs tail out cache',
    run_diff_dmabuf_task_2 (MkDiff2 t pt n r) (idle M) cache = Ok (OutMsg out, idle (new_mirror segs tail), cache') /\
    sent n I M t segs tail out /\ in_order segs tail.
Proof.
  intros Hr. pose proof (tok_space _ _ Ht) as Hs. pose proof (task_trailing_ok _ _ Ht) as Htr.
  unfold run_diff_dmabuf_task_2, diff_space. cbn [d2_task].
  rewrite diff_space_ok by (try (eapply task_intervals_ok; [apply n_small|done]); lia).
  cbn [mbind res_bind]. rewrite Z.add_0_l. rewrite chk_in by (unfold uN; lia). cbn [mbind res_bind].
  fold space. pose proof (plain_dmabuf_ok r pt Hr) as HP. pose proof (compressed_dmabuf_ok r pt cache Hr) as HC.
  destruct (d_compression t) as [|lvl|lvl].
  - destruct (HP eq_refl) as (segs&tail&out&->&H). exists segs, tail, out, cache. done.
  - destruct HC as (segs&tail&out&c'&->&H). by exists segs, tail, out, c'.
  - destruct HC as (segs&tail&out&c'&->&H). by exists segs, tail, out, c'.
Qed.
End Task.

(** ** Receiving *)

(** Where the segments of an encoded diff are, from byte [o] on. *)
Fixpoint places (o : Z) (segs : list seg) : list (Z * Z * Z) :=
  match segs with
  | [] => []
  | s :: segs => (o + 8, 4 * s.1, 4 * s.1 + zlen s.2) :: places (o + 8 + zlen s.2) segs
  end.
(** Some segment does not cover whole pixels of [b] bytes. *)
Definition uneven (b : Z) (segs : list seg) : bool :=
  existsb (fun s : seg => negb ((4 * s.1) mod b =? 0) || negb ((4 * s.1 + zlen s.2) mod b =? 0)) segs.

Lemma lookup_mid (pre x post : bytes) k : 0 <= k < zlen x ->
  (pre ++ x ++ post) !! Z.to_nat (zlen pre + k) = x !! Z.to_nat k.
Proof.
  intros Hk. rewrite lookup_app_r by (unfold zlen in *; lia). rewrite lookup_app_l by (unfold zlen in *; lia).
  f_equal. unfold zlen in *. lia.
Qed.

Lemma diff_segments_ok b n segs : 0 < b -> forall (D X : bytes) fuel acc mis,
  Forall (seg_fits 0 n) segs -> n < 2 ^ 32 -> zlen (D ++ encode_segs segs ++ X) < 2 ^ 32 ->
  (length segs < fuel)%nat ->
  diff_segments fuel (D ++ encode_segs segs ++ X) (zlen D + zlen (encode_segs segs)) b (zlen D) acc mis
  = Ok (acc ++ places (zlen D) segs, mis || uneven b segs).
Proof.
  intros Hb. induction segs as [|s segs IH]; intros D X fuel acc mis Hf Hn Hl Hfuel; (destruct fuel as [|fuel]; [cbn in Hfuel; lia|]);
    cbn [diff_segments places uneven existsb].
  - change (encode_segs []) with (@nil byte). change (zlen []) with 0.
    replace (_ <=? _) with false by lia. rewrite assert_true by lia. cbn. by rewrite app_nil_r, orb_false_r.
  - apply Forall_cons in Hf as [(?&?&H4&?&?&?) Hf]. fold (uneven b segs). zlen_pos.
    rewrite encode_segs_cons, !zlen_app, encode_seg_len in Hl. rewrite encode_segs_cons, zlen_app, encode_seg_len.
    pose proof (zlen_nonneg (encode_segs segs)). pose proof (zlen_nonneg D). pose proof (zlen_nonneg X).
    assert (Ed : zlen s.2 / 4 * 4 = zlen s.2) by (Z.div_mod_to_equations; lia).
    replace (_ <=? _) with true by lia. unfold encode_seg. rewrite <- !app_assoc.
    rewrite (read_u32_at D _ _ (zlen D)); [|done|unfold uN; lia]. cbn [mbind res_bind].
    rewrite (app_assoc D), read_u32_at; [|rewrite zlen_app, zlen_to_le4; lia|unfold uN; lia]. cbn [mbind res_bind].
    rewrite (chk_in 32 (4 * s.1)) by (unfold uN; lia). cbn [mbind res_bind].
    unfold umod. replace (b =? 0) with false by lia. cbn [mbind res_bind].
    rewrite (chk_in 32 (4 * (s.1 + zlen s.2 / 4))) by (unfold uN; lia).
    replace (4 * (s.1 + zlen s.2 / 4)) with (4 * s.1 + zlen s.2) by lia. cbn [mbind res_bind].
    rewrite (chk_in 32 (s.1 + zlen s.2 / 4 - s.1)) by (unfold uN; lia).
    assert (Em : (if (4 * s.1) mod b =? 0 then Ok (negb ((4 * s.1 + zlen s.2) mod b =? 0)) else Ok true)
      = Ok (negb ((4 * s.1) mod b =? 0) || negb ((4 * s.1 + zlen s.2) mod b =? 0))).
    { by destruct ((4 * s.1) mod b =? 0). }
    rewrite Em. cbn [mbind res_bind].
    replace (zlen D + 8 + (s.1 + zlen s.2 / 4 - s.1) * 4) with (zlen D + 8 + zlen s.2) by lia.
    specialize (IH (((D ++ to_le 4 s.1) ++ to_le 4 (s.1 + zlen s.2 / 4)) ++ s.2) X fuel
      (acc ++ [(zlen D + 8, 4 * s.1, 4 * s.1 + zlen s.2)])
      (mis || (negb ((4 * s.1) mod b =? 0) || negb ((4 * s.1 + zlen s.2) mod b =? 0)))).
    rewrite !zlen_app, !zlen_to_le4, <- !app_assoc in IH. rewrite <- !app_assoc.
    replace (zlen D + 4 + 4 + zlen s.2) with (zlen D + 8 + zlen s.2) in IH by lia.
    unfold wrap. rewrite Z.mod_small by lia.
    replace (zlen D + (8 + zlen s.2 + zlen (encode_segs segs))) with (zlen D + 8 + zlen s.2 + zlen (encode_segs segs)) by lia.
    rewrite IH; [|done|done|zlia|cbn in Hfuel; lia]. by rewrite <- orb_assoc.
Qed.

(** What the segments do, byte by byte. *)
Lemma apply_segs_places segs : forall (J D X : bytes) lo,
  Forall (seg_fits 0 (zlen J)) segs -> chain lo segs (zlen J) -> 0 <= lo ->
  (forall s p, s ∈ places (zlen D) segs -> s.1.2 <= p < s.2 ->
     apply_segs 0 J segs !! Z.to_nat p = (D ++ encode_segs segs ++ X) !! Z.to_nat (s.1.1 + (p - s.1.2))) /\
  (forall p, 0 <= p -> (forall s, s ∈ places (zlen D) segs -> ~ s.1.2 <= p < s.2) ->
     apply_segs 0 J segs !! Z.to_nat p = J !! Z.to_nat p) /\
  Forall (fun s => lo <= s.1.2) (places (zlen D) segs).
Proof.
  induction segs as [|s0 segs IH]; intros J D X lo Hf Hc Hlo; cbn [places].
  { split_and!; [by intros ?? ?%not_elem_of_nil|done|constructor]. }
  apply Forall_cons in Hf as [Hs0 Hf]. pose proof Hs0 as (?&?&H4&?&?&?). destruct Hc as (?&?&Hc).
  set (J1 := apply_seg 0 J s0).
  assert (HJ1 : zlen J1 = zlen J) by (unfold J1; by rewrite apply_seg_len).
  change (apply_segs 0 J (s0 :: segs)) with (apply_segs 0 J1 segs).
  destruct (IH J1 ((D ++ to_le 4 s0.1 ++ to_le 4 (s0.1 + zlen s0.2 / 4)) ++ s0.2) X (4 * s0.1 + zlen s0.2))
    as (I1 & I2 & I3); [by rewrite HJ1|by rewrite HJ1|lia|].
  rewrite !zlen_app, !zlen_to_le4 in I1, I2, I3.
  replace (zlen D + (4 + 4) + zlen s0.2) with (zlen D + 8 + zlen s0.2) in * by lia.
  assert (Eenc : ((D ++ to_le 4 s0.1 ++ to_le 4 (s0.1 + zlen s0.2 / 4)) ++ s0.2) ++ encode_segs segs ++ X
    = D ++ encode_segs (s0 :: segs) ++ X).
  { rewrite encode_segs_cons. unfold encode_seg. by rewrite <- !app_assoc. }
  rewrite Eenc in I1.
  assert (HJ : forall p, 0 <= p -> J1 !! Z.to_nat p = if (4 * s0.1 <=? p) && (p <? 4 * s0.1 + zlen s0.2)
    then s0.2 !! Z.to_nat (p - 4 * s0.1) else J !! Z.to_nat p).
  { intros p Hp. unfold J1, apply_seg. rewrite lookup_splice by lia. rewrite Z2Nat.id, !Z.sub_0_r by done. done. }
  split_and!.
  - intros s p [->|Hs]%elem_of_cons Hp; [|by apply I1]. cbn [fst snd] in *.
    rewrite I2; [|lia|]. 2: { intros s Hs. rewrite Forall_forall in I3. specialize (I3 s Hs). cbn in I3. lia. }
    rewrite HJ by lia. replace (_ && _) with true by lia. rewrite <- Eenc.
    pose proof (zlen_nonneg D).
    rewrite <- (app_assoc _ s0.2). set (pre := D ++ _).
    replace (zlen D + 8 + (p - 4 * s0.1)) with (zlen pre + (p - 4 * s0.1)) by (unfold pre; zlia).
    by rewrite lookup_mid by lia.
  - intros p Hp Hno. rewrite I2; [|done|intros; apply Hno; by apply list_elem_of_further].
    rewrite HJ by done. specialize (Hno _ (list_elem_of_here _ _)). cbn [fst snd] in Hno.
    replace (_ && _) with false by lia. done.
  - constructor; [cbn [fst snd]; lia|]. eapply Forall_impl; [exact I3|]. cbn. lia.
Qed.

Section Receive.
Context {C : Cpu} {V : VkLib} `{VL : !VkLaws V} `{VW : !VkWorks V}.
Context {L : CompLib} `{Laws : !CompLibLaws L}.
Context (img : VulkanDmabuf) (info : FormatLayoutInfo) (view : option Z).
Context (Hinfo : get_vulkan_info (vk_format img) = Ok info).
Context (Hview : copy_view img info view (width img * bpp info)).
Let b := bpp info.
Let w := width img.
Let h := height img.
Let n := w * h * b.
Context (Hroom : n + w * b < 2 ^ 32) (Hb8 : 8 mod b = 0) (Hh : 0 < h).
Context (segs : list seg) (tail : bytes).
Context (Hfits : Forall (seg_fits 0 (n - zlen tail)) segs) (Hord : in_order img info segs tail).
Let x : bytes := encode_segs segs ++ tail.
Context (Hx : zlen x < 2 ^ 21) (Hne : x <> []).
#[local] Set Default Proof Using "All".

Let Hbp : 0 < b /\ 0 < w /\ 0 < w * b /\ 0 < n := b_pos img info view Hinfo Hview Hroom Hb8 Hh.

Lemma row_small : w * b <= n.
Proof. transitivity (1 * (w * b)); [lia|]. replace n with (h * (w * b)) by (unfold n; ring). apply Z.mul_le_mono_nonneg_r; lia. Qed.

Lemma places_fit hi l : forall o lo,
  chain lo l hi -> 0 <= lo -> hi <= n -> 0 <= o -> o mod b = 0 -> uneven b l = false ->
  o + zlen (encode_segs l) <= zlen x ->
  segments_fit img info (zlen x) (places o l) /\ (o + zlen (encode_segs l)) mod b = 0 /\
  Forall (fun s => lo <= s.1.2 /\ s.2 <= hi /\ o <= s.1.1 /\ s.1.1 + (s.2 - s.1.2) <= o + zlen (encode_segs l)) (places o l).
Proof.
  induction l as [|s l IH]; intros o lo Hc Hlo Hhi Ho Hm Hu Hl; cbn [places].
  { change (encode_segs []) with (@nil byte) in *. change (zlen []) with 0 in *. rewrite Z.add_0_r in *.
    split; [split_and!; constructor|]. split; [done|constructor]. }
  destruct Hc as (?&?&Hc). cbn [uneven existsb] in Hu. fold (uneven b l) in Hu.
  apply orb_false_iff in Hu as [[Hs He]%orb_false_iff Hu]. apply negb_false_iff, Z.eqb_eq in Hs, He.
  rewrite encode_segs_cons, zlen_app, encode_seg_len in Hl |- *. pose proof (zlen_nonneg (encode_segs l)).
  assert (Hz : zlen s.2 mod b = 0).
  { replace (zlen s.2) with (4 * s.1 + zlen s.2 - 4 * s.1) by lia. by apply (mod_b_sub img info view). }
  assert (Ho8 : (o + 8) mod b = 0) by (by apply (mod_b_add img info view)).
  destruct (IH (o + 8 + zlen s.2) (4 * s.1 + zlen s.2)) as ((F1&F2&F3&F4)&F5&F6); [done|lia|done|lia| |done|lia|].
  { by apply (mod_b_add img info view). }
  assert (Eh : h * (w * b) = n) by (unfold n; ring).
  destruct (chain_inside _ _ _ Hc) as [_ Hle].
  pose proof row_small.
  replace (o + (8 + zlen s.2 + zlen (encode_segs l))) with (o + 8 + zlen s.2 + zlen (encode_segs l)) by lia.
  split_and!; [|done|].
  - split_and!.
    + constructor; [|done]. unfold segment_ok. fold b h w. cbn [fst snd]. rewrite Eh. split_and!; try done; lia.
    + constructor; done.
    + constructor; [|done]. eapply Forall_impl; [exact F6|]. intros s' (?&?&?&?). unfold segments_apart. cbn [fst snd]. lia.
    + constructor; [cbn [fst snd]; lia|done].
  - constructor; [cbn [fst snd]; lia|]. eapply Forall_impl; [exact F6|]. cbn. lia.
Qed.

(** All segments of the message. *)
Let segments : list (Z * Z * Z) :=
  places 0 segs ++ (if 0 <? zlen tail then [(zlen (encode_segs segs), n - zlen tail, n)] else []).

Lemma tail_range : 0 <= zlen tail <= n /\ (n - zlen tail) mod b = 0.
Proof.
  destruct Hord as (_ & [->|[? E]]).
  - change (zlen []) with 0. rewrite Z.sub_0_r. split; [lia|by apply (mod_b_n img info view)].
  - fold b w h n in E. pose proof (Z.mod_le n 64). split; [lia|]. apply (mod_b_64 img info view); try done.
    rewrite E. Z.div_mod_to_equations. lia.
Qed.

Lemma segments_fit_all : uneven b segs = false -> segments_fit img info (zlen x) segments.
Proof.
  intros Hu. pose proof tail_range as (Ht & Htm). unfold segments. pose proof (zlen_nonneg (encode_segs segs)).
  assert (Hxl : zlen x = zlen (encode_segs segs) + zlen tail) by (unfold x; by rewrite zlen_app).
  destruct Hord as (Hc & _). fold b w h n in Hc.
  destruct (places_fit (n - zlen tail) segs 0 0) as ((F1&F2&F3&F4)&F5&F6);
    [done|lia|lia|lia|apply Z.mod_0_l; lia|done|lia|].
  destruct (Z.ltb_spec 0 (zlen tail)); [|rewrite app_nil_r; by split_and!].
  assert (Eh : h * (w * b) = n) by (unfold n; ring).
  pose proof row_small.
  split_and!.
  - apply Forall_app. split; [done|]. constructor; [|constructor]. unfold segment_ok. fold b h w. cbn [fst snd]. rewrite Eh.
    split_and!; try done; try lia. by apply (mod_b_n img info view).
  - apply Forall_app. split; [done|]. constructor; [done|constructor].
  - apply ForallOrdPairs_app; [done|by repeat constructor|]. eapply Forall_impl; [exact F6|]. intros s (?&?&?&?).
    constructor; [|constructor]. unfold segments_apart. cbn [fst snd]. lia.
  - apply Forall_app. split; [done|]. constructor; [cbn [fst snd]; lia|constructor].
Qed.

(** Copying them has the effect of the diff. *)
Lemma copied_is_update (J J' : bytes) : zlen J = n -> zlen J' = n ->
  (forall s p, s ∈ segments -> s.1.2 <= p < s.2 -> J' !! Z.to_nat p = x !! Z.to_nat (s.1.1 + (p - s.1.2))) ->
  (forall p, 0 <= p -> (forall s, s ∈ segments -> ~ s.1.2 <= p < s.2) -> J' !! Z.to_nat p = J !! Z.to_nat p) ->
  J' = update segs tail J.
Proof.
  intros HJ HJ' Hin Hout. pose proof tail_range as (Ht & _). destruct Hord as (Hc & _). fold b w h n in Hc.
  assert (Hf : Forall (seg_fits 0 (zlen J)) segs).
  { eapply Forall_impl; [exact Hfits|]. intros s (?&?&?&?&?&?). unfold seg_fits. lia. }
  assert (Hc' : chain 0 segs (zlen J)) by (eapply chain_weaken; [exact Hc|lia..]).
  destruct (apply_segs_places segs J [] tail 0 Hf Hc' ltac:(lia)) as (A1 & A2 & _).
  cbn [app] in A1. change (zlen []) with 0 in A1, A2. fold x in A1.
  pose proof (apply_segs_len _ _ _ Hf) as Hl. unfold update.
  apply list_eq_z; [rewrite zlen_splice; lia|]. intros p Hp. rewrite lookup_splice by lia.
  rewrite HJ, Z2Nat.id by lia. destruct (_ && _) eqn:E.
  - rewrite (Hin (zlen (encode_segs segs), n - zlen tail, n) p); [|unfold segments|cbn [fst snd]; lia].
    2: { replace (0 <? zlen tail) with true by lia. apply elem_of_app. right. apply list_elem_of_here. }
    pose proof (lookup_mid (encode_segs segs) tail [] (p - (n - zlen tail)) ltac:(lia)) as E2.
    by rewrite app_nil_r in E2.
  - destruct (decide (Exists (fun s : Z * Z * Z => s.1.2 <= p < s.2) (places 0 segs))) as [Hs|Hs].
    + apply Exists_exists in Hs as (s & Hs & Hps). rewrite (A1 s p Hs Hps). apply Hin; [|done].
      apply elem_of_app. by left.
    + assert (Hno : forall s, s ∈ places 0 segs -> ~ s.1.2 <= p < s.2).
      { intros s Hs1 Hs2. apply Hs, Exists_exists. eauto. }
      rewrite A2 by (done || lia). apply Hout; [lia|]. intros s [Hs1|Hs1]%elem_of_app; [by apply Hno|].
      destruct (0 <? zlen tail); [|by apply not_elem_of_nil in Hs1]. apply list_elem_of_singleton in Hs1 as ->.
      cbn [fst snd]. lia.
Qed.

(** The region of a diff, widened to whole pixels. *)
Lemma widen a e : 0 <= a < e -> e <= n ->
  0 <= b * (a / b) <= a /\ e <= b * div_ceil e b <= n /\ align e b = Ok (b * div_ceil e b) /\
  (b * (a / b)) mod b = 0 /\ (b * div_ceil e b) mod b = 0.
Proof.
  intros Ha He. destruct Hbp as (Hb & _). pose proof (Z.mul_div_le a b ltac:(lia)).
  assert (0 <= a / b) by (apply Z.div_pos; lia). assert (0 <= b * (a / b)) by (apply Z.mul_nonneg_nonneg; lia).
  pose proof (div_ceil_mul_ge e b ltac:(lia)). pose proof (Z.mod_le 8 b ltac:(lia) ltac:(lia)).
  assert (b <= 8) by (apply Z.divide_pos_le; [lia|]; apply Z.mod_divide; [lia|done]).
  split_and!; try lia.
  - assert (div_ceil e b <= w * h); [|unfold n; rewrite (Z.mul_comm b); apply Z.mul_le_mono_nonneg_r; lia].
    unfold div_ceil. apply Z.lt_succ_r, Z.div_lt_upper_bound; [lia|]. unfold n in He. lia.
  - apply align_ok; lia.
  - rewrite Z.mul_comm. apply Z.mod_mul. lia.
  - rewrite Z.mul_comm. apply Z.mod_mul. lia.
Qed.

Context (comp : Compression) (rid seq q : Z) (c J : bytes) (lay : ImageLayout).
Context (Hc : encodes comp c x) (Hrid : iN 32 rid) (HJ : zlen J = n) (Hq : 0 <= q) (Hq2 : q + 1 < 2 ^ 64).

Definition diff_region_of (a e : Z) : Prop :=
  0 <= a < e /\ e <= n /\ (tail = [] \/ a <= n - zlen tail /\ e = n) /\ Forall (inside a e) segs.

(** Receiving the message of a diff. *)
Lemma diff_receive cache : exists a e cache', diff_region_of a e /\
  run_decomp_dmabuf (diff_msg rid (zlen (encode_segs segs)) (zlen tail) c) (Some seq) comp n view true img
      (MkImage J lay) cache q =
    Ok (if uneven b segs
        then (ReturnApply (MkDA seq rid x true (zlen tail) a e (b * (a / b)) (b * div_ceil e b)), MkImage J lay, cache', q)
        else (ReturnDmabuf (q + 1) rid (Some (MkApply seq rid x true (zlen tail) (TMirrorOnly false) a e)),
              MkImage (update segs tail J) GENERAL, cache', q + 1)).
Proof.
  pose proof (small_code _ _ _ Hc ltac:(lia)) as Hcl. pose proof tail_range as (Ht & Htm).
  pose proof (zlen_nonneg (encode_segs segs)). pose proof (zlen_nonneg c).
  assert (Hxl : zlen x = zlen (encode_segs segs) + zlen tail) by (unfold x; by rewrite zlen_app).
  destruct (compute_diff_span_encode segs tail n) as (a & e & Esp & Hae & He & Htl & Hins);
    [done|lia|done|unfold x in Hx; lia|]. fold x in Esp.
  assert (Hreg : diff_region_of a e) by done.
  exists a, e. destruct Hc as (_ & Hvec & Hslice).
  unfold run_decomp_dmabuf, decomp_dmabuf_diff, diff_msg.
  destruct (msg_fields ((16 + zlen c) * 32 + 6) rid (zlen (encode_segs segs)) (zlen tail) c
    (zeros (4 * div_ceil (16 + zlen c) 4 - (16 + zlen c)))) as (E1 & E2 & E3 & E4 & E5); [unfold uN; lia..|].
  rewrite E1. cbn [mbind res_bind]. rewrite (parse_build BufferDiff) by (unfold uN; lia).
  cbn [unwrap mbind res_bind]. rewrite E2. cbn [mbind res_bind]. rewrite from_to_le_i32 by done.
  rewrite decide_True by done. rewrite E3, E4. cbn [mbind res_bind].
  rewrite <- Hxl, (chk_in 32 (zlen x)) by (unfold uN; lia). cbn [mbind res_bind]. unfold vulkan_get_buffer.
  assert (0 < zlen x) by (pose proof (zlen_nonneg x); destruct (decide (zlen x = 0)) as [E0|]; [by apply zlen_zero_nil in E0|lia]).
  destruct (buffer_works (zlen x) true ltac:(lia)) as (m & -> & Hm). cbn [mbind res_bind].
  unfold get_write_view. cbn [reader_count DmabufTasks.data has_writer]. rewrite Z.eqb_refl. cbn [assert_ mbind res_bind].
  rewrite E5. cbn [mbind res_bind DmabufTasks.data]. rewrite Hm.
  destruct (Hslice (Tasks.comp (dc_cache cache))) as (cc & ->). cbn [mbind res_bind].
  unfold complete_write. rewrite (proj2 memory_works). cbn [mbind res_bind].
  unfold drop_write_view, get_read_view. cbn [reader_count has_writer negb assert_ mbind res_bind DmabufTasks.data].
  rewrite Esp. cbn [mbind res_bind]. unfold vulkan_get_bpp. rewrite Hinfo. cbn [mbind res_bind]. fold b.
  pose proof (encode_segs_len_ge _ _ _ Hfits) as Hge.
  pose proof (diff_segments_ok b (n - zlen tail) segs ltac:(lia) [] tail (S (length x)) [] false) as Eseg.
  cbn [app orb] in Eseg. change (zlen []) with 0 in Eseg. fold x in Eseg. rewrite Z.add_0_l in Eseg.
  rewrite Eseg; [|done|lia|lia|unfold zlen in *; lia]. cbn [mbind res_bind]. clear Eseg.
  assert (EQ : (if 0 <? zlen tail then s ← u32 (wrap 32 n - zlen tail);
      Ok (places 0 segs ++ [(zlen (encode_segs segs), s, wrap 32 n)]) else Ok (places 0 segs)) = Ok segments).
  { unfold segments, wrap. rewrite Z.mod_small by lia. destruct (0 <? zlen tail); [|by rewrite app_nil_r].
    by rewrite chk_in by (unfold uN; lia). }
  rewrite EQ. cbn [mbind res_bind]. clear EQ.
  destruct (uneven b segs) eqn:Eu; cbn [negb].
  - destruct (Hvec cc) as (cc' & ->). cbn [mbind res_bind fst snd].
    destruct (widen a e Hae He) as (_ & _ & -> & _). cbn [unwrap mbind res_bind].
    by eexists.
  - destruct (pool_ok (set_comp cache cc)) as (c' & -> & _). cbn [mbind res_bind].
    destruct (copy_onto_ok img info view Hinfo Hview segments J lay (MkVkBuffer x (0 + 1) false) q)
      as (J' & -> & HJ' & Hin & Hout); [by apply segments_fit_all|done..|].
    cbn [mbind res_bind unwrap fst snd DmabufTasks.data] in *. rewrite (copied_is_update J J') by done.
    by eexists.
Qed.

(** Applying a diff through the mirror. *)
Lemma splice_within (l v : bytes) a e rs re : 0 <= rs <= a -> a <= e <= re -> re <= zlen l -> zlen v = e - a ->
  splice l rs (splice (slice l rs re) (a - rs) v) = splice l a v.
Proof.
  intros H1 H2 H3 Hv. assert (Hl : zlen (slice l rs re) = re - rs) by (rewrite zlen_slice; lia).
  assert (Hl2 : zlen (splice (slice l rs re) (a - rs) v) = re - rs) by (rewrite zlen_splice; lia).
  apply list_eq. intros k. rewrite !lookup_splice by lia. rewrite Hl2.
  destruct ((rs <=? Z.of_nat k) && (Z.of_nat k <? rs + (re - rs))) eqn:E1;
    destruct ((a <=? Z.of_nat k) && (Z.of_nat k <? a + zlen v)) eqn:E2; try done; try lia.
  - rewrite !Z2Nat.id by lia. replace (_ && _) with true by lia. f_equal. lia.
  - rewrite !Z2Nat.id by lia. replace (_ && _) with false by lia. rewrite lookup_slice by lia. f_equal. lia.
Qed.

Lemma diff_apply a e cache : diff_region_of a e ->
  exists cache',
    run_apply_dmabuf (MkDA seq rid x true (zlen tail) a e (b * (a / b)) (b * div_ceil e b)) view (Some (idle J)) img
      (MkImage J lay) cache q =
    Ok (DmabufApplyOp (q + 1) rid, idle (update segs tail J), MkImage (update segs tail J) GENERAL, cache', q + 1).
Proof.
  intros (Hae & He & Htl & Hins). destruct (widen a e Hae He) as (Hrs & Hre & _ & Hm1 & Hm2).
  set (rs := b * (a / b)) in *. set (re := b * div_ceil e b) in *. pose proof tail_range as (Ht & _).
  destruct (region_parts J segs tail a e) as (pre&m&post&ER&L1&L2&Em&Hf1&Ht1&Hsp); try done; [lia|lia|by rewrite HJ|lia|by rewrite HJ|].
  set (m' := splice (apply_segs a m segs) (zlen m - zlen tail) tail).
  assert (Htm : zlen tail <= zlen m) by (destruct Ht1 as [->|[_ ?]]; [change (zlen []) with 0|]; lia).
  assert (Hm' : zlen m' = e - a).
  { unfold m'. rewrite <- L1. pose proof (apply_segs_len _ _ _ Hf1). rewrite zlen_splice; lia. }
  assert (EU : update segs tail J = splice J a m').
  { rewrite Hsp by done. rewrite ER at 1. unfold m'. rewrite <- L1 at 1. by apply update_region. }
  set (v := slice J rs re). assert (Hv : zlen v = re - rs) by (unfold v; rewrite zlen_slice; lia).
  assert (ES : splice J rs (splice v (a - rs) m') = update segs tail J).
  { rewrite EU. apply (splice_within J m' a e rs re); lia. }
  assert (Hv' : zlen (splice v (a - rs) m') = re - rs) by (rewrite zlen_splice; lia).
  unfold run_apply_dmabuf. cbn [da_region_start da_region_end orig_start orig_end da_is_diff_type da_remote_id].
  rewrite assert_true by lia. cbn [unwrap mbind res_bind]. destruct (pool_ok cache) as (c' & Ec & _).
  rewrite (with_range_ok J (splice v (a - rs) m') rs re _ _ (q + 1, MkImage (update segs tail J) GENERAL, q + 1, c'));
    [|lia|lia| |lia].
  { cbn [mbind res_bind]. rewrite ES. by eexists. }
  fold v. unfold apply_to_part. cbn [da_region_start orig_start orig_end da_data da_ntrailing].
  rewrite get_range_ok by lia. cbn [mbind res_bind].
  replace (slice v (a - rs) (e - rs)) with m by (rewrite Em; unfold v; rewrite slice_slice by lia; f_equal; lia).
  assert (Apply.apply_diff_one x (zlen tail) a m = Ok m') as ->.
  { unfold m'. rewrite <- L1. apply apply_diff_one_tail; [done|lia|lia|unfold x in Hx; lia|done]. }
  cbn [mbind res_bind].
  rewrite set_range_ok by lia. cbn [mbind res_bind]. unfold vulkan_get_buffer.
  destruct (buffer_works (re - rs) false ltac:(lia)) as (m0 & -> & Hm0). cbn [mbind res_bind].
  unfold get_write_view. cbn [reader_count DmabufTasks.data has_writer]. rewrite Z.eqb_refl. cbn [assert_ mbind res_bind DmabufTasks.data].
  rewrite set_range_ok by lia. cbn [mbind res_bind]. rewrite splice_whole by lia.
  unfold complete_write. rewrite (proj2 memory_works). cbn [mbind res_bind]. rewrite Ec. cbn [mbind res_bind].
  unfold drop_write_view, wrap. cbn [reader_count]. rewrite !Z.mod_small by lia.
  rewrite (copy_onto_one img info view) by (done || lia). cbn [mbind res_bind]. by rewrite ES.
Qed.
End Receive.

(** ** A diff carries the pixels across *)

(** C2: a diff of a DMABUF works end to end, for any compression and whichever routine the processor
    allows, if its pixels have one, two, four or eight bytes (those of three bytes may panic) and the rows
    that the two sides assume, each by its own view of the buffer, are not padded: for a task on
    intervals of whole 64 byte blocks in order, the tasks of the sender succeed; its mirror takes the
    pixels of the image exactly where the task covers them; no message means that nothing changed; and
    the message gives a receiver whose image and mirror equal the old mirror an image and a mirror equal
    to the new one, at once if the segments of the diff cover whole pixels, and by a task to apply
    otherwise. *)
Theorem dmabuf_diff_replicates {C : Cpu} {V : VkLib} {VL : VkLaws V} {VW : VkWorks V} {L : CompLib} {Laws : CompLibLaws L}
    img info view rview t (I M : bytes) lay lay' seq cache rcache q rq :
  get_vulkan_info (vk_format img) = Ok info ->
  copy_view img info view (width img * bpp info) -> copy_view img info rview (width img * bpp info) ->
  let n := width img * height img * bpp info in
  n + width img * bpp info < 2 ^ 32 -> 8 mod bpp info = 0 -> 0 < height img ->
  task_ok n t -> ascending 0 (d_intervals t) -> 0 < total (d_intervals t) + d_trailing t ->
  compression_wf (d_compression t) -> iN 32 (d_rid t) -> zlen I = n -> zlen M = n ->
  0 <= q -> q + 1 < 2 ^ 64 -> 0 <= rq -> rq + 1 < 2 ^ 64 ->
  exists task2 c1 m M' c2,
    run_diff_dmabuf_task t view img (MkImage I lay) cache q = Ok (task2, MkImage I GENERAL, c1, q + 1) /\
    run_diff_dmabuf_task_2 task2 (idle M) c1 = Ok (OutMsg m, idle M', c2) /\
    (forall k : nat, M' !! k = if task_covers n t (Z.of_nat k) then I !! k else M !! k) /\
    (m = [] -> M' = M) /\
    (m <> [] -> exists ret im rc rq',
       run_decomp_dmabuf m (Some seq) (d_compression t) n rview true img (MkImage M lay') rcache rq = Ok (ret, im, rc, rq') /\
       match ret with
       | ReturnDmabuf _ _ (Some apply) =>
           im = MkImage M' GENERAL /\ run_apply_mirror apply false (idle M) = Ok (MirrorApply, idle M')
       | ReturnDmabuf _ _ None => False
       | ReturnApply apply => exists rc',
           run_apply_dmabuf apply rview (Some (idle M)) img im rc rq' =
             Ok (DmabufApplyOp (rq + 1) (d_rid t), idle M', MkImage M' GENERAL, rc', rq + 1)
       end).
Proof.
  intros Hinfo Hview Hrview n Hroom Hb8 Hh Ht Hasc Hne Hcomp Hrid HI HM Hq Hq2 Hrq Hrq2.
  destruct (diff_read img info view Hinfo Hview Hroom Hb8 Hh t Ht Hasc I HI Hne lay cache q Hq Hq2) as (c1 & E1).
  set (r := VulkanResult _) in E1.
  destruct (diff_send img info view Hinfo Hview Hroom Hb8 Hh t Ht Hasc I HI Hne M HM Hcomp r (q + 1) c1)
    as (segs & tail & out & c2 & E2 & [Hf Htl Hl Hnew Hmsg] & Hord).
  { unfold r, read_result, prepare_read. by rewrite (proj1 memory_works). }
  eexists _, c1, out, (update segs tail M), c2. split; [exact E1|]. unfold update. rewrite HM. split; [exact E2|].
  split; [exact Hnew|]. fold n. destruct Hmsg as [[Ee ->]|(Hx & c & Hc & ->)].
  - split; [|done]. intros _. rewrite <- HM. by eapply update_nothing.
  - split; [unfold diff_msg, to_le; by cbn [le_split app]|]. intros _.
    destruct (diff_receive img info rview Hinfo Hrview Hroom Hb8 Hh segs tail Hf Hord Hl Hx (d_compression t) (d_rid t) seq rq c M
      lay' Hc Hrid HM Hrq Hrq2 rcache) as (a & e & rc & Hreg & Er).
    destruct (uneven (bpp info) segs).
    + eexists _, _, rc, _. split; [exact Er|]. rewrite <- HM.
      by apply (diff_apply img info rview Hinfo Hrview Hroom Hb8 Hh segs tail Hf Hord Hl Hx (d_compression t) _ _ _ c).
    + eexists _, _, rc, _. split; [exact Er|]. unfold update. rewrite HM. split; [done|].
      destruct Hreg as (?&?&?&?). rewrite (apply_mirror_diff_ok M segs tail a e); rewrite ?HM; try done.
      * unfold update. by rewrite HM.
      * by apply (n_small img info view Hinfo Hview Hroom Hb8 Hh t Ht Hasc I HI Hne M).
Qed.

(** A processor with the vector instructions. *)
Definition with_avx2 : Cpu := {| has_avx2 := true |}.
(** The first 64 byte block and the last 16 bytes of a 4 by 9 image of four-byte pixels. *)
Definition demo_dmabuf_task : DiffTask := MkDiff 7 (Some (0, 64)) [(0, 64)] 16 (Zstd 1).

Lemma demo_dmabuf_task_ok : task_ok 144 demo_dmabuf_task.
Proof. split; [right; done|cbn; repeat constructor; vm_compute; congruence|cbn; lia]. Qed.

Lemma dmabuf_diff_replicates_witness :
  let img := MkVkBuf 4 9 B8G8R8A8_UNORM in
  let new := replicate 144 Byte.x41 in
  exists task2 c1 m M' c2,
    run_diff_dmabuf_task demo_dmabuf_task None img (MkImage new UNDEFINED)
      (MkDC (MkTC [] (MkCache false false false)) false [] []) 0 = Ok (task2, MkImage new GENERAL, c1, 1) /\
    run_diff_dmabuf_task_2 (H := stored) (H1 := with_avx2) task2 (idle (zeros 144)) c1 = Ok (OutMsg m, idle M', c2) /\
    (forall k : nat, M' !! k = if task_covers 144 demo_dmabuf_task (Z.of_nat k) then new !! k else zeros 144 !! k).
Proof.
  destruct (dmabuf_diff_replicates (C := with_avx2) (L := stored) (MkVkBuf 4 9 B8G8R8A8_UNORM) (MkInfo 4 1) None (Some 16) demo_dmabuf_task
    (replicate 144 Byte.x41) (zeros 144) UNDEFINED GENERAL 9 (MkDC (MkTC [] (MkCache false false false)) false [] [])
    (MkDC (MkTC [] (MkCache false false false)) true [] []) 0 3) as (task2 & c1 & m & M' & c2 & E1 & E2 & Hk & _);
    [done|vm_compute; intuition congruence|vm_compute; intuition congruence|done|done|done|exact demo_dmabuf_task_ok|by cbn; lia|done|
     unfold compression_wf, iN; cbn; lia|unfold iN; cbn; lia|done|done|lia|lia|lia|lia|].
  by exists task2, c1, m, M', c2.
Defined.

(** ** Pixels of three bytes *)

(** C40: damage is cut at multiples of 64 bytes, which are rarely the bounds of pixels of three bytes:
    for a DMABUF of such a format, a diff task on an interval whose ends are not both multiples of
    192 never gets to a message. [make_copy_regions] panics, although [SUPPORTED_FORMAT_LIST]
    includes the format. *)
Theorem three_byte_damage_panics {V : VkLib} {VW : VkWorks V} img im t s e cache q :
  vk_format img = R8G8B8_UNORM \/ vk_format img = B8G8R8_UNORM ->
  0 < width img -> 0 <= height img -> width img * height img * 3 < 2 ^ 32 -> width img * 3 < 2 ^ 32 ->
  d_intervals t = [(s, e)] -> d_trailing t = 0 -> s mod 64 = 0 -> e mod 64 = 0 -> 0 <= s < e -> e < 2 ^ 32 ->
  ~ (s mod 192 = 0 /\ e mod 192 = 0) ->
  vk_format img ∈ SUPPORTED_FORMAT_LIST /\ run_diff_dmabuf_task t None img im cache q = Panic.
Proof.
  intros Hfmt Hw Hh Hn Hrow Hiv Htr Hs64 He64 Hse He Hmis.
  assert (Hinfo : get_vulkan_info (vk_format img) = Ok (MkInfo 3 1)) by (destruct Hfmt as [-> | ->]; done).
  split; [destruct Hfmt as [-> | ->]; by vm_compute; repeat (apply list_elem_of_here || apply list_elem_of_further)|].
  unfold run_diff_dmabuf_task. rewrite Hiv, (push_segments_ok [(s, e)] [] 0 0); cycle 1.
  { cbn. lia. } { lia. } { by constructor. } { lia. } { cbn. lia. }
  cbn [mbind res_bind laid app total foldr fst snd]. unfold vulkan_nominal_size. rewrite Hinfo. cbn [mbind res_bind bpp].
  assert (0 <= width img * height img) by (apply Z.mul_nonneg_nonneg; lia).
  rewrite (chk_in 64 (width img * height img)) by (unfold uN; lia). cbn [mbind res_bind].
  rewrite chk_in by (unfold uN; lia). cbn [mbind res_bind]. rewrite Htr. cbn [Z.ltb Z.compare mbind res_bind].
  destruct (pool_ok cache) as (c' & -> & _). cbn [mbind res_bind].
  rewrite chk_in by (unfold uN; lia). cbn [mbind res_bind]. unfold vulkan_get_buffer.
  destruct (buffer_works (0 + (e - s + 0) + 0) true ltac:(lia)) as (m & -> & _). cbn [mbind res_bind].
  destruct record_works as (E1 & E2 & _). unfold start_copy_segments_from_dmabuf. rewrite Hinfo, E1, E2.
  cbn [mbind res_bind]. unfold make_copy_regions. cbn [bpp default].
  rewrite chk_in by (unfold uN; lia). cbn [mbind res_bind]. unfold default. rewrite !assert_true; cycle 1.
  { lia. } { by rewrite Z.mod_mul by lia. }
  cbn [mbind res_bind foldM]. unfold segment_regions, udiv. replace (width img * 3 =? 0) with false by lia.
  cbn [mbind res_bind]. rewrite (chk_in 32 (e - 1)) by (unfold uN; lia). cbn [mbind res_bind].
  assert (Hmm : forall z, (z mod (width img * 3)) mod 3 = z mod 3).
  { intros z. rewrite (Z.mul_comm (width img)), Z.rem_mul_r by lia.
    rewrite (Z.mul_comm 3), Z.mod_add by lia. by rewrite Z.mod_mod by lia. }
  rewrite !Hmm. destruct (s mod 3 =? 0) eqn:Es; [|done]. destruct (e mod 3 =? 0) eqn:Ee; [|done].
  exfalso. apply Hmis. split; Z.div_mod_to_equations; lia.
Qed.

Lemma three_byte_damage_panics_witness :
  R8G8B8_UNORM ∈ SUPPORTED_FORMAT_LIST /\
  run_diff_dmabuf_task (MkDiff 7 (Some (0, 64)) [(0, 64)] 0 CompNone) None (MkVkBuf 64 64 R8G8B8_UNORM)
    (MkImage (zeros 12288) GENERAL) (MkDC (MkTC [] (MkCache false false false)) false [] []) 0 = Panic.
Proof.
  apply (three_byte_damage_panics (MkVkBuf 64 64 R8G8B8_UNORM) _ _ 0 64); vm_compute; intuition congruence.
Defined.
