(* ===== verification/Sched.v ===== *)
(** * [src/mainloop.rs]: the task scheduler

    Worker threads share a [TaskSet] under a mutex. Each critical section is one step: pushing
    a task, [pop_task], and the completion of a decompression or of an application in
    [work_thread]; the steps of different threads interleave freely. The ordered maps and sets
    of the source are ascending lists. *)
From Stdlib Require Import ZArith Lia Sorting.Permutation Sorting.Sorted.
From stdpp Require Import gmap sets list_tactics.
From S2P Require Import Prelude Util Mirror Compress Tasks Applied.
Local Open Scope Z_scope.

(** [BTreeMap::insert] and [BTreeSet::insert], keyed by an integer or a tuple of integers:
    keep ascending order, replace an entry with the same key. *)
Fixpoint bt_insert {A} (cmp : A -> A -> comparison) (x : A) (l : list A) : list A :=
  match l with
  | [] => [x]
  | y :: l' => match cmp x y with
               | Lt => x :: y :: l'
               | Eq => x :: l'
               | Gt => y :: bt_insert cmp x l'
               end
  end.
Definition bt_remove {A} (eqb : A -> bool) (l : list A) : list A := List.filter (fun y => negb (eqb y)) l.

Abbreviation busy := (Z * (Z * Z))%type.
Definition busy_cmp (x y : busy) : comparison :=
  match x.1 ?= y.1 with
  | Eq => match x.2.1 ?= y.2.1 with Eq => x.2.2 ?= y.2.2 | c => c end
  | c => c
  end.
Definition apply_cmp (x y : ApplyTask) : comparison := a_sequence x ?= a_sequence y.

Section Sched.
(** [C]: the tasks that construct messages, which the scheduler does not look into. *)
Context {C : Type}.

Inductive WorkTask :=
| Construct (c : C)
| Decomp (d : DecompTask)
| Apply (a : ApplyTask).

Record TaskSet := MkTS {
  construct : list C; last_seqno : Z; decompress : list DecompTask;
  in_progress_decomp : list Z; apply : list ApplyTask; in_progress_apply : list busy }.

Definition interval_overlaps (a b : Z * Z) : bool := (b.1 <? a.2) && (a.1 <? b.2).

Definition busy_of (t : ApplyTask) : busy := (a_sequence t, (region_start t, region_end t)).

(** The loop over [in_progress_apply] stops at the first overlapping region. *)
Fixpoint apply_free (t : ApplyTask) (l : list busy) : res bool :=
  match l with
  | [] => Ok true
  | (v, lh) :: l =>
      if interval_overlaps lh (region_start t, region_end t)
      then assert_ (v <? a_sequence t);; Ok false
      else apply_free t l
  end.

Definition pop_apply (ts : TaskSet) : res (option (TaskSet * WorkTask)) :=
  match apply ts with
  | [] => Ok None
  | t :: rest =>
      let decomp_ok := forallb (fun q => negb (q <? a_sequence t)) (in_progress_decomp ts) in
      free ← apply_free t (in_progress_apply ts);
      if decomp_ok && free then
        Ok (Some (MkTS (construct ts) (last_seqno ts) (decompress ts) (in_progress_decomp ts) rest
                    (bt_insert busy_cmp (busy_of t) (in_progress_apply ts)), Apply t))
      else Ok None
  end.

Definition set_sequence (d : DecompTask) (s : Z) : DecompTask :=
  MkDecomp (Some s) (dc_msg d) (dc_file_size d) (dc_compression d) (dc_target d).

Definition pop_task (ts : TaskSet) : res (TaskSet * option WorkTask) :=
  r ← pop_apply ts;
  match r with
  | Some (ts, w) => Ok (ts, Some w)
  | None =>
      match decompress ts with
      | x :: rest =>
          let s := last_seqno ts in
          next ← u64 (last_seqno ts + 1);
          Ok (MkTS (construct ts) next rest (bt_insert Z.compare s (in_progress_decomp ts))
                (apply ts) (in_progress_apply ts), Some (Decomp (set_sequence x s)))
      | [] =>
          match construct ts with
          | c :: rest => Ok (MkTS rest (last_seqno ts) [] (in_progress_decomp ts) (apply ts)
                               (in_progress_apply ts), Some (Construct c))
          | [] => Ok (ts, None)
          end
      end
  end.

(** A decompression ended: with an application task, or none (the data was copied on the GPU). *)
Definition decomp_done (ts : TaskSet) (s : Z) (result : option ApplyTask) : TaskSet :=
  MkTS (construct ts) (last_seqno ts) (decompress ts)
    (bt_remove (Z.eqb s) (in_progress_decomp ts))
    (match result with Some a => bt_insert apply_cmp a (apply ts) | None => apply ts end)
    (in_progress_apply ts).

Definition busy_eqb (x y : busy) : bool :=
  (x.1 =? y.1) && (x.2.1 =? y.2.1) && (x.2.2 =? y.2.2).
Definition apply_done (ts : TaskSet) (a : ApplyTask) : TaskSet :=
  MkTS (construct ts) (last_seqno ts) (decompress ts) (in_progress_decomp ts) (apply ts)
    (bt_remove (busy_eqb (busy_of a)) (in_progress_apply ts)).

(** ** The system: the shared set, the tasks being run, and the applications that ended, in
    that order, and the decompression tasks as they were pushed. *)
Record system := MkSys {
  ts : TaskSet; running : list WorkTask; log : list ApplyTask; arrived : list DecompTask }.

Inductive step : system -> system -> Prop :=
| step_push_decomp t r l ar d :
    step (MkSys t r l ar)
      (MkSys (MkTS (construct t) (last_seqno t) (decompress t ++ [d]) (in_progress_decomp t)
                (apply t) (in_progress_apply t)) r l (ar ++ [d]))
| step_push_construct t r l ar c :
    step (MkSys t r l ar)
      (MkSys (MkTS (construct t ++ [c]) (last_seqno t) (decompress t) (in_progress_decomp t)
                (apply t) (in_progress_apply t)) r l ar)
| step_pop t t' w r l ar :
    pop_task t = Ok (t', Some w) -> step (MkSys t r l ar) (MkSys t' (r ++ [w]) l ar)
| step_decomp_done t r1 d r2 s result l ar :
    dc_sequence d = Some s -> (forall a, result = Some a -> a_sequence a = s) ->
    step (MkSys t (r1 ++ Decomp d :: r2) l ar) (MkSys (decomp_done t s result) (r1 ++ r2) l ar)
| step_decomp_failed t r1 d r2 l ar :
    step (MkSys t (r1 ++ Decomp d :: r2) l ar) (MkSys t (r1 ++ r2) l ar)
| step_apply_done t r1 a r2 l ar :
    step (MkSys t (r1 ++ Apply a :: r2) l ar) (MkSys (apply_done t a) (r1 ++ r2) (l ++ [a]) ar)
| step_construct_done t r1 c r2 l ar :
    step (MkSys t (r1 ++ Construct c :: r2) l ar) (MkSys t (r1 ++ r2) l ar).

Inductive reachable : system -> Prop :=
| reach_init : reachable (MkSys (MkTS [] 0 [] [] [] []) [] [] [])
| reach_step s s' : reachable s -> step s s' -> reachable s'.

(** The applications being run. *)
Definition applying (r : list WorkTask) : list ApplyTask :=
  omap (fun w => match w with Apply a => Some a | _ => None end) r.
Definition decompressing (r : list WorkTask) : list Z :=
  omap (fun w => match w with Decomp d => dc_sequence d | _ => None end) r.

Definition overlap (a b : ApplyTask) : Prop :=
  interval_overlaps (region_start a, region_end a) (region_start b, region_end b) = true.

(** ** Lemmas on the ordered containers *)
Lemma bt_insert_perm {A} (cmp : A -> A -> comparison) x l :
  (forall y, y ∈ l -> cmp x y <> Eq) -> bt_insert cmp x l ≡ₚ x :: l.
Proof.
  induction l as [|y l IH]; intros H; [done|]. cbn.
  specialize (H y) as Hy. destruct (cmp x y); [by destruct Hy; [left|]|done|].
  rewrite IH; [apply Permutation_swap|]. intros z Hz. apply H. by right.
Qed.
Lemma bt_insert_elem {A} (cmp : A -> A -> comparison) x y l :
  (forall z, cmp x z = Eq -> x = z) -> y ∈ bt_insert cmp x l <-> y = x \/ y ∈ l.
Proof.
  intros Hc. induction l as [|z l IH]; cbn; [set_solver|].
  specialize (Hc z). destruct (cmp x z); [rewrite <- (Hc eq_refl)|..]; set_solver.
Qed.
Lemma busy_cmp_eq x y : busy_cmp x y = Eq -> x = y.
Proof.
  destruct x as [a [b c]], y as [a' [b' c']]. unfold busy_cmp. cbn.
  destruct (Z.compare_spec a a'); [|done..]. destruct (Z.compare_spec b b'); [|done..].
  intros ->%Z.compare_eq. by subst.
Qed.
Lemma bt_remove_elem {A} (eqb : A -> bool) y l : y ∈ bt_remove eqb l <-> y ∈ l /\ eqb y = false.
Proof.
  unfold bt_remove. rewrite !list_elem_of_In, filter_In. by rewrite negb_true_iff.
Qed.
Lemma bt_remove_perm s l : s ∈ l -> NoDup l -> l ≡ₚ s :: bt_remove (Z.eqb s) l.
Proof.
  induction l as [|y l IH]; intros Hin Hnd; [by apply elem_of_nil in Hin|].
  apply NoDup_cons in Hnd as [Hy Hnd]. cbn. apply elem_of_cons in Hin as [->|Hin].
  - rewrite Z.eqb_refl. cbn. f_equiv. clear IH.
    induction l as [|z l IH]; [done|]. cbn. apply not_elem_of_cons in Hy as [Hz Hy].
    apply NoDup_cons in Hnd as [_ Hnd]. replace (y =? z) with false by lia. cbn. f_equiv. auto.
  - replace (s =? y) with false by (symmetry; apply Z.eqb_neq; naive_solver). cbn.
    rewrite Permutation_swap. f_equiv. auto.
Qed.

Definition seq_lt (a b : ApplyTask) : Prop := a_sequence a < a_sequence b.
Lemma bt_insert_sorted x l :
  StronglySorted seq_lt l -> (forall y, y ∈ l -> a_sequence y <> a_sequence x) ->
  StronglySorted seq_lt (bt_insert apply_cmp x l).
Proof.
  induction 1 as [|y l Hs IH Hy]; intros Hne; cbn; [repeat constructor|]. unfold apply_cmp at 1.
  destruct (Z.compare_spec (a_sequence x) (a_sequence y)) as [E|Hlt|Hgt].
  - destruct (Hne y); [left|done].
  - constructor; [by constructor|]. constructor; [done|].
    eapply Forall_impl; [exact Hy|]. unfold seq_lt. lia.
  - constructor; [apply IH; intros; apply Hne; by right|]. apply Forall_forall. intros z Hz.
    rewrite bt_insert_perm in Hz.
    + apply elem_of_cons in Hz as [->|Hz]; [done|]. rewrite Forall_forall in Hy. auto.
    + intros w Hw E%Z.compare_eq. destruct (Hne w); [by right|done].
Qed.

(** ** Invariant *)
Abbreviation seqs := (map a_sequence).

(** [before] holds of every pair of the list, in list order. *)
Inductive pairwise {A} (before : A -> A -> Prop) : list A -> Prop :=
| pw_nil : pairwise before []
| pw_cons x l : Forall (before x) l -> pairwise before l -> pairwise before (x :: l).

Lemma pairwise_snoc {A} (before : A -> A -> Prop) l x :
  pairwise before l -> Forall (fun y => before y x) l -> pairwise before (l ++ [x]).
Proof.
  induction 1 as [|y l Hy Hl IH]; intros Hf; cbn; [repeat constructor|].
  apply Forall_cons_1 in Hf as [??]. constructor; [|auto]. apply Forall_app. by repeat constructor.
Qed.

(** Overlapping applications are in sequence order. *)
Definition in_order (a b : ApplyTask) : Prop := overlap a b -> a_sequence a < a_sequence b.

Definition all_seqs (s : system) : list Z :=
  in_progress_decomp (ts s) ++ seqs (apply (ts s)) ++ seqs (applying (running s)) ++ seqs (log s).
Definition unstarted (s : system) : list Z := in_progress_decomp (ts s) ++ seqs (apply (ts s)).

Record inv (s : system) : Prop := {
  i_nodup : NoDup (all_seqs s);
  i_bound : Forall (fun q => q < last_seqno (ts s)) (all_seqs s);
  i_sorted : StronglySorted seq_lt (apply (ts s));
  i_started a q : a ∈ applying (running s) ++ log s -> q ∈ unstarted s -> a_sequence a < q;
  i_busy b : b ∈ in_progress_apply (ts s) <-> b ∈ map busy_of (applying (running s));
  i_disjoint a b : a ∈ applying (running s) -> b ∈ applying (running s) ->
    a_sequence a <> a_sequence b -> ~ overlap a b;
  i_log_run a b : a ∈ log s -> b ∈ applying (running s) -> in_order a b;
  i_log : pairwise in_order (log s);
  i_decomp q : q ∈ decompressing (running s) -> q ∈ in_progress_decomp (ts s);
  i_decomp_nodup : NoDup (decompressing (running s));
  i_fifo : 0 <= last_seqno (ts s) /\
    decompress (ts s) = drop (Z.to_nat (last_seqno (ts s))) (arrived s) /\
    last_seqno (ts s) <= zlen (arrived s);
  i_source d : Decomp d ∈ running s -> exists q x, 0 <= q < last_seqno (ts s) /\
    arrived s !! Z.to_nat q = Some x /\ d = set_sequence x q;
}.

Lemma inv_init : inv (MkSys (MkTS [] 0 [] [] [] []) [] [] []).
Proof. split; cbn; try constructor; try done; try set_solver. Qed.

Lemma overlap_sym a b : overlap a b <-> overlap b a.
Proof. unfold overlap, interval_overlaps. cbn. lia. Qed.
Lemma applying_app r1 r2 : applying (r1 ++ r2) = applying r1 ++ applying r2.
Proof. apply omap_app. Qed.
Lemma decompressing_app r1 r2 : decompressing (r1 ++ r2) = decompressing r1 ++ decompressing r2.
Proof. apply omap_app. Qed.

Lemma apply_free_true t l : apply_free t l = Ok true ->
  forall b, b ∈ l -> interval_overlaps b.2 (region_start t, region_end t) = false.
Proof.
  induction l as [|[v lh] l IH]; cbn; [set_solver|]. destruct (interval_overlaps lh _) eqn:E.
  - destruct (v <? a_sequence t); done.
  - intros H b [->|Hb]%elem_of_cons; [done|]. auto.
Qed.
Lemma apply_free_ok t l : (forall b, b ∈ l -> b.1 < a_sequence t) -> exists r, apply_free t l = Ok r.
Proof.
  induction l as [|[v lh] l IH]; cbn; [eauto|]. intros H. case_match.
  - rewrite assert_true; [cbn; eauto|]. specialize (H (v, lh)). cbn in H. set_solver by lia.
  - apply IH. set_solver.
Qed.

Lemma pop_apply_Some t t' w : pop_apply t = Ok (Some (t', w)) -> exists a rest,
  apply t = a :: rest /\ w = Apply a /\ (forall q, q ∈ in_progress_decomp t -> a_sequence a <= q) /\
  (forall b, b ∈ in_progress_apply t -> interval_overlaps b.2 (region_start a, region_end a) = false) /\
  t' = MkTS (construct t) (last_seqno t) (decompress t) (in_progress_decomp t) rest
         (bt_insert busy_cmp (busy_of a) (in_progress_apply t)).
Proof.
  unfold pop_apply. destruct (apply t) as [|a rest]; [done|].
  destruct (apply_free a _) as [free| |] eqn:Ef; cbn; [|done..].
  destruct (forallb _ _) eqn:Ed; [|done]. destruct free; [|done]. intros [= <- <-].
  exists a, rest. split_and!; try done.
  - intros q Hq. rewrite forallb_forall in Ed. specialize (Ed q). rewrite <- list_elem_of_In in Ed.
    specialize (Ed Hq). lia.
  - by apply apply_free_true.
Qed.

(** Starting an application. *)
Lemma inv_pop_apply t t' w r l ar :
  inv (MkSys t r l ar) -> pop_apply t = Ok (Some (t', w)) -> inv (MkSys t' (r ++ [w]) l ar).
Proof.
  intros [N B Sd St Bu Di LR Lo De Dn Fi So] (a & rest & Ea & -> & Hd & Hfree & ->)%pop_apply_Some.
  unfold all_seqs, unstarted in *. cbn [ts running log arrived] in *.
  rewrite Ea in *. apply StronglySorted_inv in Sd as [Sd Hlt]. rewrite Forall_forall in Hlt.
  assert (Hq : forall q, q ∈ in_progress_decomp t ++ seqs rest -> a_sequence a < q).
  { intros q [Hq|Hq]%elem_of_app.
    - specialize (Hd q Hq). assert (q <> a_sequence a); [|lia]. intros ->.
      apply NoDup_app in N as (_ & N & _). apply (N _ Hq). set_solver.
    - apply list_elem_of_fmap in Hq as (b & -> & Hb). by apply Hlt. }
  assert (Hnew : forall b, b ∈ applying r -> ~ overlap a b).
  { intros b Hb. rewrite overlap_sym. unfold overlap.
    specialize (Hfree (busy_of b)). unfold busy_of in Hfree at 2. cbn [snd] in Hfree.
    rewrite Hfree; [done|]. apply Bu. by apply list_elem_of_fmap_2. }
  assert (HP : in_progress_decomp t ++ seqs rest ++ seqs (applying r ++ [a]) ++ seqs l ≡ₚ
               in_progress_decomp t ++ seqs (a :: rest) ++ seqs (applying r) ++ seqs l).
  { rewrite map_app. cbn [map]. solve_Permutation. }
  split; unfold all_seqs, unstarted; cbn [ts running log arrived apply in_progress_decomp
    in_progress_apply last_seqno decompress]; rewrite ?applying_app, ?decompressing_app;
    cbn [applying decompressing omap list_omap]; rewrite ?app_nil_r.
  - by rewrite HP.
  - by rewrite HP.
  - done.
  - intros b q Hb Hu. rewrite <- app_assoc in Hb.
    apply elem_of_app in Hb as [Hb|[->|Hb]%elem_of_cons]; [|by apply Hq|];
      (apply St; [set_solver|set_solver]).
  - intros b. rewrite bt_insert_elem by apply busy_cmp_eq. rewrite Bu, map_app. set_solver.
  - intros b c [Hb| ->%list_elem_of_singleton]%elem_of_app [Hc| ->%list_elem_of_singleton]%elem_of_app Hne;
      [by apply Di|rewrite overlap_sym; by apply Hnew|by apply Hnew|done].
  - intros b c Hb [Hc| ->%list_elem_of_singleton]%elem_of_app; [by apply LR|]. intros _.
    apply St; [set_solver|]. cbn. set_solver.
  - done.
  - done.
  - done.
  - done.
  - intros d [Hd'|Hd']%elem_of_app; [by apply So|set_solver].
Qed.

(** Handing out a message to decompress. *)
Lemma inv_pop_decomp t r l ar x rest :
  inv (MkSys t r l ar) -> decompress t = x :: rest ->
  inv (MkSys (MkTS (construct t) (last_seqno t + 1) rest
                (bt_insert Z.compare (last_seqno t) (in_progress_decomp t)) (apply t)
                (in_progress_apply t)) (r ++ [Decomp (set_sequence x (last_seqno t))]) l ar).
Proof.
  intros [N B Sd St Bu Di LR Lo De Dn Fi So] Ex.
  unfold all_seqs, unstarted in *. cbn [ts running log arrived] in *.
  assert (Hfresh : last_seqno t ∉ all_seqs (MkSys t r l ar)).
  { intros Hin. rewrite Forall_forall in B. specialize (B _ Hin). lia. }
  unfold all_seqs in Hfresh. cbn [ts running log] in Hfresh.
  assert (HP : bt_insert Z.compare (last_seqno t) (in_progress_decomp t)
               ≡ₚ last_seqno t :: in_progress_decomp t).
  { apply bt_insert_perm. intros y Hy E%Z.compare_eq. apply Hfresh. set_solver. }
  split; unfold all_seqs, unstarted; cbn [ts running log arrived apply in_progress_decomp
    in_progress_apply last_seqno decompress]; rewrite ?applying_app, ?decompressing_app;
    cbn [applying decompressing omap list_omap set_sequence dc_sequence]; rewrite ?app_nil_r; try done.
  - rewrite HP. cbn [app]. by apply NoDup_cons.
  - rewrite HP. cbn [app]. constructor; [lia|]. eapply Forall_impl; [exact B|]. cbn. lia.
  - intros a q Ha. rewrite HP. intros [->|Hq]%elem_of_cons; [|by apply St].
    rewrite Forall_forall in B. apply B. apply elem_of_app in Ha as [Ha|Ha];
      apply (list_elem_of_fmap_2 a_sequence) in Ha; set_solver.
  - intros q Hq. rewrite HP. apply elem_of_app in Hq as [Hq| ->%list_elem_of_singleton]; set_solver.
  - apply NoDup_app. split_and!; [done| |by apply NoDup_singleton].
    intros q Hq ->%list_elem_of_singleton. apply Hfresh. apply elem_of_app. left. by apply De.
  - destruct Fi as (F1 & F2 & F3). rewrite Ex in F2. symmetry in F2.
    assert (Hlt : (Z.to_nat (last_seqno t) < length ar)%nat).
    { destruct (Nat.lt_ge_cases (Z.to_nat (last_seqno t)) (length ar)) as [|Hge]; [done|].
      rewrite drop_ge in F2 by done. done. }
    split_and!; [lia| |unfold zlen; lia].
    replace (Z.to_nat (last_seqno t + 1)) with (S (Z.to_nat (last_seqno t))) by lia.
    apply (f_equal (drop 1)) in F2. rewrite drop_drop, Nat.add_1_r in F2. symmetry. exact F2.
  - intros d [Hd|Hd]%elem_of_app.
    + destruct (So d Hd) as (q & y & ? & ? & ?). exists q, y. split_and!; [lia|lia|done..].
    + apply list_elem_of_singleton in Hd as [= ->]. exists (last_seqno t), x. split; [lia|]. split; [|done].
      destruct Fi as (_ & F2 & _). rewrite Ex in F2.
      rewrite <- (Nat.add_0_r (Z.to_nat _)), <- lookup_drop. by rewrite <- F2.
Qed.

(** The running list loses an entry that is not an application. *)
Lemma inv_drop_running t r1 w r2 l ar :
  (forall a, w <> Apply a) -> inv (MkSys t (r1 ++ w :: r2) l ar) -> inv (MkSys t (r1 ++ r2) l ar).
Proof.
  intros Hw [N B Sd St Bu Di LR Lo De Dn Fi So].
  assert (E : applying (r1 ++ w :: r2) = applying (r1 ++ r2)).
  { rewrite !applying_app. f_equal. destruct w; [done|done|by destruct (Hw a)]. }
  unfold all_seqs, unstarted in *. cbn [ts running log arrived] in *. rewrite E in *.
  rewrite decompressing_app in *.
  assert (HD : decompressing (w :: r2) = option_list (match w with Decomp d => dc_sequence d | _ => None end)
                                         ++ decompressing r2) by (destruct w as [|d|]; cbn; [done|by destruct (dc_sequence d)|done]).
  rewrite HD in *. split; unfold all_seqs, unstarted; cbn [ts running log arrived]; rewrite ?decompressing_app; try done.
  - intros q Hq. apply De. set_solver.
  - apply NoDup_app in Dn as (D1 & D2 & D3). apply NoDup_app in D3 as (_ & _ & D3).
    apply NoDup_app. split_and!; [done| |done]. intros q Hq Hq'. apply (D2 q Hq). set_solver.
  - intros d Hd. apply So. set_solver.
Qed.

(** A sequence number leaves the decompression set. *)
Lemma inv_decomp_done t r l ar s result :
  inv (MkSys t r l ar) -> s ∈ in_progress_decomp t -> s ∉ decompressing r ->
  (forall a, result = Some a -> a_sequence a = s) ->
  inv (MkSys (decomp_done t s result) r l ar).
Proof.
  intros [N B Sd St Bu Di LR Lo De Dn Fi So] Hs Hnr Hres.
  unfold all_seqs, unstarted in *. cbn [ts running log arrived] in *.
  pose proof (proj1 (proj1 (NoDup_app _ _) N)) as ND.
  pose proof (bt_remove_perm s _ Hs ND) as HP.
  pose proof (fun q => bt_remove_elem (Z.eqb s) q (in_progress_decomp t)) as HD.
  remember (bt_remove (Z.eqb s) (in_progress_decomp t)) as D' eqn:ED'.
  assert (Hnot : forall q, q ∈ apply t -> a_sequence q <> s).
  { intros q Hq E. apply NoDup_app in N as (_ & N & _). apply (N s Hs).
    apply (list_elem_of_fmap_2 a_sequence) in Hq. rewrite E in Hq. set_solver. }
  set (A' := match result with Some a => bt_insert apply_cmp a (apply t) | None => apply t end).
  assert (HA : seqs A' ≡ₚ option_list ((fun _ => s) <$> result) ++ seqs (apply t) /\ StronglySorted seq_lt A').
  { unfold A'. destruct result as [a|]; [|done]. specialize (Hres a eq_refl). subst s. split.
    - rewrite bt_insert_perm; [done|]. intros y Hy E%Z.compare_eq. by apply (Hnot y Hy).
    - by apply bt_insert_sorted. }
  destruct HA as [HA HS].
  assert (Hsub : forall q, q ∈ D' ++ seqs A' ->
                 q ∈ in_progress_decomp t ++ seqs (apply t)).
  { intros q. rewrite HA, HP. destruct result; cbn; set_solver. }
  assert (Hall : exists rest, in_progress_decomp t ++ seqs (apply t) ++ seqs (applying r) ++ seqs l ≡ₚ
     rest ++ D' ++ seqs A' ++ seqs (applying r) ++ seqs l).
  { exists (match result with Some _ => [] | None => [s] end). rewrite HA. rewrite HP at 1.
    destruct result; cbn; solve_Permutation. }
  destruct Hall as [rest Hall]. rewrite Hall in N, B.
  apply NoDup_app in N as (_ & _ & N). apply Forall_app in B as [_ B].
  split; unfold all_seqs, unstarted, decomp_done; cbn [ts running log arrived apply in_progress_decomp
    in_progress_apply last_seqno decompress]; fold A'; rewrite <- ?ED'; try done.
  - intros a q Ha Hq. apply St; [done|by apply Hsub].
  - intros q Hq. apply HD. split; [by apply De|].
    apply Z.eqb_neq. intros ->. done.
Qed.

Lemma busy_eqb_eq x y : busy_eqb x y = true <-> x = y.
Proof.
  destruct x as [a [b c]], y as [a' [b' c']]. unfold busy_eqb. cbn. split; [|intros [= -> -> ->]; lia].
  intros. repeat f_equal; lia.
Qed.

Lemma inv_apply_done t r1 a r2 l ar :
  inv (MkSys t (r1 ++ Apply a :: r2) l ar) ->
  inv (MkSys (apply_done t a) (r1 ++ r2) (l ++ [a]) ar).
Proof.
  intros [N B Sd St Bu Di LR Lo De Dn Fi So].
  assert (E : applying (r1 ++ Apply a :: r2) ≡ₚ a :: applying (r1 ++ r2)).
  { rewrite !applying_app. cbn. solve_Permutation. }
  assert (ED : decompressing (r1 ++ Apply a :: r2) = decompressing (r1 ++ r2))
    by by rewrite !decompressing_app.
  unfold all_seqs, unstarted in *. cbn [ts running log arrived] in *. rewrite ED in *.
  assert (HP : in_progress_decomp t ++ seqs (apply t) ++ seqs (applying (r1 ++ Apply a :: r2)) ++ seqs l
    ≡ₚ in_progress_decomp t ++ seqs (apply t) ++ seqs (applying (r1 ++ r2)) ++ seqs (l ++ [a])).
  { rewrite E, map_app. cbn. solve_Permutation. }
  rewrite HP in N, B.
  assert (Hne : forall b, b ∈ applying (r1 ++ r2) -> a_sequence a <> a_sequence b).
  { intros b Hb Eq. do 2 apply NoDup_app in N as (_ & _ & N). apply NoDup_app in N as (_ & N & _).
    apply (list_elem_of_fmap_2 a_sequence) in Hb. apply (N _ Hb). rewrite map_app. set_solver. }
  split; unfold all_seqs, unstarted, apply_done; cbn [ts running log arrived apply in_progress_decomp
    in_progress_apply last_seqno decompress]; try done.
  - intros b q Hb. apply St. rewrite E. set_solver.
  - intros b. rewrite bt_remove_elem, Bu, E. cbn [map]. split.
    + intros [[->|Hb]%elem_of_cons Hf]; [|done].
      rewrite (proj2 (busy_eqb_eq _ _) eq_refl) in Hf. done.
    + intros Hb. split; [by right|]. apply not_true_is_false. intros <-%busy_eqb_eq.
      apply list_elem_of_fmap in Hb as (c & Ec & Hc). apply (Hne c Hc). by injection Ec.
  - intros b c Hb Hc. apply Di; rewrite E; set_solver.
  - intros b c [Hb| ->%list_elem_of_singleton]%elem_of_app Hc.
    + apply LR; [done|]. rewrite E. set_solver.
    + intros Ho. destruct (Di a c); rewrite ?E; [set_solver|set_solver|by apply Hne|done].
  - apply pairwise_snoc; [done|]. apply Forall_forall. intros x Hx. apply LR; [done|]. rewrite E. set_solver.
  - intros d Hd. apply So. set_solver.
Qed.

Lemma inv_step s s' : inv s -> step s s' -> inv s'.
Proof.
  intros Hi Hst. destruct Hst as [t r l ar d|t r l ar c|t t' w r l ar Hp|t r1 d r2 q result l ar Hq Hres
    |t r1 d r2 l ar|t r1 a r2 l ar|t r1 c r2 l ar].
  - destruct Hi as [N B Sd St Bu Di LR Lo De Dn (F1&F2&F3) So]. split; try done; cbn in *.
    + split_and!; [done| |zlia]. rewrite drop_app_le by (unfold zlen in *; lia). by rewrite F2.
    + intros d' Hd'. destruct (So d' Hd') as (q&x&?&?&?). exists q, x. split_and!; [lia|lia| |done].
      by apply lookup_app_l_Some.
  - destruct Hi as [N B Sd St Bu Di LR Lo De Dn Fi So]. by split.
  - unfold pop_task in Hp. destruct (pop_apply t) as [[[t1 w1]|]| |] eqn:Ep; cbn in Hp; [| |done..].
    + injection Hp as -> ->. by eapply inv_pop_apply.
    + destruct (decompress t) as [|x rest] eqn:Ed.
      * destruct (construct t) as [|c rest] eqn:Ec; [done|]. injection Hp as <- <-.
        destruct Hi as [N B Sd St Bu Di LR Lo De Dn Fi So].
        split; unfold all_seqs, unstarted in *; cbn in *; rewrite ?applying_app, ?decompressing_app; cbn;
          rewrite ?app_nil_r; rewrite <- ?Ed; try done.
        intros d [Hd|Hd]%elem_of_app; [by apply So|set_solver].
      * destruct (chk 64 _) as [nx| |] eqn:En; cbn in Hp; [|done..]. injection Hp as <- <-.
        apply chk_Ok in En as [-> _]. by apply inv_pop_decomp.
  - pose proof (i_decomp_nodup _ Hi) as Dn. pose proof (i_decomp _ Hi q) as De. cbn in Dn, De.
    rewrite decompressing_app in Dn, De.
    assert (HD : decompressing (Decomp d :: r2) = q :: decompressing r2) by (cbn; by rewrite Hq).
    rewrite HD in Dn, De. apply inv_decomp_done.
    + eapply inv_drop_running; [|done]. done.
    + apply De. set_solver.
    + rewrite decompressing_app. rewrite <- Permutation_middle in Dn. by apply NoDup_cons in Dn as [? _].
    + done.
  - eapply inv_drop_running; [|done]. done.
  - by apply inv_apply_done.
  - eapply inv_drop_running; [|done]. done.
Qed.

Lemma reachable_inv s : reachable s -> inv s.
Proof. induction 1; [apply inv_init|by eapply inv_step]. Qed.

(** the scheduler's assertion holds: in every reachable state, whatever the interleaving of
    the worker threads, [pop_task] returns unless the 64-bit sequence numbers run out. *)
Theorem pop_task_no_panic s :
  reachable s -> last_seqno (ts s) < 2 ^ 64 - 1 -> exists t' w, pop_task (ts s) = Ok (t', w).
Proof.
  intros Hi%reachable_inv Hn. destruct Hi as [N B Sd St Bu Di LR Lo De Dn (F1&_) So].
  assert (Hp : exists r, pop_apply (ts s) = Ok r).
  { unfold pop_apply. destruct (apply (ts s)) as [|a rest] eqn:Ea; [eauto|].
    destruct (apply_free_ok a (in_progress_apply (ts s))) as [free ->]; [|cbn; case_match; eauto].
    intros b Hb. apply Bu, list_elem_of_fmap in Hb as (c & -> & Hc).
    apply (St c (a_sequence a)); [set_solver|]. unfold unstarted. rewrite Ea. cbn. set_solver. }
  destruct Hp as [r Hp]. unfold pop_task. rewrite Hp. destruct r as [[t w]|]; cbn; [eauto|].
  destruct (decompress (ts s)); [case_match; eauto|].
  rewrite chk_in by (unfold uN; lia). cbn. eauto.
Qed.

(** C4: applications exclude each other and respect the order of the stream: in every reachable
    state two applications in progress never overlap, overlapping applications end in the order
    of their sequence numbers, one that is still running comes after every overlapping one that
    ended, and the sequence number of a decompression in progress is the position of its message
    in the stream. *)
Theorem apply_tasks_ordered s :
  reachable s ->
  (forall l1 a l2 b l3, applying (running s) = l1 ++ a :: l2 ++ b :: l3 -> ~ overlap a b) /\
  pairwise in_order (log s) /\
  (forall a b, a ∈ log s -> b ∈ applying (running s) -> in_order a b) /\
  (forall d, Decomp d ∈ running s -> exists q x, 0 <= q /\ arrived s !! Z.to_nat q = Some x /\
     d = set_sequence x q).
Proof.
  intros Hi%reachable_inv. destruct Hi as [N B Sd St Bu Di LR Lo De Dn Fi So].
  split_and!; [|done|done|].
  - intros l1 a l2 b l3 E. apply Di; rewrite ?E; [set_solver|set_solver|]. intros Eq.
    unfold all_seqs in N. rewrite E in N. do 2 apply NoDup_app in N as (_ & _ & N).
    apply NoDup_app in N as (N & _ & _). rewrite !map_app in N. cbn in N.
    apply NoDup_app in N as (_ & _ & N). apply NoDup_cons in N as [N _]. apply N.
    rewrite map_app. cbn. rewrite Eq. set_solver.
  - intros d Hd. destruct (So d Hd) as (q&x&?&?&?). exists q, x. split_and!; [lia|done..].
Qed.

(** ** Serializability *)
Definition by_sequence (l : list ApplyTask) : list ApplyTask := foldr (bt_insert apply_cmp) [] l.

Lemma by_sequence_perm l : NoDup (seqs l) -> by_sequence l ≡ₚ l.
Proof.
  induction l as [|x l IH]; [done|]. cbn [map by_sequence foldr]. fold (by_sequence l).
  intros [Hx Hn]%NoDup_cons. rewrite bt_insert_perm, IH; [done|done|].
  intros y Hy E%Z.compare_eq. rewrite IH in Hy by done. apply Hx. rewrite E. by apply list_elem_of_fmap_2.
Qed.

Lemma by_sequence_sorted l : NoDup (seqs l) -> StronglySorted seq_lt (by_sequence l).
Proof.
  induction l as [|x l IH]; cbn [map by_sequence foldr]; [constructor|]. fold (by_sequence l).
  intros [Hx Hn]%NoDup_cons. apply bt_insert_sorted; [auto|]. intros y Hy E. rewrite by_sequence_perm in Hy by done.
  apply Hx. rewrite <- E. by apply list_elem_of_fmap_2.
Qed.

Lemma not_overlap_disjoint a b : ~ overlap a b -> region_end a <= region_start b \/ region_end b <= region_start a.
Proof. unfold overlap, interval_overlaps. cbn. lia. Qed.
Lemma apply_all_cons f x l g : apply_all f (x :: l) = Ok g <-> exists f1, apply_to f x = Ok f1 /\ apply_all f1 l = Ok g.
Proof. apply bind_Ok. Qed.
Lemma apply_all_swap x y l f g : exact_fill x -> exact_fill y -> ~ overlap x y ->
  apply_all f (x :: y :: l) = Ok g -> apply_all f (y :: x :: l) = Ok g.
Proof.
  intros Hx Hy Ho%not_overlap_disjoint (f1 & E1 & (f2 & E2 & E)%apply_all_cons)%apply_all_cons.
  destruct (apply_to_comm _ _ _ _ _ Hx Hy Ho E1 E2) as (f3 & E3 & E4).
  apply apply_all_cons. exists f3. split; [done|]. apply apply_all_cons. by exists f2.
Qed.

Lemma apply_all_insert x l : forall f g, exact_fill x -> Forall exact_fill l ->
  (forall y, y ∈ l -> a_sequence y <> a_sequence x /\ (a_sequence y < a_sequence x -> ~ overlap x y)) ->
  apply_all f (bt_insert apply_cmp x l) = Ok g <-> apply_all f (x :: l) = Ok g.
Proof.
  induction l as [|y l IH]; intros f g Hx Hl H; [done|]. cbn [bt_insert]. unfold apply_cmp at 1.
  apply Forall_cons_1 in Hl as [Hy Hl]. destruct (H y) as [Hne Hc]; [left|].
  destruct (Z.compare_spec (a_sequence x) (a_sequence y)) as [E|Hlt|Hgt]; [lia|done|].
  specialize (Hc Hgt). assert (IH' : forall f g, apply_all f (bt_insert apply_cmp x l) = Ok g <-> apply_all f (x :: l) = Ok g).
  { intros. apply IH; [done..|]. intros z Hz. apply H. by right. }
  rewrite apply_all_cons. setoid_rewrite IH'. rewrite <- apply_all_cons.
  split; apply apply_all_swap; try done. by rewrite overlap_sym.
Qed.

Lemma apply_all_by_sequence l : forall f g, NoDup (seqs l) -> pairwise in_order l -> Forall exact_fill l ->
  apply_all f (by_sequence l) = Ok g <-> apply_all f l = Ok g.
Proof.
  induction l as [|x l IH]; intros f g Hn Hp Hx; [done|]. cbn [by_sequence foldr]. fold (by_sequence l).
  cbn [map] in Hn. apply NoDup_cons in Hn as [Hnx Hn]. inversion Hp as [|? ? Hf Hp']; subst.
  apply Forall_cons_1 in Hx as [Hx Hl]. rewrite apply_all_insert; [|done|by rewrite by_sequence_perm|].
  - rewrite !apply_all_cons. by setoid_rewrite IH.
  - intros y Hy. rewrite by_sequence_perm in Hy by done. rewrite Forall_forall in Hf. specialize (Hf y Hy). split.
    + intros E. apply Hnx. rewrite <- E. by apply list_elem_of_fmap_2.
    + intros Hlt Ho. specialize (Hf Ho). lia.
Qed.

(** C3: the concurrent applications are serializable in stream order: in every reachable state, whatever the
    interleaving of the worker threads, running [run_apply_task] for the applications in the order in which they
    ended, on the files and mirrors they are for, succeeds with the same files and mirrors as running them by
    ascending sequence number, the order of their messages in the stream; the tasks are any that decompressing a
    message for a file or a mirror makes. *)
Theorem apply_serializable {L : CompLib} s (files files' : gmap Z ShadowFdFileCore) :
  reachable s -> Forall made (log s) ->
  (apply_all files (log s) = Ok files' <-> apply_all files (by_sequence (log s)) = Ok files') /\
  by_sequence (log s) ≡ₚ log s /\ StronglySorted seq_lt (by_sequence (log s)).
Proof.
  intros Hi%reachable_inv Hm. destruct Hi as [N _ _ _ _ _ _ Lo _ _ _ _].
  unfold all_seqs in N. do 3 apply NoDup_app in N as (_ & _ & N).
  split; [|split; [by apply by_sequence_perm|by apply by_sequence_sorted]].
  symmetry. apply apply_all_by_sequence; [done|done|]. eapply Forall_impl; [exact Hm|]. apply made_exact.
Qed.
End Sched.

(** ** A run with two workers

    Two fills are decompressed and applied concurrently, the later one ending first. *)
Definition demo_decomp (start : Z) : DecompTask :=
  MkDecomp None (to_le 4 (18 * 32 + Wmsg.wmsg_code Wmsg.BufferFill) ++ to_le 4 1 ++ to_le 4 start ++ to_le 4 (start + 2) ++ [Byte.x41; Byte.x42])
    8 Options.CompNone (TFile true).
Definition demo_apply (q start : Z) : ApplyTask :=
  MkApply q 1 [Byte.x41; Byte.x42] false 0 (TFile true) start (start + 2).
Definition demo_end : system (C := unit) :=
  MkSys (MkTS [] 2 [] [] [] []) [] [demo_apply 1 4; demo_apply 0 0]
    [demo_decomp 0; demo_decomp 4].

Lemma demo_reachable : reachable demo_end.
Proof.
  pose (d0 := demo_decomp 0). pose (d1 := demo_decomp 4).
  pose (a0 := demo_apply 0 0). pose (a1 := demo_apply 1 4).
  pose (D0 := Decomp (C := unit) (set_sequence d0 0)). pose (D1 := Decomp (C := unit) (set_sequence d1 1)).
  assert (R2 : reachable (MkSys (MkTS (C := unit) [] 0 [d0; d1] [] [] []) [] [] [d0; d1])).
  { eapply reach_step; [|apply (step_push_decomp (MkTS [] 0 [d0] [] [] []) _ _ [d0])].
    eapply reach_step; [|apply (step_push_decomp (MkTS [] 0 [] [] [] []) _ _ [])]. constructor. }
  assert (R4 : reachable (MkSys (MkTS (C := unit) [] 2 [] [0; 1] [] []) [D0; D1] [] [d0; d1])).
  { eapply reach_step; [|apply (step_pop (MkTS [] 1 [d1] [0] [] []) _ D1 [D0]); reflexivity].
    eapply reach_step; [exact R2|]. by apply (step_pop _ _ D0 []). }
  assert (R6 : reachable (MkSys (MkTS (C := unit) [] 2 [] [] [a0; a1] []) [] [] [d0; d1])).
  { eapply reach_step; [|by apply (step_decomp_done (MkTS [] 2 [] [0] [a1] []) [] (set_sequence d0 0) []
      0 (Some a0)); [|intros ? [= <-]]].
    eapply reach_step; [exact R4|]. by apply (step_decomp_done (MkTS [] 2 [] [0; 1] [] []) [D0] (set_sequence d1 1) [] 1 (Some a1));
      [|intros ? [= <-]]. }
  assert (R8 : reachable (MkSys (MkTS (C := unit) [] 2 [] [] [] [busy_of a0; busy_of a1])
                            [Apply a0; Apply a1] [] [d0; d1])).
  { eapply reach_step; [|apply (step_pop (MkTS [] 2 [] [] [a1] [busy_of a0]) _ (Apply a1) [Apply a0]);
      reflexivity].
    eapply reach_step; [exact R6|]. by apply (step_pop _ _ (Apply a0) []). }
  eapply reach_step; [|apply (step_apply_done (MkTS [] 2 [] [] [] [busy_of a0]) [] a0 [] [a1])].
  eapply reach_step; [exact R8|]. apply (step_apply_done (MkTS [] 2 [] [] [] [busy_of a0; busy_of a1]) [Apply a0] a1 [] []).
Qed.

Lemma pop_task_no_panic_witness :
  exists t' w, pop_task (C := unit) (ts demo_end) = Ok (t', w).
Proof. apply (pop_task_no_panic demo_end); [exact demo_reachable|cbn; lia]. Defined.

Lemma apply_tasks_ordered_witness :
  (forall l1 a l2 b l3, applying (running demo_end) = l1 ++ a :: l2 ++ b :: l3 -> ~ overlap a b) /\
  pairwise in_order (log demo_end) /\
  (forall a b, a ∈ log demo_end -> b ∈ applying (running demo_end) -> in_order a b) /\
  (forall d, Decomp d ∈ running demo_end -> exists q x, 0 <= q /\
     arrived demo_end !! Z.to_nat q = Some x /\ d = set_sequence x q).
Proof. apply (apply_tasks_ordered demo_end). exact demo_reachable. Defined.

Definition demo_files : gmap Z ShadowFdFileCore := {[ 1 := MkCore (Mirror.MkMirror (zeros 8) 8 ∅) (zeros 8) ]}.
Definition demo_files' : gmap Z ShadowFdFileCore :=
  {[ 1 := MkCore (Mirror.MkMirror (zeros 8) 8 ∅) ([Byte.x41; Byte.x42; Byte.x00; Byte.x00; Byte.x41; Byte.x42; Byte.x00; Byte.x00]) ]}.
Lemma demo_made q start : q = 0 /\ start = 0 \/ q = 1 /\ start = 4 -> made (L := stored) (demo_apply q start).
Proof.
  intros [[-> ->]|[-> ->]]; [exists (set_sequence (demo_decomp 0) 0)|exists (set_sequence (demo_decomp 4) 1)];
    exists (MkCache false false false), (MkCache false false false); by vm_compute.
Qed.
Lemma apply_serializable_witness :
  apply_all demo_files (log demo_end) = Ok demo_files' /\ apply_all demo_files (by_sequence (log demo_end)) = Ok demo_files' /\
  by_sequence (log demo_end) ≡ₚ log demo_end.
Proof.
  assert (E : apply_all demo_files (log demo_end) = Ok demo_files') by by vm_compute.
  destruct (apply_serializable (L := stored) demo_end demo_files demo_files') as (H & Hp & _).
  - exact demo_reachable.
  - constructor; [apply demo_made; by right|]. constructor; [apply demo_made; by left|constructor].
  - split; [exact E|]. split; [by apply H|exact Hp].
Defined.

(** The result of a decompression carries the sequence number of its task. *)
Lemma run_decomp_sequence {L : CompLib} task cache a cache' :
  run_decomp_task task cache = Ok (a, cache') -> dc_sequence task = Some (a_sequence a).
Proof.
  unfold run_decomp_task, decomp_diff, decomp_fill. intros H. minvs.
  repeat (case_match; minvs; try done); destruct (dc_sequence task) eqn:E; cbn in *; simplify_eq/=; done.
Qed.
