(* ===== verification/Connect.v ===== *)
(** * Setting up a connection (src/main.rs, src/util.rs)

    The values of the command line that a process passes on to another ([VSockConfig],
    [VideoSetting], the arguments of a connection process and of ssh), the place of the hostname
    among the arguments of ssh, and the header with which a `waypipe server` connection tells a
    `waypipe client` connection its version and compression.

    A word of the command line ([OsStr]) is a [string]. The numbers of [bits_per_frame] are the
    class [F32]: their [FromStr] and [Display] are Rust's. *)
From Stdlib Require Import ZArith Lia.
From S2P Require Import Prelude Util.
Local Open Scope Z_scope.
Import Util.Options.

(** ** Strings *)

(** [s.split_once(c)] *)
Fixpoint split_once (c : ascii) (s : string) : option (string * string) :=
  match s with
  | EmptyString => None
  | String d s =>
      if Ascii.eqb d c then Some (EmptyString, s)
      else '(a, b) ← split_once c s; Some (String d a, b)
  end.
(** [s.split(c)]: never empty. *)
Fixpoint split_on (c : ascii) (s : string) : list string :=
  match s with
  | EmptyString => [EmptyString]
  | String d s =>
      if Ascii.eqb d c then EmptyString :: split_on c s
      else match split_on c s with x :: l => String d x :: l | [] => [String d EmptyString] end
  end.
(** [s.split_terminator(c)]: without an empty last piece. *)
Definition split_terminator (c : ascii) (s : string) : list string :=
  let l := split_on c s in
  match List.last l EmptyString with EmptyString => List.removelast l | _ => l end.

Definition parse_dec_u32 : string -> option Z := parse_int false 0 (2 ^ 32 - 1).
Definition parse_dec_i32 : string -> option Z := parse_int true (- 2 ^ 31) (2 ^ 31 - 1).

Fixpoint has_char (c : ascii) (s : string) : bool :=
  match s with EmptyString => false | String d s => Ascii.eqb d c || has_char c s end.

Lemma split_once_app c a b : has_char c a = false -> split_once c (a +:+ String c b) = Some (a, b).
Proof.
  induction a as [|d a IH].
  - intros _. change (split_once c (String c b) = Some (EmptyString, b)). cbn [split_once]. by rewrite Ascii.eqb_refl.
  - rewrite sapp_cons. cbn [split_once has_char]. intros [-> H2]%orb_false_iff. by rewrite IH by done.
Qed.
Lemma split_once_none c s : has_char c s = false -> split_once c s = None.
Proof.
  induction s as [|d s IH]; [done|]. cbn [split_once has_char]. intros [-> H2]%orb_false_iff. by rewrite IH.
Qed.
Lemma split_on_plain c s : has_char c s = false -> split_on c s = [s].
Proof.
  induction s as [|d s IH]; [done|]. cbn [split_on has_char]. intros [-> H2]%orb_false_iff. by rewrite IH.
Qed.

(** ** VSOCK addresses *)
Record VSockConfig := MkVSock { to_host : bool; cid : Z; port : Z }.
Inductive SocketSpec := VSock (v : VSockConfig) | Unix (path : string).
Definition VMADDR_CID_HOST : Z := 2.

Definition vsock_failure : string := "VSOCK spec should have format [[s]CID:]port".
Definition vsock_from_str (s : string) : res VSockConfig :=
  '(th, c, s) ← match split_once ":" s with
                | Some (prefix, suffix) =>
                    let '(th, prefix) := match prefix with
                                         | String "s" r => (true, r)
                                         | _ => (false, prefix)
                                         end%char in
                    c ← ok_or vsock_failure (parse_dec_u32 prefix);
                    Ok (th, c, suffix)
                | None => Ok (false, VMADDR_CID_HOST, s)
                end;
  p ← ok_or vsock_failure (parse_dec_u32 s);
  Ok (MkVSock th c p).
Definition vsock_fmt (v : VSockConfig) : string :=
  if (cid v =? VMADDR_CID_HOST) && negb (to_host v) then show_u (port v)
  else (if to_host v then "s" else "") +:+ show_u (cid v) +:+ ":" +:+ show_u (port v).

(** ** Video settings *)
Inductive VideoFormat := H264 | VP9 | AV1.
Inductive CodecPreference := SW | HW.
#[export] Instance CodecPreference_eq_dec : EqDecision CodecPreference.
Proof. solve_decision. Defined.

Class F32 := { f32 : Type; parse_f32 : string -> option f32; show_f32 : f32 -> string }.
(** Rust documents that what [Display] prints for a number is read back as the same number. *)
Class F32Laws (F : F32) (number : f32 -> Prop) : Prop := {
  f32_reads_back x : number x -> parse_f32 (show_f32 x) = Some x;
  f32_no_comma x : number x -> has_char "," (show_f32 x) = false }.

Section Video.
Context `{F : F32}.
Record VideoSetting := MkVideo {
  format : option VideoFormat; bits_per_frame : option f32;
  enc_pref : option CodecPreference; dec_pref : option CodecPreference }.

Definition video_failure : string := "Video spec should be comma-separated list containing any of: 'none', 'h264', 'vp9', 'av1', 'sw', 'hw', 'hwenc', 'swenc', 'hwdec', 'swdec', 'bpf=<real>'".
Definition video_chunk (f : VideoSetting) (chunk : string) : res VideoSetting :=
  let set_format x := MkVideo x (bits_per_frame f) (enc_pref f) (dec_pref f) in
  let set_pref e d := MkVideo (format f) (bits_per_frame f) e d in
  if String.eqb chunk "none" then Ok (set_format None)
  else if String.eqb chunk "hw" then Ok (set_pref (Some HW) (Some HW))
  else if String.eqb chunk "sw" then Ok (set_pref (Some SW) (Some SW))
  else if String.eqb chunk "swenc" then Ok (set_pref (Some SW) (dec_pref f))
  else if String.eqb chunk "hwenc" then Ok (set_pref (Some HW) (dec_pref f))
  else if String.eqb chunk "swdec" then Ok (set_pref (enc_pref f) (Some SW))
  else if String.eqb chunk "hwdec" then Ok (set_pref (enc_pref f) (Some HW))
  else if String.eqb chunk "h264" then Ok (set_format (Some H264))
  else if String.eqb chunk "vp9" then Ok (set_format (Some VP9))
  else if String.eqb chunk "av1" then Ok (set_format (Some AV1))
  else match strip_prefix "bpf=" chunk with
       | Some suffix =>
           b ← ok_or video_failure (parse_f32 suffix);
           Ok (MkVideo (format f) (Some b) (enc_pref f) (dec_pref f))
       | None => Err video_failure
       end.
Definition video_from_str (s : string) : res VideoSetting :=
  foldM video_chunk (MkVideo None None None None) (split_terminator "," s).

Definition video_fmt (v : VideoSetting) : string :=
  match format v with
  | Some H264 => "h264"
  | Some AV1 => "av1"
  | Some VP9 => "vp9"
  | None => "none"
  end +:+
  (if bool_decide (enc_pref v = Some SW) && bool_decide (dec_pref v = Some SW) then ",sw"
   else if bool_decide (enc_pref v = Some HW) && bool_decide (dec_pref v = Some HW) then ",hw"
   else match enc_pref v with Some SW => ",swenc" | Some HW => ",hwenc" | None => "" end +:+
        match dec_pref v with Some SW => ",swdec" | Some HW => ",hwdec" | None => "" end) +:+
  match bits_per_frame v with Some bpf => ",bpf=" +:+ show_f32 bpf | None => "" end.
End Video.
Arguments VideoSetting : clear implicits.
Arguments VideoSetting {F}.

(** ** What is printed is read back *)
Lemma has_char_digits c fuel : digit_val c = None -> forall n acc, 0 <= n ->
  has_char c (dec_digits fuel n acc) = has_char c acc.
Proof.
  intros Hc. assert (Hd : forall n, Ascii.eqb (digit_char (n mod 10)) c = false).
  { intros n. apply Ascii.eqb_neq. intros <-. rewrite digit_val_char in Hc; [done|]. apply Z.mod_pos_bound. lia. }
  induction fuel as [|fuel IH]; intros n acc Hn; cbn [dec_digits].
  - cbn [has_char]. by rewrite Hd.
  - case_match; [cbn [has_char]; by rewrite Hd|]. rewrite IH by (apply Z.div_pos; lia). cbn [has_char]. by rewrite Hd.
Qed.
Lemma has_char_show_u c n : digit_val c = None -> 0 <= n -> has_char c (show_u n) = false.
Proof. intros. unfold show_u. by rewrite has_char_digits. Qed.

Definition vsock_wf (v : VSockConfig) : Prop := uN 32 (cid v) /\ uN 32 (port v).

Lemma vsock_roundtrip v : vsock_wf v -> vsock_from_str (vsock_fmt v) = Ok v.
Proof.
  destruct v as [th c p]. intros [[Hc1 Hc2] [Hp1 Hp2]]. cbn in Hc1, Hc2, Hp1, Hp2. unfold vsock_fmt. cbn [to_host cid port].
  assert (Hpp : parse_dec_u32 (show_u p) = Some p) by (apply parse_int_show_u; lia).
  assert (Hpc : parse_dec_u32 (show_u c) = Some c) by (apply parse_int_show_u; lia).
  unfold vsock_from_str. destruct (_ && _) eqn:E.
  - apply andb_true_iff in E as [E1 E2]. apply Z.eqb_eq in E1. destruct th; [done|].
    rewrite split_once_none by (by apply has_char_show_u). cbn [mbind res_bind]. rewrite Hpp. cbn. by subst.
  - destruct th.
    + change ("s" +:+ show_u c +:+ ":" +:+ show_u p) with (String "s" (show_u c) +:+ String ":" (show_u p)).
      rewrite split_once_app by (cbn [has_char]; by rewrite has_char_show_u). cbn [mbind res_bind]. rewrite Hpc.
      cbn [ok_or mbind res_bind]. by rewrite Hpp.
    + change ("" +:+ show_u c +:+ ":" +:+ show_u p) with (show_u c +:+ String ":" (show_u p)).
      rewrite split_once_app by (by apply has_char_show_u).
      assert (Es : forall s, has_char "s" s = false ->
        (match s with String "s" r => (true, r) | _ => (false, s) end)%char = (false, s)).
      { intros [|[[] [] [] [] [] [] [] []] s]; done. }
      rewrite Es by (by apply has_char_show_u). rewrite Hpc. cbn [ok_or mbind res_bind]. by rewrite Hpp.
Qed.

Section VideoRoundTrip.
Context {F : F32} {number : f32 -> Prop} {FL : F32Laws F number}.
#[local] Set Default Proof Using "All".

Lemma split_on_app c a b : split_on c (a +:+ String c b) = split_on c a ++ split_on c b.
Proof.
  induction a as [|d a IH].
  - change (split_on c (String c b) = EmptyString :: split_on c b). cbn [split_on]. by rewrite Ascii.eqb_refl.
  - rewrite sapp_cons. cbn [split_on]. destruct (Ascii.eqb d c); [by rewrite IH|]. rewrite IH.
    assert (split_on c a <> []).
    { destruct a as [|e a]; [done|]. cbn [split_on]. case_match; [done|]. by destruct (split_on c a). }
    by destruct (split_on c a).
Qed.

Lemma video_roundtrip (v : VideoSetting) :
  (forall x, bits_per_frame v = Some x -> number x) -> video_from_str (video_fmt v) = Ok v.
Proof.
  destruct v as [fmt bpf enc dec]. intros Hn.
  assert (Hbase : foldM video_chunk (MkVideo None None None None) (split_on "," (video_fmt (MkVideo fmt None enc dec)))
    = Ok (MkVideo fmt None enc dec)) by (by destruct fmt as [[]|], enc as [[]|], dec as [[]|]).
  destruct bpf as [x|]; [|by destruct fmt as [[]|], enc as [[]|], dec as [[]|]].
  pose proof (f32_reads_back x (Hn x eq_refl)) as Hx. pose proof (f32_no_comma x (Hn x eq_refl)) as Hc.
  assert (E : video_fmt (MkVideo fmt (Some x) enc dec)
    = video_fmt (MkVideo fmt None enc dec) +:+ String "," ("bpf=" +:+ show_f32 x))
    by (by destruct fmt as [[]|], enc as [[]|], dec as [[]|]).
  unfold video_from_str, split_terminator. rewrite E, split_on_app.
  rewrite (split_on_plain "," ("bpf=" +:+ show_f32 x)) by done.
  rewrite List.last_last. change ("bpf=" +:+ show_f32 x) with (String "b" ("pf=" +:+ show_f32 x)) at 1.
  cbv beta iota. rewrite foldM_app, Hbase. cbn [mbind res_bind foldM].
  replace (video_chunk _ _) with (Ok (MkVideo fmt (Some x) enc dec)); [done|].
  unfold video_chunk. rewrite strip_prefix_app, Hx. done.
Qed.
End VideoRoundTrip.

(** ** Options and the arguments of a connection process *)
Record Options `{F32} := MkOptions {
  debug : bool; no_gpu : bool; compression : Compression; threads : Z; title_prefix : string;
  drm_node : option string; video : VideoSetting; debug_store_video : option string;
  test_skip_vulkan : bool; test_no_timeline_export : bool; test_no_binary_semaphore_import : bool }.
Arguments MkOptions {_}.

Definition when (b : bool) (l : list string) : list string := if b then l else [].
Lemma when_true l : when true l = l.
Proof. done. Qed.
Definition socket_word (s : SocketSpec) : string := match s with VSock v => vsock_fmt v | Unix p => p end.
Definition is_vsock (s : SocketSpec) : bool := match s with VSock _ => true | Unix _ => false end.

Definition build_connection_command `{F32} (socket_path : SocketSpec) (options : Options) (client anti_staircase : bool) :
  res (list string) :=
  assert_ (match drm_node options with Some _ => negb client | None => true end);;
  let middle :=
    when (is_vsock socket_path) ["--vsock"] ++
    when (debug options) ["-d"] ++ when (no_gpu options) ["-n"] ++
    ["--threads"; show_u (threads options); "-c"; compression_fmt (compression options)] ++
    when (negb (String.eqb (title_prefix options) "")) ["--title-prefix"; title_prefix options] ++
    when (bool_decide (is_Some (format (video options)))) ["--video=" +:+ video_fmt (video options)] ++
    match drm_node options with Some d => ["--drm-node"; d] | None => [] end ++
    when anti_staircase ["--anti-staircase"] ++
    match debug_store_video options with Some p => ["--test-store-video"; p] | None => [] end ++
    when (test_skip_vulkan options) ["--test-skip-vulkan"] ++
    when (test_no_timeline_export options) ["--test-no-timeline-export"] ++
    when (test_no_binary_semaphore_import options) ["--test-no-binary-semaphore-import"] in
  Ok (["-s"; socket_word socket_path] ++ middle ++ [if client then "client-conn" else "server-conn"]).

(** ** Whole reads and writes *)

(** What the kernel does with one call on a blocking descriptor: moves at most [n] bytes, is
    interrupted, or fails. *)
Inductive IoAnswer := Moves (n : nat) | EINTR | Fails.
#[export] Instance IoAnswer_eq_dec : EqDecision IoAnswer.
Proof. solve_decision. Defined.
(** A loop that waits for an answer that is not there has no result yet ([None]). [read_exact] gives
    the bytes read and those left in the stream; [Err None] of the source is [Err "EOF"]. *)
Fixpoint read_exact (answers : list IoAnswer) (data : bytes) (len : nat) (stream : bytes) : option (res (bytes * bytes)) :=
  if (len <=? length data)%nat then Some (Ok (data, stream)) else
  match answers with
  | [] => None
  | Moves n :: answers =>
      let s := Nat.min n (len - length data) in
      match take s stream with
      | [] => Some (Err "EOF")
      | got => read_exact answers (data ++ got) len (drop s stream)
      end
  | EINTR :: answers => read_exact answers data len stream
  | Fails :: _ => Some (Err "read failed")
  end.
Fixpoint write_exact (answers : list IoAnswer) (data : bytes) (offset : nat) (stream : bytes) : option (res bytes) :=
  if (length data <=? offset)%nat then Some (Ok stream) else
  match answers with
  | [] => None
  | Moves n :: answers =>
      let s := Nat.min n (length data - offset) in
      write_exact answers data (offset + s) (stream ++ take s (drop offset data))
  | EINTR :: answers => write_exact answers data offset stream
  | Fails :: _ => Some (Err "write failed")
  end.

(** ** The connection header *)
Definition CONN_FIXED_BIT : Z := Z.shiftl 1 7.
Definition CONN_UNSET_BIT : Z := Z.shiftl 1 31.
Definition CONN_NO_DMABUF_SUPPORT : Z := Z.shiftl 1 2.
Definition CONN_COMPRESSION_MASK : Z := Z.shiftl 7 8.
Definition CONN_NO_COMPRESSION : Z := Z.shiftl 1 8.
Definition CONN_LZ4_COMPRESSION : Z := Z.shiftl 2 8.
Definition CONN_ZSTD_COMPRESSION : Z := Z.shiftl 3 8.
Definition CONN_NO_VIDEO : Z := Z.shiftl 1 11.
Definition CONN_VP9_VIDEO : Z := Z.shiftl 2 11.
Definition CONN_H264_VIDEO : Z := Z.shiftl 3 11.
Definition CONN_AV1_VIDEO : Z := Z.shiftl 4 11.

Definition compression_bits (c : Compression) : Z :=
  match c with CompNone => CONN_NO_COMPRESSION | Lz4 _ => CONN_LZ4_COMPRESSION | Zstd _ => CONN_ZSTD_COMPRESSION end.
Definition video_bits (f : option VideoFormat) : Z :=
  match f with
  | Some H264 => CONN_H264_VIDEO
  | Some VP9 => CONN_VP9_VIDEO
  | Some AV1 => CONN_AV1_VIDEO
  | None => CONN_NO_VIDEO
  end.

(** The version that a server connection offers. *)
Definition offered_version (wire_version_override : option Z) : Z :=
  match wire_version_override with
  | Some x => Z.max MIN_PROTOCOL_VERSION (Z.min x WAYPIPE_PROTOCOL_VERSION)
  | None => WAYPIPE_PROTOCOL_VERSION
  end.
Definition header_lead `{F32} (opts : Options) (wire_version_override : option Z) : Z :=
  let ver := offered_version wire_version_override in
  let ver_hi := Z.shiftr ver 4 in
  let ver_lo := Z.land ver (Z.shiftl 1 4 - 1) in
  let lead := Z.lor (Z.lor (Z.shiftl ver_hi 16) (Z.shiftl ver_lo 3)) CONN_FIXED_BIT in
  let lead := Z.lor lead (compression_bits (compression opts)) in
  let lead := if no_gpu opts then Z.lor lead CONN_NO_DMABUF_SUPPORT else lead in
  Z.lor lead (video_bits (format (video opts))).

(** [handle_server_conn] up to the main loop: writes the header. The main loop starts at the
    lowest version. *)
Definition handle_server_conn `{F32} (opts : Options) (wire_version_override : option Z) (answers : list IoAnswer)
    (link : bytes) : option (res (bytes * Z)) :=
  let header := to_le 4 (header_lead opts wire_version_override) ++ replicate 12 Byte.x00 in
  r ← write_exact answers header 0 link;
  Some (match r with
        | Ok link => Ok (link, MIN_PROTOCOL_VERSION)
        | Err _ => Err "Failed to write connection header"
        | Panic => Panic
        end).

(** The checks of [handle_client_conn]: the version for the main loop. *)
Definition check_header `{F32} (opts : Options) (header : Z) : res Z :=
  if (Z.land header CONN_FIXED_BIT =? 0) && negb (Z.land header CONN_UNSET_BIT =? 0)
  then Err "Header failure: possible endianness mismatch, or garbage input" else
  let version := Z.lor (Z.shiftl (Z.land (Z.shiftr header 16) 0xff) 4) (Z.land (Z.shiftr header 3) 0xf) in
  let min_version := Z.min version WAYPIPE_PROTOCOL_VERSION in
  if negb (Z.land header CONN_COMPRESSION_MASK =? compression_bits (compression opts))
  then Err "Header compression failure" else Ok min_version.
Definition handle_client_conn `{F32} (opts : Options) (answers : list IoAnswer) (link : bytes) : option (res (Z * bytes)) :=
  r ← read_exact answers [] 16 link;
  Some (match r with
        | Ok (buf, link) => (b ← get_range buf 0 4; v ← check_header opts (from_le b); Ok (v, link))
        | Err _ => Err "Failed to read connection header"
        | Panic => Panic
        end).

(** Answers that do not fail and move something; how many move something. *)
Definition working (answers : list IoAnswer) : Prop :=
  Forall (fun a => match a with Moves n => (0 < n)%nat | EINTR => True | Fails => False end) answers.
Definition moves (answers : list IoAnswer) : nat :=
  length (filter (fun a => a <> EINTR) answers).

Lemma write_exact_ok answers : forall data offset stream, working answers -> (offset <= length data)%nat ->
  (length data - offset <= moves answers)%nat ->
  write_exact answers data offset stream = Some (Ok (stream ++ drop offset data)).
Proof.
  induction answers as [|a answers IH]; intros data offset stream Hw Ho Hm; cbn [write_exact].
  { cbn in Hm. replace (_ <=? _)%nat with true by (symmetry; apply Nat.leb_le; lia).
    by rewrite drop_ge, app_nil_r by lia. }
  destruct (Nat.leb_spec (length data) offset); [by rewrite drop_ge, app_nil_r by lia|].
  apply Forall_cons in Hw as [Ha Hw]. unfold moves in Hm. rewrite filter_cons in Hm. destruct a as [n| |]; [| |done].
  - rewrite decide_True in Hm by done. cbn in Hm. fold (moves answers) in Hm.
    set (s := Nat.min n (length data - offset)). rewrite IH by (done || lia).
    rewrite <- app_assoc. do 3 f_equal. rewrite <- drop_drop. apply take_drop.
  - rewrite decide_False in Hm by tauto. by apply IH.
Qed.
Lemma read_exact_ok answers : forall data len stream, working answers -> (length data <= len)%nat ->
  (len - length data <= moves answers)%nat -> (len - length data <= length stream)%nat ->
  read_exact answers data len stream
  = Some (Ok (data ++ take (len - length data) stream, drop (len - length data) stream)).
Proof.
  induction answers as [|a answers IH]; intros data len stream Hw Hl Hm Hs; cbn [read_exact].
  { cbn in Hm. replace (_ <=? _)%nat with true by (symmetry; apply Nat.leb_le; lia).
    replace (len - length data)%nat with 0%nat by lia. by rewrite take_0, drop_0, app_nil_r. }
  destruct (Nat.leb_spec len (length data)).
  { replace (len - length data)%nat with 0%nat by lia. by rewrite take_0, drop_0, app_nil_r. }
  apply Forall_cons in Hw as [Ha Hw]. unfold moves in Hm. rewrite filter_cons in Hm. destruct a as [n| |]; [| |done].
  - rewrite decide_True in Hm by done. cbn in Hm. fold (moves answers) in Hm.
    set (s := Nat.min n (len - length data)). assert (Hts : length (take s stream) = s) by (rewrite length_take; lia).
    destruct (take s stream) as [|x l] eqn:E; [cbn in Hts; lia|]. rewrite <- E in *.
    rewrite IH by (rewrite ?length_app, ?length_drop; done || lia).
    rewrite length_app, Hts, <- app_assoc. replace (len - (length data + s))%nat with (len - length data - s)%nat by lia.
    do 3 f_equal.
    + rewrite <- (take_drop s stream) at 3. rewrite take_app_ge by lia. by rewrite Hts.
    + rewrite drop_drop. f_equal. lia.
  - rewrite decide_False in Hm by tauto. by apply IH.
Qed.

(** C35: two connections agree on version and compression, however the kernel cuts the 16 bytes of the
    header: with the same kind of compression on both sides, the client's main loop gets exactly
    the version that the server offers, one of 16 and 17; otherwise the client refuses the
    connection. Nothing after the header is consumed. *)
Theorem connection_header_negotiates `{F32} (so co : Options) ov wa ra rest :
  working wa -> working ra -> (16 <= moves wa)%nat -> (16 <= moves ra)%nat ->
  exists link,
    handle_server_conn so ov wa [] = Some (Ok (link, MIN_PROTOCOL_VERSION)) /\
    MIN_PROTOCOL_VERSION <= offered_version ov <= WAYPIPE_PROTOCOL_VERSION /\
    handle_client_conn co ra (link ++ rest) =
      Some (if compression_bits (compression so) =? compression_bits (compression co)
            then Ok (offered_version ov, rest) else Err "Header compression failure").
Proof.
  intros Hwa Hra Hma Hmr. set (lead := header_lead so ov).
  set (link := to_le 4 lead ++ replicate 12 Byte.x00). exists link.
  assert (Hlen : length link = 16%nat) by done.
  unfold handle_server_conn. fold lead. fold link. rewrite write_exact_ok by (done || lia).
  rewrite drop_0. cbn [mbind option_bind app]. split; [done|].
  assert (Hv : offered_version ov = 16 \/ offered_version ov = 17).
  { unfold offered_version, MIN_PROTOCOL_VERSION, WAYPIPE_PROTOCOL_VERSION. destruct ov; lia. }
  split; [unfold MIN_PROTOCOL_VERSION, WAYPIPE_PROTOCOL_VERSION; lia|].
  unfold handle_client_conn.
  rewrite read_exact_ok; [|done|cbn; lia|cbn [length]; lia|rewrite length_app, Hlen; cbn [length]; lia].
  change (16 - length [])%nat with 16%nat. rewrite <- Hlen, take_app_length, drop_app_length. cbn [mbind option_bind app].
  assert (Hr : uN 32 lead /\ check_header co lead =
    if compression_bits (compression so) =? compression_bits (compression co)
    then Ok (offered_version ov) else Err "Header compression failure").
  { unfold lead, header_lead, check_header. destruct Hv as [-> | ->];
      destruct (compression so), (compression co), (no_gpu so), (format (video so)) as [[]|];
      by vm_compute; repeat split. }
  destruct Hr as [Hu Hc]. rewrite get_range_ok by (unfold zlen; lia). cbn [mbind res_bind].
  replace (slice link 0 4) with (to_le 4 lead) by done. rewrite from_to_le4 by done. rewrite Hc.
  by destruct (_ =? _).
Qed.

(** Two numbers, for examples. *)
#[export] Instance two_numbers : F32 := {
  f32 := bool; show_f32 b := if b then "1" else "0";
  parse_f32 s := if String.eqb s "1" then Some true else if String.eqb s "0" then Some false else None }.
#[export] Instance two_numbers_laws : F32Laws two_numbers (fun _ => True).
Proof. by split; intros []. Qed.

Definition demo_options (c : Compression) : Options :=
  MkOptions false true c 0 "" None (MkVideo (Some VP9) (Some true) (Some HW) None) None false false false.

Lemma connection_header_negotiates_witness :
  exists link,
    handle_server_conn (demo_options (Lz4 3)) (Some 16) (replicate 16 (Moves 5)) [] = Some (Ok (link, 16)) /\
    MIN_PROTOCOL_VERSION <= 16 <= WAYPIPE_PROTOCOL_VERSION /\
    handle_client_conn (demo_options (Lz4 0)) (EINTR :: replicate 16 (Moves 3)) (link ++ [Byte.x41]) = Some (Ok (16, [Byte.x41])).
Proof.
  apply (connection_header_negotiates (demo_options (Lz4 3)) (demo_options (Lz4 0)) (Some 16) (replicate 16 (Moves 5))
    (EINTR :: replicate 16 (Moves 3)) [Byte.x41]); [| |vm_compute; lia|vm_compute; lia];
    repeat (apply Forall_cons; split; [lia || done|]); by apply Forall_nil.
Defined.

(** what a process prints into the arguments of another is read back there as it was: VSOCK
    addresses, video settings and compression settings. *)
Theorem option_values_roundtrip {F : F32} {number : f32 -> Prop} {FL : F32Laws F number} (v : VSockConfig)
    (s : VideoSetting) (c : Compression) :
  vsock_wf v -> (forall x, bits_per_frame s = Some x -> number x) -> compression_wf c ->
  vsock_from_str (vsock_fmt v) = Ok v /\ video_from_str (video_fmt s) = Ok s /\
  compression_from_str (compression_fmt c) = Ok c.
Proof. intros. split_and!; [by apply vsock_roundtrip|by eapply video_roundtrip|by apply compression_roundtrip]. Qed.

Lemma option_values_roundtrip_witness :
  let v := MkVSock true 3 4294967295 in
  let s := MkVideo (Some AV1) (Some true) (Some SW) (Some HW) in
  vsock_fmt v = "s3:4294967295" /\ video_fmt s = "av1,swenc,hwdec,bpf=1" /\
  vsock_from_str "s3:4294967295" = Ok v /\ video_from_str "av1,swenc,hwdec,bpf=1" = Ok s /\
  compression_from_str (compression_fmt (Zstd (-7))) = Ok (Zstd (-7)).
Proof.
  intros v s. split; [done|]. split; [done|].
  apply (option_values_roundtrip v s (Zstd (-7))); [unfold vsock_wf, uN; cbn; lia|done|unfold compression_wf, iN; lia].
Defined.

(** ** ssh *)
Definition arg_letters : list ascii := String.list_ascii_of_string "BbcDEeFIiJLlmOopQRSWw".
Definition is_arg_letter (c : ascii) : bool := existsb (Ascii.eqb c) arg_letters.

(** The loop over the letters of a word, from its second one on. *)
Fixpoint scan_letters (letters : string) (dst_idx : nat) (allocates_pty : bool) : nat * bool :=
  match letters with
  | EmptyString => (dst_idx, allocates_pty)
  | String c rest =>
      if is_arg_letter c
      then scan_letters rest (match rest with EmptyString => S dst_idx | _ => dst_idx end) allocates_pty
      else if Ascii.eqb c "t" then scan_letters rest dst_idx true
      else if Ascii.eqb c "T" then scan_letters rest dst_idx false
      else scan_letters rest dst_idx allocates_pty
  end.
Fixpoint locate_loop (fuel : nat) (ssh_args : list string) (dst_idx : nat) (allocates_pty : bool) : res (nat * bool) :=
  match fuel with
  | O => Panic
  | S fuel =>
      match ssh_args !! dst_idx with
      | None => Ok (dst_idx, allocates_pty)
      | Some base_arg =>
          match strip_prefix "-" base_arg with
          | None => Ok (dst_idx, allocates_pty)
          | Some EmptyString => Err "Failed to parse arguments after ssh: single '-'?"
          | Some letters =>
              if String.eqb base_arg "--" then Ok (S dst_idx, allocates_pty) else
              let '(i, p) := scan_letters letters dst_idx allocates_pty in
              locate_loop fuel ssh_args (S i) p
          end
      end
  end.
(** Every turn moves on by a word, so that as many turns as words and one are enough. *)
Definition locate_openssh_cmd_hostname (ssh_args : list string) : res (nat * bool) :=
  '(dst_idx, allocates_pty) ← locate_loop (S (length ssh_args)) ssh_args 0 false;
  match ssh_args !! dst_idx with
  | None => Err "Failed to locate ssh hostname"
  | Some w => if starts_with "-" w then Err "Failed to locate ssh hostname" else Ok (dst_idx, allocates_pty)
  end.

(** Options as ssh documents them, each value in a word of its own: letters of options without
    a value, perhaps one of an option with a value and then that value. Before and after them: is a
    terminal asked for? *)
Fixpoint flags (letters : string) : bool :=
  match letters with EmptyString => true | String c l => negb (is_arg_letter c) && flags l end.
Fixpoint pty_after (letters : string) (p : bool) : bool :=
  match letters with
  | EmptyString => p
  | String c l => pty_after l (if Ascii.eqb c "t" then true else if Ascii.eqb c "T" then false else p)
  end.
Inductive ssh_options : list string -> bool -> bool -> Prop :=
| no_option p : ssh_options [] p p
| flag_option letters l p q : letters <> EmptyString -> letters <> "-" -> flags letters = true ->
    ssh_options l (pty_after letters p) q -> ssh_options (("-" +:+ letters) :: l) p q
| value_option letters c value l p q : flags letters = true -> is_arg_letter c = true ->
    ssh_options l (pty_after letters p) q -> ssh_options (("-" +:+ letters +:+ String c "") :: value :: l) p q.

Lemma scan_flags letters : forall i p, flags letters = true -> scan_letters letters i p = (i, pty_after letters p).
Proof.
  induction letters as [|c l IH]; intros i p; cbn [scan_letters flags pty_after]; [done|].
  intros [Hc Hl]%andb_true_iff. apply negb_true_iff in Hc. rewrite Hc.
  destruct (Ascii.eqb c "t"), (Ascii.eqb c "T"); by apply IH.
Qed.
Lemma scan_value letters c : forall i p, flags letters = true -> is_arg_letter c = true ->
  scan_letters (letters +:+ String c "") i p = (S i, pty_after letters p).
Proof.
  induction letters as [|d l IH]; intros i p.
  - intros _ Hc. change ("" +:+ String c "") with (String c ""). cbn [scan_letters]. by rewrite Hc.
  - rewrite sapp_cons. cbn [scan_letters flags pty_after]. intros [Hd Hl]%andb_true_iff Hc. apply negb_true_iff in Hd.
    rewrite Hd. destruct (Ascii.eqb d "t"), (Ascii.eqb d "T"); by apply IH.
Qed.
Lemma scan_letters_ge letters : forall i p, (i <= (scan_letters letters i p).1)%nat.
Proof.
  induction letters as [|c l IH]; intros i p; cbn [scan_letters]; [done|].
  destruct (is_arg_letter c); [etransitivity; [|apply IH]; destruct l; lia|].
  destruct (Ascii.eqb c "t"); [apply IH|]. destruct (Ascii.eqb c "T"); apply IH.
Qed.

Lemma locate_loop_total ssh_args fuel : forall i p, (0 < fuel)%nat -> (length ssh_args < i + fuel)%nat ->
  locate_loop fuel ssh_args i p <> Panic.
Proof.
  induction fuel as [|fuel IH]; intros i p H0 Hf; [lia|]. cbn [locate_loop].
  destruct (ssh_args !! i) eqn:E; [|done]. apply lookup_lt_Some in E.
  destruct (strip_prefix _ _) as [[|c l]|]; [done| |done].
  case_match; [done|]. pose proof (scan_letters_ge (String c l) i p) as Hge.
  destruct (scan_letters _ _ _) as [j q]. cbn in Hge. apply IH; lia.
Qed.

Lemma locate_options opts p q : ssh_options opts p q -> forall (pre tail : list string) (fuel : nat), (length opts < fuel)%nat ->
  exists fuel', (0 < fuel')%nat /\
    locate_loop fuel (pre ++ opts ++ tail) (length pre) p
    = locate_loop fuel' (pre ++ opts ++ tail) (length pre + length opts) q.
Proof.
  induction 1 as [p|letters l p q Hne Hn2 Hfl Ho IH|letters c value l p q Hfl Hc Ho IH]; intros pre tail fuel Hf.
  - exists fuel. cbn [length app] in *. rewrite Nat.add_0_r. split; [lia|done].
  - destruct fuel as [|fuel]; [cbn in Hf; lia|]. cbn [length app] in *.
    destruct (IH (pre ++ ["-" +:+ letters]) tail fuel ltac:(lia)) as (f' & Hf' & E). exists f'. split; [done|].
    rewrite <- app_assoc, length_app in E. cbn [app length] in E.
    replace (length pre + S (length l))%nat with (length pre + 1 + length l)%nat by lia. rewrite <- E. cbn [locate_loop]. rewrite list_lookup_middle by done. rewrite strip_prefix_app.
    destruct letters as [|d r]; [done|]. rewrite scan_flags by done. rewrite Nat.add_1_r.
    replace (String.eqb ("-" +:+ String d r) "--") with false; [done|]. symmetry. apply String.eqb_neq.
    intros [= -> ->]. done.
  - destruct fuel as [|fuel]; [cbn in Hf; lia|]. cbn [length app] in *.
    destruct (IH (pre ++ ["-" +:+ letters +:+ String c ""; value]) tail fuel ltac:(lia)) as (f' & Hf' & E). exists f'.
    split; [done|]. rewrite <- app_assoc, length_app in E. cbn [app length] in E.
    replace (length pre + S (S (length l)))%nat with (length pre + 2 + length l)%nat by lia. rewrite <- E.
    cbn [locate_loop]. rewrite list_lookup_middle by done. rewrite strip_prefix_app.
    destruct (letters +:+ String c "") as [|d r] eqn:El; [by destruct letters|]. rewrite <- El.
    rewrite scan_value by done. replace (length pre + 2)%nat with (S (S (length pre))) by lia.
    replace (String.eqb ("-" +:+ letters +:+ String c "") "--") with false; [done|]. symmetry. apply String.eqb_neq.
    rewrite El. intros [= -> ->]. destruct letters as [|d' [|]]; [injection El as ->; done|done|done].
Qed.

(** finding the hostname among the arguments of ssh always ends, and for options whose values are
    words of their own, with or without a `--` after them, it finds the word after the options and
    whether a terminal is asked for (by the last of the letters `t` and `T`). *)
Theorem hostname_located opts q host rest args :
  ssh_options opts false q -> starts_with "-" host = false ->
  locate_openssh_cmd_hostname (opts ++ host :: rest) = Ok (length opts, q) /\
  locate_openssh_cmd_hostname (opts ++ "--" :: host :: rest) = Ok (S (length opts), q) /\
  locate_openssh_cmd_hostname args <> Panic.
Proof.
  intros Ho Hh. unfold locate_openssh_cmd_hostname.
  assert (Hs : strip_prefix "-" host = None) by (unfold strip_prefix, starts_with in *; by rewrite Hh).
  split_and!.
  - destruct (locate_options opts false q Ho [] (host :: rest) (S (length (opts ++ host :: rest)))) as (f & Hf & E);
      [rewrite length_app; cbn; lia|]. cbn [app length Nat.add] in E. rewrite E.
    destruct f as [|f]; [lia|]. cbn [locate_loop]. rewrite list_lookup_middle by done. rewrite Hs. cbn [mbind res_bind].
    rewrite list_lookup_middle by done. by rewrite Hh.
  - destruct (locate_options opts false q Ho [] ("--" :: host :: rest) (S (length (opts ++ "--" :: host :: rest)))) as (f & Hf & E);
      [rewrite length_app; cbn; lia|]. cbn [app length Nat.add] in E. rewrite E.
    destruct f as [|f]; [lia|]. cbn [locate_loop]. rewrite list_lookup_middle by done.
    change (strip_prefix "-" "--") with (Some "-"). change (String.eqb "--" "--") with true. cbn [mbind res_bind].
    replace (opts ++ "--" :: host :: rest) with ((opts ++ ["--"]) ++ host :: rest) by (by rewrite <- app_assoc).
    rewrite list_lookup_middle by (rewrite length_app, Nat.add_1_r; done). by rewrite Hh.
  - pose proof (locate_loop_total args (S (length args)) 0 false ltac:(lia) ltac:(lia)) as Hp.
    destruct (locate_loop _ _ _ _) as [[i p]|msg|]; cbn [mbind res_bind]; [|done|done].
    destruct (args !! i) as [w|]; [|done]. by destruct (starts_with "-" w).
Qed.

Lemma hostname_located_witness :
  locate_openssh_cmd_hostname ["-At"; "-l"; "foo"; "host"; "command"] = Ok (3%nat, true) /\
  locate_openssh_cmd_hostname ["-At"; "-l"; "foo"; "--"; "host"; "command"] = Ok (4%nat, true) /\
  locate_openssh_cmd_hostname ["-"] <> Panic.
Proof.
  apply (hostname_located ["-At"; "-l"; "foo"] true "host" ["command"] ["-"]); [|done].
  apply (flag_option "At" ["-l"; "foo"] false true); [done..|]. apply (value_option "" "l" "foo" [] _ true); [done..|].
  apply no_option.
Defined.

(** letters of a value that is attached to its option are taken for options: with the user `bob`
    attached to `-l` no hostname is found, or the command is taken for it; a `t` in the user name
    is taken for a request for a terminal. In the words of the unit test `test_ssh_parsing`,
    `command` is found and not `host`. *)
Theorem attached_values_misread host command :
  starts_with "-" host = false -> starts_with "-" command = false ->
  locate_openssh_cmd_hostname ["-lbob"; host] = Err "Failed to locate ssh hostname" /\
  locate_openssh_cmd_hostname ["-lbob"; host; command] = Ok (2%nat, false) /\
  locate_openssh_cmd_hostname ["-lkurt"; host; command] = Ok (1%nat, true) /\
  locate_openssh_cmd_hostname ["-tlfoo"; host; command] = Ok (2%nat, true).
Proof.
  intros Hh Hc.
  assert (Hs : strip_prefix "-" host = None) by (unfold strip_prefix, starts_with in *; by rewrite Hh).
  assert (Hsc : strip_prefix "-" command = None) by (unfold strip_prefix, starts_with in *; by rewrite Hc).
  unfold locate_openssh_cmd_hostname. split_and!; try done.
  - change (locate_loop _ _ 0 false) with (locate_loop 3 ["-lbob"; host; command] 2 false). cbn [locate_loop lookup list_lookup].
    rewrite Hsc. cbn [mbind res_bind lookup list_lookup]. by rewrite Hc.
  - change (locate_loop _ _ 0 false) with (locate_loop 3 ["-lkurt"; host; command] 1 true). cbn [locate_loop lookup list_lookup].
    rewrite Hs. cbn [mbind res_bind lookup list_lookup]. by rewrite Hh.
  - change (locate_loop _ _ 0 false) with (locate_loop 3 ["-tlfoo"; host; command] 2 true). cbn [locate_loop lookup list_lookup].
    rewrite Hsc. cbn [mbind res_bind lookup list_lookup]. by rewrite Hc.
Qed.

Lemma attached_values_misread_witness :
  locate_openssh_cmd_hostname ["-lbob"; "host"] = Err "Failed to locate ssh hostname" /\
  locate_openssh_cmd_hostname ["-lbob"; "host"; "weston"] = Ok (2%nat, false) /\
  locate_openssh_cmd_hostname ["-lkurt"; "host"; "weston"] = Ok (1%nat, true) /\
  locate_openssh_cmd_hostname ["-tlfoo"; "host"; "weston"] = Ok (2%nat, true).
Proof. by apply (attached_values_misread "host" "weston"). Defined.

(** giving a DRM node to `waypipe client`, or to `waypipe ssh` for its own side, makes the process
    panic when it builds the arguments of its connections; the help text says that the node may be
    ignored. Nothing else makes [build_connection_command] fail. *)
Theorem client_drm_node_panics `{F32} socket_path (options : Options) client anti_staircase :
  (build_connection_command socket_path options client anti_staircase = Panic <->
   client = true /\ is_Some (drm_node options)) /\
  (forall args, build_connection_command socket_path options client anti_staircase = Ok args ->
     exists mid, args = ["-s"; socket_word socket_path] ++ mid ++ [if client then "client-conn" else "server-conn"]).
Proof.
  unfold build_connection_command. destruct (drm_node options) as [d|], client; cbn [negb assert_ mbind res_bind].
  - split; [split; [by eauto|done]|done].
  - split; [split; [done|by intros [? _]]|]. intros args [= <-]. eexists. reflexivity.
  - split; [split; [done|by intros [_ [? ?]]]|]. intros args [= <-]. eexists. reflexivity.
  - split; [split; [done|by intros [? _]]|]. intros args [= <-]. eexists. reflexivity.
Qed.

(** ** The commands that are run *)

(** [get_rand_tag]: ten alphanumeric characters from a random 128-bit number. *)
Definition tag_char (v : Z) : ascii :=
  Ascii.ascii_of_N (Z.to_N (if v <? 26 then v + 97 else if v <? 52 then v - 26 + 65 else v - 52 + 48)).
Fixpoint rand_tag_chars (k : nat) (n : Z) : string :=
  match k with O => EmptyString | S k => String (tag_char (n mod 62)) (rand_tag_chars k (n / 62)) end.
Definition get_rand_tag (n : Z) : string := rand_tag_chars 10 n.

(** The mode `ssh`: the socket for the client and the command to run. *)
Record SshSettings := MkSsh {
  loop_test : bool; sshbin : string; remotebin : string; oneshot : bool; use_xwls : bool;
  remote_node : option string; display : option string }.
Definition remote_settings `{F32} (st : SshSettings) (opts : Options) (needs_login_shell vsock : bool) : list string :=
  when (debug opts) ["--debug"] ++ when (oneshot st) ["--oneshot"] ++
  when needs_login_shell ["--login-shell"] ++ when (no_gpu opts) ["--no-gpu"] ++
  ["--unlink-socket"; "--threads"; show_u (threads opts)] ++
  match remote_node st with Some r => ["--drm-node"; r] | None => [] end ++
  ["--compress"; compression_fmt (compression opts)] ++
  when (bool_decide (is_Some (format (video opts)))) ["--video=" +:+ video_fmt (video opts)] ++
  when vsock ["--vsock"].
Definition remote_display `{F32} (st : SshSettings) (opts : Options) (wayland_display : string) : list string :=
  when (negb (oneshot st)) ["--display"; wayland_display] ++ when (use_xwls st) ["--xwls"] ++
  when (test_skip_vulkan opts) ["--test-skip-vulkan"] ++
  when (test_no_timeline_export opts) ["--test-no-timeline-export"] ++
  when (test_no_binary_semaphore_import opts) ["--test-no-binary-semaphore-import"].
Definition ssh_command `{F32} (st : SshSettings) (opts : Options) (client_socket server_socket : option SocketSpec)
    (rand_tag : string) (ssh_args : list string) : res (SocketSpec * list string) :=
  '(destination_idx, _) ← locate_openssh_cmd_hostname ssh_args;
  let needs_login_shell := Nat.eqb (S destination_idx) (length ssh_args) in
  let place kind s := s +:+ kind +:+ rand_tag +:+ ".sock" in
  let '(client_sock, client_sock_path) :=
    match default (Unix "/tmp/waypipe") client_socket with
    | Unix path => (Unix (place "-client-" path), place "-client-" path)
    | VSock v => (VSock v, "")
    end in
  let server_sock_path :=
    match default (Unix "/tmp/waypipe") server_socket with
    | Unix path => place "-server-" path
    | VSock v => vsock_fmt v
    end in
  let linkage := server_sock_path +:+ ":" +:+ client_sock_path in
  let wayland_display := match display st with Some p => p | None => "wayland-" +:+ rand_tag end in
  let ssh_part :=
    when (negb (loop_test st))
      ([sshbin st] ++ when needs_login_shell ["-t"] ++ when (negb (is_vsock client_sock)) ["-R"; linkage] ++
       take (S destination_idx) ssh_args) in
  Ok (client_sock, ssh_part ++ ("--" :: remotebin st :: remote_settings st opts needs_login_shell (is_vsock client_sock)) ++
                   ["--socket"; server_sock_path] ++ remote_display st opts wayland_display ++
                   "server" :: drop (S destination_idx) ssh_args).

(** The mode `server`: the command and its [argv0]. *)
Fixpoint after_last_slash (s : string) : option string :=
  match s with
  | EmptyString => None
  | String c r =>
      match after_last_slash r with
      | Some x => Some x
      | None => if Ascii.eqb c "/" then Some r else None
      end
  end.
Definition server_command (SHELL : option string) (subargs : option (list string)) (login_shell : bool) :
  res (list string * string) :=
  let '(shell, shell_argv0) :=
    match SHELL with
    | Some shell => (shell, "-" +:+ default shell (after_last_slash shell))
    | None => ("/bin/sh", "-sh")
    end in
  '(command, argv0) ← match subargs with
                      | Some s => y ← index s 0; Ok (s, y)
                      | None => Ok ([shell], shell_argv0)
                      end;
  first ← index command 0;
  Ok (command, if login_shell then argv0 else first).

(** [connect_to_wayland_display]: the path of the display. *)
Definition push_path (dir name : string) : string :=
  if starts_with "/" name then name
  else if String.eqb dir "" then name
  else match String.get (String.length dir - 1) dir with
       | Some c => if Ascii.eqb c "/" then dir +:+ name else dir +:+ "/" +:+ name
       | None => name
       end.
Definition wayland_display_path (WAYLAND_DISPLAY XDG_RUNTIME_DIR : option string) : res string :=
  wayl_disp ← ok_or "Missing environment variable WAYLAND_DISPLAY" WAYLAND_DISPLAY;
  if starts_with "/" wayl_disp then Ok wayl_disp
  else match XDG_RUNTIME_DIR with
       | Some dir => Ok (push_path dir wayl_disp)
       | None => Err "XDG_RUNTIME_DIR was not in environment"
       end.
Definition get_wayland_socket_id (WAYLAND_SOCKET : option string) : res (option Z) :=
  match WAYLAND_SOCKET with
  | Some x => y ← ok_or "Failed to parse connection fd" (parse_dec_i32 x); Ok (Some y)
  | None => Ok None
  end.

(** [run_client]: how connections are handled. *)
Inductive ClientRun :=
| RunOneshot (secctx wayland_socket : bool)
| RunMulti (secctx : bool) (wayland_display : string).
Definition run_client (secctx : option string) (oneshot wayland_socket : bool) (secctx_path : string)
    (WAYLAND_DISPLAY : option string) : res ClientRun :=
  match secctx with
  | Some _ => Ok (if oneshot then RunOneshot true wayland_socket else RunMulti true secctx_path)
  | None =>
      if oneshot || wayland_socket then Ok (RunOneshot false wayland_socket)
      else d ← ok_or "The environment variable WAYLAND_DISPLAY is not set, cannot connect to Wayland server." WAYLAND_DISPLAY;
           Ok (RunMulti false d)
  end.

Lemma sapp_assoc a b c : (a +:+ b) +:+ c = a +:+ b +:+ c.
Proof. induction a as [|d a IH]; [done|]. by rewrite !sapp_cons, IH. Qed.
Lemma sapp_inj a b c : a +:+ b = a +:+ c -> b = c.
Proof. induction a as [|d a IH]; [done|]. rewrite !sapp_cons. intros [= E]. by apply IH. Qed.

(** the command that the mode `ssh` runs joins the two sockets: ssh is told to forward the socket
    that the remote waypipe is told to use to the one that this process binds; the two have
    different paths; ssh gets the arguments up to the hostname and nothing else of the user's,
    and the remote waypipe those after it, as its command. *)
Theorem ssh_command_joins_sockets `{F32} st (opts : Options) prefix tag ssh_args idx pty :
  loop_test st = false -> locate_openssh_cmd_hostname ssh_args = Ok (idx, pty) ->
  exists client server login settings rest,
    ssh_command st opts (Some (Unix prefix)) (Some (Unix prefix)) tag ssh_args =
      Ok (Unix client, sshbin st :: login ++ ["-R"; server +:+ ":" +:+ client] ++ take (S idx) ssh_args ++
            "--" :: remotebin st :: settings ++ ["--socket"; server] ++ rest ++ "server" :: drop (S idx) ssh_args) /\
    (login = [] \/ login = ["-t"] /\ S idx = length ssh_args) /\ client <> server.
Proof.
  intros Hl Hloc. unfold ssh_command. rewrite Hloc. cbn [mbind res_bind default is_vsock negb]. rewrite Hl.
  set (login := Nat.eqb (S idx) (length ssh_args)).
  exists (prefix +:+ "-client-" +:+ tag +:+ ".sock"), (prefix +:+ "-server-" +:+ tag +:+ ".sock"), (when login ["-t"]),
    (remote_settings st opts login false),
    (remote_display st opts (match display st with Some p => p | None => "wayland-" +:+ tag end)).
  split; [|split].
  - unfold id. cbv beta iota. cbn [is_vsock negb]. rewrite !when_true. rewrite <- !app_assoc. reflexivity.
  - unfold login. destruct (Nat.eqb_spec (S idx) (length ssh_args)); [right|left]; done.
  - intros E%sapp_inj. done.
Qed.

Lemma ssh_command_joins_sockets_witness :
  let st := MkSsh false "ssh" "waypipe" false false None None in
  exists client server login settings rest,
    ssh_command st (demo_options CompNone) (Some (Unix "/tmp/w")) (Some (Unix "/tmp/w")) "abc" ["-p"; "22"; "host"; "weston"] =
      Ok (Unix client, "ssh" :: login ++ ["-R"; server +:+ ":" +:+ client] ++ ["-p"; "22"; "host"] ++
            "--" :: "waypipe" :: settings ++ ["--socket"; server] ++ rest ++ ["server"; "weston"]) /\
    (login = [] \/ login = ["-t"] /\ 3%nat = 4%nat) /\ client <> server.
Proof.
  apply (ssh_command_joins_sockets (MkSsh false "ssh" "waypipe" false false None None) (demo_options CompNone) "/tmp/w" "abc"
    ["-p"; "22"; "host"; "weston"] 2 false); done.
Defined.
