(* ===== verification/Supervise.v ===== *)
(** * Processes (src/main.rs)

    The main process of `waypipe server` and `waypipe client`: it runs a command, starts a process per
    connection, waits for children that stop, and exits with the command's code
    ([run_server_inner], [run_client_inner]); and the choice of an X display with its lock file
    ([choose_x_display]).

    What the kernel answers (a stopped child, a connection, the pid of a new process, an error) is an
    argument of each operation; [World] keeps the children for the steps of the whole. *)
From Stdlib Require Import ZArith Lia.
From stdpp Require Import gmap sets.
From S2P Require Import Prelude.
Local Open Scope Z_scope.

(** ** Children *)
Inductive Status := Exited (code : Z) | Signaled (sig : Z).
(** [wait_for_child] on the status of the child. *)
Definition exit_code (s : Status) : Z :=
  match s with
  | Exited code => wrap 8 code
  | Signaled sig => Z.min 255 (128 + wrap 8 sig)
  end.
Definition wait_for_child (child : option Status) : Z := match child with None => 0 | Some s => exit_code s end.

(** The answer of [waitid] for any child, without waiting for it. *)
Inductive WaitAnswer := Reports (pid : Z) (s : Status) | StillAlive | ECHILD | EINTR.

(** The main process: the pids of its command, of its connections and of xwayland-satellite, and
    whether it still holds the X sockets. *)
Record Sup := MkSup { cmd : option Z; connections : gset Z; xchild : option Z; xsock : bool }.

(** What handling one answer does: goes on after having waited for some child; leaves the loop;
    or ends the main loop, with the status of the command if that was waited for. *)
Inductive Turn := Next (s : Sup) (waited : Z) | Again | Leave | Stop (waited : option (Z * Status)).

(** [prune_connections]: a child that is not a connection is waited for too. *)
Definition prune_connections (s : Sup) (pid : Z) : Turn :=
  Next (MkSup (cmd s) (connections s ∖ {[pid]}) (xchild s) (xsock s)) pid.

(** The loop over stopped children of [run_server_inner]. *)
Definition server_wait (s : Sup) (a : WaitAnswer) : res Turn :=
  match a with
  | Reports pid st =>
      if bool_decide (cmd s = Some pid) then Ok (Stop (Some (pid, st)))
      else if bool_decide (xchild s = Some pid) then Ok (Next (MkSup (cmd s) (connections s) None (xsock s)) pid)
      else Ok (prune_connections s pid)
  | StillAlive => Ok Leave
  | ECHILD => Err "waitid reports no unwaited for children, but main command's status never found"
  | EINTR => Ok Again
  end.
(** The same loop of [run_client_inner]. *)
Definition client_wait (s : Sup) (a : WaitAnswer) : res Turn :=
  match a with
  | Reports pid st =>
      if bool_decide (cmd s = Some pid) then Ok (Stop (Some (pid, st)))
      else Ok (prune_connections s pid)
  | StillAlive | ECHILD | EINTR => Ok Leave
  end.

(** What [ppoll] reports: an error of a socket, a Wayland connection, an X connection. *)
Record Polled := MkPolled { pollerr : bool; wayland_conn : bool; x_conn : bool }.
(** What came of accepting a connection, making its descriptor blocking and starting its process, and of
    starting xwayland-satellite: the pid of the new process. *)
Inductive Accepted := NotAccepted | NotBlocking | NotSpawned | Spawned (pid : Z).

(** [spawn_connection_handler] and the insertion of the child. *)
Definition add_connection (s : Sup) (a : Accepted) : res Sup :=
  match a with
  | NotAccepted => Ok s
  | NotBlocking => Err "Failed to set blocking"
  | NotSpawned => Err "Failed to run connection subprocess"
  | Spawned pid =>
      if bool_decide (pid ∈ connections s) then Err "Pid reuse"
      else Ok (MkSup (cmd s) ({[pid]} ∪ connections s) (xchild s) (xsock s))
  end.

(** After the poll in [run_server_inner]. *)
Definition server_poll (s : Sup) (p : Polled) (xspawn : option Z) (a : Accepted) : res Sup :=
  if pollerr p then Err "Exiting, error occurred on Wayland (or Xwayland) socket" else
  let s := if x_conn p && xsock s
           then MkSup (cmd s) (connections s) (match xspawn with Some c => Some c | None => xchild s end) false
           else s in
  if wayland_conn p then add_connection s a else Ok s.
(** After the poll in [run_client_inner]: [None] ends the main loop. *)
Definition client_poll (s : Sup) (p : Polled) (a : Accepted) : res (option Sup) :=
  if pollerr p then Ok None else
  if wayland_conn p then s ← add_connection s a; Ok (Some s) else Ok (Some s).

(** The end of [run_server_multi]: the error of the main loop comes first, then that of unlinking the
    socket; the connections are waited for only when there is none. *)
Definition server_result (res : res Z) (sock_err : option string) (connections : gset Z) : Prelude.res (Z * gset Z) :=
  match res with
  | Ok code => match sock_err with Some e => Err e | None => Ok (code, ∅) end
  | Err e => Err e
  | Panic => Panic
  end.

(** ** The whole *)

(** The children that the main process has and has not waited for: running ones and stopped ones. *)
Record World := MkWorld { alive : gset Z; dead : gmap Z Status }.
Definition children (w : World) : gset Z := alive w ∪ dom (dead w).

(** What [waitid] with [WEXITED] may answer. *)
Definition may_answer (w : World) (a : WaitAnswer) : Prop :=
  match a with
  | Reports pid st => dead w !! pid = Some st
  | StillAlive => dead w = ∅ /\ alive w <> ∅
  | ECHILD => children w = ∅
  | EINTR => True
  end.

Definition opt_set (o : option Z) : gset Z := match o with Some x => {[x]} | None => ∅ end.
Definition accepted (a : Accepted) : gset Z := match a with Spawned pid => {[pid]} | _ => ∅ end.

(** Steps of the server: a child stops; a turn of the loop over stopped children; a poll that may
    start processes. The pid of a new process is none of a child that was not waited for. *)
Inductive server_step : World * Sup -> World * Sup -> Prop :=
| child_stops w s pid st : pid ∈ alive w ->
    server_step (w, s) (MkWorld (alive w ∖ {[pid]}) (<[pid := st]> (dead w)), s)
| child_waited w s a s' pid : may_answer w a -> server_wait s a = Ok (Next s' pid) ->
    server_step (w, s) (MkWorld (alive w) (delete pid (dead w)), s')
| polled w s p xspawn a s' : server_poll s p xspawn a = Ok s' ->
    let nx := if x_conn p && xsock s then opt_set xspawn else ∅ in
    let nc := if wayland_conn p then accepted a else ∅ in
    nx ## children w -> nc ## children w -> nx ## nc ->
    server_step (w, s) (MkWorld (nx ∪ nc ∪ alive w) (dead w), s').

(** The children are the command, the connections and xwayland-satellite. *)
Record tracked (w : World) (s : Sup) : Prop := {
  tr_all : children w = opt_set (cmd s) ∪ connections s ∪ opt_set (xchild s);
  tr_cmd : opt_set (cmd s) ## connections s /\ opt_set (cmd s) ## opt_set (xchild s) /\ connections s ## opt_set (xchild s);
  tr_apart : alive w ## dom (dead w);
  tr_x : xsock s = true -> xchild s = None;
  tr_has : is_Some (cmd s);
}.

Lemma stop_tracked w s pid st : tracked w s -> pid ∈ alive w ->
  tracked (MkWorld (alive w ∖ {[pid]}) (<[pid := st]> (dead w))) s.
Proof.
  intros [Hall Hc Ha Hx Hh] Hp. split; try done.
  - rewrite <- Hall. unfold children. cbn [alive dead]. rewrite dom_insert_L. apply set_eq. intros x.
    destruct (decide (x = pid)) as [->|]; set_solver.
  - cbn [alive dead]. rewrite dom_insert_L. set_solver.
Qed.

(** Which child an answer leads to. *)
Lemma wait_tracked w s pid st : tracked w s -> dead w !! pid = Some st ->
  (cmd s = Some pid /\ server_wait s (Reports pid st) = Ok (Stop (Some (pid, st)))) \/
  (pid ∈ connections s ∪ opt_set (xchild s) /\ cmd s <> Some pid /\
   exists s', server_wait s (Reports pid st) = Ok (Next s' pid) /\
     tracked (MkWorld (alive w) (delete pid (dead w))) s').
Proof.
  intros [Hall (Hc1 & Hc2 & Hc3) Ha Hx Hh] Hp. unfold server_wait.
  assert (Hin : pid ∈ children w) by (unfold children; apply elem_of_union; right; by apply elem_of_dom_2 in Hp).
  assert (Hdead : pid ∉ alive w) by (apply elem_of_dom_2 in Hp; set_solver).
  assert (Hch : children (MkWorld (alive w) (delete pid (dead w))) = children w ∖ {[pid]}).
  { unfold children. cbn [alive dead]. rewrite dom_delete_L. set_solver. }
  case_bool_decide as E1; [by left|right]. rewrite Hall in Hin.
  assert (Hnc : pid ∉ opt_set (cmd s)) by (destruct (cmd s); cbn; set_solver).
  split; [set_solver|]. split; [done|]. case_bool_decide as E2.
  - eexists. split; [done|]. rewrite E2 in *. cbn [opt_set] in *. split; cbn [cmd connections xchild xsock alive dead opt_set].
    + rewrite Hch, Hall. set_solver.
    + split; [done|]. set_solver.
    + rewrite dom_delete_L. set_solver.
    + done.
    + done.
  - assert (Hnx : pid ∉ opt_set (xchild s)) by (destruct (xchild s); cbn; set_solver).
    eexists. split; [done|]. split; cbn [cmd connections xchild xsock alive dead].
    + rewrite Hch, Hall. set_solver.
    + split; [set_solver|]. split; [done|set_solver].
    + rewrite dom_delete_L. set_solver.
    + done.
    + done.
Qed.

Lemma poll_tracked w s p xspawn a s' : tracked w s -> server_poll s p xspawn a = Ok s' ->
  let nx := if x_conn p && xsock s then opt_set xspawn else ∅ in
  let nc := if wayland_conn p then accepted a else ∅ in
  nx ## children w -> nc ## children w -> nx ## nc ->
  tracked (MkWorld (nx ∪ nc ∪ alive w) (dead w)) s'.
Proof.
  intros [Hall (Hc1 & Hc2 & Hc3) Ha Hx Hh] Hp nx nc Hnx Hnc Hn.
  assert (Hch : children (MkWorld (nx ∪ nc ∪ alive w) (dead w)) = nx ∪ nc ∪ children w).
  { unfold children. cbn [alive dead]. set_solver. }
  assert (Ha' : nx ∪ nc ∪ alive w ## dom (dead w)) by (unfold children in *; set_solver).
  unfold server_poll in Hp. destruct (pollerr p); [done|].
  set (s1 := if x_conn p && xsock s then _ else s) in Hp.
  assert (H1 : nx ∪ children w = opt_set (cmd s) ∪ connections s ∪ opt_set (xchild s1) /\ cmd s1 = cmd s /\
    connections s1 = connections s /\ opt_set (cmd s) ## opt_set (xchild s1) /\ connections s ## opt_set (xchild s1) /\
    (xsock s1 = true -> xchild s1 = None)).
  { unfold s1, nx in *. destruct (x_conn p && xsock s) eqn:E; cbn [cmd connections xchild xsock].
    - apply andb_true_iff in E as [_ E]. rewrite (Hx E) in *. destruct xspawn as [c|]; cbn [opt_set] in *; set_solver.
    - set_solver. }
  clearbody s1. destruct H1 as (E1 & E2 & E3 & D1 & D2 & X1). unfold add_connection in Hp. unfold nc in *.
  assert (Hstay : accepted a = ∅ \/ wayland_conn p = false -> s1 = s' -> tracked
    (MkWorld (nx ∪ (if wayland_conn p then accepted a else ∅) ∪ alive w) (dead w)) s').
  { intros Hn0 <-. split; rewrite ?E2, ?E3; try done. rewrite Hch, <- E1.
    destruct (wayland_conn p); [|set_solver]. destruct Hn0 as [->|]; [set_solver|done]. }
  destruct (wayland_conn p); [|injection Hp as Hp; by apply Hstay; [right|]].
  destruct a as [| | |pid]; [injection Hp as Hp; by apply Hstay; [left|]|done|done|].
  case_bool_decide; [done|]. injection Hp as <-. cbn [accepted] in *.
  split; cbn [cmd connections xchild xsock]; rewrite ?E2, ?E3; try done.
  - rewrite Hch. apply set_eq. intros z. assert (Hz : z ∈ nx ∪ children w <-> z ∈ opt_set (cmd s) ∪ connections s ∪ opt_set (xchild s1))
      by (by rewrite E1). clear -Hz. set_unfold. tauto.
  - assert (Hpid : pid ∉ nx ∪ children w) by (clear -Hnc Hn; set_solver). rewrite E1 in Hpid. clear -Hpid Hc1 D1 D2. set_solver.
Qed.

Lemma reach_tracked m x w s :
  rtc server_step (MkWorld {[m]} ∅, MkSup (Some m) ∅ None x) (w, s) -> tracked w s /\ cmd s = Some m.
Proof.
  set (c0 := (MkWorld {[m]} ∅, MkSup (Some m) ∅ None x)).
  cut (forall c, rtc server_step c0 c -> tracked c.1 c.2 /\ cmd c.2 = Some m); [intros Hc H; exact (Hc _ H)|].
  apply rtc_ind_r.
  { split; [|done]. split; cbn [cmd connections xchild xsock alive dead opt_set fst snd c0];
      [|set_solver|set_solver|done|done]. unfold children. cbn [alive dead]. rewrite dom_empty_L. set_solver. }
  intros [w1 s1] [w2 s2] _ Hstep [Ht Hm]. cbn [fst snd] in *.
  inversion Hstep as [? ? pid st Hin|? ? a s' pid Hma Hw|? ? p xs a s' Hp nx nc Hnx Hnc Hn]; subst.
  - split; [by apply stop_tracked|done].
  - destruct a as [pid' st| | |]; cbn in Hw; try done.
    destruct (wait_tracked w1 s1 pid' st Ht Hma) as [[_ E]|(_ & _ & s3 & E & Ht2)]; cbn in E; rewrite E in Hw; [done|].
    injection Hw as <- <-. split; [done|]. unfold prune_connections in E.
    repeat case_bool_decide; try done; injection E as <-; done.
  - split; [by apply (poll_tracked w1 s1 p xs a)|]. unfold server_poll, add_connection in Hp. rewrite <- Hm.
    destruct (pollerr p); [done|]. destruct (x_conn p && xsock s1), (wayland_conn p), a; try (injection Hp as <-; done);
      try done; case_bool_decide; try done; by injection Hp as <-.
Qed.

(** C37: the main process of `waypipe server` keeps track of its children, whatever the order in which
    they start and stop: those not waited for are exactly its command, its connections and
    xwayland-satellite. So every stopped child that the kernel reports is one of them, and waiting
    for it leaves fewer; the loop ends exactly for the command, with its status; the kernel never
    reports that there is no child; and the error of a reused pid cannot occur. *)
Theorem server_tracks_children m x w s :
  rtc server_step (MkWorld {[m]} ∅, MkSup (Some m) ∅ None x) (w, s) ->
  children w = {[m]} ∪ connections s ∪ opt_set (xchild s) /\
  (forall pid st, may_answer w (Reports pid st) ->
     pid = m /\ server_wait s (Reports pid st) = Ok (Stop (Some (m, st))) \/
     pid ∈ connections s ∪ opt_set (xchild s) /\
     exists s', server_wait s (Reports pid st) = Ok (Next s' pid) /\
       (size (delete pid (dead w)) < size (dead w))%nat) /\
  ~ may_answer w ECHILD /\
  (forall p xspawn pid, pid ∉ children w -> server_poll s p xspawn (Spawned pid) <> Err "Pid reuse").
Proof.
  intros Hr. destruct (reach_tracked _ _ _ _ Hr) as [Ht Hm]. pose proof (tr_all _ _ Ht) as Hall.
  rewrite Hm in Hall. cbn [opt_set] in Hall. split_and!; [done| | |].
  - intros pid st Hd. cbn in Hd. destruct (wait_tracked w s pid st Ht Hd) as [[E1 E2]|(Hin & _ & s' & E & _)].
    + left. rewrite Hm in E1. injection E1 as ->. done.
    + right. split; [done|]. exists s'. split; [done|]. rewrite map_size_delete_Some by eauto.
      assert (size (dead w) <> 0)%nat; [|lia]. intros E0%map_size_empty_inv. by rewrite E0, lookup_empty in Hd.
  - cbn. rewrite Hall. set_solver.
  - intros p xspawn pid Hf. unfold server_poll. destruct (pollerr p); [done|].
    destruct (wayland_conn p); [|done]. unfold add_connection.
    assert (pid ∉ connections s) by set_solver.
    destruct (x_conn p && xsock s); cbn [connections]; by rewrite bool_decide_false.
Qed.

Lemma server_tracks_children_witness :
  children (MkWorld {[1]} {[2 := Exited 0]}) = {[1]} ∪ {[2]} ∪ ∅ /\
  server_wait (MkSup (Some 1) {[2]} None false) (Reports 2 (Exited 0)) = Ok (Next (MkSup (Some 1) ∅ None false) 2).
Proof.
  assert (Hr : rtc server_step (MkWorld {[1]} ∅, MkSup (Some 1) ∅ None false)
                 (MkWorld ({[1; 2]} ∖ {[2]}) {[2 := Exited 0]}, MkSup (Some 1) {[2]} None false)).
  { eapply rtc_l; [apply (polled _ _ (MkPolled false true false) None (Spawned 2)); [vm_compute; reflexivity|..]|].
    1-3: unfold children; cbn [x_conn xsock wayland_conn accepted andb alive dead]; rewrite ?dom_empty_L; set_solver.
    eapply rtc_l; [apply (child_stops _ _ 2 (Exited 0)); cbn; set_solver|]. apply rtc_refl. }
  destruct (server_tracks_children 1 false _ _ Hr) as (E & Hw & _). split; [exact E|].
  destruct (Hw 2 (Exited 0)) as [[? _]|(_ & s' & E2 & _)]; [done|done|]. rewrite E2. injection E2 as <-. done.
Defined.

(** ** The X display *)
Inductive BindAnswer := Bound | InUse | BindFails.
(** What the calls for one display answer: creating the lock file if there is none, writing the pid to it,
    the two binds, and unlinking the lock file. *)
Record DisplayAnswers := MkAns {
  lock_created : bool; pid_written : bool; abstract_bind : BindAnswer; unix_bind : BindAnswer; unlinked : bool }.

(** [bind_sockets]: [Ok false] when a socket is in use. *)
Definition bind_sockets (a : DisplayAnswers) : res bool :=
  match abstract_bind a with
  | InUse => Ok false
  | BindFails => Err "Failed to bind abstract socket"
  | Bound => match unix_bind a with
             | InUse => Ok false
             | BindFails => Err "Failed to bind unix socket"
             | Bound => Ok true
             end
  end.
Definition unlink_lock (a : DisplayAnswers) (display : Z) (locks : gset Z) : res unit * gset Z :=
  if unlinked a then (Ok tt, locks ∖ {[display]}) else (Err "Failed to unlink X lock file", locks).

(** One turn for a display: [Some] result ends the loop. [locks]: the displays with a lock file. *)
Definition try_display (a : DisplayAnswers) (display : Z) (locks : gset Z) : option (res Z) * gset Z :=
  if bool_decide (display ∈ locks) then (None, locks) else
  if negb (lock_created a) then (Some (Err "Failed to create X lock file in '/tmp'"), locks) else
  let locks := {[display]} ∪ locks in
  if negb (pid_written a) then
    let '(r, locks) := unlink_lock a display locks in
    (Some (r;; Err "Failed to write pid to X lock file in '/tmp'"), locks)
  else
  match bind_sockets a with
  | Ok true => (Some (Ok display), locks)
  | Ok false =>
      let '(r, locks) := unlink_lock a display locks in
      (match r with Ok _ => None | Err e => Some (Err e) | Panic => Some Panic end, locks)
  | Err e => let '(r, locks) := unlink_lock a display locks in (Some (r;; Err e), locks)
  | Panic => (Some Panic, locks)
  end.
Fixpoint display_loop (answers : Z -> DisplayAnswers) (ds : list Z) (locks : gset Z) : res Z * gset Z :=
  match ds with
  | [] => (Err "Failed to bind a valid X display number in 0..=255", locks)
  | d :: ds =>
      match try_display (answers d) d locks with
      | (Some r, locks) => (r, locks)
      | (None, locks) => display_loop answers ds locks
      end
  end.
(** `0..u8::MAX` *)
Definition displays : list Z := seqZ 0 255.
Definition choose_x_display (answers : Z -> DisplayAnswers) (locks : gset Z) : res Z * gset Z :=
  display_loop answers displays locks.
(** Dropping [XCleanup]: the lock file goes last. *)
Definition drop_x_cleanup (display : Z) (locks : gset Z) : gset Z := locks ∖ {[display]}.

Lemma try_display_ok a d locks : (unlinked a = true) ->
  match try_display a d locks with
  | (None, locks') => locks' = locks
  | (Some (Ok d'), locks') => d' = d /\ (d ∉ locks) /\ locks' = ({[d]} ∪ locks) /\ lock_created a = true /\ pid_written a = true /\
      abstract_bind a = Bound /\ unix_bind a = Bound
  | (Some (Err _), locks') => locks' = locks
  | (Some Panic, _) => False
  end.
Proof.
  intros Hu. unfold try_display, unlink_lock. rewrite Hu. case_bool_decide as Hd; [done|].
  assert (Hun : ({[d]} ∪ locks) ∖ {[d]} = locks).
  { apply set_eq. intros z. destruct (decide (z = d)) as [->|]; set_solver. }
  destruct (lock_created a); cbn [negb]; [|done]. destruct (pid_written a); cbn [negb]; [|done].
  unfold bind_sockets. destruct (abstract_bind a); [destruct (unix_bind a)|..]; cbn [mbind res_bind]; done.
Qed.

(** choosing an X display never leaves a lock file behind but that of the display it gives: if
    lock files can be unlinked, an error leaves the lock files as they were; and success is for a
    display from 0 to 254 that had no lock file, whose sockets are both bound and whose lock file is
    the only new one; dropping the cleanup structure restores the lock files. *)
Theorem x_display_locks answers locks : (forall d, unlinked (answers d) = true) ->
  match choose_x_display answers locks with
  | (Ok d, locks') => 0 <= d < 255 /\ (d ∉ locks) /\ locks' = ({[d]} ∪ locks) /\
      abstract_bind (answers d) = Bound /\ unix_bind (answers d) = Bound /\ drop_x_cleanup d locks' = locks
  | (Err _, locks') => locks' = locks
  | (Panic, _) => False
  end.
Proof.
  intros Hu. unfold choose_x_display.
  assert (Hr : Forall (fun d => 0 <= d < 255) displays) by (apply Forall_forall; intros d Hd; apply elem_of_seqZ in Hd; lia).
  induction Hr as [|d l Hd Hl IH]; cbn [display_loop]; [done|].
  pose proof (try_display_ok (answers d) d locks (Hu d)) as H.
  destruct (try_display (answers d) d locks) as [[[d'|e|]|] locks']; [|done|done|by subst].
  destruct H as (-> & Hn & -> & _ & _ & ? & ?). split_and!; try done; [lia|lia|].
  unfold drop_x_cleanup. apply set_eq. intros z. destruct (decide (z = d)) as [->|]; set_solver.
Qed.

Lemma x_display_locks_witness :
  (choose_x_display (fun d => MkAns true true (if d =? 1 then InUse else Bound) Bound true) {[0]}).1 = Ok 2 /\
  (2 : Z) ∉ ({[0]} : gset Z).
Proof.
  pose proof (x_display_locks (fun d => MkAns true true (if d =? 1 then InUse else Bound) Bound true) {[0]} (fun _ => eq_refl)) as H.
  assert (E : (choose_x_display (fun d => MkAns true true (if d =? 1 then InUse else Bound) Bound true) {[0]}).1 = Ok 2)
    by (vm_compute; reflexivity).
  split; [exact E|]. revert H E. destruct (choose_x_display _ _) as [[d| |] l]; cbn [fst]; intros H E;
    [injection E as ->; apply H|discriminate E..].
Defined.
