(* ===== verification/Secctx.v ===== *)
(** * Security contexts (src/secctx.rs)

    [provide_secctx] asks the compositor for a security context: it looks for the global of the
    manager among the events it reads, sends the requests that set up the context together with two
    file descriptors, and waits until the compositor has handled them.

    The connection is the bytes that the compositor sends and those sent to it; how the kernel cuts
    each read and write is given by lists of [IoAnswer]. *)
From Stdlib Require Import ZArith Lia.
From S2P Require Import Prelude Util Wire Protocol ProtocolCorrect Connect.
Local Open Scope Z_scope.

(** ** Effects *)

(** The connection: what the compositor sends and is not read yet, the number of reads done, and
    what was written without file descriptors, and what was sent with which. *)
Record Conn := MkConn { incoming : bytes; reads : nat; written : bytes; sent_with_fds : option (bytes * list Z) }.
(** Code that uses the connection: [None] when it waits for the kernel. *)
Definition io (A : Type) : Type := Conn -> option (res A * Conn).
#[export] Instance io_bind : MBind io := fun A B f m c =>
  match m c with
  | Some (Ok a, c) => f a c
  | Some (Err e, c) => Some (Err e, c)
  | Some (Panic, c) => Some (Panic, c)
  | None => None
  end.
Definition lift {A} (r : res A) : io A := fun c => Some (r, c).
Definition done_ {A} (a : A) : io A := lift (Ok a).

(** ** The exchange *)
Definition display : Z := 1.
Definition registry : Z := 2.
Definition callback : Z := 3.
Definition manager : Z := 4.
Definition context : Z := 5.
Definition callback2 : Z := 6.
Definition WP_SECURITY_CONTEXT_MANAGER_V1 : bytes := String.list_byte_of_string "wp_security_context_manager_v1".

(** A request: the message, its object and its arguments. *)
Definition request : Type := Msg * Z * list argument.
Fixpoint write_requests (dst : bytes) (rs : list request) : res (bytes * bytes) :=
  match rs with
  | [] => Ok ([], dst)
  | (m, for_id, args) :: rs =>
      w ← write_msg m dst for_id false args;
      ws ← write_requests w.2 rs;
      Ok (w.1 ++ ws.1, ws.2)
  end.
Definition registry_requests : list request :=
  [(req_wl_display_get_registry, display, [AObj registry]); (req_wl_display_sync, display, [AObj callback])].
Definition context_requests (secctx_name : Z) (app_id : bytes) (pid : Z) : list request :=
  [(req_wl_registry_bind, registry,
      [AUint secctx_name; AString (Some WP_SECURITY_CONTEXT_MANAGER_V1); AUint 1; AObj manager]);
   (req_wp_security_context_manager_v1_create_listener, manager, [AObj context]);
   (req_wp_security_context_v1_set_app_id, context, [AString (Some app_id)]);
   (req_wp_security_context_v1_set_instance_id, context, [AString (Some (String.list_byte_of_string (show_u pid)))]);
   (req_wp_security_context_v1_set_sandbox_engine, context, [AString (Some (String.list_byte_of_string "waypipe"))]);
   (req_wp_security_context_v1_commit, context, []);
   (req_wl_display_sync, display, [AObj callback2])].

Section Exchange.
(** The answers of the kernel for each whole read. *)
Variable answers : nat -> list IoAnswer.

Definition read_whole (n : Z) : io bytes := fun c =>
  match read_exact (answers (reads c)) [] (Z.to_nat n) (incoming c) with
  | Some (Ok (data, rest)) => Some (Ok data, MkConn rest (S (reads c)) (written c) (sent_with_fds c))
  | Some (Err _) => Some (Err "Reading from compositor failed", c)
  | Some Panic => Some (Panic, c)
  | None => None
  end.
(** [&mut msg[8..]] panics when the length of the header is less than 8. *)
Definition read_event : io bytes :=
  msg ← read_whole 8;
  h ← lift (parse_wl_header msg);
  lift (assert_ (8 <=? h.1.2));;
  rest ← read_whole (h.1.2 - 8);
  done_ (msg ++ rest).
Definition write_whole (wa : list IoAnswer) (msg : bytes) : io unit := fun c =>
  match write_exact wa msg 0 (written c) with
  | Some (Ok out) => Some (Ok tt, MkConn (incoming c) (reads c) out (sent_with_fds c))
  | Some (Err _) => Some (Err "Failed to write to compositor", c)
  | Some Panic => Some (Panic, c)
  | None => None
  end.
(** [sendmsg] with descriptors, as [ScmRights]: it must take the whole message. *)
Fixpoint sendmsg (sa : list IoAnswer) (msg : bytes) (fds : list Z) : io unit := fun c =>
  match sa with
  | [] => None
  | Moves n :: _ =>
      if (Nat.min n (length msg) =? length msg)%nat
      then Some (Ok tt, MkConn (incoming c) (reads c) (written c) (Some (msg, fds)))
      else Some (Panic, c)
  | EINTR :: sa => sendmsg sa msg fds c
  | Fails :: _ => Some (Err "Failed to write to compositor", c)
  end.

(** The loop that looks for the global. *)
Fixpoint find_manager (fuel : nat) : io Z :=
  match fuel with
  | O => fun _ => None
  | S fuel =>
      msg ← read_event;
      h ← lift (parse_wl_header msg);
      let '(object_id, _, opcode) := h in
      if object_id =? callback then lift (Err "Compositor did not provide wp_security_context_manager_v1 global")
      else if object_id =? registry then
        if negb (opcode =? code (g_id evt_wl_registry_global)) then find_manager fuel else
        a ← lift (parse_msg evt_wl_registry_global msg);
        match a with
        | [AUint name; AString (Some interface); AUint version] =>
            if negb (bool_decide (interface = WP_SECURITY_CONTEXT_MANAGER_V1)) then find_manager fuel
            else lift (assert_ (1 <=? version));; done_ name
        | _ => lift Panic
        end
      else find_manager fuel
  end.
(** The loop that waits for [callback2]. *)
Fixpoint await_done (fuel : nat) : io unit :=
  match fuel with
  | O => fun _ => None
  | S fuel =>
      msg ← read_event;
      h ← lift (parse_wl_header msg);
      let '(object_id, _, opcode) := h in
      if object_id =? display then
        if opcode =? code (g_id evt_wl_display_delete_id) then await_done fuel
        else if opcode =? code (g_id evt_wl_display_error)
        then lift (parse_msg evt_wl_display_error msg);; lift (Err "Failed to set security context: Wayland error")
        else await_done fuel
      else if object_id =? callback2 then
        if opcode =? code (g_id evt_wl_callback_done) then done_ tt else await_done fuel
      else await_done fuel
  end.

(** Every event takes at least eight bytes, so the bytes left bound the turns of a loop. *)
Definition bounded {A} (loop : nat -> io A) : io A := fun c => loop (S (length (incoming c))) c.
Definition provide_secctx (app_id : bytes) (listen_fd close_fd pid : Z) (wa sa : list IoAnswer) : io unit :=
  w ← lift (write_requests (replicate 64 Byte.x00) registry_requests);
  write_whole wa w.1;;
  secctx_name ← bounded find_manager;
  w ← lift (write_requests (replicate 512 Byte.x00) (context_requests secctx_name app_id pid));
  sendmsg sa w.1 [listen_fd; close_fd];;
  bounded await_done.
End Exchange.

(** ** Writing into too small a buffer *)
Lemma set_range_fits {A} (l : list A) a b src : set_range l a b src = Panic \/
  b <= zlen l /\ exists l', set_range l a b src = Ok l' /\ zlen l' = zlen l.
Proof.
  destruct (set_range l a b src) as [l'| |] eqn:E; [right| |by left].
  - apply set_range_Ok in E as (? & ? & ? & ->). split; [done|]. eexists. split; [done|]. apply zlen_splice; lia.
  - unfold set_range in E. by destruct (_ && _).
Qed.
Lemma put_short tail b : zlen tail < zlen b -> put tail b = Panic.
Proof. intros H. unfold put. destruct (set_range_fits tail 0 (zlen b) b) as [->|[? _]]; [done|lia]. Qed.
Lemma put_padded_short tail len s e : zlen tail < e -> put_padded tail len s e = Panic.
Proof.
  intros H. unfold put_padded. destruct (set_range_fits tail 0 4 (to_le 4 len)) as [->|(_ & t & -> & E)]; [done|].
  cbn [mbind res_bind]. destruct (set_range_fits t 4 (zlen s + 4) s) as [->|(_ & t' & -> & E')]; [done|].
  cbn [mbind res_bind]. destruct (set_range_fits t' (zlen s + 4) e (replicate (Z.to_nat (e - (zlen s + 4))) Byte.x00)) as [->|(? & _)];
    [done|lia].
Qed.
Lemma write_arg_short a tail : arg_ok a -> zlen tail < arg_length a -> write_arg tail a = Panic.
Proof.
  destruct a as [v|v|v|[s|]|v]; cbn [arg_ok arg_length write_arg]; intros Hok Hl.
  1-3: unfold write_obj, write_u32, write_i32; apply put_short; exact Hl.
  - unfold write_string. pose proof (zlen_nonneg s). unfold wrap. rewrite Z.mod_small, chk_in by (unfold uN; lia).
    by apply put_padded_short.
  - unfold write_string. by apply put_short.
  - unfold write_array. by apply put_padded_short.
Qed.
Lemma write_args_short l : Forall arg_ok l -> forall tail, zlen tail < args_length l -> write_args tail l = Panic.
Proof.
  induction 1 as [|a l Ha Hl IH]; intros tail Hs; cbn [write_args]; [pose proof (zlen_nonneg tail); cbn in Hs; lia|].
  cbn [args_length foldr] in Hs. fold (args_length l) in Hs. destruct (decide (zlen tail < arg_length a)).
  { by rewrite write_arg_short. }
  destruct (arg_roundtrip a tail Ha ltac:(lia)) as (w & -> & Hw & _). cbn [mbind res_bind fst snd].
  rewrite IH; [done|]. unfold zlen in *. rewrite length_drop. lia.
Qed.
Lemma write_msg_short m dst for_id args : In m ALL_MESSAGES -> msg_args_ok m args ->
  args_length args < 2 ^ 60 -> zlen dst < 8 + args_length args -> write_msg m dst for_id false args = Panic.
Proof.
  intros Hm Ha Hl Hd. unfold write_msg. rewrite length_msg_ok by done. cbn [mbind res_bind]. unfold write_header.
  destruct (assert_ _) as [u| |] eqn:Ea; cbn [mbind res_bind]; [|unfold assert_ in Ea; by destruct (_ && _)|done].
  match goal with |- context [set_range dst 0 4 ?x] => destruct (set_range_fits dst 0 4 x) as [->|(_ & t & -> & E1)]; [done|] end.
  cbn [mbind res_bind].
  match goal with |- context [set_range t 4 8 ?x] => destruct (set_range_fits t 4 8 x) as [->|(H8 & t' & -> & E2)]; [done|] end.
  cbn [mbind res_bind]. rewrite get_from_ok by lia. cbn [mbind res_bind fst snd].
  rewrite write_args_short; [done| |].
  - eapply Forall_impl; [exact (proj2 Ha)|by intros ? []].
  - unfold zlen in *. rewrite length_drop. lia.
Qed.

(** ** Requests *)

(** [w] is the request on the wire. *)
Definition encodes (w : bytes) (r : request) : Prop :=
  let '(m, for_id, args) := r in
  parse_wl_header w = Ok (for_id, zlen w, code (g_id m)) /\ parse_msg m w = Ok args.
Definition request_ok (r : request) : Prop :=
  let '(m, for_id, args) := r in In m ALL_MESSAGES /\ msg_args_ok m args /\ uN 32 for_id /\ args_length args < 2 ^ 60.
Definition request_length (r : request) : Z := 8 + args_length r.2.
Definition requests_length (rs : list request) : Z := foldr (fun r n => request_length r + n) 0 rs.

Lemma request_length_pos r : request_ok r -> 8 <= request_length r.
Proof.
  destruct r as [[m i] args]. intros (_ & [_ Ha] & _). unfold request_length. cbn [snd].
  pose proof (args_length_nonneg args). enough (0 <= args_length args) by lia. apply H. eapply Forall_impl; [exact Ha|by intros ? []].
Qed.
Lemma requests_length_nonneg rs : Forall request_ok rs -> 0 <= requests_length rs.
Proof. induction 1 as [|r rs Hr _ IH]; cbn; [lia|]. fold (requests_length rs). pose proof (request_length_pos r Hr). lia. Qed.

Lemma write_requests_ok rs : Forall request_ok rs -> forall dst, requests_length rs <= zlen dst -> zlen dst < 2 ^ 16 ->
  exists ws, write_requests dst rs = Ok (concat ws, drop (length (concat ws)) dst) /\ Forall2 encodes ws rs /\
    zlen (concat ws) = requests_length rs.
Proof.
  induction 1 as [|r rs Hr Hrs IH]; intros dst Hl Hd; cbn [write_requests].
  { exists []. by repeat constructor. }
  cbn [requests_length foldr] in Hl. fold (requests_length rs) in Hl. pose proof (requests_length_nonneg rs Hrs).
  destruct r as [[m i] args]. destruct Hr as (Hm & Ha & Hi & Hs). unfold request_length in Hl. cbn [snd] in Hl.
  destruct (write_msg_ok m dst i false args) as (w & -> & Hw & _ & Hh & _ & Hp); [done..|lia|lia|].
  cbn [mbind res_bind fst snd]. destruct (IH (drop (length w) dst)) as (ws & -> & Hf & Hz).
  { unfold zlen in *. rewrite length_drop. lia. }
  { unfold zlen in *. rewrite length_drop. lia. }
  cbn [mbind res_bind fst snd]. exists (w :: ws). cbn [concat]. rewrite drop_drop, length_app. split; [done|].
  split; [by constructor|]. rewrite zlen_app. cbn [requests_length foldr]. fold (requests_length rs). unfold request_length. cbn [snd]. lia.
Qed.
Lemma write_requests_short rs : Forall request_ok rs -> forall dst, zlen dst < requests_length rs -> zlen dst < 2 ^ 16 ->
  write_requests dst rs = Panic.
Proof.
  induction 1 as [|r rs Hr Hrs IH]; intros dst Hl Hd; cbn [write_requests].
  { cbn in Hl. pose proof (zlen_nonneg dst). lia. }
  cbn [requests_length foldr] in Hl. fold (requests_length rs) in Hl. destruct r as [[m i] args].
  destruct Hr as (Hm & Ha & Hi & Hs). unfold request_length in Hl. cbn [snd] in Hl.
  destruct (decide (zlen dst < 8 + args_length args)); [by rewrite write_msg_short|].
  destruct (write_msg_ok m dst i false args) as (w & -> & Hw & _); [done..|lia|lia|].
  cbn [mbind res_bind fst snd]. rewrite IH; [done|unfold zlen in *; rewrite length_drop; lia..].
Qed.

(** The conditions of [request_ok] on a message of the list. *)
Ltac request_ok_tac :=
  split; [cbv [ALL_MESSAGES In]; repeat (first [left; reflexivity | right])|];
  split; [split; [reflexivity|rewrite ?Forall_cons, Forall_nil; cbn [arg_ok]; split_and?; try done]|split].
Lemma registry_requests_ok : Forall request_ok registry_requests.
Proof. unfold registry_requests. rewrite !Forall_cons, Forall_nil. split_and!; [request_ok_tac..|done]; done. Qed.

(** A process id fits into the ten bytes that it is printed to. *)
Lemma dec_digits_length fuel : forall k n acc, 0 <= n < 10 ^ (Z.of_nat k + 1) ->
  (String.length (dec_digits fuel n acc) <= String.length acc + S k)%nat.
Proof.
  induction fuel as [|fuel IH]; intros k n acc Hn; cbn [dec_digits]; [cbn; lia|]. case_match; [cbn; lia|].
  destruct k as [|k]; [cbn in Hn; lia|]. etransitivity; [apply (IH k)|cbn; lia]. split; [apply Z.div_pos; lia|].
  apply Z.div_lt_upper_bound; [lia|]. rewrite <- Z.pow_succ_r by lia. replace (Z.succ (Z.of_nat k + 1)) with (Z.of_nat (S k) + 1) by lia. lia.
Qed.
Lemma bytes_of_string_length t : length (String.list_byte_of_string t) = String.length t.
Proof. unfold String.list_byte_of_string. rewrite length_map. induction t as [|c t IH]; [done|]. cbn. by rewrite IH. Qed.
Lemma pid_length pid : uN 32 pid -> zlen (String.list_byte_of_string (show_u pid)) <= 10.
Proof.
  unfold uN, zlen. intros H. rewrite bytes_of_string_length.
  pose proof (dec_digits_length (Z.to_nat (Z.log2 pid)) 9 pid "") as L. cbn [String.length] in L. unfold show_u.
  specialize (L ltac:(change (10 ^ (Z.of_nat 9 + 1)) with 10000000000; lia)). lia.
Qed.

Section Context_.
Variables (name : Z) (app_id : bytes) (pid : Z).
Hypotheses (Hn : uN 32 name) (Ha : zlen app_id + 1 < 2 ^ 32) (Hp : uN 32 pid).
#[local] Set Default Proof Using "All".
Lemma context_requests_length :
  requests_length (context_requests name app_id pid)
  = 132 + pad4 (zlen app_id + 1) + pad4 (zlen (String.list_byte_of_string (show_u pid)) + 1).
Proof.
  pose proof (pid_length pid Hp). pose proof (zlen_nonneg app_id).
  unfold requests_length, context_requests, request_length. cbn [foldr snd args_length arg_length].
  set (pb := String.list_byte_of_string (show_u pid)) in *. pose proof (zlen_nonneg pb).
  rewrite (length_string_ok (zlen app_id)), (length_string_ok (zlen pb)) by lia.
  change (length_string (zlen WP_SECURITY_CONTEXT_MANAGER_V1)) with 36.
  change (length_string (zlen (String.list_byte_of_string "waypipe"))) with 12. lia.
Qed.
Lemma context_requests_ok : Forall request_ok (context_requests name app_id pid).
Proof.
  pose proof (pid_length pid Hp). pose proof (zlen_nonneg app_id).
  unfold context_requests. rewrite !Forall_cons, Forall_nil. split_and!; [request_ok_tac..|done]; try done; try lia.
  - cbn [args_length foldr arg_length]. rewrite length_string_ok by lia. pose proof (pad4_spec (zlen app_id + 1)). lia.
  - cbn [args_length foldr arg_length]. set (pb := String.list_byte_of_string _) in *. pose proof (zlen_nonneg pb).
    rewrite length_string_ok by lia. pose proof (pad4_spec (zlen pb + 1)). lia.
Qed.
End Context_.

(** ** Events *)
Lemma io_step {A B} (m : io A) (f : A -> io B) c a c' : m c = Some (Ok a, c') -> (m ≫= f) c = f a c'.
Proof. intros H. unfold mbind, io_bind. by rewrite H. Qed.
Lemma io_panic {A B} (m : io A) (f : A -> io B) c c' : m c = Some (Panic, c') -> (m ≫= f) c = Some (Panic, c').
Proof. intros H. unfold mbind, io_bind. by rewrite H. Qed.
Lemma io_err {A B} (m : io A) (f : A -> io B) c e c' : m c = Some (Err e, c') -> (m ≫= f) c = Some (Err e, c').
Proof. intros H. unfold mbind, io_bind. by rewrite H. Qed.
Lemma lift_step {A B} (r : res A) (f : A -> io B) c a : r = Ok a -> (lift r ≫= f) c = f a c.
Proof. intros ->. by apply io_step. Qed.

(** A whole event of an object. *)
Definition is_event (e : bytes) (object_id opcode : Z) : Prop := parse_wl_header e = Ok (object_id, zlen e, opcode).
Lemma is_event_header e o op : is_event e o op -> 8 <= zlen e /\ parse_wl_header (take 8 e) = Ok (o, zlen e, op).
Proof.
  unfold is_event, parse_wl_header. intros H. apply bind_Ok in H as (a & Ha & H). apply bind_Ok in H as (b & Hb & H).
  apply get_range_Ok in Ha as (_ & _ & ->). apply get_range_Ok in Hb as (_ & H8 & ->). split; [done|].
  assert (Hs : forall i j, 0 <= i -> j <= 8 -> slice (take 8 e) i j = slice e i j).
  { intros i j Hi Hj. rewrite <- (take_drop 8 e) at 2. symmetry. apply slice_app_l; [done|]. unfold zlen in *. rewrite length_take. lia. }
  rewrite !get_range_ok by (try (unfold zlen in *; rewrite length_take); lia). cbn [mbind res_bind]. by rewrite !Hs by lia.
Qed.

(** An event before the manager is found, the global of the manager, and an event that is ignored
    at the end. *)
Definition skipped (e : bytes) : Prop := exists o op, is_event e o op /\ o <> callback /\
  (o = registry -> op = 0 -> exists n i v,
     parse_msg evt_wl_registry_global e = Ok [AUint n; AString (Some i); AUint v] /\ i <> WP_SECURITY_CONTEXT_MANAGER_V1).
Definition manager_event (e : bytes) (name : Z) : Prop := is_event e registry 0 /\ uN 32 name /\ exists v, 1 <= v /\
  parse_msg evt_wl_registry_global e = Ok [AUint name; AString (Some WP_SECURITY_CONTEXT_MANAGER_V1); AUint v].
Definition ignored (e : bytes) : Prop := exists o op, is_event e o op /\ (o = display -> op <> 0) /\ (o = callback2 -> op <> 0).

Section Events.
(** The kernel delivers: each read has answers for up to [L] bytes. *)
Variables (answers : nat -> list IoAnswer) (L : nat).
Hypothesis serves : forall k, working (answers k) /\ (L <= moves (answers k))%nat.
#[local] Set Default Proof Using "serves".

Lemma read_whole_ok n data rest k w s : zlen data = n -> (length (data ++ rest) <= L)%nat ->
  read_whole answers n (MkConn (data ++ rest) k w s) = Some (Ok data, MkConn rest (S k) w s).
Proof.
  intros Hn HL. rewrite length_app in HL. destruct (serves k) as [Hw Hm].
  unfold read_whole. cbn [reads incoming written sent_with_fds].
  assert (E : Z.to_nat n = length data) by (unfold zlen in Hn; lia). rewrite E.
  rewrite read_exact_ok; [|done|cbn; lia|cbn [length]; lia|rewrite length_app; cbn [length]; lia].
  cbn [length app]. by rewrite Nat.sub_0_r, take_app_length, drop_app_length.
Qed.
Lemma read_event_ok e o op rest k w s : is_event e o op -> (length (e ++ rest) <= L)%nat ->
  read_event answers (MkConn (e ++ rest) k w s) = Some (Ok e, MkConn rest (S (S k)) w s).
Proof.
  intros He HL. destruct (is_event_header e o op He) as [H8 Hh]. unfold read_event.
  assert (Hs : e ++ rest = take 8 e ++ (drop 8 e ++ rest)) by (by rewrite app_assoc, take_drop).
  rewrite Hs in HL |- *. erewrite io_step by (apply read_whole_ok; [unfold zlen in *; rewrite length_take; lia|done]).
  rewrite (lift_step _ _ _ _ Hh). cbn [fst snd]. erewrite lift_step by (apply assert_true; lia).
  erewrite io_step by (apply read_whole_ok; [unfold zlen in *; rewrite length_drop; lia|rewrite length_app in HL; lia]).
  unfold done_, lift. by rewrite take_drop.
Qed.

(** A [skipped] event is read and passed over. *)
Lemma find_manager_skips e fuel rest k w s : skipped e -> (length (e ++ rest) <= L)%nat ->
  find_manager answers (S fuel) (MkConn (e ++ rest) k w s) = find_manager answers fuel (MkConn rest (S (S k)) w s).
Proof.
  intros (o & op & He & Hc & Hr) HL. cbn [find_manager]. erewrite io_step by (by apply (read_event_ok e o op)).
  rewrite (lift_step _ _ _ _ He). cbn beta iota. rewrite (proj2 (Z.eqb_neq _ _) Hc). cbn beta iota.
  destruct (Z.eqb_spec o registry) as [Eo|]; [|done]. destruct (Z.eqb_spec op (code (g_id evt_wl_registry_global))) as [Ep|]; [|done].
  cbn [negb]. destruct (Hr Eo Ep) as (n & i & u & Hpi & Hi). rewrite (lift_step _ _ _ _ Hpi).
  by rewrite bool_decide_false by done.
Qed.
Lemma find_manager_skips_all before : Forall skipped before -> forall fuel rest k w s,
  (length (concat before ++ rest) <= L)%nat ->
  find_manager answers (length before + fuel) (MkConn (concat before ++ rest) k w s) =
  find_manager answers fuel (MkConn rest (2 * length before + k) w s).
Proof.
  induction 1 as [|e before He Hb IH]; intros fuel rest k w s HL; [done|]. cbn [concat length Nat.add] in *.
  rewrite <- app_assoc in HL |- *. rewrite find_manager_skips by done. rewrite IH by (rewrite length_app in HL; lia).
  do 2 f_equal. lia.
Qed.
Lemma find_manager_ok before ev name fuel rest k w s : Forall skipped before -> manager_event ev name ->
  (length before < fuel)%nat -> (length (concat before ++ ev ++ rest) <= L)%nat ->
  exists k', find_manager answers fuel (MkConn (concat before ++ ev ++ rest) k w s) = Some (Ok name, MkConn rest k' w s).
Proof.
  intros Hb (Hev & _ & v & Hv & Hp) Hf HL. replace fuel with (length before + S (fuel - length before - 1))%nat by lia.
  rewrite find_manager_skips_all by done. cbn [find_manager].
  erewrite io_step by (apply (read_event_ok ev registry 0); [done|rewrite length_app in HL; lia]).
  rewrite (lift_step _ _ _ _ Hev). cbn beta iota.
  change (registry =? callback) with false. change (registry =? registry) with true.
  change (negb (0 =? code (g_id evt_wl_registry_global))) with false. cbn beta iota.
  rewrite (lift_step _ _ _ _ Hp). rewrite bool_decide_true by done. cbn [negb].
  erewrite lift_step by (apply assert_true; lia). by eexists.
Qed.
Lemma find_manager_refused before cb op fuel rest k w s : Forall skipped before -> is_event cb callback op ->
  (length before < fuel)%nat -> (length (concat before ++ cb ++ rest) <= L)%nat ->
  exists k', find_manager answers fuel (MkConn (concat before ++ cb ++ rest) k w s) =
    Some (Err "Compositor did not provide wp_security_context_manager_v1 global", MkConn rest k' w s).
Proof.
  intros Hb Hcb Hf HL. replace fuel with (length before + S (fuel - length before - 1))%nat by lia.
  rewrite find_manager_skips_all by done. cbn [find_manager].
  erewrite io_step by (apply (read_event_ok cb callback op); [done|rewrite length_app in HL; lia]).
  rewrite (lift_step _ _ _ _ Hcb). by eexists.
Qed.
Lemma await_done_ok after ev : Forall ignored after -> is_event ev callback2 0 ->
  forall fuel rest k w s, (length after < fuel)%nat -> (length (concat after ++ ev ++ rest) <= L)%nat ->
  exists k', await_done answers fuel (MkConn (concat after ++ ev ++ rest) k w s) = Some (Ok tt, MkConn rest k' w s).
Proof.
  intros Hb Hev. induction Hb as [|e after (o & op & He & Hd & Hc) Hb IH]; intros fuel rest k w s Hf HL;
    (destruct fuel as [|fuel]; [cbn in Hf; lia|]); cbn [await_done concat app] in *.
  - erewrite io_step by (by apply (read_event_ok ev callback2 0)). rewrite (lift_step _ _ _ _ Hev). cbn beta iota.
    change (callback2 =? display) with false. change (callback2 =? callback2) with true. cbn beta iota. by eexists.
  - rewrite <- !app_assoc in HL |- *. erewrite io_step by (by apply (read_event_ok e o op)).
    rewrite (lift_step _ _ _ _ He). cbn beta iota.
    assert (HI := IH fuel rest (S (S k)) w s ltac:(cbn in Hf; lia) ltac:(rewrite length_app in HL; lia)).
    destruct (Z.eqb_spec o display) as [Eo|]; [specialize (Hd Eo)|destruct (Z.eqb_spec o callback2) as [Eo|]; [specialize (Hc Eo)|done]].
    + destruct (op =? code (g_id evt_wl_display_delete_id)); [done|].
      by rewrite (proj2 (Z.eqb_neq op (code (g_id evt_wl_display_error))) Hd).
    + by rewrite (proj2 (Z.eqb_neq op (code (g_id evt_wl_callback_done))) Hc).
Qed.
End Events.

Lemma events_length (P : bytes -> Prop) es : (forall e, P e -> exists o op, is_event e o op) -> Forall P es ->
  (length es <= length (concat es))%nat.
Proof.
  intros HP. induction 1 as [|e es He _ IH]; cbn [concat length]; [lia|]. destruct (HP e He) as (o & op & H).
  apply is_event_header in H as [H _]. unfold zlen in H. rewrite length_app. lia.
Qed.
Lemma hello_written answers app_id listen_fd close_fd pid wa sa stream : working wa -> (24 <= moves wa)%nat ->
  exists hello, Forall2 encodes hello registry_requests /\
    provide_secctx answers app_id listen_fd close_fd pid wa sa (MkConn stream 0 [] None) =
    (secctx_name ← bounded (find_manager answers);
     w ← lift (write_requests (replicate 512 Byte.x00) (context_requests secctx_name app_id pid));
     sendmsg sa w.1 [listen_fd; close_fd];; bounded (await_done answers)) (MkConn stream 0 (concat hello) None).
Proof.
  intros Hw Hm. destruct (write_requests_ok registry_requests registry_requests_ok (replicate 64 Byte.x00)) as (hello & E & Hf & Hz);
    [vm_compute; congruence|vm_compute; congruence|].
  exists hello. split; [done|]. unfold provide_secctx. rewrite (lift_step _ _ _ _ E). cbn [fst].
  assert (Hl : length (concat hello) = 24%nat) by (unfold zlen in Hz; change (requests_length registry_requests) with 24 in Hz; lia).
  erewrite io_step; [reflexivity|]. unfold write_whole. cbn [written incoming reads sent_with_fds].
  rewrite write_exact_ok by (done || lia). by rewrite drop_0.
Qed.
Lemma sendmsg_ok i n msg fds c : (length msg <= n)%nat ->
  sendmsg (replicate i EINTR ++ [Moves n]) msg fds c = Some (Ok tt, MkConn (incoming c) (reads c) (written c) (Some (msg, fds))).
Proof.
  intros H. induction i as [|i IH]; cbn [replicate app sendmsg]; [|done].
  by replace (_ =? _)%nat with true by (symmetry; apply Nat.eqb_eq; lia).
Qed.

(** C36: a security context is set up by the exchange that the protocol asks for, however the kernel
    cuts the reads: when the compositor announces the manager after any other events, the requests
    that are sent decode to the binding of this global, a context that listens, its name, instance
    and engine, and its commit, in this order, and go together with the descriptor to listen on and the one whose end
    stops it, in the order of the arguments of [create_listener]; the call succeeds once the
    compositor is done, whatever other events but errors it sends before. The only limit is the
    buffer of 512 bytes: with a longer name the call panics before it sends any of them. *)
Theorem secctx_registers answers wa i n before ev name after ev_done rest app_id listen_fd close_fd pid :
  let stream := concat before ++ ev ++ concat after ++ ev_done ++ rest in
  (forall k, working (answers k) /\ (length stream <= moves (answers k))%nat) ->
  working wa -> (24 <= moves wa)%nat -> (512 <= n)%nat ->
  Forall skipped before -> manager_event ev name -> Forall ignored after -> is_event ev_done callback2 0 ->
  zlen app_id + 1 < 2 ^ 32 -> uN 32 pid ->
  let run := provide_secctx answers app_id listen_fd close_fd pid wa (replicate i EINTR ++ [Moves n]) (MkConn stream 0 [] None) in
  exists hello, Forall2 encodes hello registry_requests /\
    if 132 + pad4 (zlen app_id + 1) + pad4 (zlen (String.list_byte_of_string (show_u pid)) + 1) <=? 512
    then exists ws k, Forall2 encodes ws (context_requests name app_id pid) /\
           run = Some (Ok tt, MkConn rest k (concat hello) (Some (concat ws, [listen_fd; close_fd])))
    else exists c, run = Some (Panic, c) /\ written c = concat hello /\ sent_with_fds c = None.
Proof.
  intros stream Hs Hw Hm Hn Hb Hev Ha Hd Hid Hpid run. unfold run.
  destruct (hello_written answers app_id listen_fd close_fd pid wa (replicate i EINTR ++ [Moves n]) stream Hw Hm) as (hello & Hh & ->).
  exists hello. split; [done|].
  destruct (find_manager_ok answers _ Hs before ev name (S (length stream)) (concat after ++ ev_done ++ rest) 0%nat
    (concat hello) None Hb Hev) as (k & Ef); [|done|].
  { pose proof (events_length skipped before ltac:(intros e (o & op & H & _); by exists o, op) Hb).
    unfold stream. rewrite length_app. lia. }
  erewrite io_step by exact Ef. destruct Hev as (_ & Hname & _).
  pose proof (context_requests_length name app_id pid Hname Hid Hpid) as Hlen. rewrite <- Hlen.
  pose proof (context_requests_ok name app_id pid Hname Hid Hpid) as Hok.
  assert (H512 : zlen (replicate 512 Byte.x00) = 512) by done.
  destruct (Z.leb_spec (requests_length (context_requests name app_id pid)) 512) as [Hle|Hgt].
  - destruct (write_requests_ok _ Hok (replicate 512 Byte.x00)) as (ws & Ew & Hf & Hz); [lia|lia|].
    rewrite (lift_step _ _ _ _ Ew). cbn [fst].
    erewrite io_step by (apply sendmsg_ok; unfold zlen in Hz; lia). cbn [incoming reads written].
    destruct (await_done_ok answers _ Hs after ev_done Ha Hd (S (length (concat after ++ ev_done ++ rest))) rest k
      (concat hello) (Some (concat ws, [listen_fd; close_fd]))) as (k' & Ed).
    { pose proof (events_length ignored after ltac:(intros e (o & op & H & _); by exists o, op) Ha). rewrite length_app. lia. }
    { unfold stream. rewrite !length_app. lia. }
    exists ws, k'. split; [done|]. exact Ed.
  - eexists. split; [apply io_panic; rewrite write_requests_short by (done || lia); reflexivity|done].
Qed.

Lemma secctx_registers_witness :
  let ev := [2;0;0;0; 0;0;52;0; 7;0;0;0; 31;0;0;0] in
  let wp := String.list_byte_of_string "wp_security_context_manager_v1" in
  let b := map (fun z => byte.of_Z z) in
  let ev := b ev ++ wp ++ b [0;0; 1;0;0;0] in
  let ev_done := b [6;0;0;0; 0;0;12;0; 0;0;0;0] in
  let reads := fun _ : nat => replicate 100 (Moves 5) in
  let wa := replicate 24 (Moves 3) in
  exists ws c, Forall2 encodes ws (context_requests 7 (String.list_byte_of_string "app") 77) /\
    provide_secctx reads (String.list_byte_of_string "app") 4 5 77 wa [EINTR; Moves 600] (MkConn (ev ++ ev_done) 0 [] None) = Some (Ok tt, c) /\
    sent_with_fds c = Some (concat ws, [4; 5]).
Proof.
  intros ev0 wp b ev ev_done reads wa.
  destruct (secctx_registers reads wa 1 600 [] ev 7 [] ev_done [] (String.list_byte_of_string "app") 4 5 77) as (hello & _ & H);
    [| | |lia|constructor| |constructor|reflexivity|done|unfold uN; lia|].
  - intros k. split; [apply Forall_replicate; lia|vm_compute; lia].
  - apply Forall_replicate. lia.
  - vm_compute; lia.
  - split; [reflexivity|]. split; [unfold uN; lia|]. exists 1. split; [lia|]. reflexivity.
  - change (132 + _ + _ <=? 512) with true in H. destruct H as (ws & k & Hf & E). exists ws. eexists. split; [exact Hf|].
    split; [exact E|done].
Defined.

(** Without the manager, the call fails and no request but the first two is sent. *)
Theorem secctx_refused answers wa sa before cb op rest app_id listen_fd close_fd pid :
  let stream := concat before ++ cb ++ rest in
  (forall k, working (answers k) /\ (length stream <= moves (answers k))%nat) ->
  working wa -> (24 <= moves wa)%nat -> Forall skipped before -> is_event cb callback op ->
  exists c, provide_secctx answers app_id listen_fd close_fd pid wa sa (MkConn stream 0 [] None) =
    Some (Err "Compositor did not provide wp_security_context_manager_v1 global", c) /\ sent_with_fds c = None.
Proof.
  intros stream Hs Hw Hm Hb Hcb.
  destruct (hello_written answers app_id listen_fd close_fd pid wa sa stream Hw Hm) as (hello & _ & ->).
  assert (Hf : (length before < S (length stream))%nat).
  { pose proof (events_length skipped before ltac:(intros e (o & p & H & _); by exists o, p) Hb). unfold stream. rewrite length_app. lia. }
  destruct (find_manager_refused answers _ Hs before cb op (S (length stream)) rest 0%nat (concat hello) None Hb Hcb Hf) as (k & E);
    [done|]. eexists. split; [apply io_err; exact E|done].
Qed.
